(* ===== verification/_CoqProject ===== *)
-Q . S2P
Prelude.v
Text.v
Tables.v
Effects.v
Externals.v
Fs.v
Pairing.v
Schema.v
Token.v
Bits.v
Validation.v
Password.v
Encryption.v
Totp.v
Bip39Words.v
Bip39.v
Auth.v
Account.v
Storage.v
Files.v
Tree.v
Tenancy.v
Quota.v
Sharing.v
Versions.v
Resumable.v
Device.v
Backup.v
Restore.v
Http.v
Paths.v
Webdav.v
S3.v
Family.v
Policy.v
Sync.v
Delta.v
Queue.v
Identity.v
Base64.v
Lan.v
Uploads.v
Jail.v
Json.v
Utf8.v
FsHandler.v
Transcoder.v
Tunnel.v
LanServer.v
Streaming.v
Notify.v
Router.v
Discovery.v
Email.v
I18n.v
Plugin.v
Cluster.v
Maintenance.v
Search.v
Codec.v
Insight.v
LocalDb.v
Watcher.v
Config.v
AgentSync.v
Enroll.v
Disks.v
Diagnostics.v
Outbound.v
Agent.v
System.v
