(* ===== verification/Prelude.v ===== *)
(** * PCOS: a verification library for the Rust services of the personal cloud

    ** The program

    PCOS is a self-hosted cloud.  backend/ is a gateway that mounts the crates
    of backend/crates as HTTP handlers over one PostgreSQL database and one
    directory of blobs; agent/ is the daemon on a user's machine, which keeps
    a queue of transfers, cuts files into chunks, serves files on the local
    network and to its owner over a tunnel, and uploads what changes on it.  A
    request passes the extractor of common/src/auth, which checks
    its bearer token and gives the handler the user's identifier; the handler
    reads and writes rows and files and answers a value or an [AppError].

    The interesting state is shared: the rows of file_entries are written by
    the file service, the sharing service (anonymous uploads), the resumable
    uploads, the versions, the backups and the sync engine; accounts, second
    factors and sessions by auth, user and the pairing of devices; and the
    blobs under the storage root by all that store files.  So there is one
    model of that state, [Schema.Server], and every handler is a program over
    it.  An agent has its own disk and table; where it talks to the gateway
    (AgentSync, Enroll, Agent) the two run together, request and answer
    included.

    ** The files

    Foundations.
    - Prelude: tactics, the hint database, lists, stable sorting, tables.
    - Text: str as its scalar values, with the string functions of std.
    - Effects: [AppError] and its rendering (common/src/error.rs); the monad of
      the handlers, [M D A := World D -> outcome A * World D]; the environment
      of a run, [Oracle]; Hoare-style lemmas, [preserves] above all.
    - Externals: the crates the code calls (digests, argon2, hex, uuid, chrono,
      Unicode tables, MIME types, collation) as classes whose laws are their
      documentation, each with a concrete instance used by the witnesses.
    - Fs: std::fs on a tree of files, directories and symbolic links.
    - Schema: the rows, their constraints, and [Server].
    - Bits: regrouping of bit streams, for base32, base64 and BIP-39; Tables:
      what an UPDATE, DELETE or INSERT keeps of a constraint; Utf8 and Json: the
      decoding of UTF-8, and the values of serde_json with their access; Codec:
      an instance of its printer and parser for concrete runs.

    Accounts: Token (common/src/auth/jwt.rs, middleware.rs), Validation
    (auth/validation.rs), Password (auth/password.rs), Encryption
    (common/src/encryption.rs), Totp (auth/src/mfa.rs), Bip39 with Bip39Words
    (auth/src/recovery.rs), Auth (auth/src/service.rs and the handlers of
    mfa.rs), Account (user/src/service.rs, admin.rs, recovery handlers), Family
    (user/src/family.rs), Pairing and Device (device/src).

    Files: Storage (file_metadata/src/storage.rs), Files (service.rs, the
    definitions), Tree (the tree operations of Files), Tenancy (isolation of
    users), Quota, Sharing (sharing/src), Versions (versioning.rs), Resumable
    (resumable.rs), Uploads (the handlers of handlers.rs with work of their
    own), Policy (policy.rs), Sync (sync_engine/src), Backup (backup/src) and
    Restore (whose rows a restoration writes); the two other ways to the files,
    Webdav (webdav.rs) and S3 (s3_compat.rs), with Paths (a user's files as a
    tree of names) and Http (their headers and ranges).

    What is made of the files: Streaming (streaming/src), Search (search/src),
    Insight (analytics, ai and worker), Notify and Email (notification/src),
    Cluster (gateway/src/cluster.rs).

    The gateway: Router (the table of addresses and the extractor), Maintenance
    (its background tasks), Diagnostics (the doctors of gateway and agent),
    I18n and Plugin (common/src, used by no handler), and System, which runs
    requests to all handlers and the ticks over one state.

    The agent: Delta (agent/src/delta.rs), Queue (queue.rs), Identity
    (identity.rs), Base64 (fs_handler.rs), Jail (directories no link leads out
    of) and FsHandler (fs_handler.rs), Transcoder (transcoder.rs), Tunnel and
    Outbound (connection_manager.rs), Lan and LanServer (lan_server.rs, and the
    Range parser of file_metadata/src/handlers.rs), Discovery (discovery.rs),
    LocalDb (db.rs), Watcher (watcher.rs), AgentSync (sync.rs, against the
    modelled server), Config (config.rs), Enroll (enroll.rs, against the
    modelled server), Disks (disks.rs), Agent (main.rs).

    Definitions keep the names of the source; a [Fixpoint] inside a handler is
    the loop of that handler, and a definition without a counterpart of its
    name is a closure or a query of the function it is named after.

    ** How code is rendered

    - A handler is a program of [M Server].  An error is a value of
      [AppError]; [Panic] is an overflow, an index out of range or an unwrap of
      nothing; [Diverge] is a statement or loop that never ends.
    - A database statement runs on the state by itself and checks the whole
      schema ([schema_ok]: primary keys, UNIQUE, NOT NULL by the type, CHECK,
      REFERENCES, lengths of VARCHAR, ranges of integers) when it ends.  A
      statement that breaks a constraint is an error and changes nothing.
      [Oracle.db_fault] says which statements fail for other reasons and
      [Oracle.io_fault] which file operations do: theorems hold for every
      oracle unless they say [reliable].  Identifiers, random bytes and the
      clock are read from the oracle by position.
    - Handlers run one after the other.  Where the interleaving of two matters
      the handler is cut in the parts between which the other can run, and the
      theorem runs the parts in the order that breaks ([limit_race],
      [redeem_race]); [enroll_sound] lets others act at the server between any
      two requests of the agent.
    - Machine integers are Z with their wrap-around ([wrap_i64], [wrap_u32],
      ...) or their overflow panic written where they can occur.
    - Strings are lists of scalar values; lengths that the code takes in bytes
      are computed from their UTF-8 encoding.
    - Requests arrive decoded: the JSON, multipart and query parsing of axum and
      serde is outside, as is what the handlers log.  The texts of errors of
      the operating system and of the database are abstract.

    ** Fuel

    There is none in the statements.  The recursive queries of PostgreSQL
    (descendants of a folder) run at most one round more than the table has
    rows and are [Diverge] beyond, which [delete_item_ends_iff] shows is exact:
    the query ends if and only if no cycle of parents is reached.  The cycle
    walks, PBKDF2, base32 and chunking loops carry as fuel the length of their
    input, and each has a theorem that it suffices (the loop ends with the
    result of a reference definition that has no fuel).  Path resolution
    follows forty links at most, which is the limit of Linux, so that the scan
    of a directory ends within 41 levels for each level of the disk
    ([scan_indexes]).  The enrollment asks sixty times, as the code does.

    ** What is shown

    - The services together: [server_invariant] and [tenants_isolated], over
      sequences of requests to any handlers; below them [tenant_isolation],
      [sharing_confined], [versions_isolated], [resumable_isolated],
      [devices_isolated], [family_gate], [admin_operations_gated],
      [inbox_kept]: what one caller does leaves what is not his as it was,
      whatever fails.  The one operation that compares no owner, the restoration
      of a backup, is in them under the hypothesis that the manifest on the disk
      names no row of another user ([restore_takes_any_row] without it).
    - The addresses: [gate_closed], [route_reached], [table_well_formed].
    - State invariants, over any sequence of operations of any callers:
      [file_table_invariant], [pairing_invariant], [queue_invariant],
      [administrator_remains], [second_factor_stays], [job_states],
      [peers_sound].
    - Soundness of the gates: [login_sound], [register_sound],
      [refresh_single_use], [change_password_sound], [recovery_sound],
      [redeem_sound], [approve_sound], [download_shared_sound],
      [download_limit], [upload_within_quota], [play_confined].
    - The blobs: [storage_confined] for every path a caller supplies, links
      included; [store_file_atomic], [assemble_chunks_concat],
      [finalize_publishes], [restore_version_spec], [backup_verifies],
      [verify_spec], [restore_files_spec], [retention_spec], [multipart_rows],
      [download_resumes], [webdav_put_get], [put_get_object].
    - Trees and feeds: [delete_item_marks_subtree], [trash_roundtrip],
      [delete_item_ends_iff], [get_changes_spec], [socket_answers]; WebDAV
      refines a tree of names, [webdav_refines].
    - Reports and messages: [dashboards_agree], [search_answers],
      [reindex_spec], [send_push_spec], [send_sound], [rebalance_converges],
      [tags_of_spec].
    - The agent's disk: [changes_confined], [tunnel_confined],
      [read_chunk_spec], [write_then_read], [lan_gate], [lan_read_spec].
    - The agent and the gateway together: [whole_file_arrives],
      [sync_round_sound], [scan_indexes], [enroll_sound], [daemon_enrolled],
      [config_roundtrip].
    - Codecs and algorithms against references: [pbkdf2_is_rfc],
      [bip39_validates_generated], [split_into_chunks_partition],
      [base64_roundtrip], [base32_roundtrip], [uri_roundtrip],
      [percent_roundtrip], [parse_range_spec], [placement_is_first_rule],
      [cgnat_tests_agree].
    - Where the code does not do what it means to, a theorem says what it does:
      [move_into_descendant_loops], [trash_name_taken], [quota_gaps],
      [auth_fails_open_on_database_errors], [limit_race], [redeem_race],
      [attempts_not_counted], [init_transfer_fails], [restore_gaps],
      [restore_takes_any_row], [bases_differ], [webdav_gaps], [move_copy_gaps],
      [search_leaks], [jail_leaks], [policy_leaks], [lan_gaps], [replica_gaps],
      [refused_body_stays], [never_uploaded], [stale_rows_starve],
      [duplicates_refused], [production_refused], [mail_smuggled],
      [split_into_chunks_loses_last_byte].

    A theorem with hypotheses is followed by a closed instance of it,
    named [..._witness], on a small server computed by the handlers themselves.

    ** What is not modelled

    The transport (axum, TLS, WebSocket framing, the sockets), the start-up and
    the timers of the gateway and the reading of its configuration, whose values
    are arguments; the clients of external identity providers (auth/src/ldap.rs,
    oidc.rs); and, as parameters with their documented laws, the programs and
    libraries the code calls: PostgreSQL's collation, tantivy, ffmpeg, tesseract,
    pg_dump, the server of a language model, push services and mail servers,
    serde_json and toml.  Within the modelled parts: a partial write that an
    error interrupts leaves the file of before the write; concurrent requests
    interleave only where a theorem says so; NUL bytes in texts, which PostgreSQL
    refuses, are accepted. *)

From Stdlib Require Export ZArith Lia Bool Ascii String ZifyBool.
From stdpp Require Export base list option gmap.
From stdpp Require Import strings.

#[global] Open Scope Z_scope.
#[global] Open Scope list_scope.

(** ** Tactics shared by the development *)

(** Case analysis on every [if] and [match] scrutinee of the goal. *)
Ltac case_goal :=
  match goal with
  | |- context [match ?x with _ => _ end] => let E := fresh "E" in destruct x eqn:E
  | |- context [if ?x then _ else _] => let E := fresh "E" in destruct x eqn:E
  end.

(** The same on a hypothesis. *)
Ltac case_hyp H :=
  match type of H with
  | context [match ?x with _ => _ end] => let E := fresh "E" in destruct x eqn:E
  | context [if ?x then _ else _] => let E := fresh "E" in destruct x eqn:E
  end.

(** Turn boolean hypotheses into propositions. *)
Ltac boolify :=
  repeat match goal with
  | H : _ && _ = true |- _ => apply andb_true_iff in H; destruct H
  | H : _ || _ = false |- _ => apply orb_false_iff in H; destruct H
  | H : negb _ = true |- _ => apply negb_true_iff in H
  | H : negb _ = false |- _ => apply negb_false_iff in H
  | H : (_ =? _) = true |- _ => apply Z.eqb_eq in H
  | H : (_ =? _) = false |- _ => apply Z.eqb_neq in H
  | H : (_ <? _) = true |- _ => apply Z.ltb_lt in H
  | H : (_ <? _) = false |- _ => apply Z.ltb_ge in H
  | H : (_ <=? _) = true |- _ => apply Z.leb_le in H
  | H : (_ <=? _) = false |- _ => apply Z.leb_gt in H
  | H : (_ <? _)%nat = true |- _ => apply Nat.ltb_lt in H
  | H : (_ <? _)%nat = false |- _ => apply Nat.ltb_ge in H
  | H : (_ <=? _)%nat = true |- _ => apply Nat.leb_le in H
  | H : (_ <=? _)%nat = false |- _ => apply Nat.leb_gt in H
  | H : (_ =? _)%nat = true |- _ => apply Nat.eqb_eq in H
  | H : (_ =? _)%nat = false |- _ => apply Nat.eqb_neq in H
  | H : bool_decide _ = true |- _ => apply bool_decide_eq_true in H
  | H : bool_decide _ = false |- _ => apply bool_decide_eq_false in H
  end.

(** ** Machine integers

    A machine integer is a [Z] in the range of its type; the wrap-around of
    the release profile (no [overflow-checks] in Cargo.toml) is explicit. *)

Definition wrap_u8 (z : Z) : Z := z mod 2 ^ 8.
Definition wrap_u32 (z : Z) : Z := z mod 2 ^ 32.
Definition wrap_u64 (z : Z) : Z := z mod 2 ^ 64.
Definition wrap_i32 (z : Z) : Z := (z + 2 ^ 31) mod 2 ^ 32 - 2 ^ 31.
Definition wrap_i64 (z : Z) : Z := (z + 2 ^ 63) mod 2 ^ 64 - 2 ^ 63.

Definition i64_max : Z := 2 ^ 63 - 1.
Definition u64_max : Z := 2 ^ 64 - 1.
Definition u32_max : Z := 2 ^ 32 - 1.
Definition is_i64 (z : Z) : Prop := - 2 ^ 63 <= z < 2 ^ 63.
Definition is_u64 (z : Z) : Prop := 0 <= z < 2 ^ 64.

Definition int4 (z : Z) : bool := (- 2 ^ 31 <=? z) && (z <? 2 ^ 31).
Definition int8 (z : Z) : bool := (- 2 ^ 63 <=? z) && (z <? 2 ^ 63).

(** A byte and a byte string. *)
Definition is_byte (b : Z) : Prop := 0 <= b < 256.
Abbreviation bytes := (list Z).
Definition are_bytes (bs : bytes) : Prop := Forall is_byte bs.

Lemma wrap_i64_id z : is_i64 z -> wrap_i64 z = z.
Proof. unfold is_i64, wrap_i64. intros H. rewrite Z.mod_small; lia. Qed.

Lemma wrap_i64_range z : is_i64 (wrap_i64 z).
Proof.
  unfold is_i64, wrap_i64. pose proof (Z.mod_pos_bound (z + 2 ^ 63) (2 ^ 64)). lia.
Qed.

Lemma wrap_u64_id z : is_u64 z -> wrap_u64 z = z.
Proof. apply Z.mod_small. Qed.

Lemma wrap_i32_id z : - 2 ^ 31 <= z < 2 ^ 31 -> wrap_i32 z = z.
Proof. unfold wrap_i32. intros H. rewrite Z.mod_small; lia. Qed.

Lemma wrap_u8_byte z : is_byte (wrap_u8 z).
Proof. unfold is_byte, wrap_u8. change (2 ^ 8) with 256. apply Z.mod_pos_bound. lia. Qed.

(** ** Bit-level lemmas *)

Lemma land_ones_mod a n : 0 <= n -> Z.land a (Z.ones n) = a mod 2 ^ n.
Proof. apply Z.land_ones. Qed.

(** An [or] of a shifted value and a value below the shift is a sum. *)
Lemma lor_shiftl_add a b n :
  0 <= n -> 0 <= b < 2 ^ n -> Z.lor (Z.shiftl a n) b = a * 2 ^ n + b.
Proof.
  intros Hn Hb. rewrite <- Z.shiftl_mul_pow2 by lia.
  rewrite Z.add_nocarry_lxor.
  - symmetry. apply Z.lxor_lor.
    apply Z.bits_inj'. intros i Hi. rewrite Z.land_spec, Z.bits_0.
    destruct (Z.lt_ge_cases i n) as [Hlt | Hge].
    + rewrite Z.shiftl_spec_low by lia. reflexivity.
    + rewrite <- (Z.mod_small b (2 ^ n)) by lia.
      rewrite Z.mod_pow2_bits_high by lia. apply andb_false_r.
  - apply Z.bits_inj'. intros i Hi. rewrite Z.land_spec, Z.bits_0.
    destruct (Z.lt_ge_cases i n) as [Hlt | Hge].
    + rewrite Z.shiftl_spec_low by lia. reflexivity.
    + rewrite <- (Z.mod_small b (2 ^ n)) by lia.
      rewrite Z.mod_pow2_bits_high by lia. apply andb_false_r.
Qed.

Lemma lxor_byte a b : is_byte a -> is_byte b -> is_byte (Z.lxor a b).
Proof.
  intros Ha Hb. unfold is_byte in *.
  assert (Hm : Z.lxor a b = Z.lxor a b mod 2 ^ 8).
  { apply Z.bits_inj'. intros i Hi. destruct (Z.lt_ge_cases i 8).
    - rewrite Z.mod_pow2_bits_low by lia. reflexivity.
    - rewrite Z.mod_pow2_bits_high by lia. rewrite Z.lxor_spec.
      rewrite <- (Z.mod_small a (2 ^ 8)), <- (Z.mod_small b (2 ^ 8)) by lia.
      rewrite !Z.mod_pow2_bits_high by lia. reflexivity. }
  rewrite Hm. change 256 with (2 ^ 8). apply Z.mod_pos_bound. lia.
Qed.

Lemma lor_eq_0_iff a b : Z.lor a b = 0 <-> a = 0 /\ b = 0.
Proof. apply Z.lor_eq_0_iff. Qed.

(** ** Stable sorting

    The sort of the standard library and ORDER BY of the database: insertion
    keeps the order of elements that compare equal. *)

Section Sort.
Context {A : Type} (le : A -> A -> bool).

Fixpoint insert_by (x : A) (l : list A) : list A :=
  match l with
  | [] => [x]
  | y :: r => if le x y then x :: l else y :: insert_by x r
  end.

(** Elements are inserted from the last to the first, each before its equals. *)
Definition sort_by (l : list A) : list A := foldr insert_by [] l.

Hypothesis le_total : forall x y, le x y = false -> le y x = true.
Hypothesis le_trans : forall x y z, le x y = true -> le y z = true -> le x z = true.

Fixpoint sorted_by (l : list A) : Prop :=
  match l with
  | [] => True
  | x :: r => Forall (fun y => le x y = true) r /\ sorted_by r
  end.

Lemma insert_by_perm x l : insert_by x l ≡ₚ x :: l.
Proof.
  induction l as [|y r IH]; simpl; [done|]. destruct (le x y); [done|].
  rewrite IH. constructor.
Qed.

Lemma sort_by_perm l : sort_by l ≡ₚ l.
Proof. induction l as [|x l IH]; simpl; [done|]. by rewrite insert_by_perm, IH. Qed.

Lemma insert_by_sorted x l : sorted_by l -> sorted_by (insert_by x l).
Proof.
  induction l as [|y r IH]; simpl; [by repeat constructor|]. intros [Hy Hr].
  destruct (le x y) eqn:E; simpl.
  - split; [|done]. constructor; [done|]. eapply Forall_impl; [exact Hy|]. simpl. eauto.
  - split; [|by apply IH]. rewrite insert_by_perm. constructor; [by apply le_total|done].
Qed.

Lemma sort_by_sorted l : sorted_by (sort_by l).
Proof. induction l as [|x l IH]; simpl; [done|]. by apply insert_by_sorted. Qed.

(** Stability: the elements of one class of equals keep their order. *)
Lemma insert_by_filter x l (p : A -> bool) :
  (forall y, p x = true -> p y = true -> le x y = true) -> sorted_by l ->
  List.filter p (insert_by x l) = (if p x then x :: List.filter p l else List.filter p l).
Proof.
  intros Hp. induction l as [|y r IH]; simpl; intros Hs; [by destruct (p x)|].
  destruct Hs as [Hy Hs]. destruct (le x y) eqn:E; simpl; [by destruct (p x)|].
  rewrite IH by done. destruct (p x) eqn:Ex, (p y) eqn:Ey; try done.
  by rewrite (Hp y) in E.
Qed.

Lemma sort_by_stable l (p : A -> bool) :
  (forall x y, p x = true -> p y = true -> le x y = true) ->
  List.filter p (sort_by l) = List.filter p l.
Proof.
  intros Hp. induction l as [|x l IH]; simpl; [done|].
  rewrite insert_by_filter; [|by eauto|apply sort_by_sorted]. rewrite IH. done.
Qed.

Lemma sort_by_head_last x l :
  sorted_by l -> Forall (fun y => le y x = true) l -> (forall y, y ∈ l -> le x y = true -> False) ->
  insert_by x l = l ++ [x].
Proof.
  induction l as [|y r IH]; simpl; [done|]. intros [Hy Hs] Hf Hx. inversion Hf; subst.
  destruct (le x y) eqn:E; [destruct (Hx y); [left|done]|].
  f_equal. apply IH; try done. intros z Hz. apply Hx. by right.
Qed.
End Sort.

Lemma sorted_app {A} (le : A -> A -> bool) l1 l2 :
  sorted_by le (l1 ++ l2) ->
  sorted_by le l1 /\ sorted_by le l2 /\ forall x y, x ∈ l1 -> y ∈ l2 -> le x y = true.
Proof.
  induction l1 as [|x l1 IH]; simpl; [intros H; split_and!; [done|done|by intros ? ? H0%elem_of_nil]|].
  intros [F S]. apply Forall_app in F as [F1 F2]. destruct (IH S) as (S1 & S2 & P).
  split_and!; [done|done|done|]. intros a b Ha Hb. apply elem_of_cons in Ha as [Ea|Ha]; [|by apply P].
  rewrite Ea. rewrite Forall_forall in F2. by apply F2.
Qed.

(** ** Tables

    A table is the list of its rows.  SELECT, UPDATE and DELETE with a WHERE
    clause, INSERT at the end. *)

Section Table.
Context {A : Type}.

Definition select (p : A -> bool) (t : list A) : list A := List.filter p t.
Definition find_row (p : A -> bool) (t : list A) : option A := List.find p t.
Definition exists_row (p : A -> bool) (t : list A) : bool := existsb p t.
Definition update (p : A -> bool) (f : A -> A) (t : list A) : list A :=
  map (fun r => if p r then f r else r) t.
Definition delete_rows (p : A -> bool) (t : list A) : list A := List.filter (fun r => negb (p r)) t.
Definition insert_row (r : A) (t : list A) : list A := t ++ [r].
Definition count_rows (p : A -> bool) (t : list A) : Z := Z.of_nat (length (select p t)).

(** The values of a UNIQUE column (list of columns) are pairwise distinct. *)
Definition unique_key {K} `{EqDecision K} (key : A -> K) (t : list A) : bool :=
  bool_decide (base.NoDup (map key t)).

Lemma elem_select p t r : r ∈ select p t <-> r ∈ t /\ p r = true.
Proof. unfold select. rewrite !list_elem_of_In. apply filter_In. Qed.

Lemma elem_delete p t r : r ∈ delete_rows p t <-> r ∈ t /\ p r = false.
Proof. unfold delete_rows. rewrite !list_elem_of_In, filter_In, negb_true_iff. done. Qed.

Lemma elem_update p f t r :
  r ∈ update p f t <-> exists r0, r0 ∈ t /\ r = (if p r0 then f r0 else r0).
Proof.
  unfold update. rewrite list_elem_of_In, in_map_iff. setoid_rewrite list_elem_of_In. naive_solver.
Qed.

Lemma elem_insert r0 t r : r ∈ insert_row r0 t <-> r ∈ t \/ r = r0.
Proof. unfold insert_row. rewrite elem_of_app, list_elem_of_singleton. done. Qed.

Lemma find_row_Some p t r : find_row p t = Some r -> r ∈ t /\ p r = true.
Proof. intros H. apply find_some in H as [H1 H2]. by rewrite list_elem_of_In. Qed.

Lemma find_row_None p t : find_row p t = None <-> forall r, r ∈ t -> p r = false.
Proof.
  split.
  - intros H r Hr. eapply find_none; [exact H|]. by apply list_elem_of_In.
  - intros H. induction t as [|x t IH]; simpl; [done|].
    rewrite (H x) by left. apply IH. intros r Hr. apply H. by right.
Qed.

Lemma exists_row_iff p t : exists_row p t = true <-> exists r, r ∈ t /\ p r = true.
Proof. unfold exists_row. rewrite existsb_exists. by setoid_rewrite list_elem_of_In. Qed.

Lemma exists_row_false p t : exists_row p t = false <-> forall r, r ∈ t -> p r = false.
Proof.
  rewrite <- not_true_iff_false, exists_row_iff. split.
  - intros H r Hr. destruct (p r) eqn:E; [|done]. destruct H. by exists r.
  - intros H (r & Hr & E). by rewrite (H r Hr) in E.
Qed.

(** Statements whose WHERE clauses do not meet do not disturb each other. *)
Lemma select_update_disjoint p q f t :
  (forall r, r ∈ t -> q r = true -> p r = false /\ p (f r) = false) ->
  select p (update q f t) = select p t.
Proof.
  unfold select, update. induction t as [|r t IH]; intros H; simpl; [done|].
  rewrite IH by (intros; apply H; [by right|done]).
  destruct (q r) eqn:E; [|done]. destruct (H r) as [H1 H2]; [left|done|]. by rewrite H1, H2.
Qed.

Lemma select_delete_disjoint p q t :
  (forall r, r ∈ t -> q r = true -> p r = false) -> select p (delete_rows q t) = select p t.
Proof.
  unfold select, delete_rows. induction t as [|r t IH]; intros H; simpl; [done|].
  destruct (q r) eqn:E; simpl.
  - rewrite (H r) by (left || done). apply IH. intros; apply H; [by right|done].
  - rewrite IH; [done|]. intros; apply H; [by right|done].
Qed.

Lemma select_insert p r t :
  select p (insert_row r t) = select p t ++ (if p r then [r] else []).
Proof. unfold select, insert_row. rewrite List.filter_app. simpl. by destruct (p r). Qed.

Lemma update_length p f t : length (update p f t) = length t.
Proof. apply length_map. Qed.

Lemma map_update_same {K} (key : A -> K) p f t :
  (forall r, key (f r) = key r) -> map key (update p f t) = map key t.
Proof.
  intros H. unfold update. rewrite map_map. apply map_ext. intros r. destruct (p r); [apply H|done].
Qed.
End Table.
