(* ===== verification/Text.v ===== *)
(** * Text: Rust strings

    A [str] is the list of its Unicode scalar values; its UTF-8 bytes are
    computed where the code asks for bytes ([len], [as_bytes]).  The file holds
    the string functions of the Rust standard library that the services call
    and the lemmas about them.  The case tables of Unicode are the only part
    left abstract: the class [Unicode] gives the functions with their values on
    ASCII, and [ascii_unicode] is a concrete instance. *)

From S2P Require Import Prelude.

Abbreviation rstr := (list Z).

(** ** Literals *)

Fixpoint lit (s : string) : rstr :=
  match s with
  | EmptyString => []
  | String a r => Z.of_N (N_of_ascii a) :: lit r
  end.

Definition chr (s : string) : Z := default 0 (head (lit s)).

(** ** Characters *)

(** char::is_whitespace: the White_Space property. *)
Definition is_whitespace (c : Z) : bool :=
  ((9 <=? c) && (c <=? 13)) || (c =? 32) || (c =? 0x85) || (c =? 0xA0)
  || (c =? 0x1680) || ((0x2000 <=? c) && (c <=? 0x200A)) || (c =? 0x2028)
  || (c =? 0x2029) || (c =? 0x202F) || (c =? 0x205F) || (c =? 0x3000).

(** char::is_control: general category Cc. *)
Definition is_control (c : Z) : bool := (c <=? 31) || ((127 <=? c) && (c <=? 159)).

Definition is_ascii_digit (c : Z) : bool := (48 <=? c) && (c <=? 57).
Definition is_ascii_upper (c : Z) : bool := (65 <=? c) && (c <=? 90).
Definition is_ascii_lower (c : Z) : bool := (97 <=? c) && (c <=? 122).
Definition is_ascii_alphabetic (c : Z) : bool := is_ascii_upper c || is_ascii_lower c.
Definition is_ascii (c : Z) : bool := (0 <=? c) && (c <? 128).

Definition to_ascii_lowercase (c : Z) : Z := if is_ascii_upper c then c + 32 else c.
Definition to_ascii_uppercase (c : Z) : Z := if is_ascii_lower c then c - 32 else c.

Definition ascii_str (s : rstr) : Prop := Forall (fun c => is_ascii c = true) s.

(** str::eq_ignore_ascii_case *)
Definition eq_ignore_ascii_case (a b : rstr) : bool :=
  bool_decide (map to_ascii_lowercase a = map to_ascii_lowercase b).

(** The Unicode case tables of the standard library. *)
Class Unicode := {
  to_lowercase : rstr -> rstr;
  to_uppercase : rstr -> rstr;
  is_uppercase : Z -> bool;
  is_lowercase : Z -> bool;
  to_lowercase_ascii : forall s, ascii_str s -> to_lowercase s = map to_ascii_lowercase s;
  to_uppercase_ascii : forall s, ascii_str s -> to_uppercase s = map to_ascii_uppercase s;
  is_uppercase_ascii : forall c, is_ascii c = true -> is_uppercase c = is_ascii_upper c;
  is_lowercase_ascii : forall c, is_ascii c = true -> is_lowercase c = is_ascii_lower c
}.

Definition ascii_unicode : Unicode.
Proof.
  refine {| to_lowercase := map to_ascii_lowercase;
            to_uppercase := map to_ascii_uppercase;
            is_uppercase := is_ascii_upper;
            is_lowercase := is_ascii_lower |}; reflexivity.
Defined.

(** ** UTF-8 *)

Definition utf8_char (c : Z) : bytes :=
  if c <? 0x80 then [c]
  else if c <? 0x800 then [Z.lor 0xC0 (Z.shiftr c 6); Z.lor 0x80 (Z.land c 0x3F)]
  else if c <? 0x10000 then
    [Z.lor 0xE0 (Z.shiftr c 12); Z.lor 0x80 (Z.land (Z.shiftr c 6) 0x3F);
     Z.lor 0x80 (Z.land c 0x3F)]
  else
    [Z.lor 0xF0 (Z.shiftr c 18); Z.lor 0x80 (Z.land (Z.shiftr c 12) 0x3F);
     Z.lor 0x80 (Z.land (Z.shiftr c 6) 0x3F); Z.lor 0x80 (Z.land c 0x3F)].

(** str::as_bytes and str::len *)
Definition as_bytes (s : rstr) : bytes := flat_map utf8_char s.
Definition str_len (s : rstr) : Z := Z.of_nat (length (as_bytes s)).

(** ** Searching, splitting and trimming *)

Fixpoint starts_with (pat s : rstr) : bool :=
  match pat, s with
  | [], _ => true
  | p :: pat', c :: s' => (p =? c) && starts_with pat' s'
  | _ :: _, [] => false
  end.

Definition ends_with (pat s : rstr) : bool := starts_with (reverse pat) (reverse s).

Fixpoint strip_prefix (pat s : rstr) : option rstr :=
  match pat, s with
  | [], _ => Some s
  | p :: pat', c :: s' => if p =? c then strip_prefix pat' s' else None
  | _ :: _, [] => None
  end.

Definition contains_char (c : Z) (s : rstr) : bool := existsb (Z.eqb c) s.

Fixpoint contains_str (pat s : rstr) : bool :=
  starts_with pat s ||
  match s with
  | [] => false
  | _ :: s' => contains_str pat s'
  end.

Fixpoint trim_start_by (p : Z -> bool) (s : rstr) : rstr :=
  match s with
  | c :: s' => if p c then trim_start_by p s' else s
  | [] => []
  end.

Definition trim_end_by (p : Z -> bool) (s : rstr) : rstr :=
  reverse (trim_start_by p (reverse s)).

(** str::trim *)
Definition trim (s : rstr) : rstr := trim_end_by is_whitespace (trim_start_by is_whitespace s).

(** str::trim_start_matches with a string pattern: remove it as often as it is
    a prefix; [fuel] bounds the number of removals by the length. *)
Fixpoint trim_start_matches_fuel (fuel : nat) (pat s : rstr) : rstr :=
  match fuel with
  | O => s
  | S f => match strip_prefix pat s with
           | Some r => trim_start_matches_fuel f pat r
           | None => s
           end
  end.
Definition trim_start_matches (pat s : rstr) : rstr :=
  trim_start_matches_fuel (length s) pat s.

(** str::split with a character: never empty. *)
Fixpoint split_char (sep : Z) (s : rstr) : list rstr :=
  match s with
  | [] => [[]]
  | c :: s' =>
      if c =? sep then [] :: split_char sep s'
      else match split_char sep s' with
           | w :: ws => (c :: w) :: ws
           | [] => [[c]]
           end
  end.

(** str::split_once with a character. *)
Fixpoint split_once (sep : Z) (s : rstr) : option (rstr * rstr) :=
  match s with
  | [] => None
  | c :: s' =>
      if c =? sep then Some ([], s')
      else match split_once sep s' with
           | Some (a, b) => Some (c :: a, b)
           | None => None
           end
  end.

(** str::split_whitespace: the non-empty pieces between white space. *)
Fixpoint split_ws_aux (s : rstr) : list rstr :=
  match s with
  | [] => [[]]
  | c :: s' =>
      if is_whitespace c then [] :: split_ws_aux s'
      else match split_ws_aux s' with
           | w :: ws => (c :: w) :: ws
           | [] => [[c]]
           end
  end.
Definition nonempty {A} (l : list A) : bool := match l with [] => false | _ => true end.
Definition split_whitespace (s : rstr) : list rstr := List.filter nonempty (split_ws_aux s).

(** str::lines: split at line feeds, without a carriage return before them and
    without an empty last line. *)
Definition strip_cr (s : rstr) : rstr :=
  match reverse s with
  | c :: r => if c =? 13 then reverse r else s
  | [] => s
  end.

Fixpoint drop_empty_last (l : list rstr) : list rstr :=
  match l with
  | [] => []
  | [[]] => []
  | w :: ws => w :: drop_empty_last ws
  end.

Definition lines (s : rstr) : list rstr := map strip_cr (drop_empty_last (split_char 10 s)).

(** [T]::join *)
Fixpoint join (sep : rstr) (l : list rstr) : rstr :=
  match l with
  | [] => []
  | [w] => w
  | w :: ws => w ++ sep ++ join sep ws
  end.

(** ** Numbers *)

Fixpoint show_digits (fuel : nat) (n : Z) (acc : rstr) : rstr :=
  match fuel with
  | O => acc
  | S f => if n <? 10 then (48 + n) :: acc
           else show_digits f (n / 10) ((48 + n mod 10) :: acc)
  end.

(** Display of an unsigned and of a signed integer; log2 n + 1 digits are
    more than the decimal digits of n. *)
Definition show_uint (n : Z) : rstr := show_digits (S (Z.to_nat (Z.log2 n))) n [].
Definition show_int (n : Z) : rstr := if n <? 0 then chr "-" :: show_uint (- n) else show_uint n.

(** The format {:0w}: zero padding, after the sign. *)
Definition pad_zero (w : nat) (s : rstr) : rstr := replicate (w - length s) 48 ++ s.
Definition show_padded (w : nat) (n : Z) : rstr :=
  if n <? 0 then chr "-" :: pad_zero (w - 1) (show_uint (- n)) else pad_zero w (show_uint n).

(** from_str_radix on an unsigned type with the given maximum. *)
Definition digit_val (radix c : Z) : option Z :=
  let v := if is_ascii_digit c then c - 48
           else if is_ascii_lower c then c - 87
           else if is_ascii_upper c then c - 55 else radix in
  if v <? radix then Some v else None.

Fixpoint parse_digits (radix max acc : Z) (s : rstr) : option Z :=
  match s with
  | [] => Some acc
  | c :: s' =>
      match digit_val radix c with
      | None => None
      | Some d => let acc' := acc * radix + d in
                  if max <? acc' then None else parse_digits radix max acc' s'
      end
  end.

Definition parse_uint (radix max : Z) (s : rstr) : option Z :=
  match s with
  | [] => None
  | c :: s' =>
      if c =? chr "+" then (if nonempty s' then parse_digits radix max 0 s' else None)
      else parse_digits radix max 0 s
  end.

(** ** Lemmas *)

Lemma starts_with_app pat s : starts_with pat (pat ++ s) = true.
Proof. induction pat as [|p pat IH]; simpl; [done|]. by rewrite Z.eqb_refl. Qed.

Lemma starts_with_iff pat s : starts_with pat s = true <-> exists r, s = pat ++ r.
Proof.
  split.
  - revert s. induction pat as [|p pat IH]; intros s H; [by exists s|].
    destruct s as [|c s]; [done|]. simpl in H. boolify. subst c.
    destruct (IH s H0) as [r ->]. by exists r.
  - intros [r ->]. apply starts_with_app.
Qed.

Lemma starts_with_nil s : starts_with [] s = true.
Proof. done. Qed.

Lemma strip_prefix_iff pat s r : strip_prefix pat s = Some r <-> s = pat ++ r.
Proof.
  split.
  - revert s. induction pat as [|p pat IH]; intros s H; simpl in H; [by simplify_eq|].
    destruct s as [|c s]; [done|]. case_hyp H; [|done]. boolify. subst c.
    by rewrite (IH s H).
  - intros ->. induction pat as [|p pat IH]; simpl; [done|]. by rewrite Z.eqb_refl.
Qed.

Lemma trim_start_matches_once pat s :
  pat <> [] -> strip_prefix pat s = None -> trim_start_matches pat (pat ++ s) = s.
Proof.
  intros N H. unfold trim_start_matches.
  destruct (length (pat ++ s)) as [|n] eqn:L; [destruct pat; [done|discriminate L]|].
  cbn [trim_start_matches_fuel]. rewrite (proj2 (strip_prefix_iff pat (pat ++ s) s) eq_refl).
  destruct n; [done|]. cbn [trim_start_matches_fuel]. by rewrite H.
Qed.

Lemma contains_char_iff c s : contains_char c s = true <-> c ∈ s.
Proof.
  unfold contains_char. rewrite existsb_exists. split.
  - intros (x & Hx & E). apply Z.eqb_eq in E as <-. by apply list_elem_of_In.
  - intros H. exists c. split; [by apply list_elem_of_In|]. apply Z.eqb_refl.
Qed.

Lemma contains_char_false c s : contains_char c s = false <-> c ∉ s.
Proof. rewrite <- contains_char_iff. destruct (contains_char c s); naive_solver. Qed.

Lemma contains_str_iff pat s :
  contains_str pat s = true <-> exists a b, s = a ++ pat ++ b.
Proof.
  split.
  - induction s as [|c s IH]; simpl; intros H; apply orb_true_iff in H as [H|H].
    + apply starts_with_iff in H as [r ->]. by exists [], r.
    + done.
    + apply starts_with_iff in H as [r ->]. by exists [], r.
    + destruct (IH H) as (a & b & ->). by exists (c :: a), b.
  - intros (a & b & ->). induction a as [|c a IH]; simpl.
    + destruct (pat ++ b) eqn:E.
      * simpl. apply app_eq_nil in E as [-> ->]. done.
      * simpl. rewrite <- E, starts_with_app. done.
    + rewrite IH. apply orb_true_r.
Qed.

Lemma split_char_not_nil sep s : split_char sep s <> [].
Proof. destruct s as [|c s]; simpl; [done|]. repeat case_match; done. Qed.

(** A piece without the separator is split off whole. *)
Lemma split_char_app sep w s :
  sep ∉ w -> split_char sep (w ++ sep :: s) = w :: split_char sep s.
Proof.
  induction w as [|c w IH]; intros H; simpl.
  - by rewrite Z.eqb_refl.
  - apply not_elem_of_cons in H as [Hc H].
    destruct (Z.eqb_spec c sep); [congruence|]. by rewrite (IH H).
Qed.

Lemma join_split sep s : join [sep] (split_char sep s) = s.
Proof.
  induction s as [|c s IH]; [done|]. cbn [split_char]. destruct (Z.eqb_spec c sep) as [->|N].
  - pose proof (split_char_not_nil sep s) as X. destruct (split_char sep s) as [|w ws]; [done|]. cbn [join] in *. by rewrite IH.
  - pose proof (split_char_not_nil sep s) as X. destruct (split_char sep s) as [|w ws]; [done|].
    destruct ws as [|y ws]; cbn [join] in *; [by rewrite IH|]. rewrite <- IH. by rewrite <- app_comm_cons.
Qed.

Lemma split_char_last sep w : sep ∉ w -> split_char sep w = [w].
Proof.
  induction w as [|c w IH]; intros H; simpl; [done|].
  apply not_elem_of_cons in H as [Hc H].
  destruct (Z.eqb_spec c sep); [congruence|]. by rewrite (IH H).
Qed.

Lemma split_char_pieces sep s w : w ∈ split_char sep s -> sep ∉ w.
Proof.
  revert w. induction s as [|c s IH]; intros w; simpl.
  - rewrite list_elem_of_singleton. intros ->. apply not_elem_of_nil.
  - destruct (Z.eqb_spec c sep).
    + rewrite elem_of_cons. intros [->|H]; [apply not_elem_of_nil | by apply IH].
    + destruct (split_char sep s) as [|w' ws] eqn:E.
      * by destruct (split_char_not_nil sep s).
      * rewrite elem_of_cons. intros [->|H].
        -- apply not_elem_of_cons. split; [congruence|]. apply IH. apply list_elem_of_here.
        -- apply IH. by apply list_elem_of_further.
Qed.

Lemma ascii_lower_not_ws c : is_ascii_lower c = true -> is_whitespace c = false.
Proof. unfold is_ascii_lower, is_whitespace. intros H. boolify. lia. Qed.

(** *** Words *)

Definition plain_word (w : rstr) : Prop := w <> [] /\ Forall (fun c => is_whitespace c = false) w.

Lemma split_ws_aux_word w s :
  Forall (fun c => is_whitespace c = false) w ->
  exists u us, split_ws_aux s = u :: us /\ split_ws_aux (w ++ s) = (w ++ u) :: us.
Proof.
  intros Hw. induction Hw as [|c w Hc Hw IH]; simpl.
  - destruct s as [|c s]; simpl; [by exists [], []|].
    destruct (is_whitespace c); [by eexists [], _|]. destruct (split_ws_aux s); by eexists _, _.
  - destruct IH as (u & us & E1 & E2). exists u, us. split; [done|]. by rewrite Hc, E2.
Qed.

(** Words joined by single spaces are split back. *)
Lemma split_whitespace_join ws :
  Forall plain_word ws -> split_whitespace (join (lit " ") ws) = ws.
Proof.
  unfold split_whitespace. induction 1 as [|w ws [Hn Hw] Hws IH]; [done|].
  assert (Hc : nonempty w = true) by (by destruct w).
  destruct ws as [|w' ws'].
  - cbn [join]. destruct (split_ws_aux_word w [] Hw) as (u & us & E1 & E2).
    injection E1 as <- <-. rewrite !app_nil_r in E2. rewrite E2. simpl. by rewrite Hc.
  - change (join (lit " ") (w :: w' :: ws')) with (w ++ [32] ++ join (lit " ") (w' :: ws')).
    destruct (split_ws_aux_word w ([32] ++ join (lit " ") (w' :: ws')) Hw) as (u & us & E1 & E2).
    cbn in E1. injection E1 as <- <-. rewrite app_nil_r in E2. rewrite E2.
    cbn [List.filter]. rewrite Hc. by f_equal.
Qed.

(** *** Trimming *)

Lemma trim_start_by_suffix p s : exists a, s = a ++ trim_start_by p s.
Proof.
  induction s as [|c s [a IH]]; simpl; [by exists []|].
  destruct (p c); [|by exists []]. exists (c :: a). simpl. congruence.
Qed.

Lemma trim_start_by_id p s :
  (forall c r, s = c :: r -> p c = false) -> trim_start_by p s = s.
Proof. destruct s as [|c s]; simpl; [done|]. intros H. by rewrite (H c s). Qed.

Lemma trim_start_by_head p s c r : trim_start_by p s = c :: r -> p c = false.
Proof.
  induction s as [|d s IH]; cbn; [done|]. destruct (p d) eqn:E; [exact IH|].
  intros ?. by simplify_eq.
Qed.

Lemma trim_elem s c : c ∈ trim s -> c ∈ s.
Proof.
  unfold trim, trim_end_by. rewrite elem_of_reverse. intros H.
  destruct (trim_start_by_suffix is_whitespace s) as [a Ha]. rewrite Ha.
  apply elem_of_app. right.
  destruct (trim_start_by_suffix is_whitespace
              (reverse (trim_start_by is_whitespace s))) as [b Hb].
  rewrite <- elem_of_reverse, Hb. apply elem_of_app. by right.
Qed.

Lemma trim_infix s : exists a b, s = a ++ trim s ++ b.
Proof.
  unfold trim, trim_end_by.
  destruct (trim_start_by_suffix is_whitespace s) as [a Ha].
  destruct (trim_start_by_suffix is_whitespace
              (reverse (trim_start_by is_whitespace s))) as [b Hb].
  exists a, (reverse b). rewrite Ha at 1. f_equal.
  rewrite <- reverse_app, <- Hb. by rewrite reverse_involutive.
Qed.

(** A string whose ends are not white space is its own trim. *)
Lemma trim_id s :
  Forall (fun c => is_whitespace c = false) s -> trim s = s.
Proof.
  intros H. unfold trim, trim_end_by.
  assert (E : trim_start_by is_whitespace s = s).
  { apply trim_start_by_id. intros c r ->. by inversion H. }
  rewrite E, (trim_start_by_id is_whitespace (reverse s)), reverse_involutive; [done|].
  intros c r Hr. rewrite Forall_forall in H. apply H.
  rewrite <- elem_of_reverse, Hr. apply list_elem_of_here.
Qed.

(** A string that neither begins nor ends with white space is its own trim. *)
Lemma trim_fixed s :
  (forall c r, s = c :: r -> is_whitespace c = false) ->
  (forall c r, s = r ++ [c] -> is_whitespace c = false) -> trim s = s.
Proof.
  intros Hh Hl. unfold trim, trim_end_by. rewrite (trim_start_by_id _ s) by done.
  rewrite trim_start_by_id; [apply reverse_involutive|].
  intros c r Hr. apply (Hl c (reverse r)). by rewrite <- (reverse_involutive s), Hr, reverse_cons.
Qed.

Lemma trim_head s c r : trim s = c :: r -> is_whitespace c = false.
Proof.
  unfold trim, trim_end_by. set (t := trim_start_by is_whitespace s). intros H.
  destruct (trim_start_by_suffix is_whitespace (reverse t)) as [b Hb].
  apply (f_equal reverse) in Hb. rewrite reverse_involutive, reverse_app, H in Hb.
  apply (trim_start_by_head is_whitespace s c (r ++ reverse b)). exact Hb.
Qed.

Lemma trim_last s c r : trim s = r ++ [c] -> is_whitespace c = false.
Proof.
  unfold trim, trim_end_by. intros H. apply (f_equal reverse) in H.
  rewrite reverse_involutive, reverse_snoc in H. by eapply trim_start_by_head.
Qed.

Lemma trim_idemp s : trim (trim s) = trim s.
Proof. apply trim_fixed; intros c r H; [by eapply trim_head | by eapply trim_last]. Qed.

(** *** Decimal numbers *)

Definition digits_value (s : rstr) : Z := fold_left (fun a c => a * 10 + (c - 48)) s 0.
Definition digit_str (s : rstr) : Prop := Forall (fun c => is_ascii_digit c = true) s.

Lemma digits_value_from a s :
  fold_left (fun a c => a * 10 + (c - 48)) s a = a * 10 ^ Z.of_nat (length s) + digits_value s.
Proof.
  unfold digits_value. revert a. induction s as [|c s IH]; intros a; simpl; [lia|].
  rewrite IH. symmetry. rewrite IH. replace (Z.of_nat (S (length s))) with (Z.of_nat (length s) + 1) by lia.
  rewrite Z.pow_add_r by lia. lia.
Qed.

Lemma digit_chr d : 0 <= d < 10 -> is_ascii_digit (48 + d) = true.
Proof. intros H. unfold is_ascii_digit. apply andb_true_iff. split; apply Z.leb_le; lia. Qed.

Lemma show_digits_spec fuel n acc :
  0 <= n < 10 ^ Z.of_nat fuel ->
  exists s, show_digits fuel n acc = s ++ acc /\ digits_value s = n /\ digit_str s
            /\ (s = [] <-> fuel = O) /\ Z.of_nat (length s) <= Z.of_nat fuel
            /\ (forall k, 1 <= k -> n < 10 ^ k -> Z.of_nat (length s) <= k).
Proof.
  revert n acc. induction fuel as [|f IH]; intros n acc Hn.
  - exists []. simpl in *. repeat split; try done; try lia; try constructor.
    change (digits_value []) with 0. change (10 ^ Z.of_nat 0) with 1 in Hn. lia.
  - cbn [show_digits]. destruct (Z.ltb_spec n 10).
    + exists [48 + n]. repeat split; try done; cbn [length]; try lia.
      * unfold digits_value. cbn [fold_left]. lia.
      * constructor; [apply digit_chr; lia | constructor].
    + rewrite Nat2Z.inj_succ, Z.pow_succ_r in Hn by lia.
      destruct (IH (n / 10) ((48 + n mod 10) :: acc)) as (s & E & V & D & N & L & K).
      { split; [apply Z.div_pos; lia | apply Z.div_lt_upper_bound; lia]. }
      pose proof (Z.mod_pos_bound n 10 ltac:(lia)) as Hm.
      exists (s ++ [48 + n mod 10]). rewrite E, <- app_assoc. repeat split; try done.
      * unfold digits_value. rewrite fold_left_app. cbn [fold_left].
        fold (digits_value s). rewrite V. pose proof (Z.div_mod n 10). lia.
      * apply Forall_app. split; [done|]. constructor; [apply digit_chr; lia | constructor].
      * intros H0. by destruct s.
      * rewrite length_app. simpl. lia.
      * intros k Hk Hlt. rewrite length_app. cbn [length].
        destruct (Z.eq_dec k 1) as [->|]; [lia|].
        assert (Z.of_nat (length s) <= k - 1); [|lia].
        apply K; [lia|]. apply Z.div_lt_upper_bound; [lia|].
        replace k with (k - 1 + 1) in Hlt by lia. rewrite Z.pow_add_r in Hlt by lia. lia.
Qed.

Lemma show_uint_spec n :
  0 <= n ->
  digits_value (show_uint n) = n /\ digit_str (show_uint n) /\ show_uint n <> []
  /\ (forall k, 1 <= k -> n < 10 ^ k -> Z.of_nat (length (show_uint n)) <= k).
Proof.
  intros Hn. unfold show_uint.
  assert (Hf : 0 <= n < 10 ^ Z.of_nat (S (Z.to_nat (Z.log2 n)))).
  { split; [done|]. pose proof (Z.log2_nonneg n).
    rewrite Nat2Z.inj_succ, Z2Nat.id by lia.
    destruct (Z.eq_dec n 0) as [->|]; [reflexivity|].
    pose proof (Z.log2_spec n ltac:(lia)) as [_ H2].
    eapply Z.lt_le_trans; [exact H2|]. apply Z.pow_le_mono_l. lia. }
  destruct (show_digits_spec _ n [] Hf) as (s & -> & V & D & N & _ & K).
  rewrite app_nil_r. repeat split; try done. intros ->. by pose proof (proj1 N eq_refl).
Qed.

Lemma digits_value_pad w s : digits_value (pad_zero w s) = digits_value s.
Proof.
  unfold pad_zero. induction (w - length s)%nat as [|k IH]; [done|].
  exact IH.
Qed.

Lemma pad_zero_digits w s : digit_str s -> digit_str (pad_zero w s).
Proof. intros H. apply Forall_app. split; [|done]. by apply Forall_replicate. Qed.

Lemma pad_zero_length w s : length (pad_zero w s) = Nat.max w (length s).
Proof. unfold pad_zero. rewrite length_app, length_replicate. lia. Qed.

Lemma show_uint_inj m n : 0 <= m -> 0 <= n -> show_uint m = show_uint n -> m = n.
Proof.
  intros Hm Hn H. destruct (show_uint_spec m Hm) as [<- _].
  destruct (show_uint_spec n Hn) as [<- _]. by rewrite H.
Qed.

Lemma pad_show_inj w m n :
  0 <= m -> 0 <= n -> pad_zero w (show_uint m) = pad_zero w (show_uint n) -> m = n.
Proof.
  intros Hm Hn H. apply (f_equal digits_value) in H. rewrite !digits_value_pad in H.
  destruct (show_uint_spec m Hm) as [V _]. destruct (show_uint_spec n Hn) as [V' _].
  congruence.
Qed.

(** {:0w} has at least w characters and determines the number. *)
Lemma show_padded_inj w m n : show_padded w m = show_padded w n -> m = n.
Proof.
  unfold show_padded. intros H.
  assert (D : forall k x r, 0 <= x -> pad_zero k (show_uint x) <> chr "-" :: r).
  { intros k x r Hx E. destruct (show_uint_spec x Hx) as (_ & D & _).
    pose proof (pad_zero_digits k _ D) as P. rewrite E in P. by inversion P. }
  destruct (Z.ltb_spec m 0), (Z.ltb_spec n 0); simplify_eq.
  - apply pad_show_inj in H; lia.
  - by destruct (D w n _ ltac:(lia) (eq_sym H)).
  - by destruct (D w m _ ltac:(lia) H).
  - by apply pad_show_inj in H.
Qed.

(** Parsing reads back what Display prints. *)
Lemma digits_value_mono acc s :
  0 <= acc -> digit_str s -> acc <= fold_left (fun a c => a * 10 + (c - 48)) s acc.
Proof.
  revert acc. induction s as [|c s IH]; intros acc Ha H; simpl; [lia|].
  inversion H; subst. unfold is_ascii_digit in *. boolify.
  etransitivity; [|apply IH; [lia|done]]. lia.
Qed.

Lemma parse_digits_dec max acc s :
  0 <= acc -> digit_str s -> fold_left (fun a c => a * 10 + (c - 48)) s acc <= max ->
  parse_digits 10 max acc s = Some (fold_left (fun a c => a * 10 + (c - 48)) s acc).
Proof.
  revert acc. induction s as [|c s IH]; intros acc Ha D H; simpl; [done|].
  inversion D as [|? ? Hc D']; subst. unfold digit_val. rewrite Hc.
  unfold is_ascii_digit in Hc. boolify.
  destruct (Z.ltb_spec (c - 48) 10); [|lia].
  simpl in H. pose proof (digits_value_mono (acc * 10 + (c - 48)) s ltac:(lia) D').
  destruct (Z.ltb_spec max (acc * 10 + (c - 48))); [lia|]. apply IH; try done; lia.
Qed.

Lemma parse_show_uint max n :
  0 <= n <= max -> parse_uint 10 max (show_uint n) = Some n.
Proof.
  intros Hn. destruct (show_uint_spec n ltac:(lia)) as (V & D & N & _).
  unfold parse_uint. destruct (show_uint n) as [|c s] eqn:E; [done|].
  assert (c <> chr "+"). { inversion D; subst. intros ->. done. }
  destruct (Z.eqb_spec c (chr "+")); [done|].
  rewrite parse_digits_dec; [by f_equal|lia|done|].
  unfold digits_value in V. lia.
Qed.

Lemma parse_digits_bound radix max acc s v :
  0 <= acc <= max -> 0 < radix -> parse_digits radix max acc s = Some v -> 0 <= v <= max.
Proof.
  revert acc. induction s as [|c s IH]; intros acc Ha Hr H; simpl in H; [simplify_eq; lia|].
  destruct (digit_val radix c) as [d|] eqn:E; [|done].
  assert (0 <= d).
  { unfold digit_val in E. unfold is_ascii_digit, is_ascii_lower, is_ascii_upper in E.
    repeat case_match; simplify_eq; boolify; lia. }
  case_hyp H; [done|]. boolify. apply (IH _) in H; nia.
Qed.

Lemma parse_uint_bound radix max s v :
  0 <= max -> 0 < radix -> parse_uint radix max s = Some v -> 0 <= v <= max.
Proof.
  unfold parse_uint. intros Hm Hr H. destruct s as [|c s]; [done|].
  case_hyp H; [case_hyp H; [|done]|]; eapply parse_digits_bound; eauto; lia.
Qed.

Create HintDb text.
#[export] Hint Resolve parse_uint_bound : text.
