(* ===== verification/Tables.v ===== *)
(** * Tables: what a statement on one table keeps of a constraint

    Uniqueness of a key and a check of every row, after an UPDATE, a DELETE and
    an INSERT. *)

From S2P Require Import Prelude.

Section Tables.
Context {A : Type}.

Lemma update_map_same {B : Type} (key : A -> B) p f (t : list A) :
  (forall r, key (f r) = key r) -> map key (update p f t) = map key t.
Proof.
  intros Hf. unfold update. rewrite map_map. apply map_ext. intros r. destruct (p r); [apply Hf|done].
Qed.

Lemma unique_update {K} `{EqDecision K} (key : A -> K) p f t :
  (forall r, key (f r) = key r) -> unique_key key t = true -> unique_key key (update p f t) = true.
Proof. intros Hf. unfold unique_key. by rewrite update_map_same. Qed.

Lemma unique_delete {K} `{EqDecision K} (key : A -> K) p t :
  unique_key key t = true -> unique_key key (delete_rows p t) = true.
Proof.
  unfold unique_key. rewrite !bool_decide_eq_true. intros H. eapply sublist_NoDup; [exact H|]. unfold delete_rows. clear H.
  induction t as [|x t IH]; [constructor|]. cbn. destruct (negb (p x)); by constructor.
Qed.

Lemma unique_insert {K} `{EqDecision K} (key : A -> K) r t :
  unique_key key t = true -> (forall x, x ∈ t -> key x <> key r) -> unique_key key (insert_row r t) = true.
Proof.
  unfold unique_key, insert_row. rewrite !bool_decide_eq_true, map_app. cbn. intros U N.
  apply NoDup_app. split_and!; [done| |apply NoDup_singleton].
  intros k Hk Hr. apply list_elem_of_singleton in Hr as ->. apply list_elem_of_fmap in Hk as (x & E & Hx).
  by apply (N x).
Qed.

Lemma forallb_update (q q' : A -> bool) p f t :
  (forall r, q r = true -> q' r = true) -> (forall r, r ∈ t -> q r = true -> p r = true -> q' (f r) = true) ->
  forallb q t = true -> forallb q' (update p f t) = true.
Proof.
  intros H1 H2. rewrite !forallb_forall. intros H x Hx. apply list_elem_of_In, elem_update in Hx as (r & Hr & ->).
  assert (q r = true) by (by apply H, list_elem_of_In). destruct (p r) eqn:P; [by apply H2|by apply H1].
Qed.

Lemma forallb_delete (q : A -> bool) p t : forallb q t = true -> forallb q (delete_rows p t) = true.
Proof.
  rewrite !forallb_forall. intros H x Hx. apply H. apply list_elem_of_In, elem_delete in Hx as [Hx _].
  by apply list_elem_of_In.
Qed.

(** The rows are checked against what is left of another table. *)
Lemma forallb_delete_to (q q' : A -> bool) p t :
  (forall r, r ∈ t -> p r = false -> q r = true -> q' r = true) -> forallb q t = true -> forallb q' (delete_rows p t) = true.
Proof.
  rewrite !forallb_forall. intros N H x Hx. apply list_elem_of_In, elem_delete in Hx as [Hx P].
  apply N; [done|done|]. by apply H, list_elem_of_In.
Qed.

Lemma forallb_update_to (q q' : A -> bool) p f t :
  (forall r, p r = false -> q r = true -> q' r = true) -> (forall r, p r = true -> q r = true -> q' (f r) = true) ->
  forallb q t = true -> forallb q' (update p f t) = true.
Proof.
  intros H1 H2. rewrite !forallb_forall. intros H x Hx. apply list_elem_of_In, elem_update in Hx as (r & Hr & ->).
  assert (q r = true) by (by apply H, list_elem_of_In). destruct (p r) eqn:P; [by apply H2|by apply H1].
Qed.

Lemma forallb_insert (q : A -> bool) r t : forallb q t = true -> q r = true -> forallb q (insert_row r t) = true.
Proof. intros H1 H2. unfold insert_row. rewrite forallb_app, H1. cbn. by rewrite H2. Qed.

(** Where a row is unique, updating it leaves exactly its image and the others. *)
Lemma find_update (p : A -> bool) f t r :
  find_row p t = Some r -> p (f r) = true -> find_row p (update p f t) = Some (f r).
Proof.
  unfold find_row, update. induction t as [|x t IH]; cbn; [done|]. intros E F. destruct (p x) eqn:P.
  - injection E as ->. by rewrite F.
  - rewrite P. by apply IH.
Qed.

Lemma find_insert (p : A -> bool) r t : find_row p t = None -> p r = true -> find_row p (insert_row r t) = Some r.
Proof.
  unfold find_row, insert_row. induction t as [|x t IH]; cbn; intros E P; [by rewrite P|].
  destruct (p x) eqn:Px; [done|]. by apply IH.
Qed.

Lemma find_update_other (p q : A -> bool) f t :
  (forall r, q r = true -> p r = false) -> (forall r, p r = true -> q (f r) = false) ->
  find_row q (update p f t) = find_row q t.
Proof.
  intros N F. unfold find_row, update. induction t as [|r t IH]; [done|]. cbn [map List.find]. destruct (p r) eqn:P.
  - rewrite F by done. destruct (q r) eqn:Q; [|exact IH]. by rewrite (N r Q) in P.
  - destruct (q r); [done|exact IH].
Qed.

Lemma find_insert_other (q : A -> bool) r t : q r = false -> find_row q (insert_row r t) = find_row q t.
Proof.
  intros N. unfold find_row, insert_row. induction t as [|x t IH]; cbn; [by rewrite N|]. destruct (q x); [done|exact IH].
Qed.
End Tables.
