(* ===== verification/Effects.v ===== *)
(** * Effects: errors, database statements and the environment

    [AppError] and its HTTP rendering (common/src/error.rs), and the monad in
    which the asynchronous service functions are written: explicit state
    passing over a world, with the error type as a value, and two outcomes the
    types of the code do not show, a panic and a computation that never ends.

    The environment of a request (which statements the database fails, the
    identifiers and random bytes it draws, the clock) is an [Oracle] indexed by
    the number of interactions already made; theorems quantify over it. *)

From S2P Require Import Prelude Text.

(** ** Errors: backend/crates/common/src/error.rs *)

(** The errors of sqlx and jsonwebtoken, by their Display text. *)
Inductive DbError := RowNotFound | DbOther (text : rstr).

Inductive AppError :=
| NotFound (m : rstr)
| Unauthorized (m : rstr)
| Forbidden (m : rstr)
| Validation (m : rstr)
| Conflict (m : rstr)
| RateLimited
| Internal (m : rstr)
| Database (e : DbError)
| Jwt (text : rstr).

Definition status_code (e : AppError) : Z :=
  match e with
  | NotFound _ => 404
  | Unauthorized _ | Jwt _ => 401
  | Forbidden _ => 403
  | Validation _ => 422
  | Conflict _ => 409
  | RateLimited => 429
  | Internal _ | Database _ => 500
  end.

Definition error_code (e : AppError) : rstr :=
  lit match e with
      | NotFound _ => "NOT_FOUND"
      | Unauthorized _ => "UNAUTHORIZED"
      | Jwt _ => "INVALID_TOKEN"
      | Forbidden _ => "FORBIDDEN"
      | Validation _ => "VALIDATION_ERROR"
      | Conflict _ => "CONFLICT"
      | RateLimited => "RATE_LIMITED"
      | Internal _ => "INTERNAL_ERROR"
      | Database _ => "DATABASE_ERROR"
      end.

Definition db_error_text (e : DbError) : rstr :=
  match e with
  | RowNotFound => lit "no rows returned by a query that expected to return at least one row"
  | DbOther t => t
  end.

(** The thiserror Display of each variant. *)
Definition display (e : AppError) : rstr :=
  match e with
  | NotFound m => lit "Not found: " ++ m
  | Unauthorized m => lit "Unauthorized: " ++ m
  | Forbidden m => lit "Forbidden: " ++ m
  | Validation m => lit "Validation error: " ++ m
  | Conflict m => lit "Conflict: " ++ m
  | RateLimited => lit "Rate limited"
  | Internal m => lit "Internal server error: " ++ m
  | Database e => lit "Database error: " ++ db_error_text e
  | Jwt t => lit "JWT error: " ++ t
  end.

Record ErrorBody := { code : rstr; message : rstr }.

(** IntoResponse: the status and the body sent to the client. *)
Definition into_response (e : AppError) : Z * ErrorBody :=
  let message :=
    match e with
    | Database _ => lit "An internal error occurred"
    | Internal _ => lit "An internal error occurred"
    | other => display other
    end in
  (status_code e, {| code := error_code e; message := message |}).

(** ** Outcomes and the monad *)

Inductive outcome (A : Type) :=
| Ok (a : A)
| Err (e : AppError)
| Panic
| Diverge.
Arguments Ok {A} a.
Arguments Err {A} e.
Arguments Panic {A}.
Arguments Diverge {A}.

(** What a statement does: rows and the new data, an error, or no end. *)
Inductive sql (A D : Type) :=
| Rows (a : A) (d : D)
| Fails (e : DbError)
| Loops.
Arguments Rows {A D} a d.
Arguments Fails {A D} e.
Arguments Loops {A D}.

Class Oracle := {
  db_fault : nat -> option rstr;
  io_fault : nat -> option rstr;
  uuid_at : nat -> Z;
  byte_at : nat -> Z;
  salt_at : nat -> Z;
  token_at : nat -> rstr;
  (** gen_range(0..1_000_000) *)
  code_at : nat -> Z;
  clock_at : nat -> Z
}.

(** An environment in which every statement is executed. *)
Definition reliable (O : Oracle) : Prop := forall n, db_fault n = None /\ io_fault n = None.

(** Time does not run backwards. *)
Definition monotone_clock (O : Oracle) : Prop :=
  forall m n, (m <= n)%nat -> clock_at m <= clock_at n.

Record World (D : Type) := mkWorld { data : D; pos : nat }.
Arguments mkWorld {D} data pos.
Arguments data {D} w.
Arguments pos {D} w.

Definition M (D A : Type) : Type := World D -> outcome A * World D.

Section Monad.
Context {D : Type}.

#[global] Instance M_ret : MRet (M D) := fun A a w => (Ok a, w).
#[global] Instance M_bind : MBind (M D) := fun A B k m w =>
  match m w with
  | (Ok a, w') => k a w'
  | (Err e, w') => (Err e, w')
  | (Panic, w') => (Panic, w')
  | (Diverge, w') => (Diverge, w')
  end.

Definition throw {A} (e : AppError) : M D A := fun w => (Err e, w).
Definition panic {A} : M D A := fun w => (Panic, w).
Definition diverge {A} : M D A := fun w => (Diverge, w).

Definition ok_or {A} (o : option A) (e : AppError) : M D A :=
  match o with Some a => mret a | None => throw e end.

(** The value of a library call that panics out of its range. *)
Definition or_panic {A} (o : option A) : M D A :=
  match o with Some a => mret a | None => panic end.

(** The outcome of a computation without effects. *)
Definition lift {A} (o : outcome A) : M D A := fun w => (o, w).

(** Result::map_err *)
Definition map_err {A} (f : AppError -> AppError) (m : M D A) : M D A := fun w =>
  match m w with
  | (Err e, w') => (Err (f e), w')
  | r => r
  end.

(** Result::unwrap_or, and the discarding of an error ([.ok()]). *)
Definition unwrap_or {A} (m : M D A) (a : A) : M D A := fun w =>
  match m w with
  | (Err _, w') => (Ok a, w')
  | r => r
  end.

Definition discard {A} (m : M D A) : M D unit := unwrap_or (_ ← m; mret ()) ().

(** [if let Ok(a) = ...]: the value, or nothing. *)
Definition attempt {A} (m : M D A) : M D (option A) := unwrap_or (a ← m; mret (Some a)) None.


Definition get : M D D := fun w => (Ok (data w), w).

(** A change of data in memory, under its lock. *)
Definition modify (f : D -> D) : M D unit := fun w => (Ok tt, mkWorld (f (data w)) (pos w)).

(** One interaction with the environment. *)
Definition interact {A} (f : nat -> A) : M D A := fun w =>
  (Ok (f (pos w)), mkWorld (data w) (S (pos w))).

Context {O : Oracle}.

Definition new_v4 : M D Z := interact uuid_at.
Definition utc_now : M D Z := interact clock_at.
Definition random_byte : M D Z := interact byte_at.
Definition random_salt : M D Z := interact salt_at.
Definition random_token : M D rstr := interact token_at.
Definition random_code : M D Z := interact code_at.

(** [n] random bytes, first drawn first. *)
Fixpoint random_bytes (n : nat) : M D bytes :=
  match n with
  | 0%nat => mret []
  | S k => b ← random_byte; r ← random_bytes k; mret (b :: r)
  end.

(** One SQL statement: it fails as a whole, leaving the data alone, or it
    reads and writes the data; [now] is the value of NOW(). *)
Definition statement {A} (f : Z -> D -> sql A D) : M D A := fun w =>
  let w' := mkWorld (data w) (S (pos w)) in
  match db_fault (pos w) with
  | Some t => (Err (Database (DbOther t)), w')
  | None =>
      match f (clock_at (pos w)) (data w) with
      | Rows a d' => (Ok a, mkWorld d' (S (pos w)))
      | Fails e => (Err (Database e), w')
      | Loops => (Diverge, w')
      end
  end.

Definition query {A} (f : D -> A) : M D A := statement (fun _ d => Rows (f d) d).
Definition query_now {A} (f : Z -> D -> A) : M D A := statement (fun now d => Rows (f now d) d).

(** fetch_one: no row is an error. *)
Definition fetch_one {A} (f : D -> option A) : M D A :=
  statement (fun _ d => match f d with Some a => Rows a d | None => Fails RowNotFound end).

(** The result of a write under the constraints [ok] of the schema. *)
Definition checked {A} (ok : D -> bool) (r : A * D) : sql A D :=
  if ok (snd r) then Rows (fst r) (snd r) else Fails (DbOther (lit "constraint violation")).

Definition execute {A} (ok : D -> bool) (f : Z -> D -> A * D) : M D A :=
  statement (fun now d => checked ok (f now d)).

(** Statements over a recursive common table expression, whose evaluation may
    never end. *)
Definition query_rec {A} (f : D -> option A) : M D A :=
  statement (fun _ d => match f d with Some a => Rows a d | None => Loops end).
Definition execute_rec {A} (ok : D -> bool) (f : Z -> D -> option (A * D)) : M D A :=
  statement (fun now d => match f now d with Some r => checked ok r | None => Loops end).

(** UPDATE ... RETURNING fetched with fetch_one: no row updated is an error. *)
Definition execute_one {A} (ok : D -> bool) (f : Z -> D -> option A * D) : M D A :=
  statement (fun now d =>
    match f now d with
    | (Some a, d') => checked ok (a, d')
    | (None, _) => Fails RowNotFound
    end).

(** One operation on the file system; [inl] is its io::Error, by text. *)
Definition io {A} (f : D -> rstr + (A * D)) : M D A := fun w =>
  let w' := mkWorld (data w) (S (pos w)) in
  match io_fault (pos w) with
  | Some t => (Err (Internal t), w')
  | None =>
      match f (data w) with
      | inr (a, d') => (Ok a, mkWorld d' (S (pos w)))
      | inl t => (Err (Internal t), w')
      end
  end.
End Monad.

(** [map_err(|e| AppError::Internal(format!("...{e}")))] on a database or an
    input/output error. *)
Definition to_internal (prefix : string) (e : AppError) : AppError :=
  Internal (lit prefix ++ match e with
                          | Database e => db_error_text e
                          | Internal t => t
                          | other => display other
                          end).

(** ** Inversion of successful runs *)

Section Inversion.
Context {D : Type}.

Lemma bind_Ok {A B} (m : M D A) (k : A -> M D B) w b w' :
  (x ← m; k x) w = (Ok b, w') <->
  exists a w1, m w = (Ok a, w1) /\ k a w1 = (Ok b, w').
Proof.
  unfold mbind, M_bind. split.
  - destruct (m w) as [[a|e| |] w1] eqn:E; intros H; try done. by exists a, w1.
  - by intros (a & w1 & -> & ?).
Qed.

Lemma ret_Ok {A} (a b : A) (w w' : World D) :
  (mret a : M D A) w = (Ok b, w') <-> a = b /\ w = w'.
Proof. unfold mret, M_ret. naive_solver. Qed.

Lemma throw_Ok {A} e (b : A) (w w' : World D) : throw e w = (Ok b, w') <-> False.
Proof. unfold throw. naive_solver. Qed.

Lemma ok_or_Ok {A} (o : option A) e b (w w' : World D) :
  ok_or o e w = (Ok b, w') <-> o = Some b /\ w = w'.
Proof. unfold ok_or. destruct o; [rewrite ret_Ok | rewrite throw_Ok]; naive_solver. Qed.

Lemma or_panic_Ok {A} (o : option A) a (w w' : World D) :
  or_panic o w = (Ok a, w') <-> o = Some a /\ w = w'.
Proof. destruct o; simpl; [rewrite ret_Ok; naive_solver|]. split; [done|by intros [? _]]. Qed.

Lemma lift_Ok {A} (o : outcome A) b (w w' : World D) : lift o w = (Ok b, w') <-> o = Ok b /\ w = w'.
Proof. unfold lift. naive_solver. Qed.

Lemma map_err_Ok {A} f (m : M D A) b w w' :
  map_err f m w = (Ok b, w') <-> m w = (Ok b, w').
Proof. unfold map_err. repeat case_match; naive_solver. Qed.

Lemma get_Ok (d : D) w w' : get w = (Ok d, w') <-> d = data w /\ w = w'.
Proof. unfold get. naive_solver. Qed.

Lemma modify_Ok (f : D -> D) u w w' : modify f w = (Ok u, w') <-> w' = mkWorld (f (data w)) (pos w).
Proof. unfold modify. destruct u. naive_solver. Qed.

Lemma interact_Ok {A} (f : nat -> A) b (w w' : World D) :
  interact f w = (Ok b, w') <-> b = f (pos w) /\ w' = mkWorld (data w) (S (pos w)).
Proof. unfold interact. naive_solver. Qed.

Context {O : Oracle}.

Lemma statement_Ok {A} (f : Z -> D -> sql A D) a w w' :
  statement f w = (Ok a, w') <->
  db_fault (pos w) = None /\ f (clock_at (pos w)) (data w) = Rows a (data w') /\ pos w' = S (pos w).
Proof. unfold statement. destruct w', (db_fault _); repeat case_match; naive_solver. Qed.

Lemma query_Ok {A} (f : D -> A) a w w' :
  query f w = (Ok a, w') <->
  db_fault (pos w) = None /\ a = f (data w) /\ w' = mkWorld (data w) (S (pos w)).
Proof. unfold query. rewrite statement_Ok. destruct w'. naive_solver. Qed.

Lemma query_now_Ok {A} (f : Z -> D -> A) a w w' :
  query_now f w = (Ok a, w') <->
  db_fault (pos w) = None /\ a = f (clock_at (pos w)) (data w)
  /\ w' = mkWorld (data w) (S (pos w)).
Proof. unfold query_now. rewrite statement_Ok. destruct w'. naive_solver. Qed.

Lemma fetch_one_Ok {A} (f : D -> option A) a w w' :
  fetch_one f w = (Ok a, w') <->
  db_fault (pos w) = None /\ f (data w) = Some a /\ w' = mkWorld (data w) (S (pos w)).
Proof.
  unfold fetch_one. rewrite statement_Ok. destruct w', (f (data w)); naive_solver.
Qed.

Lemma checked_Rows {A} ok (r : A * D) a d' :
  checked ok r = Rows a d' <-> r = (a, d') /\ ok d' = true.
Proof.
  unfold checked. destruct r as [x d]; simpl. destruct (ok d) eqn:E; split.
  - intros [= -> ->]. done.
  - by intros [[= -> ->] _].
  - done.
  - intros [[= -> ->] H]. congruence.
Qed.

Lemma execute_Ok {A} ok (f : Z -> D -> A * D) a w w' :
  execute ok f w = (Ok a, w') <->
  db_fault (pos w) = None /\ f (clock_at (pos w)) (data w) = (a, data w') /\ ok (data w') = true
  /\ pos w' = S (pos w).
Proof. unfold execute. rewrite statement_Ok, checked_Rows. naive_solver. Qed.

Lemma query_rec_Ok {A} (f : D -> option A) a w w' :
  query_rec f w = (Ok a, w') <->
  db_fault (pos w) = None /\ f (data w) = Some a /\ w' = mkWorld (data w) (S (pos w)).
Proof.
  unfold query_rec. rewrite statement_Ok. destruct w', (f (data w)); naive_solver.
Qed.

Lemma execute_rec_Ok {A} ok (f : Z -> D -> option (A * D)) a w w' :
  execute_rec ok f w = (Ok a, w') <->
  db_fault (pos w) = None /\ f (clock_at (pos w)) (data w) = Some (a, data w')
  /\ ok (data w') = true /\ pos w' = S (pos w).
Proof.
  unfold execute_rec. rewrite statement_Ok.
  destruct (f (clock_at _) (data w)) eqn:E; rewrite ?checked_Rows; naive_solver.
Qed.

Lemma execute_one_Ok {A} ok (f : Z -> D -> option A * D) a w w' :
  execute_one ok f w = (Ok a, w') <->
  db_fault (pos w) = None /\ f (clock_at (pos w)) (data w) = (Some a, data w')
  /\ ok (data w') = true /\ pos w' = S (pos w).
Proof.
  unfold execute_one. rewrite statement_Ok.
  destruct (f (clock_at _) (data w)) as [[?|] ?]; rewrite ?checked_Rows; naive_solver.
Qed.

Lemma io_Ok {A} (f : D -> rstr + (A * D)) a w w' :
  io f w = (Ok a, w') <->
  io_fault (pos w) = None /\ f (data w) = inr (a, data w') /\ pos w' = S (pos w).
Proof. unfold io. destruct w'. repeat case_match; naive_solver. Qed.

(** A statement whose result is discarded always returns. *)
Lemma discard_statement_run {A} (f : Z -> D -> sql A D) w :
  f (clock_at (pos w)) (data w) <> Loops ->
  exists w', discard (statement f) w = (Ok tt, w') /\
    (data w' = data w \/ exists a, f (clock_at (pos w)) (data w) = Rows a (data w')).
Proof.
  intros L. unfold discard, unwrap_or, mbind, M_bind, statement, mret, M_ret.
  destruct (db_fault (pos w)); [by eexists; split; [|left]|].
  destruct (f _ _) as [a d'|e|] eqn:E; [|by eexists; split; [|left]|done].
  eexists. split; [reflexivity|]. right. by exists a.
Qed.

Lemma discard_execute_run {A} ok (f : Z -> D -> A * D) w :
  exists w', discard (execute ok f) w = (Ok tt, w') /\
    (data w' = data w \/ data w' = snd (f (clock_at (pos w)) (data w)) /\ ok (data w') = true).
Proof.
  destruct (discard_statement_run (fun now d => checked ok (f now d)) w) as (w' & H & E).
  { unfold checked. by destruct (ok _). }
  exists w'. split; [exact H|]. destruct E as [E|[a E]]; [by left|right].
  apply checked_Rows in E as [E ?]. by rewrite E.
Qed.

(** A run of a sequence stops in its first part, or runs the rest. *)
Lemma bind_inv {A B} (m : M D A) (k : A -> M D B) w o w' :
  (x ← m; k x) w = (o, w') ->
  (exists a w1, m w = (Ok a, w1) /\ k a w1 = (o, w')) \/ (exists o', m w = (o', w')).
Proof.
  unfold mbind, M_bind. destruct (m w) as [[a|e| |] w1]; intros H; simplify_eq; eauto 6.
Qed.

Lemma map_err_inv {A} f (m : M D A) w o w' :
  map_err f m w = (o, w') -> exists o', m w = (o', w').
Proof. unfold map_err. destruct (m w) as [[]]; intros [= <- <-]; eauto. Qed.

Lemma execute_inv {A} ok (f : Z -> D -> A * D) w o w' :
  execute ok f w = (o, w') ->
  data w' = data w \/ (data w' = snd (f (clock_at (pos w)) (data w)) /\ ok (data w') = true).
Proof.
  unfold execute, statement, checked. destruct (db_fault _); [intros [= <- <-]; by left|].
  destruct (ok _) eqn:E; intros [= <- <-]; [by right|by left].
Qed.

Lemma bind_interact {A B} (f : nat -> A) (k : A -> M D B) w :
  (x ← interact f; k x) w = k (f (pos w)) (mkWorld (data w) (S (pos w))).
Proof. reflexivity. Qed.

Lemma bind_new_v4 {B} (k : Z -> M D B) w :
  (x ← new_v4; k x) w = k (uuid_at (pos w)) (mkWorld (data w) (S (pos w))).
Proof. reflexivity. Qed.

(** Whatever its outcome, a statement leaves the data or its rows' new data. *)
Lemma statement_inv {A} (f : Z -> D -> sql A D) w o w' :
  statement f w = (o, w') ->
  data w' = data w \/ exists a, o = Ok a /\ f (clock_at (pos w)) (data w) = Rows a (data w').
Proof.
  unfold statement. destruct (db_fault _); [intros [= <- <-]; by left|].
  destruct (f _ _) as [a d'|e|] eqn:E; intros [= <- <-]; [right; by exists a|by left..].
Qed.

Lemma execute_one_inv {A} ok (f : Z -> D -> option A * D) w o w' :
  execute_one ok f w = (o, w') ->
  data w' = data w
  \/ exists a, o = Ok a /\ f (clock_at (pos w)) (data w) = (Some a, data w') /\ ok (data w') = true.
Proof.
  intros H. apply statement_inv in H as [H|(a & E & H)]; [by left|right]. exists a. split; [done|].
  destruct (f _ _) as [[x|] d]; [|done]. by apply checked_Rows in H as [[= -> ->] ?].
Qed.

Lemma bind_run {A B} (m : M D A) (k : A -> M D B) w a w1 r :
  m w = (Ok a, w1) -> k a w1 = r -> (x ← m; k x) w = r.
Proof. intros H <-. unfold mbind, M_bind. by rewrite H. Qed.
End Inversion.

(** ** Relations kept by every run, whatever its outcome *)

Section Preserve.
Context {D : Type} (R : D -> D -> Prop).

Definition preserves {A} (m : M D A) : Prop :=
  forall w o w', m w = (o, w') -> R (data w) (data w').

Context {HR : PreOrder R}.

Lemma preserves_ret {A} (a : A) : preserves (mret a).
Proof. intros w o w' [= <- <-]. reflexivity. Qed.

Lemma preserves_throw {A} e : preserves (throw e : M D A).
Proof. intros w o w' [= <- <-]. reflexivity. Qed.

Lemma preserves_panic {A} : preserves (panic : M D A).
Proof. intros w o w' [= <- <-]. reflexivity. Qed.

Lemma preserves_or_panic {A} (o : option A) : preserves (or_panic o).
Proof. destruct o; [apply preserves_ret | apply preserves_panic]. Qed.

Lemma preserves_lift {A} (o : outcome A) : preserves (lift o).
Proof. intros w o' w' [= <- <-]. reflexivity. Qed.

Lemma preserves_diverge {A} : preserves (diverge : M D A).
Proof. intros w o w' [= <- <-]. reflexivity. Qed.

Lemma preserves_get : preserves get.
Proof. intros w o w' [= <- <-]. reflexivity. Qed.

Lemma preserves_modify (f : D -> D) : (forall d, R d (f d)) -> preserves (modify f).
Proof. intros Hf w o w' [= <- <-]. apply Hf. Qed.

Lemma preserves_interact {A} (f : nat -> A) : preserves (interact f).
Proof. intros w o w' [= <- <-]. reflexivity. Qed.

Lemma preserves_ok_or {A} (o : option A) e : preserves (ok_or o e).
Proof. destruct o; [apply preserves_ret | apply preserves_throw]. Qed.

Lemma preserves_bind {A B} (m : M D A) (k : A -> M D B) :
  preserves m -> (forall a, preserves (k a)) -> preserves (x ← m; k x).
Proof.
  intros Hm Hk w o w' H. unfold mbind, M_bind in H.
  destruct (m w) as [[a|e| |] w1] eqn:E; apply Hm in E; [|by simplify_eq..].
  apply Hk in H. by transitivity (data w1).
Qed.

Lemma preserves_map_err {A} f (m : M D A) : preserves m -> preserves (map_err f m).
Proof.
  intros Hm w o w' H. unfold map_err in H.
  destruct (m w) as [[a|e| |] w1] eqn:E; apply Hm in E; by simplify_eq.
Qed.

Lemma preserves_unwrap_or {A} (m : M D A) a : preserves m -> preserves (unwrap_or m a).
Proof.
  intros Hm w o w' H. unfold unwrap_or in H.
  destruct (m w) as [[x|e| |] w1] eqn:E; apply Hm in E; by simplify_eq.
Qed.

Lemma preserves_discard {A} (m : M D A) : preserves m -> preserves (discard m).
Proof.
  intros Hm. apply preserves_unwrap_or, preserves_bind; [done|].
  intros _. apply preserves_ret.
Qed.

Lemma preserves_attempt {A} (m : M D A) : preserves m -> preserves (attempt m).
Proof.
  intros Hm. apply preserves_unwrap_or, preserves_bind; [done|]. intros a. apply preserves_ret.
Qed.

Context {O : Oracle}.

Lemma preserves_random_bytes n : preserves (random_bytes n).
Proof.
  induction n as [|n IH]; simpl; [apply preserves_ret|].
  apply preserves_bind; [apply preserves_interact|]. intros b.
  apply preserves_bind; [done|]. intros r. apply preserves_ret.
Qed.

Lemma preserves_statement {A} (f : Z -> D -> sql A D) :
  (forall now d a d', f now d = Rows a d' -> R d d') -> preserves (statement f).
Proof.
  intros Hf w o w' H. unfold statement in H.
  repeat case_match; simplify_eq; simpl; try reflexivity. by eapply Hf.
Qed.

Lemma preserves_query {A} (f : D -> A) : preserves (query f).
Proof. apply preserves_statement. intros ? d a d' [= <- <-]. reflexivity. Qed.

Lemma preserves_query_now {A} (f : Z -> D -> A) : preserves (query_now f).
Proof. apply preserves_statement. intros ? d a d' [= <- <-]. reflexivity. Qed.

Lemma preserves_fetch_one {A} (f : D -> option A) : preserves (fetch_one f).
Proof. apply preserves_statement. intros ? d a d' ?. case_match; simplify_eq. reflexivity. Qed.

Lemma preserves_query_rec {A} (f : D -> option A) : preserves (query_rec f).
Proof. apply preserves_statement. intros ? d a d' ?. case_match; simplify_eq. reflexivity. Qed.

Lemma preserves_execute {A} ok (f : Z -> D -> A * D) :
  (forall now d a d', f now d = (a, d') -> ok d' = true -> R d d') -> preserves (execute ok f).
Proof.
  intros Hf. apply preserves_statement. intros now d a d' H.
  apply checked_Rows in H as [? ?]. eauto.
Qed.

Lemma preserves_execute_rec {A} ok (f : Z -> D -> option (A * D)) :
  (forall now d a d', f now d = Some (a, d') -> ok d' = true -> R d d') ->
  preserves (execute_rec ok f).
Proof.
  intros Hf. apply preserves_statement. intros now d a d' H.
  case_match; [|done]. apply checked_Rows in H as [-> ?]. eauto.
Qed.

Lemma preserves_execute_one {A} ok (f : Z -> D -> option A * D) :
  (forall now d a d', f now d = (Some a, d') -> ok d' = true -> R d d') ->
  preserves (execute_one ok f).
Proof.
  intros Hf. apply preserves_statement. intros now d a d' H.
  destruct (f now d) as [[x|] d1] eqn:E; [|done].
  apply checked_Rows in H as [[= <- <-] ?]. eauto.
Qed.

Lemma preserves_io {A} (f : D -> rstr + (A * D)) :
  (forall d a d', f d = inr (a, d') -> R d d') -> preserves (io f).
Proof.
  intros Hf w o w' H. unfold io in H.
  repeat case_match; simplify_eq; simpl; try reflexivity. by eapply Hf.
Qed.
End Preserve.

Create HintDb effects.
Create Rewrite HintDb effects.
#[export] Hint Resolve preserves_ret preserves_throw preserves_lift preserves_or_panic preserves_random_bytes preserves_panic preserves_diverge
  preserves_get preserves_interact preserves_ok_or preserves_query preserves_query_now
  preserves_fetch_one preserves_query_rec
  preserves_map_err preserves_unwrap_or preserves_discard : effects.
#[export] Hint Rewrite @bind_Ok @ret_Ok @throw_Ok @ok_or_Ok @or_panic_Ok @lift_Ok @map_err_Ok @get_Ok @interact_Ok
  @query_Ok @query_now_Ok @fetch_one_Ok @query_rec_Ok @execute_Ok @execute_rec_Ok
  @execute_one_Ok @io_Ok : effects.

(** Structural proof that a program preserves a relation: it leaves the
    writing statements. *)
Ltac preserve :=
  repeat match goal with
  | |- preserves _ (mbind _ _) => apply preserves_bind; [try apply _ | | intros ?]
  | |- preserves _ (match ?x with _ => _ end) => destruct x
  | |- preserves _ (if ?x then _ else _) => destruct x
  | |- preserves _ (map_err _ _) => apply preserves_map_err
  | |- preserves _ (unwrap_or _ _) => apply preserves_unwrap_or
  | |- preserves _ (discard _) => apply preserves_discard; [try apply _ |]
  | |- preserves _ (attempt _) => apply preserves_attempt; [try apply _ |]
  | |- preserves _ new_v4 => apply preserves_interact; apply _
  | |- preserves _ utc_now => apply preserves_interact; apply _
  | |- preserves _ random_byte => apply preserves_interact; apply _
  | |- preserves _ random_salt => apply preserves_interact; apply _
  | |- preserves _ random_code => apply preserves_interact; apply _
  | |- preserves _ random_token => apply preserves_interact; apply _
  | |- preserves _ _ => solve [eauto with effects typeclass_instances]
  end.

(** Decompose a successful run into its steps. *)
Ltac run_ok H :=
  repeat match type of H with
  | mbind _ _ _ = (Ok _, _) =>
      let a := fresh "x" in let w := fresh "w" in let Hm := fresh "Hm" in
      apply bind_Ok in H; destruct H as (a & w & Hm & H); run_ok Hm
  | (if ?b then _ else _) _ = (Ok _, _) => let E := fresh "E" in destruct b eqn:E
  | match ?b with _ => _ end _ = (Ok _, _) => let E := fresh "E" in destruct b eqn:E
  | mret _ _ = (Ok _, _) => apply ret_Ok in H; destruct H as [? ?]; subst
  | throw _ _ = (Ok _, _) => apply throw_Ok in H; destruct H
  | panic _ = (Ok _, _) => discriminate H
  | diverge _ = (Ok _, _) => discriminate H
  | ok_or _ _ _ = (Ok _, _) => apply ok_or_Ok in H; destruct H as [H ?]; subst
  | or_panic _ _ = (Ok _, _) => apply or_panic_Ok in H; destruct H as [H ?]; subst
  | lift _ _ = (Ok _, _) => apply lift_Ok in H; destruct H as [H ?]; subst
  | map_err _ _ _ = (Ok _, _) => apply map_err_Ok in H; run_ok H
  | modify _ _ = (Ok _, _) => apply modify_Ok in H; subst
  | get _ = (Ok _, _) => apply get_Ok in H; destruct H as [-> ?]; subst
  | interact _ _ = (Ok _, _) => apply interact_Ok in H; destruct H as [? ?]; subst
  | new_v4 _ = (Ok _, _) => apply interact_Ok in H; destruct H as [? ?]; subst
  | utc_now _ = (Ok _, _) => apply interact_Ok in H; destruct H as [? ?]; subst
  | random_byte _ = (Ok _, _) => apply interact_Ok in H; destruct H as [? ?]; subst
  | random_salt _ = (Ok _, _) => apply interact_Ok in H; destruct H as [? ?]; subst
  | random_code _ = (Ok _, _) => apply interact_Ok in H; destruct H as [? ?]; subst
  | random_token _ = (Ok _, _) => apply interact_Ok in H; destruct H as [? ?]; subst
  | query _ _ = (Ok _, _) => apply query_Ok in H; destruct H as (? & ? & ?); subst
  | fetch_one _ _ = (Ok _, _) => apply fetch_one_Ok in H; destruct H as (? & H & ?); subst
  | query_now _ _ = (Ok _, _) => apply query_now_Ok in H; destruct H as (? & ? & ?); subst
  | query_rec _ _ = (Ok _, _) => apply query_rec_Ok in H; destruct H as (? & H & ?); subst
  | execute _ _ _ = (Ok _, _) => apply execute_Ok in H; destruct H as (? & H & ? & ?)
  | execute_rec _ _ _ = (Ok _, _) => apply execute_rec_Ok in H; destruct H as (? & H & ? & ?)
  | execute_one _ _ _ = (Ok _, _) => apply execute_one_Ok in H; destruct H as (? & H & ? & ?)
  | io _ _ = (Ok _, _) => apply io_Ok in H; destruct H as (? & H & ?)
  end.

(** A concrete run from its outcome. *)
Lemma run_pair {A B} (p : A * B) (a : A) : fst p = a -> p = (a, snd p).
Proof. by destruct p; intros <-. Qed.

(** A concrete run that ended well did not end otherwise. *)
Ltac not_ok E := apply (f_equal fst) in E; vm_compute in E; discriminate E.

(** ** What the client of an error sees *)

(** the status of an error answer is one of seven; a 500 answer carries one
    fixed text, so nothing of a database or internal error reaches the client,
    and every other answer carries the Display text of its error. *)
Theorem into_response_hides e :
  fst (into_response e) = status_code e
  /\ status_code e ∈ [401; 403; 404; 409; 422; 429; 500]
  /\ message (snd (into_response e)) =
       if status_code e =? 500 then lit "An internal error occurred" else display e.
Proof.
  split; [done|]. split; [|by destruct e].
  destruct e; apply list_elem_of_In; simpl; tauto.
Qed.
