(* ===== verification/Externals.v ===== *)
(** * Externals: the third-party crates the services call

    Each crate is a class: the functions the code calls and, as its laws, the
    documented behaviour the theorems rely on.  Every class has a concrete
    instance, so that theorems over it can be evaluated. *)

From S2P Require Import Prelude Text Effects.

(** ** sha2, sha1_smol: digests of fixed length *)

Class Sha256 := {
  sha256 : bytes -> bytes;
  sha256_length : forall b, length (sha256 b) = 32%nat;
  sha256_bytes : forall b, are_bytes (sha256 b)
}.

Class Sha1 := {
  sha1 : bytes -> bytes;
  sha1_length : forall b, length (sha1 b) = 20%nat;
  sha1_bytes : forall b, are_bytes (sha1 b)
}.

(** ** hex: two characters per byte *)

(** A lower-case hexadecimal digit or a hyphen. *)
Definition uuid_char (c : Z) : bool :=
  is_ascii_digit c || ((97 <=? c) && (c <=? 102)) || (c =? chr "-").

Class Hex := {
  hex_encode : bytes -> rstr;
  hex_decode : rstr -> option bytes;
  (** the Display text of a decoding error *)
  hex_error : rstr -> rstr;
  hex_decode_encode : forall b, are_bytes b -> hex_decode (hex_encode b) = Some b;
  hex_decode_bytes : forall s b, hex_decode s = Some b -> are_bytes b;
  hex_decode_nil : hex_decode [] = Some [];
  hex_encode_chars : forall b, are_bytes b -> Forall (fun c => uuid_char c = true /\ c <> chr "-") (hex_encode b)
}.

(** ** uuid: 36 characters, hexadecimal digits and hyphens *)

Definition is_uuid (u : Z) : Prop := 0 <= u < 2 ^ 128.

Class UuidText := {
  uuid_to_string : Z -> rstr;
  uuid_parse_str : rstr -> option Z;
  (** the Display text of a parse error *)
  uuid_error : rstr -> rstr;
  uuid_parse_range : forall s u, uuid_parse_str s = Some u -> is_uuid u;
  uuid_parse_to_string : forall u, is_uuid u -> uuid_parse_str (uuid_to_string u) = Some u;
  uuid_to_string_length : forall u, length (uuid_to_string u) = 36%nat;
  uuid_to_string_chars : forall u, Forall (fun c => uuid_char c = true) (uuid_to_string u)
}.

Lemma uuid_text_inj `{UuidText} i j : is_uuid i -> is_uuid j -> uuid_to_string i = uuid_to_string j -> i = j.
Proof. intros Hi Hj E. apply uuid_parse_to_string in Hi, Hj. rewrite E in Hi. congruence. Qed.

(** ** argon2: PHC strings *)

Class Argon2 := {
  (** hash of a password with a salt drawn from the system, or an error text *)
  argon2_hash : bytes -> Z -> rstr + rstr;
  (** the error of PasswordHash::new, if it fails *)
  phc_error : rstr -> option rstr;
  argon2_verify : bytes -> rstr -> bool;
  argon2_verify_hash : forall p salt h, argon2_hash p salt = inr h ->
    phc_error h = None /\ argon2_verify p h = true /\ starts_with (lit "pbkdf2$") h = false
}.

(** ** base64 (STANDARD engine) *)

Class Base64 := {
  b64_decode : rstr -> option bytes;
  (** the text of the error, when there is none *)
  b64_error : rstr -> rstr;
  b64_decode_bytes : forall s b, b64_decode s = Some b -> are_bytes b
}.

(** ** chrono: adding a duration to an instant

    Instants are microseconds.  [Duration::seconds], [Duration::hours] and the
    addition panic when the result is out of their range. *)

Class Chrono := {
  add_seconds : Z -> Z -> option Z;
  add_seconds_exact : forall t s t', add_seconds t s = Some t' -> t' = t + s * 1000000;
  (** until the year 2500, durations up to ten years are in range *)
  add_seconds_total : forall t s, 0 <= t < 17000000000 * 1000000 -> - 315360000 <= s <= 315360000 ->
    is_Some (add_seconds t s);
  add_seconds_overflow : forall t s, i64_max / 1000 < s -> add_seconds t s = None
}.

(** Duration::hours multiplies in i64 and panics on overflow. *)
Definition add_hours `{Chrono} (t h : Z) : option Z :=
  if int8 (h * 3600) then add_seconds t (h * 3600) else None.

(** ** mime_guess: the type a file name suggests *)

Definition visible (s : rstr) : Prop := Forall (fun c => 32 <= c < 127) s.

Lemma visible_iff s : forallb (fun c => (32 <=? c) && (c <? 127)) s = true -> visible s.
Proof. rewrite forallb_forall. intros H. apply Forall_forall. intros c Hc. apply list_elem_of_In, H in Hc. lia. Qed.

Class MimeGuess := {
  mime_from_path : rstr -> rstr;
  (** first_raw: nothing for an unknown extension *)
  mime_first_raw : rstr -> option rstr;
  mime_first_visible : forall s m, mime_first_raw s = Some m -> visible m
}.

(** ** http: the values a header of a response may have *)

Class HttpValues := {
  header_ok : rstr -> bool;
  header_ok_visible : forall s, visible s -> header_ok s = true
}.

(** ** to_char of PostgreSQL *)

Class PgDates := {
  (** 'Dy, DD Mon YYYY HH24:MI:SS GMT' *)
  http_date : Z -> rstr;
  (** the date and the time with .000Z *)
  iso_date : Z -> rstr;
  http_date_visible : forall t, visible (http_date t);
  iso_date_visible : forall t, visible (iso_date t)
}.

(** ** The order of text in the database *)

(** ORDER BY on a text column follows the collation of the database. *)
Class Collation := {
  text_le : rstr -> rstr -> bool;
  text_le_total : forall a b, text_le a b = false -> text_le b a = true;
  text_le_trans : forall a b c, text_le a b = true -> text_le b c = true -> text_le a c = true
}.

(** ** Concrete instances *)

Definition hex_digit (d : Z) : Z := if d <? 10 then 48 + d else 87 + d.
Definition hex_value (c : Z) : option Z := digit_val 16 c.

Lemma hex_value_digit d : 0 <= d < 16 -> hex_value (hex_digit d) = Some d.
Proof.
  intros H. unfold hex_value, hex_digit, digit_val, is_ascii_digit, is_ascii_lower, is_ascii_upper.
  destruct (Z.ltb_spec d 10).
  - replace ((48 <=? 48 + d) && (48 + d <=? 57)) with true
      by (symmetry; apply andb_true_iff; split; apply Z.leb_le; lia).
    destruct (Z.ltb_spec (48 + d - 48) 16); [f_equal; lia|lia].
  - replace ((48 <=? 87 + d) && (87 + d <=? 57)) with false
      by (symmetry; apply andb_false_iff; right; apply Z.leb_gt; lia).
    replace ((97 <=? 87 + d) && (87 + d <=? 122)) with true
      by (symmetry; apply andb_true_iff; split; apply Z.leb_le; lia).
    destruct (Z.ltb_spec (87 + d - 87) 16); [f_equal; lia|lia].
Qed.

Lemma hex_value_range c d : hex_value c = Some d -> 0 <= d < 16.
Proof.
  unfold hex_value, digit_val, is_ascii_digit, is_ascii_lower, is_ascii_upper.
  intros H. repeat case_match; simplify_eq; boolify; lia.
Qed.

Lemma hex_digit_char d : 0 <= d < 16 -> uuid_char (hex_digit d) = true /\ hex_digit d <> chr "-".
Proof.
  intros H. unfold hex_digit, uuid_char, is_ascii_digit. change (chr "-") with 45.
  destruct (Z.ltb_spec d 10); (split; [|lia]); apply orb_true_iff; left; apply orb_true_iff;
    [left | right]; apply andb_true_iff; split; apply Z.leb_le; lia.
Qed.

Fixpoint plain_hex_encode (b : bytes) : rstr :=
  match b with
  | [] => []
  | x :: r => hex_digit (x / 16) :: hex_digit (x mod 16) :: plain_hex_encode r
  end.

Fixpoint plain_hex_decode (s : rstr) : option bytes :=
  match s with
  | [] => Some []
  | [_] => None
  | h :: l :: r =>
      match hex_value h, hex_value l, plain_hex_decode r with
      | Some x, Some y, Some b => Some (x * 16 + y :: b)
      | _, _, _ => None
      end
  end.

Lemma plain_hex_roundtrip b : are_bytes b -> plain_hex_decode (plain_hex_encode b) = Some b.
Proof.
  induction 1 as [|x r Hx Hr IH]; simpl; [done|]. unfold is_byte in Hx.
  rewrite !hex_value_digit, IH.
  - f_equal. f_equal. pose proof (Z.div_mod x 16). lia.
  - apply Z.mod_pos_bound. lia.
  - split; [apply Z.div_pos; lia | apply Z.div_lt_upper_bound; lia].
Qed.

Lemma plain_hex_bytes s b : plain_hex_decode s = Some b -> are_bytes b.
Proof.
  assert (G : forall n s b, (length s <= n)%nat -> plain_hex_decode s = Some b -> are_bytes b).
  { induction n as [|n IH]; intros [|h [|l r]] b' L H; simpl in *;
      simplify_eq; try constructor; try lia.
    destruct (hex_value h) as [x|] eqn:Ex; [|done].
    destruct (hex_value l) as [y|] eqn:Ey; [|done].
    destruct (plain_hex_decode r) as [c|] eqn:Ec; [|done]. simplify_eq.
    apply hex_value_range in Ex, Ey. constructor; [unfold is_byte; lia|].
    apply (IH r); [lia|done]. }
  by apply (G (length s)).
Qed.

Definition plain_hex : Hex.
Proof.
  refine {| hex_encode := plain_hex_encode; hex_decode := plain_hex_decode;
            hex_error s := lit "Invalid character" |}.
  - apply plain_hex_roundtrip.
  - apply plain_hex_bytes.
  - reflexivity.
  - induction 1 as [|x b Hx Hb IH]; simpl; [constructor|]. unfold is_byte in Hx.
    repeat constructor; try apply hex_digit_char; try done;
      first [apply Z.mod_pos_bound; lia
            | split; [apply Z.div_pos; lia | apply Z.div_lt_upper_bound; lia]].
Defined.

(** A digest that folds the bytes into a fixed number of sums. *)
Definition toy_digest (n : nat) (b : bytes) : bytes :=
  map (fun i => wrap_u8 (fold_left (fun a x => a * 31 + x + i) b i)) (map Z.of_nat (seq 0 n)).

Lemma toy_digest_length n b : length (toy_digest n b) = n.
Proof. unfold toy_digest. by rewrite !length_map, length_seq. Qed.

Lemma toy_digest_bytes n b : are_bytes (toy_digest n b).
Proof.
  unfold toy_digest. apply Forall_forall. intros x H. apply list_elem_of_In in H.
  apply in_map_iff in H as (i & <- & _). apply wrap_u8_byte.
Qed.

Definition toy_sha256 : Sha256.
Proof.
  refine {| sha256 := toy_digest 32 |}; intros; [apply toy_digest_length | apply toy_digest_bytes].
Defined.

Definition toy_sha1 : Sha1.
Proof.
  refine {| sha1 := toy_digest 20 |}; intros; [apply toy_digest_length | apply toy_digest_bytes].
Defined.

(** The hyphenated form of an identifier: 8-4-4-4-12 digits. *)
Fixpoint hex_fixed (n : nat) (u : Z) : rstr :=
  match n with
  | O => []
  | S k => hex_fixed k (u / 16) ++ [hex_digit (u mod 16)]
  end.

Definition hyphenate (s : rstr) : rstr :=
  take 8 s ++ [chr "-"] ++ take 4 (drop 8 s) ++ [chr "-"] ++ take 4 (drop 12 s) ++ [chr "-"]
  ++ take 4 (drop 16 s) ++ [chr "-"] ++ drop 20 s.

Definition unhyphenate (s : rstr) : rstr := List.filter (fun c => negb (c =? chr "-")) s.

Definition plain_uuid_to_string (u : Z) : rstr := hyphenate (hex_fixed 32 u).

Definition plain_uuid_parse (s : rstr) : option Z :=
  let d := unhyphenate s in
  if (length d =? 32)%nat then parse_digits 16 (2 ^ 128 - 1) 0 d else None.

Lemma hex_fixed_length n u : length (hex_fixed n u) = n.
Proof. revert u. induction n as [|n IH]; intros u; simpl; [done|]. rewrite length_app, IH. simpl. lia. Qed.

Lemma hex_fixed_chars n u :
  Forall (fun c => uuid_char c = true /\ c <> chr "-") (hex_fixed n u).
Proof.
  revert u. induction n as [|n IH]; intros u; simpl; [constructor|].
  apply Forall_app. split; [apply IH|]. constructor; [|constructor].
  apply hex_digit_char. apply Z.mod_pos_bound. lia.
Qed.

Lemma unhyphenate_app a b : unhyphenate (a ++ b) = unhyphenate a ++ unhyphenate b.
Proof. apply List.filter_app. Qed.

Lemma unhyphenate_id s : Forall (fun c => uuid_char c = true /\ c <> chr "-") s -> unhyphenate s = s.
Proof.
  induction 1 as [|c s [_ Hc] Hs IH]; simpl; [done|].
  destruct (Z.eqb_spec c (chr "-")); [done|]. simpl. by rewrite IH.
Qed.

Lemma hyphenate_parts (s : rstr) :
  s = take 8 s ++ take 4 (drop 8 s) ++ take 4 (drop 12 s) ++ take 4 (drop 16 s) ++ drop 20 s.
Proof.
  rewrite <- (take_drop 8 s) at 1. f_equal.
  rewrite <- (take_drop 4 (drop 8 s)) at 1. f_equal. rewrite drop_drop. simpl.
  rewrite <- (take_drop 4 (drop 12 s)) at 1. f_equal. rewrite drop_drop. simpl.
  rewrite <- (take_drop 4 (drop 16 s)) at 1. f_equal. by rewrite drop_drop.
Qed.

Lemma unhyphenate_hyphenate s :
  Forall (fun c => uuid_char c = true /\ c <> chr "-") s -> unhyphenate (hyphenate s) = s.
Proof.
  intros H. unfold hyphenate. rewrite !unhyphenate_app.
  change (unhyphenate [chr "-"]) with (@nil Z). simpl.
  rewrite !unhyphenate_id by (repeat first [apply Forall_take | apply Forall_drop]; done).
  symmetry. apply hyphenate_parts.
Qed.

Lemma parse_hex_fixed n u acc max :
  0 <= u < 16 ^ Z.of_nat n -> 0 <= acc -> acc * 16 ^ Z.of_nat n + u <= max ->
  parse_digits 16 max acc (hex_fixed n u) = Some (acc * 16 ^ Z.of_nat n + u).
Proof.
  assert (A : forall s t a v, parse_digits 16 max a s = Some v ->
            parse_digits 16 max a (s ++ t) = parse_digits 16 max v t).
  { induction s as [|c s IH]; intros t a v H; simpl in *; [by simplify_eq|].
    destruct (digit_val 16 c); [|done]. case_match; [done|]. by apply IH. }
  revert u acc. induction n as [|n IH]; intros u acc Hu Ha Hm.
  - change (16 ^ Z.of_nat 0) with 1 in *. simpl. f_equal. lia.
  - rewrite Nat2Z.inj_succ, Z.pow_succ_r in * by lia. cbn [hex_fixed].
    pose proof (Z.mod_pos_bound u 16 ltac:(lia)). pose proof (Z.div_mod u 16 ltac:(lia)).
    assert (0 <= u / 16) by (apply Z.div_pos; lia).
    assert (u / 16 < 16 ^ Z.of_nat n) by (apply Z.div_lt_upper_bound; lia).
    erewrite A; [|apply IH; nia].
    cbn [parse_digits]. change (digit_val 16 (hex_digit (u mod 16)))
      with (hex_value (hex_digit (u mod 16))). rewrite hex_value_digit by lia.
    destruct (Z.ltb_spec max ((acc * 16 ^ Z.of_nat n + u / 16) * 16 + u mod 16)); [nia|].
    f_equal. nia.
Qed.

Definition plain_uuid : UuidText.
Proof.
  refine {| uuid_to_string := plain_uuid_to_string; uuid_parse_str := plain_uuid_parse;
            uuid_error s := lit "invalid length" |}.
  - intros s u. unfold plain_uuid_parse, is_uuid. destruct (length (unhyphenate s) =? 32)%nat; [|done].
    intros H. apply parse_digits_bound in H; lia.
  - intros u Hu. unfold plain_uuid_parse, plain_uuid_to_string.
    rewrite unhyphenate_hyphenate by apply hex_fixed_chars. rewrite hex_fixed_length.
    unfold is_uuid in Hu. rewrite parse_hex_fixed; [reflexivity | exact Hu | done | lia].
  - intros u. unfold plain_uuid_to_string, hyphenate.
    pose proof (hyphenate_parts (hex_fixed 32 u)) as H. apply (f_equal length) in H.
    rewrite hex_fixed_length in H. rewrite !length_app in *. simpl length at 2 4 6 8. lia.
  - intros u. unfold plain_uuid_to_string, hyphenate.
    assert (H : Forall (fun c => uuid_char c = true) (hex_fixed 32 u)).
    { eapply Forall_impl; [apply hex_fixed_chars|]. naive_solver. }
    assert (D : uuid_char (chr "-") = true) by reflexivity.
    revert H. generalize (hex_fixed 32 u). intros t H.
    repeat first [apply Forall_app; split | apply Forall_take | apply Forall_drop]; try done;
      by repeat constructor.
Defined.

(** A password hash that keeps the password in the clear. *)
Definition toy_argon2 : Argon2.
Proof.
  refine {| argon2_hash p salt := inr (lit "$argon2id$" ++ plain_hex_encode p);
            phc_error h := if starts_with (lit "$argon2") h then None else Some (lit "phc");
            argon2_verify p h := bool_decide (h = lit "$argon2id$" ++ plain_hex_encode p) |}.
  intros p salt h [= <-]. split; [reflexivity|]. split; [|reflexivity].
  by apply bool_decide_eq_true.
Defined.

(** Base64 over the digits of the hexadecimal instance is enough to evaluate. *)
Definition toy_base64 : Base64.
Proof. refine {| b64_decode := plain_hex_decode; b64_error _ := lit "Invalid byte" |}. apply plain_hex_bytes. Defined.

Definition toy_oracle (faults : list nat) : nat -> option rstr :=
  fun n => if existsb (Nat.eqb n) faults then Some (lit "connection closed") else None.

Definition plain_chrono : Chrono.
Proof.
  refine {| add_seconds t s :=
              if (Z.abs s <=? i64_max / 1000) && (Z.abs (t + s * 1000000) <=? 8 * 10 ^ 18)
              then Some (t + s * 1000000) else None |}.
  - intros t s t' H. case_hyp H; by inversion H.
  - intros t s Ht Hs. case_goal; [done|]. change (i64_max / 1000) with 9223372036854775 in E. lia.
  - intros t s H. case_goal; [lia|done].
Defined.

(** An environment whose clock advances a microsecond per interaction from
    November 2023, in which the statements [faults] fail. *)
Definition toy_env (faults : list nat) : Oracle :=
  {| db_fault := toy_oracle faults;
     io_fault n := None;
     uuid_at n := Z.of_nat n + 1000;
     byte_at n := Z.of_nat n mod 256;
     salt_at n := Z.of_nat n;
     token_at n := lit "token" ++ show_uint (Z.of_nat n);
     code_at n := Z.of_nat n mod 1000000;
     clock_at n := 1700000000000000 + Z.of_nat n |}.

Lemma toy_env_reliable : reliable (toy_env []).
Proof. done. Qed.

Definition octet_stream : MimeGuess.
Proof.
  refine {| mime_from_path _ := lit "application/octet-stream"; mime_first_raw _ := None |}. done.
Defined.

Definition any_header : HttpValues.
Proof.
  refine {| header_ok s := forallb (fun c => (32 <=? c) && negb (c =? 127)) s |}.
  intros s H. apply forallb_forall. intros c Hc. apply list_elem_of_In in Hc.
  unfold visible in H. rewrite Forall_forall in H. apply H in Hc. lia.
Defined.

Definition epoch_dates : PgDates.
Proof.
  refine {| http_date _ := lit "Thu, 01 Jan 1970 00:00:00 GMT"; iso_date _ := lit "1970-01-01T00:00:00.000Z" |};
    intros t; apply visible_iff; vm_compute; reflexivity.
Defined.

(** The collation "C": by code points. *)
Fixpoint code_le (a b : rstr) : bool :=
  match a, b with
  | [], _ => true
  | _, [] => false
  | x :: a', y :: b' => (x <? y) || ((x =? y) && code_le a' b')
  end.

Definition c_collation : Collation.
Proof.
  refine {| text_le := code_le |}.
  - induction a as [|x a IH]; intros [|y b]; simpl; try done. intros H. boolify.
    destruct (x =? y) eqn:E; simpl in *; [rewrite (IH b) by done; lia|lia].
  - induction a as [|x a IH]; intros [|y b] [|z c]; simpl; try done. intros H1 H2.
    destruct (x <? y) eqn:E1, (y <? z) eqn:E2; simpl in *; boolify.
    4: { subst. rewrite Z.eqb_refl, (IH b c) by done. apply orb_true_r. }
    all: replace (x <? z) with true by lia; done.
Defined.
