(* ===== verification/Fs.v ===== *)
(** * Fs: the part of std::fs and std::path the storage engine uses

    A file system is a map from canonical paths (the components below the root)
    to nodes; a symbolic link holds an absolute target.  [canonicalize] resolves
    "." and ".." and follows links, forty at most as Linux does, so that
    escapes through links are part of the model. *)

From S2P Require Import Prelude Text.

Module Fs.

Abbreviation path := (list rstr).

Inductive node := File (content : bytes) | Dir | Link (target : path).

#[export] Instance node_eq_dec : EqDecision node.
Proof. solve_decision. Defined.

Abbreviation fs := (gmap path node).

Definition DOT : rstr := lit ".".
Definition DOTDOT : rstr := lit "..".

Definition node_at (f : fs) (p : path) : option node :=
  match p with [] => Some Dir | _ => f !! p end.

Definition parent (p : path) : path := removelast p.

(** Path resolution from the canonical directory [cur]. *)
Fixpoint resolve (links : nat) (f : fs) : path -> path -> option path :=
  fix go (cur rest : path) {struct rest} : option path :=
    match rest with
    | [] => Some cur
    | c :: r =>
        if bool_decide (c = DOT) then go cur r
        else if bool_decide (c = DOTDOT) then go (parent cur) r
        else
          match f !! (cur ++ [c]) with
          | None => None
          | Some (Link t) =>
              match links with O => None | S l => resolve l f [] (t ++ r) end
          | Some (File _) => if nonempty r then None else Some (cur ++ [c])
          | Some Dir => go (cur ++ [c]) r
          end
    end.

Definition MAX_LINKS : nat := 40.

Definition canonicalize (f : fs) (p : path) : option path := resolve MAX_LINKS f [] p.
Definition path_exists (f : fs) (p : path) : bool :=
  match canonicalize f p with Some _ => true | None => false end.

(** Path::starts_with: whole components. *)
Fixpoint path_prefix (a b : path) : bool :=
  match a, b with
  | [], _ => true
  | x :: a', y :: b' => bool_decide (x = y) && path_prefix a' b'
  | _, [] => false
  end.

(** fs::read *)
Definition read (f : fs) (p : path) : option bytes :=
  match canonicalize f p with
  | Some q => match node_at f q with Some (File b) => Some b | _ => None end
  | None => None
  end.

(** fs::create_dir_all, one missing component after another; a link that leads
    nowhere is in the way. *)
Fixpoint create_dirs (f : fs) (cur rest : path) : option fs :=
  match rest with
  | [] => Some f
  | c :: r =>
      match canonicalize f (cur ++ [c]) with
      | Some q => match node_at f q with Some Dir => create_dirs f q r | _ => None end
      | None => match f !! (cur ++ [c]) with
                | None => create_dirs (<[cur ++ [c] := Dir]> f) (cur ++ [c]) r
                | Some _ => None
                end
      end
  end.

Definition create_dir_all (f : fs) (p : path) : option fs := create_dirs f [] p.

(** The canonical name of the entry a path names in its directory, the entry
    itself not followed. *)
Definition entry_name (f : fs) (p : path) : option path :=
  match canonicalize f (parent p) with
  | Some d => match node_at f d with
              | Some Dir => match last p with Some c => Some (d ++ [c]) | None => None end
              | _ => None
              end
  | None => None
  end.

(** File::create followed by a complete write.  A directory or a link in the
    way is an error. *)
Definition write (f : fs) (p : path) (b : bytes) : option fs :=
  match entry_name f p with
  | Some q => match node_at f q with
              | None | Some (File _) => Some (<[q := File b]> f)
              | _ => None
              end
  | None => None
  end.

(** fs::rename of a file. *)
Definition rename (f : fs) (a b : path) : option fs :=
  match entry_name f a, entry_name f b with
  | Some p, Some q =>
      match node_at f p, node_at f q with
      | Some (File c), (None | Some (File _) | Some (Link _)) => Some (<[q := File c]> (delete p f))
      | _, _ => None
      end
  | _, _ => None
  end.

(** fs::remove_file: the entry itself, not what a link points to. *)
Definition remove_file (f : fs) (p : path) : option fs :=
  match entry_name f p with
  | Some q => match node_at f q with
              | Some (File _) | Some (Link _) => Some (delete q f)
              | _ => None
              end
  | None => None
  end.

(** fs::remove_dir_all *)
Definition remove_dir_all (f : fs) (p : path) : option fs :=
  match entry_name f p with
  | Some q => match node_at f q with
              | Some Dir => Some (filter (fun kv => path_prefix q (fst kv) = false) f)
              | _ => None
              end
  | None => None
  end.

(** fs::remove_dir: an empty directory. *)
Definition remove_dir (f : fs) (p : path) : option fs :=
  match entry_name f p with
  | Some q => match node_at f q with
              | Some Dir =>
                  if existsb (fun kv : path * node => path_prefix q (fst kv) && negb (bool_decide (fst kv = q)))
                       (map_to_list f)
                  then None else Some (delete q f)
              | _ => None
              end
  | None => None
  end.

(** OpenOptions::new().write(true).create(true): the canonical name of the file
    that is opened, which is made when it is not there; links are followed, one
    that leads nowhere too. *)
Fixpoint open_target (links : nat) (f : fs) (p : path) : option path :=
  if match last p with Some c => bool_decide (c = DOT) || bool_decide (c = DOTDOT) | None => true end then None
  else
    match entry_name f p with
    | Some q => match node_at f q with
                | Some (Link t) => match links with O => None | S l => open_target l f t end
                | Some Dir => None
                | _ => Some q
                end
    | None => None
    end.

Definition open_create (f : fs) (p : path) : option (path * fs) :=
  match open_target MAX_LINKS f p with
  | Some q => match f !! q with
              | Some _ => Some (q, f)
              | None => Some (q, <[q := File []]> f)
              end
  | None => None
  end.

(** fs::read_dir: the names and nodes directly in a directory. *)
Definition read_dir (f : fs) (p : path) : option (list (rstr * node)) :=
  match canonicalize f p with
  | Some q =>
      match node_at f q with
      | Some Dir =>
          Some (omap (fun kv : path * node =>
                  let (k, n) := kv in
                  match last k with
                  | Some c => if bool_decide (k = q ++ [c]) then Some (c, n) else None
                  | None => None
                  end) (map_to_list f))
      | _ => None
      end
  | None => None
  end.

(** ** Lemmas *)

Lemma path_prefix_iff a b : path_prefix a b = true <-> exists r, b = a ++ r.
Proof.
  revert b. induction a as [|x a IH]; intros b; simpl.
  - split; [by exists b|done].
  - destruct b as [|y b]; [split; [done|by intros [r ?]]|].
    rewrite andb_true_iff, bool_decide_eq_true, IH. naive_solver.
Qed.

(** A path of plain components whose directories exist is its own canonical
    form. *)
Definition plain (c : rstr) : Prop := c <> DOT /\ c <> DOTDOT.

Lemma resolve_app links f cur a r :
  Forall plain a -> (forall n, (0 < n <= length a)%nat -> f !! (cur ++ take n a) = Some Dir) ->
  resolve links f cur (a ++ r) = resolve links f (cur ++ a) r.
Proof.
  revert cur. induction a as [|c a IH]; intros cur Hp Hd; [by rewrite app_nil_r|].
  apply Forall_cons in Hp as [[N1 N2] Hp].
  assert (H1 : f !! (cur ++ [c]) = Some Dir) by (apply (Hd 1%nat); simpl; lia).
  assert (H : resolve links f cur (c :: a ++ r) = resolve links f (cur ++ [c]) (a ++ r)).
  { destruct links; cbn [resolve];
      by rewrite (bool_decide_eq_false_2 _ N1), (bool_decide_eq_false_2 _ N2), H1. }
  rewrite <- app_comm_cons, H, IH, <- app_assoc; try done.
  intros n Hn. rewrite <- (app_assoc cur [c]). apply (Hd (S n)). simpl. lia.
Qed.

Lemma resolve_file links f cur c b :
  plain c -> f !! (cur ++ [c]) = Some (File b) -> resolve links f cur [c] = Some (cur ++ [c]).
Proof.
  intros [N1 N2] H. destruct links; cbn [resolve];
    by rewrite (bool_decide_eq_false_2 _ N1), (bool_decide_eq_false_2 _ N2), H.
Qed.

(** A canonical path: plain components, every directory on the way exists, and
    the end, when it exists, is not a link. *)
Definition real (f : fs) (p : path) : Prop :=
  Forall plain p
  /\ (forall n, (0 < n < length p)%nat -> f !! take n p = Some Dir)
  /\ (p <> [] -> exists n, f !! p = Some n /\ forall t, n <> Link t).

Lemma real_nil f : real f [].
Proof. split; [constructor|]. split; [simpl; lia|done]. Qed.

Lemma real_parent f p : real f p -> real f (parent p).
Proof.
  unfold parent. intros (Hp & Hd & _). destruct p as [|c p] using rev_ind; [apply real_nil|].
  rewrite removelast_last. rewrite length_app in Hd. simpl in Hd.
  apply Forall_app in Hp as [Hp _]. split; [done|]. split.
  - intros n Hn. specialize (Hd n). rewrite take_app_le in Hd by lia. apply Hd. lia.
  - intros N. exists Dir. split; [|done]. specialize (Hd (length p)). rewrite take_app_length in Hd.
    apply Hd. destruct p; [done|simpl; lia].
Qed.

Lemma real_snoc f p c n :
  real f p -> (p = [] \/ f !! p = Some Dir) -> plain c -> f !! (p ++ [c]) = Some n ->
  (forall t, n <> Link t) -> real f (p ++ [c]).
Proof.
  intros (Hp & Hd & _) D Hc Hn L. split; [apply Forall_app; auto|]. split; [|eauto].
  rewrite length_app. simpl. intros m Hm. destruct (decide (m = length p)) as [->|].
  - rewrite take_app_length. destruct D as [-> |]; [simpl in *; lia|done].
  - rewrite take_app_le by lia. apply Hd. lia.
Qed.

(** Resolution from a real directory ends at a real path. *)
Lemma resolve_real links f cur rest q :
  real f cur -> (cur = [] \/ f !! cur = Some Dir \/ rest = []) ->
  resolve links f cur rest = Some q -> real f q.
Proof.
  revert cur rest. induction links as [|l IHl]; intros cur rest; revert cur.
  all: induction rest as [|c r IH]; intros cur Hc D; cbn [resolve]; [by intros [= <-]|].
  all: destruct (bool_decide (c = DOT)) eqn:E1;
    [apply IH; [done|destruct D as [D|[D|D]]; [by left|by right; left|done]]|].
  all: destruct (bool_decide (c = DOTDOT)) eqn:E2.
  1,3: apply IH; [by apply real_parent|]; destruct (decide (parent cur = [])) as [?|N]; [by left|];
    right; left; destruct (real_parent _ _ Hc) as (_ & _ & X); destruct (X N) as (n & Hn & _);
    destruct Hc as (_ & Hd & _); unfold parent in *;
    destruct cur as [|x cur _] using rev_ind; [done|]; rewrite removelast_last in *;
    specialize (Hd (length cur)); rewrite take_app_length, length_app in Hd; apply Hd; simpl;
    destruct cur; [done|simpl; lia].
  all: boolify; assert (D' : cur = [] \/ f !! cur = Some Dir) by (destruct D as [D|[D|D]]; auto; done).
  all: destruct (f !! (cur ++ [c])) as [[b| |t]|] eqn:E; try done.
  - destruct (nonempty r); [done|]. intros [= <-]. by eapply real_snoc.
  - apply IH; [by eapply real_snoc|auto].
  - destruct (nonempty r); [done|]. intros [= <-]. by eapply real_snoc.
  - apply IH; [by eapply real_snoc|auto].
  - apply IHl; [apply real_nil|by left].
Qed.

Lemma canonicalize_real f p q : canonicalize f p = Some q -> real f q.
Proof. apply resolve_real; [apply real_nil|by left]. Qed.

(** A real path is its own canonical form. *)
Lemma real_canonicalize f q : real f q -> canonicalize f q = Some q.
Proof.
  intros (Hp & Hd & He). destruct q as [|c q _] using rev_ind; [done|].
  apply Forall_app in Hp as [Hp Hc]. rewrite Forall_singleton in Hc.
  destruct He as (n & Hn & L); [by destruct q|].
  assert (R : canonicalize f (q ++ [c]) = resolve MAX_LINKS f q [c]).
  { unfold canonicalize. rewrite (resolve_app MAX_LINKS f [] q [c]); [done|done|].
    intros m Hm. specialize (Hd m). rewrite length_app in Hd. simpl in Hd.
    rewrite take_app_le in Hd by lia. apply Hd. lia. }
  rewrite R. destruct Hc as [N1 N2]. unfold MAX_LINKS. cbn [resolve].
  rewrite (bool_decide_eq_false_2 _ N1), (bool_decide_eq_false_2 _ N2), Hn.
  destruct n as [b| |t]; [done|done|by destruct (L t)].
Qed.

Lemma canonicalize_idem f p q : canonicalize f p = Some q -> canonicalize f q = Some q.
Proof. intros H. by apply real_canonicalize, (canonicalize_real f p). Qed.

(** ** Files in an existing directory *)

Definition dir_ready (f : fs) (d : path) : Prop := real f d /\ node_at f d = Some Dir.

Lemma node_at_cons f p : p <> [] -> node_at f p = f !! p.
Proof. by destruct p. Qed.

Lemma dir_ready_snoc f d c : dir_ready f d -> plain c -> f !! (d ++ [c]) = Some Dir -> dir_ready f (d ++ [c]).
Proof.
  intros [R D] Hc E. split; [|by rewrite node_at_cons by (by destruct d)].
  eapply real_snoc; [done| |done|exact E|done].
  destruct d; [by left|by right].
Qed.

Lemma canonicalize_entry f d c :
  dir_ready f d -> plain c -> f !! (d ++ [c]) = None -> canonicalize f (d ++ [c]) = None.
Proof.
  intros [(Hp & Hd & _) D] [N1 N2] E. unfold canonicalize.
  rewrite (resolve_app MAX_LINKS f [] d [c]); [|done|].
  - unfold MAX_LINKS. cbn [resolve app].
    by rewrite (bool_decide_eq_false_2 _ N1), (bool_decide_eq_false_2 _ N2), E.
  - intros n Hn. simpl. destruct (decide (n = length d)) as [->|]; [|apply Hd; lia].
    rewrite take_ge by done. rewrite <- node_at_cons; [done|]. destruct d; [simpl in *; lia|done].
Qed.

Lemma entry_ready f d c : dir_ready f d -> entry_name f (d ++ [c]) = Some (d ++ [c]).
Proof.
  intros [R D]. unfold entry_name, parent.
  rewrite removelast_last, (real_canonicalize f d R), D, last_snoc. done.
Qed.

(** A directory depends on the entries on the way to it. *)
Lemma dir_ready_ext f f' d :
  (forall k, f' !! take k d = f !! take k d) -> dir_ready f d -> dir_ready f' d.
Proof.
  intros L [(Hp & Hd & He) D].
  assert (L' : f' !! d = f !! d) by (specialize (L (length d)); by rewrite take_ge in L by done).
  split; [split; [done|split]|].
  - intros k Hk. rewrite L. by apply Hd.
  - intros Nd. rewrite L'. by apply He.
  - destruct d as [|x d]; [done|]. simpl in *. by rewrite L'.
Qed.

Lemma take_not_longer {A} k (d e : list A) : e <> [] -> take k d <> d ++ e.
Proof.
  intros N H. apply (f_equal length) in H. rewrite length_take, length_app in H.
  destruct e; [done|]. simpl in H. lia.
Qed.

(** Entries of a directory do not matter to it. *)
Lemma dir_ready_file f d c n : dir_ready f d -> dir_ready (<[d ++ [c] := n]> f) d.
Proof.
  apply dir_ready_ext. intros k. apply lookup_insert_ne. intros H. symmetry in H.
  by apply take_not_longer in H.
Qed.

Lemma dir_ready_delete f d c : dir_ready f d -> dir_ready (delete (d ++ [c]) f) d.
Proof.
  apply dir_ready_ext. intros k. apply lookup_delete_ne. intros H. symmetry in H.
  by apply take_not_longer in H.
Qed.

Lemma dir_ready_mono f f' d :
  (forall p n, f !! p = Some n -> f' !! p = Some n) -> dir_ready f d -> dir_ready f' d.
Proof.
  intros K [(Hp & Hd & He) D]. split; [split; [done|split]|].
  - intros n Hn. by apply K, Hd.
  - intros N. destruct (He N) as (n & Hn & L). exists n. auto.
  - destruct d as [|x l]; [done|]. simpl in *. by apply K.
Qed.

Lemma dir_ready_up f d c : dir_ready f (d ++ [c]) -> dir_ready f d.
Proof.
  intros [R _]. assert (Rd : real f d).
  { apply real_parent in R. unfold parent in R. by rewrite removelast_last in R. }
  split; [done|]. destruct d as [|x l]; [done|]. simpl. destruct R as (_ & Hd & _).
  specialize (Hd (length (x :: l))). rewrite take_app_length, length_app in Hd. apply Hd. simpl. lia.
Qed.

Lemma read_ready f d c b :
  dir_ready f d -> plain c -> f !! (d ++ [c]) = Some (File b) -> canonicalize f (d ++ [c]) = Some (d ++ [c])
  /\ read f (d ++ [c]) = Some b.
Proof.
  intros [R D] Hc E.
  assert (C : canonicalize f (d ++ [c]) = Some (d ++ [c])).
  { apply real_canonicalize. eapply real_snoc; [done| |done|exact E|done].
    destruct d; [by left|by right]. }
  split; [done|]. unfold read. rewrite C, node_at_cons by (by destruct d). by rewrite E.
Qed.

Lemma write_ready f d c b :
  dir_ready f d -> (f !! (d ++ [c]) = None \/ exists b0, f !! (d ++ [c]) = Some (File b0)) ->
  write f (d ++ [c]) b = Some (<[d ++ [c] := File b]> f).
Proof.
  intros R H. unfold write. rewrite entry_ready by done. rewrite node_at_cons by (by destruct d).
  by destruct H as [-> |[b0 ->]].
Qed.

Lemma rename_ready f d a b c0 :
  dir_ready f d -> f !! (d ++ [a]) = Some (File c0) ->
  (f !! (d ++ [b]) = None \/ exists b0, f !! (d ++ [b]) = Some (File b0)) ->
  rename f (d ++ [a]) (d ++ [b]) = Some (<[d ++ [b] := File c0]> (delete (d ++ [a]) f)).
Proof.
  intros R E H. unfold rename. rewrite !entry_ready by done.
  rewrite !node_at_cons by (by destruct d). rewrite E. by destruct H as [-> |[b0 ->]].
Qed.

(** What is in the way of [create_dir_all]: nothing, or directories. *)
Definition open_way (f : fs) (cur rest : path) : Prop :=
  forall a b, rest = a ++ b -> a <> [] -> f !! (cur ++ a) = None \/ f !! (cur ++ a) = Some Dir.

Lemma create_dirs_ready f cur rest :
  dir_ready f cur -> Forall plain rest -> open_way f cur rest ->
  exists f', create_dirs f cur rest = Some f' /\ dir_ready f' (cur ++ rest)
    /\ (forall p, f' !! p = f !! p
        \/ f !! p = None /\ f' !! p = Some Dir /\ exists a b, rest = a ++ b /\ a <> [] /\ p = cur ++ a).
Proof.
  revert f cur. induction rest as [|c r IH]; intros f cur R Hp W; simpl.
  { exists f. rewrite app_nil_r. split; [done|]. split; [done|]. intros p. by left. }
  apply Forall_cons in Hp as [Hc Hp].
  assert (E : forall f1, dir_ready f1 (cur ++ [c]) ->
    open_way f1 (cur ++ [c]) r -> (forall p, f1 !! p = f !! p \/ f !! p = None /\ f1 !! p = Some Dir /\ p = cur ++ [c]) ->
    exists f', create_dirs f1 (cur ++ [c]) r = Some f' /\ dir_ready f' (cur ++ c :: r)
      /\ forall p, f' !! p = f !! p
         \/ f !! p = None /\ f' !! p = Some Dir /\ exists a b, c :: r = a ++ b /\ a <> [] /\ p = cur ++ a).
  { intros f1 R1 W1 S1. destruct (IH f1 (cur ++ [c]) R1 Hp W1) as (f' & E' & R' & S').
    exists f'. rewrite <- app_assoc in R'. split; [done|]. split; [done|]. intros p.
    destruct (S' p) as [Ep|(N1 & D1 & a & b & -> & Na & ->)].
    - rewrite Ep. destruct (S1 p) as [?|(? & ? & ->)]; [by left|right].
      split; [done|]. split; [done|]. by exists [c], r.
    - destruct (S1 ((cur ++ [c]) ++ a)) as [Ef|(_ & Ed & _)]; [|congruence].
      right. rewrite <- Ef. split; [done|]. split; [done|]. exists (c :: a), b.
      by rewrite <- app_assoc. }
  destruct (W [c] r eq_refl) as [Hn|Hn]; [done| |].
  - rewrite canonicalize_entry, Hn by done. apply E.
    + apply dir_ready_snoc; [by apply dir_ready_file|done|apply lookup_insert_eq].
    + intros a b -> Na. rewrite lookup_insert_ne.
      * rewrite <- app_assoc. by apply (W ([c] ++ a) b).
      * intros H. apply (f_equal length) in H. rewrite !length_app in H. destruct a; [done|simpl in H; lia].
    + intros p. destruct (decide (p = cur ++ [c])) as [->|Np].
      * right. by rewrite lookup_insert_eq.
      * left. by apply lookup_insert_ne.
  - rewrite (real_canonicalize f (cur ++ [c])) by (by apply dir_ready_snoc).
    rewrite node_at_cons, Hn by (by destruct cur). apply E.
    + by apply dir_ready_snoc.
    + intros a b -> Na. rewrite <- app_assoc. by apply (W ([c] ++ a) b).
    + intros p. by left.
Qed.

(** What is left of a file system without a directory. *)
Definition without (dir : path) (f : fs) : fs := filter (fun kv => path_prefix dir (fst kv) = false) f.

Lemma without_other dir f p : path_prefix dir p = false -> without dir f !! p = f !! p.
Proof.
  intros P. unfold without. apply option_eq. intros n. rewrite map_lookup_filter_Some. naive_solver.
Qed.

Lemma without_below dir f p : path_prefix dir p = true -> without dir f !! p = None.
Proof. intros P. apply map_lookup_filter_None. right. intros n _. simpl. congruence. Qed.

Lemma path_prefix_longer dir p : (length p < length dir)%nat -> path_prefix dir p = false.
Proof.
  intros L. destruct (path_prefix dir p) eqn:E; [|done]. apply path_prefix_iff in E as [r ->].
  rewrite length_app in L. lia.
Qed.

Lemma remove_dir_ready f d c :
  dir_ready f (d ++ [c]) -> remove_dir_all f (d ++ [c]) = Some (without (d ++ [c]) f).
Proof.
  intros R. unfold remove_dir_all. rewrite entry_ready by (by eapply dir_ready_up).
  destruct R as [_ D]. by rewrite D.
Qed.

(** ** Any path that can be written can be read *)

(** A file in place of a file or of nothing changes no resolution that succeeds. *)
Lemma resolve_keep links f k b cur rest q :
  (f !! k = None \/ exists b0, f !! k = Some (File b0)) ->
  resolve links f cur rest = Some q -> resolve links (<[k := File b]> f) cur rest = Some q.
Proof.
  intros Hk. revert cur rest. induction links as [|l IHl]; intros cur rest; revert cur.
  all: induction rest as [|c r IH]; intros cur; cbn [resolve]; [done|].
  all: destruct (bool_decide (c = DOT)); [apply IH|].
  all: destruct (bool_decide (c = DOTDOT)); [apply IH|].
  all: destruct (decide (cur ++ [c] = k)) as [<-|N];
    [rewrite lookup_insert_eq; by destruct Hk as [->|[b0 ->]]|rewrite lookup_insert_ne by done].
  all: destruct (f !! (cur ++ [c])) as [[b1| |t]|]; try done; solve [apply IH|apply IHl].
Qed.

Lemma resolve_then links f cur a d c b :
  resolve links f cur a = Some d -> node_at f d = Some Dir ->
  plain c -> f !! (d ++ [c]) = Some (File b) -> resolve links f cur (a ++ [c]) = Some (d ++ [c]).
Proof.
  intros H D P E. revert cur a H. induction links as [|l IHl]; intros cur a; revert cur.
  all: induction a as [|x r IH]; intros cur H.
  1,3: destruct P as [N1 N2]; cbn in H; injection H as ->; cbn [resolve app];
    by rewrite (bool_decide_eq_false_2 _ N1), (bool_decide_eq_false_2 _ N2), E.
  all: cbn [app resolve] in *.
  all: destruct (bool_decide (x = DOT)); [by apply IH|].
  all: destruct (bool_decide (x = DOTDOT)); [by apply IH|].
  all: destruct (f !! (cur ++ [x])) as [[b1| |t]|] eqn:Q; try done; try by apply IH.
  1,2: destruct r; [|done]; injection H as <-; rewrite node_at_cons, Q in D; [done|by destruct cur].
  rewrite app_assoc. by apply IHl.
Qed.

(** A file that was written holds what was written. *)
Lemma write_read f d c b f' :
  plain c -> write f (d ++ [c]) b = Some f' -> read f' (d ++ [c]) = Some b.
Proof.
  unfold write, entry_name, parent. rewrite removelast_last, last_snoc. intros P H.
  destruct (canonicalize f d) as [q|] eqn:C; [|done].
  destruct (node_at f q) as [[| |]|] eqn:Dq; try done.
  assert (K : f !! (q ++ [c]) = None \/ exists b0, f !! (q ++ [c]) = Some (File b0)).
  { rewrite node_at_cons in H by (by destruct q). destruct (f !! (q ++ [c])) as [[]|]; eauto; done. }
  assert (f' = <[q ++ [c] := File b]> f) as ->.
  { rewrite node_at_cons in H by (by destruct q). destruct K as [K|[b0 K]]; rewrite K in H; congruence. }
  unfold read, canonicalize in *. apply (resolve_keep _ _ (q ++ [c]) b) in C; [|exact K].
  rewrite (resolve_then _ _ _ _ q c b); [|exact C| |exact P|apply lookup_insert_eq].
  - rewrite node_at_cons by (by destruct q). by rewrite lookup_insert_eq.
  - destruct q as [|q0 q]; [done|]. cbn. rewrite lookup_insert_ne; [exact Dq|].
    intros Q. apply (f_equal length) in Q. simpl in Q. rewrite length_app in Q. simpl in Q. lia.
Qed.

(** ** Deciding the conditions on a concrete disk *)

Lemma dir_ready_intro f d :
  canonicalize f d = Some d -> node_at f d = Some Dir -> dir_ready f d.
Proof. intros C D. split; [by eapply canonicalize_real|done]. Qed.

Definition free_or_dir (f : fs) (p : path) : bool :=
  match f !! p with None | Some Dir => true | _ => false end.

Lemma open_way_two f cur x y :
  free_or_dir f (cur ++ [x]) = true -> free_or_dir f (cur ++ [x; y]) = true -> open_way f cur [x; y].
Proof.
  unfold free_or_dir. intros Hx Hy a b E N.
  destruct a as [|x1 [|x2 a]]; [done| |].
  - injection E as -> _. destruct (f !! (cur ++ [x1])) as [[]|] eqn:Q; auto.
    all: simpl in *; congruence.
  - injection E as -> -> E. symmetry in E. apply app_nil in E as [-> ->].
    destruct (f !! (cur ++ [x1; x2])) as [[]|] eqn:Q; auto.
    all: simpl in *; congruence.
Qed.
End Fs.
