(* ===== verification/Pairing.v ===== *)
(** * Pairing: the sessions in which a device is enrolled

    The PairingStore of backend/crates/device/src/service.rs: sessions by
    identifier, and two indexes over them, by the six-digit code and by the
    enrollment token.  The store is a value here; Device.v keeps it in the state
    of the server and runs the handlers on it. *)

From S2P Require Import Prelude Text.

Module Pairing.

(** ** device/src/models.rs *)

Record DeviceResponse := {
  dev_id : Z; dev_name : rstr; dev_type : rstr; dev_os : rstr; dev_os_version : rstr;
  dev_agent_version : rstr; dev_online : bool; dev_last_seen : option Z; dev_created : Z }.

Record CandidateDevice := {
  cand_name : rstr; cand_type : rstr; cand_os : rstr; cand_os_version : rstr;
  cand_agent_version : rstr; cand_fingerprint : option rstr; requested_at : Z }.

Record RedeemPairingResponse := {
  device : DeviceResponse; access_token : rstr; refresh_token : rstr }.

(** ** service.rs *)

Record PairingSession := {
  id : Z; user_id : Z; user_email : rstr; pairing_code : rstr; enrollment_token : rstr;
  expires_at : Z; status : rstr; failed_attempts : Z;
  candidate_device : option CandidateDevice; redeem_result : option RedeemPairingResponse }.

Definition set_status (v : rstr) (s : PairingSession) : PairingSession :=
  {| id := id s; user_id := user_id s; user_email := user_email s; pairing_code := pairing_code s;
     enrollment_token := enrollment_token s; expires_at := expires_at s; status := v;
     failed_attempts := failed_attempts s; candidate_device := candidate_device s;
     redeem_result := redeem_result s |}.

Definition set_candidate (v : CandidateDevice) (s : PairingSession) : PairingSession :=
  {| id := id s; user_id := user_id s; user_email := user_email s; pairing_code := pairing_code s;
     enrollment_token := enrollment_token s; expires_at := expires_at s; status := status s;
     failed_attempts := failed_attempts s; candidate_device := Some v;
     redeem_result := redeem_result s |}.

Definition set_result (v : RedeemPairingResponse) (s : PairingSession) : PairingSession :=
  {| id := id s; user_id := user_id s; user_email := user_email s; pairing_code := pairing_code s;
     enrollment_token := enrollment_token s; expires_at := expires_at s; status := status s;
     failed_attempts := failed_attempts s; candidate_device := candidate_device s;
     redeem_result := Some v |}.

Record PairingStore := {
  sessions : gmap Z PairingSession; code_to_id : gmap rstr Z; token_to_id : gmap rstr Z }.

Definition new : PairingStore := {| sessions := ∅; code_to_id := ∅; token_to_id := ∅ |}.

Definition insert (s : PairingSession) (st : PairingStore) : PairingStore :=
  {| sessions := <[id s := s]> (sessions st);
     code_to_id := <[pairing_code s := id s]> (code_to_id st);
     token_to_id := <[enrollment_token s := id s]> (token_to_id st) |}.

(** The identifier a key stands for, a code before a token. *)
Definition id_of_key (key : rstr) (st : PairingStore) : option Z :=
  match code_to_id st !! key with
  | Some i => Some i
  | None => token_to_id st !! key
  end.

Definition get_by_key (key : rstr) (st : PairingStore) : option PairingSession :=
  i ← id_of_key key st; sessions st !! i.

(** Writing through the reference of get_mut_by_key. *)
Definition update_by_key (key : rstr) (f : PairingSession -> PairingSession) (st : PairingStore)
  : PairingStore :=
  match id_of_key key st with
  | Some i => {| sessions := alter f i (sessions st); code_to_id := code_to_id st;
                 token_to_id := token_to_id st |}
  | None => st
  end.

Definition remove (i : Z) (st : PairingStore) : PairingStore :=
  match sessions st !! i with
  | Some s => {| sessions := delete i (sessions st);
                 code_to_id := delete (pairing_code s) (code_to_id st);
                 token_to_id := delete (enrollment_token s) (token_to_id st) |}
  | None => st
  end.

Definition remove_by_key (key : rstr) (st : PairingStore) : PairingStore :=
  match id_of_key key st with
  | Some i => remove i st
  | None => st
  end.

Definition expired_ids (now : Z) (st : PairingStore) : list Z :=
  map fst (List.filter (fun e => expires_at (snd e) <=? now) (map_to_list (sessions st))).

Definition cleanup_expired (now : Z) (st : PairingStore) : PairingStore :=
  fold_left (fun st i => remove i st) (expired_ids now st) st.

(** ** The indexes *)

Record wf (st : PairingStore) : Prop := {
  wf_id : forall i s, sessions st !! i = Some s -> id s = i;
  wf_code : forall c i, code_to_id st !! c = Some i -> exists s, sessions st !! i = Some s /\ pairing_code s = c;
  wf_token : forall t i, token_to_id st !! t = Some i -> exists s, sessions st !! i = Some s /\ enrollment_token s = t;
  wf_reached : forall i s, sessions st !! i = Some s -> token_to_id st !! enrollment_token s = Some i }.

(** Updates of a session that leave its identity alone. *)
Definition keeps_identity (f : PairingSession -> PairingSession) : Prop :=
  forall s, id (f s) = id s /\ pairing_code (f s) = pairing_code s /\ enrollment_token (f s) = enrollment_token s.

Lemma wf_new : wf new.
Proof. split; intros ? ? H; cbn in H; by rewrite lookup_empty in H. Qed.

Lemma wf_insert s st :
  wf st -> sessions st !! id s = None -> token_to_id st !! enrollment_token s = None -> wf (insert s st).
Proof.
  intros [I C T R] Fi Ft. split; cbn [sessions code_to_id token_to_id insert].
  - intros i x [[<- <-]|[_ H]]%lookup_insert_Some; [done|by apply I].
  - intros c i [[<- <-]|[_ H]]%lookup_insert_Some; [exists s; by rewrite lookup_insert_eq|].
    destruct (C c i H) as (x & Hx & E). exists x. split; [|done]. rewrite lookup_insert_ne; [done|congruence].
  - intros t i [[<- <-]|[_ H]]%lookup_insert_Some; [exists s; by rewrite lookup_insert_eq|].
    destruct (T t i H) as (x & Hx & E). exists x. split; [|done]. rewrite lookup_insert_ne; [done|congruence].
  - intros i x [[<- <-]|[N H]]%lookup_insert_Some; [by rewrite lookup_insert_eq|].
    rewrite lookup_insert_ne; [by apply R|]. intros E. apply R in H. congruence.
Qed.

Lemma wf_remove i st : wf st -> wf (remove i st).
Proof.
  intros W. unfold remove. destruct (sessions st !! i) as [s|] eqn:E; [|done]. destruct W as [I C T R].
  split; cbn [sessions code_to_id token_to_id].
  - intros j x [_ H]%lookup_delete_Some. by apply I.
  - intros c j [N H]%lookup_delete_Some. destruct (C c j H) as (x & Hx & Ex). exists x. split; [|done].
    rewrite lookup_delete_ne; [done|congruence].
  - intros t j [N H]%lookup_delete_Some. destruct (T t j H) as (x & Hx & Ex). exists x. split; [|done].
    rewrite lookup_delete_ne; [done|congruence].
  - intros j x [N H]%lookup_delete_Some. rewrite lookup_delete_ne; [by apply R|].
    intros Q. apply R in E, H. congruence.
Qed.

Lemma wf_update key f st : keeps_identity f -> wf st -> wf (update_by_key key f st).
Proof.
  intros K W. unfold update_by_key. destruct (id_of_key key st) as [i|]; [|done].
  assert (A : forall j x, alter f i (sessions st) !! j = Some x ->
    exists y, sessions st !! j = Some y /\ id x = id y /\ pairing_code x = pairing_code y
      /\ enrollment_token x = enrollment_token y).
  { intros j x [[<- (y & H & ->)]|[_ H]]%lookup_alter_Some; [|by exists x].
    exists y. destruct (K y) as (-> & -> & ->). done. }
  assert (B : forall j x, sessions st !! j = Some x -> exists y, alter f i (sessions st) !! j = Some y
    /\ pairing_code y = pairing_code x /\ enrollment_token y = enrollment_token x).
  { intros j x H. destruct (decide (i = j)) as [<-|N].
    - exists (f x). rewrite lookup_alter_eq, H. destruct (K x) as (_ & -> & ->). done.
    - exists x. by rewrite lookup_alter_ne. }
  destruct W as [I C T R]. split; cbn [sessions code_to_id token_to_id].
  - intros j x (y & H & -> & _)%A. by apply I.
  - intros c j H. destruct (C c j H) as (x & Hx & <-). destruct (B _ _ Hx) as (y & Hy & Ey & _). by exists y.
  - intros t j H. destruct (T t j H) as (x & Hx & <-). destruct (B _ _ Hx) as (y & Hy & _ & Ey). by exists y.
  - intros j x (y & H & _ & _ & ->)%A. by apply R.
Qed.

Lemma wf_fold_remove l st : wf st -> wf (fold_left (fun st i => remove i st) l st).
Proof. revert st. induction l as [|i l IH]; intros st W; simpl; [done|]. apply IH. by apply wf_remove. Qed.

Lemma wf_cleanup now st : wf st -> wf (cleanup_expired now st).
Proof. apply wf_fold_remove. Qed.

(** A key reaches a session that has it. *)
Lemma get_by_key_Some key st s :
  wf st -> get_by_key key st = Some s ->
  sessions st !! id s = Some s /\ (pairing_code s = key \/ enrollment_token s = key).
Proof.
  intros [I C T R]. unfold get_by_key, id_of_key. destruct (code_to_id st !! key) as [i|] eqn:E; simpl.
  - intros H. destruct (C key i E) as (x & Hx & Ex). rewrite (I i s H). split; [done|left]. congruence.
  - destruct (token_to_id st !! key) as [i|] eqn:E2; simpl; [|done]. intros H.
    destruct (T key i E2) as (x & Hx & Ex). rewrite (I i s H). split; [done|right]. congruence.
Qed.

Lemma update_by_key_eq key f st s :
  wf st -> get_by_key key st = Some s ->
  sessions (update_by_key key f st) = <[id s := f s]> (sessions st).
Proof.
  intros W H. unfold update_by_key. unfold get_by_key in H. destruct (id_of_key key st) as [i|]; [|done].
  simpl in H. rewrite (wf_id _ W _ _ H). cbn [sessions]. apply map_eq. intros j.
  destruct (decide (i = j)) as [<-|N]; [by rewrite lookup_alter_eq, lookup_insert_eq, H|].
  by rewrite lookup_alter_ne, lookup_insert_ne.
Qed.

Lemma remove_sessions i st : sessions (remove i st) = delete i (sessions st).
Proof.
  unfold remove. destruct (sessions st !! i) eqn:E; [done|]. symmetry. by apply delete_id.
Qed.

Lemma fold_remove_sessions l st i :
  sessions (fold_left (fun st i => remove i st) l st) !! i
  = if decide (i ∈ l) then None else sessions st !! i.
Proof.
  revert st. induction l as [|j l IH]; intros st; simpl.
  - destruct (decide (i ∈ [])) as [H|]; [by apply elem_of_nil in H|done].
  - rewrite IH, remove_sessions. destruct (decide (i ∈ l)) as [H|H], (decide (i ∈ j :: l)) as [G|G].
    + done.
    + destruct G. by right.
    + apply elem_of_cons in G as [->|G]; [by rewrite lookup_delete_eq|done].
    + apply not_elem_of_cons in G as [G _]. by rewrite lookup_delete_ne.
Qed.

(** the cleanup.  Exactly the sessions that have not expired are left, as
    they were, and the indexes lead to them. *)
Theorem cleanup_expired_spec now st :
  wf st ->
  wf (cleanup_expired now st)
  /\ forall i s, sessions (cleanup_expired now st) !! i = Some s
       <-> sessions st !! i = Some s /\ now < expires_at s.
Proof.
  intros W. split; [by apply wf_cleanup|]. intros i s. unfold cleanup_expired.
  rewrite fold_remove_sessions. assert (E : i ∈ expired_ids now st <-> exists x, sessions st !! i = Some x /\ expires_at x <= now).
  { unfold expired_ids. rewrite list_elem_of_fmap. split.
    - intros ([j x] & -> & H). apply list_elem_of_In, filter_In in H as [H L].
      apply list_elem_of_In, elem_of_map_to_list in H. exists x. split; [done|]. simpl in L. lia.
    - intros (x & H & L). exists (i, x). split; [done|]. apply list_elem_of_In, filter_In. split.
      + by apply list_elem_of_In, elem_of_map_to_list.
      + simpl. lia. }
  destruct (decide (i ∈ expired_ids now st)) as [H|H].
  - apply E in H as (x & Hx & L). split; [done|]. intros [Hs ?]. assert (x = s) by congruence. subst. lia.
  - split; [|tauto]. intros Hs. split; [done|]. destruct (decide (now < expires_at s)); [done|].
    destruct H. apply E. exists s. split; [done|lia].
Qed.
End Pairing.
