(* ===== verification/Schema.v ===== *)
(** * Schema: the tables of the database and their constraints

    One Module per table: its row as a Record with the columns of
    backend/migrations, and a setter for every column some UPDATE writes.
    [Server] is the state of the backend: the tables, the pairing sessions in
    memory and the disk.  [schema_ok]
    is what PostgreSQL checks when a statement ends: primary keys, UNIQUE, CHECK
    and REFERENCES constraints, VARCHAR lengths and integer ranges.  Timestamps
    are microseconds; a FLOAT is an IEEE number, NaN among them. *)

From Stdlib Require Import Floats.SpecFloat.
From S2P Require Import Prelude Text Fs Pairing.


#[global] Arguments lit _ : simpl never.
#[global] Arguments chr _ : simpl never.

(** users (auth/src/models.rs, migrations 01 and 08) *)
Module User.
Record row := {
  id : Z;
  email : rstr;
  display_name : rstr;
  password_hash : rstr;
  is_active : bool;
  created_at : Z;
  updated_at : Z;
  role : rstr;
  totp_secret : option rstr;
  totp_enabled : bool;
  totp_verified_at : option Z;
  storage_quota_bytes : Z
}.

Definition set_display_name (v : rstr) (r : row) : row :=
  {| id := id r; email := email r; display_name := v; password_hash := password_hash r; is_active
     := is_active r; created_at := created_at r; updated_at := updated_at r; role := role r;
     totp_secret := totp_secret r; totp_enabled := totp_enabled r; totp_verified_at :=
     totp_verified_at r; storage_quota_bytes := storage_quota_bytes r |}.

Definition set_password_hash (v : rstr) (r : row) : row :=
  {| id := id r; email := email r; display_name := display_name r; password_hash := v; is_active
     := is_active r; created_at := created_at r; updated_at := updated_at r; role := role r;
     totp_secret := totp_secret r; totp_enabled := totp_enabled r; totp_verified_at :=
     totp_verified_at r; storage_quota_bytes := storage_quota_bytes r |}.

Definition set_updated_at (v : Z) (r : row) : row :=
  {| id := id r; email := email r; display_name := display_name r; password_hash := password_hash
     r; is_active := is_active r; created_at := created_at r; updated_at := v; role := role r;
     totp_secret := totp_secret r; totp_enabled := totp_enabled r; totp_verified_at :=
     totp_verified_at r; storage_quota_bytes := storage_quota_bytes r |}.

Definition set_role (v : rstr) (r : row) : row :=
  {| id := id r; email := email r; display_name := display_name r; password_hash := password_hash
     r; is_active := is_active r; created_at := created_at r; updated_at := updated_at r; role :=
     v; totp_secret := totp_secret r; totp_enabled := totp_enabled r; totp_verified_at :=
     totp_verified_at r; storage_quota_bytes := storage_quota_bytes r |}.

Definition set_totp_secret (v : option rstr) (r : row) : row :=
  {| id := id r; email := email r; display_name := display_name r; password_hash := password_hash
     r; is_active := is_active r; created_at := created_at r; updated_at := updated_at r; role :=
     role r; totp_secret := v; totp_enabled := totp_enabled r; totp_verified_at :=
     totp_verified_at r; storage_quota_bytes := storage_quota_bytes r |}.

Definition set_totp_enabled (v : bool) (r : row) : row :=
  {| id := id r; email := email r; display_name := display_name r; password_hash := password_hash
     r; is_active := is_active r; created_at := created_at r; updated_at := updated_at r; role :=
     role r; totp_secret := totp_secret r; totp_enabled := v; totp_verified_at :=
     totp_verified_at r; storage_quota_bytes := storage_quota_bytes r |}.

Definition set_totp_verified_at (v : option Z) (r : row) : row :=
  {| id := id r; email := email r; display_name := display_name r; password_hash := password_hash
     r; is_active := is_active r; created_at := created_at r; updated_at := updated_at r; role :=
     role r; totp_secret := totp_secret r; totp_enabled := totp_enabled r; totp_verified_at := v;
     storage_quota_bytes := storage_quota_bytes r |}.

Definition set_storage_quota_bytes (v : Z) (r : row) : row :=
  {| id := id r; email := email r; display_name := display_name r; password_hash := password_hash
     r; is_active := is_active r; created_at := created_at r; updated_at := updated_at r; role :=
     role r; totp_secret := totp_secret r; totp_enabled := totp_enabled r; totp_verified_at :=
     totp_verified_at r; storage_quota_bytes := v |}.

End User.

(** refresh_tokens (auth/src/models.rs) *)
Module RefreshToken.
Record row := {
  id : Z;
  user_id : Z;
  token_hash : rstr;
  expires_at : Z;
  revoked : bool;
  created_at : Z
}.

Definition set_revoked (v : bool) (r : row) : row :=
  {| id := id r; user_id := user_id r; token_hash := token_hash r; expires_at := expires_at r;
     revoked := v; created_at := created_at r |}.

End RefreshToken.

(** audit_log (migration 04; ip_address and user_agent are never written by the code modelled) *)
Module AuditLog.
Record row := {
  id : Z;
  user_id : option Z;
  action : rstr;
  details : rstr;
  created_at : Z
}.

End AuditLog.

(** recovery_keys (migration 12) *)
Module RecoveryKey.
Record row := {
  id : rstr;
  user_id : Z;
  recovery_hash : rstr;
  hint : option rstr;
  is_used : bool;
  created_at : Z
}.

Definition set_is_used (v : bool) (r : row) : row :=
  {| id := id r; user_id := user_id r; recovery_hash := recovery_hash r; hint := hint r; is_used
     := v; created_at := created_at r |}.

End RecoveryKey.

(** file_entries (file_metadata/src/models.rs, migration 05) *)
Module FileEntry.
Record row := {
  id : Z;
  user_id : Z;
  parent_id : option Z;
  name : rstr;
  entry_type : rstr;
  mime_type : option rstr;
  size_bytes : Z;
  sha256_hash : option rstr;
  storage_path : option rstr;
  is_trashed : bool;
  trashed_at : option Z;
  created_at : Z;
  updated_at : Z
}.

Definition set_parent_id (v : option Z) (r : row) : row :=
  {| id := id r; user_id := user_id r; parent_id := v; name := name r; entry_type := entry_type
     r; mime_type := mime_type r; size_bytes := size_bytes r; sha256_hash := sha256_hash r;
     storage_path := storage_path r; is_trashed := is_trashed r; trashed_at := trashed_at r;
     created_at := created_at r; updated_at := updated_at r |}.

Definition set_name (v : rstr) (r : row) : row :=
  {| id := id r; user_id := user_id r; parent_id := parent_id r; name := v; entry_type :=
     entry_type r; mime_type := mime_type r; size_bytes := size_bytes r; sha256_hash :=
     sha256_hash r; storage_path := storage_path r; is_trashed := is_trashed r; trashed_at :=
     trashed_at r; created_at := created_at r; updated_at := updated_at r |}.

Definition set_mime_type (v : option rstr) (r : row) : row :=
  {| id := id r; user_id := user_id r; parent_id := parent_id r; name := name r; entry_type :=
     entry_type r; mime_type := v; size_bytes := size_bytes r; sha256_hash := sha256_hash r;
     storage_path := storage_path r; is_trashed := is_trashed r; trashed_at := trashed_at r;
     created_at := created_at r; updated_at := updated_at r |}.

Definition set_size_bytes (v : Z) (r : row) : row :=
  {| id := id r; user_id := user_id r; parent_id := parent_id r; name := name r; entry_type :=
     entry_type r; mime_type := mime_type r; size_bytes := v; sha256_hash := sha256_hash r;
     storage_path := storage_path r; is_trashed := is_trashed r; trashed_at := trashed_at r;
     created_at := created_at r; updated_at := updated_at r |}.

Definition set_sha256_hash (v : option rstr) (r : row) : row :=
  {| id := id r; user_id := user_id r; parent_id := parent_id r; name := name r; entry_type :=
     entry_type r; mime_type := mime_type r; size_bytes := size_bytes r; sha256_hash := v;
     storage_path := storage_path r; is_trashed := is_trashed r; trashed_at := trashed_at r;
     created_at := created_at r; updated_at := updated_at r |}.

Definition set_storage_path (v : option rstr) (r : row) : row :=
  {| id := id r; user_id := user_id r; parent_id := parent_id r; name := name r; entry_type :=
     entry_type r; mime_type := mime_type r; size_bytes := size_bytes r; sha256_hash :=
     sha256_hash r; storage_path := v; is_trashed := is_trashed r; trashed_at := trashed_at r;
     created_at := created_at r; updated_at := updated_at r |}.

Definition set_is_trashed (v : bool) (r : row) : row :=
  {| id := id r; user_id := user_id r; parent_id := parent_id r; name := name r; entry_type :=
     entry_type r; mime_type := mime_type r; size_bytes := size_bytes r; sha256_hash :=
     sha256_hash r; storage_path := storage_path r; is_trashed := v; trashed_at := trashed_at r;
     created_at := created_at r; updated_at := updated_at r |}.

Definition set_trashed_at (v : option Z) (r : row) : row :=
  {| id := id r; user_id := user_id r; parent_id := parent_id r; name := name r; entry_type :=
     entry_type r; mime_type := mime_type r; size_bytes := size_bytes r; sha256_hash :=
     sha256_hash r; storage_path := storage_path r; is_trashed := is_trashed r; trashed_at := v;
     created_at := created_at r; updated_at := updated_at r |}.

Definition set_updated_at (v : Z) (r : row) : row :=
  {| id := id r; user_id := user_id r; parent_id := parent_id r; name := name r; entry_type :=
     entry_type r; mime_type := mime_type r; size_bytes := size_bytes r; sha256_hash :=
     sha256_hash r; storage_path := storage_path r; is_trashed := is_trashed r; trashed_at :=
     trashed_at r; created_at := created_at r; updated_at := v |}.

End FileEntry.

(** file_versions (file_metadata/src/versioning.rs, migration 08) *)
Module FileVersion.
Record row := {
  id : Z;
  file_entry_id : Z;
  version_number : Z;
  size_bytes : Z;
  sha256_hash : option rstr;
  storage_path : rstr;
  created_by : Z;
  created_at : Z
}.

End FileVersion.

(** share_links (sharing/src/models.rs, migrations 06 and 11) *)
Module ShareLink.
Record row := {
  id : Z;
  user_id : Z;
  file_entry_id : Z;
  token : rstr;
  permission : rstr;
  password_hash : option rstr;
  expires_at : option Z;
  max_downloads : option Z;
  download_count : Z;
  is_active : bool;
  created_at : Z;
  updated_at : Z
}.

Definition set_permission (v : rstr) (r : row) : row :=
  {| id := id r; user_id := user_id r; file_entry_id := file_entry_id r; token := token r;
     permission := v; password_hash := password_hash r; expires_at := expires_at r; max_downloads
     := max_downloads r; download_count := download_count r; is_active := is_active r; created_at
     := created_at r; updated_at := updated_at r |}.

Definition set_password_hash (v : option rstr) (r : row) : row :=
  {| id := id r; user_id := user_id r; file_entry_id := file_entry_id r; token := token r;
     permission := permission r; password_hash := v; expires_at := expires_at r; max_downloads :=
     max_downloads r; download_count := download_count r; is_active := is_active r; created_at :=
     created_at r; updated_at := updated_at r |}.

Definition set_expires_at (v : option Z) (r : row) : row :=
  {| id := id r; user_id := user_id r; file_entry_id := file_entry_id r; token := token r;
     permission := permission r; password_hash := password_hash r; expires_at := v; max_downloads
     := max_downloads r; download_count := download_count r; is_active := is_active r; created_at
     := created_at r; updated_at := updated_at r |}.

Definition set_max_downloads (v : option Z) (r : row) : row :=
  {| id := id r; user_id := user_id r; file_entry_id := file_entry_id r; token := token r;
     permission := permission r; password_hash := password_hash r; expires_at := expires_at r;
     max_downloads := v; download_count := download_count r; is_active := is_active r; created_at
     := created_at r; updated_at := updated_at r |}.

Definition set_download_count (v : Z) (r : row) : row :=
  {| id := id r; user_id := user_id r; file_entry_id := file_entry_id r; token := token r;
     permission := permission r; password_hash := password_hash r; expires_at := expires_at r;
     max_downloads := max_downloads r; download_count := v; is_active := is_active r; created_at
     := created_at r; updated_at := updated_at r |}.

Definition set_is_active (v : bool) (r : row) : row :=
  {| id := id r; user_id := user_id r; file_entry_id := file_entry_id r; token := token r;
     permission := permission r; password_hash := password_hash r; expires_at := expires_at r;
     max_downloads := max_downloads r; download_count := download_count r; is_active := v;
     created_at := created_at r; updated_at := updated_at r |}.

Definition set_updated_at (v : Z) (r : row) : row :=
  {| id := id r; user_id := user_id r; file_entry_id := file_entry_id r; token := token r;
     permission := permission r; password_hash := password_hash r; expires_at := expires_at r;
     max_downloads := max_downloads r; download_count := download_count r; is_active := is_active
     r; created_at := created_at r; updated_at := v |}.

End ShareLink.

(** devices (device/src/models.rs, migration 03) *)
Module Device.
Record row := {
  id : Z;
  user_id : Z;
  name : rstr;
  device_type : rstr;
  os : rstr;
  os_version : rstr;
  agent_version : rstr;
  is_online : bool;
  last_seen_at : option Z;
  created_at : Z;
  updated_at : Z
}.

Definition set_name (v : rstr) (r : row) : row :=
  {| id := id r; user_id := user_id r; name := v; device_type := device_type r; os := os r;
     os_version := os_version r; agent_version := agent_version r; is_online := is_online r;
     last_seen_at := last_seen_at r; created_at := created_at r; updated_at := updated_at r |}.

Definition set_is_online (v : bool) (r : row) : row :=
  {| id := id r; user_id := user_id r; name := name r; device_type := device_type r; os := os r;
     os_version := os_version r; agent_version := agent_version r; is_online := v; last_seen_at
     := last_seen_at r; created_at := created_at r; updated_at := updated_at r |}.

Definition set_last_seen_at (v : option Z) (r : row) : row :=
  {| id := id r; user_id := user_id r; name := name r; device_type := device_type r; os := os r;
     os_version := os_version r; agent_version := agent_version r; is_online := is_online r;
     last_seen_at := v; created_at := created_at r; updated_at := updated_at r |}.

Definition set_updated_at (v : Z) (r : row) : row :=
  {| id := id r; user_id := user_id r; name := name r; device_type := device_type r; os := os r;
     os_version := os_version r; agent_version := agent_version r; is_online := is_online r;
     last_seen_at := last_seen_at r; created_at := created_at r; updated_at := v |}.

Definition set_os_version (v : rstr) (r : row) : row :=
  {| id := id r; user_id := user_id r; name := name r; device_type := device_type r; os := os r;
     os_version := v; agent_version := agent_version r; is_online := is_online r; last_seen_at :=
     last_seen_at r; created_at := created_at r; updated_at := updated_at r |}.

Definition set_agent_version (v : rstr) (r : row) : row :=
  {| id := id r; user_id := user_id r; name := name r; device_type := device_type r; os := os r;
     os_version := os_version r; agent_version := v; is_online := is_online r; last_seen_at :=
     last_seen_at r; created_at := created_at r; updated_at := updated_at r |}.

End Device.

(** sync_states (sync_engine/src/models.rs, migration 07) *)
Module SyncState.
Record row := {
  id : Z;
  user_id : Z;
  device_id : Z;
  file_entry_id : Z;
  version : Z;
  status : rstr;
  last_synced_at : option Z;
  created_at : Z;
  updated_at : Z
}.

Definition set_status (v : rstr) (r : row) : row :=
  {| id := id r; user_id := user_id r; device_id := device_id r; file_entry_id := file_entry_id
     r; version := version r; status := v; last_synced_at := last_synced_at r; created_at :=
     created_at r; updated_at := updated_at r |}.

Definition set_updated_at (v : Z) (r : row) : row :=
  {| id := id r; user_id := user_id r; device_id := device_id r; file_entry_id := file_entry_id
     r; version := version r; status := status r; last_synced_at := last_synced_at r; created_at
     := created_at r; updated_at := v |}.

End SyncState.

(** sync_folders (sync_engine/src/models.rs, migration 07) *)
Module SyncFolder.
Record row := {
  id : Z;
  user_id : Z;
  device_id : Z;
  local_path : rstr;
  remote_folder_id : option Z;
  is_active : bool;
  created_at : Z
}.

Definition set_remote_folder_id (v : option Z) (r : row) : row :=
  {| id := id r; user_id := user_id r; device_id := device_id r; local_path := local_path r;
     remote_folder_id := v; is_active := is_active r; created_at := created_at r |}.

End SyncFolder.

(** family_clouds (user/src/family.rs, migration 12) *)
Module FamilyCloud.
Record row := {
  id : rstr;
  name : rstr;
  owner_id : Z;
  cloud_type : rstr;
  created_at : Z
}.

End FamilyCloud.

(** family_members (user/src/family.rs, migration 12) *)
Module FamilyMember.
Record row := {
  id : rstr;
  cloud_id : rstr;
  user_id : Z;
  role : rstr;
  storage_quota_bytes : Z;
  used_bytes : Z;
  invite_code : option rstr;
  joined_at : Z
}.

Definition set_role (v : rstr) (r : row) : row :=
  {| id := id r; cloud_id := cloud_id r; user_id := user_id r; role := v; storage_quota_bytes :=
     storage_quota_bytes r; used_bytes := used_bytes r; invite_code := invite_code r; joined_at
     := joined_at r |}.

Definition set_storage_quota_bytes (v : Z) (r : row) : row :=
  {| id := id r; cloud_id := cloud_id r; user_id := user_id r; role := role r;
     storage_quota_bytes := v; used_bytes := used_bytes r; invite_code := invite_code r;
     joined_at := joined_at r |}.

End FamilyMember.

(** storage_policies (file_metadata/src/policy.rs, migration 12) *)
Module StoragePolicy.
Record row := {
  id : rstr;
  user_id : Z;
  category : rstr;
  mime_patterns : rstr;
  target_storage_type : rstr;
  target_node_id : option rstr;
  replica_count : Z;
  availability_tier : rstr;
  priority : Z;
  created_at : Z;
  updated_at : Z
}.

End StoragePolicy.

(** backups (backup/src/service.rs, migration 07) *)
Module Backup.
Record row := {
  id : Z;
  user_id : Z;
  name : rstr;
  status : rstr;
  size_bytes : Z;
  file_count : Z;
  storage_path : rstr;
  created_at : Z;
  completed_at : option Z
}.

Definition set_status (v : rstr) (r : row) : row :=
  {| id := id r; user_id := user_id r; name := name r; status := v; size_bytes := size_bytes r;
     file_count := file_count r; storage_path := storage_path r; created_at := created_at r;
     completed_at := completed_at r |}.

End Backup.

(** backup_schedules (backup/src/service.rs, migration 07) *)
Module BackupSchedule.
Record row := {
  id : Z;
  user_id : Z;
  name : rstr;
  cron_expression : rstr;
  is_active : bool;
  last_run_at : option Z;
  created_at : Z
}.

End BackupSchedule.

(** transcode_jobs (streaming/src/service.rs, migration 10) *)
Module TranscodeJob.
Record row := {
  id : Z;
  file_id : Z;
  user_id : Z;
  profile : rstr;
  status : rstr;
  input_path : rstr;
  output_dir : rstr;
  master_playlist : option rstr;
  error_message : option rstr;
  created_at : Z;
  completed_at : option Z
}.

Definition set_status (v : rstr) (r : row) : row :=
  {| id := id r; file_id := file_id r; user_id := user_id r; profile := profile r; status := v;
     input_path := input_path r; output_dir := output_dir r; master_playlist := master_playlist
     r; error_message := error_message r; created_at := created_at r; completed_at :=
     completed_at r |}.

Definition set_master_playlist (v : option rstr) (r : row) : row :=
  {| id := id r; file_id := file_id r; user_id := user_id r; profile := profile r; status :=
     status r; input_path := input_path r; output_dir := output_dir r; master_playlist := v;
     error_message := error_message r; created_at := created_at r; completed_at := completed_at r |}.

Definition set_error_message (v : option rstr) (r : row) : row :=
  {| id := id r; file_id := file_id r; user_id := user_id r; profile := profile r; status :=
     status r; input_path := input_path r; output_dir := output_dir r; master_playlist :=
     master_playlist r; error_message := v; created_at := created_at r; completed_at :=
     completed_at r |}.

Definition set_completed_at (v : option Z) (r : row) : row :=
  {| id := id r; file_id := file_id r; user_id := user_id r; profile := profile r; status :=
     status r; input_path := input_path r; output_dir := output_dir r; master_playlist :=
     master_playlist r; error_message := error_message r; created_at := created_at r;
     completed_at := v |}.

End TranscodeJob.

(** playback_progress (streaming/src/handlers.rs, migration 11) *)
Module PlaybackProgress.
Record row := {
  user_id : Z;
  file_entry_id : Z;
  position_secs : spec_float;
  duration_secs : spec_float;
  completed : bool;
  updated_at : Z
}.

Definition set_position_secs (v : spec_float) (r : row) : row :=
  {| user_id := user_id r; file_entry_id := file_entry_id r; position_secs := v; duration_secs :=
     duration_secs r; completed := completed r; updated_at := updated_at r |}.

Definition set_duration_secs (v : spec_float) (r : row) : row :=
  {| user_id := user_id r; file_entry_id := file_entry_id r; position_secs := position_secs r;
     duration_secs := v; completed := completed r; updated_at := updated_at r |}.

Definition set_completed (v : bool) (r : row) : row :=
  {| user_id := user_id r; file_entry_id := file_entry_id r; position_secs := position_secs r;
     duration_secs := duration_secs r; completed := v; updated_at := updated_at r |}.

Definition set_updated_at (v : Z) (r : row) : row :=
  {| user_id := user_id r; file_entry_id := file_entry_id r; position_secs := position_secs r;
     duration_secs := duration_secs r; completed := completed r; updated_at := v |}.

End PlaybackProgress.

(** notifications (notification/src/handlers.rs, migration 07) *)
Module Notification.
Record row := {
  id : Z;
  user_id : Z;
  title : rstr;
  body : rstr;
  is_read : bool;
  created_at : Z
}.

Definition set_is_read (v : bool) (r : row) : row :=
  {| id := id r; user_id := user_id r; title := title r; body := body r; is_read := v; created_at
     := created_at r |}.

End Notification.

(** push_subscriptions (notification/src/web_push.rs, migration 09) *)
Module PushSubscription.
Record row := {
  id : Z;
  user_id : Z;
  endpoint : rstr;
  p256dh_key : rstr;
  auth_key : rstr;
  user_agent : option rstr;
  created_at : Z
}.

Definition set_p256dh_key (v : rstr) (r : row) : row :=
  {| id := id r; user_id := user_id r; endpoint := endpoint r; p256dh_key := v; auth_key :=
     auth_key r; user_agent := user_agent r; created_at := created_at r |}.

Definition set_auth_key (v : rstr) (r : row) : row :=
  {| id := id r; user_id := user_id r; endpoint := endpoint r; p256dh_key := p256dh_key r;
     auth_key := v; user_agent := user_agent r; created_at := created_at r |}.

Definition set_user_agent (v : option rstr) (r : row) : row :=
  {| id := id r; user_id := user_id r; endpoint := endpoint r; p256dh_key := p256dh_key r;
     auth_key := auth_key r; user_agent := v; created_at := created_at r |}.

End PushSubscription.

(** file_replicas (gateway/src/cluster.rs, migration 12) *)
Module FileReplica.
Record row := {
  id : rstr;
  file_id : Z;
  storage_node_id : rstr;
  device_id : Z;
  status : rstr;
  checksum : rstr;
  verified_at : Z;
  created_at : Z
}.

End FileReplica.

(** cluster_protection (gateway/src/cluster.rs, migration 12) *)
Module ClusterProtection.
Record row := {
  user_id : Z;
  protection_mode : rstr;
  rpo_target_minutes : Z;
  rto_target_minutes : Z;
  auto_rebalance : bool;
  last_health_check : option Z;
  health_status : rstr;
  updated_at : Z
}.

Definition set_protection_mode (v : rstr) (r : row) : row :=
  {| user_id := user_id r; protection_mode := v; rpo_target_minutes := rpo_target_minutes r;
     rto_target_minutes := rto_target_minutes r; auto_rebalance := auto_rebalance r;
     last_health_check := last_health_check r; health_status := health_status r; updated_at :=
     updated_at r |}.

Definition set_rpo_target_minutes (v : Z) (r : row) : row :=
  {| user_id := user_id r; protection_mode := protection_mode r; rpo_target_minutes := v;
     rto_target_minutes := rto_target_minutes r; auto_rebalance := auto_rebalance r;
     last_health_check := last_health_check r; health_status := health_status r; updated_at :=
     updated_at r |}.

Definition set_rto_target_minutes (v : Z) (r : row) : row :=
  {| user_id := user_id r; protection_mode := protection_mode r; rpo_target_minutes :=
     rpo_target_minutes r; rto_target_minutes := v; auto_rebalance := auto_rebalance r;
     last_health_check := last_health_check r; health_status := health_status r; updated_at :=
     updated_at r |}.

Definition set_last_health_check (v : option Z) (r : row) : row :=
  {| user_id := user_id r; protection_mode := protection_mode r; rpo_target_minutes :=
     rpo_target_minutes r; rto_target_minutes := rto_target_minutes r; auto_rebalance :=
     auto_rebalance r; last_health_check := v; health_status := health_status r; updated_at :=
     updated_at r |}.

Definition set_health_status (v : rstr) (r : row) : row :=
  {| user_id := user_id r; protection_mode := protection_mode r; rpo_target_minutes :=
     rpo_target_minutes r; rto_target_minutes := rto_target_minutes r; auto_rebalance :=
     auto_rebalance r; last_health_check := last_health_check r; health_status := v; updated_at
     := updated_at r |}.

Definition set_updated_at (v : Z) (r : row) : row :=
  {| user_id := user_id r; protection_mode := protection_mode r; rpo_target_minutes :=
     rpo_target_minutes r; rto_target_minutes := rto_target_minutes r; auto_rebalance :=
     auto_rebalance r; last_health_check := last_health_check r; health_status := health_status
     r; updated_at := v |}.

End ClusterProtection.

(** jobs (migration 07; worker/src/handlers.rs reads it, no statement of the code writes it) *)
Module Job.
Record row := {
  id : Z;
  user_id : option Z;
  job_type : rstr;
  status : rstr;
  details : rstr;
  result : option rstr;
  created_at : Z;
  started_at : option Z;
  completed_at : option Z
}.

End Job.

(** file_tags (migration 07; no statement of the code reads or writes it) *)
Module FileTag.
Record row := {
  id : Z;
  file_entry_id : Z;
  tag : rstr;
  source : rstr;
  created_at : Z
}.

End FileTag.

(** text_extractions (migration 09; no statement of the code reads or writes it) *)
Module TextExtraction.
Record row := {
  id : Z;
  file_id : Z;
  extracted_text : rstr;
  method : rstr;
  confidence : spec_float;
  page_count : option Z;
  created_at : Z
}.

End TextExtraction.

(** ** The state of the backend *)

Record Server := {
  users : list User.row;
  refresh_tokens : list RefreshToken.row;
  audit_log : list AuditLog.row;
  recovery_keys : list RecoveryKey.row;
  file_entries : list FileEntry.row;
  file_versions : list FileVersion.row;
  share_links : list ShareLink.row;
  devices : list Device.row;
  sync_states : list SyncState.row;
  sync_folders : list SyncFolder.row;
  family_clouds : list FamilyCloud.row;
  family_members : list FamilyMember.row;
  storage_policies : list StoragePolicy.row;
  backups : list Backup.row;
  backup_schedules : list BackupSchedule.row;
  transcode_jobs : list TranscodeJob.row;
  playback_progress : list PlaybackProgress.row;
  notifications : list Notification.row;
  push_subscriptions : list PushSubscription.row;
  file_replicas : list FileReplica.row;
  cluster_protection : list ClusterProtection.row;
  jobs : list Job.row;
  file_tags : list FileTag.row;
  text_extractions : list TextExtraction.row;
  pairings : Pairing.PairingStore;
  disk : Fs.fs
}.

Definition set_users (v : list User.row) (s : Server) : Server :=
  {| users := v; refresh_tokens := refresh_tokens s; audit_log := audit_log s; recovery_keys :=
     recovery_keys s; file_entries := file_entries s; file_versions := file_versions s;
     share_links := share_links s; devices := devices s; sync_states := sync_states s;
     sync_folders := sync_folders s; family_clouds := family_clouds s; family_members :=
     family_members s; storage_policies := storage_policies s; backups := backups s;
     backup_schedules := backup_schedules s; transcode_jobs := transcode_jobs s;
     playback_progress := playback_progress s; notifications := notifications s;
     push_subscriptions := push_subscriptions s; file_replicas := file_replicas s;
     cluster_protection := cluster_protection s; jobs := jobs s; file_tags := file_tags s;
     text_extractions := text_extractions s; pairings := pairings s; disk := disk s |}.

Definition set_refresh_tokens (v : list RefreshToken.row) (s : Server) : Server :=
  {| users := users s; refresh_tokens := v; audit_log := audit_log s; recovery_keys :=
     recovery_keys s; file_entries := file_entries s; file_versions := file_versions s;
     share_links := share_links s; devices := devices s; sync_states := sync_states s;
     sync_folders := sync_folders s; family_clouds := family_clouds s; family_members :=
     family_members s; storage_policies := storage_policies s; backups := backups s;
     backup_schedules := backup_schedules s; transcode_jobs := transcode_jobs s;
     playback_progress := playback_progress s; notifications := notifications s;
     push_subscriptions := push_subscriptions s; file_replicas := file_replicas s;
     cluster_protection := cluster_protection s; jobs := jobs s; file_tags := file_tags s;
     text_extractions := text_extractions s; pairings := pairings s; disk := disk s |}.

Definition set_audit_log (v : list AuditLog.row) (s : Server) : Server :=
  {| users := users s; refresh_tokens := refresh_tokens s; audit_log := v; recovery_keys :=
     recovery_keys s; file_entries := file_entries s; file_versions := file_versions s;
     share_links := share_links s; devices := devices s; sync_states := sync_states s;
     sync_folders := sync_folders s; family_clouds := family_clouds s; family_members :=
     family_members s; storage_policies := storage_policies s; backups := backups s;
     backup_schedules := backup_schedules s; transcode_jobs := transcode_jobs s;
     playback_progress := playback_progress s; notifications := notifications s;
     push_subscriptions := push_subscriptions s; file_replicas := file_replicas s;
     cluster_protection := cluster_protection s; jobs := jobs s; file_tags := file_tags s;
     text_extractions := text_extractions s; pairings := pairings s; disk := disk s |}.

Definition set_recovery_keys (v : list RecoveryKey.row) (s : Server) : Server :=
  {| users := users s; refresh_tokens := refresh_tokens s; audit_log := audit_log s;
     recovery_keys := v; file_entries := file_entries s; file_versions := file_versions s;
     share_links := share_links s; devices := devices s; sync_states := sync_states s;
     sync_folders := sync_folders s; family_clouds := family_clouds s; family_members :=
     family_members s; storage_policies := storage_policies s; backups := backups s;
     backup_schedules := backup_schedules s; transcode_jobs := transcode_jobs s;
     playback_progress := playback_progress s; notifications := notifications s;
     push_subscriptions := push_subscriptions s; file_replicas := file_replicas s;
     cluster_protection := cluster_protection s; jobs := jobs s; file_tags := file_tags s;
     text_extractions := text_extractions s; pairings := pairings s; disk := disk s |}.

Definition set_file_entries (v : list FileEntry.row) (s : Server) : Server :=
  {| users := users s; refresh_tokens := refresh_tokens s; audit_log := audit_log s;
     recovery_keys := recovery_keys s; file_entries := v; file_versions := file_versions s;
     share_links := share_links s; devices := devices s; sync_states := sync_states s;
     sync_folders := sync_folders s; family_clouds := family_clouds s; family_members :=
     family_members s; storage_policies := storage_policies s; backups := backups s;
     backup_schedules := backup_schedules s; transcode_jobs := transcode_jobs s;
     playback_progress := playback_progress s; notifications := notifications s;
     push_subscriptions := push_subscriptions s; file_replicas := file_replicas s;
     cluster_protection := cluster_protection s; jobs := jobs s; file_tags := file_tags s;
     text_extractions := text_extractions s; pairings := pairings s; disk := disk s |}.

Definition set_file_versions (v : list FileVersion.row) (s : Server) : Server :=
  {| users := users s; refresh_tokens := refresh_tokens s; audit_log := audit_log s;
     recovery_keys := recovery_keys s; file_entries := file_entries s; file_versions := v;
     share_links := share_links s; devices := devices s; sync_states := sync_states s;
     sync_folders := sync_folders s; family_clouds := family_clouds s; family_members :=
     family_members s; storage_policies := storage_policies s; backups := backups s;
     backup_schedules := backup_schedules s; transcode_jobs := transcode_jobs s;
     playback_progress := playback_progress s; notifications := notifications s;
     push_subscriptions := push_subscriptions s; file_replicas := file_replicas s;
     cluster_protection := cluster_protection s; jobs := jobs s; file_tags := file_tags s;
     text_extractions := text_extractions s; pairings := pairings s; disk := disk s |}.

Definition set_share_links (v : list ShareLink.row) (s : Server) : Server :=
  {| users := users s; refresh_tokens := refresh_tokens s; audit_log := audit_log s;
     recovery_keys := recovery_keys s; file_entries := file_entries s; file_versions :=
     file_versions s; share_links := v; devices := devices s; sync_states := sync_states s;
     sync_folders := sync_folders s; family_clouds := family_clouds s; family_members :=
     family_members s; storage_policies := storage_policies s; backups := backups s;
     backup_schedules := backup_schedules s; transcode_jobs := transcode_jobs s;
     playback_progress := playback_progress s; notifications := notifications s;
     push_subscriptions := push_subscriptions s; file_replicas := file_replicas s;
     cluster_protection := cluster_protection s; jobs := jobs s; file_tags := file_tags s;
     text_extractions := text_extractions s; pairings := pairings s; disk := disk s |}.

Definition set_devices (v : list Device.row) (s : Server) : Server :=
  {| users := users s; refresh_tokens := refresh_tokens s; audit_log := audit_log s;
     recovery_keys := recovery_keys s; file_entries := file_entries s; file_versions :=
     file_versions s; share_links := share_links s; devices := v; sync_states := sync_states s;
     sync_folders := sync_folders s; family_clouds := family_clouds s; family_members :=
     family_members s; storage_policies := storage_policies s; backups := backups s;
     backup_schedules := backup_schedules s; transcode_jobs := transcode_jobs s;
     playback_progress := playback_progress s; notifications := notifications s;
     push_subscriptions := push_subscriptions s; file_replicas := file_replicas s;
     cluster_protection := cluster_protection s; jobs := jobs s; file_tags := file_tags s;
     text_extractions := text_extractions s; pairings := pairings s; disk := disk s |}.

Definition set_sync_states (v : list SyncState.row) (s : Server) : Server :=
  {| users := users s; refresh_tokens := refresh_tokens s; audit_log := audit_log s;
     recovery_keys := recovery_keys s; file_entries := file_entries s; file_versions :=
     file_versions s; share_links := share_links s; devices := devices s; sync_states := v;
     sync_folders := sync_folders s; family_clouds := family_clouds s; family_members :=
     family_members s; storage_policies := storage_policies s; backups := backups s;
     backup_schedules := backup_schedules s; transcode_jobs := transcode_jobs s;
     playback_progress := playback_progress s; notifications := notifications s;
     push_subscriptions := push_subscriptions s; file_replicas := file_replicas s;
     cluster_protection := cluster_protection s; jobs := jobs s; file_tags := file_tags s;
     text_extractions := text_extractions s; pairings := pairings s; disk := disk s |}.

Definition set_sync_folders (v : list SyncFolder.row) (s : Server) : Server :=
  {| users := users s; refresh_tokens := refresh_tokens s; audit_log := audit_log s;
     recovery_keys := recovery_keys s; file_entries := file_entries s; file_versions :=
     file_versions s; share_links := share_links s; devices := devices s; sync_states :=
     sync_states s; sync_folders := v; family_clouds := family_clouds s; family_members :=
     family_members s; storage_policies := storage_policies s; backups := backups s;
     backup_schedules := backup_schedules s; transcode_jobs := transcode_jobs s;
     playback_progress := playback_progress s; notifications := notifications s;
     push_subscriptions := push_subscriptions s; file_replicas := file_replicas s;
     cluster_protection := cluster_protection s; jobs := jobs s; file_tags := file_tags s;
     text_extractions := text_extractions s; pairings := pairings s; disk := disk s |}.

Definition set_family_clouds (v : list FamilyCloud.row) (s : Server) : Server :=
  {| users := users s; refresh_tokens := refresh_tokens s; audit_log := audit_log s;
     recovery_keys := recovery_keys s; file_entries := file_entries s; file_versions :=
     file_versions s; share_links := share_links s; devices := devices s; sync_states :=
     sync_states s; sync_folders := sync_folders s; family_clouds := v; family_members :=
     family_members s; storage_policies := storage_policies s; backups := backups s;
     backup_schedules := backup_schedules s; transcode_jobs := transcode_jobs s;
     playback_progress := playback_progress s; notifications := notifications s;
     push_subscriptions := push_subscriptions s; file_replicas := file_replicas s;
     cluster_protection := cluster_protection s; jobs := jobs s; file_tags := file_tags s;
     text_extractions := text_extractions s; pairings := pairings s; disk := disk s |}.

Definition set_family_members (v : list FamilyMember.row) (s : Server) : Server :=
  {| users := users s; refresh_tokens := refresh_tokens s; audit_log := audit_log s;
     recovery_keys := recovery_keys s; file_entries := file_entries s; file_versions :=
     file_versions s; share_links := share_links s; devices := devices s; sync_states :=
     sync_states s; sync_folders := sync_folders s; family_clouds := family_clouds s;
     family_members := v; storage_policies := storage_policies s; backups := backups s;
     backup_schedules := backup_schedules s; transcode_jobs := transcode_jobs s;
     playback_progress := playback_progress s; notifications := notifications s;
     push_subscriptions := push_subscriptions s; file_replicas := file_replicas s;
     cluster_protection := cluster_protection s; jobs := jobs s; file_tags := file_tags s;
     text_extractions := text_extractions s; pairings := pairings s; disk := disk s |}.

Definition set_storage_policies (v : list StoragePolicy.row) (s : Server) : Server :=
  {| users := users s; refresh_tokens := refresh_tokens s; audit_log := audit_log s;
     recovery_keys := recovery_keys s; file_entries := file_entries s; file_versions :=
     file_versions s; share_links := share_links s; devices := devices s; sync_states :=
     sync_states s; sync_folders := sync_folders s; family_clouds := family_clouds s;
     family_members := family_members s; storage_policies := v; backups := backups s;
     backup_schedules := backup_schedules s; transcode_jobs := transcode_jobs s;
     playback_progress := playback_progress s; notifications := notifications s;
     push_subscriptions := push_subscriptions s; file_replicas := file_replicas s;
     cluster_protection := cluster_protection s; jobs := jobs s; file_tags := file_tags s;
     text_extractions := text_extractions s; pairings := pairings s; disk := disk s |}.

Definition set_backups (v : list Backup.row) (s : Server) : Server :=
  {| users := users s; refresh_tokens := refresh_tokens s; audit_log := audit_log s;
     recovery_keys := recovery_keys s; file_entries := file_entries s; file_versions :=
     file_versions s; share_links := share_links s; devices := devices s; sync_states :=
     sync_states s; sync_folders := sync_folders s; family_clouds := family_clouds s;
     family_members := family_members s; storage_policies := storage_policies s; backups := v;
     backup_schedules := backup_schedules s; transcode_jobs := transcode_jobs s;
     playback_progress := playback_progress s; notifications := notifications s;
     push_subscriptions := push_subscriptions s; file_replicas := file_replicas s;
     cluster_protection := cluster_protection s; jobs := jobs s; file_tags := file_tags s;
     text_extractions := text_extractions s; pairings := pairings s; disk := disk s |}.

Definition set_backup_schedules (v : list BackupSchedule.row) (s : Server) : Server :=
  {| users := users s; refresh_tokens := refresh_tokens s; audit_log := audit_log s;
     recovery_keys := recovery_keys s; file_entries := file_entries s; file_versions :=
     file_versions s; share_links := share_links s; devices := devices s; sync_states :=
     sync_states s; sync_folders := sync_folders s; family_clouds := family_clouds s;
     family_members := family_members s; storage_policies := storage_policies s; backups :=
     backups s; backup_schedules := v; transcode_jobs := transcode_jobs s; playback_progress :=
     playback_progress s; notifications := notifications s; push_subscriptions :=
     push_subscriptions s; file_replicas := file_replicas s; cluster_protection :=
     cluster_protection s; jobs := jobs s; file_tags := file_tags s; text_extractions :=
     text_extractions s; pairings := pairings s; disk := disk s |}.

Definition set_transcode_jobs (v : list TranscodeJob.row) (s : Server) : Server :=
  {| users := users s; refresh_tokens := refresh_tokens s; audit_log := audit_log s;
     recovery_keys := recovery_keys s; file_entries := file_entries s; file_versions :=
     file_versions s; share_links := share_links s; devices := devices s; sync_states :=
     sync_states s; sync_folders := sync_folders s; family_clouds := family_clouds s;
     family_members := family_members s; storage_policies := storage_policies s; backups :=
     backups s; backup_schedules := backup_schedules s; transcode_jobs := v; playback_progress :=
     playback_progress s; notifications := notifications s; push_subscriptions :=
     push_subscriptions s; file_replicas := file_replicas s; cluster_protection :=
     cluster_protection s; jobs := jobs s; file_tags := file_tags s; text_extractions :=
     text_extractions s; pairings := pairings s; disk := disk s |}.

Definition set_playback_progress (v : list PlaybackProgress.row) (s : Server) : Server :=
  {| users := users s; refresh_tokens := refresh_tokens s; audit_log := audit_log s;
     recovery_keys := recovery_keys s; file_entries := file_entries s; file_versions :=
     file_versions s; share_links := share_links s; devices := devices s; sync_states :=
     sync_states s; sync_folders := sync_folders s; family_clouds := family_clouds s;
     family_members := family_members s; storage_policies := storage_policies s; backups :=
     backups s; backup_schedules := backup_schedules s; transcode_jobs := transcode_jobs s;
     playback_progress := v; notifications := notifications s; push_subscriptions :=
     push_subscriptions s; file_replicas := file_replicas s; cluster_protection :=
     cluster_protection s; jobs := jobs s; file_tags := file_tags s; text_extractions :=
     text_extractions s; pairings := pairings s; disk := disk s |}.

Definition set_notifications (v : list Notification.row) (s : Server) : Server :=
  {| users := users s; refresh_tokens := refresh_tokens s; audit_log := audit_log s;
     recovery_keys := recovery_keys s; file_entries := file_entries s; file_versions :=
     file_versions s; share_links := share_links s; devices := devices s; sync_states :=
     sync_states s; sync_folders := sync_folders s; family_clouds := family_clouds s;
     family_members := family_members s; storage_policies := storage_policies s; backups :=
     backups s; backup_schedules := backup_schedules s; transcode_jobs := transcode_jobs s;
     playback_progress := playback_progress s; notifications := v; push_subscriptions :=
     push_subscriptions s; file_replicas := file_replicas s; cluster_protection :=
     cluster_protection s; jobs := jobs s; file_tags := file_tags s; text_extractions :=
     text_extractions s; pairings := pairings s; disk := disk s |}.

Definition set_push_subscriptions (v : list PushSubscription.row) (s : Server) : Server :=
  {| users := users s; refresh_tokens := refresh_tokens s; audit_log := audit_log s;
     recovery_keys := recovery_keys s; file_entries := file_entries s; file_versions :=
     file_versions s; share_links := share_links s; devices := devices s; sync_states :=
     sync_states s; sync_folders := sync_folders s; family_clouds := family_clouds s;
     family_members := family_members s; storage_policies := storage_policies s; backups :=
     backups s; backup_schedules := backup_schedules s; transcode_jobs := transcode_jobs s;
     playback_progress := playback_progress s; notifications := notifications s;
     push_subscriptions := v; file_replicas := file_replicas s; cluster_protection :=
     cluster_protection s; jobs := jobs s; file_tags := file_tags s; text_extractions :=
     text_extractions s; pairings := pairings s; disk := disk s |}.

Definition set_file_replicas (v : list FileReplica.row) (s : Server) : Server :=
  {| users := users s; refresh_tokens := refresh_tokens s; audit_log := audit_log s;
     recovery_keys := recovery_keys s; file_entries := file_entries s; file_versions :=
     file_versions s; share_links := share_links s; devices := devices s; sync_states :=
     sync_states s; sync_folders := sync_folders s; family_clouds := family_clouds s;
     family_members := family_members s; storage_policies := storage_policies s; backups :=
     backups s; backup_schedules := backup_schedules s; transcode_jobs := transcode_jobs s;
     playback_progress := playback_progress s; notifications := notifications s;
     push_subscriptions := push_subscriptions s; file_replicas := v; cluster_protection :=
     cluster_protection s; jobs := jobs s; file_tags := file_tags s; text_extractions :=
     text_extractions s; pairings := pairings s; disk := disk s |}.

Definition set_cluster_protection (v : list ClusterProtection.row) (s : Server) : Server :=
  {| users := users s; refresh_tokens := refresh_tokens s; audit_log := audit_log s;
     recovery_keys := recovery_keys s; file_entries := file_entries s; file_versions :=
     file_versions s; share_links := share_links s; devices := devices s; sync_states :=
     sync_states s; sync_folders := sync_folders s; family_clouds := family_clouds s;
     family_members := family_members s; storage_policies := storage_policies s; backups :=
     backups s; backup_schedules := backup_schedules s; transcode_jobs := transcode_jobs s;
     playback_progress := playback_progress s; notifications := notifications s;
     push_subscriptions := push_subscriptions s; file_replicas := file_replicas s;
     cluster_protection := v; jobs := jobs s; file_tags := file_tags s; text_extractions :=
     text_extractions s; pairings := pairings s; disk := disk s |}.

Definition set_jobs (v : list Job.row) (s : Server) : Server :=
  {| users := users s; refresh_tokens := refresh_tokens s; audit_log := audit_log s;
     recovery_keys := recovery_keys s; file_entries := file_entries s; file_versions :=
     file_versions s; share_links := share_links s; devices := devices s; sync_states :=
     sync_states s; sync_folders := sync_folders s; family_clouds := family_clouds s;
     family_members := family_members s; storage_policies := storage_policies s; backups :=
     backups s; backup_schedules := backup_schedules s; transcode_jobs := transcode_jobs s;
     playback_progress := playback_progress s; notifications := notifications s;
     push_subscriptions := push_subscriptions s; file_replicas := file_replicas s;
     cluster_protection := cluster_protection s; jobs := v; file_tags := file_tags s;
     text_extractions := text_extractions s; pairings := pairings s; disk := disk s |}.

Definition set_file_tags (v : list FileTag.row) (s : Server) : Server :=
  {| users := users s; refresh_tokens := refresh_tokens s; audit_log := audit_log s;
     recovery_keys := recovery_keys s; file_entries := file_entries s; file_versions :=
     file_versions s; share_links := share_links s; devices := devices s; sync_states :=
     sync_states s; sync_folders := sync_folders s; family_clouds := family_clouds s;
     family_members := family_members s; storage_policies := storage_policies s; backups :=
     backups s; backup_schedules := backup_schedules s; transcode_jobs := transcode_jobs s;
     playback_progress := playback_progress s; notifications := notifications s;
     push_subscriptions := push_subscriptions s; file_replicas := file_replicas s;
     cluster_protection := cluster_protection s; jobs := jobs s; file_tags := v; text_extractions
     := text_extractions s; pairings := pairings s; disk := disk s |}.

Definition set_text_extractions (v : list TextExtraction.row) (s : Server) : Server :=
  {| users := users s; refresh_tokens := refresh_tokens s; audit_log := audit_log s;
     recovery_keys := recovery_keys s; file_entries := file_entries s; file_versions :=
     file_versions s; share_links := share_links s; devices := devices s; sync_states :=
     sync_states s; sync_folders := sync_folders s; family_clouds := family_clouds s;
     family_members := family_members s; storage_policies := storage_policies s; backups :=
     backups s; backup_schedules := backup_schedules s; transcode_jobs := transcode_jobs s;
     playback_progress := playback_progress s; notifications := notifications s;
     push_subscriptions := push_subscriptions s; file_replicas := file_replicas s;
     cluster_protection := cluster_protection s; jobs := jobs s; file_tags := file_tags s;
     text_extractions := v; pairings := pairings s; disk := disk s |}.

Definition set_pairings (v : Pairing.PairingStore) (s : Server) : Server :=
  {| users := users s; refresh_tokens := refresh_tokens s; audit_log := audit_log s;
     recovery_keys := recovery_keys s; file_entries := file_entries s; file_versions :=
     file_versions s; share_links := share_links s; devices := devices s; sync_states :=
     sync_states s; sync_folders := sync_folders s; family_clouds := family_clouds s;
     family_members := family_members s; storage_policies := storage_policies s; backups :=
     backups s; backup_schedules := backup_schedules s; transcode_jobs := transcode_jobs s;
     playback_progress := playback_progress s; notifications := notifications s;
     push_subscriptions := push_subscriptions s; file_replicas := file_replicas s;
     cluster_protection := cluster_protection s; jobs := jobs s; file_tags := file_tags s;
     text_extractions := text_extractions s; pairings := v; disk := disk s |}.

Definition set_disk (v : Fs.fs) (s : Server) : Server :=
  {| users := users s; refresh_tokens := refresh_tokens s; audit_log := audit_log s;
     recovery_keys := recovery_keys s; file_entries := file_entries s; file_versions :=
     file_versions s; share_links := share_links s; devices := devices s; sync_states :=
     sync_states s; sync_folders := sync_folders s; family_clouds := family_clouds s;
     family_members := family_members s; storage_policies := storage_policies s; backups :=
     backups s; backup_schedules := backup_schedules s; transcode_jobs := transcode_jobs s;
     playback_progress := playback_progress s; notifications := notifications s;
     push_subscriptions := push_subscriptions s; file_replicas := file_replicas s;
     cluster_protection := cluster_protection s; jobs := jobs s; file_tags := file_tags s;
     text_extractions := text_extractions s; pairings := pairings s; disk := v |}.

Definition empty_server : Server :=
  {| users := []; refresh_tokens := []; audit_log := []; recovery_keys := []; file_entries := []; file_versions := []; share_links := []; devices := []; sync_states := []; sync_folders := []; family_clouds := []; family_members := []; storage_policies := []; backups := []; backup_schedules := []; transcode_jobs := []; playback_progress := []; notifications := []; push_subscriptions := []; file_replicas := []; cluster_protection := []; jobs := []; file_tags := []; text_extractions := []; pairings := Pairing.new; disk := ∅ |}.

(** ** Constraints *)

Definition varchar (n : Z) (s : rstr) : bool := Z.of_nat (length s) <=? n.
Definition opt_all {A} (p : A -> bool) (o : option A) : bool :=
  match o with Some a => p a | None => true end.
Definition one_of (l : list string) (s : rstr) : bool :=
  existsb (fun x => bool_decide (s = lit x)) l.

(** The value a foreign key refers to is present. *)
Definition refers {A} (key : A -> Z) (t : list A) (v : Z) : bool := existsb (fun r => key r =? v) t.

(** is_trashed belongs to the key, and NULLs of parent_id are not distinct. *)
Definition file_key (r : FileEntry.row) : Z * option Z * rstr * bool :=
  (FileEntry.user_id r, FileEntry.parent_id r, FileEntry.name r, FileEntry.is_trashed r).

Definition user_ok (r : User.row) : bool :=
  varchar 255 (User.email r) && varchar 100 (User.display_name r) && varchar 20 (User.role r)
  && int8 (User.storage_quota_bytes r).

Definition refresh_token_ok (s : Server) (r : RefreshToken.row) : bool :=
  varchar 255 (RefreshToken.token_hash r) && refers User.id (users s) (RefreshToken.user_id r).

Definition audit_log_ok (s : Server) (r : AuditLog.row) : bool :=
  varchar 100 (AuditLog.action r) && opt_all (refers User.id (users s)) (AuditLog.user_id r).

Definition recovery_key_ok (s : Server) (r : RecoveryKey.row) : bool :=
  varchar 64 (RecoveryKey.id r) && varchar 128 (RecoveryKey.recovery_hash r)
  && opt_all (varchar 255) (RecoveryKey.hint r) && refers User.id (users s) (RecoveryKey.user_id r).

Definition file_entry_ok (s : Server) (r : FileEntry.row) : bool :=
  varchar 255 (FileEntry.name r) && one_of ["file"; "folder"]%string (FileEntry.entry_type r)
  && opt_all (varchar 255) (FileEntry.mime_type r) && int8 (FileEntry.size_bytes r)
  && opt_all (varchar 64) (FileEntry.sha256_hash r)
  && refers User.id (users s) (FileEntry.user_id r)
  && opt_all (refers FileEntry.id (file_entries s)) (FileEntry.parent_id r).

Definition file_version_ok (s : Server) (r : FileVersion.row) : bool :=
  int4 (FileVersion.version_number r) && int8 (FileVersion.size_bytes r)
  && opt_all (varchar 64) (FileVersion.sha256_hash r)
  && refers FileEntry.id (file_entries s) (FileVersion.file_entry_id r)
  && refers User.id (users s) (FileVersion.created_by r).

Definition share_link_ok (s : Server) (r : ShareLink.row) : bool :=
  varchar 64 (ShareLink.token r) && one_of ["view"; "download"; "upload"]%string (ShareLink.permission r)
  && opt_all int4 (ShareLink.max_downloads r) && int4 (ShareLink.download_count r)
  && refers User.id (users s) (ShareLink.user_id r)
  && refers FileEntry.id (file_entries s) (ShareLink.file_entry_id r).

Definition device_ok (s : Server) (r : Device.row) : bool :=
  varchar 100 (Device.name r) && varchar 50 (Device.device_type r) && varchar 50 (Device.os r)
  && varchar 50 (Device.os_version r) && varchar 50 (Device.agent_version r)
  && refers User.id (users s) (Device.user_id r).

Definition sync_state_ok (s : Server) (r : SyncState.row) : bool :=
  int8 (SyncState.version r) && one_of ["synced"; "pending"; "conflict"]%string (SyncState.status r)
  && refers User.id (users s) (SyncState.user_id r)
  && refers Device.id (devices s) (SyncState.device_id r)
  && refers FileEntry.id (file_entries s) (SyncState.file_entry_id r).

Definition sync_folder_ok (s : Server) (r : SyncFolder.row) : bool :=
  refers User.id (users s) (SyncFolder.user_id r)
  && refers Device.id (devices s) (SyncFolder.device_id r)
  && opt_all (refers FileEntry.id (file_entries s)) (SyncFolder.remote_folder_id r).

Definition family_cloud_ok (s : Server) (r : FamilyCloud.row) : bool :=
  varchar 64 (FamilyCloud.id r) && varchar 255 (FamilyCloud.name r)
  && varchar 32 (FamilyCloud.cloud_type r) && refers User.id (users s) (FamilyCloud.owner_id r).

Definition family_member_ok (s : Server) (r : FamilyMember.row) : bool :=
  varchar 64 (FamilyMember.id r) && varchar 32 (FamilyMember.role r)
  && int8 (FamilyMember.storage_quota_bytes r) && int8 (FamilyMember.used_bytes r)
  && opt_all (varchar 64) (FamilyMember.invite_code r)
  && existsb (fun c => bool_decide (FamilyCloud.id c = FamilyMember.cloud_id r)) (family_clouds s)
  && refers User.id (users s) (FamilyMember.user_id r).

Definition storage_policy_ok (s : Server) (r : StoragePolicy.row) : bool :=
  varchar 64 (StoragePolicy.id r) && varchar 64 (StoragePolicy.category r)
  && varchar 32 (StoragePolicy.target_storage_type r)
  && opt_all (varchar 64) (StoragePolicy.target_node_id r) && int4 (StoragePolicy.replica_count r)
  && varchar 32 (StoragePolicy.availability_tier r) && int4 (StoragePolicy.priority r)
  && refers User.id (users s) (StoragePolicy.user_id r).

Definition backup_ok (s : Server) (r : Backup.row) : bool :=
  varchar 255 (Backup.name r) && varchar 20 (Backup.status r) && int8 (Backup.size_bytes r)
  && int8 (Backup.file_count r) && refers User.id (users s) (Backup.user_id r).

Definition backup_schedule_ok (s : Server) (r : BackupSchedule.row) : bool :=
  varchar 255 (BackupSchedule.name r) && varchar 100 (BackupSchedule.cron_expression r)
  && refers User.id (users s) (BackupSchedule.user_id r).

Definition transcode_job_ok (s : Server) (r : TranscodeJob.row) : bool :=
  varchar 50 (TranscodeJob.profile r) && varchar 20 (TranscodeJob.status r)
  && refers FileEntry.id (file_entries s) (TranscodeJob.file_id r)
  && refers User.id (users s) (TranscodeJob.user_id r).

Definition playback_progress_ok (s : Server) (r : PlaybackProgress.row) : bool :=
  refers User.id (users s) (PlaybackProgress.user_id r)
  && refers FileEntry.id (file_entries s) (PlaybackProgress.file_entry_id r).

Definition notification_ok (s : Server) (r : Notification.row) : bool :=
  varchar 255 (Notification.title r) && refers User.id (users s) (Notification.user_id r).

Definition push_subscription_ok (s : Server) (r : PushSubscription.row) : bool :=
  refers User.id (users s) (PushSubscription.user_id r).

Definition file_replica_ok (s : Server) (r : FileReplica.row) : bool :=
  varchar 64 (FileReplica.id r) && varchar 64 (FileReplica.storage_node_id r)
  && varchar 32 (FileReplica.status r) && varchar 128 (FileReplica.checksum r)
  && refers FileEntry.id (file_entries s) (FileReplica.file_id r)
  && refers Device.id (devices s) (FileReplica.device_id r).

Definition cluster_protection_ok (s : Server) (r : ClusterProtection.row) : bool :=
  varchar 32 (ClusterProtection.protection_mode r) && int4 (ClusterProtection.rpo_target_minutes r)
  && int4 (ClusterProtection.rto_target_minutes r) && varchar 32 (ClusterProtection.health_status r)
  && refers User.id (users s) (ClusterProtection.user_id r).

Definition job_ok (s : Server) (r : Job.row) : bool :=
  varchar 50 (Job.job_type r) && varchar 20 (Job.status r)
  && one_of ["queued"; "running"; "completed"; "failed"]%string (Job.status r)
  && opt_all (refers User.id (users s)) (Job.user_id r).

Definition file_tag_ok (s : Server) (r : FileTag.row) : bool :=
  varchar 100 (FileTag.tag r) && varchar 20 (FileTag.source r) && one_of ["ai"; "user"]%string (FileTag.source r)
  && refers FileEntry.id (file_entries s) (FileTag.file_entry_id r).

Definition text_extraction_ok (s : Server) (r : TextExtraction.row) : bool :=
  varchar 50 (TextExtraction.method r) && opt_all int4 (TextExtraction.page_count r)
  && refers FileEntry.id (file_entries s) (TextExtraction.file_id r).

(** Primary keys and UNIQUE constraints. *)
Definition keys_ok (s : Server) : bool :=
  unique_key User.id (users s) && unique_key User.email (users s)
  && unique_key RefreshToken.id (refresh_tokens s) && unique_key AuditLog.id (audit_log s)
  && unique_key RecoveryKey.id (recovery_keys s)
  && unique_key FileEntry.id (file_entries s) && unique_key file_key (file_entries s)
  && unique_key FileVersion.id (file_versions s)
  && unique_key (fun r => (FileVersion.file_entry_id r, FileVersion.version_number r)) (file_versions s)
  && unique_key ShareLink.id (share_links s) && unique_key ShareLink.token (share_links s)
  && unique_key Device.id (devices s) && unique_key SyncState.id (sync_states s)
  && unique_key (fun r => (SyncState.device_id r, SyncState.file_entry_id r)) (sync_states s)
  && unique_key SyncFolder.id (sync_folders s) && unique_key FamilyCloud.id (family_clouds s)
  && unique_key FamilyMember.id (family_members s)
  && unique_key (fun r => (FamilyMember.cloud_id r, FamilyMember.user_id r)) (family_members s)
  && unique_key StoragePolicy.id (storage_policies s) && unique_key Backup.id (backups s)
  && unique_key BackupSchedule.id (backup_schedules s) && unique_key TranscodeJob.id (transcode_jobs s)
  && unique_key (fun r => (PlaybackProgress.user_id r, PlaybackProgress.file_entry_id r)) (playback_progress s)
  && unique_key Notification.id (notifications s)
  && unique_key PushSubscription.id (push_subscriptions s) && unique_key PushSubscription.endpoint (push_subscriptions s)
  && unique_key FileReplica.id (file_replicas s)
  && unique_key (fun r => (FileReplica.file_id r, FileReplica.storage_node_id r)) (file_replicas s)
  && unique_key ClusterProtection.user_id (cluster_protection s)
  && unique_key Job.id (jobs s) && unique_key FileTag.id (file_tags s)
  && unique_key (fun r => (FileTag.file_entry_id r, FileTag.tag r)) (file_tags s)
  && unique_key TextExtraction.id (text_extractions s).

Definition rows_ok (s : Server) : bool :=
  forallb user_ok (users s) && forallb (refresh_token_ok s) (refresh_tokens s)
  && forallb (audit_log_ok s) (audit_log s) && forallb (recovery_key_ok s) (recovery_keys s)
  && forallb (file_entry_ok s) (file_entries s) && forallb (file_version_ok s) (file_versions s)
  && forallb (share_link_ok s) (share_links s) && forallb (device_ok s) (devices s)
  && forallb (sync_state_ok s) (sync_states s) && forallb (sync_folder_ok s) (sync_folders s)
  && forallb (family_cloud_ok s) (family_clouds s) && forallb (family_member_ok s) (family_members s)
  && forallb (storage_policy_ok s) (storage_policies s) && forallb (backup_ok s) (backups s)
  && forallb (backup_schedule_ok s) (backup_schedules s) && forallb (transcode_job_ok s) (transcode_jobs s)
  && forallb (playback_progress_ok s) (playback_progress s) && forallb (notification_ok s) (notifications s)
  && forallb (push_subscription_ok s) (push_subscriptions s) && forallb (file_replica_ok s) (file_replicas s)
  && forallb (cluster_protection_ok s) (cluster_protection s)
  && forallb (job_ok s) (jobs s) && forallb (file_tag_ok s) (file_tags s)
  && forallb (text_extraction_ok s) (text_extractions s).

Definition schema_ok (s : Server) : bool := keys_ok s && rows_ok s.

(** ** Consequences of the constraints *)

(** Rows with the same key are the same row. *)
Lemma unique_key_inj {A K} `{EqDecision K} (key : A -> K) (t : list A) r1 r2 :
  unique_key key t = true -> r1 ∈ t -> r2 ∈ t -> key r1 = key r2 -> r1 = r2.
Proof.
  unfold unique_key. rewrite bool_decide_eq_true.
  induction t as [|r t IH]; simpl; intros N H1 H2 E; [by apply elem_of_nil in H1|].
  apply NoDup_cons in N as [N1 N2]. apply elem_of_cons in H1, H2.
  destruct H1 as [->|H1], H2 as [->|H2]; [done| | |by apply IH].
  - destruct N1. rewrite E. by apply list_elem_of_fmap_2.
  - destruct N1. rewrite <- E. by apply list_elem_of_fmap_2.
Qed.

(** The keys of the tables, one by one. *)
Lemma key_user s : schema_ok s = true -> unique_key User.id (users s) = true.
Proof. unfold schema_ok, keys_ok. rewrite !andb_true_iff. tauto. Qed.

Lemma key_email s : schema_ok s = true -> unique_key User.email (users s) = true.
Proof. unfold schema_ok, keys_ok. rewrite !andb_true_iff. tauto. Qed.

Lemma key_recovery s : schema_ok s = true -> unique_key RecoveryKey.id (recovery_keys s) = true.
Proof. unfold schema_ok, keys_ok. rewrite !andb_true_iff. tauto. Qed.

Lemma key_file s : schema_ok s = true -> unique_key FileEntry.id (file_entries s) = true.
Proof. unfold schema_ok, keys_ok. rewrite !andb_true_iff. tauto. Qed.

Lemma key_share s : schema_ok s = true ->
  unique_key ShareLink.id (share_links s) = true /\ unique_key ShareLink.token (share_links s) = true.
Proof. unfold schema_ok, keys_ok. rewrite !andb_true_iff. tauto. Qed.

Lemma key_version s : schema_ok s = true -> unique_key FileVersion.id (file_versions s) = true.
Proof. unfold schema_ok, keys_ok. rewrite !andb_true_iff. tauto. Qed.

Lemma key_backup s : schema_ok s = true -> unique_key Backup.id (backups s) = true.
Proof. unfold schema_ok, keys_ok. rewrite !andb_true_iff. tauto. Qed.

Lemma key_member s : schema_ok s = true ->
  unique_key FamilyMember.id (family_members s) = true
  /\ unique_key (fun r => (FamilyMember.cloud_id r, FamilyMember.user_id r)) (family_members s) = true.
Proof. unfold schema_ok, keys_ok. rewrite !andb_true_iff. tauto. Qed.

(** The row with a given key is found. *)
Lemma find_key {A K} `{EqDecision K} (key : A -> K) (t : list A) r (p : A -> bool) :
  unique_key key t = true -> r ∈ t -> (forall x, p x = true <-> key x = key r) ->
  find_row p t = Some r.
Proof.
  intros U Hr Hp. destruct (find_row p t) as [v|] eqn:F.
  - apply find_row_Some in F as [Hv Ev]. f_equal. eapply unique_key_inj; eauto. by apply Hp.
  - rewrite find_row_None in F. specialize (F r Hr). by rewrite (proj2 (Hp r)) in F.
Qed.

Lemma find_unique {A K} `{EqDecision K} (key : A -> K) (t : list A) r (p : A -> bool) :
  unique_key key t = true -> r ∈ t -> p r = true -> (forall x, p x = true -> key x = key r) ->
  find_row p t = Some r.
Proof.
  intros U Hr Pr Hp. destruct (find_row p t) as [v|] eqn:F.
  - apply find_row_Some in F as [Hv Ev]. f_equal. eapply unique_key_inj; eauto.
  - rewrite find_row_None in F. by rewrite (F r Hr) in Pr.
Qed.

Lemma find_user s u :
  schema_ok s = true -> u ∈ users s -> find_row (fun x => User.id x =? User.id u) (users s) = Some u.
Proof.
  intros K H. eapply find_key; [by apply key_user|done|]. intros x. apply Z.eqb_eq.
Qed.

Lemma refers_iff {A} (key : A -> Z) t v : refers key t v = true <-> exists r, r ∈ t /\ key r = v.
Proof.
  unfold refers. rewrite existsb_exists. setoid_rewrite Z.eqb_eq.
  by setoid_rewrite list_elem_of_In.
Qed.
