(* ===== verification/Token.v ===== *)
(** * Token: JSON web tokens and the authentication extractor

    common/src/auth/jwt.rs and middleware.rs.  The jsonwebtoken crate is the
    class [JsonWebToken]; its default validation checks the signature and the
    expiry with a leeway of 60 seconds. *)

From S2P Require Import Prelude Text Effects Externals.

Module Token.

Record Claims := { sub : Z; email : rstr; iat : Z; exp : Z; jti : Z }.

Record TokenPair := {
  access_token : rstr; refresh_token : rstr; token_type : rstr; expires_in : Z }.

(** The fields of config.rs [AuthConfig]. *)
Record AuthConfig := {
  jwt_secret : rstr; access_token_expiry_secs : Z; refresh_token_expiry_secs : Z }.

Definition LEEWAY : Z := 60.

Class JsonWebToken := {
  jwt_encode : Claims -> rstr -> rstr + rstr;
  jwt_decode : Z -> rstr -> rstr -> rstr + Claims;
  (** the Display text of an error *)
  jwt_expired : rstr;
  jwt_decode_encode : forall c key t now,
    jwt_encode c key = inr t -> 0 <= exp c ->
    jwt_decode now t key = if now <=? exp c + LEEWAY then inr c else inl jwt_expired;
  jwt_decode_exp : forall c key t now, jwt_decode now t key = inr c -> now <= exp c + LEEWAY
}.

(** DateTime::timestamp: whole seconds, rounded down. *)
Definition timestamp (t : Z) : Z := t / 1000000.

Section Token.
Context {O : Oracle} {CH : Chrono} {JW : JsonWebToken}.

Definition encode {D} (c : Claims) (config : AuthConfig) : M D rstr :=
  match jwt_encode c (jwt_secret config) with
  | inl e => throw (Jwt e)
  | inr t => mret t
  end.

Definition generate_token_pair {D} (user_id : Z) (email : rstr) (config : AuthConfig) : M D TokenPair :=
  now ← utc_now;
  access_exp ← or_panic (add_seconds now (access_token_expiry_secs config));
  access_jti ← new_v4;
  access ← encode {| sub := user_id; email := email; iat := timestamp now;
                     exp := timestamp access_exp; jti := access_jti |} config;
  refresh_exp ← or_panic (add_seconds now (refresh_token_expiry_secs config));
  refresh_jti ← new_v4;
  refresh ← encode {| sub := user_id; email := email; iat := timestamp now;
                      exp := timestamp refresh_exp; jti := refresh_jti |} config;
  mret {| access_token := access; refresh_token := refresh; token_type := lit "Bearer";
          expires_in := access_token_expiry_secs config |}.

Definition validate_token {D} (token secret : rstr) : M D Claims :=
  now ← utc_now;
  match jwt_decode (timestamp now) token secret with
  | inl e => throw (Jwt e)
  | inr c => mret c
  end.

(** The extractor: [header] is the Authorization header, if it is there and
    is visible ASCII ([to_str]). *)
Definition from_request_parts {D} (header : option rstr) (config : AuthConfig) : M D Claims :=
  auth_header ← ok_or header (Unauthorized (lit "Missing Authorization header"));
  token ← ok_or (strip_prefix (lit "Bearer ") auth_header)
                (Unauthorized (lit "Invalid Authorization header format"));
  validate_token token (jwt_secret config).

(** ** Lemmas *)

Lemma encode_Ok {D} c config t (w w' : World D) :
  encode c config w = (Ok t, w') <-> jwt_encode c (jwt_secret config) = inr t /\ w = w'.
Proof.
  unfold encode. destruct (jwt_encode _ _); [rewrite throw_Ok | rewrite ret_Ok]; naive_solver.
Qed.

Lemma validate_token_Ok {D} token secret c (w w' : World D) :
  validate_token token secret w = (Ok c, w') <->
  jwt_decode (timestamp (clock_at (pos w))) token secret = inr c
  /\ w' = mkWorld (data w) (S (pos w)).
Proof.
  unfold validate_token, mbind, M_bind, utc_now, interact.
  destruct (jwt_decode _ _ _); unfold throw, mret, M_ret; naive_solver.
Qed.

Lemma preserves_generate {D} R `{!PreOrder R} u e c : preserves R (generate_token_pair u e c : M D TokenPair).
Proof. unfold generate_token_pair, encode. preserve. Qed.

Lemma preserves_validate {D} R `{!PreOrder R} t s : preserves R (validate_token t s : M D Claims).
Proof. unfold validate_token. preserve. Qed.

(** What a successful generation returned: two tokens for the same user, issued
    at the same instant, that expire by the two configured times. *)
Lemma generate_token_pair_Ok {D} user_id email config p (w w' : World D) :
  generate_token_pair user_id email config w = (Ok p, w') ->
  data w' = data w /\ (pos w' = pos w + 3)%nat /\
  let now := clock_at (pos w) in
  exists ja jr,
    jwt_encode {| sub := user_id; Token.email := email; iat := timestamp now;
                  exp := timestamp (now + access_token_expiry_secs config * 1000000);
                  jti := ja |} (jwt_secret config) = inr (access_token p)
    /\ jwt_encode {| sub := user_id; Token.email := email; iat := timestamp now;
                  exp := timestamp (now + refresh_token_expiry_secs config * 1000000);
                  jti := jr |} (jwt_secret config) = inr (refresh_token p)
    /\ token_type p = lit "Bearer" /\ expires_in p = access_token_expiry_secs config.
Proof.
  unfold generate_token_pair. intros H. run_ok H.
  repeat match goal with
  | H : encode _ _ _ = _ |- _ => apply encode_Ok in H as [? <-]
  | H : add_seconds _ _ = Some _ |- _ => apply add_seconds_exact in H
  end. subst. simpl. split; [done|]. split; [lia|]. eauto 10.
Qed.

Lemma from_request_parts_bearer {D} t config (v : World D) :
  fst (from_request_parts (Some (lit "Bearer " ++ t)) config v) =
  match jwt_decode (timestamp (clock_at (pos v))) t (jwt_secret config) with
  | inl e => Err (Jwt e)
  | inr c => Ok c
  end.
Proof.
  unfold from_request_parts, ok_or.
  replace (strip_prefix (lit "Bearer ") (lit "Bearer " ++ t)) with (Some t)
    by (symmetry; by apply strip_prefix_iff).
  unfold validate_token, mbind, M_bind, mret, M_ret, utc_now, interact. simpl.
  by destruct (jwt_decode _ _ _).
Qed.

(** an access token just issued is accepted by the extractor exactly until
    sixty seconds after its expiry, with the claims of the user it was issued
    to; the refresh token of the pair is accepted in its place, since the
    extractor does not tell the two apart. *)
Theorem issued_token_accepted {D} user_id email config p (w w1 v : World D) :
  generate_token_pair user_id email config w = (Ok p, w1) ->
  let issued := clock_at (pos w) in
  let access_end := timestamp (issued + access_token_expiry_secs config * 1000000) in
  let refresh_end := timestamp (issued + refresh_token_expiry_secs config * 1000000) in
  0 <= access_end -> 0 <= refresh_end ->
  let now := timestamp (clock_at (pos v)) in
  let answer t := fst (from_request_parts (Some (lit "Bearer " ++ t)) config v) in
  (exists c, sub c = user_id /\ Token.email c = email /\
     answer (access_token p) = if now <=? access_end + 60 then Ok c else Err (Jwt jwt_expired))
  /\ (exists c, sub c = user_id /\ Token.email c = email /\
     answer (refresh_token p) = if now <=? refresh_end + 60 then Ok c else Err (Jwt jwt_expired)).
Proof.
  intros H. apply generate_token_pair_Ok in H as (_ & _ & ja & jr & Ha & Hr & _).
  cbv beta zeta. intros La Lr. rewrite !from_request_parts_bearer. split.
  - rewrite (jwt_decode_encode _ _ _ _ Ha La). simpl. eexists. split; [|split]; cycle 2.
    { unfold LEEWAY. by destruct (_ <=? _). } all: done.
  - rewrite (jwt_decode_encode _ _ _ _ Hr Lr). simpl. eexists. split; [|split]; cycle 2.
    { unfold LEEWAY. by destruct (_ <=? _). } all: done.
Qed.
End Token.

(** Nothing was done. *)
Definition still {D} (d d' : D) : Prop := d' = d.

#[export] Instance still_preorder {D} : PreOrder (@still D).
Proof. split; [by intros d|]. intros d1 d2 d3 -> ->. done. Qed.

Lemma claims_still {JW : JsonWebToken} {O : Oracle} {D} h config :
  preserves still (from_request_parts h config : M D Claims).
Proof. unfold from_request_parts, validate_token. preserve. Qed.

(** ** A concrete token format *)

(** The claims and the key, in the clear: enough to evaluate. *)
Definition toy_encode (c : Claims) (key : rstr) : rstr + rstr :=
  inr (sub c :: iat c :: exp c :: jti c :: Z.of_nat (length (email c)) :: email c ++ key).

Definition toy_decode (now : Z) (token key : rstr) : rstr + Claims :=
  match token with
  | s :: i :: e :: j :: l :: r =>
      if bool_decide (drop (Z.to_nat l) r = key) then
        if now <=? e + LEEWAY
        then inr {| sub := s; email := take (Z.to_nat l) r; iat := i; exp := e; jti := j |}
        else inl (lit "ExpiredSignature")
      else inl (lit "InvalidSignature")
  | _ => inl (lit "InvalidToken")
  end.

Definition toy_jwt : JsonWebToken.
Proof.
  refine {| jwt_encode := toy_encode; jwt_decode := toy_decode;
            jwt_expired := lit "ExpiredSignature" |}.
  - intros [s e i x j] key t now [= <-] _. unfold toy_decode. cbn [sub email iat exp jti].
    rewrite Nat2Z.id, drop_app_length, take_app_length. by rewrite bool_decide_eq_true_2.
  - intros c key t now. unfold toy_decode. do 6 (destruct t as [|? t]; try done).
    all: intros H; case_hyp H; [|done]; case_hyp H; [|done]; inversion H; subst; simpl; lia.
Defined.

Definition toy_config : AuthConfig :=
  {| jwt_secret := lit "secret"; access_token_expiry_secs := 900; refresh_token_expiry_secs := 604800 |}.

Lemma issued_token_witness :
  exists p w1 c,
    generate_token_pair (O := toy_env []) (CH := plain_chrono) (JW := toy_jwt) 7 (lit "a@b.c")
      toy_config (mkWorld tt 0) = (Ok p, w1)
    /\ sub c = 7 /\ email c = lit "a@b.c"
    /\ fst (from_request_parts (O := toy_env []) (JW := toy_jwt)
             (Some (lit "Bearer " ++ access_token p)) toy_config (mkWorld tt 500)) = Ok c.
Proof.
  destruct (generate_token_pair (O := toy_env []) (CH := plain_chrono) (JW := toy_jwt) 7
    (lit "a@b.c") toy_config (mkWorld tt 0)) as [[p|e| |] w1] eqn:E; try (vm_compute in E; discriminate E).
  destruct (proj1 (issued_token_accepted (O := toy_env []) (CH := plain_chrono) (JW := toy_jwt) 7
    (lit "a@b.c") toy_config p (mkWorld tt 0) w1 (mkWorld tt 500) E
    ltac:(vm_compute; discriminate) ltac:(vm_compute; discriminate))) as (c & H1 & H2 & H3).
  exists p, w1, c. split; [reflexivity|]. split; [exact H1|]. split; [exact H2|].
  rewrite H3. match goal with |- (if ?b then _ else _) = _ => replace b with true by (vm_compute; reflexivity) end.
  reflexivity.
Defined.
End Token.
