(* ===== verification/Bits.v ===== *)
(** * Bits: regrouping a bit stream

    The base32, base64 and BIP-39 routines all push digits of one width into a
    shift register and take digits of another width out of it.  A register is
    read here as the list of its low bits, most significant first, so that the
    invariant of each loop is an equation between lists. *)

From S2P Require Import Prelude Text.

(** The low [w] bits of [v], most significant first. *)
Fixpoint tobits (w : nat) (v : Z) : list bool :=
  match w with
  | O => []
  | S k => Z.testbit v (Z.of_nat k) :: tobits k v
  end.

Lemma tobits_length w v : length (tobits w v) = w.
Proof. induction w as [|w IH]; simpl; [done|]. by rewrite IH. Qed.

Lemma tobits_ext w v v' :
  (forall i, 0 <= i < Z.of_nat w -> Z.testbit v i = Z.testbit v' i) -> tobits w v = tobits w v'.
Proof.
  induction w as [|w IH]; intros H; simpl; [done|]. f_equal; [apply H; lia|].
  apply IH. intros i Hi. apply H. lia.
Qed.

Lemma tobits_mod w v k : Z.of_nat w <= k -> tobits w (v mod 2 ^ k) = tobits w v.
Proof. intros Hk. apply tobits_ext. intros i Hi. apply Z.mod_pow2_bits_low. lia. Qed.

Lemma tobits_land w v k : Z.of_nat w <= k -> tobits w (Z.land v (Z.ones k)) = tobits w v.
Proof. intros Hk. rewrite Z.land_ones by lia. by apply tobits_mod. Qed.

Lemma tobits_app a b v : tobits (a + b) v = tobits a (Z.shiftr v (Z.of_nat b)) ++ tobits b v.
Proof.
  induction a as [|a IH]; simpl; [done|]. rewrite IH. f_equal.
  rewrite Z.shiftr_spec by lia. f_equal. lia.
Qed.

Lemma tobits_lor a b x y :
  0 <= y < 2 ^ Z.of_nat b ->
  tobits (a + b) (Z.lor (Z.shiftl x (Z.of_nat b)) y) = tobits a x ++ tobits b y.
Proof.
  intros Hy. rewrite tobits_app. f_equal.
  - apply tobits_ext. intros i Hi. rewrite Z.shiftr_spec, Z.lor_spec, Z.shiftl_spec by lia.
    rewrite Z.add_simpl_r. rewrite <- (Z.mod_small y (2 ^ Z.of_nat b)) by lia.
    rewrite Z.mod_pow2_bits_high by lia. apply orb_false_r.
  - apply tobits_ext. intros i Hi. rewrite Z.lor_spec, Z.shiftl_spec_low by lia. done.
Qed.

(** Pushing [b] bits into a [k]-bit register that holds [a] bits. *)
Lemma tobits_push a b k x y :
  0 <= y < 2 ^ Z.of_nat b -> Z.of_nat (a + b) <= k ->
  tobits (a + b) (Z.lor ((Z.shiftl x (Z.of_nat b)) mod 2 ^ k) y) = tobits a x ++ tobits b y.
Proof.
  intros Hy Hk. rewrite <- (tobits_lor a b x y) by done. apply tobits_ext.
  intros i Hi. rewrite !Z.lor_spec, Z.mod_pow2_bits_low by lia. done.
Qed.

Lemma tobits_zero w : tobits w 0 = replicate w false.
Proof. induction w as [|w IH]; simpl; [done|]. by rewrite Z.bits_0, IH. Qed.

Lemma tobits_inj w v v' :
  0 <= v < 2 ^ Z.of_nat w -> 0 <= v' < 2 ^ Z.of_nat w -> tobits w v = tobits w v' -> v = v'.
Proof.
  intros Hv Hv' H.
  assert (E : forall i, 0 <= i < Z.of_nat w -> Z.testbit v i = Z.testbit v' i).
  { clear Hv Hv'. induction w as [|w IH]; intros i Hi; [lia|]. injection H as H1 H2.
    destruct (Z.eq_dec i (Z.of_nat w)) as [->|]; [done|]. apply IH; [done|lia]. }
  apply Z.bits_inj'. intros i Hi. destruct (Z.lt_ge_cases i (Z.of_nat w)); [apply E; lia|].
  rewrite <- (Z.mod_small v (2 ^ Z.of_nat w)), <- (Z.mod_small v' (2 ^ Z.of_nat w)) by lia.
  by rewrite !Z.mod_pow2_bits_high by lia.
Qed.

(** The bits of a list of [w]-bit digits. *)
Definition digits_bits (w : nat) (ds : list Z) : list bool := flat_map (tobits w) ds.
Definition digits (w : nat) (ds : list Z) : Prop := Forall (fun d => 0 <= d < 2 ^ Z.of_nat w) ds.

Lemma digits_bits_length w ds : length (digits_bits w ds) = (w * length ds)%nat.
Proof.
  unfold digits_bits. induction ds as [|d ds IH]; simpl; [lia|].
  rewrite length_app, tobits_length, IH. lia.
Qed.

Lemma digits_bits_app w a b : digits_bits w (a ++ b) = digits_bits w a ++ digits_bits w b.
Proof. apply flat_map_app. Qed.

Lemma digits_bits_cons w d ds : digits_bits w (d :: ds) = tobits w d ++ digits_bits w ds.
Proof. done. Qed.

Lemma digits_bits_nil w : digits_bits w [] = [].
Proof. done. Qed.

Lemma digits_bits_snoc w a d : digits_bits w (a ++ [d]) = digits_bits w a ++ tobits w d.
Proof. rewrite digits_bits_app. simpl. by rewrite app_nil_r. Qed.

(** Two digit strings with the same bits, up to less than a digit of padding. *)
Lemma digits_bits_inj w ds ds' r r' :
  digits w ds -> digits w ds' -> (length r < w)%nat -> (length r' < w)%nat ->
  digits_bits w ds ++ r = digits_bits w ds' ++ r' -> ds = ds' /\ r = r'.
Proof.
  intros Hd. revert ds'. induction Hd as [|d ds Hd Hds IH]; intros ds' Hd' Hr Hr' E.
  - destruct Hd' as [|d' ds' Hd' Hds']; simpl in E; [done|].
    apply (f_equal length) in E. rewrite !length_app, tobits_length in E. lia.
  - destruct Hd' as [|d' ds' Hd' Hds']; simpl in E.
    + apply (f_equal length) in E. rewrite !length_app, tobits_length in E. lia.
    + rewrite <- !app_assoc in E. apply app_inj_1 in E as [E1 E2]; [|by rewrite !tobits_length].
      apply tobits_inj in E1 as ->; [|done..]. destruct (IH ds' Hds' Hr Hr' E2) as [-> ->]. done.
Qed.

(** A mask of low bits gives a digit. *)
Lemma land_digit v w : 0 <= Z.land v (Z.ones (Z.of_nat w)) < 2 ^ Z.of_nat w.
Proof. rewrite Z.land_ones by lia. apply Z.mod_pos_bound. lia. Qed.

(** Taking [w] bits out of a register of [w + b] bits. *)
Lemma tobits_take w b v :
  tobits (w + b) v = tobits w (Z.land (Z.shiftr v (Z.of_nat b)) (Z.ones (Z.of_nat w))) ++ tobits b v.
Proof. rewrite tobits_app, tobits_land by lia. done. Qed.

(** to_be_bytes of an n-byte unsigned integer *)
Fixpoint be_bytes (n : nat) (v : Z) : bytes :=
  match n with
  | O => []
  | S k => be_bytes k (v / 256) ++ [v mod 256]
  end.

Lemma be_bytes_length n v : length (be_bytes n v) = n.
Proof. revert v. induction n as [|n IH]; intros v; simpl; [done|]. rewrite length_app, IH. simpl. lia. Qed.

(** ** Byte strings combined byte by byte *)

(** for i in .. { t[i] ^= u[i] } on arrays of one length. *)
Definition xor_bytes (t u : bytes) : bytes := zip_with Z.lxor t u.

Lemma xor_bytes_length t u : length t = length u -> length (xor_bytes t u) = length t.
Proof. intros E. unfold xor_bytes. rewrite length_zip_with. lia. Qed.

(** The accumulated difference [diff |= a ^ b] of the constant-time comparisons. *)
Definition ct_diff (a b : bytes) : Z := fold_left Z.lor (zip_with Z.lxor a b) 0.
Definition ct_eq (a b : bytes) : bool := if (length a =? length b)%nat then ct_diff a b =? 0 else false.

Lemma fold_lor_zero l acc : fold_left Z.lor l acc = 0 <-> acc = 0 /\ Forall (eq 0) l.
Proof.
  revert acc. induction l as [|x l IH]; intros acc; simpl.
  - split; [intros ->; split; [done|constructor] | naive_solver].
  - rewrite IH, Z.lor_eq_0_iff, Forall_cons. naive_solver.
Qed.

(** The loop without an early exit decides equality. *)
Lemma ct_eq_iff a b : ct_eq a b = true <-> a = b.
Proof.
  unfold ct_eq. destruct (Nat.eqb_spec (length a) (length b)) as [E|E].
  - rewrite Z.eqb_eq. unfold ct_diff. rewrite fold_lor_zero. split.
    + intros [_ F]. revert b E F. induction a as [|x a IH]; intros [|y b] E F; try done.
      simpl in *. apply Forall_cons in F as [Fx F]. symmetry in Fx. apply Z.lxor_eq in Fx as ->.
      f_equal. apply IH; [lia|done].
    + intros ->. split; [done|]. clear E. induction b as [|y b IH]; simpl; [constructor|].
      constructor; [by rewrite Z.lxor_nilpotent | done].
  - split; [done|]. by intros ->.
Qed.
