(* ===== verification/Validation.v ===== *)
(** * Validation: passwords, file names and e-mail addresses

    backend/crates/common/src/auth/validation.rs.  Lengths are byte lengths, as
    in the code. *)

From S2P Require Import Prelude Text Effects.

Module Validation.
Section Validation.
Context {U : Unicode}.

Definition invalid {A} (m : string) : outcome A := Err (Validation (lit m)).

Definition validate_password (password : rstr) : outcome unit :=
  if str_len password <? 8 then invalid "Password must be at least 8 characters"
  else if 128 <? str_len password then invalid "Password must be at most 128 characters"
  else if negb (existsb is_uppercase password)
  then invalid "Password must contain at least one uppercase letter"
  else if negb (existsb is_lowercase password)
  then invalid "Password must contain at least one lowercase letter"
  else if negb (existsb is_ascii_digit password)
  then invalid "Password must contain at least one digit"
  else Ok tt.

Definition sanitize_filename (name : rstr) : outcome rstr :=
  let trimmed := trim name in
  if negb (nonempty trimmed) then invalid "Name cannot be empty"
  else if 255 <? str_len trimmed then invalid "Name cannot exceed 255 characters"
  else if contains_char 0 trimmed then invalid "Name cannot contain null bytes"
  else if contains_str (lit "..") trimmed || contains_char (chr "/") trimmed
          || contains_char (chr "\") trimmed
  then invalid "Name cannot contain path separators or '..'"
  else if bool_decide (trimmed = lit ".") || bool_decide (trimmed = lit "..")
  then invalid "Invalid name"
  else if existsb is_control trimmed then invalid "Name cannot contain control characters"
  else Ok trimmed.

Definition validate_email (email : rstr) : outcome unit :=
  let trimmed := trim email in
  if (str_len trimmed <? 5) || (254 <? str_len trimmed) then invalid "Invalid email address"
  else if negb (Nat.eqb (length (List.filter (Z.eqb (chr "@")) trimmed)) 1)
  then invalid "Invalid email address"
  else
    match split_char (chr "@") trimmed with
    | p0 :: p1 :: _ =>
        if negb (nonempty p0) || negb (nonempty p1) || negb (contains_char (chr ".") p1)
        then invalid "Invalid email address"
        else Ok tt
    | _ => Panic
    end.

(** ** Specifications *)

Definition strong_password (p : rstr) : Prop :=
  8 <= str_len p <= 128
  /\ (exists c, c ∈ p /\ is_uppercase c = true)
  /\ (exists c, c ∈ p /\ is_lowercase c = true)
  /\ (exists c, c ∈ p /\ is_ascii_digit c = true).

(** A name that is one component of a path and nothing else. *)
Definition safe_name (n : rstr) : Prop :=
  n <> [] /\ str_len n <= 255 /\ trim n = n /\ n <> lit "." /\ n <> lit ".."
  /\ chr "/" ∉ n /\ chr "\" ∉ n /\ ~ (exists a b, n = a ++ lit ".." ++ b)
  /\ Forall (fun c => is_control c = false) n.

(** ** Lemmas *)

Lemma existsb_elem (p : Z -> bool) (s : rstr) : existsb p s = true <-> exists c, c ∈ s /\ p c = true.
Proof. rewrite existsb_exists. by setoid_rewrite list_elem_of_In. Qed.

Lemma existsb_none (p : Z -> bool) (s : rstr) :
  existsb p s = false <-> Forall (fun c => p c = false) s.
Proof.
  rewrite <- not_true_iff_false, existsb_elem, Forall_forall. split.
  - intros H c Hc. destruct (p c) eqn:E; [|done]. exfalso. apply H. by exists c.
  - intros H (c & Hc & E). by rewrite (H c Hc) in E.
Qed.

Lemma filter_at_split s :
  length (List.filter (Z.eqb (chr "@")) s) = 1%nat <->
  exists a b, s = a ++ chr "@" :: b /\ chr "@" ∉ a /\ chr "@" ∉ b.
Proof.
  assert (NA : forall s, length (List.filter (Z.eqb (chr "@")) s) = 0%nat <-> chr "@" ∉ s).
  { clear s. induction s as [|c s IH]; cbn [List.filter]; [split; [intros _; apply not_elem_of_nil|done]|].
    rewrite not_elem_of_cons. destruct (Z.eqb_spec (chr "@") c); cbn [length]; [naive_solver|].
    rewrite IH. naive_solver. }
  split.
  - induction s as [|c s IH]; cbn [List.filter]; [done|].
    destruct (Z.eqb_spec (chr "@") c) as [<-|Hc]; cbn [length].
    + intros [= H]. exists [], s. split; [done|]. split; [apply not_elem_of_nil|by apply NA].
    + intros H. destruct (IH H) as (a & b & -> & Ha & Hb). exists (c :: a), b.
      split; [done|]. split; [|done]. apply not_elem_of_cons. split; [congruence|done].
  - intros (a & b & -> & Ha & Hb). rewrite List.filter_app, length_app. cbn [List.filter].
    rewrite Z.eqb_refl. cbn [length].
    rewrite (proj2 (NA a) Ha), (proj2 (NA b) Hb). done.
Qed.

Lemma nonempty_iff {A} (l : list A) : nonempty l = true <-> l <> [].
Proof. destruct l; naive_solver. Qed.

(** ** Properties *)

(** a password is accepted exactly when it has 8 to 128 bytes, an upper
    case letter, a lower case letter and an ASCII digit. *)
Theorem validate_password_iff p : validate_password p = Ok tt <-> strong_password p.
Proof.
  unfold validate_password, strong_password, invalid. rewrite <- !existsb_elem.
  destruct (existsb is_uppercase p), (existsb is_lowercase p), (existsb is_ascii_digit p);
    destruct (Z.ltb_spec (str_len p) 8), (Z.ltb_spec 128 (str_len p)); simpl;
    split; try done; try lia; try (intros (? & ? & ? & ?); congruence || lia);
    intros _; repeat split; done || lia.
Qed.

(** an accepted file name is the trimmed input and a safe path component;
    every safe name is accepted unchanged, so sanitizing is idempotent. *)
Theorem sanitize_filename_safe name out :
  sanitize_filename name = Ok out <-> out = trim name /\ safe_name out.
Proof.
  unfold sanitize_filename, safe_name, invalid. split.
  - destruct (nonempty (trim name)) eqn:E1; [|done]. cbn [negb].
    destruct (255 <? str_len (trim name)) eqn:E2; [done|].
    destruct (contains_char 0 (trim name)) eqn:E3; [done|].
    destruct (contains_str (lit "..") (trim name)) eqn:E4; [done|].
    destruct (contains_char (chr "/") (trim name)) eqn:E5; [done|].
    destruct (contains_char (chr "\") (trim name)) eqn:E6; [done|]. cbn [orb].
    destruct (bool_decide (trim name = lit ".")) eqn:E7; [done|].
    destruct (bool_decide (trim name = lit "..")) eqn:E8; [done|]. cbn [orb].
    destruct (existsb is_control (trim name)) eqn:E9; [done|].
    intros [= <-]. boolify. apply nonempty_iff in E1. apply contains_char_false in E5, E6.
    apply existsb_none in E9. split; [done|].
    repeat split; try done; [apply trim_idemp|]. rewrite <- contains_str_iff. congruence.
  - intros (-> & H1 & H2 & H3 & H4 & H5 & H6 & H7 & H8 & H9).
    apply nonempty_iff in H1. rewrite H1. cbn [negb].
    rewrite (proj2 (Z.ltb_ge _ _) H2). rewrite <- contains_str_iff in H8.
    apply not_true_is_false in H8. apply contains_char_false in H6, H7. rewrite H8, H6, H7.
    rewrite !bool_decide_eq_false_2 by done. rewrite (proj2 (existsb_none _ _) H9). cbn [orb].
    destruct (contains_char 0 (trim name)) eqn:E; [|done].
    apply contains_char_iff in E. rewrite Forall_forall in H9. by specialize (H9 _ E).
Qed.

(** an address is accepted exactly when, trimmed, it is [local@domain] with
    5 to 254 bytes, both parts non-empty, no further [@], and a dot in the
    domain; the indexing of the two parts never panics. *)
Theorem validate_email_iff email :
  (validate_email email = Ok tt <->
    5 <= str_len (trim email) <= 254 /\
    exists a b, trim email = a ++ chr "@" :: b /\ chr "@" ∉ a /\ chr "@" ∉ b
      /\ a <> [] /\ b <> [] /\ chr "." ∈ b)
  /\ validate_email email <> Panic.
Proof.
  unfold validate_email, invalid. set (t := trim email).
  destruct ((str_len t <? 5) || (254 <? str_len t)) eqn:E1; [split; [split; [done|lia]|done]|].
  destruct (Nat.eqb_spec (length (List.filter (Z.eqb (chr "@")) t)) 1) as [E2|E2]; cbn [negb].
  - apply filter_at_split in E2 as (a & b & Et & Ha & Hb).
    assert (split_char (chr "@") t = [a; b]) as ->.
    { rewrite Et, split_char_app by done. by rewrite split_char_last. }
    destruct (nonempty a && nonempty b && contains_char (chr ".") b) eqn:E3.
    + apply andb_true_iff in E3 as [E3 E5]. apply andb_true_iff in E3 as [E3 E4].
      rewrite E3, E4, E5. cbn [negb orb]. split; [|done]. split; [|done]. intros _. split; [lia|].
      exists a, b. repeat split; try done; [by apply nonempty_iff..|by apply contains_char_iff].
    + assert (negb (nonempty a) || negb (nonempty b) || negb (contains_char (chr ".") b) = true) as ->.
      { destruct (nonempty a), (nonempty b), (contains_char _ b); done. }
      split; [|done]. split; [done|]. intros (_ & a' & b' & Et' & Ha' & Hb' & Na & Nb & D).
      assert (E : split_char (chr "@") t = [a'; b'] /\ split_char (chr "@") t = [a; b]).
      { split; [rewrite Et', split_char_app by done | rewrite Et, split_char_app by done];
          by rewrite split_char_last. }
      destruct E as [Ex Ey]. rewrite Ex in Ey. injection Ey as -> ->.
      apply nonempty_iff in Na, Nb. apply contains_char_iff in D. rewrite Na, Nb, D in E3. discriminate E3.
  - split; [|done]. split; [done|]. intros (_ & a & b & Et & Ha & Hb & _).
    destruct E2. apply filter_at_split. by exists a, b.
Qed.
End Validation.
End Validation.
