(* ===== verification/Password.v ===== *)
(** * Password: hashing and verification of passwords

    backend/crates/common/src/auth/password.rs: Argon2id hashes are delegated to
    the crate; PBKDF2-HMAC-SHA256 hashes are parsed, derived and compared by the
    code itself. *)

From S2P Require Import Prelude Text Externals Bits.

Module Password.
Section Password.
Context {S2 : Sha256} {HX : Hex} {AR : Argon2}.

(** The salt comes from the operating system. *)
Definition hash_password (password : rstr) (salt : Z) : rstr + rstr :=
  argon2_hash (as_bytes password) salt.

Definition hmac_sha256 (key data : bytes) : bytes :=
  let k := if (64 <? length key)%nat
           then sha256 key ++ replicate 32 0
           else key ++ replicate (64 - length key) 0 in
  let ipad := xor_bytes (replicate 64 0x36) k in
  let opad := xor_bytes (replicate 64 0x5c) k in
  sha256 (opad ++ sha256 (ipad ++ data)).

(** The body of [for _ in 1..iterations], run [n] times. *)
Fixpoint inner_loop (password : bytes) (n : nat) (u t : bytes) : bytes :=
  match n with
  | O => t
  | S n' => let u := hmac_sha256 password u in inner_loop password n' u (xor_bytes t u)
  end.

Definition pbkdf2_block (password salt : bytes) (iterations block_index : Z) : bytes :=
  let u := hmac_sha256 password (salt ++ be_bytes 4 block_index) in
  inner_loop password (Z.to_nat (iterations - 1)) u u.

(** [while out.len() < key_len]: every turn adds at least one byte, so
    [key_len] turns are enough. *)
Fixpoint pbkdf2_loop (fuel : nat) (password salt : bytes) (iterations : Z) (key_len : nat)
    (out : bytes) (block_index : Z) : option bytes :=
  if (length out <? key_len)%nat then
    match fuel with
    | O => None
    | S f =>
        let t := pbkdf2_block password salt iterations block_index in
        let needed := Nat.min (key_len - length out) 32 in
        pbkdf2_loop f password salt iterations key_len (out ++ take needed t) (wrap_u32 (block_index + 1))
    end
  else Some out.

Definition pbkdf2_hmac_sha256 (password salt : bytes) (iterations : Z) (key_len : nat) : option bytes :=
  pbkdf2_loop key_len password salt iterations key_len [] 1.

Definition verify_pbkdf2 (password stored_hash : rstr) : bool :=
  match split_char (chr "$") stored_hash with
  | [p0; p1; p2; p3] =>
      if bool_decide (p0 = lit "pbkdf2") then
        match parse_uint 10 u32_max p1, hex_decode p2, hex_decode p3 with
        | Some iterations, Some salt, Some expected_hash =>
            match pbkdf2_hmac_sha256 (as_bytes password) salt iterations (length expected_hash) with
            | Some derived => ct_eq derived expected_hash
            | None => false
            end
        | _, _, _ => false
        end
      else false
  | _ => false
  end.

Definition verify_password (password hash : rstr) : rstr + bool :=
  if starts_with (lit "pbkdf2$") hash then inr (verify_pbkdf2 password hash)
  else
    match phc_error hash with
    | Some e => inl (lit "Invalid password hash: " ++ e)
    | None => inr (argon2_verify (as_bytes password) hash)
    end.

(** ** Reference: PBKDF2 as RFC 8018 writes it *)

(** U_{j+1} of block [i], the xor T_i of U_1 .. U_c, and the derived key. *)
Definition rfc_U (password salt : bytes) (i : Z) (j : nat) : bytes :=
  Nat.iter j (hmac_sha256 password) (hmac_sha256 password (salt ++ be_bytes 4 i)).

Definition rfc_T (password salt : bytes) (c i : Z) : bytes :=
  fold_left xor_bytes (map (rfc_U password salt i) (seq 1 (Z.to_nat (c - 1)))) (rfc_U password salt i 0).

Definition rfc_pbkdf2 (password salt : bytes) (c : Z) (dk_len : nat) : bytes :=
  take dk_len (concat (map (fun k => rfc_T password salt c (Z.of_nat k)) (seq 1 ((dk_len + 31) / 32)))).

(** ** Lemmas *)

Lemma hmac_length key data : length (hmac_sha256 key data) = 32%nat.
Proof. apply sha256_length. Qed.

Lemma inner_loop_length password n u t :
  length t = 32%nat -> length (inner_loop password n u t) = 32%nat.
Proof.
  revert u t. induction n as [|n IH]; intros u t Ht; cbn [inner_loop]; [done|].
  apply IH. rewrite xor_bytes_length; [done|]. by rewrite hmac_length.
Qed.

Lemma pbkdf2_block_length password salt it i : length (pbkdf2_block password salt it i) = 32%nat.
Proof. apply inner_loop_length, hmac_length. Qed.

Lemma inner_loop_fold password n x k t :
  inner_loop password n (Nat.iter k (hmac_sha256 password) x) t =
  fold_left xor_bytes (map (fun j => Nat.iter j (hmac_sha256 password) x) (seq (S k) n)) t.
Proof.
  revert k t. induction n as [|n IH]; intros k t; cbn [inner_loop seq map fold_left]; [done|].
  apply (IH (S k)).
Qed.

Lemma pbkdf2_block_rfc password salt it i : pbkdf2_block password salt it i = rfc_T password salt it i.
Proof. apply (inner_loop_fold password _ _ 0). Qed.

(** From [m] full blocks the loop appends the blocks still missing. *)
Lemma pbkdf2_loop_spec fuel password salt it n m :
  (n <= fuel + 32 * m)%nat -> Z.of_nat n < 2 ^ 32 ->
  let blocks a b := concat (map (fun k => rfc_T password salt it (Z.of_nat k)) (seq a b)) in
  (32 * m < n)%nat \/ (32 * (m - 1) < n)%nat \/ m = O ->
  pbkdf2_loop fuel password salt it n (take n (blocks 1%nat m)) (Z.of_nat m + 1)
  = Some (rfc_pbkdf2 password salt it n).
Proof.
  intros Hf Hn blocks.
  assert (BL : forall a b, length (blocks a b) = (32 * b)%nat).
  { intros a b. unfold blocks. revert a. induction b as [|b IH]; intros a; simpl; [lia|].
    rewrite length_app, IH, <- pbkdf2_block_rfc, pbkdf2_block_length. lia. }
  revert m Hf. induction fuel as [|f IH]; intros m Hf Hm.
  - assert ((length (take n (blocks 1%nat m)) <? n)%nat = false) as E.
    { apply Nat.ltb_ge. rewrite length_take, BL. lia. }
    unfold pbkdf2_loop. rewrite E. f_equal. unfold rfc_pbkdf2.
    assert (((n + 31) / 32)%nat = m) as ->; [|done].
    apply Nat2Z.inj. rewrite Nat2Z.inj_div. symmetry.
    apply (Z.div_unique _ _ _ (Z.of_nat n + 31 - 32 * Z.of_nat m)); lia.
  - destruct (Nat.ltb_spec (32 * m) n) as [Hlt|Hge].
    + cbn [pbkdf2_loop].
      assert ((length (take n (blocks 1%nat m)) <? n)%nat = true) as ->.
      { apply Nat.ltb_lt. rewrite length_take, BL. lia. }
      replace (length (take n (blocks 1%nat m))) with (32 * m)%nat
        by (rewrite length_take, BL; lia).
      replace (wrap_u32 (Z.of_nat m + 1 + 1)) with (Z.of_nat (S m) + 1)
        by (unfold wrap_u32; rewrite Z.mod_small; lia).
      replace (take n (blocks 1%nat m) ++ _) with (take n (blocks 1%nat (S m))).
      { apply IH; lia. }
      unfold blocks at 1. rewrite seq_S, map_app, concat_app. cbn [map concat].
      rewrite app_nil_r, take_app. fold (blocks 1%nat m). rewrite BL. f_equal.
      rewrite pbkdf2_block_rfc. replace (Z.of_nat (1 + m)) with (Z.of_nat m + 1) by lia.
      destruct (Nat.le_gt_cases (n - 32 * m) 32); [by rewrite Nat.min_l by lia|].
      rewrite Nat.min_r by lia. rewrite !take_ge; [done| |];
        rewrite <- pbkdf2_block_rfc, pbkdf2_block_length; lia.
    + assert ((length (take n (blocks 1%nat m)) <? n)%nat = false) as E.
      { apply Nat.ltb_ge. rewrite length_take, BL. lia. }
      cbn [pbkdf2_loop]. rewrite E. f_equal. unfold rfc_pbkdf2.
      assert (((n + 31) / 32)%nat = m) as ->; [|done].
      apply Nat2Z.inj. rewrite Nat2Z.inj_div. symmetry.
      apply (Z.div_unique _ _ _ (Z.of_nat n + 31 - 32 * Z.of_nat m)); lia.
Qed.

Lemma pbkdf2_total password salt it n :
  Z.of_nat n < 2 ^ 32 ->
  pbkdf2_hmac_sha256 password salt it n = Some (rfc_pbkdf2 password salt it n).
Proof.
  intros Hn. unfold pbkdf2_hmac_sha256.
  pose proof (pbkdf2_loop_spec n password salt it n 0 ltac:(lia) Hn) as H. simpl in H.
  rewrite take_nil in H. apply H. by right; right.
Qed.

Lemma rfc_pbkdf2_length password salt it n : length (rfc_pbkdf2 password salt it n) = n.
Proof.
  unfold rfc_pbkdf2. rewrite length_take.
  assert (BL : forall a b, length (concat (map (fun k => rfc_T password salt it (Z.of_nat k)) (seq a b))) = (32 * b)%nat).
  { intros a b. revert a. induction b as [|b IH]; intros a; simpl; [lia|].
    rewrite length_app, IH, <- pbkdf2_block_rfc, pbkdf2_block_length. lia. }
  rewrite BL. pose proof (Nat.div_mod_eq (n + 31) 32).
  pose proof (Nat.mod_upper_bound (n + 31) 32). lia.
Qed.

(** The stored form of a PBKDF2 hash. *)
Definition pbkdf2_stored (it : Z) (salt hash : bytes) : rstr :=
  lit "pbkdf2$" ++ show_uint it ++ [chr "$"] ++ hex_encode salt ++ [chr "$"] ++ hex_encode hash.

Lemma no_dollar s : Forall (fun c => uuid_char c = true /\ c <> chr "-") s -> chr "$" ∉ s.
Proof. intros H Hin. rewrite Forall_forall in H. by destruct (H _ Hin). Qed.

Lemma digits_no_dollar s : digit_str s -> chr "$" ∉ s.
Proof. intros H Hin. unfold digit_str in H. rewrite Forall_forall in H. by specialize (H _ Hin). Qed.

Lemma stored_split it salt hash :
  0 <= it -> are_bytes salt -> are_bytes hash ->
  split_char (chr "$") (pbkdf2_stored it salt hash) =
    [lit "pbkdf2"; show_uint it; hex_encode salt; hex_encode hash].
Proof.
  intros Hi Hs Hh. unfold pbkdf2_stored. change (lit "pbkdf2$") with (lit "pbkdf2" ++ [chr "$"]).
  rewrite <- app_assoc. cbn [app]. rewrite split_char_app.
  - rewrite split_char_app by (apply digits_no_dollar, show_uint_spec; done).
    rewrite split_char_app by (apply no_dollar; by apply hex_encode_chars).
    by rewrite split_char_last by (apply no_dollar; by apply hex_encode_chars).
  - cbn. set_solver by lia.
Qed.

(** ** Properties *)

(** the derived key is the key of RFC 8018, of the requested length, for
    every length below 2^32; the loop ends. *)
Theorem pbkdf2_is_rfc password salt it n :
  Z.of_nat n < 2 ^ 32 ->
  pbkdf2_hmac_sha256 password salt it n = Some (rfc_pbkdf2 password salt it n)
  /\ length (rfc_pbkdf2 password salt it n) = n.
Proof. intros Hn. split; [by apply pbkdf2_total | apply rfc_pbkdf2_length]. Qed.

(** a password is accepted against a stored PBKDF2 hash exactly when the
    key derived from it is the stored one. *)
Theorem verify_password_pbkdf2 password it salt hash :
  0 <= it <= u32_max -> are_bytes salt -> are_bytes hash -> Z.of_nat (length hash) < 2 ^ 32 ->
  verify_password password (pbkdf2_stored it salt hash)
  = inr (bool_decide (rfc_pbkdf2 (as_bytes password) salt it (length hash) = hash)).
Proof.
  intros Hi Hs Hh Hl. unfold verify_password.
  unfold pbkdf2_stored at 1. rewrite starts_with_app.
  unfold verify_pbkdf2. rewrite stored_split by (done || lia).
  rewrite bool_decide_eq_true_2 by done.
  rewrite parse_show_uint, !hex_decode_encode, pbkdf2_total by done. f_equal.
  apply eq_true_iff_eq. by rewrite ct_eq_iff, bool_decide_eq_true.
Qed.

(** a stored hash with an empty key accepts every password. *)
Theorem empty_pbkdf2_hash_accepts_all password :
  verify_password password (lit "pbkdf2$1$$") = inr true.
Proof.
  unfold verify_password. change (starts_with _ _) with true. cbn beta iota.
  unfold verify_pbkdf2.
  change (split_char (chr "$") (lit "pbkdf2$1$$")) with [lit "pbkdf2"; lit "1"; []; []].
  cbn beta iota. rewrite bool_decide_eq_true_2 by done.
  change (parse_uint 10 u32_max (lit "1")) with (Some 1). rewrite !hex_decode_nil. done.
Qed.

(** a freshly hashed password verifies against its hash. *)
Theorem hash_then_verify password salt h :
  hash_password password salt = inr h -> verify_password password h = inr true.
Proof.
  intros H. apply argon2_verify_hash in H as (P & V & N).
  unfold verify_password. by rewrite N, P, V.
Qed.
End Password.

Lemma pbkdf2_witness :
  pbkdf2_hmac_sha256 (S2 := toy_sha256) [1; 2] [3] 2 40
  = Some (rfc_pbkdf2 (S2 := toy_sha256) [1; 2] [3] 2 40)
  /\ length (rfc_pbkdf2 (S2 := toy_sha256) [1; 2] [3] 2 40) = 40%nat.
Proof. apply (pbkdf2_is_rfc (S2 := toy_sha256) [1; 2] [3] 2 40). reflexivity. Defined.

Lemma verify_pbkdf2_witness :
  verify_password (S2 := toy_sha256) (HX := plain_hex) (AR := toy_argon2) (lit "pw")
    (pbkdf2_stored (HX := plain_hex) 3 [7; 9]
       (rfc_pbkdf2 (S2 := toy_sha256) (as_bytes (lit "pw")) [7; 9] 3 16)) = inr true.
Proof.
  rewrite (verify_password_pbkdf2 (S2 := toy_sha256) (HX := plain_hex) (AR := toy_argon2)).
  - vm_compute. reflexivity.
  - vm_compute. split; discriminate.
  - repeat constructor; vm_compute; congruence.
  - vm_compute. repeat constructor; discriminate.
  - vm_compute. reflexivity.
Defined.

Lemma hash_then_verify_witness :
  verify_password (S2 := toy_sha256) (HX := plain_hex) (AR := toy_argon2) (lit "pw")
    (lit "$argon2id$" ++ plain_hex_encode (as_bytes (lit "pw"))) = inr true.
Proof.
  apply (hash_then_verify (S2 := toy_sha256) (HX := plain_hex) (AR := toy_argon2) (lit "pw") 0).
  reflexivity.
Defined.
End Password.
