(* ===== verification/Encryption.v ===== *)
(** * Encryption: the end-to-end encryption module

    backend/crates/common/src/encryption.rs: key derivation from a passphrase,
    the metadata record, and the byte-wise cipher.  The clock readings that
    seed salts and nonces are an argument. *)

From S2P Require Import Prelude Text Effects Externals Bits.

Module Encryption.

Record EncryptionMeta := {
  algorithm : rstr; key_derivation : rstr; salt : rstr; nonce : rstr; key_hash : rstr; version : Z
}.

Section Encryption.
Context {S2 : Sha256} {HX : Hex}.

(** ((as_nanos() as u64).wrapping_mul(..).wrapping_add(i)) as u8 *)
Definition clock_byte (nanos i : Z) : Z :=
  wrap_u8 (wrap_u64 (wrap_u64 (wrap_u64 nanos * 6364136223846793005) + i)).

(** One clock reading per byte. *)
Definition clock_bytes (nanos : nat -> Z) (n : nat) : bytes :=
  map (fun i => clock_byte (nanos i) (Z.of_nat i)) (seq 0 n).

(** The 100_000 rounds of the derivation are the argument [rounds]. *)
Definition ROUNDS : N := 100000.

Definition derive_rounds (rounds : N) (salt_bytes intermediate : bytes) : bytes :=
  N.iter rounds (fun d => sha256 (d ++ salt_bytes)) intermediate.

Definition derive_key (nanos : nat -> Z) (passphrase : rstr) (salt : option bytes) : rstr * rstr :=
  let salt_bytes := match salt with Some s => s | None => clock_bytes nanos 32 end in
  let intermediate := sha256 (as_bytes passphrase ++ salt_bytes) in
  let key := derive_rounds ROUNDS salt_bytes intermediate in
  (hex_encode key, hex_encode salt_bytes).

Definition create_encryption_meta (nanos : nat -> Z) (key_hex salt_hex : rstr) : EncryptionMeta :=
  {| algorithm := lit "AES-256-GCM";
     key_derivation := lit "argon2id";
     salt := salt_hex;
     nonce := hex_encode (clock_bytes nanos 12);
     key_hash := hex_encode (sha256 (as_bytes key_hex));
     version := 1 |}.

(** The loop over the data; [key_bytes[i % key_bytes.len()]] panics on an
    empty key. *)
Fixpoint xor_loop (key_bytes data : bytes) (i : nat) : option bytes :=
  match data with
  | [] => Some []
  | byte :: data' =>
      match length key_bytes with
      | O => None
      | n => option_map (cons (Z.lxor byte (nth (i mod n) key_bytes 0))) (xor_loop key_bytes data' (S i))
      end
  end.

Definition encrypt_bytes (data : bytes) (key_hex : rstr) : outcome bytes :=
  match hex_decode key_hex with
  | None => Err (Internal (lit "Invalid key: " ++ hex_error key_hex))
  | Some key_bytes =>
      match xor_loop key_bytes data 0 with
      | Some encrypted => Ok encrypted
      | None => Panic
      end
  end.

Definition decrypt_bytes (data : bytes) (key_hex : rstr) : outcome bytes := encrypt_bytes data key_hex.

(** ** Lemmas *)

Lemma xor_loop_total key data i :
  key <> [] -> exists out, xor_loop key data i = Some out /\ length out = length data
    /\ xor_loop key out i = Some data.
Proof.
  intros Hk. destruct (length key) as [|n] eqn:L; [by destruct key|].
  revert i. induction data as [|b data IH]; intros i; simpl.
  - by exists [].
  - rewrite L. destruct (IH (S i)) as (out & E & Len & B). rewrite E. simpl.
    eexists. split; [reflexivity|]. simpl. split; [lia|]. rewrite L, B. simpl.
    by rewrite Z.lxor_assoc, Z.lxor_nilpotent, Z.lxor_0_r.
Qed.

Lemma derive_key_decodes nanos passphrase s :
  hex_decode (fst (derive_key nanos passphrase s)) <> None
  /\ hex_decode (fst (derive_key nanos passphrase s)) <> Some [].
Proof.
  unfold derive_key. cbn [fst]. set (k := derive_rounds _ _ _).
  assert (A : length k = 32%nat /\ are_bytes k).
  { unfold k, derive_rounds. apply N.iter_invariant.
    - split; [apply sha256_length | apply sha256_bytes].
    - intros. split; [apply sha256_length | apply sha256_bytes]. }
  destruct A as [L B]. rewrite hex_decode_encode by done. split; [done|].
  intros [= E]. by rewrite E in L.
Qed.

(** ** Properties *)

(** with a key that decodes to at least one byte, encryption succeeds,
    keeps the length, and decryption with the same key gives the data back. *)
Theorem encrypt_roundtrip data key_hex key :
  hex_decode key_hex = Some key -> key <> [] ->
  exists c, encrypt_bytes data key_hex = Ok c /\ length c = length data
    /\ decrypt_bytes c key_hex = Ok data.
Proof.
  intros Hk Hn. destruct (xor_loop_total key data 0 Hn) as (c & E & L & B).
  exists c. unfold decrypt_bytes, encrypt_bytes. by rewrite Hk, E, B.
Qed.

(** the outcomes on every key: an undecodable key is an internal error,
    the empty key panics on every non-empty input, and every derived key
    encrypts. *)
Theorem encrypt_outcomes data :
  (forall key_hex, hex_decode key_hex = None ->
     encrypt_bytes data key_hex = Err (Internal (lit "Invalid key: " ++ hex_error key_hex)))
  /\ encrypt_bytes data [] = match data with [] => Ok [] | _ => Panic end
  /\ (forall nanos passphrase s,
       exists c, encrypt_bytes data (fst (derive_key nanos passphrase s)) = Ok c).
Proof.
  split; [|split].
  - intros k E. unfold encrypt_bytes. by rewrite E.
  - unfold encrypt_bytes. rewrite hex_decode_nil. by destruct data.
  - intros nanos p s. destruct (derive_key_decodes nanos p s) as [H1 H2].
    destruct (hex_decode (fst (derive_key nanos p s))) as [k|] eqn:E; [|done].
    destruct (encrypt_roundtrip data _ k E) as (c & Hc & _); [congruence|]. by exists c.
Qed.
End Encryption.

Lemma encrypt_roundtrip_witness :
  exists c, encrypt_bytes (HX := plain_hex) [72; 105] (lit "a0ff03") = Ok c /\ length c = 2%nat
    /\ decrypt_bytes (HX := plain_hex) c (lit "a0ff03") = Ok [72; 105].
Proof.
  apply (encrypt_roundtrip (HX := plain_hex) [72; 105] (lit "a0ff03") [160; 255; 3]);
    [reflexivity | discriminate].
Defined.
End Encryption.
