(* ===== verification/Totp.v ===== *)
(** * Totp: time-based one-time passwords

    The pure part of backend/crates/auth/src/mfa.rs: the base32 codec of the
    secrets, HMAC-SHA1, the six-digit code of a 30-second step, and the check
    of a code against the current step and its neighbours.  The handlers that
    store the secret are in [Auth]. *)

From S2P Require Import Prelude Text Externals Bits.

Module Totp.

Definition ALPHABET : rstr := lit "ABCDEFGHIJKLMNOPQRSTUVWXYZ234567".

Definition symbol (idx : Z) : Z := nth (Z.to_nat idx) ALPHABET 0.

(** iter().position *)
Fixpoint position (c : Z) (l : rstr) : option Z :=
  match l with
  | [] => None
  | d :: r => if d =? c then Some 0 else option_map Z.succ (position c r)
  end.

(** The inner [while bits >= 5]; [fuel] is the number of bits. *)
Fixpoint emit5 (fuel : nat) (buffer bits : Z) : rstr * Z :=
  match fuel with
  | O => ([], bits)
  | S f =>
      if 5 <=? bits then
        let bits := bits - 5 in
        let idx := Z.land (Z.shiftr buffer bits) 0x1f in
        let (out, bits) := emit5 f buffer bits in (symbol idx :: out, bits)
      else ([], bits)
  end.

Fixpoint encode_loop (data : bytes) (buffer bits : Z) : rstr :=
  match data with
  | byte :: data' =>
      let buffer := Z.lor (wrap_u64 (Z.shiftl buffer 8)) byte in
      let bits := bits + 8 in
      let (out, bits) := emit5 (Z.to_nat bits) buffer bits in
      out ++ encode_loop data' buffer bits
  | [] =>
      if 0 <? bits
      then [symbol (Z.land (wrap_u64 (Z.shiftl buffer (5 - bits))) 0x1f)]
      else []
  end.

Definition base32_encode (data : bytes) : rstr := encode_loop data 0 0.

Fixpoint decode_loop (s : rstr) (buffer bits : Z) : option bytes :=
  match s with
  | [] => Some []
  | c :: s' =>
      match position (wrap_u8 (to_ascii_uppercase c)) ALPHABET with
      | None => None
      | Some val =>
          let buffer := Z.lor (wrap_u64 (Z.shiftl buffer 5)) val in
          let bits := bits + 5 in
          if 8 <=? bits then
            let bits := bits - 8 in
            option_map (cons (wrap_u8 (Z.shiftr buffer bits))) (decode_loop s' buffer bits)
          else decode_loop s' buffer bits
      end
  end.

Definition base32_decode (s : rstr) : option bytes := decode_loop s 0 0.

(** generate_totp_secret, the 20 random bytes given. *)
Definition generate_totp_secret (random : bytes) : rstr := base32_encode random.

Section Hmac.
Context {H1 : Sha1}.

Definition hmac_sha1 (key msg : bytes) : bytes :=
  let k := if (64 <? length key)%nat
           then sha1 key ++ replicate 44 0
           else key ++ replicate (64 - length key) 0 in
  let ipad := map (fun b => Z.lxor b 0x36) k in
  let opad := map (fun b => Z.lxor b 0x5c) k in
  sha1 (opad ++ sha1 (ipad ++ msg)).

Definition byte_of (h : bytes) (i : Z) : Z := nth (Z.to_nat i) h 0.

Definition truncate (h : bytes) : Z :=
  let offset := Z.land (byte_of h 19) 0x0f in
  Z.lor (Z.lor (Z.lor (Z.shiftl (Z.land (byte_of h offset) 0x7f) 24)
                      (Z.shiftl (byte_of h (offset + 1)) 16))
               (Z.shiftl (byte_of h (offset + 2)) 8))
        (byte_of h (offset + 3)).

Definition compute_totp (secret_base32 : rstr) (time_step : Z) : option rstr :=
  match base32_decode secret_base32 with
  | None => None
  | Some key =>
      let code := truncate (hmac_sha1 key (be_bytes 8 time_step)) in
      Some (show_padded 6 (code mod 1000000))
  end.

(** SystemTime::now in seconds, divided by the period. *)
Definition current_time_step (now_secs : Z) : Z := now_secs / 30.

Definition verify_totp (now_secs : Z) (secret code : rstr) : bool :=
  let step := current_time_step now_secs in
  existsb (fun offset =>
    match compute_totp secret (wrap_u64 (step + offset)) with
    | Some expected => bool_decide (expected = code)
    | None => false
    end) [0; -1; 1].

(** ** Lemmas *)

Definition index_of (c : Z) : option Z := position (wrap_u8 (to_ascii_uppercase c)) ALPHABET.

Lemma index_symbol v : 0 <= v < 32 -> index_of (symbol v) = Some v.
Proof.
  intros Hv.
  assert (A : forallb (fun i => bool_decide (index_of (symbol (Z.of_nat i)) = Some (Z.of_nat i)))
                (seq 0 32) = true) by (vm_compute; reflexivity).
  rewrite forallb_forall in A. specialize (A (Z.to_nat v)).
  rewrite Z2Nat.id in A by lia. apply (bool_decide_eq_true_1 _), A.
  apply in_seq. lia.
Qed.

Lemma land_1f v : Z.land v 0x1f = Z.land v (Z.ones (Z.of_nat 5)).
Proof. reflexivity. Qed.

(** The characters [emit5] writes are the symbols of the digits it takes. *)
Lemma emit5_spec fuel buffer b :
  (b <= fuel)%nat ->
  exists ds r, emit5 fuel buffer (Z.of_nat b) = (map symbol ds, Z.of_nat r)
    /\ digits 5 ds /\ (r < 5)%nat
    /\ tobits b buffer = digits_bits 5 ds ++ tobits r buffer.
Proof.
  revert b. induction fuel as [|f IH]; intros b Hb; cbn [emit5].
  - exists [], b. repeat split; [constructor|lia].
  - destruct (Z.leb_spec 5 (Z.of_nat b)).
    + replace (Z.of_nat b - 5) with (Z.of_nat (b - 5)) by lia.
      destruct (IH (b - 5)%nat) as (ds & r & -> & D & R & E); [lia|].
      eexists (_ :: ds), r. split; [reflexivity|]. split; [|split; [done|]].
      * constructor; [rewrite land_1f; apply land_digit | done].
      * rewrite digits_bits_cons, <- app_assoc, <- E, land_1f.
        rewrite <- (tobits_take 5 (b - 5)). f_equal. lia.
    + exists [], b. repeat split; [constructor|lia].
Qed.

Lemma encode_loop_spec data buffer b :
  are_bytes data -> (b < 5)%nat ->
  exists ds pad, encode_loop data buffer (Z.of_nat b) = map symbol ds
    /\ digits 5 ds /\ (length pad < 5)%nat
    /\ digits_bits 5 ds = tobits b buffer ++ digits_bits 8 data ++ pad.
Proof.
  intros Hd. revert buffer b. induction Hd as [|x data Hx Hd IH]; intros buffer b Hb; cbn [encode_loop].
  - destruct (Z.ltb_spec 0 (Z.of_nat b)).
    + eexists [_], (replicate (5 - b) false). split; [reflexivity|]. split; [|split].
      * repeat constructor; rewrite land_1f; apply land_digit.
      * rewrite length_replicate. lia.
      * rewrite digits_bits_cons, !digits_bits_nil, app_nil_r, land_1f, tobits_land by done.
        simpl app.
        unfold wrap_u64. rewrite tobits_mod by done.
        replace 5%nat with (b + (5 - b))%nat at 1 by lia.
        replace (Z.shiftl buffer (5 - Z.of_nat b))
          with (Z.lor (Z.shiftl buffer (Z.of_nat (5 - b))) 0)
          by (rewrite Z.lor_0_r; f_equal; lia).
        rewrite tobits_lor, tobits_zero; [done|]. split; [done|]. apply Z.pow_pos_nonneg; lia.
    + exists [], []. replace b with O by lia. repeat split; [constructor | simpl; lia].
  - set (buf := Z.lor _ x). replace (Z.of_nat b + 8) with (Z.of_nat (b + 8)) by lia.
    rewrite Nat2Z.id. destruct (emit5_spec (b + 8) buf (b + 8)) as (ds & r & -> & D & R & E); [done|].
    destruct (IH buf r R) as (ds' & pad & -> & D' & P & E').
    exists (ds ++ ds'), pad. rewrite map_app. split; [done|]. split; [by apply Forall_app|].
    split; [done|]. rewrite digits_bits_app, E', app_assoc, <- E.
    pose proof (tobits_push b 8 64 buffer x Hx ltac:(lia)) as T. change (Z.of_nat 8) with 8 in T.
    unfold buf, wrap_u64. rewrite T.
    by rewrite digits_bits_cons, <- !app_assoc.
Qed.

Lemma decode_loop_spec ds buffer b :
  digits 5 ds -> (b < 8)%nat ->
  exists out r, decode_loop (map symbol ds) buffer (Z.of_nat b) = Some out
    /\ digits 8 out /\ (length r < 8)%nat
    /\ tobits b buffer ++ digits_bits 5 ds = digits_bits 8 out ++ r.
Proof.
  intros Hd. revert buffer b. induction Hd as [|v ds Hv Hd IH]; intros buffer b Hb.
  - exists [], (tobits b buffer). simpl. rewrite tobits_length, app_nil_r.
    repeat split; [constructor|done].
  - cbn [map decode_loop]. fold (index_of (symbol v)). rewrite index_symbol by exact Hv.
    set (buf := Z.lor _ v). replace (Z.of_nat b + 5) with (Z.of_nat (b + 5)) by lia.
    assert (P : tobits b buffer ++ tobits 5 v = tobits (b + 5) buf).
    { symmetry. apply (tobits_push b 5 64 buffer v Hv). lia. }
    rewrite digits_bits_cons, app_assoc, P.
    destruct (Z.leb_spec 8 (Z.of_nat (b + 5))).
    + replace (Z.of_nat (b + 5) - 8) with (Z.of_nat (b + 5 - 8)) by lia.
      destruct (IH buf (b + 5 - 8)%nat) as (out & r & -> & D & R & E); [lia|].
      eexists (_ :: out), r. split; [reflexivity|]. split; [|split; [done|]].
      * constructor; [apply wrap_u8_byte|done].
      * replace (b + 5)%nat with (8 + (b + 5 - 8))%nat at 1 by lia.
        rewrite tobits_app, <- app_assoc, E. unfold wrap_u8.
        rewrite digits_bits_cons, <- app_assoc, tobits_mod by done. done.
    + destruct (IH buf (b + 5)%nat) as (out & r & -> & D & R & E); [lia|].
      by exists out, r.
Qed.

(** ** Properties *)

(** decoding an encoded secret gives its bytes back. *)
Theorem base32_roundtrip data :
  are_bytes data -> base32_decode (base32_encode data) = Some data.
Proof.
  intros Hd. unfold base32_encode, base32_decode.
  change 0 with (Z.of_nat 0) at 2 4.
  destruct (encode_loop_spec data 0 0 Hd ltac:(lia)) as (ds & pad & -> & D & P & E).
  destruct (decode_loop_spec ds 0 0 D ltac:(lia)) as (out & r & -> & D' & R & E').
  rewrite E in E'. simpl in E'. f_equal.
  apply (digits_bits_inj 8 out data r pad); try done; lia.
Qed.

(** a code is six decimal digits. *)
Theorem compute_totp_six_digits secret step code :
  compute_totp secret step = Some code -> length code = 6%nat /\ digit_str code.
Proof.
  unfold compute_totp. case_match; [|done]. intros [= <-].
  set (v := _ mod 1000000). assert (0 <= v < 1000000) by (apply Z.mod_pos_bound; lia).
  destruct (show_uint_spec v ltac:(lia)) as (_ & D & _ & K).
  specialize (K 6 ltac:(lia) ltac:(lia)).
  unfold show_padded. rewrite (proj2 (Z.ltb_ge _ _)) by lia.
  split; [rewrite pad_zero_length; lia | by apply pad_zero_digits].
Qed.

(** the check accepts exactly the codes of the current step and of the two
    steps around it; in particular a code is accepted by a server whose clock
    is at most 30 seconds away from the clock it was made with. *)
Theorem verify_totp_window now secret code :
  30 <= now < 2 ^ 63 ->
  (verify_totp now secret code = true <->
     exists d, -1 <= d <= 1 /\ compute_totp secret (now / 30 + d) = Some code)
  /\ (forall t, compute_totp secret (t / 30) = Some code -> Z.abs (t - now) <= 30 ->
        verify_totp now secret code = true).
Proof.
  intros Hn.
  assert (Hs : 1 <= now / 30 < 2 ^ 63).
  { split; [apply Z.div_le_lower_bound; lia | apply Z.div_lt_upper_bound; lia]. }
  assert (A : verify_totp now secret code = true <->
     exists d, -1 <= d <= 1 /\ compute_totp secret (now / 30 + d) = Some code).
  { unfold verify_totp, current_time_step. rewrite existsb_exists.
    assert (W : forall d, -1 <= d <= 1 -> wrap_u64 (now / 30 + d) = now / 30 + d).
    { intros d Hd. apply wrap_u64_id. unfold is_u64. lia. }
    split.
    - intros (d & Hin & E). exists d.
      assert (-1 <= d <= 1) by (simpl in Hin; lia). split; [done|].
      rewrite W in E by done. case_match; [|done]. boolify. by subst.
    - intros (d & Hd & E). exists d. split; [simpl; lia|].
      rewrite W, E by done. by apply bool_decide_eq_true. }
  split; [exact A|]. intros t E Ht. apply A. exists (t / 30 - now / 30). split.
  - pose proof (Z.div_mod t 30). pose proof (Z.mod_pos_bound t 30).
    pose proof (Z.div_mod now 30). pose proof (Z.mod_pos_bound now 30). lia.
  - by rewrite Z.add_sub_assoc, Z.add_simpl_l.
Qed.

(** characters outside ASCII are accepted as the symbol their code point
    is congruent to modulo 256: the decoder is not injective on its domain. *)
Theorem base32_decode_aliases :
  base32_decode [0x141; 0x141] = base32_decode (lit "AA")
  /\ base32_decode [0x141; 0x141] <> None.
Proof. split; [reflexivity | by vm_compute]. Qed.
End Hmac.

Lemma base32_roundtrip_witness :
  base32_decode (base32_encode [1; 2; 3; 255]) = Some [1; 2; 3; 255].
Proof. apply base32_roundtrip. repeat constructor; unfold is_byte; lia. Defined.

Lemma compute_totp_witness :
  let code := match compute_totp (H1 := toy_sha1) (lit "MFRGG") 7 with Some c => c | None => [] end in
  length code = 6%nat /\ digit_str code.
Proof.
  apply (compute_totp_six_digits (H1 := toy_sha1) (lit "MFRGG") 7). reflexivity.
Defined.

Lemma verify_totp_witness :
  let code := match compute_totp (H1 := toy_sha1) (lit "MFRGG") 40 with Some c => c | None => [] end in
  verify_totp (H1 := toy_sha1) 1230 (lit "MFRGG") code = true.
Proof.
  eapply (verify_totp_window (H1 := toy_sha1)) with (t := 1200); [lia | reflexivity | lia].
Defined.
End Totp.
