(* ===== verification/Bip39.v ===== *)
(** * Bip39: mnemonic recovery phrases

    The pure part of backend/crates/auth/src/recovery.rs: the word list and its
    map, the generation of a 12-word phrase from 128 bits of entropy and a
    4-bit checksum, and the validation of a phrase.  The handlers are in
    [Recovery]. *)

From S2P Require Import Prelude Text Externals Bits Bip39Words.

Module Bip39.

Definition get_word_list : list rstr := Eval vm_compute in
  List.filter nonempty (map trim (lines (lit BIP39_RAW))).

(** HashMap::insert in the order of the list: a later word replaces an equal
    earlier one. *)
Fixpoint insert_words (words : list rstr) (idx : Z) (map : gmap rstr Z) : gmap rstr Z :=
  match words with
  | [] => map
  | word :: ws => insert_words ws (idx + 1) (<[word := idx]> map)
  end.

Definition get_word_map : gmap rstr Z := insert_words get_word_list 0 ∅.

Section Bip39.
Context {S2 : Sha256} {HX : Hex} {U : Unicode}.

(** (hash[0] >> 4) & 0x0F of the digest of the entropy *)
Definition checksum4 (entropy : bytes) : Z :=
  Z.land (Z.shiftr (nth 0 (sha256 entropy) 0) 4) 0x0F.

(** The inner [while bit_count >= 11]. *)
Fixpoint take11 (fuel : nat) (bit_buffer bit_count : Z) : list Z * Z :=
  match fuel with
  | O => ([], bit_count)
  | S f =>
      if 11 <=? bit_count then
        let idx := Z.land (Z.shiftr bit_buffer (bit_count - 11)) 0x7FF in
        let (out, n) := take11 f bit_buffer (bit_count - 11) in (idx :: out, n)
      else ([], bit_count)
  end.

(** [for &byte in &entropy]: the indices and the final register. *)
Fixpoint entropy_loop (entropy : bytes) (bit_buffer bit_count : Z) : list Z * Z :=
  match entropy with
  | [] => ([], bit_buffer)
  | byte :: rest =>
      let bit_buffer := Z.lor (wrap_u32 (Z.shiftl bit_buffer 8)) byte in
      let (out, bit_count) := take11 (Z.to_nat (bit_count + 8)) bit_buffer (bit_count + 8) in
      let (outs, bit_buffer) := entropy_loop rest bit_buffer bit_count in
      (out ++ outs, bit_buffer)
  end.

Definition generate_indices (entropy : bytes) : list Z :=
  let checksum := checksum4 entropy in
  let (indices, bit_buffer) := entropy_loop entropy 0 0 in
  let bit_buffer := Z.lor (wrap_u32 (Z.shiftl bit_buffer 4)) checksum in
  indices ++ [Z.land bit_buffer 0x7FF].

(** The random entropy is the argument. *)
Definition generate_bip39_phrase (entropy : bytes) : rstr :=
  join (lit " ") (map (fun i => nth (Z.to_nat i) get_word_list []) (generate_indices entropy)).

Fixpoint lookup_words (ws : list rstr) : option (list Z) :=
  match ws with
  | [] => Some []
  | w :: ws' =>
      match get_word_map !! to_lowercase w with
      | Some idx => option_map (cons idx) (lookup_words ws')
      | None => None
      end
  end.

(** [while bit_count >= 8 && byte_idx < 16], writing into the array. *)
Fixpoint fill_bytes (fuel : nat) (entropy : bytes) (byte_idx : nat) (bit_buffer bit_count : Z)
    : bytes * nat * Z :=
  match fuel with
  | O => (entropy, byte_idx, bit_count)
  | S f =>
      if (8 <=? bit_count) && (byte_idx <? 16)%nat then
        fill_bytes f (<[byte_idx := Z.land (Z.shiftr bit_buffer (bit_count - 8)) 0xFF]> entropy)
          (S byte_idx) bit_buffer (bit_count - 8)
      else (entropy, byte_idx, bit_count)
  end.

Fixpoint index_loop (indices : list Z) (entropy : bytes) (byte_idx : nat) (bit_buffer bit_count : Z)
    : bytes * Z :=
  match indices with
  | [] => (entropy, bit_buffer)
  | idx :: rest =>
      let bit_buffer := Z.lor (wrap_u32 (Z.shiftl bit_buffer 11)) idx in
      let '(entropy, byte_idx, bit_count) :=
        fill_bytes (Z.to_nat (bit_count + 11)) entropy byte_idx bit_buffer (bit_count + 11) in
      index_loop rest entropy byte_idx bit_buffer bit_count
  end.

(** The entropy and the checksum read back from twelve indices. *)
Definition unpack_indices (indices : list Z) : bytes * Z :=
  let (entropy, bit_buffer) := index_loop (take 11 indices) (replicate 16 0) 0 0 0 in
  let bit_buffer := Z.lor (wrap_u32 (Z.shiftl bit_buffer 11)) (nth 11 indices 0) in
  (<[15%nat := Z.land (Z.shiftr bit_buffer 4) 0xFF]> entropy, Z.land bit_buffer 0x0F).

Definition validate_bip39_phrase (phrase : rstr) : rstr + unit :=
  let raw_words := split_whitespace phrase in
  if negb (length raw_words =? 12)%nat
  then inl (lit "Mnemonic phrase must consist of exactly 12 words")
  else
    match lookup_words raw_words with
    | None => inl (lit "Unknown word in BIP-39 mnemonic phrase")
    | Some indices =>
        let (entropy, provided_checksum) := unpack_indices indices in
        if negb (provided_checksum =? checksum4 entropy)
        then inl (lit "BIP-39 checksum verification failed: invalid or mistyped recovery phrase")
        else inr tt
    end.

Definition hash_phrase (phrase : rstr) : rstr :=
  hex_encode (sha256 (as_bytes (to_lowercase (trim phrase)))).

(** ** The word list *)

Definition lower_word (w : rstr) : bool := nonempty w && forallb is_ascii_lower w.

Fixpoint str_lt (a b : rstr) : bool :=
  match a, b with
  | _, [] => false
  | [], _ :: _ => true
  | x :: a', y :: b' => (x <? y) || ((x =? y) && str_lt a' b')
  end.

Fixpoint increasing (l : list rstr) : bool :=
  match l with
  | a :: (b :: _) as r => str_lt a b && increasing r
  | _ => true
  end.

Lemma str_lt_trans a b c : str_lt a b = true -> str_lt b c = true -> str_lt a c = true.
Proof.
  revert b c. induction a as [|x a IH]; intros [|y b] [|z c] H1 H2; simpl in *; try done.
  apply orb_true_iff in H1, H2. apply orb_true_iff.
  destruct H1 as [H1|H1], H2 as [H2|H2]; boolify; try (left; apply Z.ltb_lt; lia).
  right. apply andb_true_iff. split; [apply Z.eqb_eq; lia|]. by apply (IH b).
Qed.

Lemma increasing_head a l : increasing (a :: l) = true -> Forall (fun b => str_lt a b = true) l.
Proof.
  revert a. induction l as [|b l IH]; intros a H; [constructor|].
  cbn [increasing] in H. apply andb_true_iff in H as [Hab H]. constructor; [done|].
  eapply Forall_impl; [by apply IH|]. intros c Hc. by apply (str_lt_trans a b).
Qed.

Lemma str_lt_irrefl a : str_lt a a = false.
Proof. induction a as [|x a IH]; simpl; [done|]. rewrite Z.ltb_irrefl, Z.eqb_refl, IH. done. Qed.

Lemma increasing_nodup l : increasing l = true -> base.NoDup l.
Proof.
  induction l as [|a l IH]; intros H; constructor.
  - intros Hin. apply increasing_head in H. rewrite Forall_forall in H.
    apply H in Hin. by rewrite str_lt_irrefl in Hin.
  - apply IH. destruct l; [done|]. cbn [increasing] in H. by apply andb_true_iff in H as [_ H].
Qed.

Lemma word_list_facts :
  length get_word_list = 2048%nat /\ base.NoDup get_word_list
  /\ Forall (fun w => lower_word w = true) get_word_list.
Proof.
  split; [vm_compute; reflexivity|]. split.
  - apply increasing_nodup. vm_compute. reflexivity.
  - apply Forall_forall. intros w Hw.
    assert (A : forallb lower_word get_word_list = true) by (vm_compute; reflexivity).
    rewrite forallb_forall in A. apply A. by apply list_elem_of_In.
Qed.

Lemma lower_word_plain w : lower_word w = true -> plain_word w /\ to_lowercase w = w.
Proof.
  unfold lower_word. intros H. apply andb_true_iff in H as [Hn H].
  rewrite forallb_forall in H.
  assert (F : Forall (fun c => is_ascii_lower c = true) w).
  { apply Forall_forall. intros c Hc. apply H. by apply list_elem_of_In. }
  split; [split|].
  - by destruct w.
  - eapply Forall_impl; [exact F|]. intros c Hc. by apply ascii_lower_not_ws.
  - rewrite to_lowercase_ascii.
    + rewrite <- (map_id w) at 2. apply map_ext_in. intros c Hc. unfold to_ascii_lowercase.
      specialize (H c Hc). unfold is_ascii_lower, is_ascii_upper in *. boolify.
      rewrite (proj2 (Z.leb_gt c 90)) by lia. by rewrite andb_false_r.
    + eapply Forall_impl; [exact F|]. intros c Hc. unfold is_ascii_lower in Hc. boolify.
      apply andb_true_iff. split; [apply Z.leb_le | apply Z.ltb_lt]; lia.
Qed.

Lemma insert_words_notin (ws : list rstr) (i : Z) (m : gmap rstr Z) (w : rstr) : w ∉ ws -> insert_words ws i m !! w = m !! w.
Proof.
  revert i m. induction ws as [|v ws IH]; intros i m H; cbn [insert_words]; [done|].
  apply not_elem_of_cons in H as [Hv H]. rewrite IH by done. by rewrite lookup_insert_ne.
Qed.

Lemma insert_words_lookup (ws : list rstr) (i : Z) (m : gmap rstr Z) (k : nat) (w : rstr) :
  base.NoDup ws -> ws !! k = Some w -> insert_words ws i m !! w = Some (i + Z.of_nat k).
Proof.
  intros Hn. revert i m k. induction Hn as [|v ws Hv Hn IH]; intros i m k Hk; [done|].
  cbn [insert_words]. destruct k as [|k]; simpl in Hk.
  - simplify_eq. rewrite insert_words_notin by done. rewrite lookup_insert_eq. f_equal. lia.
  - rewrite (IH _ _ k) by done. f_equal. lia.
Qed.

Lemma word_map_spec w i :
  get_word_map !! w = Some i <-> 0 <= i < 2048 /\ get_word_list !! Z.to_nat i = Some w.
Proof.
  destruct word_list_facts as (L & N & _). unfold get_word_map. split.
  - intros H. destruct (decide (w ∈ get_word_list)) as [Hin|Hin].
    + apply list_elem_of_lookup in Hin as [k Hk]. rewrite (insert_words_lookup _ _ _ k w) in H by done.
      injection H as <-. apply lookup_lt_Some in Hk as Hlt. rewrite L in Hlt.
      rewrite Z.add_0_l, Nat2Z.id. split; [lia|done].
    + by rewrite insert_words_notin, lookup_empty in H.
  - intros [Hi Hk]. rewrite (insert_words_lookup _ _ _ (Z.to_nat i) w) by done. f_equal. lia.
Qed.

#[local] Opaque get_word_map get_word_list.

(** ** The shift registers *)

Lemma mask_7ff v : Z.land v 0x7FF = Z.land v (Z.ones (Z.of_nat 11)).
Proof. reflexivity. Qed.
Lemma mask_ff v : Z.land v 0xFF = Z.land v (Z.ones (Z.of_nat 8)).
Proof. reflexivity. Qed.
Lemma mask_0f v : Z.land v 0x0F = Z.land v (Z.ones (Z.of_nat 4)).
Proof. reflexivity. Qed.

Lemma push32 a b x y :
  0 <= y < 2 ^ Z.of_nat b -> (a + b <= 32)%nat ->
  tobits (a + b) (Z.lor (wrap_u32 (Z.shiftl x (Z.of_nat b))) y) = tobits a x ++ tobits b y.
Proof. intros Hy Hk. apply tobits_push; [done|lia]. Qed.

Lemma take11_spec fuel buffer b :
  (b <= fuel)%nat ->
  exists ds r, take11 fuel buffer (Z.of_nat b) = (ds, Z.of_nat r)
    /\ digits 11 ds /\ (r < 11)%nat /\ tobits b buffer = digits_bits 11 ds ++ tobits r buffer.
Proof.
  revert b. induction fuel as [|f IH]; intros b Hb; cbn [take11].
  - exists [], b. repeat split; [constructor|lia].
  - destruct (Z.leb_spec 11 (Z.of_nat b)).
    + replace (Z.of_nat b - 11) with (Z.of_nat (b - 11)) by lia.
      destruct (IH (b - 11)%nat) as (ds & r & -> & D & R & E); [lia|].
      eexists (_ :: ds), r. split; [reflexivity|]. split; [|split; [done|]].
      * constructor; [rewrite mask_7ff; apply land_digit | done].
      * rewrite digits_bits_cons, <- app_assoc, <- E, mask_7ff, <- (tobits_take 11 (b - 11)).
        f_equal. lia.
    + exists [], b. repeat split; [constructor|lia].
Qed.

Lemma entropy_loop_spec entropy buffer b :
  are_bytes entropy -> (b < 11)%nat ->
  exists ds r buffer', entropy_loop entropy buffer (Z.of_nat b) = (ds, buffer')
    /\ digits 11 ds /\ (r < 11)%nat
    /\ tobits b buffer ++ digits_bits 8 entropy = digits_bits 11 ds ++ tobits r buffer'.
Proof.
  intros He. revert buffer b.
  induction He as [|x rest Hx Hr IH]; intros buffer b Hb; cbn [entropy_loop].
  - exists [], b, buffer. rewrite digits_bits_nil, app_nil_r. repeat split; [constructor|done].
  - set (buf := Z.lor _ x). replace (Z.of_nat b + 8) with (Z.of_nat (b + 8)) by lia.
    rewrite Nat2Z.id. destruct (take11_spec (b + 8) buf (b + 8)) as (ds & r & -> & D & R & E); [done|].
    destruct (IH buf r R) as (ds' & r' & buf' & -> & D' & R' & E').
    exists (ds ++ ds'), r', buf'. split; [done|]. split; [by apply Forall_app|]. split; [done|].
    rewrite digits_bits_app, <- app_assoc, <- E', app_assoc, <- E, digits_bits_cons, app_assoc.
    f_equal. symmetry. by apply (push32 b 8); [|lia].
Qed.

Lemma checksum4_range e : 0 <= checksum4 e < 2 ^ Z.of_nat 4.
Proof. unfold checksum4. rewrite mask_0f. apply land_digit. Qed.

(** The twelve indices spell the entropy followed by its checksum. *)
Lemma generate_indices_spec entropy :
  are_bytes entropy -> length entropy = 16%nat ->
  digits 11 (generate_indices entropy) /\ length (generate_indices entropy) = 12%nat
  /\ digits_bits 11 (generate_indices entropy)
     = digits_bits 8 entropy ++ tobits 4 (checksum4 entropy).
Proof.
  intros He Hl. unfold generate_indices.
  destruct (entropy_loop_spec entropy 0 0 He ltac:(lia)) as (ds & r & buf & G & D & R & E).
  change (Z.of_nat 0) with 0 in G. simpl in E. rewrite G, E.
  assert (L : (11 * length ds + r = 128)%nat).
  { apply (f_equal length) in E. rewrite length_app, !digits_bits_length, tobits_length in E. lia. }
  assert (r = 7%nat) as -> by lia.
  split; [|split].
  - apply Forall_app. split; [done|]. constructor; [|constructor]. rewrite mask_7ff. apply land_digit.
  - rewrite length_app. simpl. lia.
  - rewrite digits_bits_snoc, <- app_assoc. f_equal. rewrite mask_7ff, tobits_land by done.
    apply (push32 7 4); [apply checksum4_range|lia].
Qed.

Lemma fill_bytes_spec fuel out zs buffer b :
  (b <= fuel)%nat -> (length out + length zs = 16)%nat -> (8 * length out + b < 128)%nat ->
  exists ds zs' r, fill_bytes fuel (out ++ zs) (length out) buffer (Z.of_nat b)
      = (out ++ ds ++ zs', (length out + length ds)%nat, Z.of_nat r)
    /\ digits 8 ds /\ (r < 8)%nat /\ tobits b buffer = digits_bits 8 ds ++ tobits r buffer
    /\ (length out + length ds + length zs' = 16)%nat.
Proof.
  revert out zs b. induction fuel as [|f IH]; intros out zs b Hb Hl Ht; cbn [fill_bytes].
  - exists [], zs, b. rewrite Nat.add_0_r. repeat split; [constructor|lia|done].
  - destruct (Z.leb_spec 8 (Z.of_nat b)); cbn [andb].
    + rewrite (proj2 (Nat.ltb_lt _ _)) by lia.
      destruct zs as [|z zs]; [simpl in Hl; lia|].
      replace (Z.of_nat b - 8) with (Z.of_nat (b - 8)) by lia. set (d := Z.land _ 0xFF).
      assert (W : <[length out := d]> (out ++ z :: zs) = (out ++ [d]) ++ zs).
      { rewrite <- (Nat.add_0_r (length out)), insert_app_r. simpl. by rewrite <- app_assoc. }
      rewrite W. replace (S (length out)) with (length (out ++ [d])) by (rewrite length_app; simpl; lia).
      destruct (IH (out ++ [d]) zs (b - 8)%nat) as (ds & zs' & r & -> & D & R & E & L).
      { lia. } { rewrite length_app. simpl in *. lia. } { rewrite length_app. simpl. lia. }
      exists (d :: ds), zs', r. rewrite length_app in L |- *. cbn [length] in L |- *. rewrite <- app_assoc.
      split; [f_equal; f_equal; simpl; lia|]. split; [|split; [done|split; [|lia]]].
      * constructor; [apply (land_digit _ 8)|done].
      * rewrite digits_bits_cons, <- app_assoc, <- E. unfold d. rewrite mask_ff, <- (tobits_take 8 (b - 8)). f_equal. lia.
    + exists [], zs, b. rewrite Nat.add_0_r. repeat split; [constructor|lia|done].
Qed.

Lemma index_loop_spec rest out zs buffer b :
  digits 11 rest -> (b < 8)%nat -> (length out + length zs = 16)%nat ->
  (8 * length out + b + 11 * length rest < 128)%nat ->
  exists ds zs' r buffer', index_loop rest (out ++ zs) (length out) buffer (Z.of_nat b)
      = (out ++ ds ++ zs', buffer')
    /\ digits 8 ds /\ (r < 8)%nat /\ (length out + length ds + length zs' = 16)%nat
    /\ tobits b buffer ++ digits_bits 11 rest = digits_bits 8 ds ++ tobits r buffer'.
Proof.
  intros Hd. revert out zs buffer b.
  induction Hd as [|x rest Hx Hr IH]; intros out zs buffer b Hb Hl Ht; cbn [index_loop].
  - exists [], zs, b, buffer. rewrite digits_bits_nil, app_nil_r. repeat split; [constructor|done|simpl;lia].
  - set (buf := Z.lor _ x). replace (Z.of_nat b + 11) with (Z.of_nat (b + 11)) by lia.
    simpl length in Ht. rewrite Nat2Z.id.
    destruct (fill_bytes_spec (b + 11) out zs buf (b + 11)) as (ds & zs' & r & -> & D & R & E & L); try lia.
    rewrite app_assoc. replace (length out + length ds)%nat with (length (out ++ ds)) by apply length_app.
    assert (B : (8 * length ds + r = b + 11)%nat).
    { apply (f_equal length) in E. rewrite length_app, digits_bits_length, !tobits_length in E. lia. }
    destruct (IH (out ++ ds) zs' buf r) as (ds' & zs'' & r' & buf' & -> & D' & R' & L' & E'); try done.
    { rewrite length_app. lia. } { rewrite length_app. lia. }
    exists (ds ++ ds'), zs'', r', buf'. rewrite length_app in L'. rewrite <- !app_assoc.
    split; [done|]. split; [by apply Forall_app|]. split; [done|]. split; [rewrite length_app; lia|].
    rewrite digits_bits_app, <- app_assoc, <- E', app_assoc, <- E, digits_bits_cons, app_assoc.
    f_equal. symmetry. by apply (push32 b 11); [|lia].
Qed.

(** Reading back splits the same 132 bits into the entropy and the checksum. *)
Lemma unpack_indices_spec indices :
  digits 11 indices -> length indices = 12%nat ->
  let (entropy, c) := unpack_indices indices in
  are_bytes entropy /\ length entropy = 16%nat /\ 0 <= c < 2 ^ Z.of_nat 4
  /\ digits_bits 11 indices = digits_bits 8 entropy ++ tobits 4 c.
Proof.
  intros Hd Hl. unfold unpack_indices.
  assert (HT : digits 11 (take 11 indices)) by (by apply Forall_take).
  destruct (index_loop_spec (take 11 indices) [] (replicate 16 0) 0 0 HT)
    as (ds & zs & r & buf & E & D & R & L & B); [lia|done|rewrite length_take, Hl; simpl; lia|].
  cbn [app length] in E, L. change (Z.of_nat 0) with 0 in E. rewrite E. simpl in B.
  apply (f_equal length) in B as LB.
  rewrite length_app, !digits_bits_length, tobits_length, length_take, Hl in LB. simpl in LB.
  assert (length ds = 15%nat /\ r = 1%nat /\ exists z, zs = [z]) as (L15 & -> & z & ->).
  { destruct zs as [|z [|]]; simpl in L; [lia | split; [lia|split; [lia|by exists z]] | lia]. }
  set (last := nth 11 indices 0). set (buf' := Z.lor _ last).
  assert (Hlast : 0 <= last < 2 ^ Z.of_nat 11).
  { unfold last. unfold digits in Hd. rewrite Forall_nth in Hd. apply Hd. lia. }
  rewrite <- L15, <- (Nat.add_0_r (length ds)), insert_app_r. simpl insert.
  set (d := Z.land _ 0xFF). split; [|split; [|split]].
  - apply Forall_app. split; [exact D|]. constructor; [|constructor]. apply (land_digit _ 8).
  - rewrite length_app. simpl. lia.
  - rewrite mask_0f. apply land_digit.
  - rewrite <- (take_drop 11 indices), digits_bits_app, B.
    assert (drop 11 indices = [last]) as ->.
    { unfold last. do 12 (destruct indices as [|? indices]; [done|]). by destruct indices. }
    rewrite digits_bits_snoc, digits_bits_cons, digits_bits_nil, app_nil_r, <- !app_assoc. f_equal.
    rewrite <- (push32 1 11) by (done || lia). fold buf'.
    unfold d. rewrite mask_ff, mask_0f, (tobits_land 4) by done.
    change 4 with (Z.of_nat 4) at 1. by rewrite <- (tobits_take 8 4).
Qed.

(** ** Phrases *)

Definition word_of (i : Z) : rstr := nth (Z.to_nat i) get_word_list [].

Lemma word_of_spec i : 0 <= i < 2048 ->
  get_word_map !! word_of i = Some i /\ plain_word (word_of i) /\ to_lowercase (word_of i) = word_of i.
Proof.
  intros Hi. destruct word_list_facts as (L & _ & F).
  assert (E : get_word_list !! Z.to_nat i = Some (word_of i)).
  { unfold word_of. destruct (lookup_lt_is_Some_2 get_word_list (Z.to_nat i)) as [w Hw]; [lia|].
    rewrite Hw. f_equal. symmetry. by apply nth_lookup_Some. }
  split; [by apply word_map_spec|]. apply lower_word_plain.
  rewrite Forall_forall in F. apply F. apply list_elem_of_lookup. by exists (Z.to_nat i).
Qed.

Lemma digits11_bound ds : digits 11 ds -> Forall (fun i => 0 <= i < 2048) ds.
Proof. done. Qed.

Lemma lookup_words_spec ws ids :
  lookup_words ws = Some ids <-> digits 11 ids /\ map to_lowercase ws = map word_of ids.
Proof.
  revert ids. induction ws as [|w ws IH]; intros ids; cbn [lookup_words].
  - split; [intros [= <-]; split; [constructor|done]|]. intros [_ H]. by destruct ids.
  - destruct (get_word_map !! to_lowercase w) as [i|] eqn:E.
    + apply word_map_spec in E as [Hi Hw]. assert (W : word_of i = to_lowercase w).
      { unfold word_of. by apply nth_lookup_Some. }
      split.
      * destruct (lookup_words ws) as [is'|] eqn:Ew; [|done]. intros [= <-].
        destruct (proj1 (IH is') eq_refl) as [D M]. split; [by constructor|]. cbn [map]. by rewrite M, W.
      * intros [D M]. destruct ids as [|j ids]; [done|]. cbn [map] in M. injection M as Mw M.
        apply Forall_cons in D as [Dj D].
        rewrite (proj2 (IH ids) (conj D M)). cbn [option_map]. do 2 f_equal.
        destruct (word_of_spec j Dj) as (Hj & _). destruct (word_of_spec i Hi) as (Hi' & _).
        rewrite W, Mw, Hj in Hi'. congruence.
    + split; [done|]. intros [D M]. destruct ids as [|j ids]; [done|]. injection M as Mw M.
      apply Forall_cons in D as [Dj D]. destruct (word_of_spec j Dj) as (Hj & _).
      rewrite Mw, Hj in E. discriminate E.
Qed.

Lemma map_word_of_plain ds :
  digits 11 ds -> Forall plain_word (map word_of ds) /\ map to_lowercase (map word_of ds) = map word_of ds.
Proof.
  intros D. induction D as [|d ds Hd D [IH1 IH2]]; [split; [constructor|done]|].
  destruct (word_of_spec d Hd) as (_ & P & Lw). cbn [map]. split; [by constructor|]. by rewrite Lw, IH2.
Qed.

(** Indices decode to the entropy they were generated from, and only those. *)
Lemma unpack_generate entropy :
  are_bytes entropy -> length entropy = 16%nat ->
  unpack_indices (generate_indices entropy) = (entropy, checksum4 entropy).
Proof.
  intros He Hl. destruct (generate_indices_spec entropy He Hl) as (D & L & B).
  pose proof (unpack_indices_spec _ D L) as S. destruct (unpack_indices _) as [e c].
  destruct S as (De & Le & Dc & Be). rewrite B in Be.
  apply (digits_bits_inj 8) in Be as [<- T]; [|exact He|exact De|rewrite tobits_length; lia..].
  apply (tobits_inj 4) in T; [by subst|apply checksum4_range|exact Dc].
Qed.

Lemma generate_unpack ids e c :
  digits 11 ids -> length ids = 12%nat -> unpack_indices ids = (e, c) -> c = checksum4 e ->
  are_bytes e /\ length e = 16%nat /\ generate_indices e = ids.
Proof.
  intros D L E ->. pose proof (unpack_indices_spec ids D L) as S. rewrite E in S.
  destruct S as (De & Le & Dc & Be). split; [done|]. split; [done|].
  destruct (generate_indices_spec e De Le) as (D' & L' & B). rewrite <- B in Be.
  apply (digits_bits_inj 11 _ _ [] []); rewrite ?app_nil_r; try done; simpl; lia.
Qed.

(** ** Properties *)

(** every generated phrase validates, and the phrases that validate are,
    up to letter case and spacing, exactly the generated ones: the checksum
    and the dictionary together accept one phrase per 128-bit entropy. *)
Theorem bip39_validates_generated phrase :
  (validate_bip39_phrase phrase = inr tt <->
     exists entropy, are_bytes entropy /\ length entropy = 16%nat
       /\ map to_lowercase (split_whitespace phrase)
          = split_whitespace (generate_bip39_phrase entropy))
  /\ (forall entropy, are_bytes entropy -> length entropy = 16%nat ->
        validate_bip39_phrase (generate_bip39_phrase entropy) = inr tt).
Proof.
  assert (G : forall e, are_bytes e -> length e = 16%nat ->
    split_whitespace (generate_bip39_phrase e) = map word_of (generate_indices e)).
  { intros e He Hl. destruct (generate_indices_spec e He Hl) as (D & L & _).
    apply split_whitespace_join. by apply map_word_of_plain. }
  assert (V : forall p e, are_bytes e -> length e = 16%nat ->
    map to_lowercase (split_whitespace p) = map word_of (generate_indices e) ->
    validate_bip39_phrase p = inr tt).
  { intros p e He Hl M. destruct (generate_indices_spec e He Hl) as (D & L & _).
    unfold validate_bip39_phrase.
    assert (length (split_whitespace p) = 12%nat) as ->.
    { apply (f_equal length) in M. rewrite !length_map in M. lia. }
    cbn [Nat.eqb negb]. rewrite (proj2 (lookup_words_spec _ _) (conj D M)).
    rewrite unpack_generate by done. by rewrite Z.eqb_refl. }
  split; [split|].
  - unfold validate_bip39_phrase. destruct (Nat.eqb_spec (length (split_whitespace phrase)) 12) as [L|];
      [|done]. cbn [negb].
    destruct (lookup_words (split_whitespace phrase)) as [ids|] eqn:E; [|done].
    apply lookup_words_spec in E as [D M].
    destruct (unpack_indices ids) as [e c] eqn:Eu. destruct (Z.eqb_spec c (checksum4 e)); [|done].
    intros _. destruct (generate_unpack ids e c) as (He & Hl & Hi); try done.
    { apply (f_equal length) in M. rewrite !length_map in M. lia. }
    exists e. split; [done|]. split; [done|]. by rewrite G, Hi.
  - intros (e & He & Hl & M). apply (V phrase e); try done. by rewrite <- G.
  - intros e He Hl. destruct (generate_indices_spec e He Hl) as (D & _ & _).
    apply (V _ e); try done. rewrite G by done. by apply map_word_of_plain.
Qed.

(** the hash of a phrase does not depend on letter case (of ASCII phrases)
    nor on surrounding white space. *)
Theorem hash_phrase_normalizes p q :
  ascii_str p -> ascii_str q ->
  map to_ascii_lowercase (trim p) = map to_ascii_lowercase (trim q) ->
  hash_phrase p = hash_phrase q.
Proof.
  intros Hp Hq E. unfold hash_phrase.
  assert (A : forall s, ascii_str s -> ascii_str (trim s)).
  { intros s Hs. unfold ascii_str in *. rewrite Forall_forall in *.
    intros c Hc. apply Hs. by apply trim_elem. }
  rewrite !to_lowercase_ascii by auto. by rewrite E.
Qed.
End Bip39.

Lemma hash_phrase_witness :
  hash_phrase (S2 := toy_sha256) (HX := plain_hex) (U := ascii_unicode) (lit " Zoo Wrong ")
  = hash_phrase (S2 := toy_sha256) (HX := plain_hex) (U := ascii_unicode) (lit "zoo wrong").
Proof.
  apply (hash_phrase_normalizes (S2 := toy_sha256) (HX := plain_hex) (U := ascii_unicode));
    [repeat constructor | repeat constructor | reflexivity].
Defined.
End Bip39.
