(* ===== verification/Auth.v ===== *)
(** * Auth: accounts, sessions and multi-factor login

    backend/crates/auth/src/service.rs and the handlers of mfa.rs: registration,
    login, rotation of refresh tokens, logout, and the setup, activation and
    removal of a TOTP secret. *)

From S2P Require Import Prelude Text Effects Externals Schema Validation Password Totp Token.
Import Token.

Module Auth.

(** ** Requests and answers: auth/src/models.rs *)

Record RegisterRequest := {
  reg_email : rstr; reg_display_name : rstr; reg_password : rstr; setup_token : option rstr }.

Record LoginRequest := {
  login_email : rstr; login_password : rstr; mfa_code : option rstr }.

Record UserResponse := {
  resp_id : Z; resp_email : rstr; resp_display_name : rstr; resp_created_at : Z }.

Record AuthResponse := { user : UserResponse; tokens : TokenPair }.

(** impl From<User> for UserResponse *)
Definition user_response (u : User.row) : UserResponse :=
  {| resp_id := User.id u; resp_email := User.email u;
     resp_display_name := User.display_name u; resp_created_at := User.created_at u |}.

(** What setup_totp answers. *)
Record TotpSetup := { secret : rstr; provisioning_uri : rstr }.

(** ** What the session operations leave alone

    A relation between states is a frame when it holds of states with the same
    accounts, and of states of which one has an account more.  Every operation
    but those of the second factor keeps every frame, whatever its outcome. *)

Class Frame (R : Server -> Server -> Prop) := {
  frame_preorder :: PreOrder R;
  frame_same : forall s s', users s' = users s -> R s s';
  frame_insert : forall s s' u, users s' = insert_row u (users s) -> R s s'
}.

(** The structural rules, and the writes of this file. *)
Ltac keeps :=
  repeat match goal with
  | |- preserves _ (generate_token_pair _ _ _) => apply preserves_generate; apply _
  | |- preserves _ (validate_token _ _) => apply preserves_validate; apply _
  | |- preserves _ (execute _ _) =>
      apply preserves_execute; [apply _|]; intros ? ? ? ? Eq _; injection Eq as <- <-;
      first [apply frame_same; reflexivity | eapply frame_insert; reflexivity | idtac]
  | |- preserves _ _ => progress preserve
  end.

Section Auth.
Context {O : Oracle} {CH : Chrono} {JW : JsonWebToken} {S1 : Sha1} {S2 : Sha256} {HX : Hex}
  {AR : Argon2} {U : Unicode}.
(** [state.config.auth], and the variable PCOS_ADMIN_BOOTSTRAP_TOKEN. *)
Context (config : AuthConfig) (bootstrap : option rstr).

Definition normalize_email (e : rstr) : rstr := to_lowercase (trim e).

(** ** service.rs *)

Definition hash_token (token : rstr) : rstr := hex_encode (sha256 (as_bytes token)).

Definition hash_or_internal (prefix : string) (password : rstr) : M Server rstr :=
  salt ← random_salt;
  match Password.hash_password password salt with
  | inl e => throw (Internal (lit prefix ++ e))
  | inr h => mret h
  end.

Definition verify_or_internal (prefix : string) (password hash : rstr) : M Server bool :=
  match Password.verify_password password hash with
  | inl e => throw (Internal (lit prefix ++ e))
  | inr b => mret b
  end.

Definition store_refresh_token (user_id : Z) (token : rstr) : M Server unit :=
  now ← utc_now;
  expires ← or_panic (add_seconds now (7 * 86400));
  new_id ← new_v4;
  execute schema_ok (fun now s =>
    (tt, set_refresh_tokens (insert_row
      {| RefreshToken.id := new_id; RefreshToken.user_id := user_id;
         RefreshToken.token_hash := hash_token token; RefreshToken.expires_at := expires;
         RefreshToken.revoked := false; RefreshToken.created_at := now |} (refresh_tokens s)) s)).

(** Errors are logged, not returned. *)
Definition log_audit (user_id : Z) (action details : rstr) : M Server unit :=
  new_id ← new_v4;
  discard (execute schema_ok (fun now s =>
    (tt, set_audit_log (insert_row
      {| AuditLog.id := new_id; AuditLog.user_id := Some user_id; AuditLog.action := action;
         AuditLog.details := details; AuditLog.created_at := now |} (audit_log s)) s))).

(** The role of a new account, [count] accounts being registered. *)
Definition initial_role (count : Z) (setup_token : option rstr) : M Server rstr :=
  if count =? 0 then
    match bootstrap with
    | Some expected_token =>
        let expected_trimmed := trim expected_token in
        if nonempty expected_trimmed
           && negb (bool_decide (trim (default [] setup_token) = expected_trimmed))
        then throw (Unauthorized (lit "Valid PCOS_ADMIN_BOOTSTRAP_TOKEN is required to register initial admin account"))
        else mret (lit "admin")
    | None => mret (lit "admin")
    end
  else mret (lit "user").

Definition register (req : RegisterRequest) : M Server AuthResponse :=
  let email := normalize_email (reg_email req) in
  _ ← lift (Validation.validate_email email);
  _ ← lift (Validation.validate_password (reg_password req));
  if negb (nonempty (trim (reg_display_name req))) || (100 <? str_len (reg_display_name req))
  then throw (Validation (lit "Display name must be 1-100 characters"))
  else
  existing ← map_err (to_internal "Database query failed: ")
    (query (fun s => exists_row (fun u => bool_decide (User.email u = email)) (users s)));
  if existing : bool then throw (Conflict (lit "Email already registered")) else
  password_hash ← hash_or_internal "Password hashing failed: " (reg_password req);
  count ← unwrap_or (query (fun s => Z.of_nat (length (users s)))) 0;
  role ← initial_role count (setup_token req);
  new_id ← new_v4;
  user ← execute schema_ok (fun now s =>
    let u := {| User.id := new_id; User.email := email; User.display_name := reg_display_name req;
                User.password_hash := password_hash; User.is_active := true;
                User.created_at := now; User.updated_at := now; User.role := role;
                User.totp_secret := None; User.totp_enabled := false;
                User.totp_verified_at := None; User.storage_quota_bytes := 10737418240 |} in
    (u, set_users (insert_row u (users s)) s));
  tokens ← generate_token_pair (User.id user) (User.email user) config;
  _ ← store_refresh_token (User.id user) (refresh_token tokens);
  _ ← log_audit (User.id user) (lit "user.registered")
        (lit "User " ++ User.email user ++ lit " registered");
  mret {| user := user_response user; tokens := tokens |}.

Definition verify_totp_now (secret code : rstr) : M Server bool :=
  now ← utc_now;
  mret (Totp.verify_totp (timestamp now) secret code).

(** The second factor of [login]: a database error of its query counts as no
    second factor ([unwrap_or(None)]). *)
Definition check_mfa (user_id : Z) (code : option rstr) : M Server unit :=
  mfa_row ← unwrap_or (query (fun s =>
    option_map (fun u => (User.totp_enabled u, User.totp_secret u))
      (find_row (fun u => User.id u =? user_id) (users s)))) None;
  match mfa_row with
  | Some (true, Some secret) =>
      let code := trim (default [] code) in
      if nonempty code then
        valid ← verify_totp_now secret code;
        if valid : bool then mret tt
        else
          _ ← log_audit user_id (lit "auth.mfa_failed") (lit "Invalid 6-digit TOTP code during login");
          throw (Unauthorized (lit "Invalid 6-digit MFA verification code"))
      else throw (Unauthorized (lit "Two-Factor Authentication code required"))
  | _ => mret tt
  end.

Definition login (req : LoginRequest) : M Server AuthResponse :=
  let email := normalize_email (login_email req) in
  row ← query (fun s =>
    find_row (fun u => bool_decide (User.email u = email) && User.is_active u) (users s));
  user ← ok_or row (Unauthorized (lit "Invalid email or password"));
  valid ← verify_or_internal "Password verification failed: " (login_password req) (User.password_hash user);
  if valid : bool then
    _ ← check_mfa (User.id user) (mfa_code req);
    tokens ← generate_token_pair (User.id user) (User.email user) config;
    _ ← store_refresh_token (User.id user) (refresh_token tokens);
    _ ← log_audit (User.id user) (lit "auth.login") (lit "User logged in");
    mret {| user := user_response user; tokens := tokens |}
  else
    _ ← log_audit (User.id user) (lit "auth.login_failed") (lit "Invalid password attempt");
    throw (Unauthorized (lit "Invalid email or password")).

Definition revoke (p : RefreshToken.row -> bool) (s : Server) : Server :=
  set_refresh_tokens (update p (RefreshToken.set_revoked true) (refresh_tokens s)) s.

Definition has_hash (h : rstr) (r : RefreshToken.row) : bool :=
  bool_decide (RefreshToken.token_hash r = h).

Definition refresh (token : rstr) : M Server TokenPair :=
  claims ← validate_token token (jwt_secret config);
  let token_hash := hash_token token in
  row ← query_now (fun now s =>
    find_row (fun r => has_hash token_hash r && negb (RefreshToken.revoked r)
                       && (now <? RefreshToken.expires_at r)) (refresh_tokens s));
  stored ← ok_or row (Unauthorized (lit "Invalid or expired refresh token"));
  _ ← execute schema_ok (fun _ s =>
    (tt, revoke (fun r => RefreshToken.id r =? RefreshToken.id stored) s));
  tokens ← generate_token_pair (sub claims) (Token.email claims) config;
  _ ← store_refresh_token (sub claims) (refresh_token tokens);
  mret tokens.

Definition logout (token : rstr) : M Server unit :=
  execute schema_ok (fun _ s => (tt, revoke (has_hash (hash_token token)) s)).

(** ** mfa.rs: the handlers, for the user [sub] of the request's claims *)

Definition set_user (p : User.row -> bool) (f : User.row -> User.row) (s : Server) : Server :=
  set_users (update p f (users s)) s.

Definition user_column {A} (f : User.row -> A) (user_id : Z) : M Server A :=
  map_err (to_internal "") (fetch_one (fun s =>
    option_map f (find_row (fun u => User.id u =? user_id) (users s)))).

Definition setup_totp (user_id : Z) : M Server TotpSetup :=
  enabled ← user_column User.totp_enabled user_id;
  if enabled : bool then throw (Conflict (lit "MFA is already enabled")) else
  random ← random_bytes 20;
  let secret := Totp.generate_totp_secret random in
  _ ← map_err (to_internal "") (execute schema_ok (fun _ s =>
    (tt, set_user (fun u => User.id u =? user_id) (User.set_totp_secret (Some secret)) s)));
  email ← user_column User.email user_id;
  mret {| secret := secret;
          provisioning_uri := lit "otpauth://totp/PCOS:" ++ email ++ lit "?secret=" ++ secret
            ++ lit "&issuer=PCOS&algorithm=SHA1&digits=6&period=30" |}.

Definition verify_totp_setup (user_id : Z) (code : rstr) : M Server unit :=
  stored ← user_column User.totp_secret user_id;
  secret ← ok_or stored (Validation (lit "TOTP not set up. Call /mfa/setup first"));
  valid ← verify_totp_now secret code;
  if valid : bool then
    map_err (to_internal "") (execute schema_ok (fun now s =>
      (tt, set_user (fun u => User.id u =? user_id)
             (fun u => User.set_totp_verified_at (Some now) (User.set_totp_enabled true u)) s)))
  else throw (Unauthorized (lit "Invalid TOTP code")).

Definition disable_totp (user_id : Z) (code : rstr) : M Server unit :=
  row ← user_column (fun u => (User.totp_secret u, User.totp_enabled u)) user_id;
  if negb (snd row) then throw (Validation (lit "MFA is not enabled")) else
  secret ← ok_or (fst row) (Internal (lit "No TOTP secret"));
  valid ← verify_totp_now secret code;
  if valid : bool then
    map_err (to_internal "") (execute schema_ok (fun _ s =>
      (tt, set_user (fun u => User.id u =? user_id)
             (fun u => User.set_totp_verified_at None
                         (User.set_totp_secret None (User.set_totp_enabled false u))) s)))
  else throw (Unauthorized (lit "Invalid TOTP code")).

Definition mfa_status (user_id : Z) : M Server (bool * option Z) :=
  user_column (fun u => (User.totp_enabled u, User.totp_verified_at u)) user_id.

(** ** Runs of the shared steps *)

Lemma hash_or_internal_Ok prefix p h w w' :
  hash_or_internal prefix p w = (Ok h, w') ->
  data w' = data w /\ exists salt, Password.hash_password p salt = inr h.
Proof.
  unfold hash_or_internal. intros H. run_ok H. simpl. split; [done|].
  by exists (salt_at (pos w)).
Qed.

Lemma verify_or_internal_Ok prefix p h b w w' :
  verify_or_internal prefix p h w = (Ok b, w') ->
  Password.verify_password p h = inr b /\ w' = w.
Proof. unfold verify_or_internal. intros H. run_ok H. done. Qed.

Lemma store_refresh_token_Ok user_id token w w' :
  store_refresh_token user_id token w = (Ok tt, w') ->
  exists r, RefreshToken.user_id r = user_id /\ RefreshToken.token_hash r = hash_token token
    /\ RefreshToken.revoked r = false
    /\ RefreshToken.expires_at r = clock_at (pos w) + 7 * 86400 * 1000000
    /\ data w' = set_refresh_tokens (insert_row r (refresh_tokens (data w))) (data w).
Proof.
  unfold store_refresh_token. intros H. run_ok H.
  match goal with H : add_seconds _ _ = _ |- _ => apply add_seconds_exact in H end. subst.
  simpl in *. injection H as H. rewrite <- H. clear H.
  eexists (RefreshToken.Build_row _ _ _ _ _ _). repeat split; reflexivity.
Qed.

(** [log_audit] always returns, and changes the audit log only. *)
Lemma log_audit_run user_id action details w :
  exists w' l, log_audit user_id action details w = (Ok tt, w')
  /\ data w' = set_audit_log l (data w).
Proof.
  unfold log_audit, new_v4, interact, mbind, M_bind. cbv beta iota.
  match goal with |- context [discard (execute ?ok ?f) ?v] =>
    destruct (discard_execute_run ok f v) as (w' & R & E) end.
  exists w'. setoid_rewrite R.
  destruct E as [E|[E _]]; [exists (audit_log (data w)) | eexists];
    (split; [reflexivity | rewrite E]); [by destruct w as [[]]|reflexivity].
Qed.

Lemma initial_role_Ok count st role w w' :
  initial_role count st w = (Ok role, w') ->
  w' = w /\ role = (if count =? 0 then lit "admin" else lit "user")
  /\ (count = 0 -> forall t, bootstrap = Some t -> trim t <> [] -> trim (default [] st) = trim t).
Proof.
  unfold initial_role. intros H. run_ok H; (split; [done|]; split; [done|]); try lia; try done.
  intros _ t [= <-] N. destruct (trim _) eqn:E' in N; [done|]. rewrite E' in *.
  match goal with E : nonempty _ && _ = false |- _ => simpl in E end. boolify. done.
Qed.

Lemma log_audit_Ok user_id action details w x w' :
  log_audit user_id action details w = (Ok x, w') -> exists l, data w' = set_audit_log l (data w).
Proof.
  intros H. destruct (log_audit_run user_id action details w) as (w1 & l & H1 & E).
  rewrite H1 in H. simplify_eq. by exists l.
Qed.

Lemma unwrap_query_Ok {A} (f : Server -> A) a b w w' :
  reliable O -> unwrap_or (query f) a w = (Ok b, w') ->
  b = f (data w) /\ data w' = data w.
Proof.
  intros R. unfold unwrap_or, query, statement. destruct (R (pos w)) as [-> _].
  by intros [= <- <-].
Qed.

Lemma check_mfa_Ok user_id code w w' u :
  reliable O -> schema_ok (data w) = true ->
  check_mfa user_id code w = (Ok tt, w') -> u ∈ users (data w) -> User.id u = user_id ->
  data w' = data w /\
  (forall s, User.totp_enabled u = true -> User.totp_secret u = Some s ->
     exists n, Totp.verify_totp (timestamp (clock_at n)) s (trim (default [] code)) = true).
Proof.
  intros R K H Hu E. unfold check_mfa in H. apply bind_Ok in H as (row & w1 & Hrow & H).
  apply unwrap_query_Ok in Hrow as [-> D]; [|done].
  rewrite <- E, (find_user (data w) u K Hu) in H. simpl in H. destruct (User.totp_enabled u); [|run_ok H; done].
  destruct (User.totp_secret u) as [s|]; [|run_ok H; done].
  destruct (nonempty _); [|run_ok H]. unfold verify_totp_now in H. run_ok H.
  simpl. split; [done|]. intros s' _ [= <-]. eauto.
Qed.

(** Replace the runs of shared steps by what they established. *)
Ltac steps :=
  repeat match goal with
  | H : hash_or_internal _ _ _ = _ |- _ => apply hash_or_internal_Ok in H as (? & ? & ?)
  | H : verify_or_internal _ _ _ _ = _ |- _ => apply verify_or_internal_Ok in H as [? ->]
  | H : initial_role _ _ _ = _ |- _ => apply initial_role_Ok in H as (-> & ? & ?)
  | H : validate_token _ _ _ = _ |- _ => apply validate_token_Ok in H as [_ ->]
  | H : generate_token_pair _ _ _ _ = _ |- _ => apply generate_token_pair_Ok in H as (? & _)
  | H : store_refresh_token _ _ _ = (Ok ?x, _) |- _ =>
      destruct x; apply store_refresh_token_Ok in H as (? & ? & ? & ? & ? & ?)
  | H : log_audit _ _ _ _ = _ |- _ => apply log_audit_Ok in H as (? & ?)
  | H : find_row _ _ = Some _ |- _ => apply find_row_Some in H as [? ?]
  | H : unwrap_or (query _) _ _ = _ |- _ => apply unwrap_query_Ok in H as [? ?]; [|assumption]
  | H : (_, _) = (_, data _) |- _ => injection H as ? ?
  | H : ?s = data _ |- _ => lazymatch s with data _ => fail | _ => symmetry in H end
  | H : data _ = _ |- _ => rewrite H in *; clear H
  end.

(** An unrevoked row of the table holds the hash. *)
Definition live_session (h : rstr) (s : Server) : Prop :=
  exists r, r ∈ refresh_tokens s /\ RefreshToken.token_hash r = h /\ RefreshToken.revoked r = false.

Lemma revoke_ends p h s :
  (forall r, r ∈ refresh_tokens s -> RefreshToken.token_hash r = h ->
     RefreshToken.revoked r = false -> p r = true) ->
  ~ live_session h (revoke p s).
Proof.
  intros Hp (r & Hr & Eh & Er). unfold revoke in Hr. simpl in Hr.
  apply elem_update in Hr as (r0 & Hr0 & ->). destruct (p r0) eqn:E; [done|].
  by rewrite Hp in E.
Qed.

(** A refresh succeeds only on a live session; otherwise it is an error, never
    a panic. *)
Lemma refresh_dead token w o w' :
  ~ live_session (hash_token token) (data w) -> refresh token w = (o, w') ->
  (exists e, o = Err e) /\ data w' = data w.
Proof.
  intros N H. unfold refresh, validate_token, utc_now, interact, mbind, M_bind in H.
  simpl in H. destruct (jwt_decode _ _ _) as [e|c]; [unfold throw in H; simplify_eq; eauto|].
  unfold mret, M_ret, query_now, statement in H. simpl in H.
  destruct (db_fault _); [simplify_eq; eauto|].
  destruct (find_row _ _) as [r|] eqn:F; [|simpl in H; unfold throw in H; simplify_eq; eauto].
  destruct N. apply find_row_Some in F as [Hr E]. boolify. exists r. split; [done|].
  unfold has_hash in *. boolify. done.
Qed.

(** C4: login is sound when the database answers: the answer goes to an active
    account with the normalized address, whose stored hash verifies the password
    and whose enabled second factor verified the code; the accounts are
    unchanged and one live session of seven days is opened for the refresh token
    handed out. *)
Theorem login_sound req w r w' :
  reliable O -> schema_ok (data w) = true -> login req w = (Ok r, w') ->
  exists u s,
    (u ∈ users (data w) /\ User.email u = normalize_email (login_email req)
     /\ User.is_active u = true
     /\ Password.verify_password (login_password req) (User.password_hash u) = inr true)
    /\ (forall k, User.totp_enabled u = true -> User.totp_secret u = Some k ->
         exists n, Totp.verify_totp (timestamp (clock_at n)) k (trim (default [] (mfa_code req))) = true)
    /\ user r = user_response u /\ users (data w') = users (data w)
    /\ refresh_tokens (data w') = refresh_tokens (data w) ++ [s]
    /\ RefreshToken.user_id s = User.id u /\ RefreshToken.revoked s = false
    /\ RefreshToken.token_hash s = hash_token (refresh_token (tokens r)).
Proof.
  intros R K H. unfold login in H. run_ok H. simpl in *.
  match goal with H : find_row _ _ = Some _ |- _ => apply find_row_Some in H as [Hu E] end.
  boolify.
  match goal with H : verify_or_internal _ _ _ _ = _ |- _ => apply verify_or_internal_Ok in H as [V ->] end.
  match goal with H : check_mfa _ _ _ = (Ok ?x, _) |- _ =>
    destruct x; eapply check_mfa_Ok in H as [D1 M]; [|done..] end.
  match goal with H : generate_token_pair _ _ _ _ = _ |- _ => apply generate_token_pair_Ok in H as (D2 & _) end.
  match goal with H : store_refresh_token _ _ _ = (Ok ?x, _) |- _ =>
    destruct x; apply store_refresh_token_Ok in H as (s & S1' & S2' & S3 & _ & D3) end.
  match goal with H : log_audit _ _ _ _ = _ |- _ => apply log_audit_Ok in H as (l & D4) end.
  simpl in *. eexists _, s. rewrite D4, D3, D2, D1. simpl. unfold insert_row. eauto 20.
Qed.

(** C6: rotation makes a refresh token single-use.  When its hash names one
    session, a successful refresh ends that session and opens one for the new
    token, and from that state every further refresh with the old token is an
    error that changes nothing. *)
Theorem refresh_single_use token w p w' :
  unique_key RefreshToken.token_hash (refresh_tokens (data w)) = true ->
  unique_key RefreshToken.id (refresh_tokens (data w)) = true ->
  refresh token w = (Ok p, w') ->
  hash_token (refresh_token p) <> hash_token token ->
  live_session (hash_token token) (data w)
  /\ live_session (hash_token (refresh_token p)) (data w')
  /\ forall v o v', data v = data w' -> refresh token v = (o, v') ->
       (exists e, o = Err e) /\ data v' = data v.
Proof.
  intros UH UI H N. unfold refresh in H. run_ok H. simpl in *.
  match goal with H : find_row _ _ = Some ?r |- _ =>
    apply find_row_Some in H as [Hr E]; rename r into old end.
  match goal with H : validate_token _ _ _ = _ |- _ => apply validate_token_Ok in H as [_ ->] end.
  match goal with H : generate_token_pair _ _ _ _ = _ |- _ => apply generate_token_pair_Ok in H as (D2 & _) end.
  match goal with H : store_refresh_token _ _ _ = (Ok ?x, _) |- _ =>
    destruct x; apply store_refresh_token_Ok in H as (s & S1' & S2' & S3 & _ & D3) end.
  match goal with H : (tt, _) = (_, data _) |- _ => injection H as _ D1' end.
  boolify. unfold has_hash in *. boolify. simpl in *. split; [by exists old|]. split.
  - exists s. rewrite D3. simpl. split; [|done]. apply elem_insert. by right.
  - intros v o v' Hd Hv. eapply refresh_dead; [|exact Hv]. rewrite Hd, D3, D2, <- D1'. simpl.
    intros (y & Hy & Eh & Er). simpl in Hy. apply elem_insert in Hy as [Hy| ->]; [|congruence].
    apply (revoke_ends (fun r => RefreshToken.id r =? RefreshToken.id old) (hash_token token) (data w));
      [|by exists y].
    intros r Hr' Er' _. apply Z.eqb_eq. f_equal. apply (unique_key_inj _ _ _ _ UH); [done..|congruence].
Qed.

(** after a logout the token's sessions are over: a refresh with it is an
    error that changes nothing, and the other sessions are as before. *)
Theorem logout_ends_session token w w' :
  logout token w = (Ok tt, w') ->
  (forall v o v', data v = data w' -> refresh token v = (o, v') ->
     (exists e, o = Err e) /\ data v' = data v)
  /\ select (fun r => negb (has_hash (hash_token token) r)) (refresh_tokens (data w'))
     = select (fun r => negb (has_hash (hash_token token) r)) (refresh_tokens (data w)).
Proof.
  unfold logout. intros H. run_ok H. injection H as H. rewrite <- H. split.
  - intros v o v' E. apply refresh_dead. rewrite E. apply revoke_ends.
    intros r _ Er _. unfold has_hash. by apply bool_decide_eq_true.
  - simpl. apply select_update_disjoint. intros r _ Hp. unfold has_hash in *. simpl. by rewrite Hp.
Qed.

(** The password a fresh hash was made from verifies. *)
Lemma hashed_verifies password salt h :
  Password.hash_password password salt = inr h -> Password.verify_password password h = inr true.
Proof.
  intros H. apply argon2_verify_hash in H as (P & V & N).
  unfold Password.verify_password. by rewrite N, P, V.
Qed.

(** registration, when the database answers: the address is new and passes
    the validators, one active account is appended, its hash verifies the
    password, it is an administrator exactly when it is the first account, and
    the first account shows the bootstrap token when one is configured. *)
Theorem register_sound req w r w' :
  reliable O -> register req w = (Ok r, w') ->
  let email := normalize_email (reg_email req) in
  (forall u, u ∈ users (data w) -> User.email u <> email)
  /\ Validation.validate_email email = Ok tt
  /\ Validation.validate_password (reg_password req) = Ok tt
  /\ exists u, users (data w') = users (data w) ++ [u] /\ user r = user_response u
     /\ User.email u = email /\ User.is_active u = true
     /\ Password.verify_password (reg_password req) (User.password_hash u) = inr true
     /\ User.role u = (if nonempty (users (data w)) then lit "user" else lit "admin")
     /\ (users (data w) = [] -> forall t, bootstrap = Some t -> trim t <> [] ->
         trim (default [] (setup_token req)) = trim t)
     /\ live_session (hash_token (refresh_token (tokens r))) (data w').
Proof.
  cbv zeta. intros R H. unfold register in H. run_ok H. steps. subst. simpl in *.
  repeat match goal with x : () |- _ => destruct x end.
  split; [|split; [done|split; [done|]]].
  { intros u Hu Eu. rewrite exists_row_false in E0. specialize (E0 u Hu). simpl in E0.
    by apply bool_decide_eq_false in E0. }
  eexists. split; [reflexivity|]. split; [reflexivity|]. split; [done|]. split; [done|].
  split; [by eapply hashed_verifies|]. split; [by destruct (users (data w))|].
  split; [intros Hn; apply H6; by rewrite Hn|].
  eexists. simpl. rewrite elem_insert. eauto.
Qed.
(** ** The frames the operations keep *)

Section Frame.
Context (R : Server -> Server -> Prop) {F : Frame R}.

Lemma log_audit_keeps u a d : preserves R (log_audit u a d).
Proof. unfold log_audit. keeps. Qed.

Lemma store_keeps u t : preserves R (store_refresh_token u t).
Proof. unfold store_refresh_token. keeps. Qed.

#[local] Hint Resolve log_audit_keeps store_keeps : effects.

Lemma check_mfa_keeps u c : preserves R (check_mfa u c).
Proof. unfold check_mfa, verify_totp_now. keeps. Qed.

#[local] Hint Resolve check_mfa_keeps : effects.

Lemma user_column_keeps {A} (f : User.row -> A) u : preserves R (user_column f u).
Proof. unfold user_column. keeps. Qed.

Lemma hash_keeps p m : preserves R (hash_or_internal p m).
Proof. unfold hash_or_internal. keeps. Qed.

Lemma verify_keeps p m h : preserves R (verify_or_internal p m h).
Proof. unfold verify_or_internal. keeps. Qed.

#[local] Hint Resolve hash_keeps verify_keeps user_column_keeps : effects.

Lemma register_keeps req : preserves R (register req).
Proof. unfold register, initial_role. keeps. Qed.

Lemma login_keeps req : preserves R (login req).
Proof. unfold login. keeps. Qed.

Lemma refresh_keeps t : preserves R (refresh t).
Proof. unfold refresh. keeps. Qed.

Lemma logout_keeps t : preserves R (logout t).
Proof. unfold logout. keeps. Qed.

(** The operations of the second factor keep a frame that does not look at
    its columns. *)
Lemma mfa_keeps u c :
  (forall p f s, (forall x, User.id (f x) = User.id x /\ User.role (f x) = User.role x) ->
     R s (set_user p f s)) ->
  preserves R (setup_totp u) /\ preserves R (verify_totp_setup u c) /\ preserves R (disable_totp u c).
Proof.
  intros HR. unfold setup_totp, verify_totp_setup, disable_totp, verify_totp_now.
  split; [|split]; keeps; by apply HR.
Qed.
End Frame.

(** ** The second factor over all operations *)

Inductive op :=
| Register (req : RegisterRequest)
| Login (req : LoginRequest)
| Refresh (token : rstr)
| Logout (token : rstr)
| SetupTotp (user_id : Z)
| VerifyTotpSetup (user_id : Z) (code : rstr)
| DisableTotp (user_id : Z) (code : rstr)
| MfaStatus (user_id : Z).

Definition run_op (o : op) : M Server unit :=
  match o with
  | Register req => _ ← register req; mret tt
  | Login req => _ ← login req; mret tt
  | Refresh token => _ ← refresh token; mret tt
  | Logout token => logout token
  | SetupTotp u => _ ← setup_totp u; mret tt
  | VerifyTotpSetup u code => verify_totp_setup u code
  | DisableTotp u code => disable_totp u code
  | MfaStatus u => _ ← mfa_status u; mret tt
  end.

(** Every enabled second factor of [s] is in [s'], with its secret. *)
Definition factors_kept (s s' : Server) : Prop :=
  forall u k, u ∈ users s -> User.totp_enabled u = true -> User.totp_secret u = Some k ->
  exists u', u' ∈ users s' /\ User.id u' = User.id u
    /\ User.totp_enabled u' = true /\ User.totp_secret u' = Some k.

#[export] Instance factors_kept_preorder : PreOrder factors_kept.
Proof.
  split; [by intros s u k; eauto|]. intros s1 s2 s3 H12 H23 u k Hu E K.
  destruct (H12 u k Hu E K) as (u' & Hu' & I & E' & K').
  destruct (H23 u' k Hu' E' K') as (u'' & ? & ? & ? & ?). exists u''. by rewrite <- I.
Qed.

Lemma factors_same_users s s' : users s' = users s -> factors_kept s s'.
Proof. intros E u k. rewrite E. eauto. Qed.

Lemma factors_insert_user s s' u : users s' = insert_row u (users s) -> factors_kept s s'.
Proof.
  intros E v k Hv. rewrite E. exists v. rewrite elem_insert. eauto.
Qed.

Lemma factors_update s p f :
  (forall u k, u ∈ users s -> p u = true -> User.totp_enabled u = true ->
     User.totp_secret u = Some k -> User.id (f u) = User.id u /\ User.totp_enabled (f u) = true
     /\ User.totp_secret (f u) = Some k) ->
  factors_kept s (set_user p f s).
Proof.
  intros H u k Hu E K. exists (if p u then f u else u). split.
  - apply elem_update. eauto.
  - destruct (p u) eqn:P; [by eapply H|done].
Qed.

#[export] Instance factors_frame : Frame factors_kept :=
  {| frame_same := factors_same_users; frame_insert := factors_insert_user |}.

Lemma verify_setup_keeps u c : preserves factors_kept (verify_totp_setup u c).
Proof.
  unfold verify_totp_setup, verify_totp_now. keeps.
  apply factors_update. intros x k _ _ _ K. done.
Qed.

Lemma user_column_run {A} (f : User.row -> A) user_id w o w' :
  user_column f user_id w = (o, w') ->
  data w' = data w /\
  forall a, o = Ok a -> exists u, u ∈ users (data w) /\ User.id u = user_id /\ a = f u.
Proof.
  unfold user_column, map_err, fetch_one, statement. intros H.
  destruct (db_fault _); [simplify_eq; done|].
  destruct (find_row _ _) as [u|] eqn:F; simpl in H; simplify_eq; [|done].
  split; [done|]. intros a [= <-]. apply find_row_Some in F as [? E]. boolify. eauto.
Qed.

Lemma setup_keeps user_id w o w' :
  schema_ok (data w) = true -> setup_totp user_id w = (o, w') -> factors_kept (data w) (data w').
Proof.
  intros K H. unfold setup_totp in H. apply bind_inv in H as [(en & w1 & H1 & H)|(o' & H)];
    [|by apply user_column_run in H as [-> _]].
  apply user_column_run in H1 as (D1 & F). destruct (F en eq_refl) as (u & Hu & Eu & ->).
  destruct (User.totp_enabled u) eqn:En; [unfold throw in H; simplify_eq; by rewrite D1|].
  apply bind_inv in H as [(r & w2 & H2 & H)|(o' & H)];
    [|apply (preserves_random_bytes eq) in H; rewrite <- H, D1; reflexivity].
  apply (preserves_random_bytes eq) in H2. rewrite <- D1, H2 in *.
  assert (S : factors_kept (data w2) (set_user (fun x => User.id x =? user_id)
                (User.set_totp_secret (Some (Totp.generate_totp_secret r))) (data w2))).
  { apply factors_update. intros x k Hx Ex Exn. apply Z.eqb_eq in Ex.
    assert (x = u) as -> by (eapply (unique_key_inj User.id); eauto using key_user; congruence).
    congruence. }
  apply bind_inv in H as [([] & w3 & H3 & H)|(o' & H3)]; apply map_err_inv in H3 as (o3 & H3);
    (apply execute_inv in H3 as [E3|[E3 _]]; [|simpl in E3]).
  - rewrite <- E3. apply bind_inv in H as [(e & w4 & H4 & H)|(o' & H)]; [|by apply user_column_run in H as [-> _]].
    apply user_column_run in H4 as [D4 _]. unfold mret, M_ret in H. simplify_eq. by rewrite D4.
  - transitivity (data w3); [by rewrite E3|].
    apply bind_inv in H as [(e & w4 & H4 & H)|(o' & H)]; [|by apply user_column_run in H as [-> _]].
    apply user_column_run in H4 as [D4 _]. unfold mret, M_ret in H. simplify_eq. by rewrite D4.
  - by rewrite E3.
  - by rewrite E3.
Qed.

(** A code the stored secret of the user verifies at some instant. *)
Definition valid_code (user_id : Z) (code : rstr) (s : Server) : Prop :=
  exists u k n, u ∈ users s /\ User.id u = user_id /\ User.totp_enabled u = true
    /\ User.totp_secret u = Some k /\ Totp.verify_totp (timestamp (clock_at n)) k code = true.

Lemma disable_keeps user_id code w o w' :
  disable_totp user_id code w = (o, w') ->
  valid_code user_id code (data w) \/ factors_kept (data w) (data w').
Proof.
  intros H. unfold disable_totp in H. apply bind_inv in H as [(r & w1 & H1 & H)|(o' & H)];
    [|apply user_column_run in H as [-> _]; by right].
  apply user_column_run in H1 as (D1 & F). destruct (F r eq_refl) as (u & Hu & Eu & ->). simpl in H.
  destruct (User.totp_enabled u) eqn:En; simpl in H; [|unfold throw in H; simplify_eq; rewrite D1; by right].
  destruct (User.totp_secret u) as [k|] eqn:Ek; simpl in H;
    [|unfold mbind, M_bind, throw in H; simplify_eq; rewrite D1; by right].
  unfold verify_totp_now, utc_now, interact, mbind, M_bind, mret, M_ret in H. simpl in H.
  destruct (Totp.verify_totp _ _ _) eqn:V; [left; by exists u, k, (pos w1)|].
  unfold throw in H. simplify_eq. simpl. rewrite D1. by right.
Qed.

(** an enabled second factor is removed or replaced by nothing but its own
    removal with a valid code: whatever operation runs, with whatever arguments,
    outcome and database errors, every enabled factor keeps its secret, unless
    the operation is [disable_totp] for that account with a code its secret
    verifies. *)
Theorem second_factor_stays o w out w' :
  schema_ok (data w) = true -> run_op o w = (out, w') ->
  (forall user_id code, o = DisableTotp user_id code -> ~ valid_code user_id code (data w)) ->
  factors_kept (data w) (data w').
Proof.
  intros K H N. destruct o; simpl in H.
  - eapply (preserves_bind _ _ _ (register_keeps _ req)), H. intros; apply preserves_ret; apply _.
  - eapply (preserves_bind _ _ _ (login_keeps _ req)), H. intros; apply preserves_ret; apply _.
  - eapply (preserves_bind _ _ _ (refresh_keeps _ token)), H. intros; apply preserves_ret; apply _.
  - by eapply (logout_keeps factors_kept).
  - apply bind_inv in H as [(a & w1 & H1 & H)|(o' & H)]; [|by eapply setup_keeps].
    unfold mret, M_ret in H. simplify_eq. by eapply setup_keeps.
  - by eapply verify_setup_keeps.
  - apply disable_keeps in H as [V|]; [|done]. by destruct (N _ _ eq_refl).
  - apply bind_inv in H as [(a & w1 & H1 & H)|(o' & H)]; unfold mfa_status in *;
      [unfold mret, M_ret in H; simplify_eq|]; eapply (user_column_keeps factors_kept); eauto.
Qed.
End Auth.

(** ** Concrete runs *)

Definition demo_user (i : Z) (mail role : string) (mfa : option rstr) : User.row :=
  {| User.id := i; User.email := lit mail; User.display_name := lit "Ada";
     User.password_hash := lit "$argon2id$" ++ plain_hex_encode (as_bytes (lit "Secret#12345"));
     User.is_active := true; User.created_at := 0; User.updated_at := 0; User.role := lit role;
     User.totp_secret := mfa; User.totp_enabled := match mfa with Some _ => true | None => false end;
     User.totp_verified_at := None; User.storage_quota_bytes := 10737418240 |}.

Definition demo_server : Server :=
  set_users [demo_user 1 "ada@example.com" "admin" (Some (lit "JBSWY3DPEHPK3PXP"));
             demo_user 2 "bob@example.com" "user" None] empty_server.

Definition demo_login (faults : list nat) (mail : string) (code : option rstr) :=
  login (O := toy_env faults) (CH := plain_chrono) (JW := toy_jwt) (S1 := toy_sha1)
    (S2 := toy_sha256) (HX := plain_hex) (AR := toy_argon2) (U := ascii_unicode) toy_config
    {| login_email := lit mail; login_password := lit "Secret#12345"; mfa_code := code |}
    (mkWorld demo_server 0).

Definition demo_register (faults : list nat) (bootstrap : option rstr) (mail : string) (s : Server) :=
  register (O := toy_env faults) (CH := plain_chrono) (JW := toy_jwt) (S2 := toy_sha256)
    (HX := plain_hex) (AR := toy_argon2) (U := ascii_unicode) toy_config bootstrap
    {| reg_email := lit mail; reg_display_name := lit "Eve"; reg_password := lit "Secret#12345";
       setup_token := None |} (mkWorld s 0).

(** the second factor and the role of the first account fail open.  With
    every statement answered, an account with TOTP enabled cannot log in
    without a code and a later account is a plain user; when the one statement
    that reads the second factor fails, the login succeeds with the password
    alone, and when the one that counts the accounts fails, the new account is
    an administrator. *)
Theorem auth_fails_open_on_database_errors :
  (fst (demo_login [] "ada@example.com" None)
     = Err (Unauthorized (lit "Two-Factor Authentication code required"))
   /\ exists r, fst (demo_login [1%nat] "ada@example.com" None) = Ok r /\ resp_id (user r) = 1)
  /\ (map User.role (users (data (snd (demo_register [] None "eve@example.com" demo_server))))
        = [lit "admin"; lit "user"; lit "user"]
      /\ map User.role (users (data (snd (demo_register [2%nat] None "eve@example.com" demo_server))))
        = [lit "admin"; lit "user"; lit "admin"]).
Proof.
  split; split; [vm_compute; reflexivity| |vm_compute; reflexivity|vm_compute; reflexivity].
  eexists. split; [vm_compute; reflexivity|reflexivity].
Qed.

Lemma login_witness : exists r w', demo_login [] "bob@example.com" None = (Ok r, w')
  /\ user r = user_response (demo_user 2 "bob@example.com" "user" None).
Proof.
  destruct (demo_login [] "bob@example.com" None) as [[r|e| |] w'] eqn:E;
    [|not_ok E..].
  exists r, w'. split; [reflexivity|]. unfold demo_login in E.
  destruct (login_sound (O := toy_env []) (CH := plain_chrono) (JW := toy_jwt) (S1 := toy_sha1)
    (S2 := toy_sha256) (HX := plain_hex) (AR := toy_argon2) (U := ascii_unicode) toy_config _ (mkWorld demo_server 0) r w'
    toy_env_reliable ltac:(vm_compute; reflexivity) E)
    as (u & s & (Hu & Eu & _) & _ & R & _).
  rewrite R. apply list_elem_of_In in Hu. simpl in Hu. destruct Hu as [<-|[<-|[]]]; [|reflexivity].
  vm_compute in Eu. discriminate Eu.
Defined.

Lemma register_witness : exists r w', demo_register [] None "eve@example.com" demo_server = (Ok r, w')
  /\ exists u, users (data w') = users demo_server ++ [u] /\ User.role u = lit "user".
Proof.
  destruct (demo_register [] None "eve@example.com" demo_server) as [[r|e| |] w'] eqn:E;
    [|not_ok E..].
  exists r, w'. split; [reflexivity|]. unfold demo_register in E.
  destruct (register_sound (O := toy_env []) (CH := plain_chrono) (JW := toy_jwt)
    (S2 := toy_sha256) (HX := plain_hex) (AR := toy_argon2) (U := ascii_unicode) toy_config None _ _ r w'
    toy_env_reliable E) as (_ & _ & _ & u & Hu & _ & _ & _ & _ & R & _).
  exists u. split; [exact Hu|]. rewrite R. reflexivity.
Defined.

(** Two tokens of different lengths have different digests here. *)
Definition demo_session : World Server := snd (demo_login [] "bob@example.com" None).
Definition demo_token : rstr :=
  match fst (demo_login [] "bob@example.com" None) with
  | Ok r => refresh_token (tokens r) | _ => [] end.

Definition demo_refresh (token : rstr) (w : World Server) :=
  refresh (O := toy_env []) (CH := plain_chrono) (JW := toy_jwt) (S2 := toy_sha256)
    (HX := plain_hex) toy_config token w.

Definition demo_pair : TokenPair :=
  match fst (demo_refresh demo_token demo_session) with
  | Ok p => p
  | _ => {| access_token := []; refresh_token := []; token_type := []; expires_in := 0 |}
  end.

Lemma refresh_witness :
  live_session (hash_token (S2 := toy_sha256) (HX := plain_hex) demo_token) (data demo_session)
  /\ exists e, fst (demo_refresh demo_token (snd (demo_refresh demo_token demo_session))) = Err e.
Proof.
  assert (E : demo_refresh demo_token demo_session
              = (Ok demo_pair, snd (demo_refresh demo_token demo_session)))
    by (vm_compute; reflexivity).
  assert (N : hash_token (S2 := toy_sha256) (HX := plain_hex) (refresh_token demo_pair)
              <> hash_token (S2 := toy_sha256) (HX := plain_hex) demo_token).
  { apply (bool_decide_unpack _). vm_compute. exact I. }
  generalize dependent demo_pair. generalize (snd (demo_refresh demo_token demo_session)).
  intros w' p E N. unfold demo_refresh at 1 in E.
  destruct (refresh_single_use (O := toy_env []) (CH := plain_chrono) (JW := toy_jwt)
    (S2 := toy_sha256) (HX := plain_hex) toy_config demo_token demo_session p w'
    ltac:(vm_compute; reflexivity) ltac:(vm_compute; reflexivity) E N) as (L & _ & H).
  split; [exact L|].
  destruct (demo_refresh demo_token w') as [o v'] eqn:E2. unfold demo_refresh in E2.
  destruct (H w' o v' eq_refl E2) as [(e & ->) _]. by exists e.
Defined.

Lemma logout_witness : exists w' e,
  logout (O := toy_env []) (S2 := toy_sha256) (HX := plain_hex) demo_token demo_session = (Ok tt, w')
  /\ fst (demo_refresh demo_token w') = Err e.
Proof.
  destruct (logout (O := toy_env []) (S2 := toy_sha256) (HX := plain_hex) demo_token demo_session)
    as [[[]|e| |] w'] eqn:E; [|not_ok E..].
  destruct (demo_refresh demo_token w') as [o v'] eqn:E2. unfold demo_refresh in E2.
  destruct (logout_ends_session (O := toy_env []) (CH := plain_chrono) (JW := toy_jwt)
    (S2 := toy_sha256) (HX := plain_hex) toy_config demo_token demo_session w' E) as [H _].
  destruct (H w' o v' eq_refl E2) as [(e & ->) _]. exists w', e. split; [reflexivity|].
  unfold demo_refresh. rewrite E2. reflexivity.
Defined.

Lemma second_factor_witness :
  factors_kept demo_server
    (data (snd (run_op (O := toy_env []) (CH := plain_chrono) (JW := toy_jwt) (S1 := toy_sha1)
      (S2 := toy_sha256) (HX := plain_hex) (AR := toy_argon2) (U := ascii_unicode) toy_config None
      (SetupTotp 2) (mkWorld demo_server 0)))).
Proof.
  destruct (run_op (O := toy_env []) (CH := plain_chrono) (JW := toy_jwt) (S1 := toy_sha1)
      (S2 := toy_sha256) (HX := plain_hex) (AR := toy_argon2) (U := ascii_unicode) toy_config None
      (SetupTotp 2) (mkWorld demo_server 0)) as [o w'] eqn:E.
  exact (second_factor_stays (O := toy_env []) (CH := plain_chrono) (JW := toy_jwt) (S1 := toy_sha1)
      (S2 := toy_sha256) (HX := plain_hex) (AR := toy_argon2) (U := ascii_unicode) toy_config None
      (SetupTotp 2) (mkWorld demo_server 0) o w' ltac:(vm_compute; reflexivity) E
      ltac:(intros; discriminate)).
Defined.
End Auth.
