(* ===== verification/Account.v ===== *)
(** * Account: recovery phrases, profiles, passwords and administration

    The handlers of auth/src/recovery.rs, user/src/service.rs and
    user/src/admin.rs. *)

From S2P Require Import Prelude Text Effects Externals Schema Validation Password Totp Token Bip39 Auth.
Import Token.

Module Account.

(** ** Requests and answers *)

Record GenerateRecoveryResponse := { recovery_phrase : rstr; recovery_key : rstr }.

Record VerifyRecoveryRequest := {
  rec_email : rstr; rec_phrase : option rstr; rec_key : option rstr; new_password : rstr }.

Record ProfileResponse := {
  prof_id : Z; prof_email : rstr; prof_display_name : rstr; prof_is_active : bool;
  prof_created_at : Z; prof_updated_at : Z; storage_used_bytes : Z; device_count : Z }.

Record ChangePasswordRequest := {
  current_password : option rstr; old_password : option rstr; changed_password : rstr }.

(** A row of the list of [list_users]. *)
Record UserSummary := {
  sum_id : Z; sum_email : rstr; sum_display_name : rstr; sum_role : rstr;
  sum_totp_enabled : bool; sum_storage_quota_bytes : Z; sum_created_at : Z }.

Record SystemStats := {
  total_users : Z; total_files : Z; total_storage_bytes : Z; total_active_shares : Z;
  total_devices : Z }.

Section Account.
Context {O : Oracle} {CH : Chrono} {JW : JsonWebToken} {S1 : Sha1} {S2 : Sha256} {HX : Hex}
  {AR : Argon2} {U : Unicode} {UT : UuidText}.

Definition of_user (user_id : Z) (r : RefreshToken.row) : bool := RefreshToken.user_id r =? user_id.
Definition is_user (user_id : Z) (u : User.row) : bool := User.id u =? user_id.

(** UPDATE users SET password_hash = $1, updated_at = NOW() *)
Definition store_password (user_id : Z) (new_hash : rstr) : M Server unit :=
  execute schema_ok (fun now s =>
    (tt, Auth.set_user (is_user user_id)
           (fun u => User.set_updated_at now (User.set_password_hash new_hash u)) s)).

Definition revoke_all (user_id : Z) : M Server unit :=
  execute schema_ok (fun _ s => (tt, Auth.revoke (of_user user_id) s)).

(** ** recovery.rs *)

Definition generate_recovery_phrase (user_id : Z) : M Server GenerateRecoveryResponse :=
  entropy ← random_bytes 16;
  let phrase := Bip39.generate_bip39_phrase entropy in
  let rec_hash := Bip39.hash_phrase phrase in
  new_id ← new_v4;
  let key_id := lit "rec_" ++ uuid_to_string new_id in
  _ ← execute schema_ok (fun now s =>
    (tt, set_recovery_keys (insert_row
      {| RecoveryKey.id := key_id; RecoveryKey.user_id := user_id;
         RecoveryKey.recovery_hash := rec_hash;
         RecoveryKey.hint := Some (lit "Official standard BIP-39 12-word mnemonic phrase");
         RecoveryKey.is_used := false; RecoveryKey.created_at := now |} (recovery_keys s)) s));
  mret {| recovery_phrase := phrase; recovery_key := key_id |}.

Definition unused_key (user_id : Z) (h : rstr) (k : RecoveryKey.row) : bool :=
  (RecoveryKey.user_id k =? user_id) && bool_decide (RecoveryKey.recovery_hash k = h)
  && negb (RecoveryKey.is_used k).

Definition use_key (key_id : rstr) : M Server unit :=
  execute schema_ok (fun _ s =>
    (tt, set_recovery_keys (update (fun k => bool_decide (RecoveryKey.id k = key_id))
           (RecoveryKey.set_is_used true) (recovery_keys s)) s)).

Definition verify_recovery_phrase (req : VerifyRecoveryRequest) : M Server unit :=
  let email := Auth.normalize_email (rec_email req) in
  _ ← lift (Validation.validate_password (new_password req));
  input_phrase ← ok_or (match rec_phrase req with Some p => Some p | None => rec_key req end)
                       (Validation (lit "recovery_phrase or recovery_key required"));
  _ ← (if (length (split_whitespace input_phrase) =? 12)%nat then
         match Bip39.validate_bip39_phrase input_phrase with
         | inl err_msg => throw (Validation err_msg)
         | inr _ => mret tt
         end
       else mret tt);
  let rec_hash := Bip39.hash_phrase input_phrase in
  user ← map_err (fun _ => NotFound (lit "User not found"))
    (fetch_one (fun s => find_row (fun u => bool_decide (User.email u = email)) (users s)));
  key ← map_err (fun _ => Unauthorized (lit "Invalid or already consumed recovery phrase"))
    (fetch_one (fun s => find_row (unused_key (User.id user) rec_hash) (recovery_keys s)));
  new_hash ← Auth.hash_or_internal "Password hashing failed: " (new_password req);
  _ ← store_password (User.id user) new_hash;
  _ ← use_key (RecoveryKey.id key);
  revoke_all (User.id user).

(** ** user/src/service.rs *)

Definition get_profile (user_id : Z) : M Server ProfileResponse :=
  row ← query (fun s => find_row (is_user user_id) (users s));
  u ← ok_or row (NotFound (lit "User not found"));
  devices ← unwrap_or (query (fun s =>
    count_rows (fun d => Device.user_id d =? user_id) (devices s))) 0;
  mret {| prof_id := User.id u; prof_email := User.email u; prof_display_name := User.display_name u;
          prof_is_active := User.is_active u; prof_created_at := User.created_at u;
          prof_updated_at := User.updated_at u; storage_used_bytes := 0; device_count := devices |}.

Definition update_profile (user_id : Z) (display_name : option rstr) : M Server ProfileResponse :=
  _ ← match display_name with
      | Some n =>
          execute schema_ok (fun now s =>
            (tt, Auth.set_user (is_user user_id)
                   (fun u => User.set_updated_at now (User.set_display_name n u)) s))
      | None => mret tt
      end;
  get_profile user_id.

Definition change_password (user_id : Z) (req : ChangePasswordRequest) : M Server unit :=
  current_pass ← ok_or (match current_password req with Some p => Some p | None => old_password req end)
                       (Validation (lit "Current password is required"));
  row ← query (fun s => option_map User.password_hash (find_row (is_user user_id) (users s)));
  stored ← ok_or row (NotFound (lit "User not found"));
  is_valid ← Auth.verify_or_internal "Password verification failed: " current_pass stored;
  if is_valid : bool then
    new_hash ← Auth.hash_or_internal "Password hashing failed: " (changed_password req);
    _ ← store_password user_id new_hash;
    revoke_all user_id
  else throw (Unauthorized (lit "Invalid current password")).

(** ** user/src/admin.rs *)

Definition require_admin (user_id : Z) : M Server unit :=
  role ← Auth.user_column User.role user_id;
  if bool_decide (role = lit "admin") then mret tt
  else throw (Forbidden (lit "Admin access required")).

(** ORDER BY created_at DESC *)
Definition newest_first (a b : User.row) : bool := User.created_at b <=? User.created_at a.

Definition list_users (caller : Z) : M Server (list UserSummary) :=
  _ ← require_admin caller;
  map_err (to_internal "") (query (fun s =>
    map (fun u => {| sum_id := User.id u; sum_email := User.email u;
                     sum_display_name := User.display_name u; sum_role := User.role u;
                     sum_totp_enabled := User.totp_enabled u;
                     sum_storage_quota_bytes := User.storage_quota_bytes u;
                     sum_created_at := User.created_at u |}) (sort_by newest_first (users s)))).

Definition ROLES : list rstr := [lit "admin"; lit "user"; lit "viewer"].

Definition update_role (caller target : Z) (role : rstr) : M Server unit :=
  _ ← require_admin caller;
  if negb (bool_decide (role ∈ ROLES))
  then throw (Validation (lit "Invalid role. Must be: admin, user, viewer"))
  else if (target =? caller) && negb (bool_decide (role = lit "admin"))
  then throw (Validation (lit "Cannot remove your own admin role"))
  else map_err (to_internal "") (execute schema_ok (fun _ s =>
         (tt, Auth.set_user (is_user target) (User.set_role role) s))).

Definition update_quota (caller target storage_quota_bytes : Z) : M Server unit :=
  _ ← require_admin caller;
  map_err (to_internal "") (execute schema_ok (fun _ s =>
    (tt, Auth.set_user (is_user target) (User.set_storage_quota_bytes storage_quota_bytes) s))).

Definition is_file (f : FileEntry.row) : bool := bool_decide (FileEntry.entry_type f = lit "file").

(** SUM(size_bytes)::BIGINT: out of range is an error of the statement. *)
Definition sum_size (p : FileEntry.row -> bool) (s : Server) : Z :=
  foldr (fun f acc => FileEntry.size_bytes f + acc) 0 (select p (file_entries s)).

Definition sum_query (p : FileEntry.row -> bool) : M Server Z :=
  statement (fun _ s => let v := sum_size p s in
    if int8 v then Rows v s else Fails (DbOther (lit "bigint out of range"))).

Definition system_stats (caller : Z) : M Server SystemStats :=
  _ ← require_admin caller;
  nusers ← map_err (to_internal "") (query (fun s => Z.of_nat (length (users s))));
  nfiles ← map_err (to_internal "") (query (fun s => count_rows is_file (file_entries s)));
  storage ← map_err (to_internal "")
    (sum_query (fun f => is_file f && negb (FileEntry.is_trashed f)));
  shares ← map_err (to_internal "") (query (fun s => count_rows ShareLink.is_active (share_links s)));
  ndevices ← map_err (to_internal "") (query (fun s => Z.of_nat (length (devices s))));
  mret {| total_users := nusers; total_files := nfiles; total_storage_bytes := storage;
          total_active_shares := shares; total_devices := ndevices |}.

(** ** Password changes *)

(** The three writes that end a password change leave the user with the new
    hash, and without a live session; the other accounts and their sessions
    are as before. *)
Definition password_set (user_id : Z) (h : rstr) (s s' : Server) : Prop :=
  (forall u, u ∈ users s' -> User.id u = user_id -> User.password_hash u = h)
  /\ (forall r, r ∈ refresh_tokens s' -> RefreshToken.user_id r = user_id -> RefreshToken.revoked r = true)
  /\ select (fun u => negb (is_user user_id u)) (users s')
     = select (fun u => negb (is_user user_id u)) (users s)
  /\ select (fun r => negb (of_user user_id r)) (refresh_tokens s')
     = select (fun r => negb (of_user user_id r)) (refresh_tokens s).

Lemma update_all {A} p (f : A -> A) t r :
  (forall x, p (f x) = p x) -> r ∈ update p f t -> p r = true -> exists x, x ∈ t /\ r = f x.
Proof.
  intros Hp Hr E. apply elem_update in Hr as (x & Hx & ->). destruct (p x) eqn:Ex; [eauto|].
  by rewrite Ex in E.
Qed.

Lemma select_update_others {A} p (f : A -> A) t :
  (forall x, p (f x) = p x) ->
  select (fun r => negb (p r)) (update p f t) = select (fun r => negb (p r)) t.
Proof. intros Hp. apply select_update_disjoint. intros r _ E. by rewrite Hp, E. Qed.

Lemma password_set_intro user_id h s s1 s' now :
  s1 = Auth.set_user (is_user user_id) (fun u => User.set_updated_at now (User.set_password_hash h u)) s ->
  users s' = users s1 -> refresh_tokens s' = refresh_tokens (Auth.revoke (of_user user_id) s1) ->
  password_set user_id h s s'.
Proof.
  intros -> EU ER. unfold password_set. rewrite EU, ER. unfold Auth.set_user, Auth.revoke. simpl.
  split; [|split; [|split]].
  - intros u Hu E. apply update_all in Hu as (x & _ & ->); [done|done|]. by apply Z.eqb_eq.
  - intros r Hr E. apply update_all in Hr as (x & _ & ->); [done|done|]. by apply Z.eqb_eq.
  - by apply select_update_others.
  - by apply select_update_others.
Qed.

Lemma store_password_Ok user_id h w x w' :
  store_password user_id h w = (Ok x, w') ->
  data w' = Auth.set_user (is_user user_id)
    (fun u => User.set_updated_at (clock_at (pos w)) (User.set_password_hash h u)) (data w).
Proof. unfold store_password. intros H. run_ok H. by injection H as _ <-. Qed.

Lemma revoke_all_Ok user_id w x w' :
  revoke_all user_id w = (Ok x, w') -> data w' = Auth.revoke (of_user user_id) (data w).
Proof. unfold revoke_all. intros H. run_ok H. by injection H as _ <-. Qed.

Lemma use_key_Ok key w x w' :
  use_key key w = (Ok x, w') ->
  data w' = set_recovery_keys (update (fun k => bool_decide (RecoveryKey.id k = key))
           (RecoveryKey.set_is_used true) (recovery_keys (data w))) (data w).
Proof. unfold use_key. intros H. run_ok H. by injection H as _ <-. Qed.

(** C5: changing a password requires the current one; afterwards the stored hash
    verifies the new password, every session of the account is revoked, and no
    other account or session has changed. *)
Theorem change_password_sound user_id req w w' :
  change_password user_id req w = (Ok tt, w') ->
  exists u p h, u ∈ users (data w) /\ User.id u = user_id
    /\ (current_password req = Some p \/ current_password req = None /\ old_password req = Some p)
    /\ Password.verify_password p (User.password_hash u) = inr true
    /\ Password.verify_password (changed_password req) h = inr true
    /\ password_set user_id h (data w) (data w').
Proof.
  unfold change_password. intros H. run_ok H. simpl in *.
  match goal with H : option_map _ ?o = Some _ |- _ => destruct o as [u|] eqn:F; [|done]; injection H as H end.
  apply find_row_Some in F as [Hu Eu]. unfold is_user in Eu. boolify.
  repeat match goal with
  | H : Auth.verify_or_internal _ _ _ _ = _ |- _ => apply Auth.verify_or_internal_Ok in H as [V ->]
  | H : Auth.hash_or_internal _ _ _ = _ |- _ => apply Auth.hash_or_internal_Ok in H as (D & salt & Hh)
  | H : store_password _ _ _ = _ |- _ => apply store_password_Ok in H
  | H : revoke_all _ _ = _ |- _ => apply revoke_all_Ok in H
  end. subst.
  simpl in D. exists u, x, x2. split; [done|]. split; [done|]. split; [|split; [done|split]].
  - destruct (current_password req); [by left; f_equal; injection Hm|by right].
  - by eapply Auth.hashed_verifies.
  - eapply password_set_intro; [by rewrite <- D|by rewrite H, Hm3|by rewrite H, Hm3].
Qed.

(** C34: a recovery phrase resets the password of the account it was issued to,
    once: a successful reset consumed an unused key of that account with the
    phrase's hash, a phrase of twelve words being one that can be generated;
    the new password verifies, the sessions of the account are revoked, and no
    other account, session or key has changed. *)
Theorem recovery_sound req w w' :
  verify_recovery_phrase req w = (Ok tt, w') ->
  exists u k phrase h,
    (u ∈ users (data w) /\ User.email u = Auth.normalize_email (rec_email req))
    /\ (k ∈ recovery_keys (data w) /\ RecoveryKey.user_id k = User.id u
        /\ RecoveryKey.is_used k = false /\ RecoveryKey.recovery_hash k = Bip39.hash_phrase phrase)
    /\ (rec_phrase req = Some phrase \/ rec_phrase req = None /\ rec_key req = Some phrase)
    /\ (length (split_whitespace phrase) = 12%nat -> Bip39.validate_bip39_phrase phrase = inr tt)
    /\ Password.verify_password (new_password req) h = inr true
    /\ password_set (User.id u) h (data w) (data w')
    /\ recovery_keys (data w') = update (fun x => bool_decide (RecoveryKey.id x = RecoveryKey.id k))
         (RecoveryKey.set_is_used true) (recovery_keys (data w)).
Proof.
  unfold verify_recovery_phrase. intros H. run_ok H. all: simpl in *.
  all: repeat match goal with
  | H : find_row _ _ = Some _ |- _ => apply find_row_Some in H as [? ?]
  | H : Auth.hash_or_internal _ _ _ = _ |- _ => apply Auth.hash_or_internal_Ok in H as (D & salt & Hh)
  | H : store_password _ _ _ = _ |- _ => apply store_password_Ok in H
  | H : use_key _ _ = _ |- _ => apply use_key_Ok in H
  | H : revoke_all _ _ = _ |- _ => apply revoke_all_Ok in H
  end; unfold unused_key in *; boolify; simpl in *.
  all: exists x1, x2, x0, x3; simpl in D; split; [done|]; split; [done|];
    split; [destruct (rec_phrase req); [by left; f_equal; injection Hm0|by right]|];
    split; [by intros N; try destruct u|]; split; [by eapply Auth.hashed_verifies|];
    split; [eapply password_set_intro; [by rewrite <- D|by rewrite H, Hm5, Hm4..]
           |by rewrite H; simpl; rewrite Hm5; simpl; rewrite Hm4; simpl; rewrite D].
Qed.

(** ** Administration *)

Definition has_admin (s : Server) : Prop :=
  exists u, u ∈ users s /\ User.role u = lit "admin".

(** An administrator stays one. *)
Definition admins_kept (s s' : Server) : Prop := has_admin s -> has_admin s'.

Lemma admins_update p f s :
  (forall x, User.role (f x) = User.role x) -> admins_kept s (Auth.set_user p f s).
Proof.
  intros Hf (u & Hu & R). exists (if p u then f u else u). split.
  - apply elem_update. eauto.
  - destruct (p u); [by rewrite Hf|done].
Qed.

#[export] Instance admins_frame : Auth.Frame admins_kept.
Proof.
  split.
  - split; [intros s H; exact H|]. intros s1 s2 s3 H1 H2 H. exact (H2 (H1 H)).
  - intros s s' E (u & Hu & R). exists u. by rewrite E.
  - intros s s' v E (u & Hu & R). exists u. rewrite E, elem_insert. eauto.
Qed.

#[export] Instance admins_preorder : PreOrder admins_kept := Auth.frame_preorder.

Inductive op :=
| AuthOp (o : Auth.op)
| GenerateRecovery (user_id : Z)
| VerifyRecovery (req : VerifyRecoveryRequest)
| GetProfile (user_id : Z)
| UpdateProfile (user_id : Z) (display_name : option rstr)
| ChangePassword (user_id : Z) (req : ChangePasswordRequest)
| ListUsers (caller : Z)
| UpdateRole (caller target : Z) (role : rstr)
| UpdateQuota (caller target quota : Z)
| Stats (caller : Z).

Definition run_op (config : AuthConfig) (bootstrap : option rstr) (o : op) : M Server unit :=
  match o with
  | AuthOp o => Auth.run_op config bootstrap o
  | GenerateRecovery u => _ ← generate_recovery_phrase u; mret tt
  | VerifyRecovery req => verify_recovery_phrase req
  | GetProfile u => _ ← get_profile u; mret tt
  | UpdateProfile u n => _ ← update_profile u n; mret tt
  | ChangePassword u req => change_password u req
  | ListUsers c => _ ← list_users c; mret tt
  | UpdateRole c u r => update_role c u r
  | UpdateQuota c u q => update_quota c u q
  | Stats c => _ ← system_stats c; mret tt
  end.

Lemma require_admin_Ok caller w w' :
  require_admin caller w = (Ok tt, w') ->
  data w' = data w /\ exists u, u ∈ users (data w) /\ User.id u = caller /\ User.role u = lit "admin".
Proof.
  unfold require_admin. intros H. run_ok H.
  apply Auth.user_column_run in Hm as [D F]. destruct (F x eq_refl) as (u & Hu & Eu & ->).
  boolify. split; [done|]. eauto.
Qed.

Lemma require_admin_keeps caller : preserves eq (require_admin caller).
Proof. unfold require_admin, Auth.user_column. preserve. Qed.

(** What follows [require_admin] runs only for an administrator. *)
Lemma gated {A} caller (k : M Server A) w o w' :
  (_ ← require_admin caller; k) w = (o, w') ->
  (data w' = data w /\ forall a, o <> Ok a)
  \/ (exists u w1, u ∈ users (data w) /\ User.id u = caller /\ User.role u = lit "admin"
       /\ data w1 = data w /\ k w1 = (o, w')).
Proof.
  unfold mbind, M_bind. destruct (require_admin caller w) as [[[]|e| |] w1] eqn:E; intros H.
  - apply require_admin_Ok in E as (D & u & ? & ? & ?). right. eauto 10.
  - simplify_eq. apply require_admin_keeps in E. by left.
  - simplify_eq. apply require_admin_keeps in E. by left.
  - simplify_eq. apply require_admin_keeps in E. by left.
Qed.

Lemma update_role_keeps caller target role : preserves admins_kept (update_role caller target role).
Proof.
  intros w o w' H. unfold update_role in H. apply gated in H as [[-> _]|(u & w1 & Hu & Eu & R & D & H)];
    [reflexivity|]. rewrite <- D in *.
  destruct (negb _); [unfold throw in H; simplify_eq; reflexivity|].
  destruct ((target =? caller) && _) eqn:E; [unfold throw in H; simplify_eq; reflexivity|].
  apply map_err_inv in H as (o' & H). apply execute_inv in H as [-> |[-> _]]; [reflexivity|].
  intros _. simpl. exists (if is_user target u then User.set_role role u else u). split.
  - apply elem_update. eauto.
  - unfold is_user. destruct (User.id u =? target) eqn:T; [|done]. boolify. subst.
    rewrite Z.eqb_refl in E. simpl in E. boolify. done.
Qed.

Lemma sum_query_keeps R `{!PreOrder R} p : preserves R (sum_query p).
Proof.
  apply preserves_statement; [done|]. intros now s v s' H. cbv zeta in H.
  destruct (int8 _); simplify_eq. reflexivity.
Qed.

(** The steps that Auth.v already treats, the structural rules, and the writes
    of this file. *)
Ltac account_keeps :=
  repeat first
    [ apply (Auth.user_column_keeps admins_kept)
    | apply (Auth.hash_keeps admins_kept)
    | apply (Auth.verify_keeps admins_kept)
    | apply sum_query_keeps; apply _
    | progress Auth.keeps
    | apply admins_update; reflexivity ].

Lemma auth_op_keeps config bootstrap o : preserves admins_kept (Auth.run_op config bootstrap o).
Proof.
  assert (S : forall p f s, (forall x, User.id (f x) = User.id x /\ User.role (f x) = User.role x) ->
    admins_kept s (Auth.set_user p f s)).
  { intros p f s H. apply admins_update. intros x. apply H. }
  destruct o as [req|req|t|t|u|u c|u c|u]; simpl;
    try (apply preserves_bind; [apply _| |intros ?; apply preserves_ret; apply _]).
  - apply (Auth.register_keeps _ _ admins_kept).
  - apply (Auth.login_keeps _ admins_kept).
  - apply (Auth.refresh_keeps _ admins_kept).
  - apply (Auth.logout_keeps admins_kept).
  - by apply (Auth.mfa_keeps admins_kept u []).
  - by apply (Auth.mfa_keeps admins_kept u c).
  - by apply (Auth.mfa_keeps admins_kept u c).
  - apply (Auth.user_column_keeps admins_kept).
Qed.

Lemma run_op_keeps config bootstrap o : preserves admins_kept (run_op config bootstrap o).
Proof.
  destruct o as [a|u|req|u|u n|u req|c|c u r|c u q|c]; simpl;
    [apply auth_op_keeps| | | | | | |apply update_role_keeps| |].
  all: unfold generate_recovery_phrase, verify_recovery_phrase, update_profile, get_profile,
    change_password, list_users, update_quota, system_stats, require_admin, store_password, use_key,
    revoke_all; account_keeps.
Qed.

(** ** Reachable states *)

Inductive steps (config : AuthConfig) (bootstrap : option rstr) : World Server -> World Server -> Prop :=
| steps_refl w : steps config bootstrap w w
| steps_next w1 w2 w3 o out : steps config bootstrap w1 w2 -> run_op config bootstrap o w2 = (out, w3) ->
    steps config bootstrap w1 w3.

(** C35: once there is an administrator there is one after any sequence of
    operations of Auth.v and this file, by any callers, whatever fails. *)
Theorem administrator_remains config bootstrap w w' :
  steps config bootstrap w w' -> has_admin (data w) -> has_admin (data w').
Proof.
  induction 1 as [|w1 w2 w3 o out H IH E]; [done|]. intros A.
  by apply (run_op_keeps _ _ _ _ _ _ E), IH.
Qed.

(** the administrative operations are for administrators: a call by anyone
    else returns no answer and changes nothing. *)
Theorem admin_operations_gated caller w :
  (forall u, u ∈ users (data w) -> User.id u = caller -> User.role u <> lit "admin") ->
  (forall t r o w', update_role caller t r w = (o, w') -> data w' = data w /\ forall a, o <> Ok a)
  /\ (forall t q o w', update_quota caller t q w = (o, w') -> data w' = data w /\ forall a, o <> Ok a)
  /\ (forall o w', list_users caller w = (o, w') -> data w' = data w /\ forall a, o <> Ok a)
  /\ (forall o w', system_stats caller w = (o, w') -> data w' = data w /\ forall a, o <> Ok a).
Proof.
  intros N. split; [|split; [|split]].
  1: intros t r o w' H. 2: intros t q o w' H. 3,4: intros o w' H.
  all: apply gated in H as [H|(u & w1 & Hu & Eu & R & _)]; [done|]; by destruct (N u Hu Eu).
Qed.
End Account.

(** ** Concrete runs *)

Definition demo_change (old new : string) :=
  change_password (O := toy_env []) (S2 := toy_sha256) (HX := plain_hex) (AR := toy_argon2) 2
    {| current_password := Some (lit old); old_password := None; changed_password := lit new |}
    (mkWorld Auth.demo_server 0).

Lemma change_password_witness : exists w' h, demo_change "Secret#12345" "Fresh#98765" = (Ok tt, w')
  /\ password_set 2 h Auth.demo_server (data w').
Proof.
  destruct (demo_change "Secret#12345" "Fresh#98765") as [[[]|e| |] w'] eqn:E; [|not_ok E..].
  unfold demo_change in E.
  destruct (change_password_sound (O := toy_env []) (S2 := toy_sha256) (HX := plain_hex)
    (AR := toy_argon2) 2 _ (mkWorld Auth.demo_server 0) w' E) as (u & p & h & _ & _ & _ & _ & _ & H).
  exists w', h. split; [reflexivity|exact H].
Defined.

Definition demo_key : RecoveryKey.row :=
  {| RecoveryKey.id := lit "rec_1"; RecoveryKey.user_id := 2;
     RecoveryKey.recovery_hash := Bip39.hash_phrase (S2 := toy_sha256) (HX := plain_hex)
       (U := ascii_unicode) (lit "old style phrase");
     RecoveryKey.hint := None; RecoveryKey.is_used := false; RecoveryKey.created_at := 0 |}.

Definition demo_recover (s : Server) :=
  verify_recovery_phrase (O := toy_env []) (S2 := toy_sha256) (HX := plain_hex) (AR := toy_argon2)
    (U := ascii_unicode)
    {| rec_email := lit "Bob@example.com "; rec_phrase := Some (lit "Old style phrase");
       rec_key := None; new_password := lit "Fresh#98765" |} (mkWorld s 0).

Lemma recovery_witness : exists w' h,
  demo_recover (set_recovery_keys [demo_key] Auth.demo_server) = (Ok tt, w')
  /\ password_set 2 h (set_recovery_keys [demo_key] Auth.demo_server) (data w').
Proof.
  destruct (demo_recover (set_recovery_keys [demo_key] Auth.demo_server)) as [[[]|e| |] w'] eqn:E;
    [|not_ok E..].
  unfold demo_recover in E.
  destruct (recovery_sound (O := toy_env []) (S2 := toy_sha256) (HX := plain_hex) (AR := toy_argon2)
    (U := ascii_unicode) _ (mkWorld (set_recovery_keys [demo_key] Auth.demo_server) 0) w' E)
    as (u & k & ph & h & _ & (Hk & Ek & _) & _ & _ & _ & H & _).
  exists w', h. split; [reflexivity|]. simpl in Hk. apply list_elem_of_singleton in Hk. subst k.
  simpl in Ek. rewrite <- Ek in H. exact H.
Defined.

Definition demo_op (o : op) (w : World Server) :=
  run_op (O := toy_env []) (CH := plain_chrono) (JW := toy_jwt) (S1 := toy_sha1)
    (S2 := toy_sha256) (HX := plain_hex) (AR := toy_argon2) (U := ascii_unicode) (UT := plain_uuid)
    toy_config None o w.

Lemma administrator_witness :
  has_admin (data (snd (demo_op (UpdateRole 1 2 (lit "viewer")) (mkWorld Auth.demo_server 0)))).
Proof.
  destruct (demo_op (UpdateRole 1 2 (lit "viewer")) (mkWorld Auth.demo_server 0)) as [o w'] eqn:E.
  unfold demo_op in E.
  apply (administrator_remains (O := toy_env []) (CH := plain_chrono) (JW := toy_jwt) (S1 := toy_sha1)
    (S2 := toy_sha256) (HX := plain_hex) (AR := toy_argon2) (U := ascii_unicode) (UT := plain_uuid)
    toy_config None (mkWorld Auth.demo_server 0)).
  - eapply steps_next; [apply steps_refl|exact E].
  - eexists. split; [left|reflexivity].
Defined.

Lemma admin_gated_witness :
  data (snd (update_role (O := toy_env []) 2 2 (lit "admin") (mkWorld Auth.demo_server 0))) = Auth.demo_server.
Proof.
  destruct (update_role (O := toy_env []) 2 2 (lit "admin") (mkWorld Auth.demo_server 0)) as [o w'] eqn:E.
  refine (proj1 (proj1 (admin_operations_gated (O := toy_env []) 2 (mkWorld Auth.demo_server 0) _)
            2 (lit "admin") o w' E)).
  intros u Hu Eu. apply list_elem_of_In in Hu. simpl in Hu.
  destruct Hu as [<-|[<-|[]]]; [discriminate Eu|]. apply (bool_decide_unpack _). vm_compute. exact I.
Defined.
End Account.
