(* ===== verification/Storage.v ===== *)
(** * Storage: the file store on disk

    backend/crates/file_metadata/src/storage.rs: files written through a
    temporary name and a rename, the chunks of an upload and their assembly, and
    the confinement of stored paths to the base directory. *)

From S2P Require Import Prelude Text Effects Externals Fs Schema.

Module Storage.
Import Fs.

(** The text of an operating-system error, whatever its kind. *)
Definition OS_ERROR : rstr := lit "os error".

(** One call of std::fs on the disk. *)
Definition fs_op `{Oracle} (f : fs -> option fs) : M Server unit :=
  io (fun s => match f (disk s) with
               | Some d => inr (tt, set_disk d s)
               | None => inl OS_ERROR
               end).

Definition fs_read `{Oracle} {A} (f : fs -> option A) : M Server A :=
  io (fun s => match f (disk s) with Some a => inr (a, s) | None => inl OS_ERROR end).

(** Path::with_extension on a file name: what follows the last dot, unless it
    is the first character, is replaced. *)
Fixpoint file_stem (name : rstr) : rstr :=
  match name with
  | [] => []
  | c :: r =>
      if contains_char (chr ".") r then c :: file_stem r
      else if c =? chr "." then [] else c :: file_stem r
  end.
Definition with_extension (name ext : rstr) : rstr :=
  match file_stem name with [] => name | stem => stem end ++ chr "." :: ext.

(** [{:06}] of an i32: the sign counts in the width. *)
Definition show_i6 (n : Z) : rstr :=
  if n <? 0 then chr "-" :: show_padded 5 (- n) else show_padded 6 n.

Section Storage.
Context {O : Oracle} {S2 : Sha256} {HX : Hex} {UT : UuidText}.
(** [base_path], as the components of the directory it denotes. *)
Context (base : path).

Definition id_prefix (file_id : Z) : rstr := take 2 (uuid_to_string file_id).

(** <base>/<user_id>/<first two characters of file_id>/<file_id> *)
Definition user_dir (user_id file_id : Z) : path :=
  base ++ [uuid_to_string user_id; id_prefix file_id].
Definition file_path (user_id file_id : Z) : path :=
  user_dir user_id file_id ++ [uuid_to_string file_id].
Definition chunk_dir (user_id upload_id : Z) : path :=
  base ++ [uuid_to_string user_id; lit "_chunks"; uuid_to_string upload_id].

(** The stored path: relative to the base. *)
Definition relative_path (user_id file_id : Z) : rstr :=
  join [chr "/"] [uuid_to_string user_id; id_prefix file_id; uuid_to_string file_id].

Definition chunk_name (i : Z) : rstr := lit "chunk_" ++ show_i6 i.

Definition digest (data : bytes) : rstr := hex_encode (sha256 data).

(** File::create, write_all, sync_all, rename. *)
Definition write_atomic (tmp final : path) (data : bytes) : M Server unit :=
  _ ← fs_op (fun f => write f tmp []);
  _ ← fs_op (fun f => write f tmp data);
  _ ← fs_op (fun f => Some f);
  fs_op (fun f => rename f tmp final).

Definition store_file (user_id file_id : Z) (data : bytes) : M Server (rstr * rstr) :=
  _ ← fs_op (fun f => create_dir_all f (user_dir user_id file_id));
  let hash := digest data in
  tmp_id ← new_v4;
  let tmp_path := user_dir user_id file_id
    ++ [with_extension (uuid_to_string file_id) (lit "tmp_" ++ uuid_to_string tmp_id)] in
  _ ← write_atomic tmp_path (file_path user_id file_id) data;
  mret (relative_path user_id file_id, hash).

Definition store_chunk (user_id upload_id chunk_index : Z) (data : bytes) : M Server unit :=
  let dir := chunk_dir user_id upload_id in
  _ ← fs_op (fun f => create_dir_all f dir);
  tmp_id ← new_v4;
  let tmp_chunk := dir ++ [lit "tmp_chunk_" ++ show_i6 chunk_index ++ lit "_" ++ uuid_to_string tmp_id] in
  write_atomic tmp_chunk (dir ++ [chunk_name chunk_index]) data.

(** [for i in 0..total_chunks]: chunks [i], [i+1], ... are read and appended to
    the temporary file, which holds [done] so far. *)
Fixpoint append_chunks (n : nat) (i : Z) (dir tmp : path) (written : bytes) : M Server bytes :=
  match n with
  | 0%nat => mret written
  | S k =>
      data ← fs_read (fun f => read f (dir ++ [chunk_name i]));
      _ ← fs_op (fun f => write f tmp (written ++ data));
      append_chunks k (i + 1) dir tmp (written ++ data)
  end.

Definition assemble_chunks (user_id upload_id file_id total_chunks : Z) : M Server (rstr * rstr * Z) :=
  let dir := chunk_dir user_id upload_id in
  _ ← fs_op (fun f => create_dir_all f (user_dir user_id file_id));
  tmp_id ← new_v4;
  let tmp_file := user_dir user_id file_id
    ++ [with_extension (uuid_to_string file_id) (lit "tmp_asm_" ++ uuid_to_string tmp_id)] in
  _ ← fs_op (fun f => write f tmp_file []);
  content ← append_chunks (Z.to_nat total_chunks) 0 dir tmp_file [];
  _ ← fs_op (fun f => Some f);
  _ ← fs_op (fun f => rename f tmp_file (file_path user_id file_id));
  _ ← discard (fs_op (fun f => remove_dir_all f dir));
  mret (relative_path user_id file_id, digest content, Z.of_nat (length content)).

(** ** Confinement *)

Definition normalize_slashes (s : rstr) : rstr := map (fun c => if c =? chr "\" then chr "/" else c) s.

(** Path::components of a relative path: empty and "." parts vanish (a leading
    "." is a CurDir component, which the code lets through and the operating
    system skips). *)
Definition components (s : rstr) : path :=
  List.filter (fun c => nonempty c && negb (bool_decide (c = DOT))) (split_char (chr "/") s).

Definition safe_resolve (f : fs) (rel_path : rstr) : rstr + path :=
  match canonicalize f base with
  | None => inl (lit "Storage base path inaccessible: " ++ OS_ERROR)
  | Some canonical_base =>
      let cleaned := trim_start_by (Z.eqb (chr "/")) (trim (normalize_slashes rel_path)) in
      let b := as_bytes cleaned in
      if (2 <=? length b)%nat && (nth 1 b 0 =? chr ":") && is_ascii_alphabetic (nth 0 b 0)
      then inl (lit "Path traversal attempt: drive letter not permitted")
      else if existsb (fun c => bool_decide (c = DOTDOT)) (components cleaned)
      then inl (lit "Path traversal attempt: forbidden path component")
      else
        let target := canonical_base ++ components cleaned in
        match canonicalize f target with
        | Some canonical_target =>
            if path_prefix canonical_base canonical_target then inr canonical_target
            else inl (lit "Symlink escape violation: target outside storage root")
        | None =>
            match canonicalize f (parent target) with
            | Some canonical_parent =>
                if path_prefix canonical_base canonical_parent then inr target
                else inl (lit "Parent directory escapes storage root")
            | None => inr target
            end
        end
  end.

(** The same as a step: one interaction with the file system. *)
Definition resolve_path (rel_path : rstr) : M Server path :=
  io (fun s => match safe_resolve (disk s) rel_path with
               | inl e => inl e
               | inr p => inr (p, s)
               end).

Definition read_file (storage_path : rstr) : M Server bytes :=
  full_path ← resolve_path storage_path;
  fs_read (fun f => read f full_path).

(** The handle of [open_file]: the path opened, a directory included. *)
Definition open_file (storage_path : rstr) : M Server path :=
  full_path ← resolve_path storage_path;
  fs_read (fun f => canonicalize f full_path).

Definition absolute_path (storage_path : rstr) : M Server path := resolve_path storage_path.

Definition delete_file (storage_path : rstr) : M Server unit :=
  full_path ← resolve_path storage_path;
  s ← get;
  if path_exists (disk s) full_path then fs_op (fun f => remove_file f full_path) else mret tt.

(** ** Lemmas *)

Lemma fs_op_Ok f x w w' :
  fs_op f w = (Ok x, w') ->
  exists d, f (disk (data w)) = Some d /\ data w' = set_disk d (data w).
Proof.
  unfold fs_op. intros H. run_ok H. destruct (f _) as [d|]; [|done]. injection H as _ H.
  exists d. split; [done|by symmetry].
Qed.

Lemma fs_op_inv f w o w' :
  fs_op f w = (o, w') ->
  data w' = data w \/ exists d, o = Ok tt /\ f (disk (data w)) = Some d /\ data w' = set_disk d (data w).
Proof.
  unfold fs_op, io. intros H. destruct (io_fault _); [simplify_eq; by left|].
  destruct (f _) as [d|]; simplify_eq; simpl; [right; by exists d|by left].
Qed.

Lemma fs_read_Ok {A} (f : fs -> option A) a w w' :
  fs_read f w = (Ok a, w') -> f (disk (data w)) = Some a /\ data w' = data w.
Proof.
  unfold fs_read. intros H. run_ok H. destruct (f _) as [d|]; [|done]. injection H as -> H. done.
Qed.

Lemma resolve_path_Ok rel p w w' :
  resolve_path rel w = (Ok p, w') -> safe_resolve (disk (data w)) rel = inr p /\ data w' = data w.
Proof.
  unfold resolve_path. intros H. run_ok H. destruct (safe_resolve _ _); [done|].
  injection H as -> H. done.
Qed.

Lemma uuid_plain u : plain (uuid_to_string u).
Proof.
  pose proof (uuid_to_string_length u) as L. split; intros E; rewrite E in L; vm_compute in L; discriminate.
Qed.

Lemma uuid_chars_not c u : uuid_char c = false -> c ∉ uuid_to_string u.
Proof.
  intros N H. pose proof (uuid_to_string_chars u) as F. rewrite Forall_forall in F.
  apply F in H. congruence.
Qed.

Lemma prefix_plain u : plain (id_prefix u).
Proof.
  assert (N : chr "." ∉ id_prefix u).
  { intros H. unfold id_prefix in H. apply (uuid_chars_not (chr ".") u); [reflexivity|].
    rewrite <- (take_drop 2 (uuid_to_string u)). apply elem_of_app. by left. }
  split; intros E; rewrite E in N; destruct N; left.
Qed.

(** ** Confinement *)

Lemma safe_resolve_target f b rel p q :
  canonicalize f base = Some b -> safe_resolve f rel = inr p -> canonicalize f p = Some q ->
  path_prefix b q = true /\ q = p.
Proof.
  intros Hb H Hq. unfold safe_resolve in H. rewrite Hb in H.
  case_hyp H; [done|]. case_hyp H; [done|].
  destruct (canonicalize f (b ++ _)) as [t|] eqn:T.
  - case_hyp H; [|done]. injection H as <-. apply canonicalize_idem in T.
    rewrite T in Hq. by injection Hq as <-.
  - destruct (canonicalize f (parent _)); [case_hyp H; [|done]|]; injection H as <-; congruence.
Qed.

Lemma remove_canonical f p : canonicalize f p = Some p -> forall f', remove_file f p = Some f' ->
  f' = delete p f.
Proof.
  intros C f' H. unfold remove_file in H. assert (E : entry_name f p = Some p \/ entry_name f p = None).
  { unfold entry_name. pose proof (canonicalize_real _ _ _ C) as R.
    rewrite (real_canonicalize f (parent p)) by (by apply real_parent).
    destruct (node_at f (parent p)) as [[]|]; try by right.
    destruct p as [|c p _] using rev_ind; [by right|]. unfold parent.
    rewrite last_snoc, removelast_last. by left. }
  destruct E as [E | E]; rewrite E in H; [|done]. destruct (node_at f p) as [[]|]; by inversion H.
Qed.

Lemma dotdot_stays s :
  DOTDOT ∈ split_char (chr "/") s -> DOTDOT ∈ split_char (chr "/") (trim_start_by (Z.eqb (chr "/")) s).
Proof.
  induction s as [|c s IH]; intros H; [done|]. cbn [trim_start_by].
  destruct (Z.eqb_spec (chr "/") c) as [E|E]; [|done]. apply IH.
  cbn [split_char] in H. rewrite <- E, Z.eqb_refl in H.
  apply elem_of_cons in H as [H|H]; [done|done].
Qed.

(** C7: no stored path escapes the base directory, links included: what
    [read_file] returns is the content of a file below the canonical base,
    what [open_file] opens is below it, [delete_file] changes nothing outside
    it, and a path with a ".." part or a drive letter is refused. *)
Theorem storage_confined rel b w :
  canonicalize (disk (data w)) base = Some b ->
  (forall d w', read_file rel w = (Ok d, w') ->
     exists q, path_prefix b q = true /\ disk (data w) !! q = Some (File d))
  /\ (forall q w', open_file rel w = (Ok q, w') -> path_prefix b q = true)
  /\ (forall o w' q, delete_file rel w = (o, w') ->
     disk (data w') !! q <> disk (data w) !! q -> path_prefix b q = true)
  /\ (DOTDOT ∈ split_char (chr "/") (trim (normalize_slashes rel)) ->
      forall f, exists e, safe_resolve f rel = inl e).
Proof.
  intros Hb. split; [|split; [|split]].
  - intros d w' H. unfold read_file in H. run_ok H. apply resolve_path_Ok in Hm as [Hp D].
    apply fs_read_Ok in H as [H _]. rewrite D in H. unfold read in H.
    destruct (canonicalize _ x) as [q|] eqn:C; [|done].
    destruct (safe_resolve_target _ _ _ _ _ Hb Hp C) as [P ->]. exists x. split; [done|].
    destruct x; [done|]. simpl in H. destruct (disk (data w) !! _) as [[]|]; by inversion H.
  - intros q w' H. unfold open_file in H. run_ok H. apply resolve_path_Ok in Hm as [Hp D].
    apply fs_read_Ok in H as [H _]. rewrite D in H. by eapply safe_resolve_target.
  - intros o w' q H N. unfold delete_file in H. apply bind_inv in H as [(p & w1 & Hm & H)|(o' & H)].
    + apply resolve_path_Ok in Hm as [Hp D]. unfold mbind, M_bind, get in H. simpl in H.
      unfold path_exists in H. rewrite D in H. destruct (canonicalize _ p) as [c|] eqn:C.
      * destruct (safe_resolve_target _ _ _ _ _ Hb Hp C) as [P ->].
        apply fs_op_inv in H as [H|(d & _ & R & E)]; [congruence|].
        rewrite E in N. simpl in N. rewrite D in R. apply (remove_canonical _ _ C) in R. subst d.
        destruct (decide (q = p)) as [->|Nq]; [done|]. by rewrite lookup_delete_ne in N.
      * unfold mret, M_ret in H. simplify_eq. congruence.
    + unfold resolve_path, io in H. repeat case_match; simplify_eq; done.
  - intros H f. unfold safe_resolve. destruct (canonicalize f base); [|eauto].
    case_goal; [eauto|]. rewrite (proj2 (existsb_exists _ _)); [eauto|].
    exists DOTDOT. split; [|by apply bool_decide_eq_true]. apply filter_In. split; [|done].
    by apply list_elem_of_In, dotdot_stays.
Qed.

(** ** Atomic writes *)

(** A step on the disk fails and changes nothing, or does what it computes. *)
Lemma fs_op_run f w o w' :
  fs_op f w = (o, w') ->
  (o <> Ok tt /\ disk (data w') = disk (data w))
  \/ (o = Ok tt /\ f (disk (data w)) = Some (disk (data w'))).
Proof.
  unfold fs_op, io. intros H. destruct (io_fault _); [simplify_eq; by left|].
  destruct (f _) as [d|]; simplify_eq; simpl; [by right|by left].
Qed.

Lemma fs_op_pos f w o w' : fs_op f w = (o, w') -> pos w' = S (pos w).
Proof.
  unfold fs_op, io. destruct (io_fault _); [by intros [= <- <-]|].
  destruct (f _); by intros [= <- <-].
Qed.

Lemma fs_op_bind f (k : M Server unit) w o w' :
  (_ ← fs_op f; k) w = (o, w') ->
  (o <> Ok tt /\ disk (data w') = disk (data w))
  \/ exists w1, f (disk (data w)) = Some (disk (data w1)) /\ k w1 = (o, w').
Proof.
  unfold mbind, M_bind. destruct (fs_op f w) as [r w1] eqn:E. intros H.
  apply fs_op_run in E as [[N D]|[-> D]]; [|right; eauto].
  left. by destruct r as [[]| | |]; simplify_eq.
Qed.

(** Where a file is about to be written: the directory exists, the final name
    is free or a file. *)
Definition slot (f : fs) (p : path) : Prop := f !! p = None \/ exists b, f !! p = Some (File b).

Definition written (f f' : fs) (tmp final : path) (data : bytes) (o : outcome unit) : Prop :=
  (forall p, p <> tmp -> p <> final -> f' !! p = f !! p)
  /\ ((o <> Ok tt /\ f' !! final = f !! final)
      \/ (o = Ok tt /\ f' !! final = Some (File data) /\ f' !! tmp = None)).

Lemma write_atomic_spec d a b data w o w' :
  dir_ready (disk (Effects.data w)) d -> a <> b ->
  disk (Effects.data w) !! (d ++ [a]) = None -> slot (disk (Effects.data w)) (d ++ [b]) ->
  write_atomic (d ++ [a]) (d ++ [b]) data w = (o, w') ->
  written (disk (Effects.data w)) (disk (Effects.data w')) (d ++ [a]) (d ++ [b]) data o.
Proof.
  intros R Nab Ha Hb H. unfold write_atomic in H. unfold written.
  assert (Nf : d ++ [a] <> d ++ [b]) by (intros E; apply app_inv_head in E; by injection E).
  apply fs_op_bind in H as [[N E]|(w1 & H1 & H)]; [rewrite E; auto|].
  rewrite write_ready in H1 by auto. injection H1 as H1.
  assert (K1 : forall p, p <> d ++ [a] -> disk (Effects.data w1) !! p = disk (Effects.data w) !! p)
    by (intros p Np; rewrite <- H1; by apply lookup_insert_ne).
  assert (R1 : dir_ready (disk (Effects.data w1)) d) by (rewrite <- H1; by apply dir_ready_file).
  apply fs_op_bind in H as [[N E]|(w2 & H2 & H)].
  { rewrite E. split; [intros; by apply K1|left; split; [done|by apply K1]]. }
  rewrite write_ready in H2; [|done|right; rewrite <- H1; exists []; by rewrite lookup_insert_eq].
  injection H2 as H2.
  assert (K2 : forall p, p <> d ++ [a] -> disk (Effects.data w2) !! p = disk (Effects.data w) !! p)
    by (intros p Np; rewrite <- H2, lookup_insert_ne by done; by apply K1).
  assert (R2 : dir_ready (disk (Effects.data w2)) d) by (rewrite <- H2; by apply dir_ready_file).
  apply fs_op_bind in H as [[N E]|(w3 & H3 & H)].
  { rewrite E. split; [intros; by apply K2|left; split; [done|by apply K2]]. }
  injection H3 as H3. apply fs_op_run in H as [[N E]|[-> H]].
  { rewrite E, <- H3. split; [intros; by apply K2|left; split; [done|by apply K2]]. }
  rewrite <- H3 in H. rewrite (rename_ready _ d a b data) in H; [|done| |].
  - injection H as <-. split.
    + intros p Na Np. rewrite lookup_insert_ne, lookup_delete_ne by done. by apply K2.
    + right. split; [done|]. rewrite lookup_insert_eq, lookup_insert_ne by done.
      by rewrite lookup_delete_eq.
  - rewrite <- H2. by rewrite lookup_insert_eq.
  - unfold slot in Hb. by rewrite K2 by done.
Qed.

Lemma open_way_from_root f rest :
  dir_ready f base -> open_way f base rest -> open_way f [] (base ++ rest).
Proof.
  intros [(_ & Hd & He) D] W a b E Na. simpl.
  destruct (decide (length a <= length base)%nat) as [L|L].
  - assert (a = take (length a) base) as A.
    { apply (f_equal (take (length a))) in E. rewrite take_app_le, take_app_length in E by done. done. }
    right. destruct (decide (length a = length base)) as [Q|Q].
    + rewrite Q, take_ge in A by done. subst. rewrite <- node_at_cons by done. done.
    + rewrite A. apply Hd. destruct a; [done|simpl in *; lia].
  - apply app_eq_inv in E as [(k & E1 & E2)|(k & E1 & E2)].
    + exfalso. rewrite E1, length_app in L. lia.
    + rewrite E1. apply (W k b); [done|]. intros ->. rewrite E1, app_nil_r in L. lia.
Qed.

Lemma create_way f rest :
  dir_ready f base -> Forall plain rest -> open_way f base rest ->
  exists f', create_dir_all f (base ++ rest) = Some f' /\ dir_ready f' (base ++ rest)
    /\ forall p, f' !! p = f !! p
       \/ f !! p = None /\ f' !! p = Some Dir /\ exists b, base ++ rest = p ++ b.
Proof.
  intros R Hp W. destruct (create_dirs_ready f [] (base ++ rest)) as (f' & E & R' & S).
  - split; [apply real_nil|done].
  - apply Forall_app. split; [apply R|done].
  - by apply open_way_from_root.
  - exists f'. split; [done|]. split; [done|]. intros p.
    destruct (S p) as [?|(? & ? & a & b & Eb & _ & ->)]; [by left|right].
    split; [done|]. split; [done|]. by exists b.
Qed.

Lemma create_below f rest :
  dir_ready f base -> Forall plain rest -> open_way f base rest ->
  exists f', create_dir_all f (base ++ rest) = Some f' /\ dir_ready f' (base ++ rest)
    /\ forall p, f' !! p = f !! p
       \/ f !! p = None /\ f' !! p = Some Dir /\ (length p <= length (base ++ rest))%nat.
Proof.
  intros R Hp W. destruct (create_way f rest R Hp W) as (f' & E & R' & S). exists f'.
  split; [done|]. split; [done|]. intros p. destruct (S p) as [?|(? & ? & b & Eb)]; [by left|right].
  split; [done|]. split; [done|]. rewrite Eb, length_app. lia.
Qed.

(** ** Stored names *)

Lemma uuid_char_facts c : uuid_char c = true ->
  is_whitespace c = false /\ (c =? chr "\") = false /\ (chr "/" =? c) = false
  /\ (c =? chr ":") = false /\ (c <? 0x80) = true.
Proof.
  unfold uuid_char, is_ascii_digit, is_whitespace.
  change (chr "\") with 92. change (chr "/") with 47. change (chr ":") with 58. change (chr "-") with 45.
  lia.
Qed.

Lemma uuid_forall u : Forall (fun c => uuid_char c = true) (uuid_to_string u).
Proof. apply uuid_to_string_chars. Qed.

Lemma prefix_forall u : Forall (fun c => uuid_char c = true) (id_prefix u).
Proof. apply Forall_take, uuid_forall. Qed.

Lemma no_slash s : Forall (fun c => uuid_char c = true) s -> chr "/" ∉ s.
Proof.
  rewrite Forall_forall. intros F H. apply F in H. vm_compute in H. discriminate.
Qed.

Lemma relative_components user_id file_id :
  components (relative_path user_id file_id)
  = [uuid_to_string user_id; id_prefix file_id; uuid_to_string file_id].
Proof.
  assert (E : split_char (chr "/") (relative_path user_id file_id)
    = [uuid_to_string user_id; id_prefix file_id; uuid_to_string file_id]).
  { unfold relative_path. cbn [join]. cbn [app].
    rewrite split_char_app by apply no_slash, uuid_forall.
    rewrite split_char_app by apply no_slash, prefix_forall.
    by rewrite split_char_last by apply no_slash, uuid_forall. }
  unfold components. rewrite E. cbn [List.filter].
  assert (P : forall x, plain x -> x <> [] -> nonempty x && negb (bool_decide (x = DOT)) = true).
  { intros x [N _] Nx. rewrite bool_decide_eq_false_2 by done. by destruct x. }
  rewrite !P; [done|apply uuid_plain| |apply prefix_plain| |apply uuid_plain|].
  all: unfold id_prefix; intros Z; apply (f_equal length) in Z;
    rewrite ?length_take, ?uuid_to_string_length in Z; discriminate Z.
Qed.

Lemma filter_components l :
  Forall (fun c => plain c /\ c <> []) l ->
  List.filter (fun c => nonempty c && negb (bool_decide (c = DOT))) l = l.
Proof.
  induction 1 as [|c l [[N _] Nc] _ IH]; [done|]. cbn [List.filter]. rewrite IH, bool_decide_eq_false_2 by done.
  by destruct c.
Qed.

Lemma uuid_component u : components (uuid_to_string u) = [uuid_to_string u].
Proof.
  unfold components. rewrite split_char_last by apply no_slash, uuid_forall. apply filter_components.
  constructor; [|constructor]. split; [apply uuid_plain|]. intros E.
  apply (f_equal length) in E. by rewrite uuid_to_string_length in E.
Qed.

Lemma relative_clean user_id file_id (r := relative_path user_id file_id) :
  trim_start_by (Z.eqb (chr "/")) (trim (normalize_slashes r)) = r
  /\ nth 1 (as_bytes r) 0 =? chr ":" = false.
Proof.
  assert (F : Forall (fun c => uuid_char c = true \/ c = chr "/") r).
  { unfold r, relative_path. cbn [join].
    repeat (apply Forall_app; split); try (by repeat constructor; right);
      (eapply Forall_impl; [apply uuid_forall || apply prefix_forall|]; by left). }
  assert (N : normalize_slashes r = r).
  { unfold normalize_slashes. rewrite <- (map_id r) at 2. apply map_ext_in. intros c Hc.
    rewrite Forall_forall in F. apply list_elem_of_In in Hc. destruct (F c Hc) as [U| ->]; [|done].
    destruct (uuid_char_facts c U) as (_ & -> & _). done. }
  assert (T : trim r = r).
  { apply trim_id. eapply Forall_impl; [exact F|]. intros c [U| ->]; [|done].
    by destruct (uuid_char_facts c U). }
  rewrite N, T. pose proof (uuid_to_string_length user_id) as L. pose proof (uuid_forall user_id) as G.
  unfold r, relative_path in *. cbn [join]. clear N T F r.
  destruct (uuid_to_string user_id) as [|c1 [|c2 u]]; [discriminate L..|].
  apply Forall_cons in G as [G1 G]. apply Forall_cons in G as [G2 _].
  destruct (uuid_char_facts c1 G1) as (_ & _ & A & _ & B1).
  destruct (uuid_char_facts c2 G2) as (_ & _ & _ & C & B2).
  split; [cbn [app trim_start_by]; by rewrite A|].
  cbn [app as_bytes flat_map]. unfold utf8_char at 1 2. rewrite B1, B2. cbn [app nth]. done.
Qed.

(** A stored file is read back under its relative path. *)
Lemma safe_resolve_stored f user_id file_id b :
  dir_ready f base -> dir_ready f (user_dir user_id file_id) ->
  f !! file_path user_id file_id = Some (File b) ->
  safe_resolve f (relative_path user_id file_id) = inr (file_path user_id file_id)
  /\ read f (file_path user_id file_id) = Some b.
Proof.
  intros R D E. destruct (read_ready f (user_dir user_id file_id) _ b D (uuid_plain file_id) E) as [C Rd].
  split; [|done]. unfold safe_resolve. rewrite (real_canonicalize f base) by apply R.
  destruct (relative_clean user_id file_id) as [-> ->]. rewrite andb_false_r. simpl.
  rewrite relative_components. cbn [existsb].
  rewrite !bool_decide_eq_false_2 by first [apply uuid_plain | apply prefix_plain]. cbn [orb].
  replace (base ++ [uuid_to_string user_id; id_prefix file_id; uuid_to_string file_id])
    with (file_path user_id file_id) by (unfold file_path, user_dir; by rewrite <- app_assoc).
  unfold file_path in *. rewrite C. rewrite (proj2 (path_prefix_iff _ _)); [done|].
  unfold user_dir. rewrite <- app_assoc. eauto.
Qed.

(** ** Storing a file *)

(** The base directory is there, nothing but directories is on the way to the
    file's directory, its name is free or a file, and the temporary name is
    free. *)
Definition ready (f : fs) (user_id file_id : Z) (tmp : rstr) : Prop :=
  dir_ready f base /\ open_way f base [uuid_to_string user_id; id_prefix file_id]
  /\ slot f (file_path user_id file_id) /\ f !! (user_dir user_id file_id ++ [tmp]) = None.

(** A temporary name has a dot; an identifier has none. *)
Lemma extension_dot name ext : chr "." ∈ with_extension name ext.
Proof. unfold with_extension. apply elem_of_app. right. left. Qed.

Lemma extension_not_uuid name ext u : with_extension name ext <> uuid_to_string u.
Proof.
  intros E. apply (uuid_chars_not (chr ".") u); [reflexivity|]. rewrite <- E. apply extension_dot.
Qed.

Lemma site_dirs user_id file_id : Forall plain [uuid_to_string user_id; id_prefix file_id].
Proof. repeat constructor; first [apply uuid_plain | apply prefix_plain]. Qed.

Lemma user_dir_length user_id file_id c :
  (length (user_dir user_id file_id ++ [c]) = S (length (base ++ [uuid_to_string user_id; id_prefix file_id])))%nat.
Proof. unfold user_dir. rewrite length_app. simpl. lia. Qed.

(** After [create_dir_all] for the file's directory. *)
Lemma ready_after f f1 user_id file_id tmp :
  ready f user_id file_id tmp -> create_dir_all f (user_dir user_id file_id) = Some f1 ->
  dir_ready f1 base /\ dir_ready f1 (user_dir user_id file_id)
  /\ (forall p, f1 !! p = f !! p \/ f !! p = None /\ f1 !! p = Some Dir)
  /\ (forall c, f1 !! (user_dir user_id file_id ++ [c]) = f !! (user_dir user_id file_id ++ [c])).
Proof.
  intros (R & W & _ & _) E.
  destruct (create_below f _ R (site_dirs user_id file_id) W) as (f' & E' & R' & S).
  unfold user_dir in E. rewrite E in E'. injection E' as <-.
  split; [|split; [done|split]].
  - eapply dir_ready_mono; [|exact R]. intros p n Hn. destruct (S p) as [-> |(N & _)]; [done|congruence].
  - intros p. destruct (S p) as [?|(? & ? & _)]; auto.
  - intros c. destruct (S (user_dir user_id file_id ++ [c])) as [?|(_ & _ & L)]; [done|].
    rewrite user_dir_length in L. lia.
Qed.

(** Changes to two entries of a directory leave it, and those above, alone. *)
Lemma below_ready f f' d e a c :
  (forall p, p <> d ++ [a] -> p <> d ++ [c] -> f' !! p = f !! p) ->
  dir_ready f e -> (exists r, d = e ++ r) -> dir_ready f' e.
Proof.
  intros S R (r & ->). eapply dir_ready_ext; [|exact R]. intros k.
  apply S; rewrite <- app_assoc; apply take_not_longer; by destruct r.
Qed.

Lemma read_stored v user_id file_id b :
  reliable O -> dir_ready (disk (data v)) base -> dir_ready (disk (data v)) (user_dir user_id file_id) ->
  disk (data v) !! file_path user_id file_id = Some (File b) ->
  fst (read_file (relative_path user_id file_id) v) = Ok b.
Proof.
  intros Rel R D E. destruct (safe_resolve_stored _ _ _ _ R D E) as [Sr Rd].
  unfold read_file, resolve_path, fs_read, io, mbind, M_bind.
  destruct (Rel (pos v)) as [_ ->]. rewrite Sr. simpl. destruct (Rel (S (pos v))) as [_ ->].
  by rewrite Rd.
Qed.

(** C26: [store_file] is atomic and faithful.  Whatever fails, the file under its
    final name is what it was or the complete data, no other file changes (the
    temporary one apart, and new directories), and the answer, when there is
    one, is the relative path and the SHA-256 of the data.  After a success
    [read_file] with the path returned gives the data back. *)
Theorem store_file_atomic user_id file_id data w o w' :
  let tmp := with_extension (uuid_to_string file_id) (lit "tmp_" ++ uuid_to_string (uuid_at (S (pos w)))) in
  let old := disk (Effects.data w) in
  let new := disk (Effects.data w') in
  ready old user_id file_id tmp ->
  store_file user_id file_id data w = (o, w') ->
  (forall p, p <> file_path user_id file_id -> p <> user_dir user_id file_id ++ [tmp] ->
     new !! p = old !! p \/ old !! p = None /\ new !! p = Some Dir)
  /\ ((forall a, o <> Ok a) /\ new !! file_path user_id file_id = old !! file_path user_id file_id
      \/ o = Ok (relative_path user_id file_id, digest data)
         /\ new !! file_path user_id file_id = Some (File data)
         /\ forall v, reliable O -> disk (Effects.data v) = new ->
             fst (read_file (relative_path user_id file_id) v) = Ok data).
Proof.
  cbv zeta. intros Rd H. unfold store_file in H.
  unfold mbind, M_bind at 1 in H. destruct (fs_op _ w) as [r w1] eqn:E1.
  apply fs_op_run in E1 as E. destruct E as [[N D]|[-> D]].
  { destruct r as [[]| | |]; [done|..]; simplify_eq; rewrite D; eauto. }
  assert (P1 : pos w1 = S (pos w)).
  { by apply fs_op_pos in E1. }
  destruct (ready_after _ _ _ _ _ Rd D) as (Rb & Ru & K & Kd).
  destruct Rd as (_ & _ & Sl & Tm).
  unfold M_bind at 1, new_v4, interact in H. cbv beta iota in H. rewrite P1 in H.
  set (tmp := with_extension _ _) in *.
  unfold M_bind in H. destruct (write_atomic _ _ _ _) as [r w2] eqn:E2.
  unfold file_path in E2 at 1. apply write_atomic_spec in E2; [|done|apply extension_not_uuid| |]; cbn [Effects.data] in *.
  2: { rewrite Kd. exact Tm. }
  2: { unfold slot, file_path in *. by rewrite Kd. }
  destruct E2 as [Others Final]. fold (file_path user_id file_id) in *.
  assert (W2 : w2 = w') by (destruct r; unfold mret, M_ret in H; by simplify_eq). subst w2.
  split.
  - intros p Np Nt'. rewrite (Others p) by done. apply K.
  - assert (F : disk (Effects.data w1) !! file_path user_id file_id = disk (Effects.data w) !! file_path user_id file_id)
      by (unfold file_path; apply Kd).
    destruct Final as [[N Eq]|(-> & Eq & _)].
    + left. split; [|congruence]. intros a ->. destruct r as [[]| | |]; [done|..]; simplify_eq.
    + right. unfold mret, M_ret in H. simplify_eq. split; [done|]. split; [done|].
      intros v Rel Dv.
      apply read_stored; [done|rewrite Dv|rewrite Dv|by rewrite Dv].
      * eapply below_ready; [exact Others|exact Rb|exists [uuid_to_string user_id; id_prefix file_id]; done].
      * eapply below_ready; [exact Others|exact Ru|exists []; by rewrite app_nil_r].
Qed.

(** Reading a file depends on the disk alone when nothing fails. *)
Lemma read_file_disk p w1 w2 :
  reliable O -> disk (data w1) = disk (data w2) -> fst (read_file p w1) = fst (read_file p w2).
Proof.
  intros R E. unfold read_file, resolve_path, fs_read, io, mbind, M_bind.
  rewrite !(proj2 (R _)), E. destruct (safe_resolve _ _); [done|]. cbn [data pos].
  rewrite !(proj2 (R _)), E. by destruct (read _ _).
Qed.

(** ** Assembling chunks *)

Lemma fs_op_ok f w d :
  reliable O -> f (disk (data w)) = Some d ->
  fs_op f w = (Ok tt, mkWorld (set_disk d (data w)) (S (pos w))).
Proof. intros R E. unfold fs_op, io. destruct (R (pos w)) as [_ ->]. by rewrite E. Qed.

Lemma fs_read_ok {A} (f : fs -> option A) w a :
  reliable O -> f (disk (data w)) = Some a ->
  fs_read f w = (Ok a, mkWorld (data w) (S (pos w))).
Proof. intros R E. unfold fs_read, io. destruct (R (pos w)) as [_ ->]. by rewrite E. Qed.

Lemma show_i6_plain pre n : (2 < length pre)%nat -> plain (pre ++ show_i6 n).
Proof.
  intros L. split; intros E; apply (f_equal length) in E; rewrite length_app in E;
    [change (length DOT) with 1%nat in E | change (length DOTDOT) with 2%nat in E]; lia.
Qed.

Lemma chunk_plain n : plain (chunk_name n).
Proof. apply show_i6_plain. vm_compute. lia. Qed.

(** The loop leaves the chunks read, in order, in the temporary file. *)
Lemma append_chunks_spec cs i dir d t out w :
  reliable O -> dir_ready (disk (data w)) dir -> dir_ready (disk (data w)) d ->
  (forall k, dir ++ [k] <> d ++ [t]) -> (forall k, take k dir <> d ++ [t]) ->
  (forall k b, cs !! k = Some b ->
     disk (data w) !! (dir ++ [chunk_name (i + Z.of_nat k)]) = Some (File b)) ->
  disk (data w) !! (d ++ [t]) = Some (File out) ->
  exists w', append_chunks (length cs) i dir (d ++ [t]) out w = (Ok (out ++ concat cs), w')
    /\ disk (data w') = <[d ++ [t] := File (out ++ concat cs)]> (disk (data w)).
Proof.
  intros Rel Rdir Rd N N'. revert i out w Rdir Rd. induction cs as [|c cs IH]; intros i out w Rdir Rd Hc Ht.
  { exists w. simpl. rewrite app_nil_r. split; [done|]. by rewrite insert_id. }
  cbn [length append_chunks concat]. unfold mbind, M_bind.
  assert (H0 := Hc 0%nat c eq_refl). replace (i + Z.of_nat 0) with i in H0 by lia.
  rewrite (fs_read_ok _ w c Rel (proj2 (read_ready _ _ _ _ Rdir (chunk_plain i) H0))).
  set (w1 := mkWorld (data w) (S (pos w))).
  assert (W : write (disk (data w1)) (d ++ [t]) (out ++ c) = Some (<[d ++ [t] := File (out ++ c)]> (disk (data w)))).
  { apply write_ready; [done|]. right. eauto. }
  rewrite (fs_op_ok _ w1 _ Rel W).
  match goal with |- exists w', append_chunks _ _ _ _ _ ?v = _ /\ _ => set (w2 := v) end.
  destruct (IH (i + 1) (out ++ c) w2) as (w' & E & D).
  - simpl. eapply dir_ready_ext; [|exact Rdir]. intros k. apply lookup_insert_ne. intros Q. by apply (N' k).
  - simpl. by apply dir_ready_file.
  - intros k b Hk. simpl. rewrite lookup_insert_ne by (intros Q; by apply (N (chunk_name (i + 1 + Z.of_nat k)))).
    replace (i + 1 + Z.of_nat k) with (i + Z.of_nat (S k)) by lia. by apply Hc.
  - simpl. by rewrite lookup_insert_eq.
  - exists w'. rewrite <- app_assoc in *. split; [exact E|]. rewrite D. simpl. by rewrite insert_insert_eq.
Qed.

(** The directory of chunks is not on the way to a stored file. *)
Lemma chunk_dir_apart user_id file_id upload_id k x r :
  take k (chunk_dir user_id upload_id) <> user_dir user_id file_id ++ x :: r.
Proof.
  intros E. apply (f_equal (lookup (S (length base)))) in E. unfold user_dir, chunk_dir in E.
  rewrite <- (app_assoc base), lookup_app_r in E by lia.
  replace (S (length base) - length base)%nat with 1%nat in E by lia. simpl in E.
  apply lookup_take_Some in E as [E _]. rewrite lookup_app_r in E by lia.
  replace (S (length base) - length base)%nat with 1%nat in E by lia. simpl in E.
  injection E as E. apply (f_equal length) in E. unfold id_prefix in E.
  rewrite length_take, uuid_to_string_length in E. vm_compute in E. discriminate.
Qed.

Lemma chunk_dir_not_above user_id file_id upload_id :
  path_prefix (chunk_dir user_id upload_id) (file_path user_id file_id) = false.
Proof.
  destruct (path_prefix _ _) eqn:P; [|done]. apply path_prefix_iff in P as [r E].
  destruct (chunk_dir_apart user_id file_id upload_id (length (chunk_dir user_id upload_id))
    (uuid_to_string file_id) []). rewrite firstn_all.
  assert (r = []) as ->.
  { apply (f_equal length) in E. unfold file_path, user_dir, chunk_dir in E.
    rewrite !length_app in E. simpl in E. destruct r; [done|]. simpl in E. lia. }
  by rewrite app_nil_r in E.
Qed.

(** The last steps of the assembly: rename, then the removal of the chunks. *)
Lemma publish_spec {A} user_id upload_id file_id tmp b (x : A) w :
  reliable O -> dir_ready (disk (data w)) base -> dir_ready (disk (data w)) (user_dir user_id file_id) ->
  dir_ready (disk (data w)) (chunk_dir user_id upload_id) -> tmp <> uuid_to_string file_id ->
  disk (data w) !! (user_dir user_id file_id ++ [tmp]) = Some (File b) ->
  slot (disk (data w)) (file_path user_id file_id) ->
  exists w',
    (_ ← fs_op (fun f => Some f);
     _ ← fs_op (fun f => rename f (user_dir user_id file_id ++ [tmp]) (file_path user_id file_id));
     _ ← discard (fs_op (fun f => remove_dir_all f (chunk_dir user_id upload_id)));
     mret x : M Server A) w = (Ok x, w')
    /\ fst (read_file (relative_path user_id file_id) w') = Ok b
    /\ forall p, path_prefix (chunk_dir user_id upload_id) p = true -> disk (data w') !! p = None.
Proof.
  intros Rel Rb Ru Rc N Ht Sl. unfold discard, unwrap_or, mbind, M_bind.
  rewrite (fs_op_ok (fun f => Some f) w (disk (data w)) Rel eq_refl).
  set (w1 := mkWorld _ _). assert (D1 : disk (data w1) = disk (data w)) by done.
  set (f2 := <[file_path user_id file_id := File b]>
               (delete (user_dir user_id file_id ++ [tmp]) (disk (data w)))).
  rewrite (fs_op_ok _ w1 f2 Rel) by (rewrite D1; by apply rename_ready).
  set (w2 := mkWorld (set_disk f2 _) _). assert (D2 : disk (data w2) = f2) by done.
  assert (S2' : forall p, p <> user_dir user_id file_id ++ [tmp] ->
    p <> user_dir user_id file_id ++ [uuid_to_string file_id] -> f2 !! p = disk (data w) !! p).
  { intros p N1 N2. unfold f2. by rewrite lookup_insert_ne, lookup_delete_ne by done. }
  assert (Rc2 : dir_ready f2 (chunk_dir user_id upload_id)).
  { eapply dir_ready_ext; [|exact Rc]. intros k. apply S2'; apply chunk_dir_apart. }
  set (dir := chunk_dir user_id upload_id) in *.
  assert (E : dir = (base ++ [uuid_to_string user_id; lit "_chunks"]) ++ [uuid_to_string upload_id])
    by (unfold dir, chunk_dir; by rewrite <- app_assoc).
  assert (Rm : remove_dir_all (disk (data w2)) dir = Some (without dir f2))
    by (rewrite E in *; by apply remove_dir_ready).
  rewrite (fs_op_ok _ w2 _ Rel Rm). eexists. split; [reflexivity|]. cbn [data]. split.
  - assert (K : forall d r, user_dir user_id file_id = d ++ r -> dir_ready (disk (data w)) d ->
      dir_ready (without dir f2) d).
    { intros d r Ed R. eapply dir_ready_ext; [|exact R]. intros k. rewrite without_other.
      - apply S2'; rewrite Ed, <- app_assoc; apply take_not_longer; by destruct r.
      - apply path_prefix_longer. rewrite length_take. apply (f_equal length) in Ed.
        unfold user_dir, dir, chunk_dir in *. rewrite !length_app in *. simpl in *. lia. }
    apply read_stored; [done| | |].
    + by apply (K _ [uuid_to_string user_id; id_prefix file_id]).
    + apply (K _ []); [by rewrite app_nil_r|done].
    + simpl. rewrite without_other by apply chunk_dir_not_above. unfold f2. by rewrite lookup_insert_eq.
  - intros p P. simpl. by apply without_below.
Qed.

(** [assemble_chunks] concatenates.  When chunks 0 to n-1 are on disk and
    nothing fails, it ends with the file that holds their concatenation in
    order, under its final name and with the digest and the size of exactly
    that content, readable back, and the directory of the chunks is gone. *)
Theorem assemble_chunks_concat user_id upload_id file_id chunks w :
  let tmp := with_extension (uuid_to_string file_id) (lit "tmp_asm_" ++ uuid_to_string (uuid_at (S (pos w)))) in
  let dir := chunk_dir user_id upload_id in
  reliable O -> ready (disk (data w)) user_id file_id tmp -> dir_ready (disk (data w)) dir ->
  (forall k b, chunks !! k = Some b -> disk (data w) !! (dir ++ [chunk_name (Z.of_nat k)]) = Some (File b)) ->
  exists w',
    assemble_chunks user_id upload_id file_id (Z.of_nat (length chunks)) w
    = (Ok (relative_path user_id file_id, digest (concat chunks), Z.of_nat (length (concat chunks))), w')
    /\ fst (read_file (relative_path user_id file_id) w') = Ok (concat chunks)
    /\ forall p, path_prefix dir p = true -> disk (data w') !! p = None.
Proof.
  cbv zeta. intros Rel Rdy Rdir Hc. unfold assemble_chunks.
  set (tmp := with_extension _ _) in *.
  destruct (create_below (disk (data w)) _ (proj1 Rdy) (site_dirs user_id file_id) (proj1 (proj2 Rdy)))
    as (f1 & E1 & _ & S).
  destruct (ready_after _ _ _ _ _ Rdy E1) as (Rb & Ru & _ & Kd).
  destruct Rdy as (_ & _ & Sl & Tm).
  assert (K : forall p n, disk (data w) !! p = Some n -> f1 !! p = Some n).
  { intros p n Hn. destruct (S p) as [-> |(N & _)]; [done|congruence]. }
  set (w2 := mkWorld (set_disk f1 (data w)) (Datatypes.S (Datatypes.S (pos w)))).
  assert (W : write (disk (data w2)) (user_dir user_id file_id ++ [tmp]) []
              = Some (<[user_dir user_id file_id ++ [tmp] := File []]> f1)).
  { apply write_ready; [done|]. left. simpl. by rewrite Kd. }
  set (w3 := mkWorld (set_disk (<[user_dir user_id file_id ++ [tmp] := File []]> f1) (data w2))
               (Datatypes.S (pos w2))).
  assert (Rc : dir_ready (disk (data w3)) (chunk_dir user_id upload_id)).
  { simpl. eapply dir_ready_ext; [|by eapply dir_ready_mono].
    intros k. apply lookup_insert_ne. intros Q. symmetry in Q. by apply chunk_dir_apart in Q. }
  destruct (append_chunks_spec chunks 0 (chunk_dir user_id upload_id) (user_dir user_id file_id) tmp [] w3)
    as (w4 & H4 & D4); [done|done|by apply dir_ready_file| | | |by apply lookup_insert_eq|].
  { intros k Q. apply (f_equal length) in Q. unfold chunk_dir, user_dir in Q.
    rewrite !length_app in Q. simpl in Q. lia. }
  { intros k Q. by apply chunk_dir_apart in Q. }
  { intros k b Hk. simpl. rewrite lookup_insert_ne; [by apply K, Hc|].
    intros Q. apply (f_equal length) in Q. unfold chunk_dir, user_dir in Q.
    rewrite !length_app in Q. simpl in Q. lia. }
  simpl in H4, D4. rewrite insert_insert_eq in D4.
  assert (Keep : forall d e, user_dir user_id file_id = d ++ e -> dir_ready f1 d -> dir_ready (disk (data w4)) d).
  { intros d e Ed R. rewrite D4. eapply dir_ready_ext; [|exact R]. intros k. apply lookup_insert_ne.
    intros Q. symmetry in Q. rewrite Ed, <- app_assoc in Q. apply take_not_longer in Q; [done|by destruct e]. }
  destruct (publish_spec user_id upload_id file_id tmp (concat chunks)
    (relative_path user_id file_id, digest (concat chunks), Z.of_nat (length (concat chunks))) w4)
    as (w5 & H5 & Rd & Gone); try done.
  - by apply (Keep _ [uuid_to_string user_id; id_prefix file_id]).
  - apply (Keep _ []); [by rewrite app_nil_r|done].
  - rewrite D4. eapply dir_ready_ext; [|by eapply dir_ready_mono].
    intros k. apply lookup_insert_ne. intros Q. symmetry in Q. by apply chunk_dir_apart in Q.
  - apply extension_not_uuid.
  - rewrite D4. apply lookup_insert_eq.
  - unfold slot, file_path in *. rewrite D4, lookup_insert_ne, Kd; [done|].
    intros Q. apply app_inv_head in Q. injection Q as Q. by apply extension_not_uuid in Q.
  - exists w5. split; [|done]. rewrite Nat2Z.id.
    eapply bind_run; [by apply (fs_op_ok _ w f1)|]. eapply bind_run; [reflexivity|]. cbn [pos data].
    fold tmp. eapply bind_run; [by apply (fs_op_ok _ w2)|]. eapply bind_run; [exact H4|]. exact H5.
Qed.
End Storage.

(** ** Concrete runs *)

Definition demo_base : path := [lit "srv"; lit "data"].
Definition demo_disk : fs := <[[lit "srv"; lit "data"] := Dir]> (<[[lit "srv"] := Dir]> ∅).
Definition demo_world : World Server := mkWorld (set_disk demo_disk empty_server) 0.

Definition demo_store (data : bytes) (w : World Server) :=
  store_file (O := toy_env []) (S2 := toy_sha256) (HX := plain_hex) (UT := plain_uuid) demo_base 7 9 data w.

Lemma demo_ready f tmp :
  canonicalize f demo_base = Some demo_base -> node_at f demo_base = Some Dir ->
  free_or_dir f (demo_base ++ [plain_uuid_to_string 7]) = true ->
  free_or_dir f (demo_base ++ [plain_uuid_to_string 7; id_prefix (UT := plain_uuid) 9]) = true ->
  f !! file_path (UT := plain_uuid) demo_base 7 9 = None ->
  f !! (user_dir (UT := plain_uuid) demo_base 7 9 ++ [tmp]) = None ->
  ready (UT := plain_uuid) demo_base f 7 9 tmp.
Proof.
  intros C D X Y F T. split; [by apply dir_ready_intro|]. split; [by apply open_way_two|].
  split; [by left|done].
Qed.

Lemma store_file_witness : exists w',
  fst (demo_store [1; 2; 3] demo_world)
    = Ok (relative_path (UT := plain_uuid) 7 9, digest (S2 := toy_sha256) (HX := plain_hex) [1; 2; 3])
  /\ fst (read_file (O := toy_env []) demo_base (relative_path (UT := plain_uuid) 7 9) w') = Ok [1; 2; 3].
Proof.
  destruct (demo_store [1; 2; 3] demo_world) as [o w'] eqn:E. unfold demo_store in E.
  destruct (store_file_atomic (O := toy_env []) (S2 := toy_sha256) (HX := plain_hex) (UT := plain_uuid)
    demo_base 7 9 [1; 2; 3] demo_world o w') as (_ & [[N _]|(Eo & _ & R)]).
  - apply demo_ready; vm_compute; reflexivity.
  - exact E.
  - apply (f_equal fst) in E. vm_compute in E. subst o. exfalso. exact (N _ eq_refl).
  - exists w'. split; [exact Eo|]. exact (R w' toy_env_reliable eq_refl).
Defined.

Definition demo_chunk (i : Z) (data : bytes) (w : World Server) : World Server :=
  snd (store_chunk (O := toy_env []) (UT := plain_uuid) demo_base 7 5 i data w).

Definition demo_uploaded : World Server :=
  mkWorld (data (demo_chunk 1 [4; 5] (demo_chunk 0 [1; 2; 3] demo_world))) 50.

Lemma assemble_witness : exists w',
  assemble_chunks (O := toy_env []) (S2 := toy_sha256) (HX := plain_hex) (UT := plain_uuid)
    demo_base 7 5 9 2 demo_uploaded
  = (Ok (relative_path (UT := plain_uuid) 7 9,
         digest (S2 := toy_sha256) (HX := plain_hex) [1; 2; 3; 4; 5], 5), w').
Proof.
  destruct (assemble_chunks_concat (O := toy_env []) (S2 := toy_sha256) (HX := plain_hex)
    (UT := plain_uuid) demo_base 7 5 9 [[1; 2; 3]; [4; 5]] demo_uploaded toy_env_reliable)
    as (w' & E & _ & _).
  - apply demo_ready; vm_compute; reflexivity.
  - apply dir_ready_intro; vm_compute; reflexivity.
  - intros [|[|k]] b H; [injection H as <-|injection H as <-|discriminate H]; vm_compute; reflexivity.
  - exists w'. exact E.
Defined.

(** A link out of the store: the file behind it is not read. *)
Definition linked_disk : fs :=
  <[[lit "etc"; lit "shadow"] := File [9]]> (<[[lit "etc"] := Dir]>
    (<[demo_base ++ [lit "evil"] := Link [lit "etc"; lit "shadow"]]> demo_disk)).

Lemma storage_confined_witness :
  fst (read_file (O := toy_env []) demo_base (lit "evil") (mkWorld (set_disk linked_disk empty_server) 0))
    = Err (Internal (lit "Symlink escape violation: target outside storage root"))
  /\ exists e, safe_resolve demo_base linked_disk (lit "/a\..\b") = inl e.
Proof.
  split; [vm_compute; reflexivity|].
  refine (proj2 (proj2 (proj2 (storage_confined (O := toy_env []) demo_base (lit "/a\..\b") demo_base
    (mkWorld (set_disk linked_disk empty_server) 0) _))) _ linked_disk);
    [vm_compute; reflexivity|]. apply (bool_decide_unpack _). vm_compute. exact I.
Defined.
End Storage.
