(* ===== verification/Files.v ===== *)
(** * Files: folders, uploads, the trash

    backend/crates/file_metadata/src/service.rs and models.rs. *)

From S2P Require Import Prelude Text Effects Externals Fs Schema Account Storage.

Module Files.

(** ** Requests and answers: models.rs *)

Record CreateFolderRequest := { folder_name : rstr; folder_parent : option Z }.

Record ChunkedUploadRequest := {
  upload_id : Z; up_filename : rstr; up_parent_id : option Z; total_size : Z; total_chunks : Z }.

Record FileEntryResponse := {
  id : Z; parent_id : option Z; name : rstr; entry_type : rstr; mime_type : option rstr;
  size_bytes : Z; sha256_hash : option rstr; is_trashed : bool; created_at : Z; updated_at : Z }.

Record BreadcrumbItem := { crumb_id : option Z; crumb_name : rstr }.

Record FileListResponse := {
  entries : list FileEntryResponse; total : Z; path : list BreadcrumbItem }.

Record StorageStatsResponse := {
  total_files : Z; total_folders : Z; total_size_bytes : Z; trashed_items : Z }.

(** impl From<FileEntry> for FileEntryResponse *)
Definition response (f : FileEntry.row) : FileEntryResponse :=
  {| id := FileEntry.id f; parent_id := FileEntry.parent_id f; name := FileEntry.name f;
     entry_type := FileEntry.entry_type f; mime_type := FileEntry.mime_type f;
     size_bytes := FileEntry.size_bytes f; sha256_hash := FileEntry.sha256_hash f;
     is_trashed := FileEntry.is_trashed f; created_at := FileEntry.created_at f;
     updated_at := FileEntry.updated_at f |}.

Definition root_crumb : BreadcrumbItem := {| crumb_id := None; crumb_name := lit "Root" |}.

(** ** The tree of entries *)

Definition owned_by (user_id : Z) (f : FileEntry.row) : bool := FileEntry.user_id f =? user_id.
Definition has_id (item_id : Z) (f : FileEntry.row) : bool := FileEntry.id f =? item_id.
Definition child_of (p : Z) (f : FileEntry.row) : bool := bool_decide (FileEntry.parent_id f = Some p).
Definition is_folder (f : FileEntry.row) : bool := bool_decide (FileEntry.entry_type f = lit "folder").

(** The recursive part of the query: fe.parent_id = d.id. *)
Definition children (t ds : list FileEntry.row) : list FileEntry.row :=
  flat_map (fun d => select (child_of (FileEntry.id d)) t) ds.

(** WITH RECURSIVE ... UNION ALL, round by round until a round is empty.  On a
    table of [n] rows a chain of more than [n] rounds repeats a row, and the
    evaluation never ends: no result. *)
Fixpoint rounds (fuel : nat) (t working : list FileEntry.row) : option (list FileEntry.row) :=
  match working with
  | [] => Some []
  | _ =>
      match fuel with
      | O => None
      | S k => option_map (app working) (rounds k t (children t working))
      end
  end.

Definition descendants (user_id item_id : Z) (t : list FileEntry.row) : option (list FileEntry.row) :=
  rounds (S (length t)) t (select (fun f => has_id item_id f && owned_by user_id f) t).

Definition id_in (ids : list Z) (f : FileEntry.row) : bool := existsb (Z.eqb (FileEntry.id f)) ids.

(** ON DELETE CASCADE of file_entries.parent_id: the rows below the deleted
    ones go too; [n] rounds on a table of [n] rows reach them all. *)
Fixpoint cascade (n : nat) (t : list FileEntry.row) (dead : list Z) : list Z :=
  match n with
  | O => dead
  | S k =>
      cascade k t (dead ++ map FileEntry.id
        (select (fun f => negb (id_in dead f)
                  && match FileEntry.parent_id f with
                     | Some p => existsb (Z.eqb p) dead
                     | None => false
                     end) t))
  end.

(** DELETE FROM file_entries WHERE ..., with the actions of the foreign keys
    that refer to the table. *)
Definition delete_files (p : FileEntry.row -> bool) (s : Server) : Server :=
  let t := file_entries s in
  let dead := cascade (length t) t (map FileEntry.id (select p t)) in
  let gone i := existsb (Z.eqb i) dead in
  set_file_entries (delete_rows (id_in dead) t)
    (set_file_versions (delete_rows (fun v => gone (FileVersion.file_entry_id v)) (file_versions s))
    (set_share_links (delete_rows (fun l => gone (ShareLink.file_entry_id l)) (share_links s))
    (set_sync_states (delete_rows (fun x => gone (SyncState.file_entry_id x)) (sync_states s))
    (set_transcode_jobs (delete_rows (fun j => gone (TranscodeJob.file_id j)) (transcode_jobs s))
    (set_playback_progress (delete_rows (fun x => gone (PlaybackProgress.file_entry_id x)) (playback_progress s))
    (set_file_replicas (delete_rows (fun r => gone (FileReplica.file_id r)) (file_replicas s))
    (set_file_tags (delete_rows (fun r => gone (FileTag.file_entry_id r)) (file_tags s))
    (set_text_extractions (delete_rows (fun r => gone (TextExtraction.file_id r)) (text_extractions s))
    (set_sync_folders
       (update (fun x => match SyncFolder.remote_folder_id x with Some i => gone i | None => false end)
               (SyncFolder.set_remote_folder_id None) (sync_folders s)) s))))))))).

Definition update_files (p : FileEntry.row -> bool) (f : FileEntry.row -> FileEntry.row) (s : Server) : Server :=
  set_file_entries (update p f (file_entries s)) s.

(** UPDATE ... RETURNING *: the first row updated. *)
Definition update_returning (p : FileEntry.row -> bool) (f : FileEntry.row -> FileEntry.row) (s : Server)
  : option FileEntry.row * Server :=
  (option_map f (find_row p (file_entries s)), update_files p f s).

(** entry_type DESC, name ASC *)
Definition listing_order `{Collation} (a b : FileEntry.row) : bool :=
  if bool_decide (FileEntry.entry_type a = FileEntry.entry_type b)
  then text_le (FileEntry.name a) (FileEntry.name b)
  else text_le (FileEntry.entry_type b) (FileEntry.entry_type a).

(** trashed_at DESC: NULL first. *)
Definition trash_order (a b : FileEntry.row) : bool :=
  match FileEntry.trashed_at a, FileEntry.trashed_at b with
  | None, _ => true
  | Some _, None => false
  | Some x, Some y => y <=? x
  end.

Section Files.
Context {O : Oracle} {S2 : Sha256} {HX : Hex} {UT : UuidText} {MG : MimeGuess} {CO : Collation}.
Context (base : Fs.path).

(** ** service.rs *)

Definition verify_ownership (user_id item_id : Z) : M Server FileEntry.row :=
  row ← query (fun s => find_row (fun f => has_id item_id f && owned_by user_id f) (file_entries s));
  ok_or row (NotFound (lit "Item not found")).

Definition verify_parent (user_id : Z) (parent : option Z) : M Server unit :=
  match parent with
  | Some p => _ ← verify_ownership user_id p; mret tt
  | None => mret tt
  end.

(** The rows a name clashes with. *)
Definition same_name (user_id : Z) (parent : option Z) (name : rstr) (f : FileEntry.row) : bool :=
  owned_by user_id f && bool_decide (FileEntry.parent_id f = parent)
  && bool_decide (FileEntry.name f = name) && negb (FileEntry.is_trashed f).

Definition insert_file (r : FileEntry.row) (s : Server) : Server :=
  set_file_entries (insert_row r (file_entries s)) s.

Definition create_folder (user_id : Z) (req : CreateFolderRequest) : M Server FileEntryResponse :=
  _ ← verify_parent user_id (folder_parent req);
  exists_ ← map_err (to_internal "")
    (query (fun s => exists_row (same_name user_id (folder_parent req) (folder_name req)) (file_entries s)));
  if exists_ : bool
  then throw (Conflict (lit "An item named '" ++ folder_name req ++ lit "' already exists here"))
  else
  new_id ← new_v4;
  entry ← execute schema_ok (fun now s =>
    let r := {| FileEntry.id := new_id; FileEntry.user_id := user_id;
                FileEntry.parent_id := folder_parent req; FileEntry.name := folder_name req;
                FileEntry.entry_type := lit "folder"; FileEntry.mime_type := None;
                FileEntry.size_bytes := 0; FileEntry.sha256_hash := None;
                FileEntry.storage_path := None; FileEntry.is_trashed := false;
                FileEntry.trashed_at := None; FileEntry.created_at := now;
                FileEntry.updated_at := now |} in
    (r, insert_file r s));
  mret (response entry).

Definition list_root (user_id : Z) : M Server FileListResponse :=
  rows ← query (fun s => sort_by listing_order
    (select (fun f => owned_by user_id f && bool_decide (FileEntry.parent_id f = None)
                      && negb (FileEntry.is_trashed f)) (file_entries s)));
  mret {| total := Z.of_nat (length rows); entries := map response rows; path := [root_crumb] |}.

(** The loop of build_breadcrumb: from the folder up.  More turns than there
    are rows mean a cycle, which only a database error ends. *)
Fixpoint climb (fuel : nat) (user_id : Z) (current : option Z) : M Server (list BreadcrumbItem) :=
  match current with
  | None => mret []
  | Some cid =>
      match fuel with
      | 0%nat => diverge
      | S k =>
          row ← query (fun s =>
            find_row (fun f => has_id cid f && owned_by user_id f) (file_entries s));
          match row with
          | Some e =>
              above ← climb k user_id (FileEntry.parent_id e);
              mret (above ++ [{| crumb_id := Some (FileEntry.id e); crumb_name := FileEntry.name e |}])
          | None => mret []
          end
      end
  end.

Definition build_breadcrumb (user_id : Z) (folder_id : option Z) : M Server (list BreadcrumbItem) :=
  s ← get;
  ancestors ← climb (S (length (file_entries s))) user_id folder_id;
  mret (root_crumb :: ancestors).

Definition list_folder (user_id folder_id : Z) : M Server FileListResponse :=
  _ ← verify_ownership user_id folder_id;
  rows ← query (fun s => sort_by listing_order
    (select (fun f => owned_by user_id f && child_of folder_id f
                      && negb (FileEntry.is_trashed f)) (file_entries s)));
  path ← build_breadcrumb user_id (Some folder_id);
  mret {| total := Z.of_nat (length rows); entries := map response rows; path := path |}.

Definition DEFAULT_QUOTA : Z := 10 * 1024 * 1024 * 1024.

(** The rows that count against the quota. *)
Definition counted (user_id : Z) (f : FileEntry.row) : bool :=
  owned_by user_id f && negb (FileEntry.is_trashed f).

(** The addition wraps in the release profile. *)
Definition check_storage_quota (user_id incoming_bytes : Z) : M Server unit :=
  row ← query (fun s => option_map User.storage_quota_bytes
                          (find_row (fun u => User.id u =? user_id) (users s)));
  let quota_limit := default DEFAULT_QUOTA row in
  used_bytes ← unwrap_or (Account.sum_query (counted user_id)) 0;
  if quota_limit <? wrap_i64 (used_bytes + incoming_bytes)
  then throw (Validation (lit "Storage quota exceeded: used " ++ show_int used_bytes
        ++ lit " bytes + incoming " ++ show_int incoming_bytes
        ++ lit " bytes exceeds quota of " ++ show_int quota_limit ++ lit " bytes"))
  else mret tt.

(** INSERT of a stored file. *)
Definition insert_stored (file_id user_id : Z) (parent : option Z) (filename mime hash path : rstr) (size : Z)
  : M Server FileEntryResponse :=
  entry ← execute schema_ok (fun now s =>
    let r := {| FileEntry.id := file_id; FileEntry.user_id := user_id;
                FileEntry.parent_id := parent; FileEntry.name := filename;
                FileEntry.entry_type := lit "file"; FileEntry.mime_type := Some mime;
                FileEntry.size_bytes := size; FileEntry.sha256_hash := Some hash;
                FileEntry.storage_path := Some path; FileEntry.is_trashed := false;
                FileEntry.trashed_at := None; FileEntry.created_at := now;
                FileEntry.updated_at := now |} in
    (r, insert_file r s));
  mret (response entry).

Definition upload_file (user_id : Z) (parent : option Z) (filename mime : rstr) (data : bytes)
  : M Server FileEntryResponse :=
  let size := Z.of_nat (length data) in
  _ ← verify_parent user_id parent;
  _ ← check_storage_quota user_id size;
  file_id ← new_v4;
  stored ← map_err (to_internal "Storage write failed: ") (Storage.store_file base user_id file_id data);
  insert_stored file_id user_id parent filename mime (snd stored) (fst stored) size.

Definition store_chunk (user_id upload_id chunk_index : Z) (data : bytes) : M Server unit :=
  map_err (to_internal "Chunk storage failed: ")
    (Storage.store_chunk base user_id upload_id chunk_index data).

Definition complete_chunked_upload (user_id : Z) (req : ChunkedUploadRequest) : M Server FileEntryResponse :=
  _ ← verify_parent user_id (up_parent_id req);
  _ ← check_storage_quota user_id (total_size req);
  file_id ← new_v4;
  stored ← map_err (to_internal "Chunk assembly failed: ")
    (Storage.assemble_chunks base user_id (upload_id req) file_id (total_chunks req));
  let '(storage_path, hash, actual_size) := stored in
  insert_stored file_id user_id (up_parent_id req) (up_filename req) (mime_from_path (up_filename req))
    hash storage_path actual_size.

Definition get_file_meta (user_id file_id : Z) : M Server FileEntryResponse :=
  entry ← verify_ownership user_id file_id;
  mret (response entry).

(** The entry of a file and its path on disk. *)
Definition downloadable (user_id file_id : Z) : M Server (FileEntry.row * rstr) :=
  entry ← verify_ownership user_id file_id;
  if negb (Account.is_file entry) then throw (Validation (lit "Cannot download a folder")) else
  path ← ok_or (FileEntry.storage_path entry) (Internal (lit "File has no storage path"));
  mret (entry, path).

Definition download_file (user_id file_id : Z) : M Server (FileEntry.row * bytes) :=
  e ← downloadable user_id file_id;
  data ← map_err (to_internal "File read failed: ") (Storage.read_file base (snd e));
  mret (fst e, data).

(** The handle is the path opened; its length is that of the file behind it. *)
Definition open_file_for_download (user_id file_id : Z) : M Server (FileEntry.row * Fs.path * Z) :=
  e ← downloadable user_id file_id;
  file ← map_err (to_internal "File open failed: ") (Storage.open_file base (snd e));
  len ← map_err (to_internal "File metadata failed: ") (Storage.fs_read (fun f =>
    match Fs.node_at f file with
    | Some (Fs.File b) => Some (Z.of_nat (length b))
    | Some _ => Some 0
    | None => None
    end));
  mret (fst e, file, len).

Definition rename_item (user_id item_id : Z) (new_name : rstr) : M Server FileEntryResponse :=
  entry ← verify_ownership user_id item_id;
  exists_ ← map_err (to_internal "")
    (query (fun s => exists_row (fun f => same_name user_id (FileEntry.parent_id entry) new_name f
                                           && negb (has_id item_id f)) (file_entries s)));
  if exists_ : bool
  then throw (Conflict (lit "An item named '" ++ new_name ++ lit "' already exists"))
  else
  updated ← execute_one schema_ok (fun now =>
    update_returning (has_id item_id) (fun f => FileEntry.set_updated_at now (FileEntry.set_name new_name f)));
  mret (response updated).

Definition move_item (user_id item_id : Z) (target_folder_id : option Z) : M Server FileEntryResponse :=
  _ ← verify_ownership user_id item_id;
  _ ← match target_folder_id with
      | Some target_id =>
          target ← verify_ownership user_id target_id;
          if negb (is_folder target) then throw (Validation (lit "Target must be a folder"))
          else if item_id =? target_id
          then throw (Validation (lit "Cannot move a folder into itself"))
          else mret tt
      | None => mret tt
      end;
  updated ← execute_one schema_ok (fun now =>
    update_returning (has_id item_id)
      (fun f => FileEntry.set_updated_at now (FileEntry.set_parent_id target_folder_id f)));
  mret (response updated).

(** UPDATE ... WHERE id IN (SELECT id FROM descendants) *)
Definition update_subtree (user_id item_id : Z) (f : Z -> FileEntry.row -> FileEntry.row) : M Server unit :=
  execute_rec schema_ok (fun now s =>
    option_map (fun ds => (tt, update_files (id_in (map FileEntry.id ds)) (f now) s))
      (descendants user_id item_id (file_entries s))).

Definition mark_trashed (now : Z) (f : FileEntry.row) : FileEntry.row :=
  FileEntry.set_updated_at now (FileEntry.set_trashed_at (Some now) (FileEntry.set_is_trashed true f)).
Definition mark_restored (now : Z) (f : FileEntry.row) : FileEntry.row :=
  FileEntry.set_updated_at now (FileEntry.set_trashed_at None (FileEntry.set_is_trashed false f)).

Definition delete_item (user_id item_id : Z) : M Server unit :=
  _ ← verify_ownership user_id item_id;
  update_subtree user_id item_id mark_trashed.

Definition list_trash (user_id : Z) : M Server (list FileEntryResponse) :=
  rows ← query (fun s => sort_by trash_order
    (select (fun f => owned_by user_id f && FileEntry.is_trashed f) (file_entries s)));
  mret (map response rows).

Definition restore_from_trash (user_id item_id : Z) : M Server FileEntryResponse :=
  entry ← verify_ownership user_id item_id;
  if negb (FileEntry.is_trashed entry) then throw (Validation (lit "Item is not in trash")) else
  _ ← update_subtree user_id item_id mark_restored;
  restored ← fetch_one (fun s => find_row (has_id item_id) (file_entries s));
  mret (response restored).

(** [for (path,) in &paths { storage.delete_file(p).await.ok(); }] *)
Fixpoint delete_paths (paths : list rstr) : M Server unit :=
  match paths with
  | [] => mret tt
  | p :: r => _ ← discard (Storage.delete_file base p); delete_paths r
  end.

Definition stored_paths (rows : list FileEntry.row) : list rstr := omap FileEntry.storage_path rows.

Definition permanent_delete (user_id item_id : Z) : M Server unit :=
  entry ← verify_ownership user_id item_id;
  if negb (FileEntry.is_trashed entry)
  then throw (Validation (lit "Item must be in trash to permanently delete"))
  else
  paths ← query_rec (fun s =>
    option_map stored_paths (descendants user_id item_id (file_entries s)));
  _ ← delete_paths paths;
  execute_rec schema_ok (fun _ s =>
    option_map (fun ds => (tt, delete_files (id_in (map FileEntry.id ds)) s))
      (descendants user_id item_id (file_entries s))).

Definition trashed_of (user_id : Z) (f : FileEntry.row) : bool :=
  owned_by user_id f && FileEntry.is_trashed f.

Definition empty_trash (user_id : Z) : M Server Z :=
  paths ← query (fun s => stored_paths (select (trashed_of user_id) (file_entries s)));
  _ ← delete_paths paths;
  execute schema_ok (fun _ s =>
    (count_rows (trashed_of user_id) (file_entries s), delete_files (trashed_of user_id) s)).

Definition storage_stats (user_id : Z) : M Server StorageStatsResponse :=
  files ← unwrap_or (query (fun s =>
    count_rows (fun f => counted user_id f && Account.is_file f) (file_entries s))) 0;
  folders ← unwrap_or (query (fun s =>
    count_rows (fun f => counted user_id f && is_folder f) (file_entries s))) 0;
  size ← unwrap_or (Account.sum_query (fun f => counted user_id f && Account.is_file f)) 0;
  trashed ← unwrap_or (query (fun s => count_rows (trashed_of user_id) (file_entries s))) 0;
  mret {| total_files := files; total_folders := folders; total_size_bytes := size;
          trashed_items := trashed |}.
End Files.
End Files.
