(* ===== verification/Tree.v ===== *)
(** * Tree: the folder tree, its recursive queries and the trash

    The rows below an item, that the recursive queries of service.rs compute
    them and end exactly on trees without a cycle, and what the trash does to a
    subtree. *)

From S2P Require Import Prelude Text Effects Externals Fs Schema Auth Account Storage Files.

Module Tree.
Import Files.

Section Tree.
Context (t : list FileEntry.row).

(** [f] is a child of [d]. *)
Definition child (d f : FileEntry.row) : Prop := f ∈ t /\ FileEntry.parent_id f = Some (FileEntry.id d).

Inductive below : FileEntry.row -> FileEntry.row -> Prop :=
| below_refl d : below d d
| below_step d e f : child d e -> below e f -> below d f.

Definition strictly_below (d f : FileEntry.row) : Prop := exists e, child d e /\ below e f.

Definition acyclic : Prop := forall d, ~ strictly_below d d.

Lemma below_trans d e f : below d e -> below e f -> below d f.
Proof. induction 1 as [|d e f' C B IH]; [done|]. intros H. eapply below_step; eauto. Qed.

Lemma below_child d e f : below d e -> child e f -> below d f.
Proof. intros B C. eapply below_trans; [done|]. eapply below_step; [done|constructor]. Qed.

Lemma elem_children ds f : f ∈ children t ds <-> exists d, d ∈ ds /\ child d f.
Proof.
  unfold children, child. rewrite list_elem_of_In, in_flat_map.
  setoid_rewrite <- list_elem_of_In. setoid_rewrite elem_select. unfold child_of.
  setoid_rewrite bool_decide_eq_true. naive_solver.
Qed.

(** ** What the rounds compute *)

Lemma rounds_spec fuel ws l :
  rounds fuel t ws = Some l -> forall f, f ∈ l <-> exists d, d ∈ ws /\ below d f.
Proof.
  revert ws l. induction fuel as [|k IH]; intros ws l; destruct ws as [|w ws]; cbn [rounds]; try done.
  1,2: intros [= <-] f; split; [by intros H%elem_of_nil|by intros (d & H%elem_of_nil & _)].
  destruct (rounds k t (children t (w :: ws))) as [r|] eqn:E; cbn [option_map]; [|done]. intros [= <-] f.
  rewrite app_comm_cons, elem_of_app, (IH _ _ E). split.
  - intros [H|(e & He & B)]; [exists f; split; [done|constructor]|].
    apply elem_children in He as (d & Hd & C). exists d. split; [done|]. by eapply below_step.
  - intros (d & Hd & B). destruct B as [d|d e f C B]; [by left|right].
    exists e. split; [|done]. apply elem_children. eauto.
Qed.

(** A round that is still running has followed a chain of children. *)
Inductive chain : FileEntry.row -> list FileEntry.row -> Prop :=
| chain_nil d : chain d []
| chain_cons d e l : child d e -> chain e l -> chain d (e :: l).

Lemma rounds_None fuel ws :
  rounds fuel t ws = None -> exists d l, d ∈ ws /\ chain d l /\ length l = fuel.
Proof.
  revert ws. induction fuel as [|k IH]; intros ws H; destruct ws as [|w ws]; cbn [rounds] in H; try done.
  - exists w, []. split; [left|]. split; [constructor|done].
  - destruct (rounds k t _) eqn:E; [done|]. destruct (IH _ E) as (e & l & He & C & L).
    apply elem_children in He as (d & Hd & Cd). exists d, (e :: l).
    split; [done|]. split; [by constructor|]. simpl. lia.
Qed.

Lemma chain_in d l f : chain d l -> f ∈ l -> f ∈ t /\ strictly_below d f.
Proof.
  induction 1 as [|d e l C Ch IH]; [by intros H%elem_of_nil|].
  intros [->|H]%elem_of_cons.
  - split; [apply C|]. exists e. split; [done|constructor].
  - destruct (IH H) as (Hf & e' & C' & B). split; [done|]. exists e. split; [done|].
    by eapply below_step.
Qed.

Lemma chain_suffix d l1 x l2 : chain d (l1 ++ x :: l2) -> chain x l2.
Proof.
  revert d. induction l1 as [|y l1 IH]; intros d H; simpl in H; inversion H; subst; [done|eauto].
Qed.

(** In a tree no row comes twice in a chain. *)
Lemma chain_nodup d l : acyclic -> chain d l -> base.NoDup l.
Proof.
  intros A. revert d. induction l as [|x l IH]; intros d H; [constructor|].
  inversion H as [|? ? ? C Ch]; subst. constructor; [|by eapply IH].
  intros Hx. destruct (chain_in _ _ _ Ch Hx) as [_ S]. by apply (A x).
Qed.

Lemma rounds_total ws : acyclic -> exists l, rounds (S (length t)) t ws = Some l.
Proof.
  intros A. destruct (rounds (S (length t)) t ws) as [l|] eqn:E; [eauto|].
  apply rounds_None in E as (d & l & _ & C & L). exfalso.
  assert (N := chain_nodup _ _ A C).
  assert (length l <= length t)%nat; [|lia].
  apply submseteq_length, NoDup_submseteq; [done|]. intros f Hf. by apply (chain_in d l).
Qed.

(** Once a row can reach a cycle the rounds never end. *)
Definition loops (d : FileEntry.row) : Prop := exists e, below d e /\ strictly_below e e.

Lemma loops_child d : loops d -> exists e, child d e /\ loops e.
Proof.
  intros (c & B & S). destruct B as [d|d e f C B].
  - destruct S as (e & C & B). exists e. split; [done|]. exists d. split; [done|]. by exists e.
  - exists e. split; [done|]. by exists f.
Qed.

Lemma rounds_loop fuel ws : (exists d, d ∈ ws /\ loops d) -> rounds fuel t ws = None.
Proof.
  revert ws. induction fuel as [|k IH]; intros ws (d & Hd & L);
    destruct ws as [|w ws]; [by apply elem_of_nil in Hd|done|by apply elem_of_nil in Hd|].
  cbn [rounds]. rewrite IH; [done|]. destruct (loops_child d L) as (e & C & Le). exists e.
  split; [|done]. apply elem_children. eauto.
Qed.
End Tree.

#[export] Instance file_row_eq_dec : EqDecision FileEntry.row.
Proof. solve_decision. Defined.

(** The query over [n] rows ends unless a row it reaches can reach a cycle. *)
Lemma chain_repeats t d l : chain t d l -> base.NoDup l \/ exists x, x ∈ l /\ strictly_below t x x.
Proof.
  revert d. induction l as [|x l IH]; intros d H; [left; constructor|].
  inversion H as [|? ? ? C Ch]; subst. destruct (decide (x ∈ l)) as [Hx|Hx].
  - right. exists x. split; [left|]. by apply (chain_in t x l).
  - destruct (IH _ Ch) as [N|(y & Hy & S)]; [left; by constructor|right].
    exists y. split; [by right|done].
Qed.

Lemma rounds_None_loops t ws :
  rounds (S (length t)) t ws = None -> exists d, d ∈ ws /\ loops t d.
Proof.
  intros H. apply rounds_None in H as (d & l & Hd & C & L). exists d. split; [done|].
  destruct (chain_repeats _ _ _ C) as [N|(x & Hx & S)].
  - exfalso. assert (length l <= length t)%nat; [|lia].
    apply submseteq_length, NoDup_submseteq; [done|]. intros f Hf. by apply (chain_in t d l).
  - apply (chain_in t d) in Hx as [_ (e & C1 & B)]; [|done]. exists x. split; [|done].
    by eapply below_step.
Qed.

(** ** The recursive query *)

Definition root_of (user_id item_id : Z) (f : FileEntry.row) : bool := has_id item_id f && owned_by user_id f.

Lemma descendants_spec user_id item_id t l :
  descendants user_id item_id t = Some l ->
  forall f, f ∈ l <-> exists d, d ∈ t /\ root_of user_id item_id d = true /\ below t d f.
Proof.
  intros H f. rewrite (rounds_spec t _ _ _ H). setoid_rewrite elem_select. unfold root_of. naive_solver.
Qed.

Lemma descendants_total user_id item_id t : acyclic t -> exists l, descendants user_id item_id t = Some l.
Proof. apply rounds_total. Qed.

Lemma descendants_loop user_id item_id t d :
  d ∈ t -> root_of user_id item_id d = true -> loops t d -> descendants user_id item_id t = None.
Proof.
  intros Hd R L. apply rounds_loop. exists d. split; [|done]. by apply elem_select.
Qed.

(** ** Updates that keep the shape of the tree *)

Definition keeps_shape (f : FileEntry.row -> FileEntry.row) : Prop :=
  forall x, FileEntry.id (f x) = FileEntry.id x /\ FileEntry.parent_id (f x) = FileEntry.parent_id x
    /\ FileEntry.user_id (f x) = FileEntry.user_id x.

Lemma select_update_commute {A} (q p : A -> bool) f (t : list A) :
  (forall x, q (f x) = q x) -> select q (update p f t) = update p f (select q t).
Proof.
  intros Hq. unfold select, update. induction t as [|x t IH]; simpl; [done|].
  assert (E : q (if p x then f x else x) = q x) by (destruct (p x); [apply Hq|done]).
  rewrite E. destruct (q x); simpl; by rewrite IH.
Qed.

Lemma update_app {A} (p : A -> bool) f (a b : list A) : update p f (a ++ b) = update p f a ++ update p f b.
Proof. apply map_app. Qed.

Lemma children_cons t d ds : children t (d :: ds) = select (child_of (FileEntry.id d)) t ++ children t ds.
Proof. done. Qed.

Lemma children_update p f t ds :
  keeps_shape f -> children (update p f t) (update p f ds) = update p f (children t ds).
Proof.
  intros K. induction ds as [|d ds IH]; [done|].
  change (update p f (d :: ds)) with ((if p d then f d else d) :: update p f ds).
  rewrite !children_cons, IH, update_app, <- select_update_commute.
  - by destruct (p d); [rewrite (proj1 (K d))|].
  - intros x. unfold child_of. by rewrite (proj1 (proj2 (K x))).
Qed.

Lemma rounds_update p f fuel t ws :
  keeps_shape f -> rounds fuel (update p f t) (update p f ws) = option_map (update p f) (rounds fuel t ws).
Proof.
  intros K. revert ws. induction fuel as [|k IH]; intros [|w ws]; try done.
  assert (E : exists w' ws', update p f (w :: ws) = w' :: ws') by (unfold update; simpl; eauto).
  destruct E as (w' & ws' & E). rewrite E. cbn [rounds]. rewrite <- E, children_update, IH by done.
  destruct (rounds k t (children t (w :: ws))) as [r|]; cbn [option_map]; [|done].
  unfold update. by rewrite map_app.
Qed.

Lemma descendants_update p f user_id item_id t :
  keeps_shape f ->
  descendants user_id item_id (update p f t) = option_map (update p f) (descendants user_id item_id t).
Proof.
  intros K. unfold descendants. rewrite update_length, select_update_commute, rounds_update; [done..|].
  intros x. unfold has_id, owned_by. destruct (K x) as (-> & _ & ->). done.
Qed.

Lemma ids_update p f (t : list FileEntry.row) :
  keeps_shape f -> map FileEntry.id (update p f t) = map FileEntry.id t.
Proof. intros K. apply map_update_same. intros r. apply K. Qed.

Lemma update_update_same {A} (p : A -> bool) f g (t : list A) :
  (forall x, p (f x) = p x) -> update p g (update p f t) = update p (fun x => g (f x)) t.
Proof.
  intros H. unfold update. rewrite map_map. apply map_ext. intros x.
  destruct (p x) eqn:E; [by rewrite H, E|by rewrite E].
Qed.

Lemma update_ext {A} (p : A -> bool) f g (t : list A) :
  (forall x, x ∈ t -> p x = true -> f x = g x) -> update p f t = update p g t.
Proof.
  intros H. unfold update. apply map_ext_in. intros x Hx. apply list_elem_of_In in Hx.
  destruct (p x) eqn:E; [by apply H|done].
Qed.

(** Replacing the rows of files by others with the same identifiers keeps the
    constraints of the other tables. *)
Lemma refers_map {A} (key : A -> Z) t t' v : map key t' = map key t -> refers key t' v = refers key t v.
Proof.
  intros E. assert (R : forall u, refers key u v = existsb (fun k => k =? v) (map key u)).
  { intros u. unfold refers. induction u as [|x u IH]; simpl; [done|]. by rewrite IH. }
  by rewrite !R, E.
Qed.

Lemma forallb_impl {A} (p q : A -> bool) (t : list A) :
  (forall x, p x = true -> q x = true) -> forallb p t = true -> forallb q t = true.
Proof. intros H. rewrite !forallb_forall. eauto. Qed.

Lemma opt_all_impl {A} (p q : A -> bool) (o : option A) :
  (forall x, p x = q x) -> opt_all p o = opt_all q o.
Proof. intros H. destruct o; simpl; auto. Qed.

Lemma file_entry_ok_same s t' x :
  map FileEntry.id t' = map FileEntry.id (file_entries s) ->
  file_entry_ok (set_file_entries t' s) x = file_entry_ok s x.
Proof.
  intros E. unfold file_entry_ok. cbn [users set_file_entries file_entries]. f_equal.
  apply opt_all_impl. intros v. by apply refers_map.
Qed.

Lemma rows_ok_files s t' :
  rows_ok s = true -> map FileEntry.id t' = map FileEntry.id (file_entries s) ->
  forallb (file_entry_ok s) t' = true -> rows_ok (set_file_entries t' s) = true.
Proof.
  intros R E F. unfold rows_ok in *. cbn [set_file_entries users refresh_tokens audit_log recovery_keys
    file_entries file_versions share_links devices sync_states sync_folders family_clouds family_members
    storage_policies transcode_jobs playback_progress file_replicas file_tags text_extractions].
  rewrite !andb_true_iff in R. destruct_and!.
  repeat (apply andb_true_iff; split);
    match goal with
    | |- forallb (file_entry_ok _) _ = true =>
        eapply forallb_impl; [|exact F]; intros x; by rewrite file_entry_ok_same
    | H : forallb ?p ?t = true |- forallb ?p ?t = true => exact H
    | H : forallb _ ?t = true |- forallb _ ?t = true =>
        eapply forallb_impl; [|exact H]; intros x; cbv beta
    end.
  - unfold file_version_ok. cbn [users set_file_entries file_entries]. by rewrite (refers_map _ _ _ _ E).
  - unfold share_link_ok. cbn [users set_file_entries file_entries]. by rewrite (refers_map _ _ _ _ E).
  - unfold sync_state_ok. cbn [users devices set_file_entries file_entries].
    by rewrite (refers_map _ _ _ _ E).
  - unfold sync_folder_ok. cbn [users devices set_file_entries file_entries].
    rewrite (opt_all_impl (refers FileEntry.id t') (refers FileEntry.id (file_entries s))); [done|].
    intros v. by apply refers_map.
  - unfold transcode_job_ok. cbn [users set_file_entries file_entries]. by rewrite (refers_map _ _ _ _ E).
  - unfold playback_progress_ok. cbn [users set_file_entries file_entries]. by rewrite (refers_map _ _ _ _ E).
  - unfold file_replica_ok. cbn [users devices set_file_entries file_entries]. by rewrite (refers_map _ _ _ _ E).
  - unfold file_tag_ok. cbn [set_file_entries file_entries]. by rewrite (refers_map _ _ _ _ E).
  - unfold text_extraction_ok. cbn [set_file_entries file_entries]. by rewrite (refers_map _ _ _ _ E).
Qed.

Lemma keys_ok_files s t' :
  keys_ok s = true -> map FileEntry.id t' = map FileEntry.id (file_entries s) ->
  unique_key file_key t' = true -> keys_ok (set_file_entries t' s) = true.
Proof.
  intros K E F. unfold keys_ok in *. cbn [set_file_entries users refresh_tokens audit_log recovery_keys
    file_entries file_versions share_links devices sync_states sync_folders family_clouds family_members
    storage_policies].
  rewrite !andb_true_iff in K. destruct_and!.
  repeat (apply andb_true_iff; split); try assumption. unfold unique_key. by rewrite E.
Qed.

Lemma schema_files s t' :
  schema_ok s = true -> map FileEntry.id t' = map FileEntry.id (file_entries s) ->
  unique_key file_key t' = true -> forallb (file_entry_ok s) t' = true ->
  schema_ok (set_file_entries t' s) = true.
Proof.
  unfold schema_ok. rewrite !andb_true_iff. intros [K R]. split; [by apply keys_ok_files|by apply rows_ok_files].
Qed.

(** Touching only the timestamps keeps the constraints. *)
Lemma schema_touch p n s :
  schema_ok s = true -> schema_ok (update_files p (FileEntry.set_updated_at n) s) = true.
Proof.
  intros S. unfold update_files. apply schema_files; [done|by apply map_update_same|..].
  - unfold unique_key. rewrite (map_update_same file_key) by done.
    unfold schema_ok, keys_ok in S. rewrite !andb_true_iff in S. tauto.
  - assert (F : forallb (file_entry_ok s) (file_entries s) = true).
    { unfold schema_ok, rows_ok in S. rewrite !andb_true_iff in S. tauto. }
    rewrite forallb_forall in F. apply forallb_forall. intros x Hx.
    apply list_elem_of_In, elem_update in Hx as (r & Hr & ->). apply list_elem_of_In in Hr.
    destruct (p r); [|by apply F]. exact (F r Hr).
Qed.

(** ** The trash *)

Lemma key_file_key s : schema_ok s = true -> unique_key file_key (file_entries s) = true.
Proof. unfold schema_ok, keys_ok. rewrite !andb_true_iff. tauto. Qed.

Lemma id_in_iff ids f : id_in ids f = true <-> FileEntry.id f ∈ ids.
Proof.
  unfold id_in. rewrite existsb_exists. setoid_rewrite Z.eqb_eq. setoid_rewrite <- list_elem_of_In.
  naive_solver.
Qed.

(** With unique identifiers a set of rows is the set of its identifiers. *)
Lemma id_in_rows t ds f :
  unique_key FileEntry.id t = true -> (forall x, x ∈ ds -> x ∈ t) -> f ∈ t ->
  id_in (map FileEntry.id ds) f = true <-> f ∈ ds.
Proof.
  intros U Hds Hf. rewrite id_in_iff, list_elem_of_fmap. split.
  - intros (x & E & Hx). by rewrite (unique_key_inj _ _ _ _ U Hf (Hds x Hx) E).
  - intros H. by exists f.
Qed.

(** The rows at and below the item [item_id] of a user. *)
Definition in_subtree (t : list FileEntry.row) (user_id item_id : Z) (f : FileEntry.row) : Prop :=
  exists d, d ∈ t /\ root_of user_id item_id d = true /\ below t d f.

Lemma below_in t d f : d ∈ t -> below t d f -> f ∈ t.
Proof. intros Hd B. revert Hd. induction B as [|d e f C B IH]; [done|]. intros _. apply IH, C. Qed.

Lemma descendants_ids user_id item_id s ds :
  schema_ok s = true -> descendants user_id item_id (file_entries s) = Some ds ->
  forall f, f ∈ file_entries s ->
    id_in (map FileEntry.id ds) f = true <-> in_subtree (file_entries s) user_id item_id f.
Proof.
  intros S D f Hf. assert (Sp := descendants_spec _ _ _ _ D).
  rewrite (id_in_rows (file_entries s)); [apply Sp|by apply key_file| |done].
  intros x Hx. apply Sp in Hx as (d & Hd & _ & B). by eapply below_in.
Qed.

Lemma root_of_iff user_id item_id d :
  root_of user_id item_id d = true <-> FileEntry.id d = item_id /\ FileEntry.user_id d = user_id.
Proof. unfold root_of, has_id, owned_by. by rewrite andb_true_iff, !Z.eqb_eq. Qed.

(** The query ends exactly on an item that cannot reach a cycle. *)
Lemma descendants_None_iff s d :
  schema_ok s = true -> d ∈ file_entries s ->
  descendants (FileEntry.user_id d) (FileEntry.id d) (file_entries s) = None <-> loops (file_entries s) d.
Proof.
  intros S Hd. split.
  - intros H. apply rounds_None_loops in H as (e & He & L). apply elem_select in He as [He R].
    apply root_of_iff in R as [E _].
    by rewrite <- (unique_key_inj _ _ _ _ (key_file _ S) He Hd E).
  - intros L. eapply descendants_loop; [exact Hd| |done]. by apply root_of_iff.
Qed.

Section Trash.
Context {O : Oracle}.

Lemma verify_ownership_Ok user_id item_id w d w' :
  verify_ownership user_id item_id w = (Ok d, w') ->
  db_fault (pos w) = None /\ w' = mkWorld (data w) (S (pos w)) /\ d ∈ file_entries (data w)
  /\ root_of user_id item_id d = true.
Proof.
  unfold verify_ownership. intros H. run_ok H. apply find_row_Some in H as [? ?]. done.
Qed.

Lemma verify_ownership_run d w :
  reliable O -> schema_ok (data w) = true -> d ∈ file_entries (data w) ->
  verify_ownership (FileEntry.user_id d) (FileEntry.id d) w = (Ok d, mkWorld (data w) (S (pos w))).
Proof.
  intros R S Hd. unfold verify_ownership, query, statement, mbind, M_bind.
  rewrite (proj1 (R (pos w))). cbv beta iota zeta.
  rewrite (find_unique FileEntry.id _ d); [done|by apply key_file|done|by apply root_of_iff|].
  intros x Hx. by apply root_of_iff in Hx as [? _].
Qed.

Lemma update_subtree_Ok user_id item_id f w a w' :
  update_subtree user_id item_id f w = (Ok a, w') ->
  exists ds, descendants user_id item_id (file_entries (data w)) = Some ds
    /\ data w' = update_files (id_in (map FileEntry.id ds)) (f (clock_at (pos w))) (data w)
    /\ schema_ok (data w') = true.
Proof.
  unfold update_subtree. intros H. run_ok H.
  destruct (descendants _ _ _) as [ds|]; [|done]. simpl in H. exists ds. naive_solver.
Qed.

Lemma update_subtree_run user_id item_id f w :
  reliable O ->
  update_subtree user_id item_id f w =
    match descendants user_id item_id (file_entries (data w)) with
    | None => (Diverge, mkWorld (data w) (S (pos w)))
    | Some ds =>
        if schema_ok (update_files (id_in (map FileEntry.id ds)) (f (clock_at (pos w))) (data w))
        then (Ok tt, mkWorld (update_files (id_in (map FileEntry.id ds)) (f (clock_at (pos w))) (data w))
                       (S (pos w)))
        else (Err (Database (DbOther (lit "constraint violation"))), mkWorld (data w) (S (pos w)))
    end.
Proof.
  intros R. unfold update_subtree, execute_rec, statement. rewrite (proj1 (R (pos w))).
  destruct (descendants _ _ _) as [ds|]; cbn [option_map]; [|reflexivity].
  unfold checked. cbn [fst snd]. destruct (schema_ok _); reflexivity.
Qed.

(** C22: moving an item to the trash marks exactly the item and the rows below
    it, with the time of the statement, and touches nothing else. *)
Theorem delete_item_marks_subtree user_id item_id w w' :
  schema_ok (data w) = true -> delete_item user_id item_id w = (Ok tt, w') ->
  exists marked now,
    (forall f, f ∈ file_entries (data w) ->
       marked f = true <-> in_subtree (file_entries (data w)) user_id item_id f)
    /\ (exists d, in_subtree (file_entries (data w)) user_id item_id d /\ FileEntry.id d = item_id)
    /\ data w' = set_file_entries (map (fun f => if marked f then mark_trashed now f else f)
                                     (file_entries (data w))) (data w)
    /\ schema_ok (data w') = true.
Proof.
  intros S H. unfold delete_item in H. run_ok H. apply verify_ownership_Ok in Hm as (_ & -> & Hd & R).
  apply update_subtree_Ok in H as (ds & D & E & S'). simpl in *. eexists _, _.
  split; [by apply (descendants_ids _ _ _ _ S D)|]. split; [|split; [exact E|done]].
  exists x. split; [|by apply root_of_iff in R as [? _]]. exists x. split; [done|]. split; [done|constructor].
Qed.

(** trashing ends exactly on an item that cannot reach a cycle of parents;
    on an item that can, the recursive query never does. *)
Theorem delete_item_ends_iff w d :
  reliable O -> schema_ok (data w) = true -> d ∈ file_entries (data w) ->
  fst (delete_item (FileEntry.user_id d) (FileEntry.id d) w) = Diverge
  <-> loops (file_entries (data w)) d.
Proof.
  intros R S Hd. rewrite <- (descendants_None_iff _ _ S Hd). unfold delete_item.
  erewrite bind_run; [|by apply verify_ownership_run|reflexivity]. rewrite update_subtree_run by done.
  cbn [data]. destruct (descendants _ _ _); [|done]. destruct (schema_ok (update_files _ _ _)); cbn [fst]; split; done.
Qed.

(** *** Restoring *)

Lemma descendants_touched p f user_id item_id t ds :
  keeps_shape f -> descendants user_id item_id t = Some ds ->
  descendants user_id item_id (update p f t) = Some (update p f ds).
Proof. intros K D. by rewrite descendants_update, D. Qed.

Lemma mark_trashed_shape n : keeps_shape (mark_trashed n).
Proof. done. Qed.

(** Marking and unmarking rows that were not in the trash touches them. *)
Lemma unmark_marked m n f :
  FileEntry.is_trashed f = false -> FileEntry.trashed_at f = None ->
  mark_restored n (mark_trashed m f) = FileEntry.set_updated_at n f.
Proof. destruct f; simpl. by intros -> ->. Qed.

Lemma update_marked_ids m n ds t :
  (forall f, f ∈ t -> id_in (map FileEntry.id ds) f = true ->
     FileEntry.is_trashed f = false /\ FileEntry.trashed_at f = None) ->
  update (id_in (map FileEntry.id ds)) (mark_restored n)
    (update (id_in (map FileEntry.id ds)) (mark_trashed m) t)
  = update (id_in (map FileEntry.id ds)) (FileEntry.set_updated_at n) t.
Proof.
  intros H. rewrite update_update_same by done. apply update_ext. intros x Hx Ix.
  destruct (H x Hx Ix). by apply unmark_marked.
Qed.

(** C23: the trash round trip.  An item whose subtree holds nothing trashed,
    moved to the trash and restored with the database answering, is back with
    every row below it as it was, only their modification times are new. *)
Theorem trash_roundtrip user_id item_id w w1 :
  reliable O -> schema_ok (data w) = true ->
  (forall f, in_subtree (file_entries (data w)) user_id item_id f ->
     FileEntry.is_trashed f = false /\ FileEntry.trashed_at f = None) ->
  delete_item user_id item_id w = (Ok tt, w1) ->
  exists r w2 inside, restore_from_trash user_id item_id w1 = (Ok r, w2)
    /\ id r = item_id /\ is_trashed r = false
    /\ (forall f, f ∈ file_entries (data w) ->
          inside f = true <-> in_subtree (file_entries (data w)) user_id item_id f)
    /\ data w2 = update_files inside (FileEntry.set_updated_at (clock_at (S (pos w1)))) (data w).
Proof.
  intros R S U H. unfold delete_item in H. run_ok H.
  apply verify_ownership_Ok in Hm as (_ & -> & Hd & Rd).
  apply update_subtree_Ok in H as (ds & D & E & S'). simpl in D, E.
  set (now := clock_at _) in E. clearbody now.
  assert (I := descendants_ids _ _ _ _ S D). apply root_of_iff in Rd as [<- <-].
  assert (Ix : id_in (map FileEntry.id ds) x = true).
  { apply I; [done|]. exists x. split; [done|]. split; [by apply root_of_iff|constructor]. }
  assert (Hx : mark_trashed now x ∈ file_entries (data w1)).
  { rewrite E. apply elem_update. exists x. by rewrite Ix. }
  unfold restore_from_trash.
  erewrite bind_run; [|exact (verify_ownership_run (mark_trashed now x) w1 R S' Hx)|reflexivity].
  cbn [FileEntry.is_trashed mark_trashed FileEntry.set_updated_at FileEntry.set_trashed_at
       FileEntry.set_is_trashed negb].
  set (p := id_in (map FileEntry.id ds)) in *. set (n := clock_at (Datatypes.S (pos w1))).
  assert (T : update_files p (mark_restored n) (data w1)
            = update_files p (FileEntry.set_updated_at n) (data w)).
  { rewrite E. transitivity (set_file_entries (update p (mark_restored n)
      (update p (mark_trashed now) (file_entries (data w)))) (data w)); [reflexivity|].
    unfold update_files. f_equal. apply update_marked_ids. intros f Hf If. by apply U, I. }
  assert (Tok := schema_touch p n _ S).
  erewrite bind_run; [| |reflexivity].
  2: { rewrite update_subtree_run by done. cbn [data pos]. rewrite E at 1. cbn [file_entries update_files set_file_entries].
       rewrite (descendants_touched _ _ _ _ _ _ (mark_trashed_shape now) D), ids_update by apply mark_trashed_shape.
       fold p n. rewrite T, Tok. reflexivity. }
  erewrite bind_run; [| |reflexivity].
  2: { unfold fetch_one, statement. cbn [data pos]. rewrite (proj1 (R _)).
       rewrite (find_unique FileEntry.id _ (FileEntry.set_updated_at n x));
         [reflexivity|by apply key_file| |apply Z.eqb_refl|intros y Hy; by apply Z.eqb_eq in Hy].
       apply elem_update. exists x. unfold p in Ix |- *. by rewrite Ix. }
  eexists _, _, p. split; [reflexivity|]. split; [done|]. split; [|split; [exact I|done]].
  refine (proj1 (U x _)). by apply I.
Qed.
(** *** Moving a folder below itself *)

Definition moved (now : Z) (i : Z) (target : option Z) (f : FileEntry.row) : FileEntry.row :=
  if has_id i f then FileEntry.set_updated_at now (FileEntry.set_parent_id target f) else f.

Lemma move_item_Ok user_id item_id target w r w' :
  move_item user_id item_id target w = (Ok r, w') ->
  exists now, data w' = set_file_entries (map (moved now item_id target) (file_entries (data w))) (data w)
    /\ schema_ok (data w') = true.
Proof.
  unfold move_item. intros H. destruct target as [tgt|]; run_ok H.
  1: apply verify_ownership_Ok in Hm1 as (_ & -> & _).
  all: apply verify_ownership_Ok in Hm as (_ & -> & _).
  all: match goal with H : update_returning _ _ _ = _ |- _ => injection H as _ Ew end.
  all: rewrite <- Ew in *; eexists; split; [reflexivity|assumption].
Qed.

(** After the move every path from the moved row survives, possibly cut at
    its last visit of it. *)
Lemma below_moved t now d target a b :
  unique_key FileEntry.id t = true -> d ∈ t -> below t a b ->
  let t' := map (moved now (FileEntry.id d) target) t in
  let m := moved now (FileEntry.id d) target in
  below t' (m a) (m b) \/ below t' (m d) (m b).
Proof.
  intros U Hd B. simpl. induction B as [a|a c b C B IH]; [left; constructor|].
  destruct IH as [IH|IH]; [|by right]. destruct C as [Hc P].
  assert (Hm : moved now (FileEntry.id d) target c ∈ map (moved now (FileEntry.id d) target) t).
  { apply list_elem_of_fmap. eauto. }
  destruct (has_id (FileEntry.id d) c) eqn:E.
  - apply Z.eqb_eq in E. rewrite (unique_key_inj _ _ _ _ U Hc Hd E) in IH. by right.
  - left. eapply below_step; [|exact IH]. split; [done|]. unfold moved at 1. rewrite E, P. f_equal.
    unfold moved. by destruct (has_id _ a).
Qed.

(** nothing stops a folder from being moved into one of its own
    descendants, and after such a move trashing it never ends: the comment in
    the code claims descendants are prevented, only the folder itself is. *)
Theorem move_into_descendant_loops d e w r w' :
  reliable O -> schema_ok (data w) = true -> d ∈ file_entries (data w) -> e ∈ file_entries (data w) ->
  below (file_entries (data w)) d e ->
  move_item (FileEntry.user_id d) (FileEntry.id d) (Some (FileEntry.id e)) w = (Ok r, w') ->
  fst (delete_item (FileEntry.user_id d) (FileEntry.id d) w') = Diverge.
Proof.
  intros R S Hd He B H. apply move_item_Ok in H as (now & E & S').
  set (m := moved now (FileEntry.id d) (Some (FileEntry.id e))) in *.
  assert (Hm : forall x, x ∈ file_entries (data w) -> m x ∈ file_entries (data w')).
  { intros x Hx. rewrite E. apply list_elem_of_fmap. eauto. }
  assert (Md : FileEntry.id (m d) = FileEntry.id d /\ FileEntry.user_id (m d) = FileEntry.user_id d
    /\ FileEntry.parent_id (m d) = Some (FileEntry.id e)).
  { unfold m, moved, has_id. by rewrite Z.eqb_refl. }
  assert (Bm : below (file_entries (data w')) (m d) (m e)).
  { rewrite E. cbn [file_entries set_file_entries].
    destruct (below_moved _ now d (Some (FileEntry.id e)) d e (key_file _ S) Hd B) as [X|X]; exact X. }
  destruct Md as (Ei & Eu & Ep). rewrite <- Ei, <- Eu. apply delete_item_ends_iff; [done|done|by apply Hm|].
  exists (m e). split; [done|]. exists (m d). split; [|done]. split; [by apply Hm|].
  rewrite Ep. unfold m, moved. by destruct (has_id _ e).
Qed.

(** two items of one name cannot both be in the trash: when a trashed item
    of the same user, folder and name exists, trashing fails on the UNIQUE
    constraint and changes nothing. *)
Theorem trash_name_taken x y w :
  reliable O -> schema_ok (data w) = true -> acyclic (file_entries (data w)) ->
  x ∈ file_entries (data w) -> y ∈ file_entries (data w) ->
  FileEntry.is_trashed x = false -> file_key y = file_key (mark_trashed 0 x) ->
  exists w', delete_item (FileEntry.user_id x) (FileEntry.id x) w
             = (Err (Database (DbOther (lit "constraint violation"))), w')
    /\ data w' = data w.
Proof.
  intros R S A Hx Hy T K. unfold delete_item.
  erewrite bind_run; [|by apply verify_ownership_run|reflexivity]. rewrite update_subtree_run by done.
  cbn [data pos]. set (now := clock_at _). clearbody now.
  destruct (descendants_total (FileEntry.user_id x) (FileEntry.id x) _ A) as [ds D]. rewrite D.
  destruct (schema_ok (update_files _ _ _)) eqn:S'; [exfalso|by eexists].
  apply key_file_key in S'. unfold update_files in S'. cbn [file_entries set_file_entries] in S'.
  assert (I := descendants_ids _ _ _ _ S D). set (p := id_in _) in *.
  assert (Hp : forall f, f ∈ file_entries (data w) ->
    (if p f then mark_trashed now f else f) ∈ update p (mark_trashed now) (file_entries (data w))).
  { intros f Hf. apply elem_update. eauto. }
  assert (Px : p x = true).
  { apply I; [done|]. exists x. split; [done|]. split; [by apply root_of_iff|constructor]. }
  assert (E := unique_key_inj _ _ _ _ S' (Hp x Hx) (Hp y Hy)). rewrite Px in E.
  assert (Ty : file_key y = file_key (mark_trashed now y)).
  { unfold file_key in *. cbn in *. by injection K as -> -> -> ->. }
  assert (Ei : FileEntry.id x = FileEntry.id y).
  { transitivity (FileEntry.id (mark_trashed now x)); [done|]. rewrite E; [by destruct (p y)|].
    transitivity (file_key y); [done|]. by destruct (p y). }
  rewrite <- (unique_key_inj _ _ _ _ (key_file _ S) Hx Hy Ei) in K.
  unfold file_key in K. cbn in K. rewrite T in K. discriminate K.
Qed.
End Trash.

(** ** Concrete runs *)

(** Parents older than their children, by identifier: no cycle. *)
Lemma acyclic_ids t :
  forallb (fun f => match FileEntry.parent_id f with Some p => p <? FileEntry.id f | None => true end) t = true ->
  acyclic t.
Proof.
  rewrite forallb_forall. intros H.
  assert (C : forall d f, child t d f -> FileEntry.id d < FileEntry.id f).
  { intros d f [Hf P]. apply list_elem_of_In, H in Hf. rewrite P in Hf. by boolify. }
  assert (B : forall d f, below t d f -> FileEntry.id d <= FileEntry.id f).
  { induction 1 as [d|d e f Cd _ IH]; [lia|]. apply C in Cd. lia. }
  intros d (e & Cd & Bd). apply C in Cd. apply B in Bd. lia.
Qed.

Definition demo_owned (u i : Z) (parent : option Z) (n kind : string) : FileEntry.row :=
  {| FileEntry.id := i; FileEntry.user_id := u; FileEntry.parent_id := parent;
     FileEntry.name := lit n; FileEntry.entry_type := lit kind; FileEntry.mime_type := None;
     FileEntry.size_bytes := 0; FileEntry.sha256_hash := None; FileEntry.storage_path := None;
     FileEntry.is_trashed := false; FileEntry.trashed_at := None; FileEntry.created_at := 0;
     FileEntry.updated_at := 0 |}.

Definition demo_row := demo_owned 2.
Definition demo_docs := demo_row 10 None "docs" "folder".
Definition demo_sub := demo_row 11 (Some 10) "sub" "folder".
Definition demo_note := demo_row 12 (Some 11) "note" "file".
Definition demo_old := mark_trashed 5 (demo_row 13 None "docs" "folder").

Definition demo_files (l : list FileEntry.row) : World Server :=
  mkWorld (set_file_entries l Auth.demo_server) 0.
Definition demo_tree := demo_files [demo_docs; demo_sub; demo_note].

Lemma demo_tree_untrashed f :
  in_subtree (file_entries (data demo_tree)) 2 10 f ->
  FileEntry.is_trashed f = false /\ FileEntry.trashed_at f = None.
Proof.
  intros (d & Hd & _ & B). apply (below_in _ _ _ Hd), list_elem_of_In in B.
  simpl in B. destruct B as [<-|[<-|[<-|[]]]]; done.
Qed.

Lemma delete_item_witness : exists w', delete_item (O := toy_env []) 2 10 demo_tree = (Ok tt, w')
  /\ schema_ok (data w') = true.
Proof.
  destruct (delete_item (O := toy_env []) 2 10 demo_tree) as [[[]|e| |] w'] eqn:E; [|not_ok E..].
  destruct (delete_item_marks_subtree (O := toy_env []) 2 10 demo_tree w' ltac:(vm_compute; reflexivity) E)
    as (_ & _ & _ & _ & _ & S). by exists w'.
Defined.

Lemma delete_ends_witness : ~ loops (file_entries (data demo_tree)) demo_docs.
Proof.
  intros L.
  apply (delete_item_ends_iff (O := toy_env []) demo_tree demo_docs toy_env_reliable
    ltac:(vm_compute; reflexivity) ltac:(left)) in L.
  vm_compute in L. discriminate L.
Defined.

Lemma trash_roundtrip_witness : exists w1 r w2,
  delete_item (O := toy_env []) 2 10 demo_tree = (Ok tt, w1)
  /\ restore_from_trash (O := toy_env []) 2 10 w1 = (Ok r, w2) /\ id r = 10.
Proof.
  destruct (delete_item (O := toy_env []) 2 10 demo_tree) as [[[]|e| |] w1] eqn:E; [|not_ok E..].
  destruct (trash_roundtrip (O := toy_env []) 2 10 demo_tree w1 toy_env_reliable
    ltac:(vm_compute; reflexivity) demo_tree_untrashed E) as (r & w2 & _ & H & I & _).
  by exists w1, r, w2.
Defined.

Lemma demo_below : below (file_entries (data demo_tree)) demo_docs demo_sub.
Proof.
  eapply below_step; [|constructor]. split; [right; left|reflexivity].
Qed.

Lemma move_loops_witness : exists r w',
  move_item (O := toy_env []) 2 10 (Some 11) demo_tree = (Ok r, w')
  /\ fst (delete_item (O := toy_env []) 2 10 w') = Diverge.
Proof.
  destruct (move_item (O := toy_env []) 2 10 (Some 11) demo_tree) as [[r|e| |] w'] eqn:E; [|not_ok E..].
  exists r, w'. split; [reflexivity|].
  exact (move_into_descendant_loops (O := toy_env []) demo_docs demo_sub demo_tree r w' toy_env_reliable
    ltac:(vm_compute; reflexivity) ltac:(left) ltac:(right; left) demo_below E).
Defined.

Lemma trash_name_witness : exists w',
  delete_item (O := toy_env []) 2 10 (demo_files [demo_docs; demo_old])
    = (Err (Database (DbOther (lit "constraint violation"))), w').
Proof.
  destruct (trash_name_taken (O := toy_env []) demo_docs demo_old (demo_files [demo_docs; demo_old])
    toy_env_reliable ltac:(vm_compute; reflexivity) ltac:(apply acyclic_ids; reflexivity)
    ltac:(left) ltac:(right; left) ltac:(reflexivity) ltac:(reflexivity)) as (w' & H & _).
  by exists w'.
Defined.
End Tree.
