(* ===== verification/Tenancy.v ===== *)
(** * Tenancy: users keep to their own files

    The invariant of the file table (the constraints of the schema, and every
    parent belongs to the owner of its children), that every operation of
    service.rs keeps it, and that the operations of one user leave the files of
    every other user alone, whatever fails. *)

From S2P Require Import Prelude Text Effects Externals Fs Schema Auth Account Storage Files Tree.

Module Tenancy.
Import Files Tree.

(** ** Steps that write no table *)

Definition tables_same (s s' : Server) : Prop := s' = set_disk (disk s') s.

#[export] Instance tables_same_preorder : PreOrder tables_same.
Proof.
  split; [by intros []|]. intros s1 s2 s3 H1 H2. unfold tables_same in *. rewrite H2, H1. reflexivity.
Qed.

Section Disk.
Context {O : Oracle} {S2 : Sha256} {HX : Hex} {UT : UuidText}.
Context (base : Fs.path).

Lemma fs_op_tables f : preserves tables_same (Storage.fs_op f).
Proof.
  apply preserves_io; [apply _|]. intros s a s' H. destruct (f (disk s)); [|done].
  injection H as _ <-. reflexivity.
Qed.

Lemma fs_read_tables {A} (f : Fs.fs -> option A) : preserves tables_same (Storage.fs_read f).
Proof.
  apply preserves_io; [apply _|]. intros s a s' H. destruct (f (disk s)); [|done].
  injection H as _ <-. reflexivity.
Qed.

Ltac disk_only :=
  repeat first [ apply fs_op_tables | apply fs_read_tables | progress preserve ].

Lemma resolve_path_tables p : preserves tables_same (Storage.resolve_path base p).
Proof.
  apply preserves_io; [apply _|]. intros s a s' H. destruct (Storage.safe_resolve _ _ _); [done|].
  injection H as _ <-. reflexivity.
Qed.

Lemma store_file_tables u f d : preserves tables_same (Storage.store_file base u f d).
Proof. unfold Storage.store_file, Storage.write_atomic. disk_only. Qed.

Lemma store_chunk_tables u f i d : preserves tables_same (Storage.store_chunk base u f i d).
Proof. unfold Storage.store_chunk, Storage.write_atomic. disk_only. Qed.

Lemma append_chunks_tables n i d t b : preserves tables_same (Storage.append_chunks n i d t b).
Proof.
  revert i b. induction n as [|n IH]; intros i b; cbn [Storage.append_chunks]; disk_only; apply IH.
Qed.

Lemma assemble_chunks_tables u up f n : preserves tables_same (Storage.assemble_chunks base u up f n).
Proof.
  unfold Storage.assemble_chunks. repeat first [apply append_chunks_tables | progress disk_only].
Qed.

Lemma read_file_tables p : preserves tables_same (Storage.read_file base p).
Proof. unfold Storage.read_file. repeat first [apply resolve_path_tables | progress disk_only]. Qed.

Lemma open_file_tables p : preserves tables_same (Storage.open_file base p).
Proof. unfold Storage.open_file. repeat first [apply resolve_path_tables | progress disk_only]. Qed.

Lemma delete_file_tables p : preserves tables_same (Storage.delete_file base p).
Proof. unfold Storage.delete_file. repeat first [apply resolve_path_tables | progress disk_only]. Qed.

Lemma delete_paths_tables l : preserves tables_same (delete_paths base l).
Proof.
  induction l as [|p l IH]; cbn [delete_paths]; repeat first [apply delete_file_tables | exact IH | progress preserve].
Qed.
End Disk.

(** ** The invariant and the relation of a step *)

(** A parent belongs to the owner of its children. *)
Definition owned_tree (t : list FileEntry.row) : Prop :=
  forall f p, f ∈ t -> p ∈ t -> FileEntry.parent_id f = Some (FileEntry.id p) ->
    FileEntry.user_id p = FileEntry.user_id f.

(** A link is on a file of the user who made it. *)
Definition links_owned (s : Server) : Prop :=
  forall l f, l ∈ share_links s -> f ∈ file_entries s -> FileEntry.id f = ShareLink.file_entry_id l ->
    FileEntry.user_id f = ShareLink.user_id l.

Definition owned (s : Server) : Prop := owned_tree (file_entries s) /\ links_owned s.

Definition tidy (s : Server) : Prop := schema_ok s = true /\ owned s.

(** The file a version or a link refers to is not the user's. *)
Definition foreign (user_id : Z) (s : Server) (file_entry_id : Z) : Prop :=
  exists f, f ∈ file_entries s /\ FileEntry.id f = file_entry_id /\ FileEntry.user_id f <> user_id.

(** The rows of the other users, and what refers to them, are still there. *)
Definition others_kept (user_id : Z) (s s' : Server) : Prop :=
  (forall v, v <> user_id ->
     select (owned_by v) (file_entries s') = select (owned_by v) (file_entries s))
  /\ (forall x, x ∈ file_versions s -> foreign user_id s (FileVersion.file_entry_id x) -> x ∈ file_versions s')
  /\ (forall x, x ∈ share_links s -> foreign user_id s (ShareLink.file_entry_id x) -> x ∈ share_links s').

Definition isolated (user_id : Z) (s s' : Server) : Prop :=
  tidy s -> tidy s' /\ others_kept user_id s s'.

Lemma foreign_kept u s s' i : others_kept u s s' -> foreign u s i -> foreign u s' i.
Proof.
  intros [K _] (f & Hf & E & N). exists f. split; [|done].
  assert (H : f ∈ select (owned_by (FileEntry.user_id f)) (file_entries s)).
  { apply elem_select. split; [done|]. apply Z.eqb_refl. }
  rewrite <- K in H by done. by apply elem_select in H as [? _].
Qed.

Lemma others_kept_refl u s : others_kept u s s.
Proof. split; [done|]. split; by intros. Qed.

#[export] Instance isolated_preorder u : PreOrder (isolated u).
Proof.
  split; [intros s T; split; [done|apply others_kept_refl]|].
  intros s1 s2 s3 H1 H2 T. destruct (H1 T) as [T2 K1]. destruct (H2 T2) as [T3 K2].
  split; [done|]. assert (F := fun i => foreign_kept u s1 s2 i K1).
  destruct K1 as (A1 & B1 & C1), K2 as (A2 & B2 & C2).
  split; [|split]; [intros v N; by rewrite A2, A1|eauto|eauto].
Qed.

Lemma tables_same_isolated u s s' : tables_same s s' -> isolated u s s'.
Proof. intros -> T. split; [exact T|exact (others_kept_refl u s)]. Qed.

Lemma owned_single f : owned_tree [f].
Proof. intros x p Hx Hp _. apply list_elem_of_singleton in Hx, Hp. congruence. Qed.

(** ** Programs run on file tables with a property *)

Definition under (P : list FileEntry.row -> Prop) (u : Z) {A} (m : M Server A) : Prop :=
  forall w o w', P (file_entries (data w)) -> m w = (o, w') -> isolated u (data w) (data w').

(** What reading the file table established of the parent of a new row. *)
Definition parent_owned (u : Z) (parent : option Z) (t : list FileEntry.row) : Prop :=
  forall p, parent = Some p -> exists d, d ∈ t /\ root_of u p d = true.

Section Under.
Context {O : Oracle}.

Lemma under_same P u {A} (m : M Server A) : preserves tables_same m -> under P u m.
Proof. intros H w o w' _ E. by apply tables_same_isolated, (H w o). Qed.

Lemma under_frame P u {A B} (m : M Server A) (k : A -> M Server B) :
  preserves tables_same m -> (forall a, under P u (k a)) -> under P u (x ← m; k x).
Proof.
  intros Hm Hk w o w' HP H. apply bind_inv in H as [(a & w1 & E & H)|(o' & E)].
  - apply Hm in E. transitivity (data w1); [by apply tables_same_isolated|].
    eapply Hk; [|exact H]. rewrite E. exact HP.
  - by apply tables_same_isolated, (Hm w o').
Qed.

Lemma verify_ownership_tables u i : preserves tables_same (verify_ownership u i).
Proof. unfold verify_ownership. preserve. Qed.

Lemma under_owned P u i {B} (k : FileEntry.row -> M Server B) :
  (forall d, under (fun t => P t /\ d ∈ t /\ root_of u i d = true) u (k d)) ->
  under P u (x ← verify_ownership u i; k x).
Proof.
  intros Hk w o w' HP H. apply bind_inv in H as [(a & w1 & E & H)|(o' & E)].
  - apply verify_ownership_Ok in E as (_ & -> & Ha & R). by eapply Hk in H.
  - by apply tables_same_isolated, (verify_ownership_tables u i w o').
Qed.

Lemma under_find P u p e {B} (k : FileEntry.row -> M Server B) :
  (forall d, under (fun t => P t /\ d ∈ t /\ p d = true) u (k d)) ->
  under P u (row ← query (fun s => find_row p (file_entries s)); x ← ok_or row e; k x).
Proof.
  intros Hk w o w' HP H. apply bind_inv in H as [(a & w1 & E & H)|(o' & E)].
  - apply query_Ok in E as (_ & -> & ->). destruct (find_row p _) as [d|] eqn:F.
    + apply find_row_Some in F as [Hd Pd]. exact (Hk d (mkWorld (data w) (Datatypes.S (pos w))) o w' (conj HP (conj Hd Pd)) H).
    + injection H as _ <-. reflexivity.
  - by apply tables_same_isolated, (preserves_query tables_same _ w o' w' E).
Qed.

Lemma under_fetch P u p f {B} (k : FileEntry.row -> M Server B) :
  (forall d, under (fun t => P t /\ d ∈ t /\ p d = true) u (k d)) ->
  under P u (x ← map_err f (fetch_one (fun s => find_row p (file_entries s))); k x).
Proof.
  intros Hk w o w' HP H. apply bind_inv in H as [(a & w1 & E & H)|(o' & E)].
  - apply map_err_Ok, fetch_one_Ok in E as (_ & E & ->). apply find_row_Some in E as [Hd Pd].
    by eapply Hk in H.
  - apply map_err_inv in E as (o2 & E). by apply tables_same_isolated, (preserves_fetch_one tables_same _ w o2 w' E).
Qed.

Lemma under_parent P u parent {B} (k : unit -> M Server B) :
  under (fun t => P t /\ parent_owned u parent t) u (k tt) ->
  under P u (x ← verify_parent u parent; k x).
Proof.
  intros Hk. destruct parent as [p|].
  - intros w o w' HP H. unfold verify_parent in H. apply bind_inv in H as [([] & w1 & E & H)|(o' & E)].
    + run_ok E. apply verify_ownership_Ok in Hm as (_ & -> & Ha & R).
      eapply Hk in H; [exact H|]. split; [done|]. intros q [= <-]. eauto.
    + eapply (preserves_bind tables_same) in E; [by apply tables_same_isolated|..].
      * apply verify_ownership_tables.
      * intros ?. apply preserves_ret. apply _.
  - intros w o w' HP H. eapply Hk in H; [exact H|]. split; [done|]. by intros q.
Qed.

Lemma under_weaken (P Q : list FileEntry.row -> Prop) u {A} (m : M Server A) :
  (forall t, P t -> Q t) -> under Q u m -> under P u m.
Proof. intros PQ Hm w o w' HP. apply Hm, PQ, HP. Qed.

Lemma under_statement P u {A} (f : Z -> Server -> sql A Server) :
  (forall now s a s', P (file_entries s) -> f now s = Rows a s' -> isolated u s s') ->
  under P u (statement f).
Proof.
  intros Hf w o w' HP H. unfold statement in H.
  destruct (db_fault _); [simplify_eq; reflexivity|].
  destruct (f _ _) eqn:E; simplify_eq; [by eapply Hf|reflexivity..].
Qed.

Lemma under_last P u {A B} (m : M Server A) (k : A -> M Server B) :
  under P u m -> (forall a, preserves tables_same (k a)) -> under P u (x ← m; k x).
Proof.
  intros Hm Hk w o w' HP H. apply bind_inv in H as [(a & w1 & E & H)|(o' & E)]; [|by eapply Hm].
  transitivity (data w1); [by eapply Hm|]. by apply tables_same_isolated, (Hk a w1 o).
Qed.

(** Writes one after the other. *)
Lemma under_seq u {A B} (m : M Server A) (k : A -> M Server B) :
  under (fun _ => True) u m -> (forall a, under (fun _ => True) u (k a)) -> under (fun _ => True) u (x ← m; k x).
Proof.
  intros Hm Hk w o w' _ H. apply bind_inv in H as [(a & w1 & E & H)|(o' & E)]; [|by eapply Hm].
  transitivity (data w1); [by eapply Hm|by eapply Hk].
Qed.

Lemma under_assoc P u {A B C} (m : M Server A) (f : A -> M Server B) (k : B -> M Server C) :
  under P u (x ← m; y ← f x; k y) -> under P u (y ← (x ← m; f x); k y).
Proof.
  intros H w o w' HP E. apply (H w o); [done|]. revert E. unfold mbind, M_bind.
  by destruct (m w) as [[a|e| |] w1].
Qed.

Lemma under_map_err P u {A} f (m : M Server A) : under P u m -> under P u (map_err f m).
Proof. intros Hm w o w' HP H. apply map_err_inv in H as (o' & H). by eapply Hm. Qed.

Lemma under_throw P u {A} e : under P u (throw e : M Server A).
Proof. apply under_same, preserves_throw. apply _. Qed.

Lemma under_execute_one P u {A} (f : Z -> Server -> option A * Server) :
  (forall now s, P (file_entries s) -> tidy s -> schema_ok (snd (f now s)) = true ->
     owned (snd (f now s)) /\ others_kept u s (snd (f now s))) ->
  under P u (execute_one schema_ok f).
Proof.
  intros Hf. apply under_statement. intros now s a s' HP E T. specialize (Hf now s HP T).
  destruct (f now s) as [[x|] s1]; [|done]. apply checked_Rows in E as [[= -> ->] S].
  by destruct (Hf S).
Qed.

Lemma under_execute_rec P u {A} (f : Z -> Server -> option (A * Server)) :
  (forall now s a s', P (file_entries s) -> tidy s -> f now s = Some (a, s') -> schema_ok s' = true ->
     owned s' /\ others_kept u s s') ->
  under P u (execute_rec schema_ok f).
Proof.
  intros Hf. apply under_statement. intros now s a s' HP E T. specialize (Hf now s).
  destruct (f now s) as [[x s1]|]; [|done]. apply checked_Rows in E as [[= -> ->] S].
  by destruct (Hf a s' HP T eq_refl S).
Qed.

(** A write: its result satisfies the constraints. *)
Lemma under_execute P u {A} (f : Z -> Server -> A * Server) :
  (forall now s, P (file_entries s) -> tidy s -> schema_ok (snd (f now s)) = true ->
     owned (snd (f now s)) /\ others_kept u s (snd (f now s))) ->
  under P u (execute schema_ok f).
Proof.
  intros Hf. apply under_statement. intros now s a s' HP E T.
  apply checked_Rows in E as [E S]. specialize (Hf now s HP T). rewrite E in Hf.
  destruct (Hf S) as [? ?]. done.
Qed.
End Under.

(** ** The writes *)

Lemma update_kept u p f s :
  (forall x, x ∈ file_entries s -> p x = true -> FileEntry.user_id x = u) ->
  (forall x, FileEntry.user_id (f x) = FileEntry.user_id x) ->
  others_kept u s (update_files p f s).
Proof.
  intros Hp Hf. split; [|split; by intros]. intros v N.
  cbn [update_files file_entries set_file_entries].
  apply select_update_disjoint. intros r Hr Pr.
  unfold owned_by. rewrite Hf, (Hp r Hr Pr). split; by apply Z.eqb_neq.
Qed.

Lemma update_owned_tree p f t : keeps_shape f -> owned_tree t -> owned_tree (update p f t).
Proof.
  intros K T x y Hx Hy E. apply elem_update in Hx as (x0 & Hx & ->), Hy as (y0 & Hy & ->).
  assert (E0 : FileEntry.parent_id x0 = Some (FileEntry.id y0)).
  { destruct (p x0), (p y0); rewrite ?(proj1 (K y0)), ?(proj1 (proj2 (K x0))) in E; done. }
  specialize (T _ _ Hx Hy E0).
  destruct (p x0), (p y0); rewrite ?(proj2 (proj2 (K x0))), ?(proj2 (proj2 (K y0))); done.
Qed.

(** Rows with the identifiers and owners of old rows, links among the old. *)
Lemma links_owned_rows s s' :
  (forall l, l ∈ share_links s' -> l ∈ share_links s) ->
  (forall f, f ∈ file_entries s' -> exists f0, f0 ∈ file_entries s
     /\ FileEntry.id f0 = FileEntry.id f /\ FileEntry.user_id f0 = FileEntry.user_id f) ->
  links_owned s -> links_owned s'.
Proof.
  intros HL HF L l f Hl Hf E. destruct (HF f Hf) as (f0 & H0 & E0 & <-).
  apply L; [by apply HL|done|congruence].
Qed.

Lemma update_owned p f s : keeps_shape f -> owned s -> owned (update_files p f s).
Proof.
  intros K [T L]. split; [by apply update_owned_tree|]. apply (links_owned_rows s); [done| |exact L].
  intros x Hx. apply elem_update in Hx as (x0 & Hx & ->). exists x0.
  destruct (K x0) as (Ki & _ & Ku). destruct (p x0); by rewrite ?Ki, ?Ku.
Qed.

(** The owner of the row found by identifier. *)
Lemma owner_of_id s u i d x :
  schema_ok s = true -> d ∈ file_entries s -> root_of u i d = true ->
  x ∈ file_entries s -> has_id i x = true -> x = d.
Proof.
  intros S Hd R Hx E. apply root_of_iff in R as [R _]. apply Z.eqb_eq in E.
  eapply unique_key_inj; [by apply key_file|done|done|lia].
Qed.

Lemma file_parent s f p :
  schema_ok s = true -> f ∈ file_entries s -> FileEntry.parent_id f = Some p ->
  exists d, d ∈ file_entries s /\ FileEntry.id d = p.
Proof.
  unfold schema_ok, rows_ok. rewrite !andb_true_iff. intros S Hf E. destruct_and!.
  match goal with H : forallb (file_entry_ok s) _ = true |- _ => rename H into F end.
  rewrite forallb_forall in F. apply list_elem_of_In, F in Hf. unfold file_entry_ok in Hf.
  rewrite E in Hf. apply andb_true_iff in Hf as [_ Hf]. by apply refers_iff in Hf.
Qed.

Lemma link_file s l :
  schema_ok s = true -> l ∈ share_links s ->
  exists d, d ∈ file_entries s /\ FileEntry.id d = ShareLink.file_entry_id l.
Proof.
  unfold schema_ok, rows_ok. rewrite !andb_true_iff. intros S Hl. destruct_and!.
  match goal with H : forallb (share_link_ok s) _ = true |- _ => rename H into F end.
  rewrite forallb_forall in F. apply list_elem_of_In, F in Hl. unfold share_link_ok in Hl.
  apply andb_true_iff in Hl as [_ Hl]. by apply refers_iff in Hl.
Qed.

(** INSERT of a row of the user under a folder of the user. *)
Lemma insert_kept u r s :
  FileEntry.user_id r = u -> parent_owned u (FileEntry.parent_id r) (file_entries s) ->
  tidy s -> schema_ok (insert_file r s) = true ->
  owned (insert_file r s) /\ others_kept u s (insert_file r s).
Proof.
  intros U P [S [T L]] S'.
  assert (Hr : r ∈ file_entries (insert_file r s)) by (apply elem_insert; by right).
  assert (Old : forall x, x ∈ file_entries s -> x ∈ file_entries (insert_file r s)).
  { intros x Hx. apply elem_insert. by left. }
  assert (Uq := fun x y => unique_key_inj _ _ x y (key_file _ S')).
  split; [split|].
  - intros f p Hf Hp E. apply elem_insert in Hf as [Hf| ->].
    + destruct (file_parent _ _ _ S Hf E) as (d & Hd & Ed).
      assert (d = p) as <- by (apply Uq; [by apply Old|done|done]). by apply T.
    + destruct (P _ E) as (d & Hd & R). apply root_of_iff in R as [R <-].
      assert (d = p) as <- by (apply Uq; [by apply Old|done|done]). done.
  - intros l f Hl Hf E. destruct (link_file _ _ S Hl) as (d & Hd & Ed).
    assert (d = f) as <- by (apply Uq; [by apply Old|done|congruence]). by apply L.
  - split; [|split; by intros]. intros v N. unfold insert_file. cbn [file_entries set_file_entries].
    rewrite select_insert. unfold owned_by at 2. rewrite U.
    assert ((u =? v) = false) as -> by (apply Z.eqb_neq; lia). apply app_nil_r.
Qed.

(** UPDATE of the parent of a row of the user to a folder of the user. *)
Lemma move_kept u i target now s d :
  d ∈ file_entries s -> root_of u i d = true -> parent_owned u target (file_entries s) ->
  tidy s ->
  let s' := update_files (has_id i)
    (fun f => FileEntry.set_updated_at now (FileEntry.set_parent_id target f)) s in
  owned s' /\ others_kept u s s'.
Proof.
  intros Hd R P [S [T L]] s'.
  assert (O : forall x, x ∈ file_entries s -> has_id i x = true -> x = d) by (intros; eapply owner_of_id; eauto).
  split; [|apply update_kept; [|done]; intros x Hx E; rewrite (O x Hx E); by apply root_of_iff in R as [_ ?]].
  split; [|apply (links_owned_rows s); [done| |exact L];
    intros x Hx; apply elem_update in Hx as (x0 & Hx & ->); exists x0; by destruct (has_id i x0)].
  intros f p Hf Hp E. apply elem_update in Hf as (f0 & Hf & ->), Hp as (p0 & Hp & ->).
  assert (Ip : forall x, FileEntry.user_id (if has_id i x then
     FileEntry.set_updated_at now (FileEntry.set_parent_id target x) else x) = FileEntry.user_id x
     /\ FileEntry.id (if has_id i x then
     FileEntry.set_updated_at now (FileEntry.set_parent_id target x) else x) = FileEntry.id x)
    by (intros x; by destruct (has_id i x)).
  rewrite (proj2 (Ip p0)) in E. rewrite (proj1 (Ip p0)), (proj1 (Ip f0)).
  destruct (has_id i f0) eqn:If; [|by apply T].
  rewrite (O f0 Hf If). destruct (P _ E) as (q & Hq & Rq).
  apply root_of_iff in Rq as [Rq <-], R as [_ ->].
  by rewrite (unique_key_inj _ _ _ _ (key_file _ S) Hp Hq (eq_sym Rq)).
Qed.

(** What is below a row of the user is the user's. *)
Lemma below_owner t d f : owned_tree t -> d ∈ t -> below t d f -> FileEntry.user_id f = FileEntry.user_id d.
Proof.
  intros T Hd B. induction B as [|d e f C B IH]; [done|]. destruct C as [He P].
  rewrite IH by done. symmetry. by eapply T.
Qed.

Lemma descendants_owner u i s ds :
  tidy s -> descendants u i (file_entries s) = Some ds ->
  forall x, x ∈ file_entries s -> id_in (map FileEntry.id ds) x = true -> FileEntry.user_id x = u.
Proof.
  intros [S [T L]] D x Hx I. apply (descendants_ids _ _ _ _ S D) in I as (d & Hd & R & B); [|done].
  rewrite (below_owner _ _ _ T Hd B). by apply root_of_iff in R as [_ ?].
Qed.

(** The cascade stays with the owner of what is deleted. *)
Definition owned_ids (u : Z) (t : list FileEntry.row) (dead : list Z) : Prop :=
  forall x, x ∈ t -> FileEntry.id x ∈ dead -> FileEntry.user_id x = u.

Lemma cascade_owner u s n dead :
  tidy s -> owned_ids u (file_entries s) dead -> owned_ids u (file_entries s) (cascade n (file_entries s) dead).
Proof.
  intros [S [T L]]. revert dead. induction n as [|n IH]; intros dead D; cbn [cascade]; [done|].
  apply IH. intros x Hx [H|H]%elem_of_app; [by apply D|].
  apply list_elem_of_fmap in H as (y & E & Hy). apply elem_select in Hy as [Hy Py].
  assert (y = x) as -> by (eapply unique_key_inj; [by apply key_file|done|done|done]).
  apply andb_true_iff in Py as [_ Py]. destruct (FileEntry.parent_id x) as [p|] eqn:Ep; [|done].
  destruct (file_parent _ _ _ S Hx Ep) as (d & Hd & Ed). subst p.
  rewrite <- (T x d Hx Hd Ep). apply D; [done|].
  apply existsb_exists in Py as (k & Hk & Ek). apply Z.eqb_eq in Ek. subst k. by apply list_elem_of_In.
Qed.

Lemma delete_kept u p s :
  (forall x, x ∈ file_entries s -> p x = true -> FileEntry.user_id x = u) -> tidy s ->
  owned (delete_files p s) /\ others_kept u s (delete_files p s).
Proof.
  intros Hp T. set (dead := cascade (length (file_entries s)) (file_entries s)
    (map FileEntry.id (select p (file_entries s)))).
  assert (D : owned_ids u (file_entries s) dead).
  { apply cascade_owner; [done|]. intros x Hx H. apply list_elem_of_fmap in H as (y & E & Hy).
    apply elem_select in Hy as [Hy Py]. destruct T as [S _].
    rewrite (unique_key_inj _ _ _ _ (key_file _ S) Hx Hy E). by apply Hp. }
  assert (G : forall i, foreign u s i -> existsb (Z.eqb i) dead = false).
  { intros i (f & Hf & E & N). apply not_true_is_false. rewrite existsb_exists. intros (k & Hk & Ek).
    apply Z.eqb_eq in Ek. subst. destruct N. apply D; [done|]. by apply list_elem_of_In. }
  split; [|split; [|split]].
  - destruct T as [_ [T L]]. split.
    + intros f q Hf Hq. apply elem_delete in Hf as [Hf _], Hq as [Hq _]. by apply T.
    + apply (links_owned_rows s); [| |exact L].
      * intros l Hl. by apply elem_delete in Hl as [? _].
      * intros f Hf. apply elem_delete in Hf as [Hf _]. eauto.
  - intros v N. apply select_delete_disjoint. intros r Hr I. apply id_in_iff in I.
    unfold owned_by. rewrite (D r Hr I). by apply Z.eqb_neq.
  - intros x Hx F. apply elem_delete. split; [done|]. by apply G.
  - intros x Hx F. apply elem_delete. split; [done|]. by apply G.
Qed.

(** ** The operations *)

Inductive op :=
| CreateFolder (req : CreateFolderRequest)
| ListRoot
| ListFolder (folder : Z)
| UploadFile (parent : option Z) (filename mime : rstr) (data : bytes)
| StoreChunk (upload index : Z) (data : bytes)
| CompleteUpload (req : ChunkedUploadRequest)
| GetMeta (item : Z)
| Download (item : Z)
| OpenDownload (item : Z)
| Rename (item : Z) (name : rstr)
| Move (item : Z) (target : option Z)
| Delete (item : Z)
| ListTrash
| RestoreItem (item : Z)
| PermanentDelete (item : Z)
| EmptyTrash
| Stats.

Section Operations.
Context {O : Oracle} {S2 : Sha256} {HX : Hex} {UT : UuidText} {MG : MimeGuess} {CO : Collation}.
Context (base : Fs.path).

Definition run_op (user_id : Z) (o : op) : M Server unit :=
  match o with
  | CreateFolder req => _ ← create_folder user_id req; mret tt
  | ListRoot => _ ← list_root user_id; mret tt
  | ListFolder f => _ ← list_folder user_id f; mret tt
  | UploadFile p n m d => _ ← upload_file base user_id p n m d; mret tt
  | StoreChunk u i d => store_chunk base user_id u i d
  | CompleteUpload req => _ ← complete_chunked_upload base user_id req; mret tt
  | GetMeta i => _ ← get_file_meta user_id i; mret tt
  | Download i => _ ← download_file base user_id i; mret tt
  | OpenDownload i => _ ← open_file_for_download base user_id i; mret tt
  | Rename i n => _ ← rename_item user_id i n; mret tt
  | Move i t => _ ← move_item user_id i t; mret tt
  | Delete i => delete_item user_id i
  | ListTrash => _ ← list_trash user_id; mret tt
  | RestoreItem i => _ ← restore_from_trash user_id i; mret tt
  | PermanentDelete i => permanent_delete base user_id i
  | EmptyTrash => _ ← empty_trash base user_id; mret tt
  | Stats => _ ← storage_stats user_id; mret tt
  end.

Lemma quota_tables u n : preserves tables_same (check_storage_quota u n).
Proof.
  unfold check_storage_quota. repeat first [ apply (Account.sum_query_keeps tables_same) | progress preserve ].
Qed.

Lemma climb_tables fuel u c : preserves tables_same (climb fuel u c).
Proof.
  revert c. induction fuel as [|k IH]; intros [c|]; cbn [climb]; repeat first [ apply IH | progress preserve ].
Qed.

Lemma downloadable_tables u i : preserves tables_same (downloadable u i).
Proof. unfold downloadable. repeat first [ apply verify_ownership_tables | progress preserve ]. Qed.

Lemma verify_parent_tables u p : preserves tables_same (verify_parent u p).
Proof. unfold verify_parent. repeat first [ apply verify_ownership_tables | progress preserve ]. Qed.

(** The readers. *)
Ltac reads :=
  repeat first
    [ apply verify_ownership_tables | apply verify_parent_tables | apply quota_tables | apply climb_tables
    | apply downloadable_tables | apply (Account.sum_query_keeps tables_same)
    | apply read_file_tables | apply open_file_tables | apply store_file_tables
    | apply store_chunk_tables | apply assemble_chunks_tables | apply delete_paths_tables
    | apply fs_read_tables | progress preserve ].

(** A program up to its one write. *)
Ltac tenant :=
  repeat first
    [ progress cbv beta zeta
    | match goal with |- under _ _ (match ?x with _ => _ end) => destruct x end
    | match goal with |- under _ _ (if ?x then _ else _) => destruct x end
    | match goal with
      | |- under _ _ (throw _) => apply under_throw
      | |- under _ _ (map_err _ _) => apply under_map_err
      | |- under _ _ (mbind _ (verify_parent _ _)) => apply under_parent
      | |- under _ _ (mbind _ (verify_ownership _ _)) => apply under_owned; intros ?
      | |- under _ _ (mbind _ _) =>
          first [ apply under_frame; [solve [reads]|intros ?]
                | apply under_last; [|intros ?; solve [reads]] ]
      end ].

Lemma insert_stored_under P u i parent n m h p z :
  (forall t, P t -> parent_owned u parent t) -> under P u (insert_stored i u parent n m h p z).
Proof.
  intros HP. unfold insert_stored. tenant. apply under_execute. intros now s Hs T S.
  apply insert_kept; auto.
Qed.

Lemma update_subtree_under P u i f :
  (forall now, keeps_shape (f now)) -> under P u (update_subtree u i f).
Proof.
  intros K. apply under_execute_rec. intros now s a s' Hs T E S.
  destruct (descendants _ _ _) as [ds|] eqn:D; [|done]. injection E as _ <-. split.
  - apply update_owned; [done|]. apply T.
  - apply update_kept; [by eapply descendants_owner|]. intros x. apply K.
Qed.

(** UPDATE of a row of the user found by its identifier. *)
Lemma update_row_under (P : list FileEntry.row -> Prop) u i g :
  (forall now, keeps_shape (g now)) -> (forall t, P t -> exists d, d ∈ t /\ root_of u i d = true) ->
  under P u (execute schema_ok (fun now s => (tt, update_files (has_id i) (g now) s))).
Proof.
  intros K HP. apply under_execute. intros now s Hs T S. destruct (HP _ Hs) as (d & Hd & R). split.
  - apply update_owned; [apply K|]. apply T.
  - apply update_kept; [|apply K]. intros y Hy E. destruct T as [T _].
    rewrite (owner_of_id s u i _ y T Hd R Hy E). by apply root_of_iff in R as [_ ?].
Qed.

Lemma rename_under u i n : under (fun _ => True) u (rename_item u i n).
Proof.
  unfold rename_item. tenant. apply under_execute_one. intros now s (_ & Hd & R) T S. split.
  - apply update_owned; [done|]. apply T.
  - apply update_kept; [|done]. intros x Hx E. destruct T as [T _].
    rewrite (owner_of_id s u i _ x T Hd R Hx E). by apply root_of_iff in R as [_ ?].
Qed.

Lemma move_under u i target : under (fun _ => True) u (move_item u i target).
Proof.
  unfold move_item. apply under_owned. intros d. destruct target as [t|].
  - apply under_assoc. tenant. apply under_execute_one. intros now s ((_ & Hd & R) & Ht & Rt) T S.
    apply (move_kept u i _ now s d); [done|done| |done]. intros p [= <-]. eauto.
  - tenant. apply under_execute_one. intros now s (_ & Hd & R) T S.
    apply (move_kept u i _ now s d); [done|done| |done]. by intros p.
Qed.

Lemma permanent_delete_under u i : under (fun _ => True) u (permanent_delete base u i).
Proof.
  unfold permanent_delete. tenant. apply under_execute_rec. intros now s x s' _ T E S.
  destruct (descendants _ _ _) as [ds|] eqn:D; [|done]. injection E as _ <-.
  apply delete_kept; [by eapply descendants_owner|done].
Qed.

Lemma empty_trash_under u : under (fun _ => True) u (empty_trash base u).
Proof.
  unfold empty_trash. tenant. apply under_execute. intros now s _ T S. apply delete_kept; [|done].
  intros x Hx E. unfold trashed_of, owned_by in E. by boolify.
Qed.

Lemma create_folder_under u req : under (fun _ => True) u (create_folder u req).
Proof.
  unfold create_folder. tenant. apply under_execute. intros now s [_ P] T S. by apply insert_kept.
Qed.

Lemma upload_under u p n m d : under (fun _ => True) u (upload_file base u p n m d).
Proof. unfold upload_file. tenant. apply insert_stored_under. by intros t [_ H]. Qed.

Lemma complete_under u req : under (fun _ => True) u (complete_chunked_upload base u req).
Proof. unfold complete_chunked_upload. tenant. apply insert_stored_under. by intros t [_ H]. Qed.

Lemma delete_item_under u i : under (fun _ => True) u (delete_item u i).
Proof. unfold delete_item. tenant. by apply update_subtree_under. Qed.

Lemma restore_under u i : under (fun _ => True) u (restore_from_trash u i).
Proof. unfold restore_from_trash. tenant. by apply update_subtree_under. Qed.

Lemma run_op_isolated u o : preserves (isolated u) (run_op u o).
Proof.
  assert (K : forall A (m : M Server A), under (fun _ => True) u m ->
    preserves (isolated u) (_ ← m; mret tt)).
  { intros A m H w r w' E. eapply (under_last _ u m (fun _ => mret tt)) in E; [exact E|done| |done].
    intros a. apply preserves_ret. apply _. }
  assert (L : forall (m : M Server unit), under (fun _ => True) u m -> preserves (isolated u) m).
  { intros m H w r w' E. by eapply H. }
  destruct o; cbn [run_op]; first [apply K | apply L];
    lazymatch goal with
    | |- under _ _ (create_folder _ _) => apply create_folder_under
    | |- under _ _ (upload_file _ _ _ _ _ _) => apply upload_under
    | |- under _ _ (complete_chunked_upload _ _ _) => apply complete_under
    | |- under _ _ (rename_item _ _ _) => apply rename_under
    | |- under _ _ (move_item _ _ _) => apply move_under
    | |- under _ _ (delete_item _ _) => apply delete_item_under
    | |- under _ _ (restore_from_trash _ _) => apply restore_under
    | |- under _ _ (permanent_delete _ _ _) => apply permanent_delete_under
    | |- under _ _ (empty_trash _ _) => apply empty_trash_under
    | |- _ => apply under_same; unfold list_root, list_folder, build_breadcrumb, store_chunk,
                get_file_meta, download_file, open_file_for_download, list_trash, storage_stats; reads
    end.
Qed.

(** ** Sequences of operations by several users *)

Inductive steps : list Z -> World Server -> World Server -> Prop :=
| steps_refl w : steps [] w w
| steps_next us u o out w1 w2 w3 :
    steps us w1 w2 -> run_op u o w2 = (out, w3) -> steps (u :: us) w1 w3.

Lemma file_table_inv us w w' : steps us w w' -> tidy (data w) -> tidy (data w').
Proof.
  induction 1 as [|us u o out w1 w2 w3 H IH E]; [done|]. intros T.
  by apply (run_op_isolated _ _ _ _ _ E), IH.
Qed.

(** the invariant of the file table.  The constraints of the schema and the
    rule that a parent belongs to the owner of its children survive any
    sequence of operations by any users, whatever fails on the way. *)
Theorem file_table_invariant us w w' :
  steps us w w' -> tidy (data w) -> tidy (data w').
Proof. apply file_table_inv. Qed.

(** tenant isolation.  After any sequence of operations by other users,
    whatever their arguments, whatever fails, a user's files are row by row
    what they were, and the versions and links of those files are still there. *)
Theorem tenant_isolation us w w' v :
  steps us w w' -> tidy (data w) -> v ∉ us ->
  select (owned_by v) (file_entries (data w')) = select (owned_by v) (file_entries (data w))
  /\ (forall f x, f ∈ file_entries (data w) -> FileEntry.user_id f = v ->
        x ∈ file_versions (data w) -> FileVersion.file_entry_id x = FileEntry.id f ->
        x ∈ file_versions (data w'))
  /\ (forall f x, f ∈ file_entries (data w) -> FileEntry.user_id f = v ->
        x ∈ share_links (data w) -> ShareLink.file_entry_id x = FileEntry.id f ->
        x ∈ share_links (data w')).
Proof.
  induction 1 as [|us u o out w1 w2 w3 H IH E]; intros T N; [by split_and!|].
  apply not_elem_of_cons in N as [Nu N]. destruct (IH T N) as (A & B & C).
  destruct (run_op_isolated _ _ _ _ _ E (file_table_inv _ _ _ H T)) as [_ (A' & B' & C')].
  assert (F : forall f, f ∈ file_entries (data w1) -> FileEntry.user_id f = v ->
    foreign u (data w2) (FileEntry.id f)).
  { intros f Hf Ef. exists f. split; [|split; [done|lia]].
    assert (X : f ∈ select (owned_by v) (file_entries (data w1))).
    { apply elem_select. split; [done|]. by apply Z.eqb_eq. }
    rewrite <- A in X. by apply elem_select in X as [? _]. }
  split; [by rewrite A' by lia|]. split; intros f x Hf Ef Hx Ex.
  - apply B'; [by eapply B|]. rewrite Ex. by apply F.
  - apply C'; [by eapply C|]. rewrite Ex. by apply F.
Qed.
End Operations.

(** ** Concrete runs *)

Definition demo_run (u : Z) (o : op) (w : World Server) :=
  run_op (O := toy_env []) (S2 := toy_sha256) (HX := plain_hex) (UT := plain_uuid) (MG := octet_stream)
    (CO := c_collation) Storage.demo_base u o w.

(** Bob's folders of Tree.v, and a file of Ada's. *)
Definition demo_shared : World Server :=
  demo_files [demo_docs; demo_sub; demo_note; demo_owned 1 20 None "mine" "file"].

Lemma demo_tidy : tidy (data demo_shared).
Proof.
  split; [vm_compute; reflexivity|]. split; [|by intros l f H%elem_of_nil]. intros f p Hf Hp E.
  apply list_elem_of_In in Hf, Hp. cbn in Hf, Hp.
  destruct Hf as [<-|[<-|[<-|[<-|[]]]]], Hp as [<-|[<-|[<-|[<-|[]]]]]; done.
Qed.

Lemma file_invariant_witness :
  tidy (data (snd (demo_run 2 (Delete 10) demo_shared))).
Proof.
  destruct (demo_run 2 (Delete 10) demo_shared) as [o w'] eqn:E. unfold demo_run in E.
  apply (file_table_invariant (O := toy_env []) (S2 := toy_sha256) (HX := plain_hex) (UT := plain_uuid)
    (MG := octet_stream) (CO := c_collation) Storage.demo_base [2] demo_shared w'); [|exact demo_tidy].
  eapply steps_next; [apply steps_refl|exact E].
Defined.

Lemma tenant_witness :
  select (owned_by 1) (file_entries (data (snd (demo_run 2 (Delete 10) demo_shared))))
  = [demo_owned 1 20 None "mine" "file"].
Proof.
  destruct (demo_run 2 (Delete 10) demo_shared) as [o w'] eqn:E. unfold demo_run in E.
  refine (proj1 (tenant_isolation (O := toy_env []) (S2 := toy_sha256) (HX := plain_hex) (UT := plain_uuid)
    (MG := octet_stream) (CO := c_collation) Storage.demo_base [2] demo_shared w' 1 _ demo_tidy _)).
  - eapply steps_next; [apply steps_refl|exact E].
  - intros H. apply list_elem_of_singleton in H. discriminate H.
Defined.
End Tenancy.
