(* ===== verification/Quota.v ===== *)
(** * Quota: the storage quota

    check_storage_quota of file_metadata/src/service.rs: what an accepted upload
    guarantees, and the ways around it. *)

From S2P Require Import Prelude Text Effects Externals Fs Schema Auth Account Storage Files Tree Tenancy.

Module Quota.
Import Files Tenancy.

(** The bytes of a user that count, and the user's limit. *)
Definition usage (user_id : Z) (s : Server) : Z := Account.sum_size (counted user_id) s.
Definition quota_of (user_id : Z) (s : Server) : Z :=
  default DEFAULT_QUOTA (option_map User.storage_quota_bytes
    (find_row (fun u => User.id u =? user_id) (users s))).

Lemma sum_size_insert p r s :
  Account.sum_size p (insert_file r s)
  = Account.sum_size p s + (if p r then FileEntry.size_bytes r else 0).
Proof.
  unfold Account.sum_size, insert_file. cbn [file_entries set_file_entries].
  rewrite select_insert, foldr_app.
  assert (G : forall l c, foldr (fun f acc => FileEntry.size_bytes f + acc) c l
    = foldr (fun f acc => FileEntry.size_bytes f + acc) 0 l + c).
  { induction l as [|x l IH]; intros c; simpl; [lia|]. rewrite IH. lia. }
  rewrite G. destruct (p r); simpl; lia.
Qed.

Lemma counted_own u r :
  FileEntry.user_id r = u -> FileEntry.is_trashed r = false -> counted u r = true.
Proof. unfold counted, owned_by. intros -> ->. by rewrite Z.eqb_refl. Qed.

Section Quota.
Context {O : Oracle} {S2 : Sha256} {HX : Hex} {UT : UuidText} {MG : MimeGuess} {CO : Collation}.
Context (base : Fs.path).

Lemma sum_query_run p a w b w' :
  reliable O -> int8 (Account.sum_size p (data w)) = true ->
  unwrap_or (Account.sum_query p) a w = (Ok b, w') ->
  b = Account.sum_size p (data w) /\ data w' = data w.
Proof.
  intros R I. unfold unwrap_or, Account.sum_query, statement. rewrite (proj1 (R _)), I.
  by intros [= <- <-].
Qed.

Lemma check_quota_Ok u n w w' :
  reliable O -> int8 (usage u (data w)) = true -> is_i64 (usage u (data w) + n) ->
  check_storage_quota u n w = (Ok tt, w') ->
  data w' = data w /\ usage u (data w) + n <= quota_of u (data w).
Proof.
  intros R I W H. unfold check_storage_quota in H. run_ok H.
  apply sum_query_run in Hm as [-> D]; [|done|done]. cbn [data] in *.
  boolify. unfold usage in *. rewrite wrap_i64_id in E by done. done.
Qed.

Lemma verify_parent_Ok u parent w a w' : verify_parent u parent w = (Ok a, w') -> data w' = data w.
Proof.
  unfold verify_parent. intros H. destruct parent; run_ok H; [|done].
  by apply Tree.verify_ownership_Ok in Hm as (_ & -> & _).
Qed.

Lemma store_file_result u f d w r w' :
  Storage.store_file base u f d w = (Ok r, w') ->
  r = (Storage.relative_path u f, Storage.digest d) /\ data w' = set_disk (disk (data w')) (data w).
Proof.
  intros H. split; [|exact (store_file_tables base u f d w _ w' H)].
  unfold Storage.store_file in H. by run_ok H.
Qed.

(** C25: an accepted upload keeps within the quota.  With the database answering
    and sums in range, the user's counted bytes grow by exactly the bytes
    uploaded, recorded in one new row with their digest, and do not exceed the
    quota. *)
Theorem upload_within_quota u parent n m d w r w' :
  reliable O -> int8 (usage u (data w)) = true ->
  is_i64 (usage u (data w) + Z.of_nat (length d)) ->
  upload_file base u parent n m d w = (Ok r, w') ->
  usage u (data w') = usage u (data w) + Z.of_nat (length d)
  /\ usage u (data w') <= quota_of u (data w')
  /\ exists row, file_entries (data w') = file_entries (data w) ++ [row]
       /\ r = response row /\ FileEntry.user_id row = u /\ FileEntry.parent_id row = parent
       /\ FileEntry.name row = n /\ FileEntry.sha256_hash row = Some (Storage.digest d)
       /\ FileEntry.size_bytes row = Z.of_nat (length d).
Proof.
  intros R I W H. unfold upload_file, insert_stored in H. run_ok H.
  apply verify_parent_Ok in Hm. rewrite <- Hm in *. destruct x0. apply check_quota_Ok in Hm0 as [D Q]; [|done..].
  apply store_file_result in Hm1 as [-> T]. cbn [data] in T. rewrite D in T.
  injection Hm2 as <- E. rewrite T in E. rewrite <- E. unfold usage in *.
  assert (K : forall k, Account.sum_size (counted u) (insert_file k (set_disk (disk (data w2)) (data w0)))
    = Account.sum_size (counted u) (data w0) + (if counted u k then FileEntry.size_bytes k else 0)).
  { intros k. rewrite sum_size_insert. reflexivity. }
  rewrite K, counted_own by done. cbn [FileEntry.size_bytes]. split; [done|]. split.
  - exact Q.
  - eexists. split; [reflexivity|]. by split_and!.
Qed.
End Quota.

(** ** Concrete runs *)

Definition small_user (quota : Z) : User.row :=
  {| User.id := 2; User.email := lit "bob@example.com"; User.display_name := lit "Bob";
     User.password_hash := []; User.is_active := true; User.created_at := 0; User.updated_at := 0;
     User.role := lit "user"; User.totp_secret := None; User.totp_enabled := false;
     User.totp_verified_at := None; User.storage_quota_bytes := quota |}.

(** Bob may store four bytes; three chunks of two bytes are uploaded. *)
Definition demo_start : World Server :=
  mkWorld (set_disk Storage.demo_disk (set_users [small_user 4] empty_server)) 0.

Definition demo_upload (faults : list nat) (n : string) (d : bytes) (w : World Server) :=
  upload_file (O := toy_env faults) (S2 := toy_sha256) (HX := plain_hex) (UT := plain_uuid)
    Storage.demo_base 2 None (lit n) (lit "text/plain") d w.

Definition demo_chunks : World Server :=
  let put i w := snd (store_chunk (O := toy_env []) (UT := plain_uuid) Storage.demo_base 2 5 i [1; 2] w) in
  put 2 (put 1 (put 0 demo_start)).

Definition demo_complete (declared : Z) :=
  complete_chunked_upload (O := toy_env []) (S2 := toy_sha256) (HX := plain_hex) (UT := plain_uuid)
    (MG := octet_stream) Storage.demo_base 2
    {| upload_id := 5; up_filename := lit "big"; up_parent_id := None; total_size := declared;
       total_chunks := 3 |} demo_chunks.

Definition accepted {A} (r : outcome A * World Server) (used : Z) : Prop :=
  (exists a, fst r = Ok a) /\ usage 2 (data (snd r)) = used.

(** two ways past the quota.  A user with a quota of four bytes is refused
    five; when the statement that sums the usage fails, it counts as zero and
    the second four are accepted; and a chunked upload is held to the size the
    client declares, so six bytes declared as none are accepted. *)
Theorem quota_gaps :
  (exists e, fst (demo_upload [] "a" [1; 2; 3; 4; 5] demo_start) = Err (Validation e))
  /\ (let w1 := snd (demo_upload [] "a" [1; 2; 3; 4] demo_start) in
      accepted (demo_upload [] "a" [1; 2; 3; 4] demo_start) 4
      /\ (exists e, fst (demo_upload [] "b" [1; 2; 3; 4] w1) = Err (Validation e))
      /\ accepted (demo_upload [S (pos w1)] "b" [1; 2; 3; 4] w1) 8)
  /\ accepted (demo_complete 0) 6
  /\ (exists e, fst (demo_complete 6) = Err (Validation e)).
Proof.
  split; [eexists; vm_compute; reflexivity|].
  split; [split; [|split]|split]; try (eexists; vm_compute; reflexivity);
    (split; [eexists; vm_compute; reflexivity|vm_compute; reflexivity]).
Qed.

Lemma upload_witness : exists r w', demo_upload [] "a" [1; 2; 3; 4] demo_start = (Ok r, w')
  /\ usage 2 (data w') = 4.
Proof.
  destruct (demo_upload [] "a" [1; 2; 3; 4] demo_start) as [[r|e| |] w'] eqn:E; [|not_ok E..].
  exists r, w'. split; [reflexivity|]. unfold demo_upload in E.
  refine (proj1 (upload_within_quota (O := toy_env []) (S2 := toy_sha256) (HX := plain_hex)
    (UT := plain_uuid) Storage.demo_base 2 None (lit "a") (lit "text/plain") [1; 2; 3; 4] demo_start
    r w' toy_env_reliable _ _ E)); [vm_compute; reflexivity|].
  split; [apply (bool_decide_unpack _)|apply Z.ltb_lt]; vm_compute; reflexivity || exact I.
Defined.
End Quota.
