(* ===== verification/Sharing.v ===== *)
(** * Sharing: links to files and folders

    backend/crates/sharing/src/service.rs, models.rs and handlers.rs: links with
    a password, an expiry and a download limit, and what an anonymous caller can
    do with the token of one. *)

From S2P Require Import Prelude Text Effects Externals Fs Schema Password Auth Account Storage Files Tree Tenancy Quota.

Module Sharing.
Import Files Tree Tenancy.

(** ** models.rs *)

Record CreateShareRequest := {
  share_file : Z; share_permission : rstr; share_password : option rstr;
  expires_in_hours : option Z; share_max : option Z }.

Record UpdateShareRequest := {
  new_permission : option rstr; new_password : option rstr; new_hours : option Z;
  new_max : option Z; new_active : option bool }.

Record ShareResponse := {
  resp_id : Z; resp_file : Z; resp_token : rstr; url : rstr; resp_permission : rstr;
  has_password : bool; resp_expires : option Z; resp_max : option Z; resp_count : Z;
  resp_active : bool; resp_created : Z }.

Record SharedFileInfo := {
  info_name : rstr; info_type : rstr; info_mime : option rstr; info_size : Z; info_permission : rstr }.

Definition to_response (base_url : rstr) (l : ShareLink.row) : ShareResponse :=
  {| resp_id := ShareLink.id l; resp_file := ShareLink.file_entry_id l;
     resp_token := ShareLink.token l;
     url := base_url ++ lit "/shared/" ++ ShareLink.token l;
     resp_permission := ShareLink.permission l;
     has_password := bool_decide (is_Some (ShareLink.password_hash l));
     resp_expires := ShareLink.expires_at l; resp_max := ShareLink.max_downloads l;
     resp_count := ShareLink.download_count l; resp_active := ShareLink.is_active l;
     resp_created := ShareLink.created_at l |}.

(** One field of a multipart body; [bytes] is its content, or the error of
    reading it. *)
Record Field := {
  field_name : option rstr; file_name : option rstr; field_type : option rstr; content : rstr + bytes }.

(** The answer to a download: the headers that carry data, and the body. *)
Record Download := { content_type : rstr; disposition : rstr; content_length : Z; body : bytes }.

Definition link_id (i : Z) (l : ShareLink.row) : bool := ShareLink.id l =? i.
Definition link_of (u : Z) (l : ShareLink.row) : bool := ShareLink.user_id l =? u.
Definition has_token (t : rstr) (l : ShareLink.row) : bool := bool_decide (ShareLink.token l = t).

(** ORDER BY created_at DESC *)
Definition newest_link (a b : ShareLink.row) : bool := ShareLink.created_at b <=? ShareLink.created_at a.

Section Sharing.
Context {O : Oracle} {CH : Chrono} {S2 : Sha256} {HX : Hex} {AR : Argon2} {UT : UuidText}.
Context (base : Fs.path).

(** ** service.rs *)

(** 32 random alphanumeric characters. *)
Definition generate_token : M Server rstr := random_token.

Definition hash_optional (p : option rstr) (otherwise : option rstr) : M Server (option rstr) :=
  match p with
  | Some p => h ← Auth.hash_or_internal "" p; mret (Some h)
  | None => mret otherwise
  end.

(** [chrono::Utc::now() + chrono::Duration::hours(h)] *)
Definition expiry (hours : option Z) (otherwise : option Z) : M Server (option Z) :=
  match hours with
  | Some h => now ← utc_now; t ← or_panic (add_hours now h); mret (Some t)
  | None => mret otherwise
  end.

Definition create_share (user_id : Z) (req : CreateShareRequest) : M Server ShareLink.row :=
  row ← query (fun s =>
    find_row (fun f => has_id (share_file req) f && owned_by user_id f) (file_entries s));
  _ ← ok_or row (NotFound (lit "File not found"));
  token ← generate_token;
  pwd_hash ← hash_optional (share_password req) None;
  expires_at ← expiry (expires_in_hours req) None;
  new_id ← new_v4;
  execute schema_ok (fun now s =>
    let l := {| ShareLink.id := new_id; ShareLink.user_id := user_id;
                ShareLink.file_entry_id := share_file req; ShareLink.token := token;
                ShareLink.permission := share_permission req; ShareLink.password_hash := pwd_hash;
                ShareLink.expires_at := expires_at; ShareLink.max_downloads := share_max req;
                ShareLink.download_count := 0; ShareLink.is_active := true;
                ShareLink.created_at := now; ShareLink.updated_at := now |} in
    (l, set_share_links (insert_row l (share_links s)) s)).

Definition list_shares (user_id : Z) : M Server (list ShareLink.row) :=
  query (fun s => sort_by newest_link (select (link_of user_id) (share_links s))).

Definition get_share (user_id share_id : Z) : M Server ShareLink.row :=
  row ← query (fun s => find_row (fun l => link_id share_id l && link_of user_id l) (share_links s));
  ok_or row (NotFound (lit "Share not found")).

(** The columns an update writes. *)
Definition rewrite_link (permission : rstr) (pwd : option rstr) (expires max : option Z) (active : bool)
  (now : Z) (l : ShareLink.row) : ShareLink.row :=
  ShareLink.set_updated_at now (ShareLink.set_is_active active (ShareLink.set_max_downloads max
    (ShareLink.set_expires_at expires (ShareLink.set_password_hash pwd
      (ShareLink.set_permission permission l))))).

Definition update_links (p : ShareLink.row -> bool) (f : ShareLink.row -> ShareLink.row) (s : Server) : Server :=
  set_share_links (update p f (share_links s)) s.

Definition update_share (user_id share_id : Z) (req : UpdateShareRequest) : M Server ShareLink.row :=
  share ← get_share user_id share_id;
  let permission := default (ShareLink.permission share) (new_permission req) in
  let active := default (ShareLink.is_active share) (new_active req) in
  let max := match new_max req with Some m => Some m | None => ShareLink.max_downloads share end in
  pwd_hash ← hash_optional (new_password req) (ShareLink.password_hash share);
  expires ← expiry (new_hours req) (ShareLink.expires_at share);
  execute_one schema_ok (fun now s =>
    let f := rewrite_link permission pwd_hash expires max active now in
    (option_map f (find_row (link_id share_id) (share_links s)), update_links (link_id share_id) f s)).

Definition delete_share (user_id share_id : Z) : M Server unit :=
  n ← execute schema_ok (fun _ s =>
    let p l := link_id share_id l && link_of user_id l in
    (count_rows p (share_links s), set_share_links (delete_rows p (share_links s)) s));
  if n =? 0 then throw (NotFound (lit "Share not found")) else mret tt.

(** The checks on a link that is used. *)
Definition check_expiry (message : string) (share : ShareLink.row) : M Server unit :=
  match ShareLink.expires_at share with
  | Some exp => now ← utc_now; if exp <? now then throw (Forbidden (lit message)) else mret tt
  | None => mret tt
  end.

Definition check_limit (message : string) (share : ShareLink.row) : M Server unit :=
  match ShareLink.max_downloads share with
  | Some max =>
      if max <=? ShareLink.download_count share then throw (Forbidden (lit message)) else mret tt
  | None => mret tt
  end.

Definition check_password (missing invalid : string) (password : option rstr) (share : ShareLink.row)
  : M Server unit :=
  match ShareLink.password_hash share with
  | Some pwd_hash =>
      pwd ← ok_or password (Unauthorized (lit missing));
      valid ← Auth.verify_or_internal "" pwd pwd_hash;
      if valid : bool then mret tt else throw (Unauthorized (lit invalid))
  | None => mret tt
  end.

Definition active_link (p : ShareLink.row -> bool) (token : rstr) (message : string) : M Server ShareLink.row :=
  row ← query (fun s =>
    find_row (fun l => has_token token l && ShareLink.is_active l && p l) (share_links s));
  ok_or row (NotFound (lit message)).

Definition permits (l : list string) (share : ShareLink.row) : bool := one_of l (ShareLink.permission share).

Definition access_shared (token : rstr) (password : option rstr) : M Server SharedFileInfo :=
  share ← active_link (fun _ => true) token "Share link not found or expired";
  _ ← check_expiry "Share link has expired" share;
  _ ← check_limit "Download limit reached" share;
  _ ← check_password "Password required" "Invalid password" password share;
  file ← fetch_one (fun s => find_row (has_id (ShareLink.file_entry_id share)) (file_entries s));
  mret {| info_name := FileEntry.name file; info_type := FileEntry.entry_type file;
          info_mime := FileEntry.mime_type file; info_size := FileEntry.size_bytes file;
          info_permission := ShareLink.permission share |}.

(** SET download_count = download_count + 1 *)
Definition count_download (share_id : Z) : M Server unit :=
  execute schema_ok (fun _ s =>
    (tt, update_links (link_id share_id)
           (fun l => ShareLink.set_download_count (ShareLink.download_count l + 1) l) s)).

(** service::download_shared, which no route reaches: it counts before it looks
    at the file, and asks for no password. *)
Definition service_download (token : rstr) : M Server (rstr * bytes) :=
  share ← active_link (permits ["download"]%string) token "Share not found or no download permission";
  _ ← check_expiry "Expired" share;
  _ ← check_limit "Limit reached" share;
  _ ← count_download (ShareLink.id share);
  file ← fetch_one (fun s => find_row (has_id (ShareLink.file_entry_id share)) (file_entries s));
  _ ← ok_or (FileEntry.storage_path file) (Internal (lit "No storage path"));
  mret (FileEntry.name file, []).

(** ** handlers.rs *)

(** The checks of a download and the read of the file: everything up to the
    statement that counts it. *)
Definition download_checked (token : rstr) (query_pass header_pass : option rstr)
  : M Server (ShareLink.row * FileEntry.row * bytes) :=
  share ← active_link (permits ["download"]%string) token "Share not found or no download permission";
  _ ← check_expiry "Share link expired" share;
  _ ← check_limit "Download limit reached" share;
  _ ← check_password "Password required to download this shared file" "Invalid share password"
        (match query_pass with Some p => Some p | None => header_pass end) share;
  file ← fetch_one (fun s => find_row (has_id (ShareLink.file_entry_id share)) (file_entries s));
  path ← ok_or (FileEntry.storage_path file) (Internal (lit "File has no storage path"));
  data ← map_err (to_internal "Failed to read file: ") (Storage.read_file base path);
  mret (share, file, data).

Definition download_counted (r : ShareLink.row * FileEntry.row * bytes) : M Server Download :=
  let '(share, file, data) := r in
  _ ← count_download (ShareLink.id share);
  mret {| content_type := default (lit "application/octet-stream") (FileEntry.mime_type file);
          disposition := lit "attachment; filename=" ++ [34] ++ FileEntry.name file ++ [34];
          content_length := Z.of_nat (length data); body := data |}.

Definition download_shared (token : rstr) (query_pass header_pass : option rstr) : M Server Download :=
  r ← download_checked token query_pass header_pass; download_counted r.

(** The loop over the fields: the first field named "file" is uploaded, the
    rest is not read. *)
Fixpoint upload_fields (owner : Z) (folder : option Z) (fields : list (rstr + Field))
  : M Server (option FileEntryResponse) :=
  match fields with
  | [] => mret None
  | inl e :: _ => throw (Validation e)
  | inr f :: rest =>
      if bool_decide (default [] (field_name f) = lit "file") then
        data ← match content f with
               | inl e => throw (Internal (lit "Failed to read upload data: " ++ e))
               | inr b => mret b
               end;
        r ← upload_file base owner folder (default (lit "unnamed_upload") (file_name f))
              (default (lit "application/octet-stream") (field_type f)) data;
        mret (Some r)
      else upload_fields owner folder rest
  end.

Definition upload_shared (token : rstr) (fields : list (rstr + Field)) : M Server FileEntryResponse :=
  share ← active_link (permits ["upload"; "view_upload"]%string) token
            "Share link not found or does not permit uploads";
  _ ← check_expiry "Share link expired" share;
  row ← query (fun s => find_row (has_id (ShareLink.file_entry_id share)) (file_entries s));
  target ← ok_or row (NotFound (lit "Shared destination folder not found"));
  let destination := if is_folder target then Some (FileEntry.id target) else FileEntry.parent_id target in
  uploaded ← upload_fields (ShareLink.user_id share) destination fields;
  ok_or uploaded (Validation (lit "No file provided in upload")).

(** ** What a download did *)

Lemma active_link_Ok p token m w l w' :
  active_link p token m w = (Ok l, w') ->
  data w' = data w /\ l ∈ share_links (data w) /\ ShareLink.token l = token
  /\ ShareLink.is_active l = true /\ p l = true.
Proof.
  unfold active_link. intros H. run_ok H. apply find_row_Some in H as [Hl E].
  unfold has_token in E. boolify. done.
Qed.

Lemma check_expiry_Ok m share w a w' :
  check_expiry m share w = (Ok a, w') ->
  data w' = data w /\ forall exp, ShareLink.expires_at share = Some exp -> clock_at (pos w) <= exp.
Proof.
  unfold check_expiry. destruct (ShareLink.expires_at share) as [exp|]; intros H; run_ok H; [|done].
  boolify. split; [done|]. intros e [= <-]. lia.
Qed.

Lemma check_limit_Ok m share w a w' :
  check_limit m share w = (Ok a, w') ->
  data w' = data w
  /\ forall max, ShareLink.max_downloads share = Some max -> ShareLink.download_count share < max.
Proof.
  unfold check_limit. destruct (ShareLink.max_downloads share) as [max|]; intros H; run_ok H; [|done].
  boolify. split; [done|]. intros e [= <-]. lia.
Qed.

Lemma check_password_Ok m1 m2 password share w a w' :
  check_password m1 m2 password share w = (Ok a, w') ->
  data w' = data w
  /\ forall h, ShareLink.password_hash share = Some h ->
       exists p, password = Some p /\ Password.verify_password p h = inr true.
Proof.
  unfold check_password, Auth.verify_or_internal.
  destruct (ShareLink.password_hash share) as [h|]; intros H; [|run_ok H; done].
  run_ok H. split; [done|]. intros h' [= <-]. eauto.
Qed.

Lemma read_file_data p w b w' : Storage.read_file base p w = (Ok b, w') -> data w' = data w.
Proof.
  intros H. unfold Storage.read_file in H. run_ok H. apply Storage.resolve_path_Ok in Hm as (_ & E).
  apply Storage.fs_read_Ok in H as (_ & ->). done.
Qed.

(** What a download requires of its link; [since] is when the request came. *)
Definition open_link (token : rstr) (password : option rstr) (since : Z) (l : ShareLink.row) : Prop :=
  ShareLink.token l = token /\ ShareLink.is_active l = true /\ ShareLink.permission l = lit "download"
  /\ (forall exp, ShareLink.expires_at l = Some exp -> since <= exp)
  /\ (forall max, ShareLink.max_downloads l = Some max -> ShareLink.download_count l < max)
  /\ (forall h, ShareLink.password_hash l = Some h ->
        exists p, password = Some p /\ Password.verify_password p h = inr true).

(** The path of a file under the root holds [b]. *)
Definition stored (s : Server) (f : FileEntry.row) (b : bytes) : Prop :=
  exists path full, FileEntry.storage_path f = Some path
    /\ Storage.safe_resolve base (disk s) path = inr full /\ Fs.read (disk s) full = Some b.

Lemma download_checked_Ok token q h w l f b w' :
  download_checked token q h w = (Ok (l, f, b), w') ->
  data w' = data w /\ l ∈ share_links (data w)
  /\ open_link token (match q with Some p => Some p | None => h end) (clock_at (S (pos w))) l
  /\ f ∈ file_entries (data w) /\ FileEntry.id f = ShareLink.file_entry_id l /\ stored (data w) f b.
Proof.
  unfold download_checked. intros H. apply bind_Ok in H as (share & w1 & H1 & H).
  assert (P1 : pos w1 = S (pos w)).
  { unfold active_link in H1. by run_ok H1. }
  apply active_link_Ok in H1 as (D1 & Hl & T & A & P). run_ok H.
  apply check_expiry_Ok in Hm as (D2 & X). apply check_limit_Ok in Hm0 as (D3 & L).
  apply check_password_Ok in Hm1 as (D4 & W). injection H as -> -> ->.
  unfold Storage.read_file in Hm4. run_ok Hm4. apply Storage.resolve_path_Ok in Hm as (R & D5).
  apply Storage.fs_read_Ok in Hm4 as (B & D6). cbn [data] in D5, D6, R.
  rewrite D4, D3, D2, D1 in *. rewrite D5 in *. apply find_row_Some in Hm2 as [Hf E].
  rewrite D6. split; [done|]. split; [done|].
  split; [|split; [done|split; [by apply Z.eqb_eq|by eexists _, _]]].
  rewrite <- P1. unfold permits, one_of in P. simpl in P. rewrite orb_false_r in P. boolify. done.
Qed.

Lemma count_download_run i w o w' :
  count_download i w = (o, w') ->
  (data w' = data w /\ forall a, o <> Ok a)
  \/ (o = Ok tt /\ schema_ok (data w') = true
      /\ data w' = update_links (link_id i)
           (fun l => ShareLink.set_download_count (ShareLink.download_count l + 1) l) (data w)).
Proof.
  unfold count_download, execute, statement, checked.
  destruct (db_fault _); [intros [= <- <-]; by left|].
  cbn [fst snd]. destruct (schema_ok _) eqn:E; intros [= <- <-]; [by right|by left].
Qed.

Lemma download_checked_keeps token q h : preserves eq (download_checked token q h).
Proof.
  unfold download_checked, active_link, check_expiry, check_limit, check_password, Auth.verify_or_internal,
    Storage.read_file, Storage.resolve_path, Storage.fs_read.
  preserve; apply preserves_io; try apply _; intros ? ? ? HH;
    repeat case_match; simplify_eq; reflexivity.
Qed.

(** A download in full, whatever its outcome. *)
Lemma download_run token q h w o w' :
  download_shared token q h w = (o, w') ->
  (data w' = data w /\ forall d, o <> Ok d)
  \/ exists l f d, o = Ok d /\ l ∈ share_links (data w)
      /\ open_link token (match q with Some p => Some p | None => h end) (clock_at (S (pos w))) l
      /\ f ∈ file_entries (data w) /\ FileEntry.id f = ShareLink.file_entry_id l
      /\ stored (data w) f (body d) /\ content_length d = Z.of_nat (length (body d))
      /\ schema_ok (data w') = true
      /\ data w' = update_links (link_id (ShareLink.id l))
           (fun l => ShareLink.set_download_count (ShareLink.download_count l + 1) l) (data w).
Proof.
  unfold download_shared. intros H. unfold mbind, M_bind in H.
  destruct (download_checked token q h w) as [[[[l f] b]|e| |] w1] eqn:E;
    try (apply download_checked_keeps in E; simplify_eq; left; split; [done|by intros d]).
  apply download_checked_Ok in E as (D & Hl & P & Hf & Ef & B). unfold download_counted in H.
  unfold mbind, M_bind in H.
  destruct (count_download (ShareLink.id l) w1) as [o2 w2] eqn:C.
  apply count_download_run in C as [(D2 & N)|(-> & S' & D2)].
  - destruct o2 as [[]| | |]; [by destruct (N tt)|..]; simplify_eq; left; split; congruence.
  - injection H as <- <-. right. rewrite D in D2. eexists l, f, _. by split_and!.
Qed.

(** C20: a download link is honoured exactly as far as it goes: an answer means a
    link with that token, active, for downloads, not expired, below its limit,
    whose password, when it has one, was supplied in the query or the header;
    the body is the content of its file, read below the storage root, and the
    one thing that changes is the link's count, by one. *)
Theorem download_shared_sound token q h w d w' :
  download_shared token q h w = (Ok d, w') ->
  exists l f, l ∈ share_links (data w)
    /\ open_link token (match q with Some p => Some p | None => h end) (clock_at (S (pos w))) l
    /\ f ∈ file_entries (data w) /\ FileEntry.id f = ShareLink.file_entry_id l
    /\ stored (data w) f (body d) /\ content_length d = Z.of_nat (length (body d))
    /\ data w' = update_links (link_id (ShareLink.id l))
         (fun l => ShareLink.set_download_count (ShareLink.download_count l + 1) l) (data w).
Proof.
  intros H. apply download_run in H as [[_ N]|(l & f & d' & [= <-] & ? & ? & ? & ? & ? & ? & _ & ?)].
  - by destruct (N d).
  - exists l, f. by split_and!.
Qed.

(** ** The download limit *)

(** [served i n w w']: from [w] to [w'] a sequence of downloads, of which [n]
    of the link [i] were answered. *)
Inductive served (i : Z) : nat -> World Server -> World Server -> Prop :=
| served_none w : served i 0 w w
| served_link n w w1 token q h d w2 l :
    served i n w w1 -> download_shared token q h w1 = (Ok d, w2) ->
    l ∈ share_links (data w1) -> ShareLink.token l = token -> ShareLink.id l = i ->
    served i (S n) w w2
| served_other n w w1 token q h o w2 :
    served i n w w1 -> download_shared token q h w1 = (o, w2) ->
    (forall d l, o = Ok d -> l ∈ share_links (data w1) -> ShareLink.token l = token -> ShareLink.id l <> i) ->
    served i n w w2.

(** C21: the download limit holds for downloads one after the other: a link with
    a limit of [m] and [c] downloads counted answers at most [m - c] more,
    whatever fails and whichever other links are used meanwhile, and counts each
    of them. *)
Theorem download_limit i n w w' l m :
  schema_ok (data w) = true -> l ∈ share_links (data w) -> ShareLink.id l = i ->
  ShareLink.max_downloads l = Some m -> served i n w w' ->
  Z.of_nat n <= Z.max 0 (m - ShareLink.download_count l)
  /\ exists l', l' ∈ share_links (data w') /\ ShareLink.id l' = i
      /\ ShareLink.download_count l' = ShareLink.download_count l + Z.of_nat n.
Proof.
  intros S Hl Ei Em H.
  assert (G : schema_ok (data w') = true /\ Z.of_nat n <= Z.max 0 (m - ShareLink.download_count l)
    /\ exists l', l' ∈ share_links (data w') /\ ShareLink.id l' = i /\ ShareLink.max_downloads l' = Some m
        /\ ShareLink.download_count l' = ShareLink.download_count l + Z.of_nat n);
    [|naive_solver].
  induction H as [w|n w w1 token q h d w2 k H IH D Hk Tk Ek|n w w1 token q h o w2 H IH D N].
  - split; [done|]. split; [lia|]. exists l. split_and!; [done..|lia].
  - destruct (IH S Hl) as (S1 & B & l' & Hl' & Ei' & Em' & C).
    destruct (download_run _ _ _ _ _ _ D) as [[_ X]|(l2 & f & d' & _ & H2 & P & _ & _ & _ & _ & S2' & E)];
      [by destruct (X d)|].
    destruct P as (T2 & _ & _ & _ & L & _). destruct (key_share _ S1) as [Ui Ut].
    assert (l2 = k) as -> by (eapply (unique_key_inj ShareLink.token); [exact Ut|done|done|congruence]).
    assert (l' = k) as -> by (eapply (unique_key_inj ShareLink.id); [exact Ui|done|done|congruence]).
    specialize (L m Em'). split; [done|]. split; [lia|].
    exists (ShareLink.set_download_count (ShareLink.download_count k + 1) k).
    split; [|split; [done|split; [done|simpl; lia]]].
    rewrite E. apply elem_update. exists k. split; [done|]. unfold link_id. by rewrite Z.eqb_refl.
  - destruct (IH S Hl) as (S1 & B & l' & Hl' & Ei' & Em' & C).
    destruct (download_run _ _ _ _ _ _ D) as [[-> _]|(l2 & f & d' & Eo & H2 & P & _ & _ & _ & _ & S2' & E)];
      [by split_and!; eauto|].
    split; [done|]. split; [done|]. exists l'. split; [|done]. rewrite E. apply elem_update. exists l'.
    split; [done|]. destruct P as (T2 & _). unfold link_id.
    destruct (Z.eqb_spec (ShareLink.id l') (ShareLink.id l2)) as [Q|]; [|done].
    destruct (N d' l2 Eo H2 T2). congruence.
Qed.

(** ** Who a link operation can affect *)

Lemma active_link_keeps p t m : preserves tables_same (active_link p t m).
Proof. unfold active_link. preserve. Qed.

Lemma check_expiry_keeps m l : preserves tables_same (check_expiry m l).
Proof. unfold check_expiry. preserve. Qed.

Lemma get_share_keeps u i : preserves tables_same (get_share u i).
Proof. unfold get_share. preserve. Qed.

Lemma hash_optional_keeps p o : preserves tables_same (hash_optional p o).
Proof. unfold hash_optional, Auth.hash_or_internal. preserve. Qed.

Lemma expiry_keeps p o : preserves tables_same (expiry p o).
Proof. unfold expiry. preserve. Qed.

(** UPDATE of links of the user. *)
Lemma update_links_isolated u p f s :
  (schema_ok s = true -> forall l, l ∈ share_links s -> p l = true -> ShareLink.user_id l = u) ->
  (forall l, ShareLink.user_id (f l) = ShareLink.user_id l
             /\ ShareLink.file_entry_id (f l) = ShareLink.file_entry_id l) ->
  schema_ok (update_links p f s) = true -> isolated u s (update_links p f s).
Proof.
  intros Hp Hf S' [S [T L]]. split; [split; [done|split; [done|]]|split; [done|split; [done|]]].
  - intros x g Hx Hg E. apply elem_update in Hx as (l & Hl & ->). destruct (Hf l) as [Fu Ff].
    destruct (p l); rewrite ?Ff, ?Fu in *; by apply L.
  - intros x Hx (g & Hg & E & N). apply elem_update. exists x. split; [done|].
    destruct (p x) eqn:P; [|done]. destruct N. rewrite (L x g Hx Hg E). by apply (Hp S).
Qed.

(** INSERT of a link of the user on a file of the user. *)
Lemma insert_link_isolated u l d s :
  ShareLink.user_id l = u -> d ∈ file_entries s -> root_of u (ShareLink.file_entry_id l) d = true ->
  schema_ok (set_share_links (insert_row l (share_links s)) s) = true ->
  isolated u s (set_share_links (insert_row l (share_links s)) s).
Proof.
  intros U Hd R S' [S [T L]]. apply root_of_iff in R as [Ri Ru].
  split; [split; [done|split; [done|]]|split; [done|split; [done|]]].
  - intros x g Hx Hg E. apply elem_insert in Hx as [Hx| ->]; [by apply L|].
    rewrite (unique_key_inj _ _ _ _ (key_file _ S) Hg Hd); [congruence|congruence].
  - intros x Hx _. apply elem_insert. by left.
Qed.

Lemma delete_links_isolated u p s :
  (forall l, l ∈ share_links s -> p l = true -> ShareLink.user_id l = u) ->
  schema_ok (set_share_links (delete_rows p (share_links s)) s) = true ->
  isolated u s (set_share_links (delete_rows p (share_links s)) s).
Proof.
  intros Hp S' [S [T L]]. split; [split; [done|split; [done|]]|split; [done|split; [done|]]].
  - intros x g Hx Hg E. apply elem_delete in Hx as [Hx _]. by apply L.
  - intros x Hx (g & Hg & E & N). apply elem_delete. split; [done|].
    destruct (p x) eqn:P; [|done]. destruct N. rewrite (L x g Hx Hg E). by apply Hp.
Qed.

Lemma create_share_isolated u req : preserves (isolated u) (create_share u req).
Proof.
  assert (under (fun _ => True) u (create_share u req)); [|by intros w o w'; eauto].
  unfold create_share. apply under_find. intros d.
  apply under_frame; [apply preserves_interact; apply _|intros token].
  apply under_frame; [apply hash_optional_keeps|intros h].
  apply under_frame; [apply expiry_keeps|intros e].
  apply under_frame; [apply preserves_interact; apply _|intros i].
  apply under_statement. intros now s a s' (_ & Hd & R) E. apply checked_Rows in E as [E S].
  injection E as _ <-. by eapply insert_link_isolated.
Qed.

Lemma update_share_isolated u i req : preserves (isolated u) (update_share u i req).
Proof.
  intros w o w' H. unfold update_share in H. cbv zeta in H.
  apply bind_inv in H as [(l & w1 & E & H)|(o' & E)];
    [|by apply tables_same_isolated, (get_share_keeps u i w o')].
  unfold get_share in E. run_ok E. apply find_row_Some in E as [Hl P]. boolify.
  apply bind_inv in H as [(h & w2 & E & H)|(o' & E)]; apply hash_optional_keeps in E; cbn [data] in E;
    [|by apply tables_same_isolated].
  transitivity (data w2); [by apply tables_same_isolated|].
  apply bind_inv in H as [(x & w3 & E2 & H)|(o' & E2)]; apply expiry_keeps in E2;
    [|by apply tables_same_isolated].
  transitivity (data w3); [by apply tables_same_isolated|].
  apply execute_one_inv in H as [-> |(r & _ & H & S')]; [reflexivity|].
  injection H as _ H. rewrite <- H in *. apply update_links_isolated; [|done|done].
  intros S k Hk P. assert (HL : l ∈ share_links (data w3)) by (rewrite E2, E; exact Hl).
  apply Z.eqb_eq in P, H1, H2. destruct (key_share _ S) as [U _].
  by rewrite (unique_key_inj _ _ _ _ U Hk HL ltac:(congruence)).
Qed.

Lemma delete_share_isolated u i : preserves (isolated u) (delete_share u i).
Proof.
  assert (under (fun _ => True) u (delete_share u i)); [|by intros w o w'; eauto].
  unfold delete_share. apply under_last; [|intros n; preserve].
  apply under_statement. intros now s a s' _ E. apply checked_Rows in E as [E S]. injection E as _ <-.
  apply delete_links_isolated; [|done]. intros l Hl E. boolify. by apply Z.eqb_eq.
Qed.

(** An anonymous call acts for the owner of the link it names, or not at all. *)
Definition acts_by (token : rstr) (s s' : Server) : Prop :=
  tables_same s s'
  \/ exists l, l ∈ share_links s /\ ShareLink.token l = token /\ isolated (ShareLink.user_id l) s s'.

Lemma link_then token p m {A} (k : ShareLink.row -> M Server A) w o w' :
  (forall l, under (fun _ => True) (ShareLink.user_id l) (k l)) ->
  (l ← active_link p token m; k l) w = (o, w') -> acts_by token (data w) (data w').
Proof.
  intros Hk H. apply bind_inv in H as [(l & w1 & E & H)|(o' & E)].
  - apply active_link_Ok in E as (D & Hl & T & _). right. exists l. split; [done|]. split; [done|].
    rewrite <- D. by eapply Hk.
  - left. by apply active_link_keeps in E.
Qed.

Lemma upload_fields_under u folder fields : under (fun _ => True) u (upload_fields u folder fields).
Proof.
  induction fields as [|[e|f] rest IH]; cbn [upload_fields].
  - apply under_same, preserves_ret. apply _.
  - apply under_throw.
  - destruct (bool_decide _); [|done].
    apply under_frame; [destruct (content f); preserve|]. intros d.
    apply under_last; [|intros r; preserve]. apply upload_under.
Qed.

(** The count of a link concerns its owner. *)
Lemma download_acts token q h w o w' :
  schema_ok (data w) = true -> download_shared token q h w = (o, w') -> acts_by token (data w) (data w').
Proof.
  intros S H. destruct (download_run _ _ _ _ _ _ H) as [[-> _]|(l & f & d & _ & Hl & P & _ & _ & _ & _ & S' & E)].
  - left. reflexivity.
  - right. exists l. split; [done|]. split; [apply P|]. rewrite E in *.
    apply update_links_isolated; [|done|done]. intros _ k Hk Ek. apply Z.eqb_eq in Ek.
    by rewrite (unique_key_inj _ _ _ _ (proj1 (key_share _ S)) Hk Hl Ek).
Qed.

Lemma upload_acts token fields w o w' :
  upload_shared token fields w = (o, w') -> acts_by token (data w) (data w').
Proof.
  unfold upload_shared. apply link_then. intros l.
  apply under_frame; [apply check_expiry_keeps|intros _].
  apply under_frame; [preserve|intros row]. apply under_frame; [preserve|intros target]. cbv zeta.
  apply under_last; [apply upload_fields_under|intros r; preserve].
Qed.

Lemma access_keeps token p : preserves tables_same (access_shared token p).
Proof.
  unfold access_shared, check_limit, check_password, Auth.verify_or_internal.
  repeat first [apply active_link_keeps | apply check_expiry_keeps | progress preserve].
Qed.

(** ** Files and links together *)

Context {MG : MimeGuess} {CO : Collation}.

Inductive op :=
| FileOp (user_id : Z) (o : Tenancy.op)
| CreateShare (user_id : Z) (req : CreateShareRequest)
| ListShares (user_id : Z)
| GetShare (user_id share_id : Z)
| UpdateShare (user_id share_id : Z) (req : UpdateShareRequest)
| DeleteShare (user_id share_id : Z)
| AccessShared (token : rstr) (password : option rstr)
| DownloadShared (token : rstr) (query_pass header_pass : option rstr)
| UploadShared (token : rstr) (fields : list (rstr + Field)).

Definition run_op (o : op) : M Server unit :=
  match o with
  | FileOp u o => Tenancy.run_op base u o
  | CreateShare u req => _ ← create_share u req; mret tt
  | ListShares u => _ ← list_shares u; mret tt
  | GetShare u i => _ ← get_share u i; mret tt
  | UpdateShare u i req => _ ← update_share u i req; mret tt
  | DeleteShare u i => delete_share u i
  | AccessShared t p => _ ← access_shared t p; mret tt
  | DownloadShared t q h => _ ← download_shared t q h; mret tt
  | UploadShared t fs => _ ← upload_shared t fs; mret tt
  end.

(** On whose behalf an operation acts: its user, or the owner of the link
    whose token it shows. *)
Definition acts_for (s : Server) (o : op) (u : Z) : Prop :=
  match o with
  | FileOp v _ | CreateShare v _ | ListShares v | GetShare v _ | UpdateShare v _ _ | DeleteShare v _ => u = v
  | AccessShared t _ | DownloadShared t _ _ | UploadShared t _ =>
      exists l, l ∈ share_links s /\ ShareLink.token l = t /\ ShareLink.user_id l = u
  end.

Lemma bind_ret_inv {A} (m : M Server A) w o w' :
  (_ ← m; mret tt) w = (o, w') -> exists o', m w = (o', w').
Proof.
  intros H. apply bind_inv in H as [(a & w1 & E & H)|H]; [|done].
  injection H as _ <-. eauto.
Qed.

(** The step of an operation: by nobody, or by one it acts for. *)
Lemma run_op_acts o w r w' :
  schema_ok (data w) = true -> run_op o w = (r, w') ->
  tables_same (data w) (data w')
  \/ exists u, acts_for (data w) o u /\ isolated u (data w) (data w').
Proof.
  intros S. assert (A : forall t, (forall u, (exists l, l ∈ share_links (data w) /\ ShareLink.token l = t
      /\ ShareLink.user_id l = u) -> acts_for (data w) o u) -> acts_by t (data w) (data w') ->
    tables_same (data w) (data w') \/ exists u, acts_for (data w) o u /\ isolated u (data w) (data w')).
  { intros t F [H|(l & Hl & T & H)]; [by left|right]. exists (ShareLink.user_id l). eauto 6. }
  destruct o as [u o|u req|u|u i|u i req|u i|t p|t q h|t fs]; cbn [run_op acts_for] in *; intros H;
    try (apply bind_ret_inv in H as (r' & H)).
  - right. exists u. split; [done|]. by apply (Tenancy.run_op_isolated _ _ _ _ _ _ H).
  - right. exists u. split; [done|]. by apply (create_share_isolated _ _ _ _ _ H).
  - left. unfold list_shares in H. by apply (preserves_query tables_same) in H.
  - left. by apply get_share_keeps in H.
  - right. exists u. split; [done|]. by apply (update_share_isolated _ _ _ _ _ _ H).
  - right. exists u. split; [done|]. by apply (delete_share_isolated _ _ _ _ _ H).
  - left. by apply access_keeps in H.
  - apply (A t); [done|]. by eapply download_acts.
  - apply (A t); [done|]. by eapply upload_acts.
Qed.

(** files and links together.  Whatever an operation on files or links is
    given and whatever fails, the invariant holds after it, and the files and
    the links of everyone it does not act for are row by row what they were:
    an anonymous call acts for the owner of the link it shows the token of,
    and for no one else. *)
Theorem sharing_confined o w r w' :
  tidy (data w) -> run_op o w = (r, w') ->
  tidy (data w')
  /\ forall v, ~ acts_for (data w) o v ->
      select (owned_by v) (file_entries (data w')) = select (owned_by v) (file_entries (data w))
      /\ forall l, l ∈ share_links (data w) -> ShareLink.user_id l = v -> l ∈ share_links (data w').
Proof.
  intros T H. destruct (run_op_acts o w r w' (proj1 T) H) as [E|(u & Hu & I)].
  - rewrite E. split; [exact T|]. intros v _. split; [done|]. by intros.
  - destruct (I T) as (T' & K & _ & L). split; [done|]. intros v N.
    assert (Nu : v <> u) by (intros ->; done). split; [by apply K|].
    intros l Hl Ul. apply L; [done|]. destruct T as (S & _ & LO).
    destruct (link_file _ _ S Hl) as (d & Hd & Ed). exists d. split; [done|]. split; [done|].
    rewrite (LO l d Hl Hd Ed). congruence.
Qed.
End Sharing.

(** ** Concrete runs *)

(** Bob's file of Quota.v, with a link for one download. *)
Definition demo_link (max : option Z) (f : FileEntry.row) : ShareLink.row :=
  {| ShareLink.id := 40; ShareLink.user_id := 2; ShareLink.file_entry_id := FileEntry.id f;
     ShareLink.token := lit "tok"; ShareLink.permission := lit "download";
     ShareLink.password_hash := None; ShareLink.expires_at := None; ShareLink.max_downloads := max;
     ShareLink.download_count := 0; ShareLink.is_active := true; ShareLink.created_at := 0;
     ShareLink.updated_at := 0 |}.

Definition demo_stored : World Server := snd (Quota.demo_upload [] "a" [1; 2; 3] Quota.demo_start).

Definition demo_linked (max : option Z) : World Server :=
  mkWorld (set_share_links (map (demo_link max) (file_entries (data demo_stored))) (data demo_stored)) 100.

Definition demo_download (w : World Server) :=
  download_shared (O := toy_env []) (S2 := toy_sha256) (HX := plain_hex) (AR := toy_argon2)
    Storage.demo_base (lit "tok") None None w.

Definition demo_check (w : World Server) :=
  download_checked (O := toy_env []) (S2 := toy_sha256) (HX := plain_hex) (AR := toy_argon2)
    Storage.demo_base (lit "tok") None None w.

Definition demo_count := download_counted (O := toy_env []).

(** Two downloads, the second after the first. *)
Definition in_turn (w : World Server) : outcome bytes * outcome bytes :=
  let show r := match fst r with Ok d => Ok (body d) | Err e => Err e | Panic => Panic | Diverge => Diverge end in
  let r1 := demo_download w in (show r1, show (demo_download (snd r1))).

(** Two downloads, both checks before both counts: the bodies and the counts. *)
Definition interleaved (w : World Server) : option (bytes * bytes * list Z) :=
  match demo_check w with
  | (Ok r1, w1) =>
      match demo_check w1 with
      | (Ok r2, w2) =>
          match demo_count r1 w2 with
          | (Ok d1, w3) =>
              match demo_count r2 w3 with
              | (Ok d2, w4) =>
                  Some (body d1, body d2, map ShareLink.download_count (share_links (data w4)))
              | _ => None
              end
          | _ => None
          end
      | _ => None
      end
  | _ => None
  end.

(** the limit is checked and counted by two statements.  One after the other,
    the second download of a link for one is refused; interleaved, both checks
    before both counts, both are answered and the count ends above the limit. *)
Theorem limit_race :
  in_turn (demo_linked (Some 1)) = (Ok [1; 2; 3], Err (Forbidden (lit "Download limit reached")))
  /\ interleaved (demo_linked (Some 1)) = Some ([1; 2; 3], [1; 2; 3], [2]).
Proof. split; vm_compute; reflexivity. Qed.

Lemma download_witness : exists d w', demo_download (demo_linked None) = (Ok d, w')
  /\ content_length d = Z.of_nat (length (body d)).
Proof.
  destruct (demo_download (demo_linked None)) as [[d|e| |] w'] eqn:E; [|not_ok E..].
  exists d, w'. split; [reflexivity|]. unfold demo_download in E.
  destruct (download_shared_sound (O := toy_env []) (S2 := toy_sha256) (HX := plain_hex)
    (AR := toy_argon2) Storage.demo_base (lit "tok") None None (demo_linked None) d w' E)
    as (l & f & _ & _ & _ & _ & _ & L & _). exact L.
Defined.

Lemma demo_linked_row max : demo_link max (hd (demo_owned 0 0 None "" "") (file_entries (data demo_stored)))
  ∈ share_links (data (demo_linked max)).
Proof.
  apply list_elem_of_In. apply in_map. 
  assert (E : file_entries (data demo_stored) <> []) by (vm_compute; discriminate).
  destruct (file_entries (data demo_stored)); [done|by left].
Qed.

Definition demo_file : FileEntry.row := hd (demo_owned 0 0 None "" "") (file_entries (data demo_stored)).

Lemma limit_witness : exists d w', demo_download (demo_linked (Some 1)) = (Ok d, w')
  /\ exists l', l' ∈ share_links (data w') /\ ShareLink.download_count l' = 1.
Proof.
  destruct (demo_download (demo_linked (Some 1))) as [[d|e| |] w'] eqn:E; [|not_ok E..].
  exists d, w'. split; [reflexivity|]. unfold demo_download in E.
  destruct (download_limit (O := toy_env []) (S2 := toy_sha256) (HX := plain_hex)
    (AR := toy_argon2) Storage.demo_base 40 1 (demo_linked (Some 1)) w' (demo_link (Some 1) demo_file) 1
    ltac:(vm_compute; reflexivity) (demo_linked_row (Some 1)) eq_refl eq_refl) as [_ (l' & H & _ & C)].
  - eapply served_link; [apply served_none|exact E|exact (demo_linked_row (Some 1))|reflexivity|reflexivity].
  - exists l'. split; [exact H|exact C].
Defined.

Lemma demo_linked_tidy : tidy (data (demo_linked (Some 1))).
Proof.
  assert (F : file_entries (data (demo_linked (Some 1))) = [demo_file]) by (vm_compute; reflexivity).
  assert (L : share_links (data (demo_linked (Some 1))) = [demo_link (Some 1) demo_file]) by (vm_compute; reflexivity).
  split; [vm_compute; reflexivity|]. split.
  - rewrite F. apply owned_single.
  - intros l f Hl Hf _. rewrite F in Hf. rewrite L in Hl. apply list_elem_of_singleton in Hl, Hf. subst.
    vm_compute. reflexivity.
Qed.

Definition demo_op (o : op) (w : World Server) :=
  run_op (O := toy_env []) (CH := plain_chrono) (S2 := toy_sha256) (HX := plain_hex) (AR := toy_argon2)
    (UT := plain_uuid) (MG := octet_stream) (CO := c_collation) Storage.demo_base o w.

Lemma sharing_confined_witness :
  tidy (data (snd (demo_op (DownloadShared (lit "tok") None None) (demo_linked (Some 1))))).
Proof.
  destruct (demo_op (DownloadShared (lit "tok") None None) (demo_linked (Some 1))) as [r w'] eqn:E.
  unfold demo_op in E.
  exact (proj1 (sharing_confined (O := toy_env []) (CH := plain_chrono) (S2 := toy_sha256) (HX := plain_hex)
    (AR := toy_argon2) (UT := plain_uuid) (MG := octet_stream) (CO := c_collation) Storage.demo_base
    (DownloadShared (lit "tok") None None) (demo_linked (Some 1)) r w' demo_linked_tidy E)).
Defined.
End Sharing.
