(* ===== verification/Versions.v ===== *)
(** * Versions: the version history of files

    backend/crates/file_metadata/src/versioning.rs: listing, restoring and
    downloading the versions of a file. *)

From S2P Require Import Prelude Text Effects Externals Fs Schema Auth Account Storage Files Tree Tenancy Sharing.

Module Versions.
Import Files Tree Tenancy.

Definition of_file (i : Z) (v : FileVersion.row) : bool := FileVersion.file_entry_id v =? i.
Definition version_is (i : Z) (v : FileVersion.row) : bool := FileVersion.id v =? i.

(** ORDER BY version_number DESC *)
Definition newest_version (a b : FileVersion.row) : bool :=
  FileVersion.version_number b <=? FileVersion.version_number a.

(** The entry [f] pointing at the content of [v]. *)
Definition restored (now : Z) (v : FileVersion.row) (f : FileEntry.row) : FileEntry.row :=
  FileEntry.set_updated_at now
    (FileEntry.set_sha256_hash (FileVersion.sha256_hash v)
      (FileEntry.set_size_bytes (FileVersion.size_bytes v)
        (FileEntry.set_storage_path (Some (FileVersion.storage_path v)) f))).

Section Versions.
Context {O : Oracle}.
Context (base : Fs.path).

(** The check that opens every handler. *)
Definition owned_file (user_id file_id : Z) : M Server FileEntry.row :=
  row ← query (fun s => find_row (fun f => has_id file_id f && owned_by user_id f) (file_entries s));
  ok_or row (NotFound (lit "File not found")).

Definition find_version (file_id version_id : Z) : M Server FileVersion.row :=
  row ← query (fun s => find_row (fun v => version_is version_id v && of_file file_id v) (file_versions s));
  ok_or row (NotFound (lit "Version not found")).

Definition list_versions (user_id file_id : Z) : M Server (list FileVersion.row) :=
  _ ← owned_file user_id file_id;
  map_err (to_internal "")
    (query (fun s => sort_by newest_version (select (of_file file_id) (file_versions s)))).

(** The answer names the number of the version. *)
Definition restore_version (user_id file_id version_id : Z) : M Server Z :=
  _ ← owned_file user_id file_id;
  version ← find_version file_id version_id;
  _ ← execute schema_ok (fun now s => (tt, update_files (has_id file_id) (restored now version) s));
  mret (FileVersion.version_number version).

Definition download_version (user_id file_id version_id : Z) : M Server Sharing.Download :=
  file ← owned_file user_id file_id;
  version ← find_version file_id version_id;
  data ← map_err (to_internal "Read failed: ") (Storage.read_file base (FileVersion.storage_path version));
  mret {| Sharing.content_type := default (lit "application/octet-stream") (FileEntry.mime_type file);
          Sharing.disposition := lit "attachment; filename=" ++ [34] ++ lit "v"
            ++ show_int (FileVersion.version_number version) ++ lit "_" ++ FileEntry.name file ++ [34];
          Sharing.content_length := Z.of_nat (length data); Sharing.body := data |}.

(** ** Lemmas *)

Lemma owned_file_Ok u i w f w' :
  owned_file u i w = (Ok f, w') ->
  w' = mkWorld (data w) (S (pos w)) /\ f ∈ file_entries (data w) /\ root_of u i f = true.
Proof. unfold owned_file. intros H. run_ok H. apply find_row_Some in H as [? ?]. done. Qed.

Lemma owned_file_run u i w f :
  db_fault (pos w) = None -> schema_ok (data w) = true ->
  f ∈ file_entries (data w) -> root_of u i f = true ->
  owned_file u i w = (Ok f, mkWorld (data w) (S (pos w))).
Proof.
  intros D S Hf R. unfold owned_file, query, statement, mbind, M_bind. rewrite D.
  rewrite (find_unique FileEntry.id _ f); [done|by apply key_file|done|exact R|].
  intros x Hx. apply root_of_iff in R as [-> _]. apply andb_true_iff in Hx as [Hx _]. by apply Z.eqb_eq.
Qed.

Lemma find_version_Ok i v w x w' :
  find_version i v w = (Ok x, w') ->
  w' = mkWorld (data w) (S (pos w)) /\ x ∈ file_versions (data w)
  /\ FileVersion.id x = v /\ FileVersion.file_entry_id x = i.
Proof.
  unfold find_version. intros H. run_ok H. apply find_row_Some in H as [? E].
  apply andb_true_iff in E as [E1 E2]. split; [done|]. split; [done|]. by split; apply Z.eqb_eq.
Qed.

Lemma find_version_run i v w x :
  db_fault (pos w) = None -> schema_ok (data w) = true -> x ∈ file_versions (data w) ->
  FileVersion.id x = v -> FileVersion.file_entry_id x = i ->
  find_version i v w = (Ok x, mkWorld (data w) (S (pos w))).
Proof.
  intros D S Hx <- <-. unfold find_version, query, statement, mbind, M_bind. rewrite D.
  rewrite (find_unique FileVersion.id _ x); [done|by apply key_version|done| |].
  - unfold version_is, of_file. by rewrite !Z.eqb_refl.
  - intros y E. apply andb_true_iff in E as [E _]. by apply Z.eqb_eq.
Qed.

Lemma owned_file_tables u i : preserves tables_same (owned_file u i).
Proof. unfold owned_file. preserve. Qed.

Lemma find_version_tables i v : preserves tables_same (find_version i v).
Proof. unfold find_version. preserve. Qed.

Lemma restored_shape now v : keeps_shape (restored now v).
Proof. done. Qed.

(** ** Restoring *)

(** restoring a version.  A successful restore is by the owner of the file,
    answers the number of a version of that file, and makes the entry, and
    nothing else, point at the content of the version: with the database
    answering, the file then downloads exactly what the version downloads. *)
Theorem restore_version_spec u i v w n w' :
  schema_ok (data w) = true -> restore_version u i v w = (Ok n, w') ->
  exists f x,
    f ∈ file_entries (data w) /\ FileEntry.id f = i /\ FileEntry.user_id f = u
    /\ x ∈ file_versions (data w) /\ FileVersion.id x = v /\ FileVersion.file_entry_id x = i
    /\ n = FileVersion.version_number x
    /\ data w' = update_files (has_id i) (restored (clock_at (S (S (pos w)))) x) (data w)
    /\ (reliable O -> Account.is_file f = true -> forall b,
          (exists g, fst (download_file base u i w') = Ok (g, b))
          <-> (exists d, fst (download_version u i v w') = Ok d /\ Sharing.body d = b)).
Proof.
  intros S H. unfold restore_version in H. run_ok H. subst.
  apply owned_file_Ok in Hm as (-> & Hf & R). apply find_version_Ok in Hm0 as (-> & Hx & Ev & Ei).
  cbn [data pos] in *. apply root_of_iff in R as Hid. destruct Hid as [Ef Eu].
  match goal with H : schema_ok (data w') = true |- _ => rename H into S' end.
  match goal with H : (tt, _) = _ |- _ => injection H as _ E end.
  exists x, x0. do 7 (split; [done|]). split; [done|]. intros Rel F b.
  set (g := restored (clock_at (Datatypes.S (Datatypes.S (pos w)))) x0 x).
  assert (Hg : g ∈ file_entries (data w')).
  { rewrite <- E. cbn. apply elem_update. exists x. split; [done|].
    unfold has_id. rewrite Ef, Z.eqb_refl. done. }
  assert (Rg : root_of u i g = true) by exact R.
  assert (Hx' : x0 ∈ file_versions (data w')) by (by rewrite <- E).
  set (d := fst (Storage.read_file base (FileVersion.storage_path x0) w')).
  assert (K : forall k, fst (Storage.read_file base (FileVersion.storage_path x0) (mkWorld (data w') k)) = d)
    by (intros k; by apply Storage.read_file_disk).
  clearbody d.
  assert (A : fst (download_file base u i w') = match d with
              | Ok c => Ok (g, c) | Err e => Err (to_internal "File read failed: " e)
              | Panic => Panic | Diverge => Diverge end).
  { unfold download_file, downloadable, mbind, M_bind, map_err.
    assert (V := verify_ownership_run g w' Rel S' Hg).
    change (FileEntry.user_id g) with (FileEntry.user_id x) in V. change (FileEntry.id g) with (FileEntry.id x) in V.
    rewrite Eu, Ef in V. rewrite V. cbn [fst snd data pos].
    replace (Account.is_file g) with true by done. cbn [negb].
    change (FileEntry.storage_path g) with (Some (FileVersion.storage_path x0)).
    cbn [ok_or mret M_ret fst snd].
    rewrite <- (K (Datatypes.S (pos w'))).
    by destruct (Storage.read_file _ _ _) as [[] ?]. }
  assert (B : fst (download_version u i v w') = match d with
              | Ok c => Ok {| Sharing.content_type := default (lit "application/octet-stream") (FileEntry.mime_type g);
                  Sharing.disposition := lit "attachment; filename=" ++ [34] ++ lit "v"
                    ++ show_int (FileVersion.version_number x0) ++ lit "_" ++ FileEntry.name g ++ [34];
                  Sharing.content_length := Z.of_nat (length c); Sharing.body := c |}
              | Err e => Err (to_internal "Read failed: " e)
              | Panic => Panic | Diverge => Diverge end).
  { unfold download_version, mbind, M_bind, map_err.
    rewrite (owned_file_run u i w' g) by (apply Rel || done). cbn [data pos].
    rewrite (find_version_run i v _ x0) by (apply Rel || done). cbn [data pos].
    rewrite <- (K (Datatypes.S (Datatypes.S (pos w')))). by destruct (Storage.read_file _ _ _) as [[] ?]. }
  rewrite A, B. destruct d; naive_solver.
Qed.

(** ** Isolation *)

Inductive op :=
| ListVersions (file_id : Z)
| RestoreVersion (file_id version_id : Z)
| DownloadVersion (file_id version_id : Z).

Definition run_op (user_id : Z) (o : op) : M Server unit :=
  match o with
  | ListVersions i => _ ← list_versions user_id i; mret tt
  | RestoreVersion i v => _ ← restore_version user_id i v; mret tt
  | DownloadVersion i v => _ ← download_version user_id i v; mret tt
  end.

Lemma under_owned_file P u i {B} (k : FileEntry.row -> M Server B) :
  (forall d, under (fun t => P t /\ d ∈ t /\ root_of u i d = true) u (k d)) ->
  under P u (x ← owned_file u i; k x).
Proof. intros Hk. unfold owned_file. apply under_assoc, under_find. exact Hk. Qed.

(** versions are the owner's.  Whatever the arguments and whatever fails, the
    operations on versions keep the invariant of the file tables and leave the
    files, the versions and the links of every other user as they were. *)
Theorem versions_isolated u o w r w' :
  run_op u o w = (r, w') -> tidy (data w) -> tidy (data w') /\ others_kept u (data w) (data w').
Proof.
  assert (K : forall A (m : M Server A), under (fun _ => True) u m ->
    under (fun _ => True) u (_ ← m; mret tt)).
  { intros A m Hm. apply under_last; [done|]. intros a. apply preserves_ret. apply _. }
  assert (under (fun _ => True) u (run_op u o)); [|intros E; by apply (H w r w' I)].
  destruct o as [i|i v|i v]; cbn [run_op]; apply K.
  - apply under_same. unfold list_versions. repeat first [apply owned_file_tables | progress preserve].
  - unfold restore_version. apply under_owned_file. intros d. apply under_frame; [apply find_version_tables|].
    intros x. apply under_last; [|intros ?; preserve].
    apply update_row_under; [done|]. intros t (_ & Hd & R). by exists d.
  - apply under_same. unfold download_version.
    repeat first [apply owned_file_tables | apply find_version_tables | apply read_file_tables | progress preserve].
Qed.
End Versions.

(** ** A concrete run *)

(** Bob's file of Quota.v, and a second stored file that is a version of it. *)
Definition demo_version : FileVersion.row :=
  {| FileVersion.id := 70; FileVersion.file_entry_id := FileEntry.id Sharing.demo_file;
     FileVersion.version_number := 1; FileVersion.size_bytes := 2; FileVersion.sha256_hash := None;
     FileVersion.storage_path := Storage.relative_path (UT := plain_uuid) 2 71;
     FileVersion.created_by := 2; FileVersion.created_at := 0 |}.

Definition demo_world : World Server :=
  let w := snd (Storage.store_file (O := toy_env []) (S2 := toy_sha256) (HX := plain_hex)
    (UT := plain_uuid) Storage.demo_base 2 71 [8; 9] Sharing.demo_stored) in
  mkWorld (set_file_versions [demo_version] (data w)) (pos w).

Definition demo_id : Z := Eval vm_compute in FileEntry.id Sharing.demo_file.

Abbreviation demo_restore := (restore_version (O := toy_env []) 2 demo_id 70 demo_world).

Definition demo_body (w : World Server) : option bytes :=
  match fst (download_version (O := toy_env []) Storage.demo_base 2 demo_id 70 w) with
  | Ok d => Some (Sharing.body d)
  | _ => None
  end.

Lemma demo_body_Some w b : demo_body w = Some b -> exists d,
  fst (download_version (O := toy_env []) Storage.demo_base 2 demo_id 70 w) = Ok d /\ Sharing.body d = b.
Proof.
  unfold demo_body. destruct (fst _) as [d|e| |]; intros E; [|discriminate E..].
  injection E as E. exists d. split; [reflexivity|exact E].
Qed.

Lemma demo_restored : demo_restore = (Ok 1, snd demo_restore).
Proof. apply run_pair. vm_compute. reflexivity. Qed.

Lemma demo_restored_body : demo_body (snd demo_restore) = Some [8; 9].
Proof. vm_compute. reflexivity. Qed.

Lemma demo_schema : schema_ok (data demo_world) = true.
Proof. vm_compute. reflexivity. Qed.

Lemma demo_row f : f ∈ file_entries (data demo_world) -> Account.is_file f = true.
Proof.
  assert (T : file_entries (data demo_world) = [Sharing.demo_file]) by (vm_compute; reflexivity).
  rewrite T. intros ->%list_elem_of_singleton. vm_compute. reflexivity.
Qed.

Lemma restore_witness : exists g,
  fst (download_file (O := toy_env []) Storage.demo_base 2 demo_id (snd demo_restore)) = Ok (g, [8; 9]).
Proof.
  destruct (restore_version_spec (O := toy_env []) Storage.demo_base 2 demo_id 70 demo_world 1
    (snd demo_restore) demo_schema demo_restored) as (f & x & Hf & _ & _ & _ & _ & _ & _ & _ & D).
  exact (proj2 (D toy_env_reliable (demo_row f Hf) [8; 9]) (demo_body_Some _ _ demo_restored_body)).
Defined.

Definition demo_op (o : op) := run_op (O := toy_env []) Storage.demo_base 2 o demo_world.

Lemma demo_world_tidy : tidy (data demo_world).
Proof.
  assert (F : file_entries (data demo_world) = [Sharing.demo_file]) by (vm_compute; reflexivity).
  assert (L : share_links (data demo_world) = []) by (vm_compute; reflexivity).
  split; [vm_compute; reflexivity|]. split.
  - rewrite F. apply owned_single.
  - intros l f Hl. rewrite L in Hl. destruct (proj1 (elem_of_nil l) Hl).
Qed.

Lemma versions_isolated_witness :
  tidy (data (snd (demo_op (RestoreVersion demo_id 70)))).
Proof.
  exact (proj1 (versions_isolated (O := toy_env []) Storage.demo_base 2 (RestoreVersion demo_id 70) demo_world
    _ _ (surjective_pairing _) demo_world_tidy)).
Defined.
End Versions.
