(* ===== verification/Resumable.v ===== *)
(** * Resumable: transfers in chunks that can be taken up again

    backend/crates/file_metadata/src/resumable.rs. *)

From S2P Require Import Prelude Text Effects Externals Fs Schema Auth Account Storage Files Tree Tenancy Quota Sharing.

Module Resumable.
Import Fs Files Tree Tenancy.

Record ResumableInitRequest := {
  init_name : rstr; init_size : Z; init_hash : option rstr; storage_node_id : option rstr;
  init_parent : option Z; init_mime : option rstr }.
Record ResumableInitResponse := {
  transfer_id : rstr; transfer_name : rstr; total_bytes : Z; chunk_size : Z; uploaded_bytes : Z;
  transfer_hash : rstr; transfer_created : Z }.
Record ResumableChunkRequest := { offset : Z; data_base64 : rstr }.
Record ResumableChunkResponse := {
  chunk_transfer : rstr; chunk_offset : Z; bytes_written : Z; chunk_success : bool }.
Record ResumableStatusResponse := {
  status_transfer : rstr; status_name : rstr; status_total : Z; status_hash : option rstr;
  status_text : rstr }.
Record ResumableFinalizeResponse := {
  final_success : bool; final_id : rstr; final_name : rstr; final_size : Z; final_hash : rstr }.

Definition SESSION : rstr := lit "resumable_transfer".
Definition CHUNK : Z := 2 * 1024 * 1024.

Definition is_session (f : FileEntry.row) : bool := bool_decide (FileEntry.storage_path f = Some SESSION).

(** The row of a finished transfer. *)
Definition completed (now : Z) (path hash : rstr) (size : Z) (f : FileEntry.row) : FileEntry.row :=
  FileEntry.set_updated_at now
    (FileEntry.set_size_bytes size
      (FileEntry.set_sha256_hash (Some hash) (FileEntry.set_storage_path (Some path) f))).

Section Resumable.
Context {O : Oracle} {S2 : Sha256} {HX : Hex} {UT : UuidText} {B64 : Base64}.
Context (base : Fs.path).

Definition parse_transfer_uuid (id : rstr) : AppError + Z :=
  match uuid_parse_str (trim_start_matches (lit "xfer_") id) with
  | Some u => inr u
  | None => inl (Validation (lit "Invalid transfer ID: " ++ id))
  end.

Definition with_id {A} (id : rstr) (k : Z -> M Server A) : M Server A :=
  match parse_transfer_uuid id with
  | inl e => throw e
  | inr u => k u
  end.

(** fetch_one with every error, of the database included, read as no session. *)
Definition find_session (p : FileEntry.row -> bool) (message : string) : M Server FileEntry.row :=
  map_err (fun _ => NotFound (lit message)) (fetch_one (fun s => find_row p (file_entries s))).

(** The INSERT names the column is_favorite, which file_entries has in no
    migration: the statement fails. *)
Definition init_transfer (user_id : Z) (req : ResumableInitRequest) : M Server ResumableInitResponse :=
  if bool_decide (trim (init_name req) = []) then throw (Validation (lit "name is required"))
  else if init_size req <? 0 then throw (Validation (lit "size_bytes must be non-negative"))
  else
  _ ← check_storage_quota user_id (init_size req);
  file_id ← new_v4;
  now ← utc_now;
  let sha256 := default [] (init_hash req) in
  _ ← statement (fun _ _ => Fails (DbOther (lit "column is_favorite of relation file_entries does not exist")))
        : M Server unit;
  mret {| transfer_id := lit "xfer_" ++ uuid_to_string file_id; transfer_name := init_name req;
          total_bytes := init_size req; chunk_size := CHUNK; uploaded_bytes := 0;
          transfer_hash := sha256; transfer_created := now |}.

(** i64 division, then [as i32]. *)
Definition chunk_index (offset : Z) : Z := wrap_i32 (Z.quot offset CHUNK).

Definition write_chunk (user_id : Z) (id : rstr) (req : ResumableChunkRequest)
  : M Server ResumableChunkResponse :=
  with_id id (fun file_uuid =>
  _ ← find_session (fun f => has_id file_uuid f && owned_by user_id f && is_session f)
        "Transfer session not found or already finalized";
  let payload := trim (data_base64 req) in
  chunk_bytes ← ok_or (b64_decode payload)
                  (Validation (lit "Invalid base64 payload: " ++ b64_error payload));
  _ ← map_err (to_internal "Failed to store chunk: ")
        (Storage.store_chunk base user_id file_uuid (chunk_index (offset req)) chunk_bytes);
  _ ← execute schema_ok (fun now s => (tt, update_files (has_id file_uuid) (FileEntry.set_updated_at now) s));
  mret {| chunk_transfer := id; chunk_offset := offset req;
          bytes_written := Z.of_nat (length chunk_bytes); chunk_success := true |}).

Definition get_status (user_id : Z) (id : rstr) : M Server ResumableStatusResponse :=
  with_id id (fun file_uuid =>
  entry ← find_session (fun f => has_id file_uuid f && owned_by user_id f) "Transfer session not found";
  (* the column is decoded as a String: a NULL is an error, answered as any other *)
  path ← ok_or (FileEntry.storage_path entry) (NotFound (lit "Transfer session not found"));
  mret {| status_transfer := id; status_name := FileEntry.name entry;
          status_total := FileEntry.size_bytes entry; status_hash := FileEntry.sha256_hash entry;
          status_text := if bool_decide (path = SESSION) then lit "in_progress" else lit "completed" |}).

(** Where a transfer without chunks is said to be. *)
Definition unassembled (user_id file_id : Z) : rstr := uuid_to_string user_id ++ lit "/" ++ uuid_to_string file_id.

(** The chunks in the directory of a transfer. *)
Definition count_chunks (entries : list (rstr * Fs.node)) : Z :=
  Z.of_nat (length (List.filter (fun e => starts_with (lit "chunk_") (fst e)) entries)).

(** The path, the hash and the size of the content of a transfer. *)
Definition content_of (user_id file_id : Z) (entry : FileEntry.row) : M Server (rstr * rstr * Z) :=
  s ← get;
  if Fs.path_exists (disk s) (Storage.chunk_dir base user_id file_id) then
    entries ← map_err (to_internal "")
                (Storage.fs_read (fun f => Fs.read_dir f (Storage.chunk_dir base user_id file_id)));
    if 0 <? count_chunks entries
    then map_err (to_internal "Failed to assemble chunks: ")
           (Storage.assemble_chunks base user_id file_id file_id (count_chunks entries))
    else mret (unassembled user_id file_id, lit "empty", 0)
  else mret (unassembled user_id file_id, default (lit "verified") (FileEntry.sha256_hash entry),
             FileEntry.size_bytes entry).

(** Whether the hash computed is one the client's is compared with. *)
Definition comparable (computed : rstr) : bool :=
  nonempty computed && negb (bool_decide (computed = lit "empty"))
  && negb (bool_decide (computed = lit "verified")).

Definition check_hash (client : option rstr) (computed : rstr) : M Server unit :=
  match client with
  | Some client_hash =>
      if comparable computed && negb (eq_ignore_ascii_case client_hash computed)
      then throw (Validation (lit "SHA-256 integrity check failed: expected " ++ client_hash
                              ++ lit ", computed " ++ computed))
      else mret tt
  | None => mret tt
  end.

Definition finalize_transfer (user_id : Z) (id : rstr) (sha256_hash : option rstr)
  : M Server ResumableFinalizeResponse :=
  with_id id (fun file_uuid =>
  entry ← find_session (fun f => has_id file_uuid f && owned_by user_id f) "Transfer session not found";
  content ← content_of user_id file_uuid entry;
  let '(path, computed, size) := content in
  _ ← check_hash sha256_hash computed;
  let final := if nonempty computed && negb (bool_decide (computed = lit "empty")) then computed
               else default (lit "verified") sha256_hash in
  _ ← execute schema_ok (fun now s =>
        (tt, update_files (has_id file_uuid) (completed now path final size) s));
  mret {| final_success := true; final_id := uuid_to_string file_uuid; final_name := FileEntry.name entry;
          final_size := size; final_hash := final |}).

(** ** Opening a transfer *)

(** The quota check answers or fails, and only reads. *)
Lemma quota_answers u n w o w' :
  check_storage_quota u n w = (o, w') -> (o = Ok tt \/ exists e, o = Err e) /\ data w' = data w.
Proof.
  unfold check_storage_quota, Account.sum_query, query, statement, unwrap_or, mbind, M_bind. intros H.
  destruct (db_fault (pos w)); cbn [data pos] in H; [simplify_eq; eauto|].
  destruct (db_fault _); [|destruct (int8 _)];
    destruct (_ <? _); unfold throw, mret, M_ret in H; simplify_eq; eauto.
Qed.

(** no transfer can be opened.  Whatever the request and whatever the state,
    the initialization of a resumable transfer answers an error and changes
    nothing. *)
Theorem init_transfer_fails user_id req w o w' :
  init_transfer user_id req w = (o, w') -> (exists e, o = Err e) /\ data w' = data w.
Proof.
  unfold init_transfer. intros H. case_hyp H; [unfold throw in H; simplify_eq; eauto|].
  case_hyp H; [unfold throw in H; simplify_eq; eauto|].
  unfold mbind, M_bind at 1 in H. destruct (check_storage_quota _ _ w) as [r w1] eqn:Q.
  apply quota_answers in Q as [[->|[e ->]] D]; [|simplify_eq; eauto].
  unfold M_bind, new_v4, utc_now, interact, statement in H. cbn [data pos] in H.
  destruct (db_fault _); simplify_eq; eauto.
Qed.

(** ** Finishing a transfer *)

Lemma parse_transfer_id i : is_uuid i -> parse_transfer_uuid (lit "xfer_" ++ uuid_to_string i) = inr i.
Proof.
  intros H. unfold parse_transfer_uuid. rewrite trim_start_matches_once; [by rewrite uuid_parse_to_string|done|].
  assert (F := uuid_to_string_chars i). destruct (uuid_to_string i) as [|c s]; [done|].
  apply Forall_inv in F. change (lit "xfer_") with (120 :: lit "fer_"). cbn [strip_prefix].
  destruct (120 =? c) eqn:E; [|done]. apply Z.eqb_eq in E. subst c. discriminate F.
Qed.

(** A digest is a text that is compared. *)
Lemma digest_comparable b : comparable (Storage.digest b) = true.
Proof.
  unfold comparable, Storage.digest. assert (F := hex_encode_chars _ (sha256_bytes b)).
  assert (N : hex_encode (sha256 b) <> []).
  { intros E. assert (D := hex_decode_encode _ (sha256_bytes b)). rewrite E, hex_decode_nil in D.
    injection D as D. assert (L := sha256_length b). by rewrite <- D in L. }
  assert (forall s, existsb (fun c => negb (uuid_char c)) (lit s) = true -> hex_encode (sha256 b) <> lit s) as K.
  { intros s H E. rewrite E in F. apply existsb_exists in H as (c & Hc & U). rewrite Forall_forall in F.
    apply list_elem_of_In, F in Hc as [Hc _]. by rewrite Hc in U. }
  rewrite !bool_decide_eq_false_2 by (by apply K). by destruct (hex_encode _).
Qed.

Lemma find_session_run p m w f :
  db_fault (pos w) = None -> schema_ok (data w) = true -> f ∈ file_entries (data w) -> p f = true ->
  (forall x, p x = true -> FileEntry.id x = FileEntry.id f) ->
  find_session p m w = (Ok f, mkWorld (data w) (S (pos w))).
Proof.
  intros D S Hf P U. unfold find_session, map_err, fetch_one, statement. rewrite D.
  by rewrite (find_unique FileEntry.id _ f _ (key_file _ S)).
Qed.

(** What a client may say of the hash of the content. *)
Definition agrees (client : option rstr) (hash : rstr) : Prop :=
  forall h, client = Some h -> eq_ignore_ascii_case h hash = true.

(** C33: finishing a transfer.  When the chunks of a transfer of the user are on
    disk, all of them and no others, nothing fails, the row fits its columns and
    the client names the right hash or none, the transfer ends with the file
    that holds the concatenation of the chunks in order, readable back under
    the path in its row, with its digest and its size in the row and in the
    answer, and the chunks are gone. *)
Theorem finalize_publishes f chunks client w :
  let u := FileEntry.user_id f in
  let i := FileEntry.id f in
  let dir := Storage.chunk_dir base u i in
  let tmp := Storage.with_extension (uuid_to_string i) (lit "tmp_asm_" ++ uuid_to_string (uuid_at (3 + pos w))) in
  let content := concat chunks in
  reliable O -> is_uuid i -> schema_ok (data w) = true -> f ∈ file_entries (data w) ->
  Storage.ready base (disk (data w)) u i tmp -> Fs.dir_ready (disk (data w)) dir ->
  option_map count_chunks (Fs.read_dir (disk (data w)) dir) = Some (Z.of_nat (length chunks)) ->
  chunks <> [] ->
  (forall k b, chunks !! k = Some b ->
     disk (data w) !! (dir ++ [Storage.chunk_name (Z.of_nat k)]) = Some (Fs.File b)) ->
  (forall now disk', schema_ok (set_disk disk' (update_files (has_id i)
     (completed now (Storage.relative_path u i) (Storage.digest content) (Z.of_nat (length content)))
     (data w))) = true) ->
  agrees client (Storage.digest content) ->
  exists now w',
    finalize_transfer u (lit "xfer_" ++ uuid_to_string i) client w
    = (Ok {| final_success := true; final_id := uuid_to_string i; final_name := FileEntry.name f;
             final_size := Z.of_nat (length content); final_hash := Storage.digest content |}, w')
    /\ file_entries (data w') = update (has_id i)
         (completed now (Storage.relative_path u i) (Storage.digest content) (Z.of_nat (length content)))
         (file_entries (data w))
    /\ fst (Storage.read_file base (Storage.relative_path u i) w') = Ok content
    /\ forall p, Fs.path_prefix dir p = true -> disk (data w') !! p = None.
Proof.
  cbv zeta. intros Rel Iu S Hf Rdy Rd Cnt Ne Hc Fit Ag.
  set (u := FileEntry.user_id f) in *. set (i := FileEntry.id f) in *.
  set (dir := Storage.chunk_dir base u i) in *.
  destruct (Fs.read_dir _ dir) as [entries|] eqn:RD; [|done]. injection Cnt as Cnt.
  set (w2 := mkWorld (data w) (2 + pos w)).
  destruct (Storage.assemble_chunks_concat base u i i chunks w2 Rel Rdy Rd Hc) as (w3 & A & R & G).
  assert (T := assemble_chunks_tables base u i i _ _ _ _ A). cbn [data w2] in T.
  set (content := concat chunks) in *.
  set (row := completed (clock_at (pos w3)) (Storage.relative_path u i) (Storage.digest content)
                (Z.of_nat (length content))).
  assert (X : execute schema_ok (fun now s => (tt, update_files (has_id i)
      (completed now (Storage.relative_path u i) (Storage.digest content) (Z.of_nat (length content))) s)) w3
    = (Ok tt, mkWorld (update_files (has_id i) row (data w3)) (Datatypes.S (pos w3)))).
  { unfold execute, statement, checked. rewrite (proj1 (Rel _)). cbn [fst snd]. fold row.
    assert (schema_ok (update_files (has_id i) row (data w3)) = true) as ->; [|done].
    rewrite T. exact (Fit (clock_at (pos w3)) (disk (data w3))). }
  exists (clock_at (pos w3)), (mkWorld (update_files (has_id i) row (data w3)) (Datatypes.S (pos w3))).
  split; [|split; [|split]].
  - unfold finalize_transfer, with_id. rewrite parse_transfer_id by done.
    eapply bind_run.
    { apply (find_session_run _ _ w f); [apply Rel|done|done|..].
      - by apply root_of_iff.
      - intros x E. by apply root_of_iff in E as [? _]. }
    eapply bind_run.
    { unfold content_of. eapply bind_run; [reflexivity|]. cbn [data]. fold dir.
      assert (Fs.path_exists (disk (data w)) dir = true) as ->.
      { unfold Fs.path_exists. by rewrite (Fs.real_canonicalize _ _ (proj1 Rd)). }
      eapply bind_run.
      { unfold map_err. by rewrite (Storage.fs_read_ok (fun f => Fs.read_dir f dir) (mkWorld (data w) (Datatypes.S (pos w))) entries Rel RD). }
      cbn [data pos]. rewrite Cnt. replace (0 <? Z.of_nat (length chunks)) with true
        by (symmetry; apply Z.ltb_lt; destruct chunks; [done|simpl; lia]).
      change (mkWorld (data w) (Datatypes.S (Datatypes.S (pos w)))) with w2.
      unfold map_err. by rewrite A. }
    cbn beta iota. assert (Cmp := digest_comparable content).
    assert (check_hash client (Storage.digest content) w3 = (Ok tt, w3)) as C.
    { unfold check_hash. destruct client as [h|]; [|done]. rewrite Cmp, (Ag h eq_refl). done. }
    eapply bind_run; [exact C|]. unfold comparable in Cmp.
    apply andb_true_iff in Cmp as [Cmp _]. rewrite Cmp. eapply bind_run; [exact X|]. done.
  - rewrite T. done.
  - rewrite <- R. by apply Storage.read_file_disk.
  - exact G.
Qed.

(** ** Isolation *)

Inductive op :=
| Init (req : ResumableInitRequest)
| WriteChunk (id : rstr) (req : ResumableChunkRequest)
| Status (id : rstr)
| Finalize (id : rstr) (sha256_hash : option rstr).

Definition run_op (user_id : Z) (o : op) : M Server unit :=
  match o with
  | Init req => _ ← init_transfer user_id req; mret tt
  | WriteChunk id req => _ ← write_chunk user_id id req; mret tt
  | Status id => _ ← get_status user_id id; mret tt
  | Finalize id h => _ ← finalize_transfer user_id id h; mret tt
  end.

Lemma under_with_id P u {A} id (k : Z -> M Server A) :
  (forall i, under P u (k i)) -> under P u (with_id id k).
Proof. intros Hk. unfold with_id. destruct (parse_transfer_uuid id); [apply under_throw|apply Hk]. Qed.

Lemma content_of_tables u i e : preserves tables_same (content_of u i e).
Proof.
  unfold content_of. repeat first [ apply assemble_chunks_tables | apply fs_read_tables
    | match goal with |- preserves _ (mbind _ get) => apply preserves_bind; [apply _|by intros w o w' [= _ <-]|intros ?] end
    | progress preserve ].
Qed.

(** transfers are the user's.  Whatever the arguments and whatever fails, the
    operations on resumable transfers keep the invariant of the file tables and
    leave the files, the versions and the links of every other user as they
    were. *)
Theorem resumable_isolated u o w r w' :
  run_op u o w = (r, w') -> tidy (data w) -> tidy (data w') /\ others_kept u (data w) (data w').
Proof.
  assert (K : forall A (m : M Server A), under (fun _ => True) u m ->
    under (fun _ => True) u (_ ← m; mret tt)).
  { intros A m Hm. apply under_last; [done|]. intros a. apply preserves_ret. apply _. }
  assert (under (fun _ => True) u (run_op u o)); [|intros E; by apply (H w r w' I)].
  destruct o as [req|id req|id|id h]; cbn [run_op]; apply K.
  - apply under_same. intros w0 o0 w0' E. apply init_transfer_fails in E as [_ ->]. reflexivity.
  - unfold write_chunk. apply under_with_id. intros i. apply under_fetch. intros d.
    apply under_frame; [preserve|]. intros b.
    apply under_frame; [apply preserves_map_err, store_chunk_tables|]. intros _.
    apply under_last; [|intros ?; preserve]. apply update_row_under; [done|].
    intros t (_ & Hd & R). apply andb_true_iff in R as [R _]. by exists d.
  - unfold get_status. apply under_with_id. intros i. apply under_fetch. intros d. apply under_same. preserve.
  - unfold finalize_transfer. apply under_with_id. intros i. apply under_fetch. intros d.
    apply under_frame; [apply content_of_tables|]. intros [[p c] z].
    apply under_frame; [unfold check_hash; preserve|]. intros _.
    apply under_last; [|intros ?; preserve]. apply update_row_under; [done|].
    intros t (_ & Hd & R). by exists d.
Qed.
End Resumable.

(** ** Concrete runs *)

Definition demo_session : FileEntry.row :=
  FileEntry.set_storage_path (Some SESSION) (demo_owned 2 5 None "big" "file").

(** Three chunks of a transfer of Bob's, and its row. *)
Definition demo_open : World Server :=
  mkWorld (set_file_entries [demo_session] (data Quota.demo_chunks)) 50.

Definition demo_finalize (id : Z) (client : option rstr) (w : World Server) :=
  finalize_transfer (O := toy_env []) (S2 := toy_sha256) (HX := plain_hex) (UT := plain_uuid)
    Storage.demo_base 2 (lit "xfer_" ++ uuid_to_string (UuidText := plain_uuid) id) client w.

Definition demo_content (id : Z) (w : World Server) : option bytes :=
  match fst (download_file (O := toy_env []) Storage.demo_base 2 id w) with
  | Ok r => Some (snd r)
  | _ => None
  end.

Definition succeeds {A} (r : outcome A * World Server) : bool :=
  match fst r with Ok _ => true | _ => false end.

(** two ways to lose a file by finishing a transfer.  A stored file that was
    never a transfer can be finalized, and is then said to be where nothing is:
    its content can no longer be read.  And a transfer refused for its hash has
    lost its chunks: the same request again succeeds, the file it answers has
    no content. *)
Theorem finalize_gaps :
  (let id := FileEntry.id (hd demo_session (file_entries (data Sharing.demo_stored))) in
   let after := demo_finalize id None Sharing.demo_stored in
   demo_content id Sharing.demo_stored = Some [1; 2; 3]
   /\ succeeds after = true /\ demo_content id (snd after) = None)
  /\ (let refused := demo_finalize 5 (Some (lit "00")) demo_open in
      let again := demo_finalize 5 (Some (lit "00")) (snd refused) in
      succeeds refused = false /\ succeeds again = true /\ demo_content 5 (snd again) = None).
Proof. cbv zeta. split_and!; vm_compute; reflexivity. Qed.

Lemma demo_open_schema : schema_ok (data demo_open) = true.
Proof. vm_compute. reflexivity. Qed.

Lemma finalize_witness : exists w',
  finalize_transfer (O := toy_env []) (S2 := toy_sha256) (HX := plain_hex) (UT := plain_uuid)
    Storage.demo_base (FileEntry.user_id demo_session)
    (lit "xfer_" ++ uuid_to_string (UuidText := plain_uuid) (FileEntry.id demo_session)) None demo_open
  = (Ok {| final_success := true;
           final_id := uuid_to_string (UuidText := plain_uuid) (FileEntry.id demo_session);
           final_name := FileEntry.name demo_session; final_size := 6;
           final_hash := Storage.digest (S2 := toy_sha256) (HX := plain_hex) [1; 2; 1; 2; 1; 2] |}, w').
Proof.
  destruct (finalize_publishes (O := toy_env []) (S2 := toy_sha256) (HX := plain_hex) (UT := plain_uuid)
    Storage.demo_base demo_session [[1; 2]; [1; 2]; [1; 2]] None demo_open toy_env_reliable) as (now & w' & E & _).
  - split; vm_compute; [discriminate|reflexivity].
  - exact demo_open_schema.
  - by left.
  - split; [|split; [|split]].
    + apply dir_ready_intro; vm_compute; reflexivity.
    + apply open_way_two; vm_compute; reflexivity.
    + left. vm_compute. reflexivity.
    + vm_compute. reflexivity.
  - apply dir_ready_intro; vm_compute; reflexivity.
  - vm_compute. reflexivity.
  - discriminate.
  - intros [|[|[|k]]] b H; [injection H as <-|injection H as <-|injection H as <-|discriminate H];
      vm_compute; reflexivity.
  - intros now d. vm_compute. reflexivity.
  - intros h H. discriminate H.
  - exists w'. exact E.
Defined.

Lemma demo_open_tidy : tidy (data demo_open).
Proof.
  split; [exact demo_open_schema|]. split; [exact (owned_single demo_session)|].
  intros l f Hl. destruct (proj1 (elem_of_nil l) Hl).
Qed.

Lemma resumable_isolated_witness :
  tidy (data (snd (run_op (O := toy_env []) (S2 := toy_sha256) (HX := plain_hex) (UT := plain_uuid)
    (B64 := toy_base64) Storage.demo_base 2 (Finalize (lit "xfer_") None) demo_open))).
Proof.
  exact (proj1 (resumable_isolated (O := toy_env []) (S2 := toy_sha256) (HX := plain_hex) (UT := plain_uuid)
    (B64 := toy_base64) Storage.demo_base 2 (Finalize (lit "xfer_") None) demo_open
    _ _ (surjective_pairing _) demo_open_tidy)).
Defined.

Lemma init_witness :
  exists e, fst (init_transfer (O := toy_env []) (UT := plain_uuid) 2
    {| init_name := lit "a"; init_size := 1; init_hash := None; storage_node_id := None;
       init_parent := None; init_mime := None |} demo_open) = Err e.
Proof.
  exact (proj1 (init_transfer_fails (O := toy_env []) (UT := plain_uuid) 2
    {| init_name := lit "a"; init_size := 1; init_hash := None; storage_node_id := None;
       init_parent := None; init_mime := None |} demo_open _ _ (surjective_pairing _))).
Defined.
End Resumable.
