(* ===== verification/Device.v ===== *)
(** * Device: devices and their enrollment

    backend/crates/device/src/service.rs, models.rs and handlers.rs: the devices
    of a user, and the pairing of a new one by a code or a token that the user
    approves, or that is redeemed directly. *)

From S2P Require Import Prelude Text Effects Externals Fs Pairing Schema Token Auth.

Module Devices.
Import Pairing.

(** ** models.rs *)

Record RegisterDeviceRequest := {
  reg_name : rstr; reg_type : rstr; reg_os : rstr; reg_os_version : rstr; reg_agent_version : rstr }.
Record DeviceListResponse := { listed : list DeviceResponse; total : Z }.
Record PairingSessionResponse := {
  new_code : rstr; new_token : rstr; new_expires : Z; qr_payload : rstr }.
Record RedeemPairingRequest := {
  red_code : option rstr; red_token : option rstr; red_name : rstr; red_type : rstr; red_os : rstr;
  red_os_version : option rstr; red_agent_version : option rstr; red_fingerprint : option rstr }.
Record ClaimPairingRequest := {
  clm_code : option rstr; clm_token : option rstr; clm_name : rstr; clm_type : rstr; clm_os : rstr;
  clm_os_version : option rstr; clm_agent_version : option rstr; clm_fingerprint : option rstr }.
Record ApprovePairingRequest := { app_code : option rstr; app_token : option rstr; approved : bool }.
Record PairingStatusResponse := {
  st_code : rstr; st_token : rstr; st_status : rstr; st_expires : Z;
  st_candidate : option CandidateDevice; st_result : option RedeemPairingResponse }.

(** impl From<Device> for DeviceResponse *)
Definition device_response (d : Device.row) : DeviceResponse :=
  {| dev_id := Device.id d; dev_name := Device.name d; dev_type := Device.device_type d;
     dev_os := Device.os d; dev_os_version := Device.os_version d;
     dev_agent_version := Device.agent_version d; dev_online := Device.is_online d;
     dev_last_seen := Device.last_seen_at d; dev_created := Device.created_at d |}.

Definition device_of (u : Z) (d : Device.row) : bool := Device.user_id d =? u.
Definition device_is (i : Z) (d : Device.row) : bool := Device.id d =? i.

(** ORDER BY created_at DESC *)
Definition newest_device (a b : Device.row) : bool := Device.created_at b <=? Device.created_at a.

(** #[validate(length(min, max))]: in characters. *)
Definition in_length (min max : Z) (s : rstr) : bool :=
  (min <=? Z.of_nat (length s)) && (Z.of_nat (length s) <=? max).

(** The fields of a request that are not valid. *)
Definition failing (l : list (string * bool)) : list string := map fst (List.filter (fun f => negb (snd f)) l).

Definition invalid_register (r : RegisterDeviceRequest) : list string :=
  failing [("name", in_length 1 100 (reg_name r)); ("device_type", in_length 1 50 (reg_type r));
           ("os", in_length 1 50 (reg_os r)); ("os_version", in_length 0 50 (reg_os_version r));
           ("agent_version", in_length 0 50 (reg_agent_version r))]%string.
Definition invalid_redeem (r : RedeemPairingRequest) : list string :=
  failing [("device_name", in_length 1 100 (red_name r)); ("device_type", in_length 1 50 (red_type r));
           ("os", in_length 1 50 (red_os r))]%string.
Definition invalid_claim (r : ClaimPairingRequest) : list string :=
  failing [("device_name", in_length 1 100 (clm_name r)); ("device_type", in_length 1 50 (clm_type r));
           ("os", in_length 1 50 (clm_os r))]%string.

Section Devices.
Context {O : Oracle} {CH : Chrono} {JW : Token.JsonWebToken} {S2 : Sha256} {HX : Hex} {UT : UuidText}.
Context (config : Token.AuthConfig).
(** std::env::var, and the Display text of a failed validation. *)
Context (env_var : string -> option rstr) (validation_text : list string -> rstr).

(** ** The devices of a user *)

(** DELETE, with what refers to the devices. *)
Definition delete_devices (p : Device.row -> bool) (s : Server) : Server :=
  let gone i := existsb (fun d => p d && device_is i d) (devices s) in
  set_sync_folders (delete_rows (fun f => gone (SyncFolder.device_id f)) (sync_folders s))
    (set_sync_states (delete_rows (fun x => gone (SyncState.device_id x)) (sync_states s))
    (set_file_replicas (delete_rows (fun r => gone (FileReplica.device_id r)) (file_replicas s))
      (set_devices (delete_rows p (devices s)) s))).

Definition insert_device (i user_id : Z) (name type os os_version agent_version : rstr) (online : bool)
  : M Server Device.row :=
  execute schema_ok (fun now s =>
    let d := {| Device.id := i; Device.user_id := user_id; Device.name := name; Device.device_type := type;
                Device.os := os; Device.os_version := os_version; Device.agent_version := agent_version;
                Device.is_online := online; Device.last_seen_at := if online then Some now else None;
                Device.created_at := now; Device.updated_at := now |} in
    (d, set_devices (insert_row d (devices s)) s)).

Definition register_device (user_id : Z) (req : RegisterDeviceRequest) : M Server DeviceResponse :=
  i ← new_v4;
  device ← insert_device i user_id (reg_name req) (reg_type req) (reg_os req) (reg_os_version req)
             (reg_agent_version req) false;
  mret (device_response device).

Definition list_devices (user_id : Z) : M Server DeviceListResponse :=
  rows ← query (fun s => sort_by newest_device (select (device_of user_id) (devices s)));
  mret {| listed := map device_response rows; total := Z.of_nat (length rows) |}.

Definition remove_device (user_id device_id : Z) : M Server unit :=
  affected ← execute schema_ok (fun _ s =>
    let p d := device_is device_id d && device_of user_id d in
    (count_rows p (devices s), delete_devices p s));
  if affected =? 0 then throw (NotFound (lit "Device not found")) else mret tt.

Definition beat (now : Z) (d : Device.row) : Device.row :=
  Device.set_updated_at now (Device.set_last_seen_at (Some now) (Device.set_is_online true d)).

Definition heartbeat (user_id device_id : Z) : M Server unit :=
  affected ← execute schema_ok (fun now s =>
    let p d := device_is device_id d && device_of user_id d in
    (count_rows p (devices s), set_devices (update p (beat now) (devices s)) s));
  if affected =? 0 then throw (NotFound (lit "Device not found")) else mret tt.

(** ** Pairing *)

Definition trim_slashes (s : rstr) : rstr := trim_end_by (Z.eqb (chr "/")) s.

Definition server_url : rstr :=
  match env_var "PCOS_PUBLIC_URL" with
  | Some url => url
  | None =>
      match (match env_var "PCOS_LAN_IP" with Some ip => Some ip | None => env_var "PCOS_SERVER_IP" end) with
      | Some ip =>
          let trimmed := trim ip in
          if starts_with (lit "http://") trimmed || starts_with (lit "https://") trimmed
          then trim_slashes trimmed
          else lit "http://" ++ trim_slashes trimmed
      | None => lit "http://localhost"
      end
  end.

Definition find_by_key (key : rstr) : M Server PairingSession :=
  s ← get;
  ok_or (get_by_key key (pairings s)) (Unauthorized (lit "Invalid or expired pairing code")).

Definition change_store (f : PairingStore -> PairingStore) : M Server unit :=
  modify (fun s => set_pairings (f (pairings s)) s).

Definition update_session (key : rstr) (f : PairingSession -> PairingSession) : M Server unit :=
  change_store (update_by_key key f).

Definition create_pairing_session (user : Z) (expires_in_seconds : option Z) : M Server PairingSessionResponse :=
  user_email ← map_err (fun _ => NotFound (lit "User not found"))
    (fetch_one (fun s => option_map User.email (find_row (fun u => User.id u =? user) (users s))));
  let ttl_secs := Z.max 60 (Z.min (default 300 expires_in_seconds) 3600) in
  now ← utc_now;
  expires_at ← or_panic (add_seconds now ttl_secs);
  code ← random_code;
  token_id ← new_v4;
  let pairing_code := show_padded 6 code in
  let enrollment_token := unhyphenate (uuid_to_string token_id) in
  id ← new_v4;
  let session := {| id := id; user_id := user; user_email := user_email; pairing_code := pairing_code;
                    enrollment_token := enrollment_token; expires_at := expires_at;
                    status := lit "pending_redeem"; failed_attempts := 0;
                    candidate_device := None; redeem_result := None |} in
  now ← utc_now;
  _ ← change_store (fun st => insert session (cleanup_expired now st));
  mret {| new_code := pairing_code; new_token := enrollment_token; new_expires := expires_at;
          qr_payload := server_url ++ lit "/#/pair?code=" ++ pairing_code ++ lit "&token="
                          ++ enrollment_token |}.

(** The token of a request, or else its code. *)
Definition request_key (token code : option rstr) : M Server rstr :=
  ok_or (match token with Some t => Some t | None => code end)
        (Validation (lit "Either enrollment_token or pairing_code is required")).

(** The status of a session as it is answered. *)
Definition status_response (st : rstr) (s : PairingSession) : PairingStatusResponse :=
  {| st_code := pairing_code s; st_token := enrollment_token s; st_status := st;
     st_expires := expires_at s; st_candidate := candidate_device s; st_result := redeem_result s |}.

Definition refuse_expired (s : PairingSession) : M Server unit :=
  now ← utc_now;
  if expires_at s <? now then throw (Unauthorized (lit "Pairing session has expired")) else mret tt.

Definition claim_pairing_session (req : ClaimPairingRequest) : M Server PairingStatusResponse :=
  key ← request_key (clm_token req) (clm_code req);
  sess ← find_by_key key;
  _ ← refuse_expired sess;
  if 5 <=? failed_attempts sess then
    _ ← change_store (remove (id sess));
    throw (Unauthorized (lit "Too many failed attempts. Pairing session invalidated."))
  else
  now ← utc_now;
  let candidate := {| cand_name := clm_name req; cand_type := clm_type req; cand_os := clm_os req;
                      cand_os_version := default [] (clm_os_version req);
                      cand_agent_version := default [] (clm_agent_version req);
                      cand_fingerprint := clm_fingerprint req; requested_at := now |} in
  _ ← update_session key (fun s => set_status (lit "pending_approval") (set_candidate candidate s));
  mret {| st_code := pairing_code sess; st_token := enrollment_token sess;
          st_status := lit "pending_approval"; st_expires := expires_at sess;
          st_candidate := Some candidate; st_result := None |}.

(** The writes that give a device its account: the device, the tokens, and the
    refresh token in the table. *)
Definition provision (user : Z) (email : rstr) (name type os os_version agent_version : rstr)
  : M Server RedeemPairingResponse :=
  device_id ← new_v4;
  device ← insert_device device_id user name type os os_version agent_version true;
  tokens ← Token.generate_token_pair user email config;
  now ← utc_now;
  exp ← or_panic (add_seconds now (Token.refresh_token_expiry_secs config));
  i ← new_v4;
  _ ← execute schema_ok (fun now s =>
        (tt, set_refresh_tokens (insert_row
          {| RefreshToken.id := i; RefreshToken.user_id := user;
             RefreshToken.token_hash := Auth.hash_token (Token.refresh_token tokens);
             RefreshToken.expires_at := exp; RefreshToken.revoked := false;
             RefreshToken.created_at := now |} (refresh_tokens s)) s));
  mret {| device := device_response device; access_token := Token.access_token tokens;
          refresh_token := Token.refresh_token tokens |}.

(** What the first lock of an approval decides: an answer, or the session and
    its candidate. *)
Definition approve_checked (user : Z) (key : rstr) (ok : bool)
  : M Server (PairingStatusResponse + PairingSession * CandidateDevice) :=
  sess ← find_by_key key;
  if negb (user_id sess =? user)
  then throw (Unauthorized (lit "You do not own this pairing session"))
  else
  _ ← refuse_expired sess;
  if negb ok then
    _ ← update_session key (set_status (lit "rejected"));
    mret (inl {| st_code := pairing_code sess; st_token := enrollment_token sess;
                 st_status := lit "rejected"; st_expires := expires_at sess;
                 st_candidate := candidate_device sess; st_result := None |})
  else
  cand ← ok_or (candidate_device sess)
           (Validation (lit "No candidate device has claimed this pairing code yet"));
  mret (inr (sess, cand)).

(** The device and the tokens, and the second lock. *)
Definition approve_provision (key : rstr) (sess : PairingSession) (cand : CandidateDevice)
  : M Server PairingStatusResponse :=
  result ← provision (user_id sess) (user_email sess) (cand_name cand) (cand_type cand) (cand_os cand)
             (cand_os_version cand) (cand_agent_version cand);
  _ ← update_session key (fun s => set_result result (set_status (lit "approved") s));
  mret {| st_code := pairing_code sess; st_token := enrollment_token sess; st_status := lit "approved";
          st_expires := expires_at sess; st_candidate := Some cand; st_result := Some result |}.

Definition approve_pairing_session (user : Z) (req : ApprovePairingRequest) : M Server PairingStatusResponse :=
  key ← request_key (app_token req) (app_code req);
  r ← approve_checked user key (approved req);
  match r with
  | inl answer => mret answer
  | inr (sess, cand) => approve_provision key sess cand
  end.

Definition get_pairing_status (key : rstr) : M Server PairingStatusResponse :=
  sess ← find_by_key key;
  now ← utc_now;
  mret (status_response (if expires_at sess <? now then lit "expired" else status sess) sess).

(** Up to the end of the first lock, and the refusal of what waits for an
    approval: an answer, or the session to provision. *)
Definition redeem_checked (key : rstr) : M Server (RedeemPairingResponse + PairingSession) :=
  sess ← find_by_key key;
  _ ← refuse_expired sess;
  if bool_decide (status sess = lit "rejected")
  then throw (Unauthorized (lit "Pairing request was rejected by device owner"))
  else
  match redeem_result sess with
  | Some result => _ ← change_store (remove (id sess)); mret (inl result)
  | None =>
      if bool_decide (status sess = lit "pending_approval")
      then throw (Unauthorized (lit "Waiting for device approval on your PCOS Web/Desktop screen"))
      else mret (inr sess)
  end.

Definition redeem_provision (req : RedeemPairingRequest) (sess : PairingSession)
  : M Server RedeemPairingResponse :=
  result ← provision (user_id sess) (user_email sess) (red_name req) (red_type req) (red_os req)
             (default [] (red_os_version req)) (default [] (red_agent_version req));
  _ ← change_store (remove (id sess));
  mret result.

Definition redeem_pairing_session (req : RedeemPairingRequest) : M Server RedeemPairingResponse :=
  key ← request_key (red_token req) (red_code req);
  r ← redeem_checked key;
  match r with
  | inl result => mret result
  | inr sess => redeem_provision req sess
  end.

(** ** handlers.rs *)

Definition validated {A} (invalid : list string) (m : M Server A) : M Server A :=
  if nonempty invalid then throw (Validation (validation_text invalid)) else m.

Definition register_device_handler (user : Z) (req : RegisterDeviceRequest) : M Server DeviceResponse :=
  validated (invalid_register req) (register_device user req).
Definition claim_pairing (req : ClaimPairingRequest) : M Server PairingStatusResponse :=
  validated (invalid_claim req) (claim_pairing_session req).
Definition redeem_pairing (req : RedeemPairingRequest) : M Server RedeemPairingResponse :=
  validated (invalid_redeem req) (redeem_pairing_session req).
Definition pairing_status (token code : option rstr) : M Server PairingStatusResponse :=
  key ← ok_or (match token with Some t => Some t | None => code end)
          (Validation (lit "Either token or code query parameter is required"));
  get_pairing_status key.

(** ** Lemmas *)

Lemma find_by_key_Ok key w s w' :
  find_by_key key w = (Ok s, w') -> w' = w /\ get_by_key key (pairings (data w)) = Some s.
Proof. unfold find_by_key. intros H. run_ok H. done. Qed.

Lemma refuse_expired_Ok s w w' :
  refuse_expired s w = (Ok tt, w') ->
  w' = mkWorld (data w) (Datatypes.S (pos w)) /\ clock_at (pos w) <= expires_at s.
Proof. unfold refuse_expired. intros H. run_ok H. split; [done|lia]. Qed.

Lemma request_key_Ok t c w key w' :
  request_key t c w = (Ok key, w') -> w' = w /\ (t = Some key \/ t = None /\ c = Some key).
Proof. unfold request_key. intros H. run_ok H. split; [done|]. destruct t; [left|right]; naive_solver. Qed.

(** What provisioning a device writes. *)
Lemma provision_Ok user email name type os osv agv w r w' :
  provision user email name type os osv agv w = (Ok r, w') ->
  exists d t,
    data w' = set_refresh_tokens (refresh_tokens (data w) ++ [t]) (set_devices (devices (data w) ++ [d]) (data w))
    /\ device r = device_response d /\ Device.user_id d = user /\ Device.name d = name
    /\ RefreshToken.user_id t = user /\ RefreshToken.revoked t = false
    /\ RefreshToken.token_hash t = Auth.hash_token (refresh_token r).
Proof.
  unfold provision, insert_device. intros H. run_ok H. cbn [data pos] in *.
  match goal with G : Token.generate_token_pair _ _ _ _ = _ |- _ =>
    apply Token.generate_token_pair_Ok in G as (D & _) end.
  repeat match goal with G : (_, _) = (_, _) |- _ => injection G as ? ? end. subst.
  match goal with G : set_refresh_tokens _ _ = data w' |- _ => rewrite <- G end.
  match goal with G : set_devices _ _ = data ?v, E : _ = data ?v |- _ => rewrite E, <- G end.
  eexists _, _. by split_and!.
Qed.

(** A key that is removed leads nowhere, and no other to its session. *)
Lemma removed_unreachable st i k s : wf st -> get_by_key k (remove i st) = Some s -> id s <> i.
Proof.
  intros W H. apply get_by_key_Some in H as [H _]; [|by apply wf_remove].
  rewrite remove_sessions in H. intros E. rewrite E, lookup_delete_eq in H. done.
Qed.

(** ** Redeeming *)

(** C18: redeeming a pairing.  A code or token is redeemed for a session that has
    it, is not past its expiry and was not rejected; afterwards no key leads to
    the session.  The answer is what the approval stored, or else, when no
    device was waiting for an approval, a new device of the user who opened the
    session and a refresh token of the same user. *)
Theorem redeem_sound req w resp w' :
  wf (pairings (data w)) -> redeem_pairing_session req w = (Ok resp, w') ->
  exists key s,
    (red_token req = Some key \/ red_token req = None /\ red_code req = Some key)
    /\ get_by_key key (pairings (data w)) = Some s
    /\ clock_at (pos w) <= expires_at s /\ status s <> lit "rejected"
    /\ (forall k s', get_by_key k (pairings (data w')) = Some s' -> id s' <> id s)
    /\ (redeem_result s = Some resp /\ devices (data w') = devices (data w)
        /\ refresh_tokens (data w') = refresh_tokens (data w)
        \/ redeem_result s = None /\ status s <> lit "pending_approval"
           /\ exists d t, devices (data w') = devices (data w) ++ [d]
                /\ device resp = device_response d
                /\ Device.user_id d = user_id s /\ Device.name d = red_name req
                /\ refresh_tokens (data w') = refresh_tokens (data w) ++ [t]
                /\ RefreshToken.user_id t = user_id s /\ RefreshToken.revoked t = false
                /\ RefreshToken.token_hash t = Auth.hash_token (refresh_token resp)).
Proof.
  intros W H. unfold redeem_pairing_session in H. apply bind_Ok in H as (key & w1 & K & H).
  apply request_key_Ok in K as [-> K]. apply bind_Ok in H as (r & w2 & C & H).
  unfold redeem_checked in C. apply bind_Ok in C as (s & w3 & F & C). apply find_by_key_Ok in F as [-> F].
  apply bind_Ok in C as ([] & w4 & X & C). apply refuse_expired_Ok in X as [-> X].
  exists key, s. split; [exact K|]. split; [exact F|]. split; [exact X|].
  destruct (bool_decide (status s = lit "rejected")) eqn:J; [by apply throw_Ok in C|].
  apply bool_decide_eq_false in J. split; [exact J|].
  destruct (redeem_result s) as [res|] eqn:R.
  - run_ok C. run_ok H. unfold change_store in Hm. run_ok Hm. cbn [data set_pairings pairings devices refresh_tokens].
    split; [intros k s'; by apply removed_unreachable|]. by left.
  - destruct (bool_decide (status s = lit "pending_approval")) eqn:P; [by apply throw_Ok in C|].
    apply bool_decide_eq_false in P. run_ok C. unfold redeem_provision in H. run_ok H.
    unfold change_store in Hm0. run_ok Hm0. apply provision_Ok in Hm as (d & t & D & ? & ? & ? & ? & ? & ?).
    cbn [data set_pairings pairings devices refresh_tokens] in *. rewrite D. cbn.
    split; [intros k s'; by apply removed_unreachable|]. right. split; [done|]. split; [done|].
    exists d, t. by split_and!.
Qed.

(** The store with another state of a session that is in it. *)
Definition with_session (s : PairingSession) (st : PairingStore) : PairingStore :=
  {| sessions := <[id s := s]> (sessions st); code_to_id := code_to_id st; token_to_id := token_to_id st |}.

Lemma update_with_session key f st s :
  wf st -> get_by_key key st = Some s -> id (f s) = id s -> update_by_key key f st = with_session (f s) st.
Proof.
  intros W G I. pose proof (update_by_key_eq key f st s W G) as E. unfold with_session. rewrite I, <- E. unfold update_by_key.
  by destruct (id_of_key key st), st.
Qed.

(** C19: approving a pairing.  The approval that answers "approved" is by the user
    who opened the session, before its expiry, of a device that claimed it.  It
    adds that device and a refresh token for that user, leaves the result in the
    session for the device to redeem, and changes nothing else on the server; a
    refusal changes the state of that session alone. *)
Theorem approve_sound user req w resp w' :
  wf (pairings (data w)) -> approve_pairing_session user req w = (Ok resp, w') ->
  exists key s,
    (app_token req = Some key \/ app_token req = None /\ app_code req = Some key)
    /\ get_by_key key (pairings (data w)) = Some s /\ user_id s = user /\ clock_at (pos w) <= expires_at s
    /\ (approved req = false /\ st_status resp = lit "rejected"
        /\ data w' = set_pairings (with_session (set_status (lit "rejected") s) (pairings (data w))) (data w)
        \/ approved req = true /\ st_status resp = lit "approved"
           /\ exists cand result d t,
                candidate_device s = Some cand /\ st_result resp = Some result
                /\ device result = device_response d /\ Device.user_id d = user
                /\ Device.name d = cand_name cand
                /\ RefreshToken.user_id t = user
                /\ RefreshToken.token_hash t = Auth.hash_token (refresh_token result)
                /\ data w' =
                   set_pairings (with_session (set_result result (set_status (lit "approved") s)) (pairings (data w)))
                     (set_refresh_tokens (refresh_tokens (data w) ++ [t])
                        (set_devices (devices (data w) ++ [d]) (data w)))).
Proof.
  intros W H. unfold approve_pairing_session in H. apply bind_Ok in H as (key & w1 & K & H).
  apply request_key_Ok in K as [-> K]. apply bind_Ok in H as (r & w2 & C & H).
  unfold approve_checked in C. apply bind_Ok in C as (s & w3 & F & C). apply find_by_key_Ok in F as [-> F].
  exists key, s. split; [exact K|]. split; [exact F|].
  destruct (user_id s =? user) eqn:E; cbn [negb] in C; [|by apply throw_Ok in C].
  apply Z.eqb_eq in E. split; [exact E|].
  apply bind_Ok in C as ([] & w4 & X & C). apply refuse_expired_Ok in X as [-> X]. split; [exact X|].
  destruct (approved req); cbn [negb] in C.
  - right. split; [done|]. apply bind_Ok in C as (x & v & Cd & C). run_ok Cd. run_ok C.
    unfold approve_provision in H. run_ok H. unfold update_session, change_store in Hm0. run_ok Hm0.
    apply provision_Ok in Hm as (d & t & D & ? & ? & ? & ? & ? & ?).
    cbn [data set_pairings pairings devices refresh_tokens st_status st_result] in *. rewrite D. cbn.
    split; [done|]. exists x, x0, d, t. split_and!; try done; [congruence..|].
    by rewrite (update_with_session _ _ _ s W F).
  - left. split; [done|]. run_ok C. run_ok H. unfold update_session, change_store in Hm. run_ok Hm.
    split; [done|]. by rewrite (update_with_session _ _ _ s W F).
Qed.

(** ** Sequences of operations *)

Inductive op :=
| Register (user : Z) (req : RegisterDeviceRequest)
| List (user : Z)
| Remove (user device_id : Z)
| Heartbeat (user device_id : Z)
| Create (user : Z) (expires_in_seconds : option Z)
| Claim (req : ClaimPairingRequest)
| Approve (user : Z) (req : ApprovePairingRequest)
| Status (token code : option rstr)
| Redeem (req : RedeemPairingRequest).

Definition run_op (o : op) : M Server unit :=
  match o with
  | Register u req => _ ← register_device_handler u req; mret tt
  | List u => _ ← list_devices u; mret tt
  | Remove u i => remove_device u i
  | Heartbeat u i => heartbeat u i
  | Create u e => _ ← create_pairing_session u e; mret tt
  | Claim req => _ ← claim_pairing req; mret tt
  | Approve u req => _ ← approve_pairing_session u req; mret tt
  | Status t c => _ ← pairing_status t c; mret tt
  | Redeem req => _ ← redeem_pairing req; mret tt
  end.

(** What holds of every session: it is in one of four states, one that waits
    for an approval was claimed, and an approved one holds its result. *)
Record good (s : PairingSession) : Prop := {
  good_status : one_of ["pending_redeem"; "pending_approval"; "approved"; "rejected"]%string (status s) = true;
  good_claimed : status s = lit "pending_approval" -> is_Some (candidate_device s);
  good_approved : status s = lit "approved" -> is_Some (redeem_result s) }.

(** No operation counts a failed attempt either. *)
Record uncounted (s : PairingSession) : Prop := {
  uncounted_good : good s;
  uncounted_attempts : failed_attempts s = 0 }.

Definition store_ok (st : PairingStore) : Prop :=
  wf st /\ forall i s, sessions st !! i = Some s -> uncounted s.

Definition store_kept (s s' : Server) : Prop := store_ok (pairings s) -> store_ok (pairings s').

#[local] Instance store_kept_preorder : PreOrder store_kept.
Proof. unfold store_kept. split; [intros s H; exact H|intros s1 s2 s3 H1 H2 H; auto]. Qed.

Lemma store_new : store_ok new.
Proof. split; [apply wf_new|]. intros i s X. cbn in X. by rewrite lookup_empty in X. Qed.

Lemma store_same s s' : pairings s' = pairings s -> store_kept s s'.
Proof. unfold store_kept. by intros ->. Qed.

Lemma change_store_kept f :
  (forall st, store_ok st -> store_ok (f st)) -> preserves store_kept (change_store f).
Proof. intros Hf. apply preserves_modify. intros s H. cbn. by apply Hf. Qed.

Lemma remove_kept i st : store_ok st -> store_ok (remove i st).
Proof.
  intros [W G]. split; [by apply wf_remove|]. intros j s. rewrite remove_sessions.
  intros [_ H]%lookup_delete_Some. by eapply G.
Qed.

Lemma update_session_kept key f st :
  keeps_identity f -> (forall s, uncounted s -> uncounted (f s)) -> store_ok st -> store_ok (update_by_key key f st).
Proof.
  intros K Hf [W G]. split; [by apply wf_update|]. intros j s H. unfold update_by_key in H.
  destruct (id_of_key key st) as [i|]; [|by eapply G]. cbn [sessions] in H.
  apply lookup_alter_Some in H as [[<- (x & H & ->)]|[_ H]]; [|by eapply G]. by eapply Hf, G.
Qed.

Lemma cleanup_kept now st : store_ok st -> store_ok (cleanup_expired now st).
Proof.
  intros [W G]. destruct (cleanup_expired_spec now st W) as [W' H]. split; [done|].
  intros i s Hs. apply H in Hs as [Hs _]. by eapply G.
Qed.

Lemma lit_ne a b : bool_decide (lit a = lit b) = false -> lit a <> lit b.
Proof. apply bool_decide_eq_false_1. Qed.

(** A new session is good, and so are the three updates. *)
Ltac good_session :=
  intros ? [[] ?]; (split; [split|]); cbn in *; eauto; try (intros ?; discriminate); intros ?;
  match goal with H : lit ?a = lit ?b |- _ => by apply (lit_ne a b) in H end.

Lemma provision_kept u e n t o v a : preserves store_kept (provision u e n t o v a).
Proof.
  unfold provision, insert_device.
  repeat first [ apply Token.preserves_generate; apply _
    | progress preserve
    | apply preserves_execute; [apply _|]; intros ? ? ? ? E _; injection E as <- <-; by apply store_same ].
Qed.

Lemma keeps_trivial f :
  (forall s, id (f s) = id s) -> (forall s, pairing_code (f s) = pairing_code s) ->
  (forall s, enrollment_token (f s) = enrollment_token s) -> keeps_identity f.
Proof. by intros ? ? ? s. Qed.

Lemma claim_kept req : preserves store_kept (claim_pairing_session req).
Proof.
  unfold claim_pairing_session, request_key, find_by_key, refuse_expired, update_session.
  repeat first
    [ apply change_store_kept; intros st; apply remove_kept
    | apply change_store_kept; intros st; apply update_session_kept; [apply keeps_trivial; done|good_session]
    | progress preserve ].
Qed.

(** Every operation but the opening of a session, whatever its outcome. *)
Lemma op_kept o : (forall u e, o <> Create u e) -> preserves store_kept (run_op o).
Proof.
  intros N. destruct o as [u req|u|u i|u i|u e|req|u req|t c|req]; cbn [run_op]; try (by destruct (N u e));
    unfold register_device_handler, register_device, insert_device, list_devices, remove_device, heartbeat,
      claim_pairing, approve_pairing_session, approve_checked, approve_provision,
      pairing_status, get_pairing_status, redeem_pairing, redeem_pairing_session, redeem_checked,
      redeem_provision, validated, request_key, find_by_key, refuse_expired, update_session;
    cbv zeta;
    repeat first
      [ apply provision_kept | apply claim_kept
      | apply change_store_kept; intros st; apply remove_kept
      | apply change_store_kept; intros st; apply update_session_kept;
          [apply keeps_trivial; done|good_session]
      | progress preserve
      | apply preserves_execute; [apply _|]; intros ? ? ? ? E _; injection E as <- <-; by apply store_same ].
Qed.

(** The identifier and the token drawn by a new session are not those of a
    pending one; create_pairing_session draws them at its fifth and its fourth
    interaction. *)
Definition fresh_session (w : World Server) : Prop :=
  sessions (pairings (data w)) !! uuid_at (4 + pos w) = None
  /\ token_to_id (pairings (data w)) !! unhyphenate (uuid_to_string (uuid_at (3 + pos w))) = None.

Lemma cleanup_absent now st i t :
  wf st -> sessions st !! i = None /\ token_to_id st !! t = None ->
  sessions (cleanup_expired now st) !! i = None /\ token_to_id (cleanup_expired now st) !! t = None.
Proof.
  intros W [Hi Ht]. destruct (cleanup_expired_spec now st W) as [W' H]. split.
  - destruct (sessions (cleanup_expired now st) !! i) as [s|] eqn:E; [|done].
    apply H in E as [E _]. congruence.
  - destruct (token_to_id (cleanup_expired now st) !! t) as [j|] eqn:E; [|done].
    apply (wf_token _ W') in E as (s & E & Et). apply H in E as [E _].
    apply (wf_reached _ W) in E. congruence.
Qed.

Lemma create_kept u e w o w' :
  fresh_session w -> create_pairing_session u e w = (o, w') -> store_kept (data w) (data w').
Proof.
  intros F H. unfold create_pairing_session, mbind, M_bind, map_err, fetch_one, statement in H.
  destruct (db_fault (pos w)); [by injection H as <- <-|].
  destruct (option_map _ _) as [mail|]; [|by injection H as <- <-].
  unfold utc_now, random_code, new_v4, interact in H. cbn [data pos] in H.
  destruct (add_seconds _ _) as [expires|]; [|by injection H as <- <-].
  unfold or_panic, mret, M_ret, change_store, modify in H. cbn [data pos] in H.
  injection H as <- <-. intros K. cbn [data set_pairings pairings].
  apply cleanup_kept with (now := clock_at (5 + pos w)) in K as K'.
  destruct (cleanup_absent (clock_at (5 + pos w)) _ _ _ (proj1 K) F) as [Fi Ft].
  destruct K' as [W G]. split; [by apply wf_insert|].
  intros i s. cbn [sessions insert]. intros [[<- <-]|[_ Hs]]%lookup_insert_Some; [|by eapply G].
  split; cbn; try done; intros X; by apply lit_ne in X.
Qed.

Inductive reach : World Server -> World Server -> Prop :=
| reach_refl w : reach w w
| reach_step o r w1 w2 w3 :
    reach w1 w2 -> fresh_session w2 -> run_op o w2 = (r, w3) -> reach w1 w3.

Lemma reach_ok w w' : reach w w' -> pairings (data w) = new -> store_ok (pairings (data w')).
Proof.
  intros R E. induction R as [w|o r w1 w2 w3 R IH F H].
  - rewrite E. apply store_new.
  - specialize (IH E). destruct o as [u req|u|u i|u i|u e|req|u req|t c|req]; cycle 4.
    { cbn [run_op] in H. apply bind_inv in H as [(a & w4 & H & X)|(o' & H)].
      - injection X as _ <-. by apply create_kept in H; auto.
      - by apply create_kept in H; auto. }
    all: by apply (fun N => op_kept _ N _ _ _ H) in IH.
Qed.

(** C17: the pairing sessions.  From a server without sessions, any sequence of
    operations of any callers keeps the indexes in step with the sessions, so
    that a code or a token finds its own session, and every session in one of its
    four states, with its candidate when it waits for an approval and its result
    when it is approved. *)
Theorem pairing_invariant w w' :
  reach w w' -> pairings (data w) = new ->
  wf (pairings (data w'))
  /\ forall key s, get_by_key key (pairings (data w')) = Some s ->
       (pairing_code s = key \/ enrollment_token s = key) /\ good s.
Proof.
  intros R E. destruct (reach_ok _ _ R E) as [W G]. split; [done|]. intros key s H. apply get_by_key_Some in H as [Hs ?]; [|done].
  split; [done|]. by eapply uncounted_good, G.
Qed.

(** the limit on guessing.  No operation ever counts a failed attempt, so the
    comparison with five of [claim_pairing_session] is never true. *)
Theorem attempts_not_counted w w' :
  reach w w' -> pairings (data w) = new ->
  forall key s, get_by_key key (pairings (data w')) = Some s -> failed_attempts s = 0.
Proof.
  intros R E key s H. destruct (reach_ok _ _ R E) as [W G]. apply get_by_key_Some in H as [Hs _]; [|done].
  by eapply uncounted_attempts, G.
Qed.

(** ** Isolation *)

Definition token_of (u : Z) (t : RefreshToken.row) : bool := RefreshToken.user_id t =? u.

(** The devices and the refresh tokens of everyone but [u] are as they were. *)
Definition others_same (u : Z) (s s' : Server) : Prop :=
  forall v, v <> u ->
    select (device_of v) (devices s') = select (device_of v) (devices s)
    /\ select (token_of v) (refresh_tokens s') = select (token_of v) (refresh_tokens s).

#[local] Instance others_same_preorder u : PreOrder (others_same u).
Proof.
  split; [by intros s v|]. intros s1 s2 s3 H1 H2 v N.
  destruct (H1 v N) as [<- <-]. exact (H2 v N).
Qed.

Lemma change_store_others u f : preserves (others_same u) (change_store f).
Proof. apply preserves_modify. by intros s v. Qed.

Lemma insert_others u (s s' : Server) d :
  Device.user_id d = u -> s' = set_devices (insert_row d (devices s)) s -> others_same u s s'.
Proof.
  intros U -> v N. cbn. split; [|done]. rewrite select_insert. unfold device_of at 2. rewrite U.
  destruct (Z.eqb_spec u v) as [->|_]; [done|]. apply app_nil_r.
Qed.

Lemma insert_token_others u (s s' : Server) t :
  RefreshToken.user_id t = u -> s' = set_refresh_tokens (insert_row t (refresh_tokens s)) s -> others_same u s s'.
Proof.
  intros U -> v N. cbn. split; [done|]. rewrite select_insert. unfold token_of at 2. rewrite U.
  destruct (Z.eqb_spec u v) as [->|_]; [done|]. apply app_nil_r.
Qed.

Lemma provision_others u e n t o v a : preserves (others_same u) (provision u e n t o v a).
Proof.
  unfold provision, insert_device.
  repeat first [ apply Token.preserves_generate; apply _
    | progress preserve
    | apply preserves_execute; [apply _|]; intros ? ? ? ? E _; injection E as <- <-;
      first [ eapply insert_others; [|reflexivity]; reflexivity
            | eapply insert_token_others; [|reflexivity]; reflexivity ] ].
Qed.

Lemma own_rows u i v d : v <> u -> device_is i d && device_of u d = true -> device_of v d = false.
Proof.
  intros N E. apply andb_true_iff in E as [_ E]. unfold device_of in *. apply Z.eqb_eq in E.
  apply Z.eqb_neq. lia.
Qed.

Lemma remove_device_others u i : preserves (others_same u) (remove_device u i).
Proof.
  unfold remove_device. repeat first [ progress preserve
    | apply preserves_execute; [apply _|]; intros ? s ? ? E _; injection E as <- <- ].
  intros v N. cbn. split; [|done]. apply select_delete_disjoint. intros d _ E. by eapply own_rows.
Qed.

Lemma heartbeat_others u i : preserves (others_same u) (heartbeat u i).
Proof.
  unfold heartbeat. repeat first [ progress preserve
    | apply preserves_execute; [apply _|]; intros ? s ? ? E _; injection E as <- <- ].
  intros v N. cbn. split; [|done]. apply select_update_disjoint. intros d _ E.
  apply (own_rows u i v) in E; [|done]. by split.
Qed.

(** For whom an operation acts: its user, or the owner of the session its key
    leads to. *)
Definition acts_for (s : Server) (o : op) (u : Z) : Prop :=
  match o with
  | Register v _ | List v | Remove v _ | Heartbeat v _ | Create v _ | Approve v _ => u = v
  | Claim _ | Status _ _ => False
  | Redeem req => exists key x, get_by_key key (pairings s) = Some x /\ user_id x = u
                    /\ (red_token req = Some key \/ red_code req = Some key)
  end.

(** Steps that write neither table. *)
Ltac memory_only :=
  repeat first [ apply change_store_others | progress preserve ].

Lemma approve_others u req : preserves (others_same u) (approve_pairing_session u req).
Proof.
  intros w o w' H. unfold approve_pairing_session in H.
  apply bind_inv in H as [(key & w1 & K & H)|(o' & K)].
  2: { revert K. apply (preserves_ok_or (others_same u)). }
  apply request_key_Ok in K as [-> _].
  apply bind_inv in H as [(r & w2 & C & H)|(o' & C)].
  2: { revert C. unfold approve_checked, find_by_key, refuse_expired, update_session.
       assert (preserves (others_same u) (approve_checked u key (approved req))) as P; [|apply P].
       unfold approve_checked, find_by_key, refuse_expired, update_session. memory_only. }
  assert (E : others_same u (data w) (data w2)).
  { assert (preserves (others_same u) (approve_checked u key (approved req))) as P; [|by apply (P _ _ _ C)].
    unfold approve_checked, find_by_key, refuse_expired, update_session. memory_only. }
  transitivity (data w2); [exact E|]. destruct r as [a|[s c]]; [by injection H as _ <-|].
  assert (U : user_id s = u).
  { unfold approve_checked in C. apply bind_Ok in C as (x & w3 & F & C).
    destruct (user_id x =? u) eqn:X; cbn [negb] in C; [|by apply throw_Ok in C]. apply Z.eqb_eq in X.
    run_ok C; try done. by simplify_eq. }
  assert (preserves (others_same u) (approve_provision key s c)) as P; [|by apply (P _ _ _ H)].
  unfold approve_provision, update_session. apply preserves_bind; [apply _|rewrite U; apply provision_others|].
  intros x. memory_only.
Qed.

Lemma redeem_others req w o w' :
  redeem_pairing_session req w = (o, w') ->
  (forall v, select (device_of v) (devices (data w')) = select (device_of v) (devices (data w))
     /\ select (token_of v) (refresh_tokens (data w')) = select (token_of v) (refresh_tokens (data w)))
  \/ exists u, acts_for (data w) (Redeem req) u /\ others_same u (data w) (data w').
Proof.
  intros H. unfold redeem_pairing_session in H.
  apply bind_inv in H as [(key & w1 & K & H)|(o' & K)].
  2: { left. unfold request_key, ok_or in K. repeat case_match; unfold mret, M_ret, throw in K; by simplify_eq. }
  apply request_key_Ok in K as [-> K].
  assert (P : forall u, preserves (others_same u) (redeem_checked key)).
  { intros u. unfold redeem_checked, find_by_key, refuse_expired. memory_only. }
  assert (Q : forall v o1 w1, redeem_checked key w = (o1, w1) ->
    select (device_of v) (devices (data w1)) = select (device_of v) (devices (data w))
    /\ select (token_of v) (refresh_tokens (data w1)) = select (token_of v) (refresh_tokens (data w))).
  { intros v o1 w1 E. apply (P (v + 1) _ _ _ E). lia. }
  apply bind_inv in H as [(r & w2 & C & H)|(o' & C)]; [|left; intros v; by eapply Q].
  destruct r as [a|s]; [injection H as _ <-; left; intros v; by eapply Q|].
  right. exists (user_id s). split.
  - unfold redeem_checked in C. apply bind_Ok in C as (x & w3 & F & C). apply find_by_key_Ok in F as [-> F].
    exists key, x. split; [done|]. split; [|tauto]. run_ok C; by simplify_eq.
  - transitivity (data w2); [by apply (P _ _ _ _ C)|].
    assert (preserves (others_same (user_id s)) (redeem_provision req s)) as R; [|by apply (R _ _ _ H)].
    unfold redeem_provision. apply preserves_bind; [apply _|apply provision_others|]. intros x. memory_only.
Qed.

Lemma op_others o u w r w' :
  (forall req, o <> Redeem req) -> acts_for (data w) o u \/ (forall v, ~ acts_for (data w) o v) ->
  run_op o w = (r, w') -> others_same u (data w) (data w').
Proof.
  intros N A H. assert (preserves (others_same u) (run_op o)) as P; [|by apply (P _ _ _ H)].
  destruct o as [x req|x|x i|x i|x e|req|x req|t c|req]; cbn [run_op acts_for] in *;
    try (by destruct (N req)); try (destruct A as [<-|A]; [|by destruct (A x)]).
  - unfold register_device_handler, validated, register_device, insert_device.
    repeat first [ progress preserve
      | apply preserves_execute; [apply _|]; intros ? ? ? ? E _; injection E as <- <-;
        eapply insert_others; [|reflexivity]; reflexivity ].
  - unfold list_devices. preserve.
  - apply remove_device_others.
  - apply heartbeat_others.
  - unfold create_pairing_session. memory_only.
  - unfold claim_pairing, claim_pairing_session, validated, request_key, find_by_key, refuse_expired, update_session.
    memory_only.
  - apply preserves_bind; [apply _|apply approve_others|]. intros y. preserve.
  - unfold pairing_status, get_pairing_status, find_by_key. memory_only.
Qed.

(** devices are the user's.  Whatever an operation is given and whatever
    fails, the devices and the refresh tokens of everyone it does not act for
    are as they were; a redemption acts for the user who opened the session its
    code or token leads to, and claims and status requests for no one. *)
Theorem devices_isolated o w r w' :
  run_op o w = (r, w') -> forall v, ~ acts_for (data w) o v ->
  select (device_of v) (devices (data w')) = select (device_of v) (devices (data w))
  /\ select (token_of v) (refresh_tokens (data w')) = select (token_of v) (refresh_tokens (data w)).
Proof.
  intros H v N. destruct o as [u req|u|u i|u i|u e|req|u req|t c|req];
    try (eapply (op_others _ u) in H; [by apply H; intros ->; destruct N|done|by left]).
  - eapply (op_others _ (v + 1)) in H; [apply H; lia|done|right; by intros ? ?].
  - eapply (op_others _ (v + 1)) in H; [apply H; lia|done|right; by intros ? ?].
  - cbn [run_op] in H. unfold redeem_pairing, validated in H.
    destruct (nonempty _); [injection H as _ <-; done|].
    assert (exists o', redeem_pairing_session req w = (o', w')) as (o' & E).
    { apply bind_inv in H as [(a & w1 & E & X)|H]; [|done]. injection X as _ <-. eauto. }
    destruct (redeem_others _ _ _ _ E) as [K|(u & A & K)]; [apply K|]. apply K. by intros ->.
Qed.
End Devices.

(** ** Concrete runs *)

(** Bob opens a session; its code is 000002. *)
Abbreviation demo_create := (create_pairing_session (O := toy_env []) (CH := plain_chrono) (UT := plain_uuid)
  (fun _ => None) 2 None (mkWorld Auth.demo_server 0)).
Definition demo_open : World Server := snd demo_create.
Definition demo_code : rstr := lit "000002".

Definition demo_request (name : string) : RedeemPairingRequest :=
  {| red_code := Some demo_code; red_token := None; red_name := lit name; red_type := lit "tv";
     red_os := lit "linux"; red_os_version := None; red_agent_version := None; red_fingerprint := None |}.

Definition demo_redeem (w : World Server) :=
  redeem_pairing_session (O := toy_env []) (CH := plain_chrono) (JW := Token.toy_jwt) (S2 := toy_sha256)
    (HX := plain_hex) Token.toy_config (demo_request "tv") w.

Definition demo_claim (name : string) (w : World Server) : World Server :=
  snd (claim_pairing_session (O := toy_env [])
    {| clm_code := Some demo_code; clm_token := None; clm_name := lit name; clm_type := lit "phone";
       clm_os := lit "android"; clm_os_version := None; clm_agent_version := None; clm_fingerprint := None |} w).

Definition demo_approval (ok : bool) : ApprovePairingRequest :=
  {| app_code := Some demo_code; app_token := None; approved := ok |}.

Definition demo_approve (ok : bool) (w : World Server) :=
  approve_pairing_session (O := toy_env []) (CH := plain_chrono) (JW := Token.toy_jwt) (S2 := toy_sha256)
    (HX := plain_hex) Token.toy_config 2 (demo_approval ok) w.

Definition succeeds {A} (r : outcome A * World Server) : bool :=
  match fst r with Ok _ => true | _ => false end.

Definition names (w : World Server) : list (Z * rstr) :=
  map (fun d => (Device.user_id d, Device.name d)) (devices (data w)).

(** Whether the status of the session shows tokens to whoever asks. *)
Definition shows_tokens (w : World Server) : bool :=
  match fst (get_pairing_status (O := toy_env []) demo_code w) with
  | Ok r => bool_decide (is_Some (option_map access_token (st_result r)))
  | _ => false
  end.

(** what the pairing protocol leaves open.  A code is redeemed with no
    approval at all, as long as no device claimed it; a rejected session can be
    approved afterwards; an approved one can be approved again, which adds a
    second device; and the status of an approved session shows its tokens to
    anyone with the code, any number of times. *)
Theorem pairing_gaps :
  (succeeds (demo_redeem demo_open) = true /\ names (snd (demo_redeem demo_open)) = [(2, lit "tv")])
  /\ (let claimed := demo_claim "phone" demo_open in
      succeeds (demo_redeem claimed) = false
      /\ (let rejected := snd (demo_approve false claimed) in
          succeeds (demo_redeem rejected) = false /\ succeeds (demo_approve true rejected) = true)
      /\ (let once := snd (demo_approve true claimed) in
          names once = [(2, lit "phone")]
          /\ names (snd (demo_approve true once)) = [(2, lit "phone"); (2, lit "phone")]
          /\ shows_tokens claimed = false /\ shows_tokens once = true)).
Proof. cbv zeta. split_and!; vm_compute; reflexivity. Qed.

(** Two redemptions of one code: the first locks of both before the writes of
    both. *)
Definition interleaved (w : World Server) : list (Z * rstr) :=
  match redeem_checked (O := toy_env []) demo_code w with
  | (Ok (inr s1), w1) =>
      match redeem_checked (O := toy_env []) demo_code w1 with
      | (Ok (inr s2), w2) =>
          let provide n s w := snd (redeem_provision (O := toy_env []) (CH := plain_chrono)
            (JW := Token.toy_jwt) (S2 := toy_sha256) (HX := plain_hex) Token.toy_config (demo_request n) s w) in
          names (provide "eve"%string s2 (provide "tv"%string s1 w2))
      | _ => []
      end
  | _ => []
  end.

(** a code is not single-use between concurrent requests.  One after the
    other, the second redemption of a code fails; interleaved, the lock being
    released for the writes, both add a device to the account. *)
Theorem redeem_race :
  (let w1 := snd (demo_redeem demo_open) in
   succeeds (demo_redeem demo_open) = true /\ succeeds (demo_redeem w1) = false)
  /\ interleaved demo_open = [(2, lit "tv"); (2, lit "eve")].
Proof. cbv zeta. split_and!; vm_compute; reflexivity. Qed.

Lemma demo_reach : reach (O := toy_env []) (CH := plain_chrono) (JW := Token.toy_jwt) (S2 := toy_sha256)
  (HX := plain_hex) (UT := plain_uuid) Token.toy_config (fun _ => None) (fun _ => [])
  (mkWorld Auth.demo_server 0)
  (snd (run_op (O := toy_env []) (CH := plain_chrono) (JW := Token.toy_jwt) (S2 := toy_sha256)
    (HX := plain_hex) (UT := plain_uuid) Token.toy_config (fun _ => None) (fun _ => [])
    (Create 2 None) (mkWorld Auth.demo_server 0))).
Proof.
  eapply reach_step; [apply reach_refl| |apply surjective_pairing]. split; vm_compute; reflexivity.
Qed.

Lemma pairing_invariant_witness : wf (pairings (data (snd
  (run_op (O := toy_env []) (CH := plain_chrono) (JW := Token.toy_jwt) (S2 := toy_sha256)
    (HX := plain_hex) (UT := plain_uuid) Token.toy_config (fun _ => None) (fun _ => [])
    (Create 2 None) (mkWorld Auth.demo_server 0))))).
Proof. exact (proj1 (pairing_invariant _ _ _ _ _ demo_reach eq_refl)). Defined.

Lemma demo_open_ok : store_ok (pairings (data demo_open)).
Proof.
  refine (create_kept (O := toy_env []) (CH := plain_chrono) (UT := plain_uuid) (fun _ => None) 2 None
    (mkWorld Auth.demo_server 0) _ _ _ (surjective_pairing _) store_new). split; vm_compute; reflexivity.
Qed.

Lemma demo_open_wf : wf (pairings (data demo_open)).
Proof. exact (proj1 demo_open_ok). Qed.

Abbreviation demo_redemption := (redeem_pairing_session (O := toy_env []) (CH := plain_chrono)
  (JW := Token.toy_jwt) (S2 := toy_sha256) (HX := plain_hex) Token.toy_config (demo_request "tv") demo_open).

Lemma demo_redeemed : exists r, demo_redemption = (Ok r, snd demo_redemption).
Proof.
  destruct (fst demo_redemption) as [r|e| |] eqn:E; [|vm_compute in E; discriminate E..].
  exists r. by apply run_pair.
Qed.

Lemma redeem_witness : exists r, demo_redemption = (Ok r, snd demo_redemption)
  /\ exists s, get_by_key demo_code (pairings (data demo_open)) = Some s /\ status s <> lit "rejected".
Proof.
  destruct demo_redeemed as [r E]. exists r. split; [exact E|].
  destruct (redeem_sound (O := toy_env []) (CH := plain_chrono) (JW := Token.toy_jwt) (S2 := toy_sha256)
    (HX := plain_hex) Token.toy_config (demo_request "tv") demo_open r _ demo_open_wf E)
    as (key & s & [K|[_ K]] & G & _ & N & _); [discriminate K|]. injection K as <-.
  exists s. split; [exact G|exact N].
Defined.

Abbreviation demo_claimed := (demo_claim "phone" demo_open).
Abbreviation demo_approval_run := (approve_pairing_session (O := toy_env []) (CH := plain_chrono)
  (JW := Token.toy_jwt) (S2 := toy_sha256) (HX := plain_hex) Token.toy_config 2 (demo_approval true) demo_claimed).

Lemma demo_claimed_wf : wf (pairings (data demo_claimed)).
Proof. exact (proj1 (claim_kept (O := toy_env []) _ _ _ _ (surjective_pairing _) demo_open_ok)). Qed.

Lemma demo_approved : exists r, demo_approval_run = (Ok r, snd demo_approval_run).
Proof.
  destruct (fst demo_approval_run) as [r|e| |] eqn:E; [|vm_compute in E; discriminate E..].
  exists r. by apply run_pair.
Qed.

Lemma approve_witness : exists r, demo_approval_run = (Ok r, snd demo_approval_run)
  /\ exists s, get_by_key demo_code (pairings (data demo_claimed)) = Some s /\ user_id s = 2.
Proof.
  destruct demo_approved as [r E]. exists r. split; [exact E|].
  destruct (approve_sound (O := toy_env []) (CH := plain_chrono) (JW := Token.toy_jwt) (S2 := toy_sha256)
    (HX := plain_hex) Token.toy_config 2 (demo_approval true) demo_claimed r _ demo_claimed_wf E)
    as (key & s & [K|[_ K]] & G & U & _); [discriminate K|]. injection K as <-.
  exists s. split; [exact G|exact U].
Defined.

Lemma cleanup_witness : wf (cleanup_expired (2 ^ 60) (pairings (data demo_open))).
Proof. exact (proj1 (cleanup_expired_spec (2 ^ 60) _ demo_open_wf)). Defined.

Lemma devices_isolated_witness :
  select (device_of 1) (devices (data (snd (run_op (O := toy_env []) (CH := plain_chrono) (JW := Token.toy_jwt)
    (S2 := toy_sha256) (HX := plain_hex) (UT := plain_uuid) Token.toy_config (fun _ => None) (fun _ => [])
    (Remove 2 7) demo_open)))) = select (device_of 1) (devices (data demo_open)).
Proof.
  refine (proj1 (devices_isolated (O := toy_env []) (CH := plain_chrono) (JW := Token.toy_jwt)
    (S2 := toy_sha256) (HX := plain_hex) (UT := plain_uuid) Token.toy_config (fun _ => None) (fun _ => [])
    (Remove 2 7) demo_open _ _ (surjective_pairing _) 1 _)).
  intros H. cbn in H. discriminate H.
Defined.
End Devices.
