(* ===== verification/Backup.v ===== *)
(** * Backup: backups, their verification and their restoration

    backend/crates/backup/src/service.rs: a backup copies the files of a user and
    the rows that describe them into a directory of its own, with a manifest;
    verification compares the copies with the manifest, and a restoration writes
    files and rows back. *)

From S2P Require Import Prelude Text Effects Externals Fs Schema Account Storage Files Tree Quota Sharing Versions.

Module Backups.
Import Files Fs.

(** ** The manifest *)

Record FileEntryBackupRecord := {
  fe_id : Z; fe_parent : option Z; fe_name : rstr; fe_type : rstr; fe_mime : option rstr; fe_size : Z;
  fe_hash : option rstr; fe_path : option rstr; fe_trashed : bool }.

Record VersionBackupRecord := {
  ver_id : Z; ver_file : Z; ver_number : Z; ver_size : Z; ver_hash : option rstr; ver_path : option rstr;
  ver_created_by : Z }.

Record ShareLinkBackupRecord := {
  sl_id : Z; sl_file : Z; sl_token : rstr; sl_permission : rstr; sl_password : option rstr;
  sl_expires : option Z; sl_max : option Z; sl_count : Z; sl_active : bool }.

(** An element of "files" as it is written. *)
Record ManifestFile := { mf_id : Z; mf_name : rstr; mf_path : rstr; mf_size : Z; mf_hash : rstr }.

Record Manifest := {
  backup_id : Z; owner : Z; manifest_name : rstr; manifest_created : Z; manifest_count : Z;
  files_copied : Z; total_size : Z; files : list ManifestFile;
  entries : list FileEntryBackupRecord; versions : list VersionBackupRecord;
  shares : list ShareLinkBackupRecord }.

(** An element of "files" as it is read: the fields that are strings. *)
Record FileRecord := { fr_id : option rstr; fr_path : option rstr; fr_hash : option rstr }.

(** What the code reads of a parsed manifest: each part, when it is there and
    has its type. *)
Record ManifestView := {
  v_files : option (list FileRecord); v_entries : option (list FileEntryBackupRecord);
  v_versions : option (list VersionBackupRecord); v_shares : option (list ShareLinkBackupRecord) }.

Definition file_record `{UuidText} (f : ManifestFile) : FileRecord :=
  {| fr_id := Some (uuid_to_string (mf_id f)); fr_path := Some (mf_path f); fr_hash := Some (mf_hash f) |}.

Definition view_of `{UuidText} (m : Manifest) : ManifestView :=
  {| v_files := Some (map file_record (files m)); v_entries := Some (entries m);
     v_versions := Some (versions m); v_shares := Some (shares m) |}.

(** serde_json and the derived Serialize and Deserialize: the bytes of a
    manifest, which are UTF-8, read back as what was written. *)
Class ManifestText `{UuidText} := {
  manifest_print : Manifest -> bytes;
  utf8 : bytes -> bool;
  manifest_read : bytes -> rstr + ManifestView;
  manifest_utf8 : forall m, utf8 (manifest_print m) = true;
  manifest_roundtrip : forall m, manifest_read (manifest_print m) = inr (view_of m) }.

(** ** Requests and answers *)

Record CreateBackupRequest := { backup_name : rstr }.
Record CreateScheduleRequest := { schedule_name : rstr; cron_expression : rstr }.

Record RestoreAnswer := {
  restore_status : rstr; restored_id : Z; files_restored : Z; entries_restored : Z;
  checksums_verified : Z; corruptions_detected : Z; integrity_verified : bool }.

Record VerifyAnswer := {
  verified_id : Z; healthy : bool; manifest_exists : bool; database_dump_exists : bool;
  files_present : Z; files_missing : Z; checksum_matches : Z; checksum_mismatches : Z;
  verify_status : rstr }.

Definition backup_of (u : Z) (b : Backup.row) : bool := Backup.user_id b =? u.
Definition backup_is (i : Z) (b : Backup.row) : bool := Backup.id b =? i.
Definition schedule_of (u : Z) (r : BackupSchedule.row) : bool := BackupSchedule.user_id r =? u.

(** ORDER BY created_at DESC *)
Definition newest_backup (a b : Backup.row) : bool := Backup.created_at b <=? Backup.created_at a.
Definition newest_schedule (a b : BackupSchedule.row) : bool :=
  BackupSchedule.created_at b <=? BackupSchedule.created_at a.

Definition entry_record (f : FileEntry.row) : FileEntryBackupRecord :=
  {| fe_id := FileEntry.id f; fe_parent := FileEntry.parent_id f; fe_name := FileEntry.name f;
     fe_type := FileEntry.entry_type f; fe_mime := FileEntry.mime_type f; fe_size := FileEntry.size_bytes f;
     fe_hash := FileEntry.sha256_hash f; fe_path := FileEntry.storage_path f;
     fe_trashed := FileEntry.is_trashed f |}.

Definition version_record (v : FileVersion.row) : VersionBackupRecord :=
  {| ver_id := FileVersion.id v; ver_file := FileVersion.file_entry_id v;
     ver_number := FileVersion.version_number v; ver_size := FileVersion.size_bytes v;
     ver_hash := FileVersion.sha256_hash v; ver_path := Some (FileVersion.storage_path v);
     ver_created_by := FileVersion.created_by v |}.

Definition share_record (l : ShareLink.row) : ShareLinkBackupRecord :=
  {| sl_id := ShareLink.id l; sl_file := ShareLink.file_entry_id l; sl_token := ShareLink.token l;
     sl_permission := ShareLink.permission l; sl_password := ShareLink.password_hash l;
     sl_expires := ShareLink.expires_at l; sl_max := ShareLink.max_downloads l;
     sl_count := ShareLink.download_count l; sl_active := ShareLink.is_active l |}.

(** A file that is copied: not a folder, not in the trash. *)
Definition is_live_file (e : FileEntryBackupRecord) : bool :=
  bool_decide (fe_type e = lit "file") && negb (fe_trashed e).

(** ** The writes of a restoration *)

(** INSERT ... ON CONFLICT (id) DO UPDATE *)
Definition upsert_entry (user_id now : Z) (e : FileEntryBackupRecord) (s : Server) : Server :=
  if exists_row (has_id (fe_id e)) (file_entries s) then
    update_files (has_id (fe_id e)) (fun f =>
      FileEntry.set_updated_at now (FileEntry.set_is_trashed (fe_trashed e)
        (FileEntry.set_storage_path (fe_path e) (FileEntry.set_sha256_hash (fe_hash e)
          (FileEntry.set_size_bytes (fe_size e) (FileEntry.set_name (fe_name e)
            (FileEntry.set_parent_id (fe_parent e) f))))))) s
  else insert_file
    {| FileEntry.id := fe_id e; FileEntry.user_id := user_id; FileEntry.parent_id := fe_parent e;
       FileEntry.name := fe_name e; FileEntry.entry_type := fe_type e; FileEntry.mime_type := fe_mime e;
       FileEntry.size_bytes := fe_size e; FileEntry.sha256_hash := fe_hash e;
       FileEntry.storage_path := fe_path e; FileEntry.is_trashed := fe_trashed e;
       FileEntry.trashed_at := None; FileEntry.created_at := now; FileEntry.updated_at := now |} s.

(** INSERT ... ON CONFLICT (id) DO NOTHING *)
Definition insert_version (now : Z) (v : VersionBackupRecord) (path : rstr) (s : Server) : Server :=
  if exists_row (fun x => FileVersion.id x =? ver_id v) (file_versions s) then s
  else set_file_versions (insert_row
    {| FileVersion.id := ver_id v; FileVersion.file_entry_id := ver_file v;
       FileVersion.version_number := ver_number v; FileVersion.size_bytes := ver_size v;
       FileVersion.sha256_hash := ver_hash v; FileVersion.storage_path := path;
       FileVersion.created_by := ver_created_by v; FileVersion.created_at := now |} (file_versions s)) s.

Definition insert_share (user_id now : Z) (l : ShareLinkBackupRecord) (s : Server) : Server :=
  if exists_row (fun x => ShareLink.id x =? sl_id l) (share_links s) then s
  else set_share_links (insert_row
    {| ShareLink.id := sl_id l; ShareLink.user_id := user_id; ShareLink.file_entry_id := sl_file l;
       ShareLink.token := sl_token l; ShareLink.permission := sl_permission l;
       ShareLink.password_hash := sl_password l; ShareLink.expires_at := sl_expires l;
       ShareLink.max_downloads := sl_max l; ShareLink.download_count := sl_count l;
       ShareLink.is_active := sl_active l; ShareLink.created_at := now; ShareLink.updated_at := now |}
    (share_links s)) s.

(** [base_path] of every function of the service: what PCOS_STORAGE__BASE_PATH
    names, or /data/pcos/storage.  A slash follows it wherever it is used, so an
    empty text is the root. *)
Definition backup_base (env_base : option rstr) (cwd : path) : path :=
  let s := default (lit "/data/pcos/storage") env_base ++ lit "/" in
  if starts_with (lit "/") s then Storage.components s else cwd ++ Storage.components s.

Section Backups.
Context {O : Oracle} {S2 : Sha256} {HX : Hex} {UT : UuidText} {MT : ManifestText}.
(** The directory [backup_base] gives; PCOS_DATABASE__URL, and what pg_dump does
    to the disk when it writes a dump to a path. *)
Context (base : path) (database_url : option rstr) (pg_dump : rstr -> path -> fs -> fs).

(** [format!("{}/{}", base_path, rel)] *)
Definition at_base (rel : rstr) : path := base ++ Storage.components rel.

Definition backup_path (user_id backup_id : Z) : rstr :=
  lit "backups/" ++ uuid_to_string user_id ++ lit "/" ++ uuid_to_string backup_id.

Definition payloads (dir : path) : path := dir ++ [lit "payloads"].
Definition payload (dir : path) (fid : rstr) : path := payloads dir ++ Storage.components fid.
Definition version_payloads (dir : path) : path := dir ++ [lit "payloads"; lit "versions"].
Definition version_payload (dir : path) (vid : Z) : path := version_payloads dir ++ [uuid_to_string vid].
Definition manifest_path (dir : path) : path := dir ++ [lit "manifest.json"].
Definition dump_path (dir : path) : path := dir ++ [lit "database.sql"].

Definition read_disk (p : path) : M Server bytes := Storage.fs_read (fun f => read f p).
Definition write_disk (p : path) (b : bytes) : M Server unit := Storage.fs_op (fun f => write f p b).

(** ** Creating *)

(** The loop over the entries: the files copied, in order. *)
Fixpoint copy_files (dir : path) (l : list FileEntryBackupRecord) : M Server (list ManifestFile) :=
  match l with
  | [] => mret []
  | e :: r =>
      here ← (if is_live_file e then
          match fe_path e with
          | Some rel =>
              data ← attempt (read_disk (at_base rel));
              match data with
              | Some data =>
                  ok ← attempt (write_disk (payloads dir ++ [uuid_to_string (fe_id e)]) data);
                  mret (match ok with
                        | Some _ => [{| mf_id := fe_id e; mf_name := fe_name e; mf_path := rel;
                                        mf_size := Z.of_nat (length data); mf_hash := Storage.digest data |}]
                        | None => []
                        end)
              | None => mret []
              end
          | None => mret []
          end
        else mret []);
      rest ← copy_files dir r;
      mret (here ++ rest)
  end.

Fixpoint copy_versions (dir : path) (l : list VersionBackupRecord) : M Server unit :=
  match l with
  | [] => mret tt
  | v :: r =>
      _ ← match ver_path v with
          | Some rel =>
              data ← attempt (read_disk (at_base rel));
              match data with
              | Some data => discard (write_disk (version_payload dir (ver_id v)) data)
              | None => mret tt
              end
          | None => mret tt
          end;
      copy_versions dir r
  end.

Definition counts_as_file (u : Z) (f : FileEntry.row) : bool :=
  owned_by u f && Account.is_file f && negb (FileEntry.is_trashed f).

Definition create_backup (user_id : Z) (req : CreateBackupRequest) : M Server Backup.row :=
  backup_id ← new_v4;
  let storage_path := backup_path user_id backup_id in
  file_count ← unwrap_or (query (fun s => count_rows (counts_as_file user_id) (file_entries s))) 0;
  total_size ← unwrap_or (Account.sum_query (counts_as_file user_id)) 0;
  let dir := at_base storage_path in
  _ ← map_err (to_internal "Failed to create backup directory: ")
        (Storage.fs_op (fun f => create_dir_all f (version_payloads dir)));
  entries ← map_err (to_internal "")
    (query (fun s => map entry_record (select (owned_by user_id) (file_entries s))));
  files ← copy_files dir entries;
  versions ← unwrap_or (query (fun s => map version_record (select (fun v =>
      exists_row (fun f => has_id (FileVersion.file_entry_id v) f && owned_by user_id f) (file_entries s))
      (file_versions s)))) [];
  _ ← copy_versions dir versions;
  shares ← unwrap_or (query (fun s => map share_record
      (select (fun l => ShareLink.user_id l =? user_id) (share_links s)))) [];
  now ← utc_now;
  let manifest := {| backup_id := backup_id; owner := user_id; manifest_name := backup_name req;
                     manifest_created := now; manifest_count := file_count;
                     files_copied := Z.of_nat (length files); total_size := total_size; files := files;
                     entries := entries; versions := versions; shares := shares |} in
  _ ← map_err (to_internal "Failed to write manifest: ")
        (write_disk (manifest_path dir) (manifest_print manifest));
  _ ← match database_url with
      | Some url => modify (fun s => set_disk (pg_dump url (dump_path dir) (disk s)) s)
      | None => mret tt
      end;
  execute schema_ok (fun now s =>
    let b := {| Backup.id := backup_id; Backup.user_id := user_id; Backup.name := backup_name req;
                Backup.status := lit "completed"; Backup.size_bytes := total_size;
                Backup.file_count := file_count; Backup.storage_path := storage_path;
                Backup.created_at := now; Backup.completed_at := Some now |} in
    (b, set_backups (insert_row b (backups s)) s)).

(** ** Listing and deleting *)

Definition list_backups (user_id : Z) : M Server (list Backup.row) :=
  query (fun s => sort_by newest_backup (select (backup_of user_id) (backups s))).

Definition get_backup (user_id id : Z) : M Server Backup.row :=
  row ← query (fun s => find_row (fun b => backup_is id b && backup_of user_id b) (backups s));
  ok_or row (NotFound (lit "Backup not found")).

Definition remove_dir (p : path) : M Server unit := discard (Storage.fs_op (fun f => remove_dir_all f p)).

Definition delete_backup (user_id id : Z) : M Server unit :=
  backup ← get_backup user_id id;
  _ ← remove_dir (at_base (Backup.storage_path backup));
  execute schema_ok (fun _ s =>
    (tt, set_backups (delete_rows (fun b => backup_is id b && backup_of user_id b) (backups s)) s)).

(** ** Restoring *)

(** The counters of the loop over the files: restored, verified, corrupted. *)
Definition counters : Type := Z * Z * Z.

Definition count_hash (expected : option rstr) (data : bytes) (c : counters) : counters :=
  let '(r, v, k) := c in
  match expected with
  | Some h => if bool_decide (Storage.digest data = h) then (r, v + 1, k) else (r, v, k + 1)
  | None => c
  end.

Fixpoint restore_files (dir : path) (l : list FileRecord) (c : counters) : M Server counters :=
  match l with
  | [] => mret c
  | f :: rest =>
      c ← match fr_id f, fr_path f with
          | Some fid, Some rel =>
              data ← attempt (read_disk (payload dir fid));
              match data with
              | Some data =>
                  let '(r, v, k) := count_hash (fr_hash f) data c in
                  _ ← discard (Storage.fs_op (fun f => create_dir_all f (parent (at_base rel))));
                  ok ← attempt (write_disk (at_base rel) data);
                  mret (match ok with Some _ => (r + 1, v, k) | None => (r, v, k) end)
              | None => mret c
              end
          | _, _ => mret c
          end;
      restore_files dir rest c
  end.

Definition is_folder_record (e : FileEntryBackupRecord) : bool := bool_decide (fe_type e = lit "folder").

(** Folders first, each kind in the order of the manifest. *)
Definition folders_first (l : list FileEntryBackupRecord) : list FileEntryBackupRecord :=
  List.filter is_folder_record l ++ List.filter (fun e => negb (is_folder_record e)) l.

Fixpoint restore_entries (user_id : Z) (l : list FileEntryBackupRecord) (n : Z) : M Server Z :=
  match l with
  | [] => mret n
  | e :: rest =>
      _ ← discard (execute schema_ok (fun now s => (tt, upsert_entry user_id now e s)));
      restore_entries user_id rest (n + 1)
  end.

Fixpoint restore_versions (dir : path) (l : list VersionBackupRecord) : M Server unit :=
  match l with
  | [] => mret tt
  | v :: rest =>
      _ ← match ver_path v with
          | Some rel =>
              data ← attempt (read_disk (version_payload dir (ver_id v)));
              match data with
              | Some data =>
                  _ ← discard (Storage.fs_op (fun f => create_dir_all f (parent (at_base rel))));
                  discard (write_disk (at_base rel) data)
              | None => mret tt
              end
          | None => mret tt
          end;
      _ ← discard (statement (fun now s =>
            match ver_path v with
            | Some rel => checked schema_ok (tt, insert_version now v rel s)
            | None => Fails (DbOther (lit "null value in column storage_path"))
            end));
      restore_versions dir rest
  end.

Fixpoint restore_shares (user_id : Z) (l : list ShareLinkBackupRecord) : M Server unit :=
  match l with
  | [] => mret tt
  | x :: rest =>
      _ ← discard (execute schema_ok (fun now s => (tt, insert_share user_id now x s)));
      restore_shares user_id rest
  end.

(** read_to_string *)
Definition read_text (p : path) : M Server bytes :=
  Storage.fs_read (fun f => match read f p with
                            | Some b => if utf8 b then Some b else None
                            | None => None
                            end).

Definition restore_backup (user_id id : Z) : M Server RestoreAnswer :=
  backup ← get_backup user_id id;
  let dir := at_base (Backup.storage_path backup) in
  manifest_data ← map_err (to_internal "Cannot read backup manifest: ") (read_text (manifest_path dir));
  manifest ← match manifest_read manifest_data with
             | inl e => throw (Internal (lit "Invalid manifest: " ++ e))
             | inr m => mret m
             end;
  counts ← restore_files dir (default [] (v_files manifest)) (0, 0, 0);
  let '(restored, verified, corrupted) := counts in
  n ← restore_entries user_id (folders_first (default [] (v_entries manifest))) 0;
  _ ← restore_versions dir (default [] (v_versions manifest));
  _ ← restore_shares user_id (default [] (v_shares manifest));
  _ ← execute schema_ok (fun _ s =>
        (tt, set_backups (update (backup_is id) (Backup.set_status (lit "restored")) (backups s)) s));
  mret {| restore_status := if corrupted =? 0 then lit "restored" else lit "restored_with_warnings";
          restored_id := id; files_restored := restored; entries_restored := n;
          checksums_verified := verified; corruptions_detected := corrupted;
          integrity_verified := corrupted =? 0 |}.

(** ** Schedules and retention *)

Definition create_schedule (user_id : Z) (req : CreateScheduleRequest) : M Server BackupSchedule.row :=
  i ← new_v4;
  execute schema_ok (fun now s =>
    let r := {| BackupSchedule.id := i; BackupSchedule.user_id := user_id;
                BackupSchedule.name := schedule_name req;
                BackupSchedule.cron_expression := cron_expression req; BackupSchedule.is_active := true;
                BackupSchedule.last_run_at := None; BackupSchedule.created_at := now |} in
    (r, set_backup_schedules (insert_row r (backup_schedules s)) s)).

Definition list_schedules (user_id : Z) : M Server (list BackupSchedule.row) :=
  query (fun s => sort_by newest_schedule (select (schedule_of user_id) (backup_schedules s))).

Definition delete_schedule (user_id id : Z) : M Server unit :=
  affected ← execute schema_ok (fun _ s =>
    let p r := (BackupSchedule.id r =? id) && schedule_of user_id r in
    (count_rows p (backup_schedules s), set_backup_schedules (delete_rows p (backup_schedules s)) s));
  if affected =? 0 then throw (NotFound (lit "Schedule not found")) else mret tt.

Fixpoint delete_old (l : list Backup.row) (deleted : Z) : M Server Z :=
  match l with
  | [] => mret deleted
  | b :: rest =>
      _ ← remove_dir (at_base (Backup.storage_path b));
      _ ← discard (execute schema_ok (fun _ s =>
            (tt, set_backups (delete_rows (backup_is (Backup.id b)) (backups s)) s)));
      delete_old rest (deleted + 1)
  end.

(** OFFSET: a negative one is an error of the database. *)
Definition enforce_retention (user_id keep_count : Z) : M Server Z :=
  old_backups ← map_err (to_internal "") (statement (fun _ s =>
    if keep_count <? 0 then Fails (DbOther (lit "OFFSET must not be negative"))
    else Rows (drop (Z.to_nat keep_count)
                 (sort_by newest_backup (select (backup_of user_id) (backups s)))) s));
  delete_old old_backups 0.

(** ** Verifying *)

(** present, missing, matches, mismatches *)
Definition findings : Type := Z * Z * Z * Z.

Definition check_file (dir : path) (f : FileRecord) (c : findings) : M Server findings :=
  let '(p, m, k, x) := c in
  match fr_id f with
  | Some fid =>
      data ← attempt (read_disk (payload dir fid));
      mret (match data with
            | Some data =>
                match fr_hash f with
                | Some h => if bool_decide (Storage.digest data = h) then (p + 1, m, k + 1, x)
                            else (p + 1, m, k, x + 1)
                | None => (p + 1, m, k, x)
                end
            | None => (p, m + 1, k, x)
            end)
  | None => mret c
  end.

Fixpoint check_files (dir : path) (l : list FileRecord) (c : findings) : M Server findings :=
  match l with
  | [] => mret c
  | f :: rest => c ← check_file dir f c; check_files dir rest c
  end.

(** fs::metadata(path).is_ok() *)
Definition present (p : path) : M Server bool :=
  r ← attempt (Storage.fs_read (fun f => if path_exists f p then Some tt else None));
  mret (bool_decide (is_Some r)).

Definition verify_backup_dir (id : Z) (dir : path) : M Server VerifyAnswer :=
  manifest_exists ← present (manifest_path dir);
  dump_exists ← present (dump_path dir);
  found ← (if manifest_exists : bool then
      data ← attempt (read_text (manifest_path dir));
      match data with
      | Some data =>
          match manifest_read data with
          | inr m => check_files dir (default [] (v_files m)) (0, 0, 0, 0)
          | inl _ => mret (0, 0, 0, 0)
          end
      | None => mret (0, 0, 0, 0)
      end
    else mret (0, 0, 0, 0));
  let '(p, m, k, x) := found in
  let ok := manifest_exists && (m =? 0) && (x =? 0) in
  mret {| verified_id := id; healthy := ok; manifest_exists := manifest_exists;
          database_dump_exists := dump_exists; files_present := p; files_missing := m;
          checksum_matches := k; checksum_mismatches := x;
          verify_status := if ok then lit "verified" else lit "degraded" |}.

Definition verify_backup (user_id id : Z) : M Server VerifyAnswer :=
  backup ← get_backup user_id id;
  verify_backup_dir id (at_base (Backup.storage_path backup)).

(** ** Lemmas *)

Lemma attempt_read {A} (f : fs -> option A) w :
  reliable O -> attempt (Storage.fs_read f) w = (Ok (f (disk (data w))), mkWorld (data w) (S (pos w))).
Proof.
  intros R. unfold attempt, unwrap_or, mbind, M_bind, Storage.fs_read, io. rewrite (proj2 (R _)).
  by destruct (f _).
Qed.

Lemma attempt_op (f : fs -> option fs) w d :
  reliable O -> f (disk (data w)) = Some d ->
  attempt (Storage.fs_op f) w = (Ok (Some tt), mkWorld (set_disk d (data w)) (S (pos w))).
Proof.
  intros R E. unfold attempt, unwrap_or, mbind, M_bind. by rewrite (Storage.fs_op_ok f w d R E).
Qed.

Lemma present_run p w :
  reliable O -> present p w = (Ok (path_exists (disk (data w)) p), mkWorld (data w) (S (pos w))).
Proof.
  intros R. unfold present, mbind, M_bind at 1. rewrite attempt_read by done.
  by destruct (path_exists _ _).
Qed.

(** ** Verification *)

(** The copy of a file is there, with the content whose hash was recorded. *)
Definition intact (f : fs) (dir : path) (r : FileRecord) : Prop :=
  forall fid, fr_id r = Some fid ->
    exists b, read f (payload dir fid) = Some b /\ forall h, fr_hash r = Some h -> Storage.digest b = h.

(** The files a backup directory lists: none when the manifest cannot be read
    or parsed. *)
Definition listed (f : fs) (dir : path) : list FileRecord :=
  match read f (manifest_path dir) with
  | Some b =>
      if utf8 b then
        match manifest_read b with
        | inr m => default [] (v_files m)
        | inl _ => []
        end
      else []
  | None => []
  end.

Lemma check_files_run dir l c w :
  reliable O ->
  exists c' w', check_files dir l c w = (Ok c', w') /\ data w' = data w
    /\ (let '(p, m, k, x) := c in let '(p', m', k', x') := c' in
        m <= m' /\ x <= x' /\ (m' = m /\ x' = x <-> Forall (intact (disk (data w)) dir) l)).
Proof.
  intros R. revert c w. induction l as [|r l IH]; intros [[[p m] k] x] w; cbn [check_files].
  { eexists _, _. split; [reflexivity|]. split; [done|]. do 2 (split; [lia|]). by rewrite Forall_nil. }
  assert (exists c1 w1, check_file dir r (p, m, k, x) w = (Ok c1, w1) /\ data w1 = data w
    /\ let '(p1, m1, k1, x1) := c1 in
       m <= m1 /\ x <= x1 /\ (m1 = m /\ x1 = x <-> intact (disk (data w)) dir r)) as (c1 & w1 & E1 & D1 & P1).
  { unfold check_file, intact. destruct (fr_id r) as [fid|].
    2: { eexists _, _. split; [reflexivity|]. split; [done|]. do 2 (split; [lia|]). split; [|done]. by intros _ ?. }
    unfold mbind, M_bind, read_disk. rewrite attempt_read by done. cbn [data]. eexists _, _.
    split; [reflexivity|]. split; [done|]. destruct (read _ (payload dir fid)) as [b|] eqn:E.
    - destruct (fr_hash r) as [h|]; [destruct (bool_decide _) eqn:B|].
      + apply bool_decide_eq_true in B. do 2 (split; [lia|]). split; [|done]. intros _ fid' [= <-].
        exists b. split; [done|]. by intros h' [= <-].
      + apply bool_decide_eq_false in B. do 2 (split; [lia|]). split; [lia|].
        intros H. destruct (H fid eq_refl) as (b' & E' & H'). destruct B. rewrite E in E'. injection E' as <-. auto.
      + do 2 (split; [lia|]). split; [|done]. intros _ fid' [= <-]. exists b. done.
    - do 2 (split; [lia|]). split; [lia|]. intros H. destruct (H fid eq_refl) as (b' & E' & _). congruence. }
  destruct (IH c1 w1) as (c' & w' & E & D & P). exists c', w'. split; [by eapply bind_run|].
  split; [congruence|]. destruct c1 as [[[p1 m1] k1] x1], c' as [[[p' m'] k'] x']. rewrite D1 in P.
  rewrite Forall_cons. split; [lia|]. split; [lia|]. destruct P as (? & ? & P), P1 as (? & ? & P1).
  rewrite <- P, <- P1. split; [intros []; split; split; lia|intros [[] []]; split; lia].
Qed.

(** what a verification says.  With the disk answering, a backup is reported
    healthy exactly when its manifest exists and every file the manifest lists
    is there with the recorded hash; a manifest that cannot be read or parsed
    lists nothing, so a backup with a destroyed manifest is healthy.  Nothing
    is changed. *)
Theorem verify_spec id dir w :
  reliable O ->
  exists a w', verify_backup_dir id dir w = (Ok a, w') /\ data w' = data w
    /\ (healthy a = true <->
        path_exists (disk (data w)) (manifest_path dir) = true
        /\ Forall (intact (disk (data w)) dir) (listed (disk (data w)) dir)).
Proof.
  intros R. unfold verify_backup_dir. set (f := disk (data w)).
  set (w2 := mkWorld (data w) (S (S (pos w)))).
  assert (F : exists c w', (if path_exists f (manifest_path dir) then
      data ← attempt (read_text (manifest_path dir));
      match data with
      | Some data =>
          match manifest_read data with
          | inr m => check_files dir (default [] (v_files m)) (0, 0, 0, 0)
          | inl _ => mret (0, 0, 0, 0)
          end
      | None => mret (0, 0, 0, 0)
      end else mret (0, 0, 0, 0) : M Server findings) w2 = (Ok c, w') /\ data w' = data w
    /\ (let '(p, m, k, x) := c in path_exists f (manifest_path dir) = true ->
        (m = 0 /\ x = 0 <-> Forall (intact f dir) (listed f dir)))).
  { destruct (path_exists f (manifest_path dir)).
    2: { eexists _, _. split; [reflexivity|]. done. }
    unfold listed, mbind, M_bind, read_text. rewrite attempt_read by done. cbn [data w2]. fold f.
    destruct (read f (manifest_path dir)) as [b|]; [destruct (utf8 b)|].
    2,3: eexists _, _; split; [reflexivity|]; split; [done|]; intros _; by rewrite Forall_nil.
    destruct (manifest_read b) as [e|m].
    { eexists _, _. split; [reflexivity|]. split; [done|]. intros _. by rewrite Forall_nil. }
    destruct (check_files_run dir (default [] (v_files m)) (0, 0, 0, 0)
      (mkWorld (data w) (S (S (S (pos w))))) R) as ([[[p' m'] k'] x'] & w' & E & D & _ & _ & P).
    eexists _, _. split; [exact E|]. split; [exact D|]. intros _. exact P. }
  destruct F as ([[[p m] k] x] & w' & E & D & P).
  eexists _, w'. split; [|split; [exact D|]].
  - eapply bind_run; [by apply present_run|]. eapply bind_run; [by apply present_run|]. cbn [data].
    fold f. eapply bind_run; [exact E|]. reflexivity.
  - cbn [healthy]. fold f in P. destruct (path_exists f (manifest_path dir)); cbn [andb].
    + rewrite <- (P eq_refl), andb_true_iff, !Z.eqb_eq. tauto.
    + by split; [|intros [? _]].
Qed.

(** ** What creation leaves on disk *)

Lemma backup_components u b :
  at_base (backup_path u b) = base ++ [lit "backups"; uuid_to_string u; uuid_to_string b].
Proof.
  unfold at_base, backup_path. f_equal. unfold Storage.components.
  assert (E : split_char (chr "/") (lit "backups/" ++ uuid_to_string u ++ lit "/" ++ uuid_to_string b)
    = [lit "backups"; uuid_to_string u; uuid_to_string b]).
  { change (lit "backups/") with (lit "backups" ++ [chr "/"]). rewrite <- app_assoc.
    change ([chr "/"] ++ ?r) with (chr "/" :: r). rewrite split_char_app by (apply (bool_decide_unpack _); exact I).
    change (lit "/" ++ ?r) with (chr "/" :: r).
    rewrite split_char_app by apply Storage.no_slash, Storage.uuid_forall.
    by rewrite split_char_last by apply Storage.no_slash, Storage.uuid_forall. }
  rewrite E. apply Storage.filter_components.
  assert (N : forall x, uuid_to_string x <> []).
  { intros x H. apply (f_equal length) in H. by rewrite uuid_to_string_length in H. }
  repeat constructor; try apply Storage.uuid_plain; try apply N; by vm_compute.
Qed.

Lemma uuid_not i s : length s <> 36%nat -> uuid_to_string i <> s.
Proof. intros L E. apply L. by rewrite <- E, uuid_to_string_length. Qed.

Section Directory.
Context (dir : path).

(** A backup directory in use: its directories are there, and nothing but
    files where files go. *)
Definition in_use (f : fs) : Prop :=
  dir_ready f (version_payloads dir)
  /\ (forall i, Storage.slot f (payloads dir ++ [uuid_to_string i]))
  /\ (forall i, Storage.slot f (version_payload dir i))
  /\ Storage.slot f (manifest_path dir).

Lemma version_split : version_payloads dir = payloads dir ++ [lit "versions"].
Proof. unfold version_payloads, payloads. by rewrite <- app_assoc. Qed.

Lemma in_use_dirs f : in_use f -> dir_ready f dir /\ dir_ready f (payloads dir).
Proof.
  intros [R _]. rewrite version_split in R. apply dir_ready_up in R as P. split; [|done].
  by apply dir_ready_up in P.
Qed.

(** A path that is not on the way to the directories. *)
Definition aside (p : path) : Prop := forall k, take k (version_payloads dir) <> p.

Lemma in_use_ext f f' :
  (forall k, f' !! take k (version_payloads dir) = f !! take k (version_payloads dir)) ->
  (forall q, q <> dump_path dir -> Storage.slot f q -> Storage.slot f' q) -> in_use f -> in_use f'.
Proof.
  intros E K (R & P & V & Mf).
  assert (L : forall q, length q <> length (dump_path dir) -> Storage.slot f q -> Storage.slot f' q).
  { intros q N. apply K. by intros ->. }
  unfold in_use, dump_path, payloads, version_payload, version_payloads, manifest_path in *.
  rewrite length_app in L. simpl in L.
  split; [by eapply dir_ready_ext|].
  split; [intros i; apply L; [rewrite !length_app; simpl; lia|done]|].
  split; [intros i; apply L; [rewrite !length_app; simpl; lia|done]|].
  apply K; [|done]. intros Q. apply app_inv_head in Q. by vm_compute in Q.
Qed.

Lemma in_use_insert f p b : aside p -> in_use f -> in_use (<[p := File b]> f).
Proof.
  intros A. apply in_use_ext.
  - intros k. apply lookup_insert_ne. intros E. by apply (A k).
  - intros q _ Hq. unfold Storage.slot in *. destruct (decide (p = q)) as [->|N].
    + rewrite lookup_insert_eq. eauto.
    + by rewrite lookup_insert_ne.
Qed.

Lemma aside_length p : (length (version_payloads dir) < length p)%nat -> aside p.
Proof. intros L k E. rewrite <- E, length_take in L. lia. Qed.

Lemma aside_sibling d c c' x : version_payloads dir = d ++ c :: c' -> x <> c -> aside (d ++ [x]).
Proof.
  intros E N k Q. apply (f_equal (fun p => p !! length d)) in Q.
  rewrite lookup_app_r, Nat.sub_diag in Q by done. cbn in Q.
  rewrite E in Q. apply lookup_take_Some in Q as [Q _].
  rewrite lookup_app_r, Nat.sub_diag in Q by done. cbn in Q. congruence.
Qed.

Lemma payload_aside i : aside (payloads dir ++ [uuid_to_string i]).
Proof. apply (aside_sibling _ (lit "versions") []); [apply version_split|]. by apply uuid_not. Qed.

Lemma version_aside i : aside (version_payload dir i).
Proof. apply aside_length. unfold version_payload. rewrite length_app. simpl. lia. Qed.

Lemma manifest_aside : aside (manifest_path dir).
Proof. apply (aside_sibling dir (lit "payloads") [lit "versions"]); [done|]. by vm_compute. Qed.

Lemma payload_uuid i : payload dir (uuid_to_string i) = payloads dir ++ [uuid_to_string i].
Proof. unfold payload. by rewrite Storage.uuid_component. Qed.

(** What is kept of a copy under way: the copies of [done]. *)
Definition copied (f : fs) (files : list ManifestFile) : Prop :=
  forall m, m ∈ files -> exists b, f !! (payloads dir ++ [uuid_to_string (mf_id m)]) = Some (File b)
    /\ Storage.digest b = mf_hash m.

Lemma copied_keep f f' files :
  (forall m, m ∈ files -> f' !! (payloads dir ++ [uuid_to_string (mf_id m)])
                          = f !! (payloads dir ++ [uuid_to_string (mf_id m)])) ->
  copied f files -> copied f' files.
Proof. intros E C m Hm. rewrite E by done. by apply C. Qed.

Lemma copy_files_run l w :
  reliable O -> in_use (disk (data w)) -> NoDup (map fe_id l) -> Forall is_uuid (map fe_id l) ->
  exists files w', copy_files dir l w = (Ok files, w') /\ data w' = set_disk (disk (data w')) (data w)
    /\ in_use (disk (data w')) /\ copied (disk (data w')) files
    /\ (forall m, m ∈ files -> mf_id m ∈ map fe_id l)
    /\ (forall i, is_uuid i -> i ∉ map fe_id l -> disk (data w') !! (payloads dir ++ [uuid_to_string i])
                                   = disk (data w) !! (payloads dir ++ [uuid_to_string i])).
Proof.
  intros R. revert w. induction l as [|e l IH]; intros w U ND F; cbn [copy_files].
  { exists [], w. split; [done|]. split; [by destruct w as [[]]|]. split; [done|].
    split; [by intros m H%elem_of_nil|]. split; [by intros m H%elem_of_nil|done]. }
  cbn [map] in *. apply NoDup_cons in ND as [Ne ND]. apply Forall_cons in F as [Fe F].
  match goal with |- context [mbind _ ?m] => set (here := m) end.
  assert (H : exists fs w1, here w = (Ok fs, w1) /\ data w1 = set_disk (disk (data w1)) (data w)
    /\ in_use (disk (data w1)) /\ copied (disk (data w1)) fs /\ (forall m, m ∈ fs -> mf_id m = fe_id e)
    /\ (forall i, is_uuid i -> i <> fe_id e -> disk (data w1) !! (payloads dir ++ [uuid_to_string i])
                                   = disk (data w) !! (payloads dir ++ [uuid_to_string i]))).
  { assert (N : exists fs w1, (mret [] : M Server (list ManifestFile)) w = (Ok fs, w1) /\ fs = [] /\ w1 = w)
      by (exists [], w; done).
    assert (Skip : forall w1, data w1 = data w -> exists fs w2, (mret [] : M Server (list ManifestFile)) w1 = (Ok fs, w2)
      /\ data w2 = set_disk (disk (data w2)) (data w)
      /\ in_use (disk (data w2)) /\ copied (disk (data w2)) fs /\ (forall m, m ∈ fs -> mf_id m = fe_id e)
      /\ (forall i, is_uuid i -> i <> fe_id e -> disk (data w2) !! (payloads dir ++ [uuid_to_string i])
                                   = disk (data w) !! (payloads dir ++ [uuid_to_string i]))).
    { intros w1 D. exists [], w1. rewrite D. split; [done|]. split; [by destruct (data w)|]. split; [done|].
      split; [by intros m H%elem_of_nil|]. split; [by intros m H%elem_of_nil|done]. }
    clear N. unfold here. destruct (is_live_file e); [|by apply Skip].
    destruct (fe_path e) as [rel|]; [|by apply Skip].
    set (w1 := mkWorld (data w) (S (pos w))).
    unfold mbind, M_bind, read_disk. rewrite attempt_read by done. fold w1.
    destruct (read _ (at_base rel)) as [b|]; [|by apply (Skip w1)].
    assert (W : write (disk (data w1)) (payloads dir ++ [uuid_to_string (fe_id e)]) b
      = Some (<[payloads dir ++ [uuid_to_string (fe_id e)] := File b]> (disk (data w)))).
    { apply write_ready; [by apply in_use_dirs|]. apply U. }
    unfold write_disk. rewrite (attempt_op _ w1 _ R W).
    eexists _, _. split; [reflexivity|]. split; [done|]. cbn [data disk set_disk].
    split; [by apply in_use_insert; [apply payload_aside|]|]. split; [|split].
    - intros m ->%list_elem_of_singleton. exists b. split; [apply lookup_insert_eq|done].
    - by intros m ->%list_elem_of_singleton.
    - intros i Hi Ni. apply lookup_insert_ne. intros E. apply app_inv_head in E. injection E as E.
      by apply uuid_text_inj in E. }
  destruct H as (fs & w1 & E1 & D1 & U1 & C1 & I1 & K1).
  destruct (IH w1 U1 ND F) as (files & w2 & E2 & D2 & U2 & C2 & I2 & K2).
  exists (fs ++ files), w2. split; [|split; [|split; [done|split; [|split]]]].
  - eapply bind_run; [exact E1|]. by eapply bind_run; [exact E2|].
  - rewrite D2, D1. done.
  - intros m [Hm|Hm]%elem_of_app; [|by apply C2]. destruct (C1 m Hm) as (b & L & G). exists b.
    split; [|done]. rewrite (I1 m Hm) in *. rewrite K2; done.
  - intros m [Hm|Hm]%elem_of_app; [rewrite (I1 m Hm); left|right; by apply I2].
  - intros i Hi [Na Nb]%not_elem_of_cons. rewrite K2, K1; done.
Qed.

Lemma copy_versions_run l w :
  reliable O -> in_use (disk (data w)) ->
  exists w', copy_versions dir l w = (Ok tt, w') /\ data w' = set_disk (disk (data w')) (data w)
    /\ in_use (disk (data w'))
    /\ forall i, disk (data w') !! (payloads dir ++ [uuid_to_string i])
                = disk (data w) !! (payloads dir ++ [uuid_to_string i]).
Proof.
  intros R. revert w. induction l as [|v l IH]; intros w U; cbn [copy_versions].
  { exists w. split; [done|]. split; [by destruct w as [[]]|done]. }
  match goal with |- context [mbind _ ?m] => set (here := m) end.
  assert (H : exists w1, here w = (Ok tt, w1) /\ data w1 = set_disk (disk (data w1)) (data w)
    /\ in_use (disk (data w1)) /\ forall i, disk (data w1) !! (payloads dir ++ [uuid_to_string i])
                = disk (data w) !! (payloads dir ++ [uuid_to_string i])).
  { assert (Skip : forall w1, data w1 = data w -> exists w2, (mret tt : M Server unit) w1 = (Ok tt, w2)
      /\ data w2 = set_disk (disk (data w2)) (data w) /\ in_use (disk (data w2))
      /\ forall i, disk (data w2) !! (payloads dir ++ [uuid_to_string i])
                = disk (data w) !! (payloads dir ++ [uuid_to_string i])).
    { intros w1 D. exists w1. rewrite D. split; [done|]. split; [by destruct (data w)|done]. }
    unfold here. destruct (ver_path v) as [rel|]; [|by apply Skip].
    set (w1 := mkWorld (data w) (S (pos w))).
    unfold mbind, M_bind, read_disk. rewrite attempt_read by done. fold w1.
    destruct (read _ (at_base rel)) as [b|]; [|by apply (Skip w1)].
    assert (W : write (disk (data w1)) (version_payload dir (ver_id v)) b
      = Some (<[version_payload dir (ver_id v) := File b]> (disk (data w)))).
    { apply write_ready; apply U. }
    unfold write_disk, discard, unwrap_or, mbind, M_bind.
    rewrite (Storage.fs_op_ok (fun f => write f (version_payload dir (ver_id v)) b) w1 _ R W).
    eexists. split; [reflexivity|]. split; [done|]. cbn [data disk set_disk].
    split; [apply in_use_insert; [apply version_aside|done]|]. intros i. apply lookup_insert_ne.
    intros E. apply (f_equal length) in E. unfold version_payload, version_payloads, payloads in E.
    rewrite !length_app in E. simpl in E. lia. }
  destruct H as (w1 & E1 & D1 & U1 & K1). destruct (IH w1 U1) as (w2 & E2 & D2 & U2 & K2).
  exists w2. split; [eapply bind_run; [exact E1|exact E2]|]. split; [by rewrite D2, D1|].
  split; [done|]. intros i. by rewrite K2, K1.
Qed.

(** A directory that did not exist, created. *)
Lemma created_in_use (f f' : fs) :
  (forall r, f !! (dir ++ r) = None) ->
  (forall p, f' !! p = f !! p \/ f !! p = None /\ f' !! p = Some Dir /\ exists b, version_payloads dir = p ++ b) ->
  dir_ready f' (version_payloads dir) -> in_use f'.
Proof.
  intros N K R.
  assert (A : forall r, aside (dir ++ r) -> Storage.slot f' (dir ++ r)).
  { intros r H. left. destruct (K (dir ++ r)) as [->|(_ & _ & b & E)]; [apply N|].
    destruct (H (length (dir ++ r))). by rewrite E, take_app_length. }
  split; [done|]. unfold payloads, version_payload, version_payloads. split; [|split].
  - intros i. rewrite <- app_assoc. apply A. rewrite app_assoc. apply payload_aside.
  - intros i. rewrite <- app_assoc. apply A. rewrite app_assoc. apply version_aside.
  - apply A, manifest_aside.
Qed.
End Directory.

(** pg_dump writes its dump and nothing else. *)
Definition dumps_only : Prop :=
  forall url p f q, q <> p -> pg_dump url p f !! q = f !! q.

(** What verification finds in a directory with its manifest and its copies. *)
Lemma verified_healthy dir f m :
  in_use dir f -> f !! manifest_path dir = Some (File (manifest_print m)) -> copied dir f (files m) ->
  path_exists f (manifest_path dir) = true /\ Forall (intact f dir) (listed f dir).
Proof.
  intros U Em C. destruct (in_use_dirs _ _ U) as [Rd Rp].
  destruct (read_ready f dir (lit "manifest.json") (manifest_print m) Rd) as [Cm Rm]; [by vm_compute|done|].
  split; [unfold path_exists, manifest_path; by rewrite Cm|].
  unfold listed, manifest_path. rewrite Rm, manifest_utf8, manifest_roundtrip. cbn [view_of v_files default].
  apply Forall_forall. intros r Hr. apply list_elem_of_fmap in Hr as (x & -> & Hx).
  intros fid [= <-]. destruct (C x Hx) as (b & L & G). exists b. split; [|by intros h [= <-]].
  rewrite payload_uuid. by apply (read_ready f (payloads dir) _ b Rp (Storage.uuid_plain _)).
Qed.

Lemma unwrap_reads {A} (m : M Server A) a w x w' :
  preserves eq m -> unwrap_or m a w = (Ok x, w') -> data w' = data w.
Proof. intros P H. symmetry. by apply (preserves_unwrap_or eq m a P w _ w' H). Qed.

Lemma entry_ids u s :
  schema_ok s = true -> (forall f, f ∈ file_entries s -> is_uuid (FileEntry.id f)) ->
  let l := map entry_record (select (owned_by u) (file_entries s)) in
  NoDup (map fe_id l) /\ Forall is_uuid (map fe_id l).
Proof.
  intros S F l. assert (E : map fe_id l = map FileEntry.id (select (owned_by u) (file_entries s))).
  { unfold l. rewrite map_map. done. }
  rewrite E. split.
  - assert (K := key_file _ S). unfold unique_key in K. apply bool_decide_eq_true in K.
    eapply sublist_NoDup; [exact K|]. unfold select. clear.
    induction (file_entries s) as [|x l IH]; [constructor|]. cbn. destruct (owned_by u x); by constructor.
  - apply Forall_forall. intros i Hi. apply list_elem_of_fmap in Hi as (f & -> & Hf).
    apply elem_select in Hf as [Hf _]. by apply F.
Qed.

(** The way to a new backup directory is open. *)
Lemma backup_way f u b :
  let dir := base ++ [lit "backups"; uuid_to_string u; uuid_to_string b] in
  open_way f base [lit "backups"; uuid_to_string u] -> (forall r, f !! (dir ++ r) = None) ->
  open_way f base [lit "backups"; uuid_to_string u; uuid_to_string b; lit "payloads"; lit "versions"].
Proof.
  intros dir W N a r E Na.
  assert (F : forall r, f !! (base ++ [lit "backups"; uuid_to_string u; uuid_to_string b] ++ r) = None).
  { intros r'. rewrite app_assoc. apply N. }
  destruct a as [|a1 [|a2 [|a3 [|a4 [|a5 a]]]]]; [done|..]; cbn in E; simplify_eq.
  - by apply (W [lit "backups"] [uuid_to_string u]).
  - by apply (W [lit "backups"; uuid_to_string u] []).
  - left. exact (F []).
  - left. exact (F [lit "payloads"]).
  - match goal with E : [] = _ ++ _ |- _ => symmetry in E; apply app_nil in E as [-> ->] end.
    left. exact (F [lit "payloads"; lit "versions"]).
Qed.

(** The directory of a backup, created where nothing was. *)
Lemma created_for u i w w' :
  let dir := base ++ [lit "backups"; uuid_to_string u; uuid_to_string i] in
  dir_ready (disk (data w)) base -> open_way (disk (data w)) base [lit "backups"; uuid_to_string u] ->
  (forall r, disk (data w) !! (dir ++ r) = None) ->
  Storage.fs_op (fun f => create_dir_all f (version_payloads dir)) w = (Ok tt, w') ->
  in_use dir (disk (data w')) /\ data w' = set_disk (disk (data w')) (data w).
Proof.
  intros dir Rb W N E.
  destruct (Storage.create_way base (disk (data w))
    [lit "backups"; uuid_to_string u; uuid_to_string i; lit "payloads"; lit "versions"]) as (f1 & Ef & Rf & Kf);
    [done| |by apply backup_way|].
  { assert (plain (lit "backups") /\ plain (lit "payloads") /\ plain (lit "versions")) as (? & ? & ?) by (by vm_compute).
    repeat constructor; first [apply Storage.uuid_plain | apply H | apply H0 | apply H1]. }
  apply Storage.fs_op_Ok in E as (fd & E & D3).
  assert (V : version_payloads dir
    = base ++ [lit "backups"; uuid_to_string u; uuid_to_string i; lit "payloads"; lit "versions"])
    by (unfold version_payloads, dir; by rewrite <- app_assoc).
  rewrite V in E. assert (fd = f1) as -> by congruence. rewrite D3. split; [|done].
  eapply created_in_use; [exact N| |by rewrite V]. intros p.
  destruct (Kf p) as [?|(? & ? & r & Q)]; [by left|right]. split; [done|]. split; [done|].
  exists r. by rewrite V.
Qed.

(** The directory with its manifest and its copies, dumped or not. *)
Definition filled (dir : path) (f : fs) (m : Manifest) : Prop :=
  in_use dir f /\ copied dir f (files m) /\ f !! manifest_path dir = Some (File (manifest_print m)).

Lemma dump_filled dir f url m : dumps_only -> filled dir f m -> filled dir (pg_dump url (dump_path dir) f) m.
Proof.
  intros P (U & C & Mf). split; [|split].
  - eapply in_use_ext; [| |exact U].
    + intros k. apply P. intros Q.
      apply (aside_sibling dir dir (lit "payloads") [lit "versions"] (lit "database.sql")) in Q; [done|done|by vm_compute].
    + intros q Nq. unfold Storage.slot. by rewrite P.
  - eapply copied_keep; [|exact C]. intros x _. apply P. intros Q. apply (f_equal length) in Q.
    unfold dump_path, payloads in Q. rewrite !length_app in Q. simpl in Q. lia.
  - rewrite P; [done|]. intros Q. apply app_inv_head in Q. by vm_compute in Q.
Qed.

Lemma manifest_filled dir f f' m :
  in_use dir f -> copied dir f (files m) -> write f (manifest_path dir) (manifest_print m) = Some f' ->
  filled dir f' m.
Proof.
  intros U C E.
  assert (E' : write f (manifest_path dir) (manifest_print m) = Some (<[manifest_path dir := File (manifest_print m)]> f)).
  { apply write_ready; [by apply in_use_dirs|]. apply U. }
  rewrite E' in E. injection E as <-. split; [|split].
  - apply in_use_insert; [apply manifest_aside|done].
  - eapply copied_keep; [|exact C]. intros x _. rewrite lookup_insert_ne; [done|].
    intros Q. apply (f_equal length) in Q. unfold manifest_path, payloads in Q. rewrite !length_app in Q. simpl in Q. lia.
  - apply lookup_insert_eq.
Qed.

Lemma get_backup_run w b :
  reliable O -> schema_ok (data w) = true -> b ∈ backups (data w) ->
  get_backup (Backup.user_id b) (Backup.id b) w = (Ok b, mkWorld (data w) (S (pos w))).
Proof.
  intros R Sc Hb. unfold get_backup, query, statement, mbind, M_bind. rewrite (proj1 (R _)).
  rewrite (find_unique Backup.id _ b _ (key_backup _ Sc) Hb); [done| |].
  - unfold backup_is, backup_of. by rewrite !Z.eqb_refl.
  - intros x Hx. apply andb_true_iff in Hx as [Hx _]. by apply Z.eqb_eq.
Qed.

(** a new backup verifies.  With the disk answering and a backup directory
    that was not there before, a backup that was created is recorded for its
    user, and its verification, run at once, finds it healthy: every file the
    manifest lists is there with the hash the manifest gives. *)
Theorem backup_verifies u req w b w' :
  let dir := base ++ [lit "backups"; uuid_to_string u; uuid_to_string (uuid_at (pos w))] in
  reliable O -> dumps_only -> schema_ok (data w) = true ->
  (forall f, f ∈ file_entries (data w) -> is_uuid (FileEntry.id f)) ->
  dir_ready (disk (data w)) base -> open_way (disk (data w)) base [lit "backups"; uuid_to_string u] ->
  (forall r, disk (data w) !! (dir ++ r) = None) ->
  create_backup u req w = (Ok b, w') ->
  b ∈ backups (data w') /\ Backup.user_id b = u /\ Backup.name b = backup_name req
  /\ exists a w'', verify_backup u (Backup.id b) w' = (Ok a, w'') /\ healthy a = true.
Proof.
  intros dir R P Sc F Rb W N H. set (i := uuid_at (pos w)) in *. unfold create_backup in H.
  apply bind_Ok in H as (x & w0 & E & H). apply interact_Ok in E as [-> ->]. fold i in H. cbv zeta in H.
  rewrite backup_components in H. fold dir in H.
  apply bind_Ok in H as (count & w1 & E & H). apply unwrap_reads in E as D1; [|apply preserves_query; apply _].
  clear E. apply bind_Ok in H as (total & w2 & E & H).
  apply unwrap_reads in E as D2; [|apply Account.sum_query_keeps; apply _]. clear E.
  apply bind_Ok in H as ([] & w3 & E & H). apply map_err_Ok in E. cbn [data] in D1. rewrite D1 in D2.
  apply (created_for u i w2 w3) in E as [U3 D3]; [|by rewrite D2..]. rewrite D2 in D3.
  apply bind_Ok in H as (es & w4 & E & H). apply map_err_Ok, query_Ok in E as (_ & Ees & ->).
  destruct (entry_ids u (data w) Sc F) as [ND Fu].
  replace (file_entries (data w)) with (file_entries (data w3)) in ND, Fu by (by rewrite D3).
  rewrite <- Ees in ND, Fu.
  destruct (copy_files_run dir es (mkWorld (data w3) (Datatypes.S (pos w3))) R U3 ND Fu)
    as (fl & w5 & E5 & _ & U5 & C5 & _ & _).
  apply bind_Ok in H as (fl' & w5' & E & H). rewrite E5 in E. injection E as <- <-.
  apply bind_Ok in H as (vs & w6 & E & H). apply unwrap_reads in E as D6; [|apply preserves_query; apply _]. clear E.
  rewrite <- D6 in U5, C5.
  destruct (copy_versions_run dir vs w6 R U5) as (w7 & E7 & _ & U7 & K7).
  apply bind_Ok in H as ([] & w7' & E & H). rewrite E7 in E. injection E as <-.
  apply bind_Ok in H as (sh & w8 & E & H). apply unwrap_reads in E as D8; [|apply preserves_query; apply _]. clear E.
  apply bind_Ok in H as (now & w9 & E & H). apply interact_Ok in E as [-> ->]. cbv zeta in H.
  set (m := Build_Manifest _ _ _ _ _ _ _ _ _ _ _) in H.
  apply bind_Ok in H as ([] & w10 & E & H). apply map_err_Ok, Storage.fs_op_Ok in E as (f10 & E & D10).
  cbn [data] in E, D10. rewrite D8 in E, D10.
  apply (manifest_filled dir _ _ m U7) in E as X; [|by eapply copied_keep; [intros y _; apply K7|]].
  apply bind_Ok in H as ([] & w11 & E2 & H).
  assert (Y : filled dir (disk (data w11)) m).
  { destruct database_url as [url|].
    - apply modify_Ok in E2 as ->. rewrite D10. by apply dump_filled.
    - apply ret_Ok in E2 as [_ <-]. by rewrite D10. }
  apply execute_Ok in H as (_ & H & Sc' & _). cbv zeta in H. injection H as Eb H.
  assert (Hb : b ∈ backups (data w')) by (rewrite <- H; cbn; apply elem_insert; right; by subst b).
  split; [exact Hb|]. split; [by rewrite <- Eb|]. split; [by rewrite <- Eb|].
  destruct (verify_spec (Backup.id b) dir (mkWorld (data w') (Datatypes.S (pos w'))) R) as (a & w12 & V & _ & Hl).
  exists a, w12. split.
  - unfold verify_backup. replace u with (Backup.user_id b) by (by rewrite <- Eb).
    eapply bind_run; [by apply get_backup_run|].
    replace (Backup.storage_path b) with (backup_path u i) by (by rewrite <- Eb).
    rewrite backup_components. exact V.
  - apply Hl. cbn [data]. rewrite <- H. cbn [disk set_backups]. destruct Y as (U & C & Mf).
    by eapply verified_healthy.
Qed.

(** ** Restoring files *)

(** The record of a file stored for the user, as a manifest lists it. *)
Definition stored_record (u : Z) (e : Z * bytes) : FileRecord :=
  {| fr_id := Some (uuid_to_string (fst e)); fr_path := Some (Storage.relative_path u (fst e));
     fr_hash := Some (Storage.digest (snd e)) |}.

Section RestoreFiles.
Context (u b0 : Z).
Notation backup_dir := (base ++ [lit "backups"; uuid_to_string u; uuid_to_string b0]).

(** A disk from which the files [todo] can be restored. *)
Record restorable (f : fs) (todo : list (Z * bytes)) : Prop := {
  rs_base : dir_ready f base;
  rs_payloads : dir_ready f (payloads backup_dir);
  rs_copies : forall i b, (i, b) ∈ todo -> f !! (payloads backup_dir ++ [uuid_to_string i]) = Some (File b);
  rs_way : forall i b, (i, b) ∈ todo -> open_way f base [uuid_to_string u; Storage.id_prefix i];
  rs_slot : forall i b, (i, b) ∈ todo -> Storage.slot f (Storage.file_path base u i) }.

(** The files [l] are in place. *)
Definition in_place (f : fs) (l : list (Z * bytes)) : Prop :=
  forall i b, (i, b) ∈ l -> dir_ready f (Storage.user_dir base u i)
    /\ f !! Storage.file_path base u i = Some (File b).

Lemma file_path_eq i : at_base (Storage.relative_path u i) = Storage.file_path base u i.
Proof.
  unfold at_base. rewrite Storage.relative_components. unfold Storage.file_path, Storage.user_dir.
  by rewrite <- app_assoc.
Qed.

Lemma file_path_parent i : parent (Storage.file_path base u i) = Storage.user_dir base u i.
Proof. unfold parent, Storage.file_path. apply removelast_last. Qed.

Lemma file_path_length i : length (Storage.file_path base u i) = (3 + length base)%nat.
Proof. unfold Storage.file_path, Storage.user_dir. rewrite !length_app. simpl. lia. Qed.

(** What writing one file does to the rest of the disk. *)
Definition placed (f f' : fs) (i : Z) : Prop :=
  forall p, p <> Storage.file_path base u i ->
    f' !! p = f !! p \/ f !! p = None /\ f' !! p = Some Dir /\ (length p <= 2 + length base)%nat.

Lemma placed_mono f f' i p n :
  placed f f' i -> p <> Storage.file_path base u i -> f !! p = Some n -> f' !! p = Some n.
Proof. intros P N E. destruct (P p N) as [-> |(? & _)]; [done|congruence]. Qed.

Lemma placed_dir f f' i d :
  placed f f' i -> (forall k, take k d <> Storage.file_path base u i) -> dir_ready f d -> dir_ready f' d.
Proof.
  intros P N [(Hp & Hd & He) D]. split; [split; [done|split]|].
  - intros n Hn. eapply placed_mono; [done|apply N|by apply Hd].
  - intros Nd. destruct (He Nd) as (n & Hn & L). exists n. split; [|done].
    eapply placed_mono; [done| |done]. specialize (N (length d)). by rewrite take_ge in N.
  - destruct d as [|x d]; [done|]. simpl in *. eapply placed_mono; [done| |done].
    specialize (N (length (x :: d))). by rewrite take_ge in N.
Qed.

Lemma payloads_apart i k r : take k (payloads backup_dir ++ r) <> Storage.file_path base u i.
Proof.
  intros Q. apply (f_equal (fun p => p !! length base)) in Q.
  assert (R : Storage.file_path base u i !! length base = Some (uuid_to_string u)).
  { unfold Storage.file_path, Storage.user_dir. rewrite <- app_assoc, lookup_app_r, Nat.sub_diag; done. }
  rewrite R in Q. apply lookup_take_Some in Q as [Q _].
  unfold payloads in Q. rewrite <- !app_assoc, lookup_app_r, Nat.sub_diag in Q by done. cbn in Q.
  injection Q as Q. by apply (uuid_not u (lit "backups")).
Qed.

Lemma file_path_inj i j : is_uuid i -> is_uuid j -> Storage.file_path base u i = Storage.file_path base u j -> i = j.
Proof.
  intros Hi Hj E. unfold Storage.file_path, Storage.user_dir in E. rewrite <- !app_assoc in E.
  apply app_inv_head in E. injection E as _ E. by apply uuid_text_inj.
Qed.

Lemma restorable_next f f' i b todo :
  is_uuid i -> (forall j c, (j, c) ∈ todo -> is_uuid j /\ j <> i) -> placed f f' i ->
  restorable f ((i, b) :: todo) -> restorable f' todo.
Proof.
  intros Hi Ht P [Rb Rp Rc Rw Rs]. split.
  - eapply placed_dir; [done| |done]. intros k Q. apply (f_equal length) in Q.
    rewrite length_take, file_path_length in Q. lia.
  - eapply placed_dir; [done| |done]. intros k. rewrite <- (app_nil_r (payloads _)). apply payloads_apart.
  - intros j c H. eapply placed_mono; [done| |eapply Rc; by right].
    intros Q. apply (payloads_apart i (length (payloads backup_dir ++ [uuid_to_string j])) [uuid_to_string j]).
    by rewrite take_ge.
  - intros j c H a r E Na. assert (N : base ++ a <> Storage.file_path base u i).
    { intros Q. apply (f_equal length) in Q, E. rewrite file_path_length, length_app in Q.
      rewrite length_app in E. simpl in E. lia. }
    destruct (P _ N) as [-> |(_ & -> & _)]; [|by right]. eapply Rw; [by right|exact E|done].
  - intros j c H. destruct (Ht j c H) as [Hj Nj]. unfold Storage.slot.
    destruct (P (Storage.file_path base u j)) as [-> |(_ & _ & L)].
    + intros Q. apply Nj. by apply file_path_inj.
    + eapply Rs. by right.
    + rewrite file_path_length in L. lia.
Qed.

Lemma in_place_keep f f' i l :
  is_uuid i -> (forall j c, (j, c) ∈ l -> is_uuid j /\ j <> i) -> placed f f' i -> in_place f l -> in_place f' l.
Proof.
  intros Hi Hl P D j c H. destruct (D j c H) as [R E]. destruct (Hl j c H) as [Hj Nj]. split.
  - eapply placed_dir; [done| |done]. intros k Q. apply (f_equal length) in Q.
    rewrite length_take, file_path_length in Q. unfold Storage.user_dir in Q. rewrite length_app in Q. simpl in Q. lia.
  - eapply placed_mono; [done| |done]. intros Q. apply Nj. by apply file_path_inj.
Qed.

(** Creating the directory of a file and writing the file. *)
Lemma place_file f i b todo :
  restorable f ((i, b) :: todo) ->
  exists f1 f2, create_dir_all f (Storage.user_dir base u i) = Some f1
    /\ write f1 (Storage.file_path base u i) b = Some f2
    /\ placed f f2 i /\ in_place f2 [(i, b)].
Proof.
  intros [Rb Rp Rc Rw Rs].
  destruct (Storage.create_way base f [uuid_to_string u; Storage.id_prefix i]) as (f1 & E & R1 & K); [done| | |].
  { apply Storage.site_dirs. }
  { eapply Rw. left. }
  change (base ++ [uuid_to_string u; Storage.id_prefix i]) with (Storage.user_dir base u i) in *.
  assert (L : forall p, (exists r, Storage.user_dir base u i = p ++ r) -> (length p <= 2 + length base)%nat).
  { intros p [r Q]. apply (f_equal length) in Q. unfold Storage.user_dir in Q. rewrite !length_app in Q. simpl in Q. lia. }
  assert (Sl : Storage.slot f1 (Storage.file_path base u i)).
  { unfold Storage.slot. destruct (K (Storage.file_path base u i)) as [-> |(_ & _ & X)]; [eapply Rs; left|].
    apply L in X. rewrite file_path_length in X. lia. }
  assert (W : write f1 (Storage.file_path base u i) b = Some (<[Storage.file_path base u i := File b]> f1)).
  { apply write_ready; [exact R1|exact Sl]. }
  eexists f1, _. split; [exact E|]. split; [exact W|]. split.
  - intros p N. rewrite lookup_insert_ne by done. destruct (K p) as [?|(? & ? & X)]; [by left|right]. auto.
  - intros j c H. apply list_elem_of_singleton in H. injection H as -> ->.
    split; [by apply dir_ready_file|]. apply lookup_insert_eq.
Qed.

(** C32: restoring the files of a backup.  With the disk answering, when the
    copies of stored files are in the backup directory with the hashes the
    manifest gives, and nothing but directories is in the way of the files,
    every file is restored, all are verified, none is corrupted, and each is on
    the disk below the directory of the backup service, at its stored path, with
    the content of its copy, whatever was there before.  The file service reads
    it back when it is configured with the same directory, which is not so by
    default ([bases_differ]). *)
Theorem restore_files_spec storage l w :
  reliable O -> NoDup (map fst l) -> Forall is_uuid (map fst l) -> restorable (disk (data w)) l ->
  exists w',
    restore_files backup_dir (map (stored_record u) l) (0, 0, 0) w
      = (Ok (Z.of_nat (length l), Z.of_nat (length l), 0), w')
    /\ (forall i b, (i, b) ∈ l -> disk (data w') !! Storage.file_path base u i = Some (File b))
    /\ (storage = base ->
        forall i b, (i, b) ∈ l -> fst (Storage.read_file storage (Storage.relative_path u i) w') = Ok b).
Proof.
  intros R ND Fu Rs.
  assert (G : forall r v done, (forall j c, (j, c) ∈ done -> is_uuid j /\ j ∉ map fst l) ->
    in_place (disk (data w)) done ->
    exists w', restore_files backup_dir (map (stored_record u) l) (r, v, 0) w
      = (Ok (r + Z.of_nat (length l), v + Z.of_nat (length l), 0), w')
    /\ dir_ready (disk (data w')) base /\ in_place (disk (data w')) (done ++ l)).
  { revert w Rs. induction l as [|[i b] l IH]; intros w Rs r v done Hd Dn.
    { exists w. rewrite app_nil_r. cbn [map restore_files length Z.of_nat]. rewrite !Z.add_0_r.
      split; [done|]. split; [apply Rs|done]. }
    cbn [map fst] in *. apply NoDup_cons in ND as [Ni ND]. apply Forall_cons in Fu as [Fi Fu].
    destruct (place_file _ _ _ _ Rs) as (f1 & f2 & E1 & E2 & P & I).
    set (w1 := mkWorld (data w) (S (pos w))). set (w2 := mkWorld (set_disk f1 (data w)) (S (pos w1))).
    set (w3 := mkWorld (set_disk f2 (data w2)) (S (pos w2))).
    assert (Ht : forall j c, (j, c) ∈ l -> is_uuid j /\ j <> i).
    { intros j c H. assert (Hj : j ∈ map fst l) by (apply list_elem_of_fmap; by exists (j, c)).
      split; [by eapply Forall_forall in Fu|]. by intros ->. }
    assert (Hd' : forall j c, (j, c) ∈ done -> is_uuid j /\ j <> i).
    { intros j c H. destruct (Hd j c H) as [? N]. split; [done|]. intros ->. destruct N. left. }
    destruct (IH ND Fu w3) with (r := r + 1) (v := v + 1) (done := done ++ [(i, b)]) as (w' & E & Rb & D).
    - by eapply restorable_next.
    - intros j c [H|H]%elem_of_app.
      + destruct (Hd j c H) as [? N]. split; [done|]. intros Hj. destruct N. by right.
      + apply list_elem_of_singleton in H. injection H as -> ->. done.
    - intros j c [H|H]%elem_of_app; [by eapply in_place_keep|by apply I].
    - exists w'. split; [|split; [done|by rewrite <- app_assoc in D]].
      cbn [restore_files stored_record fr_id fr_path fr_hash fst snd]. eapply bind_run.
      { eapply bind_run; [apply attempt_read; exact R|]. rewrite payload_uuid.
        destruct (read_ready (disk (data w)) (payloads backup_dir) (uuid_to_string i) b) as [_ ->];
          [apply Rs|apply Storage.uuid_plain|eapply rs_copies; [exact Rs|left]|].
        cbn [count_hash]. rewrite bool_decide_eq_true_2 by done. rewrite file_path_eq, file_path_parent.
        eapply bind_run.
        { change (mkWorld (data w) (S (pos w))) with w1. unfold discard, unwrap_or, mbind, M_bind.
          rewrite (Storage.fs_op_ok (fun f => create_dir_all f (Storage.user_dir base u i)) w1 f1 R E1). reflexivity. }
        eapply bind_run; [by apply (attempt_op _ w2 f2 R)|]. reflexivity. }
      fold w3. rewrite E. cbn [length].
      replace (r + 1 + Z.of_nat (length l)) with (r + Z.of_nat (Datatypes.S (length l))) by lia.
      by replace (v + 1 + Z.of_nat (length l)) with (v + Z.of_nat (Datatypes.S (length l))) by lia. }
  destruct (G 0 0 []) as (w' & E & Rb & D); [by intros ? ? ?%elem_of_nil|by intros ? ? ?%elem_of_nil|].
  exists w'. split; [exact E|]. split; [intros i b H; by destruct (D i b H)|].
  intros -> i b H. destruct (D i b H). by apply Storage.read_stored.
Qed.
End RestoreFiles.

(** the two directories.  Where neither is configured, the backups are below
    another directory than the one config.rs gives the file service: what one
    writes the other does not find. *)
Theorem bases_differ cwd : backup_base None cwd <> cwd ++ Storage.components (lit "./data/storage").
Proof.
  change (backup_base None cwd) with [lit "data"; lit "pcos"; lit "storage"].
  change (Storage.components (lit "./data/storage")) with [lit "data"; lit "storage"].
  destruct cwd as [|a [|b [|c [|]]]]; cbn [app]; intros E; simplify_eq.
Qed.

(** ** Retention *)

Lemma remove_dir_run p w :
  exists w', remove_dir p w = (Ok tt, w') /\ data w' = set_disk (disk (data w')) (data w).
Proof.
  unfold remove_dir, discard, unwrap_or, mbind, M_bind.
  destruct (Storage.fs_op _ w) as [o w'] eqn:E. apply Storage.fs_op_inv in E as E'.
  assert (D : data w' = set_disk (disk (data w')) (data w)).
  { destruct E' as [->|(d & _ & _ & ->)]; [by destruct (data w)|done]. }
  unfold Storage.fs_op, io in E. destruct (io_fault _); [|destruct (remove_dir_all _ _)]; simplify_eq; eauto.
Qed.

(** Nothing refers to a backup: deleting rows keeps the constraints. *)
Lemma schema_delete_backups p s : schema_ok s = true -> schema_ok (set_backups (delete_rows p (backups s)) s) = true.
Proof.
  assert (U : forall t : list Backup.row, unique_key Backup.id t = true -> unique_key Backup.id (delete_rows p t) = true).
  { intros t H. unfold unique_key in *. apply bool_decide_eq_true in H. apply bool_decide_eq_true.
    eapply sublist_NoDup; [exact H|]. unfold delete_rows. clear.
    induction t as [|x t IH]; [constructor|]. cbn. destruct (negb (p x)); by constructor. }
  assert (F : forall (q : Backup.row -> bool) t, forallb q t = true -> forallb q (delete_rows p t) = true).
  { intros q t H. apply forallb_forall. intros x Hx. rewrite forallb_forall in H. apply H.
    by apply filter_In in Hx as [? _]. }
  intros Hs. unfold schema_ok in *. apply andb_true_iff in Hs as [K R].
  unfold keys_ok, rows_ok in *. rewrite !andb_true_iff in *. destruct_and!.
  split_and!; try assumption; [by apply U|]. apply F. assumption.
Qed.

Definition among (l : list Backup.row) (b : Backup.row) : bool :=
  existsb (fun o => backup_is (Backup.id o) b) l.

Lemma delete_old_run l n w :
  reliable O -> schema_ok (data w) = true ->
  exists w', delete_old l n w = (Ok (n + Z.of_nat (length l)), w')
    /\ backups (data w') = delete_rows (among l) (backups (data w)).
Proof.
  intros R. revert n w. induction l as [|b l IH]; intros n w Sc; cbn [delete_old].
  { exists w. cbn [length Z.of_nat]. rewrite Z.add_0_r. split; [done|]. unfold delete_rows, among. cbn.
    symmetry. induction (backups (data w)) as [|x t IHt]; [done|]. cbn. by rewrite IHt. }
  destruct (remove_dir_run (at_base (Backup.storage_path b)) w) as (w1 & E1 & D1).
  assert (Sc1 : schema_ok (data w1) = true) by (rewrite D1; exact Sc).
  set (s2 := set_backups (delete_rows (backup_is (Backup.id b)) (backups (data w1))) (data w1)).
  set (w2 := mkWorld s2 (S (pos w1))).
  assert (E2 : discard (execute schema_ok (fun _ s =>
    (tt, set_backups (delete_rows (backup_is (Backup.id b)) (backups s)) s))) w1 = (Ok tt, w2)).
  { unfold discard, unwrap_or, mbind, M_bind, execute, statement, checked. rewrite (proj1 (R _)). cbn [fst snd].
    fold s2. assert (schema_ok s2 = true) as -> by (by apply schema_delete_backups). done. }
  destruct (IH (n + 1) w2) as (w' & E & D); [by apply schema_delete_backups|].
  exists w'. split.
  - eapply bind_run; [exact E1|]. eapply bind_run; [exact E2|]. rewrite E. cbn [length].
    by replace (n + 1 + Z.of_nat (length l)) with (n + Z.of_nat (Datatypes.S (length l))) by lia.
  - rewrite D. cbn [data w2]. unfold s2. cbn [backups set_backups]. rewrite D1. cbn [backups set_disk].
    unfold delete_rows. induction (backups (data w)) as [|x t IHt]; [done|]. cbn. unfold among in *. cbn [existsb].
    destruct (backup_is (Backup.id b) x); cbn [negb orb]; [exact IHt|]. cbn [List.filter].
    destruct (existsb _ l); cbn [negb]; [exact IHt|]. by rewrite IHt.
Qed.

(** retention.  With the database and the disk answering, enforcing a
    retention of [keep] backups deletes from the table exactly the user's
    backups after the [keep] newest, answers their number, and leaves every
    backup of every other user; no deleted backup is newer than a kept one. *)
Theorem retention_spec u keep w :
  reliable O -> schema_ok (data w) = true -> 0 <= keep ->
  let mine := sort_by newest_backup (select (backup_of u) (backups (data w))) in
  let old := drop (Z.to_nat keep) mine in
  exists w', enforce_retention u keep w = (Ok (Z.of_nat (length old)), w')
    /\ (forall b, b ∈ backups (data w') <-> b ∈ backups (data w) /\ b ∉ old)
    /\ (forall b o, b ∈ backups (data w') -> Backup.user_id b = u -> o ∈ old ->
          Backup.created_at o <= Backup.created_at b).
Proof.
  intros R Sc Hk mine old.
  assert (In : forall b, b ∈ mine <-> b ∈ backups (data w) /\ Backup.user_id b = u).
  { intros b. unfold mine. rewrite (sort_by_perm newest_backup), elem_select. unfold backup_of.
    by rewrite Z.eqb_eq. }
  assert (Old : forall b, b ∈ old -> b ∈ backups (data w)).
  { intros b Hb. apply In. unfold old in Hb. rewrite <- (take_drop (Z.to_nat keep) mine). apply elem_of_app. by right. }
  destruct (delete_old_run old 0 (mkWorld (data w) (S (pos w)))) as (w' & E & D); [done|done|].
  assert (Mem : forall b, b ∈ backups (data w') <-> b ∈ backups (data w) /\ b ∉ old).
  { intros b. rewrite D. cbn [data]. rewrite elem_delete. split; intros [Hb H]; (split; [done|]).
    - intros Ho. unfold among in H. assert (existsb (fun o => backup_is (Backup.id o) b) old = true); [|congruence].
      apply existsb_exists. exists b. split; [by apply list_elem_of_In|]. apply Z.eqb_refl.
    - unfold among. apply not_true_iff_false. intros X. apply existsb_exists in X as (o & Ho & Eo).
      apply list_elem_of_In in Ho. apply Z.eqb_eq in Eo. destruct H.
      by rewrite (unique_key_inj Backup.id (backups (data w)) b o (key_backup _ Sc) Hb (Old o Ho) Eo). }
  exists w'. split; [|split; [exact Mem|]].
  - unfold enforce_retention, map_err, mbind, M_bind, statement. rewrite (proj1 (R _)).
    assert ((keep <? 0) = false) as -> by (apply Z.ltb_ge; lia). cbn. exact E.
  - intros b o Hb Ub Ho. apply Mem in Hb as [Hb Nb].
    assert (Hm : b ∈ mine) by (by apply In). rewrite <- (take_drop (Z.to_nat keep) mine) in Hm.
    apply elem_of_app in Hm as [Hm|Hm]; [|done].
    assert (St : sorted_by newest_backup mine).
    { apply sort_by_sorted; unfold newest_backup; intros; lia. }
    rewrite <- (take_drop (Z.to_nat keep) mine) in St. apply sorted_app in St as (_ & _ & P).
    specialize (P b o Hm Ho). unfold newest_backup in P. lia.
Qed.
End Backups.

(** ** A concrete run *)

(** A codec of manifests: a manifest numbered. *)
Definition entry_fields (e : FileEntryBackupRecord) :=
  (fe_id e, fe_parent e, fe_name e, fe_type e, fe_mime e, fe_size e, fe_hash e, fe_path e, fe_trashed e).

#[export] Instance entry_dec : EqDecision FileEntryBackupRecord.
Proof. solve_decision. Defined.

#[export] Instance entry_countable : Countable FileEntryBackupRecord.
Proof.
  refine (inj_countable' entry_fields (fun '(i, p, n, t, m, s, h, q, x) =>
    {| fe_id := i; fe_parent := p; fe_name := n; fe_type := t; fe_mime := m; fe_size := s; fe_hash := h;
       fe_path := q; fe_trashed := x |}) _). by intros [].
Defined.

#[export] Instance version_dec : EqDecision VersionBackupRecord.
Proof. solve_decision. Defined.

#[export] Instance version_countable : Countable VersionBackupRecord.
Proof.
  refine (inj_countable'
    (fun v => (ver_id v, ver_file v, ver_number v, ver_size v, ver_hash v, ver_path v, ver_created_by v))
    (fun '(i, f, n, s, h, p, c) =>
    {| ver_id := i; ver_file := f; ver_number := n; ver_size := s; ver_hash := h; ver_path := p;
       ver_created_by := c |}) _). by intros [].
Defined.

#[export] Instance share_dec : EqDecision ShareLinkBackupRecord.
Proof. solve_decision. Defined.

#[export] Instance share_countable : Countable ShareLinkBackupRecord.
Proof.
  refine (inj_countable'
    (fun l => (sl_id l, sl_file l, sl_token l, sl_permission l, sl_password l, sl_expires l, sl_max l, sl_count l, sl_active l))
    (fun '(i, f, t, p, w, e, m, c, a) =>
    {| sl_id := i; sl_file := f; sl_token := t; sl_permission := p; sl_password := w; sl_expires := e;
       sl_max := m; sl_count := c; sl_active := a |}) _). by intros [].
Defined.

#[export] Instance file_dec : EqDecision ManifestFile.
Proof. solve_decision. Defined.

#[export] Instance file_countable : Countable ManifestFile.
Proof.
  refine (inj_countable' (fun f => (mf_id f, mf_name f, mf_path f, mf_size f, mf_hash f))
    (fun '(i, n, p, s, h) =>
    {| mf_id := i; mf_name := n; mf_path := p; mf_size := s; mf_hash := h |}) _). by intros [].
Defined.

Definition manifest_fields (m : Manifest) :=
  (backup_id m, owner m, manifest_name m, manifest_created m, manifest_count m, files_copied m, total_size m,
   files m, entries m, versions m, shares m).

#[export] Instance manifest_dec : EqDecision Manifest.
Proof. solve_decision. Defined.

#[export] Instance manifest_countable : Countable Manifest.
Proof.
  refine (inj_countable' manifest_fields (fun '(i, o, n, c, k, f, t, fs, es, vs, ss) =>
    {| backup_id := i; owner := o; manifest_name := n; manifest_created := c; manifest_count := k;
       files_copied := f; total_size := t; files := fs; entries := es; versions := vs; shares := ss |}) _).
  by intros [].
Defined.

Definition toy_read (b : bytes) : rstr + ManifestView :=
  match b with
  | [Zpos p] =>
      match decode (A := Manifest) p with
      | Some m => inr (@view_of plain_uuid m)
      | None => inl (lit "expected value")
      end
  | _ => inl (lit "expected value")
  end.

Definition toy_manifest : @ManifestText plain_uuid.
Proof.
  refine {| manifest_print m := [Zpos (encode m)]; utf8 b := bool_decide (length b = 1%nat); manifest_read := toy_read |}.
  - done.
  - intros m. unfold toy_read. by rewrite decode_encode.
Defined.

(** pg_dump, which leaves its dump. *)
Definition toy_dump (url : rstr) (p : path) (f : fs) : fs := <[p := File (lit "-- PostgreSQL database dump")]> f.

Lemma toy_dumps_only : dumps_only toy_dump.
Proof. intros url p f q N. by apply lookup_insert_ne. Qed.

(** Bob's file and its version of Versions.v, backed up. *)
Definition demo_world : World Server := Versions.demo_world.

Definition demo_id : Z := Eval vm_compute in uuid_at (Oracle := toy_env []) (pos demo_world).

Definition demo_create (w : World Server) :=
  create_backup (O := toy_env []) (S2 := toy_sha256) (HX := plain_hex) (UT := plain_uuid) (MT := toy_manifest)
    Storage.demo_base (Some (lit "postgres://")) toy_dump 2 {| backup_name := lit "nightly" |} w.

Definition demo_verify (w : World Server) :=
  verify_backup (O := toy_env []) (S2 := toy_sha256) (HX := plain_hex) (UT := plain_uuid) (MT := toy_manifest)
    Storage.demo_base 2 (demo_id) w.

Definition demo_restore (w : World Server) :=
  restore_backup (O := toy_env []) (S2 := toy_sha256) (HX := plain_hex) (UT := plain_uuid) (MT := toy_manifest)
    Storage.demo_base 2 (demo_id) w.

Definition demo_dir : path := Eval vm_compute in
  Storage.demo_base ++ [lit "backups"; plain_uuid_to_string 2; plain_uuid_to_string (demo_id)].

(** No path under [d]. *)
Definition nothing_under (f : fs) (d : path) : bool :=
  forallb (fun e => negb (bool_decide (take (length d) (fst e) = d))) (map_to_list f).

Lemma nothing_under_ok f d r : nothing_under f d = true -> f !! (d ++ r) = None.
Proof.
  intros H. destruct (f !! (d ++ r)) as [n|] eqn:E; [|done]. apply elem_of_map_to_list in E.
  unfold nothing_under in H. rewrite forallb_forall in H. apply list_elem_of_In in E. specialize (H _ E).
  cbn in H. rewrite take_app_length, bool_decide_eq_true_2 in H by done. done.
Qed.

Abbreviation demo_created := (create_backup (O := toy_env []) (S2 := toy_sha256) (HX := plain_hex)
  (UT := plain_uuid) (MT := toy_manifest) Storage.demo_base (Some (lit "postgres://")) toy_dump 2
  {| backup_name := lit "nightly" |} demo_world).
Abbreviation demo_backed := (snd demo_created).

Lemma demo_created_run : exists b, demo_created = (Ok b, snd demo_created).
Proof.
  assert (E : match fst demo_created with Ok _ => true | _ => false end = true) by (vm_compute; reflexivity).
  destruct demo_created as [[b|e| |] w']; [|discriminate E..]. by exists b.
Qed.

Lemma demo_ids f : f ∈ file_entries (data demo_world) -> is_uuid (FileEntry.id f).
Proof.
  assert (T : file_entries (data demo_world) = [Sharing.demo_file]) by (vm_compute; reflexivity).
  rewrite T. intros ->%list_elem_of_singleton. split; vm_compute; [intros X; discriminate X|reflexivity].
Qed.

Lemma demo_base_ready : dir_ready (disk (data demo_world)) Storage.demo_base.
Proof. apply dir_ready_intro; vm_compute; reflexivity. Qed.

Lemma demo_base_open : open_way (disk (data demo_world)) Storage.demo_base [lit "backups"; plain_uuid_to_string 2].
Proof. apply open_way_two; vm_compute; reflexivity. Qed.

Lemma demo_nothing : nothing_under (disk (data demo_world)) demo_dir = true.
Proof. vm_compute. reflexivity. Qed.

Lemma backup_verifies_witness : exists a w'',
  verify_backup (O := toy_env []) (S2 := toy_sha256) (HX := plain_hex) (UT := plain_uuid) (MT := toy_manifest)
    Storage.demo_base 2 (demo_id) demo_backed = (Ok a, w'') /\ healthy a = true.
Proof.
  destruct demo_created_run as [b E].
  destruct (backup_verifies (O := toy_env []) (S2 := toy_sha256) (HX := plain_hex) (UT := plain_uuid)
    (MT := toy_manifest) Storage.demo_base (Some (lit "postgres://")) toy_dump 2 {| backup_name := lit "nightly" |}
    demo_world b _ toy_env_reliable toy_dumps_only Versions.demo_schema demo_ids demo_base_ready demo_base_open
    (fun r => nothing_under_ok _ demo_dir r demo_nothing) E) as (_ & _ & _ & a & w'' & V & Hl).
  exists a, w''. split; [|exact Hl].
  replace (Backup.id b) with demo_id in V; [exact V|].
  apply (f_equal fst) in E. vm_compute in E. injection E as <-. reflexivity.
Defined.

Lemma verify_witness : exists a w',
  verify_backup_dir (O := toy_env []) (S2 := toy_sha256) (HX := plain_hex) (UT := plain_uuid) (MT := toy_manifest)
    demo_id demo_dir demo_world = (Ok a, w') /\ data w' = data demo_world.
Proof.
  destruct (verify_spec (O := toy_env []) (S2 := toy_sha256) (HX := plain_hex) (UT := plain_uuid)
    (MT := toy_manifest) demo_id demo_dir demo_world toy_env_reliable) as (a & w' & V & D & _).
  exists a, w'. split; [exact V|exact D].
Defined.

(** The disk with the live files of the user removed, and its backup. *)
Definition demo_lost : World Server :=
  let w := demo_backed in
  mkWorld (set_disk (without (Storage.demo_base ++ [plain_uuid_to_string 2]) (disk (data w))) (data w)) (pos w).

Definition demo_file_id : Z := Eval vm_compute in FileEntry.id Sharing.demo_file.

Lemma demo_lost_restorable :
  restorable (UT := plain_uuid) Storage.demo_base 2 demo_id (disk (data demo_lost)) [(demo_file_id, [1; 2; 3])].
Proof.
  split.
  - apply dir_ready_intro; vm_compute; reflexivity.
  - apply dir_ready_intro; vm_compute; reflexivity.
  - intros i b [= -> ->]%list_elem_of_singleton. vm_compute. reflexivity.
  - intros i b [= -> ->]%list_elem_of_singleton. apply open_way_two; vm_compute; reflexivity.
  - intros i b [= -> ->]%list_elem_of_singleton. left. vm_compute. reflexivity.
Qed.

Lemma restore_files_witness : exists w',
  restore_files (O := toy_env []) (S2 := toy_sha256) (HX := plain_hex) Storage.demo_base demo_dir
    [stored_record (S2 := toy_sha256) (HX := plain_hex) (UT := plain_uuid) 2 (demo_file_id, [1; 2; 3])] (0, 0, 0) demo_lost
    = (Ok (1, 1, 0), w')
  /\ fst (Storage.read_file (O := toy_env []) Storage.demo_base
       (Storage.relative_path (UT := plain_uuid) 2 demo_file_id) w') = Ok [1; 2; 3].
Proof.
  destruct (restore_files_spec (O := toy_env []) (S2 := toy_sha256) (HX := plain_hex) (UT := plain_uuid)
    Storage.demo_base 2 demo_id Storage.demo_base [(demo_file_id, [1; 2; 3])] demo_lost toy_env_reliable) as (w' & E & _ & R).
  - apply NoDup_singleton.
  - apply Forall_singleton. split; vm_compute; [intros X; discriminate X|reflexivity].
  - exact demo_lost_restorable.
  - exists w'. split; [exact E|]. apply (R eq_refl). left.
Defined.

Definition demo_backup (i at_ : Z) : Backup.row :=
  {| Backup.id := i; Backup.user_id := 2; Backup.name := lit "b"; Backup.status := lit "completed";
     Backup.size_bytes := 0; Backup.file_count := 0; Backup.storage_path := backup_path (UT := plain_uuid) 2 i;
     Backup.created_at := at_; Backup.completed_at := Some at_ |}.

Definition demo_backups : World Server :=
  mkWorld (set_backups [demo_backup 80 5; demo_backup 81 7; demo_backup 82 6] (data demo_world)) (pos demo_world).

Lemma demo_backups_schema : schema_ok (data demo_backups) = true.
Proof. vm_compute. reflexivity. Qed.

Lemma demo_old : drop (Z.to_nat 1) (sort_by newest_backup (select (backup_of 2) (backups (data demo_backups))))
  = [demo_backup 82 6; demo_backup 80 5].
Proof. vm_compute. reflexivity. Qed.

Lemma retention_witness : exists w',
  enforce_retention (O := toy_env []) Storage.demo_base 2 1 demo_backups = (Ok 2, w')
  /\ demo_backup 81 7 ∈ backups (data w').
Proof.
  destruct (retention_spec (O := toy_env []) Storage.demo_base 2 1 demo_backups toy_env_reliable
    demo_backups_schema) as (w' & E & M & _); [discriminate|].
  exists w'. split; [exact E|]. apply M. rewrite demo_old. split.
  - right. left.
  - intros [H|[H|H%elem_of_nil]%elem_of_cons]%elem_of_cons; [discriminate H..|exact H].
Defined.

(** ** What a restoration does not give back *)

(** Two folders, the inner one listed first; and the loss of all entries. *)
Definition demo_nested : World Server :=
  mkWorld (set_file_versions [] (set_file_entries
    [Tree.demo_owned 2 31 (Some 30) "sub" "folder"; Tree.demo_owned 2 30 None "docs" "folder"] (data demo_world))) (pos demo_world).

Definition forget (w : World Server) : World Server :=
  mkWorld (set_file_versions [] (set_file_entries [] (data w))) (pos w).

Definition overwrite (p : path) (b : bytes) (w : World Server) : World Server :=
  mkWorld (set_disk (<[p := File b]> (disk (data w))) (data w)) (pos w).

Definition demo_live (w : World Server) : option bytes :=
  read (disk (data w)) (Storage.file_path (UT := plain_uuid) Storage.demo_base 2 demo_file_id).

Definition answered (r : outcome RestoreAnswer * World Server) : option (rstr * Z * Z * Z) :=
  match fst r with
  | Ok a => Some (restore_status a, files_restored a, entries_restored a, corruptions_detected a)
  | _ => None
  end.

(** what a restoration does not give back.  An inner folder that the
    manifest lists before the folder it is in is refused by the database when
    all entries are gone; the refusal is ignored, the folder is lost, and the
    answer counts it as restored.  And a copy whose hash is not the recorded
    one replaces the live file, which was good; only the status says so. *)
Theorem restore_gaps :
  (let r := demo_restore (forget (snd (demo_create demo_nested))) in
   answered r = Some (lit "restored", 0, 2, 0) /\ map FileEntry.id (file_entries (data (snd r))) = [30])
  /\ (let w := overwrite (payload demo_dir (plain_uuid_to_string demo_file_id)) [0] (snd (demo_create demo_world)) in
      let r := demo_restore w in
      demo_live w = Some [1; 2; 3] /\ answered r = Some (lit "restored_with_warnings", 1, 1, 1)
      /\ demo_live (snd r) = Some [0]).
Proof. cbv zeta. split_and!; vm_compute; reflexivity. Qed.
End Backups.
