(* ===== verification/Restore.v ===== *)
(** * Restore: whose rows a restoration writes

    restore_backup of backend/crates/backup/src/service.rs compares the caller
    with the owner of the backup, and no row its manifest names with anybody: an
    upsert by identifier takes a row whoever owns it.  What follows is what can
    be said when the manifest on the disk names no row of another user, and what
    happens when it does. *)

From S2P Require Import Prelude Text Effects Externals Fs Schema Account Storage Files Tree Tenancy Quota Sharing Versions Backup.

Module Restoring.
Import Files Tree Tenancy Fs Backups.

(** The rows a manifest overwrites or puts something below are not another
    user's. *)
Definition own_records (u : Z) (m : ManifestView) (s : Server) : Prop :=
  (forall e, e ∈ default [] (v_entries m) ->
     ~ foreign u s (fe_id e) /\ forall p, fe_parent e = Some p -> ~ foreign u s p)
  /\ (forall x, x ∈ default [] (v_shares m) -> ~ foreign u s (sl_file x)).

(** A step that keeps the files to their owners while the manifest does. *)
Definition restores (u : Z) (m : ManifestView) (s s' : Server) : Prop :=
  tidy s -> own_records u m s -> tidy s' /\ others_kept u s s'.

Lemma foreign_back u s s' i : others_kept u s s' -> foreign u s' i -> foreign u s i.
Proof.
  intros [K _] (f & Hf & E & N). exists f. split; [|done].
  assert (H : f ∈ select (owned_by (FileEntry.user_id f)) (file_entries s')).
  { apply elem_select. split; [done|]. apply Z.eqb_refl. }
  rewrite K in H by done. by apply elem_select in H as [? _].
Qed.

Lemma own_records_kept u m s s' : others_kept u s s' -> own_records u m s -> own_records u m s'.
Proof.
  intros K [E L]. split.
  - intros e He. destruct (E e He) as [N P]. split; [by intros X%(foreign_back _ _ _ _ K)|].
    intros p Ep X%(foreign_back _ _ _ _ K). by apply (P p).
  - intros x Hx X%(foreign_back _ _ _ _ K). by apply (L x).
Qed.

#[export] Instance restores_preorder u m : PreOrder (restores u m).
Proof.
  split; [intros s T _; split; [done|apply others_kept_refl]|].
  intros s1 s2 s3 H1 H2 T O1. destruct (H1 T O1) as [T2 K1].
  destruct (H2 T2 (own_records_kept _ _ _ _ K1 O1)) as [T3 K2].
  split; [done|]. assert (I1 : isolated u s1 s2) by done. assert (I2 : isolated u s2 s3) by done.
  by destruct (transitivity (R := isolated u) I1 I2 T).
Qed.

Lemma isolated_restores u m s s' : isolated u s s' -> restores u m s s'.
Proof. intros I T _. by apply I. Qed.

(** A row that is not another user's. *)
Lemma not_foreign u s i x :
  ~ foreign u s i -> x ∈ file_entries s -> FileEntry.id x = i -> FileEntry.user_id x = u.
Proof. intros N Hx E. destruct (decide (FileEntry.user_id x = u)); [done|]. destruct N. by exists x. Qed.

(** ** The writes *)

Lemma upsert_kept u e now s :
  ~ foreign u s (fe_id e) -> (forall p, fe_parent e = Some p -> ~ foreign u s p) ->
  tidy s -> schema_ok (upsert_entry u now e s) = true ->
  owned (upsert_entry u now e s) /\ others_kept u s (upsert_entry u now e s).
Proof.
  intros N P [Sc [T L]] Sc'. unfold upsert_entry in *. destruct (exists_row _ _) eqn:X.
  - set (g := fun f => _) in *. assert (G : forall x, FileEntry.id (g x) = FileEntry.id x
      /\ FileEntry.user_id (g x) = FileEntry.user_id x /\ FileEntry.parent_id (g x) = fe_parent e) by done.
    assert (O : forall x, x ∈ file_entries s -> has_id (fe_id e) x = true -> FileEntry.user_id x = u).
    { intros x Hx E. apply Z.eqb_eq in E. by apply (not_foreign u s (fe_id e)). }
    split; [split|].
    + intros f p Hf Hp E. apply elem_update in Hf as (f0 & Hf & ->), Hp as (p0 & Hp & ->).
      assert (I : forall x, FileEntry.id (if has_id (fe_id e) x then g x else x) = FileEntry.id x
        /\ FileEntry.user_id (if has_id (fe_id e) x then g x else x) = FileEntry.user_id x).
      { intros x. by destruct (has_id _ x). }
      rewrite (proj1 (I p0)) in E. rewrite (proj2 (I p0)), (proj2 (I f0)).
      destruct (has_id (fe_id e) f0) eqn:If; [|by apply T].
      rewrite (O f0 Hf If). by apply (not_foreign u s (FileEntry.id p0) p0 (P _ E)).
    + apply (links_owned_rows s); [done| |exact L]. intros x Hx. apply elem_update in Hx as (x0 & Hx & ->).
      exists x0. by destruct (has_id _ x0).
    + by apply update_kept.
  - set (r := FileEntry.Build_row _ _ _ _ _ _ _ _ _ _ _ _ _) in *.
    assert (Uq := fun x y => unique_key_inj _ _ x y (key_file _ Sc')).
    assert (Old : forall x, x ∈ file_entries s -> x ∈ file_entries (insert_file r s))
      by (intros x Hx; apply elem_insert; by left).
    split; [split|split; [|split; by intros]].
    + intros f p Hf Hp E. apply elem_insert in Hf as [Hf| ->].
      * destruct (file_parent _ _ _ Sc Hf E) as (d & Hd & Ed).
        assert (d = p) as <- by (apply Uq; [by apply Old|done|done]). by apply T.
      * apply elem_insert in Hp as [Hp| ->]; [|done].
        by apply (not_foreign u s (FileEntry.id p) p (P _ E)).
    + intros l f Hl Hf E. destruct (link_file _ _ Sc Hl) as (d & Hd & Ed).
      assert (d = f) as <- by (apply Uq; [by apply Old|done|congruence]). by apply L.
    + intros v Nv. unfold insert_file. cbn [file_entries set_file_entries]. rewrite select_insert.
      unfold owned_by at 2. assert ((FileEntry.user_id r =? v) = false) as -> by (apply Z.eqb_neq; cbn; lia).
      apply app_nil_r.
Qed.

Lemma insert_version_kept u v now p s : tidy s ->
  owned (insert_version now v p s) /\ others_kept u s (insert_version now v p s).
Proof.
  intros [_ O]. unfold insert_version. destruct (exists_row _ _); [split; [done|apply others_kept_refl]|].
  split; [exact O|]. split; [done|]. split; [|by intros]. intros x Hx _. apply elem_insert. by left.
Qed.

Lemma insert_share_kept u x now s : ~ foreign u s (sl_file x) -> tidy s ->
  owned (insert_share u now x s) /\ others_kept u s (insert_share u now x s).
Proof.
  intros N [_ [T L]]. unfold insert_share. destruct (exists_row _ _); [split; [done|apply others_kept_refl]|].
  split; [split; [exact T|]|].
  - intros l f Hl Hf E. apply elem_insert in Hl as [Hl| ->]; [by apply L|]. by apply (not_foreign u s (sl_file x)).
  - split; [done|]. split; [by intros|]. intros l Hl _. apply elem_insert. by left.
Qed.

(** ** The loops *)

Section Restore.
Context {O : Oracle} {S2 : Sha256} {HX : Hex} {UT : UuidText} {MT : ManifestText}.
Context (base : path).

(** A step on the disk. *)
Ltac on_disk :=
  repeat first
    [ match goal with |- preserves (restores ?u ?m) ?x =>
        assert (preserves tables_same x) as D by (first [apply fs_op_tables | apply fs_read_tables]);
        intros ? ? ? Hx; by apply isolated_restores, tables_same_isolated, (D _ _ _ Hx) end
    | progress preserve ].

Lemma restore_files_kept u m dir l c : preserves (restores u m) (restore_files base dir l c).
Proof.
  revert c. induction l as [|f l IH]; intros c; cbn [restore_files]; [apply preserves_ret; apply _|].
  apply preserves_bind; [apply _| |apply IH]. unfold read_disk, write_disk. on_disk.
Qed.

Lemma restore_entries_kept u m l n :
  (forall e, e ∈ l -> e ∈ default [] (v_entries m)) -> preserves (restores u m) (restore_entries u l n).
Proof.
  revert n. induction l as [|e l IH]; intros n H; cbn [restore_entries]; [apply preserves_ret; apply _|].
  apply preserves_bind; [apply _| |intros _; apply IH; intros x Hx; apply H; by right].
  apply preserves_discard; [apply _|]. apply preserves_execute; [apply _|]. intros now s a s' [= _ <-] Sc T [E _].
  destruct (E e) as [N P]; [apply H; left|]. by destruct (upsert_kept u e now s N P T Sc).
Qed.

Lemma restore_versions_kept u m dir l : preserves (restores u m) (restore_versions base dir l).
Proof.
  induction l as [|v l IH]; cbn [restore_versions]; [apply preserves_ret; apply _|].
  apply preserves_bind; [apply _| |intros _; apply preserves_bind; [apply _| |intros _; exact IH]].
  - unfold read_disk, write_disk. on_disk.
  - apply preserves_discard; [apply _|]. apply preserves_statement; [apply _|]. intros now s a s' E T _.
    destruct (ver_path v) as [p|]; [|done]. apply checked_Rows in E as [[= _ <-] Sc].
    by destruct (insert_version_kept u v now p s T).
Qed.

Lemma restore_shares_kept u m l :
  (forall x, x ∈ l -> x ∈ default [] (v_shares m)) -> preserves (restores u m) (restore_shares u l).
Proof.
  induction l as [|x l IH]; intros H; cbn [restore_shares]; [apply preserves_ret; apply _|].
  apply preserves_bind; [apply _| |intros _; apply IH; intros y Hy; apply H; by right].
  apply preserves_discard; [apply _|]. apply preserves_execute; [apply _|]. intros now s a s' [= _ <-] Sc T [_ L].
  by destruct (insert_share_kept u x now s (L x (H x ltac:(left))) T).
Qed.

Lemma folders_first_elem e l : e ∈ folders_first l -> e ∈ l.
Proof.
  unfold folders_first. rewrite elem_of_app, !list_elem_of_In, !filter_In. tauto.
Qed.

(** ** The restoration *)

(** The manifest of a backup of the user, as it is on the disk, names no row of
    another user. *)
Definition own_manifest (u i : Z) (s : Server) : Prop :=
  forall b t m, b ∈ backups s -> Backup.id b = i -> Backup.user_id b = u ->
    read (disk s) (manifest_path (at_base base (Backup.storage_path b))) = Some t -> manifest_read t = inr m ->
    own_records u m s.

(** The same, to be evaluated. *)
Definition own_row (u : Z) (s : Server) (i : Z) : bool :=
  forallb (fun f => negb (FileEntry.id f =? i) || (FileEntry.user_id f =? u)) (file_entries s).

Definition own_records_test (u : Z) (m : ManifestView) (s : Server) : bool :=
  forallb (fun e => own_row u s (fe_id e) && opt_all (own_row u s) (fe_parent e)) (default [] (v_entries m))
  && forallb (fun x => own_row u s (sl_file x)) (default [] (v_shares m)).

Definition own_manifest_test (u i : Z) (s : Server) : bool :=
  forallb (fun b => negb ((Backup.id b =? i) && (Backup.user_id b =? u))
    || match read (disk s) (manifest_path (at_base base (Backup.storage_path b))) with
       | Some t => match manifest_read t with inr m => own_records_test u m s | inl _ => true end
       | None => true
       end) (backups s).

Lemma own_row_ok u s i : own_row u s i = true -> ~ foreign u s i.
Proof.
  intros H (f & Hf & E & N). unfold own_row in H. rewrite forallb_forall in H. apply list_elem_of_In, H in Hf. boolify. lia.
Qed.

Lemma own_manifest_test_ok u i s : own_manifest_test u i s = true -> own_manifest u i s.
Proof.
  intros H b t m Hb Ib Ub Rd Mr. unfold own_manifest_test in H. rewrite forallb_forall in H.
  apply list_elem_of_In, H in Hb. rewrite Ib, Ub, !Z.eqb_refl, Rd, Mr in Hb. cbn [andb negb orb] in Hb.
  apply andb_true_iff in Hb as [E L]. rewrite forallb_forall in E, L. split.
  - intros e He. apply list_elem_of_In, E, andb_true_iff in He as [He P]. split; [by apply own_row_ok|].
    intros p Ep. rewrite Ep in P. by apply own_row_ok.
  - intros x Hx. apply list_elem_of_In, L in Hx. by apply own_row_ok.
Qed.

(** What follows the reading of the manifest. *)
Lemma after_manifest u i b m :
  preserves (restores u m)
    (counts ← restore_files base (at_base base (Backup.storage_path b)) (default [] (v_files m)) (0, 0, 0);
     let '(restored, verified, corrupted) := counts in
     n ← restore_entries u (folders_first (default [] (v_entries m))) 0;
     _ ← restore_versions base (at_base base (Backup.storage_path b)) (default [] (v_versions m));
     _ ← restore_shares u (default [] (v_shares m));
     _ ← execute schema_ok (fun _ s =>
           (tt, set_backups (update (backup_is i) (Backup.set_status (lit "restored")) (backups s)) s));
     mret {| restore_status := if corrupted =? 0 then lit "restored" else lit "restored_with_warnings";
             restored_id := i; files_restored := restored; entries_restored := n;
             checksums_verified := verified; corruptions_detected := corrupted;
             integrity_verified := corrupted =? 0 |}).
Proof.
  apply preserves_bind; [apply _|apply restore_files_kept|]. intros [[r v] k].
  apply preserves_bind; [apply _|apply restore_entries_kept; intros e; apply folders_first_elem|]. intros n.
  apply preserves_bind; [apply _|apply restore_versions_kept|]. intros _.
  apply preserves_bind; [apply _|by apply restore_shares_kept|]. intros _.
  apply preserves_bind; [apply _| |intros _; apply preserves_ret; apply _].
  apply preserves_execute; [apply _|]. intros now s a s' [= _ <-] Sc T _. split; [|by split_and!].
  by destruct T as [_ ?].
Qed.

Lemma restore_isolated u i w o w' :
  restore_backup base u i w = (o, w') -> tidy (data w) -> own_manifest u i (data w) ->
  tidy (data w') /\ others_kept u (data w) (data w').
Proof.
  intros H T OM. unfold restore_backup in H.
  assert (Stay : forall w1, data w = data w1 -> tidy (data w1) /\ others_kept u (data w) (data w1)).
  { intros w1 <-. split; [done|apply others_kept_refl]. }
  apply bind_inv in H as [(b & w1 & E & H)|(o' & E)].
  2: { apply Stay. revert E. apply (preserves_bind eq); [apply preserves_query; apply _|].
       intros x. apply preserves_ok_or. apply _. }
  unfold get_backup in E. apply bind_Ok in E as (x & w0 & E0 & E). apply query_Ok in E0 as (_ & -> & ->).
  destruct (find_row _ _) as [b'|] eqn:F; [|done]. apply ret_Ok in E as [-> <-].
  apply find_row_Some in F as [Hb Pb]. apply andb_true_iff in Pb as [Ib Ub]. apply Z.eqb_eq in Ib, Ub.
  cbn [data] in *. apply bind_inv in H as [(t & w2 & E & H)|(o' & E)].
  2: { apply Stay. change (data w) with (data (mkWorld (data w) (Datatypes.S (pos w)))).
       eapply (preserves_map_err eq); [|exact E]. apply preserves_io; [apply _|].
       intros s a s' Q. revert Q. by destruct (read _ _) as [x|]; [destruct (utf8 x)|]; intros [= _ <-]. }
  apply map_err_Ok in E. unfold read_text in E. apply Storage.fs_read_Ok in E as [E D2]. cbn [data] in E, D2.
  destruct (read _ _) as [t'|] eqn:Rd; [|done]. destruct (utf8 t'); [|done]. injection E as ->.
  destruct (manifest_read t) as [e|m] eqn:Mr.
  { apply Stay. rewrite <- D2. by injection H as _ <-. }
  assert (Own : own_records u m (data w)) by (by apply (OM b t m)).
  rewrite <- D2 in T, Own |- *. apply bind_inv in H as [(m' & w3 & E & H)|(o' & E)];
    [|injection E as _ <-; split; [done|apply others_kept_refl]].
  apply ret_Ok in E as [<- <-]. revert T Own. change (restores u m (data w2) (data w')).
  eapply (after_manifest u i b m); exact H.
Qed.
End Restore.

(** ** What the hypothesis is for *)

(** Bob's file, backed up; the row of that identifier is Ada's when he restores. *)
Definition demo_taken : World Server :=
  let w := snd (demo_create Backups.demo_world) in
  mkWorld (set_users (users (data demo_tree)) (set_file_versions [] (set_file_entries
    [demo_owned 1 demo_file_id None "hers" "file"] (data w)))) (pos w).

(** a restoration takes any row.  Nothing in the restoration compares the owner
    of a row with the caller: where the manifest names a row of Ada, Bob's
    restoration gives it the name and the stored path of his manifest, and it is
    still hers. *)
Theorem restore_takes_any_row :
  map (fun f => (FileEntry.user_id f, FileEntry.name f)) (file_entries (data demo_taken)) = [(1, lit "hers")]
  /\ map (fun f => (FileEntry.user_id f, FileEntry.name f)) (file_entries (data (snd (demo_restore demo_taken))))
     = [(1, FileEntry.name Sharing.demo_file)]
  /\ FileEntry.name Sharing.demo_file <> lit "hers".
Proof. split_and!; [vm_compute; reflexivity..|]. intros X. vm_compute in X. discriminate X. Qed.
End Restoring.
