(* ===== verification/Http.v ===== *)
(** * Http: answers with headers, and byte ranges

    The [Response::builder] of the protocol gateways (file_metadata/src/webdav.rs
    and s3_compat.rs), and the Range header as both read it. *)

From S2P Require Import Prelude Text Effects Externals Schema.

Module Http.

Record Response := { status : Z; headers : list (rstr * rstr); body : bytes }.

(** The headers of a request the gateways read, when they are readable text. *)
Record HeaderMap := { h_range : option rstr; h_content_type : option rstr; h_destination : option rstr }.

Definition SLASH : Z := chr "/".
Definition QUOTE : rstr := [34].
Definition NL : rstr := [10].

(** [{:?}]-less quoting of an entity tag. *)
Definition quoted (s : rstr) : rstr := QUOTE ++ s ++ QUOTE.

(** trim_matches('/') *)
Definition trim_slashes (s : rstr) : rstr := trim_end_by (Z.eqb SLASH) (trim_start_by (Z.eqb SLASH) s).

(** rsplit('/').next(): what follows the last slash; never None. *)
Definition last_piece (s : rstr) : rstr := default [] (last (split_char SLASH s)).

(** The pieces of a path: empty ones vanish. *)
Definition segments (s : rstr) : list rstr := List.filter nonempty (split_char SLASH (trim_slashes s)).

Section Http.
Context {HV : HttpValues}.

(** A header whose value is no header value makes the builder fail, and
    [expect] panics. *)
Definition build (code : Z) (hs : list (rstr * rstr)) (b : bytes) : M Server Response :=
  if forallb (fun h => header_ok (snd h)) hs then mret {| status := code; headers := hs; body := b |} else panic.

Definition plain_status (code : Z) : Response := {| status := code; headers := []; body := [] |}.
Definition not_found : M Server Response := build 404 [] [].

(** The range a header asks for, in a content of [total] bytes.  What cannot
    be parsed counts as 0 for the start and as the last byte for the end. *)
Definition range_of (header : rstr) (total : Z) : option (Z * Z) :=
  match strip_prefix (lit "bytes=") header with
  | Some range =>
      let parts := split_char (chr "-") range in
      let start := default 0 (parse_uint 10 u64_max (default [] (head parts))) in
      let end_ := default (Z.max (total - 1) 0) (parts !! 1%nat ≫= parse_uint 10 u64_max) in
      if (start <? total) && (start <=? end_) then Some (start, Z.min end_ (Z.max (total - 1) 0)) else None
  | None => None
  end.

(** data[start..=end] *)
Definition slice (data : bytes) (start end_ : Z) : option bytes :=
  if (start <=? end_ + 1) && (end_ + 1 <=? Z.of_nat (length data))
  then Some (take (Z.to_nat (end_ + 1 - start)) (drop (Z.to_nat start) data))
  else None.

(** The 206 answer to a range, and otherwise the whole content with the length
    [whole]. *)
Definition serve (range : option rstr) (content_type : rstr) (whole : Z) (modified etag : rstr) (data : bytes)
  : M Server Response :=
  let total := Z.of_nat (length data) in
  match range ≫= (fun h => range_of h total) with
  | Some (start, end_) =>
      part ← or_panic (slice data start end_);
      build 206
        [(lit "content-type", content_type); (lit "content-length", show_int (end_ - start + 1));
         (lit "content-range", lit "bytes " ++ show_int start ++ lit "-" ++ show_int end_ ++ lit "/" ++ show_int total);
         (lit "accept-ranges", lit "bytes"); (lit "last-modified", modified); (lit "etag", etag)] part
  | None =>
      build 200
        [(lit "content-type", content_type); (lit "content-length", show_int whole);
         (lit "accept-ranges", lit "bytes"); (lit "last-modified", modified); (lit "etag", etag)] data
  end.
End Http.

(** axum::body::to_bytes with a limit of ten gigabytes; the body is its bytes
    or the error that ended it. *)
Definition read_body (body : rstr + bytes) : M Server bytes :=
  match body with
  | inl e => throw (Validation (lit "Upload body read failed: " ++ e))
  | inr b =>
      if 10 * 1024 * 1024 * 1024 <? Z.of_nat (length b)
      then throw (Validation (lit "Upload body read failed: length limit exceeded"))
      else mret b
  end.

(** ** Lemmas *)

Section Lemmas.
Context {HV : HttpValues}.

Lemma visible_app a b : visible a -> visible b -> visible (a ++ b).
Proof. apply Forall_app_2. Qed.

Lemma visible_digits s : digit_str s -> visible s.
Proof. intros H. eapply Forall_impl; [exact H|]. intros c. unfold is_ascii_digit. lia. Qed.

Lemma visible_int n : visible (show_int n).
Proof.
  unfold show_int. destruct (n <? 0) eqn:E.
  - apply Forall_cons. split; [by vm_compute|]. apply visible_digits, show_uint_spec. lia.
  - apply visible_digits, show_uint_spec. lia.
Qed.

Lemma visible_uuid `{UuidText} u : visible (uuid_to_string u).
Proof. eapply Forall_impl; [apply uuid_to_string_chars|]. intros c. unfold uuid_char, is_ascii_digit. change (chr "-") with 45. lia. Qed.

Lemma visible_quoted s : visible s -> visible (quoted s).
Proof. intros H. repeat apply visible_app; try done; by repeat constructor. Qed.

Lemma build_ok code hs b w :
  Forall (fun h => visible (snd h)) hs ->
  build code hs b w = (Ok {| status := code; headers := hs; body := b |}, w).
Proof.
  intros H. unfold build. replace (forallb _ hs) with true; [done|]. symmetry. apply forallb_forall.
  intros h Hh. apply header_ok_visible. rewrite Forall_forall in H. apply H. by apply list_elem_of_In.
Qed.

Lemma build_Ok code hs b w r w' :
  build code hs b w = (Ok r, w') -> r = {| status := code; headers := hs; body := b |} /\ w' = w.
Proof. unfold build. destruct (forallb _ hs); intros H; [|not_ok H]. by injection H as <- <-. Qed.

Lemma parse_range_bound s v : parse_uint 10 u64_max s = Some v -> 0 <= v <= u64_max.
Proof. apply parse_uint_bound; done. Qed.

(** A range lies within the content. *)
Lemma range_of_bounds h total s e : range_of h total = Some (s, e) -> 0 <= s <= e /\ e < total.
Proof.
  unfold range_of. destruct (strip_prefix _ h) as [r|]; [|done].
  assert (B : forall d o, (forall v, o = Some v -> 0 <= v) -> 0 <= d -> 0 <= default d o).
  { intros d [v|] Hv Hd; simpl; [by apply Hv|done]. }
  assert (0 <= default 0 (parse_uint 10 u64_max (default [] (head (split_char (chr "-") r))))).
  { apply B; [|done]. intros v. apply parse_range_bound. }
  case_goal; [|done]. intros [= <- <-]. lia.
Qed.

Lemma slice_some data s e :
  0 <= s <= e -> e < Z.of_nat (length data) ->
  slice data s e = Some (take (Z.to_nat (e + 1 - s)) (drop (Z.to_nat s) data)).
Proof. intros ? ?. unfold slice. case_goal; [done|lia]. Qed.

Lemma slice_size data s e b :
  0 <= s <= e -> slice data s e = Some b -> Z.of_nat (length b) = e - s + 1.
Proof. unfold slice. intros ?. case_goal; [|done]. intros [= <-]. rewrite length_take, length_drop. lia. Qed.
End Lemmas.
End Http.
