(* ===== verification/Paths.v ===== *)
(** * Paths: the files of a user as a tree of names

    The abstract side of the services that address files by path: a user's
    files are a function from paths, lists of names, to entries.  The rows of
    file_entries implement it: an entry is reached from the root through live
    folders.  The lemmas say what each kind of write to the table (a new row, a
    change of content, a trashed row, a new name or parent) is on that function. *)

From S2P Require Import Prelude Text Effects Externals Fs Schema Account Storage Files Tree Tenancy.

Module Paths.
Import Files Tree.

(** ** The view of a table *)

Section View.
Context (u : Z).

(** The folder a name leads to from a folder; [None] is the root. *)
Definition step (t : list FileEntry.row) (cur : option (option Z)) (x : rstr) : option (option Z) :=
  match cur with
  | Some par =>
      option_map (fun d => Some (FileEntry.id d)) (find_row (fun f => same_name u par x f && is_folder f) t)
  | None => None
  end.

Definition folder_at (t : list FileEntry.row) (p : list rstr) : option (option Z) :=
  fold_left (step t) p (Some None).

Definition tree : Type := list rstr -> option FileEntry.row.

Definition view (t : list FileEntry.row) : tree := fun p =>
  match last p with
  | Some x =>
      match folder_at t (removelast p) with
      | Some par => find_row (same_name u par x) t
      | None => None
      end
  | None => None
  end.

(** ** The changes of a tree *)

(** [p] is [q] or an ancestor of [q]: what is left of [q]. *)
Fixpoint below_path (p q : list rstr) : option (list rstr) :=
  match p, q with
  | [], _ => Some q
  | x :: p', y :: q' => if bool_decide (x = y) then below_path p' q' else None
  | _, [] => None
  end.

Definition put (p : list rstr) (r : FileEntry.row) (v : tree) : tree :=
  fun q => if bool_decide (q = p) then Some r else v q.

Definition cut (p : list rstr) (v : tree) : tree :=
  fun q => match below_path p q with Some _ => None | None => v q end.

Definition relocate (p p' : list rstr) (g : FileEntry.row -> FileEntry.row) (v : tree) : tree :=
  fun q => match below_path p' q with
           | Some [] => option_map g (v p)
           | Some r => v (p ++ r)
           | None => cut p v q
           end.

(** ** Lemmas *)

Lemma below_path_iff p q r : below_path p q = Some r <-> q = p ++ r.
Proof.
  revert q. induction p as [|x p IH]; intros [|y q]; cbn; try (split; [by intros [= ->]|by intros ->]); [done|].
  destruct (bool_decide (x = y)) eqn:E.
  - apply bool_decide_eq_true in E as ->. rewrite IH. split; [by intros ->|by intros [= ->]].
  - apply bool_decide_eq_false in E. split; [done|]. by intros [= -> ->].
Qed.

Lemma below_path_None p q : below_path p q = None <-> forall r, q <> p ++ r.
Proof.
  destruct (below_path p q) as [r|] eqn:E.
  - apply below_path_iff in E. split; [done|]. intros H. by destruct (H r).
  - split; [|done]. intros _ r Q. apply below_path_iff in Q. congruence.
Qed.

Lemma same_name_iff par x f :
  same_name u par x f = true <-> FileEntry.user_id f = u /\ FileEntry.parent_id f = par
    /\ FileEntry.name f = x /\ FileEntry.is_trashed f = false.
Proof.
  unfold same_name, owned_by. rewrite !andb_true_iff, Z.eqb_eq, !bool_decide_eq_true, negb_true_iff. tauto.
Qed.

(** A table whose keys are unique. *)
Definition keyed (t : list FileEntry.row) : Prop :=
  unique_key FileEntry.id t = true /\ unique_key file_key t = true.

Lemma schema_keyed s : schema_ok s = true -> keyed (file_entries s).
Proof. intros S. split; [by apply key_file|by apply key_file_key]. Qed.

Section Table.
Context (t : list FileEntry.row) (K : keyed t).

Lemma by_id d e : d ∈ t -> e ∈ t -> FileEntry.id d = FileEntry.id e -> d = e.
Proof. intros Hd He E. by apply (unique_key_inj FileEntry.id t d e (proj1 K)). Qed.

Lemma by_name par x d e : d ∈ t -> e ∈ t -> same_name u par x d = true -> same_name u par x e = true -> d = e.
Proof.
  intros Hd He (U1 & P1 & N1 & T1)%same_name_iff (U2 & P2 & N2 & T2)%same_name_iff.
  apply (unique_key_inj file_key t d e (proj2 K)); [done..|]. unfold file_key. congruence.
Qed.

Lemma find_name par x d :
  find_row (same_name u par x) t = Some d <-> d ∈ t /\ same_name u par x d = true.
Proof.
  split; [apply find_row_Some|]. intros [Hd N]. destruct (find_row _ t) as [e|] eqn:E.
  - apply find_row_Some in E as [He Ne]. f_equal. by eapply by_name.
  - rewrite find_row_None in E. by rewrite E in N.
Qed.

Lemma view_nil : view t [] = None.
Proof. done. Qed.

Lemma view_snoc p x :
  view t (p ++ [x]) = match folder_at t p with
                      | Some par => find_row (same_name u par x) t
                      | None => None
                      end.
Proof. unfold view. by rewrite last_snoc, removelast_last. Qed.

Lemma view_iff p x d :
  view t (p ++ [x]) = Some d
  <-> exists par, folder_at t p = Some par /\ d ∈ t /\ same_name u par x d = true.
Proof.
  rewrite view_snoc. destruct (folder_at t p) as [par|].
  - rewrite find_name. split; [by exists par|]. by intros (? & [= <-] & ?).
  - split; [done|]. by intros (? & ? & _).
Qed.

Lemma folder_snoc p x : folder_at t (p ++ [x]) = step t (folder_at t p) x.
Proof. unfold folder_at. by rewrite fold_left_app. Qed.

(** A folder other than the root is an entry of the view. *)
Lemma folder_view p x :
  folder_at t (p ++ [x]) = match view t (p ++ [x]) with
                           | Some d => if is_folder d then Some (Some (FileEntry.id d)) else None
                           | None => None
                           end.
Proof.
  rewrite folder_snoc, view_snoc. destruct (folder_at t p) as [par|]; [|done]. cbn [step].
  destruct (find_row (same_name u par x) t) as [d|] eqn:E.
  - apply find_row_Some in E as [Hd N]. destruct (is_folder d) eqn:Fd.
    + destruct (find_row _ t) as [e|] eqn:E; cbn.
      * apply find_row_Some in E as [He Ne]. apply andb_true_iff in Ne as [Ne _].
        by rewrite (by_name par x d e).
      * rewrite find_row_None in E. specialize (E d Hd). cbn in E. by rewrite N, Fd in E.
    + destruct (find_row _ t) as [e|] eqn:E; [|done].
      apply find_row_Some in E as [He Ne]. apply andb_true_iff in Ne as [Ne Fe].
      rewrite (by_name par x d e) in Fd by done. congruence.
  - rewrite find_row_None in E. destruct (find_row _ t) as [e|] eqn:Q; [|done].
    apply find_row_Some in Q as [He Ne]. apply andb_true_iff in Ne as [Ne _]. by rewrite E in Ne.
Qed.

Lemma folder_Some p x par :
  folder_at t (p ++ [x]) = Some par ->
  exists d, view t (p ++ [x]) = Some d /\ is_folder d = true /\ par = Some (FileEntry.id d).
Proof. rewrite folder_view. destruct (view t _) as [d|]; [|done]. destruct (is_folder d) eqn:F; [|done]. intros [= <-]. eauto. Qed.

(** An entry has one path, a folder too. *)
Lemma path_unique p : forall q d, view t p = Some d -> view t q = Some d -> p = q.
Proof.
  induction p as [|x p IH] using rev_ind; [done|]. intros q d Hp Hq.
  destruct q as [|y q _] using rev_ind; [done|].
  apply view_iff in Hp as (par & Fp & Hd & (_ & P & N & _)%same_name_iff).
  apply view_iff in Hq as (par' & Fq & _ & (_ & P' & N' & _)%same_name_iff).
  assert (x = y) as -> by congruence. assert (par' = par) as -> by congruence. f_equal.
  destruct p as [|a p _] using rev_ind; destruct q as [|b q _] using rev_ind; [done|..].
  - apply folder_Some in Fq as (e & _ & _ & ->). cbn in Fp. congruence.
  - apply folder_Some in Fp as (e & _ & _ & ->). cbn in Fq. congruence.
  - apply folder_Some in Fp as (e & Ve & _ & ->), Fq as (e' & Ve' & _ & [= E]).
    apply (IH _ e); [done|]. rewrite Ve'. f_equal. symmetry.
    apply view_iff in Ve as (? & _ & He & _), Ve' as (? & _ & He' & _). by apply by_id.
Qed.

Lemma folder_unique p q par : folder_at t p = Some par -> folder_at t q = Some par -> p = q.
Proof.
  destruct p as [|a p _] using rev_ind; destruct q as [|b q _] using rev_ind; intros Fp Fq; [done|..].
  - apply folder_Some in Fq as (e & _ & _ & ->). done.
  - apply folder_Some in Fp as (e & _ & _ & ->). done.
  - apply folder_Some in Fp as (e & Ve & _ & ->), Fq as (e' & Ve' & _ & [= E]).
    apply (path_unique _ _ e); [done|]. rewrite Ve'. f_equal. symmetry.
    assert (M := Ve). assert (M' := Ve'). apply view_iff in M as (? & _ & He & _), M' as (? & _ & He' & _). by apply by_id.
Qed.

(** An entry is in the table, live and the user's. *)
Lemma view_row p d : view t p = Some d -> d ∈ t /\ FileEntry.user_id d = u /\ FileEntry.is_trashed d = false.
Proof.
  destruct p as [|x p _] using rev_ind; [done|]. intros (par & _ & Hd & N)%view_iff.
  apply same_name_iff in N as (? & _ & _ & ?). done.
Qed.

(** The parent of an entry is where its path says. *)
Lemma view_parent p x d :
  view t (p ++ [x]) = Some d -> folder_at t p = Some (FileEntry.parent_id d) /\ FileEntry.name d = x.
Proof. intros (par & F & Hd & (_ & -> & N & _)%same_name_iff)%view_iff. done. Qed.
End Table.

(** *** Writes *)

(** No row of the table is under a row that is not in it. *)
Definition parents_exist (t : list FileEntry.row) : Prop :=
  forall f p, f ∈ t -> FileEntry.parent_id f = Some p -> exists d, d ∈ t /\ FileEntry.id d = p.

Lemma schema_parents s : schema_ok s = true -> parents_exist (file_entries s).
Proof. intros S f p. by apply Tenancy.file_parent. Qed.

Lemma option_ext {A} (a b : option A) : (forall x, a = Some x <-> b = Some x) -> a = b.
Proof.
  intros H. destruct a as [x|]; [symmetry; by apply H|]. destruct b as [y|]; [|done].
  by destruct (proj2 (H y) eq_refl).
Qed.

(** The view of a prefix decides the folder there. *)
Lemma folder_same t t' p :
  keyed t -> keyed t' ->
  (p <> [] -> match view t p, view t' p with
              | Some d, Some d' => is_folder d' = is_folder d /\ FileEntry.id d' = FileEntry.id d
              | None, None => True
              | _, _ => False
              end) ->
  folder_at t' p = folder_at t p.
Proof.
  intros K K' H. destruct p as [|x p _] using rev_ind; [done|].
  assert (N : p ++ [x] <> []) by (intros Q; by apply app_nil in Q as [_ Q]). specialize (H N).
  rewrite !folder_view by done.
  destruct (view t _) as [d|], (view t' _) as [d'|]; try done. by destruct H as [-> ->].
Qed.

Lemma folder_eq t t' p : keyed t -> keyed t' -> (p <> [] -> view t' p = view t p) -> folder_at t' p = folder_at t p.
Proof. intros K K' H. apply folder_same; [done..|]. intros N. rewrite (H N). by destruct (view t p). Qed.

Lemma folder_none t p : keyed t -> p <> [] -> view t p = None -> folder_at t p = None.
Proof.
  intros K N V. destruct p as [|x p _] using rev_ind; [done|]. by rewrite folder_view, V.
Qed.

Lemma snoc_inj {A} (p q : list A) x y : p ++ [x] = q ++ [y] <-> p = q /\ x = y.
Proof. split; [apply app_inj_tail|]. by intros [-> ->]. Qed.

Lemma snoc_neq {A} (p : list A) x : p ++ [x] <> p.
Proof. intros Q. apply (f_equal length) in Q. rewrite length_app in Q. simpl in Q. lia. Qed.

(** A new live row. *)
Lemma view_insert t r p x :
  keyed t -> parents_exist t -> keyed (insert_row r t) ->
  folder_at t p = Some (FileEntry.parent_id r) -> same_name u (FileEntry.parent_id r) x r = true ->
  view t (p ++ [x]) = None /\ forall q, view (insert_row r t) q = put (p ++ [x]) r (view t) q.
Proof.
  intros K P K' F N. set (t' := insert_row r t) in *.
  assert (In : r ∈ t') by (apply elem_insert; by right).
  assert (Old : forall d, d ∈ t -> d ∈ t') by (intros d Hd; apply elem_insert; by left).
  assert (Fresh : forall d, d ∈ t -> FileEntry.id d <> FileEntry.id r).
  { intros d Hd E. assert (d = r) as -> by (apply (by_id t'); auto).
    destruct K' as [U _]. unfold unique_key, t', insert_row in U. apply bool_decide_eq_true in U.
    rewrite map_app in U. apply NoDup_app in U as (_ & U & _). destruct (U (FileEntry.id r)).
    - apply list_elem_of_fmap. by exists r.
    - by left. }
  assert (Nr : r ∉ t) by (intros H; by apply (Fresh r)).
  assert (Ch : forall d, d ∈ t' -> FileEntry.parent_id d <> Some (FileEntry.id r)).
  { intros d [Hd| ->]%elem_insert E.
    - destruct (P d _ Hd E) as (e & He & Q). by apply (Fresh e).
    - destruct p as [|y p _] using rev_ind; [cbn in F; congruence|].
      apply folder_Some in F as (e & Ve & _ & Q); [|done]. apply view_row in Ve as (He & _); [|done].
      apply (Fresh e He). congruence. }
  assert (Vp : view t (p ++ [x]) = None).
  { destruct (view t _) as [d|] eqn:E; [|done]. apply view_iff in E as (par & E & Hd & Nd); [|done].
    rewrite F in E. injection E as <-. destruct Nr.
    assert (d = r) as <- by (apply (by_name t' K' (FileEntry.parent_id r) x); auto). done. }
  split; [exact Vp|]. intros q. induction q as [|y q IH] using rev_ind; [unfold put; by destruct p|].
  unfold put in *. destruct (decide (q = p ++ [x])) as [->|Nq].
  - rewrite bool_decide_eq_false_2 by apply snoc_neq.
    rewrite bool_decide_eq_true_2 in IH by done.
    rewrite !view_snoc, (folder_none t), folder_view, IH; [|done|done|by destruct p|done].
    destruct (is_folder r); [|done]. apply find_row_None. intros d Hd.
    apply not_true_iff_false. intros (_ & Q & _)%same_name_iff. by apply (Ch d).
  - rewrite (bool_decide_eq_false_2 (q = p ++ [x])) in IH by done.
    apply option_ext. intros d. rewrite view_iff, (folder_eq t) by (try done; intros _; exact IH).
    case_bool_decide as Q.
    + apply snoc_inj in Q as [-> ->]. rewrite F. split.
      * intros (par & [= <-] & Hd & Nd). f_equal. by apply (by_name t' K' (FileEntry.parent_id r) x).
      * intros [= <-]. by exists (FileEntry.parent_id r).
    + rewrite view_iff by done. split; intros (par & Fq & Hd & Nd); exists par; (split; [done|]); [|by auto].
      apply elem_insert in Hd as [Hd| ->]; [done|]. destruct Q.
      apply same_name_iff in Nd as (_ & Pd & Nd & _), N as (_ & _ & N & _). subst par y.
      f_equal; [|by f_equal]. by apply (folder_unique t K _ _ (FileEntry.parent_id r)).
Qed.

(** A change of an entry that leaves it where it is. *)
Definition in_place (g : FileEntry.row -> FileEntry.row) : Prop :=
  forall x, file_key (g x) = file_key x /\ FileEntry.id (g x) = FileEntry.id x
    /\ FileEntry.entry_type (g x) = FileEntry.entry_type x.

Lemma update_keyed g i t : in_place g -> keyed t -> keyed (update (has_id i) g t).
Proof.
  intros G [K1 K2]. unfold keyed, unique_key in *.
  rewrite !map_update_same; [done|..]; intros x; apply G.
Qed.

Lemma in_place_name g par x d : in_place g -> same_name u par x (g d) = same_name u par x d.
Proof.
  intros G. destruct (G d) as (E & _). unfold file_key in E. injection E as E1 E2 E3 E4.
  unfold same_name, owned_by. by rewrite E1, E2, E3, E4.
Qed.

Lemma view_update t i g p d :
  keyed t -> in_place g -> view t p = Some d -> FileEntry.id d = i ->
  forall q, view (update (has_id i) g t) q = put p (g d) (view t) q.
Proof.
  intros K G V Ei. assert (K' := update_keyed g i t G K). set (t' := update (has_id i) g t) in *.
  assert (E : forall q, view t' q = option_map (fun e => if has_id i e then g e else e) (view t q)).
  { intros q. induction q as [|y q IH] using rev_ind; [done|].
    apply option_ext. intros e. rewrite view_iff by done.
    rewrite (folder_same t t' q K K'); [|intros _; rewrite IH; destruct (view t q) as [a|]; [|done]; cbn;
      destruct (has_id i a); [|done]; destruct (G a) as (_ & -> & Et); split; [unfold is_folder; by rewrite Et|done]].
    rewrite view_snoc. destruct (folder_at t q) as [par|]; [|split; [by intros (? & [=] & _)|done]].
    split.
    - intros (? & [= <-] & He & Ne). apply elem_update in He as (e0 & He & ->).
      assert (N0 : same_name u par y e0 = true) by (destruct (has_id i e0); [by rewrite <- (in_place_name g)|done]).
      by rewrite (proj2 (find_name t K par y e0)).
    - destruct (find_row _ t) as [e0|] eqn:Q; [|done]. intros [= <-]. apply find_row_Some in Q as [He Ne].
      exists par. split; [done|]. split; [apply elem_update; by exists e0|].
      destruct (has_id i e0); [by rewrite in_place_name|done]. }
  intros q. rewrite E. unfold put. case_bool_decide as Q.
  - subst q. rewrite V. cbn. unfold has_id. by rewrite Ei, Z.eqb_refl.
  - destruct (view t q) as [e|] eqn:Vq; [|done]. cbn. unfold has_id.
    destruct (FileEntry.id e =? i) eqn:Q2; [|done]. destruct Q. apply Z.eqb_eq in Q2.
    apply (path_unique t K q p d); [|done]. rewrite Vq. f_equal.
    apply view_row in Vq as (He & _), V as (Hd & _); [|done..]. by apply (by_id t K); [done|done|congruence].
Qed.

Lemma below_snoc p q y :
  below_path p (q ++ [y]) = match below_path p q with
                            | Some r => Some (r ++ [y])
                            | None => if bool_decide (p = q ++ [y]) then Some [] else None
                            end.
Proof.
  revert p. induction q as [|z q IH]; intros [|x p]; try done; cbn.
  - destruct (bool_decide (x = y)) eqn:E.
    + apply bool_decide_eq_true in E as ->. destruct p; cbn; [by rewrite bool_decide_eq_true_2|].
      by rewrite bool_decide_eq_false_2.
    + apply bool_decide_eq_false in E. by rewrite bool_decide_eq_false_2 by congruence.
  - destruct (bool_decide (x = z)) eqn:E.
    + apply bool_decide_eq_true in E as ->. rewrite IH. destruct (below_path p q); [done|].
      rewrite (bool_decide_ext (p = q ++ [y]) (z :: p = z :: q ++ [y])); [done|]. split; [by intros ->|congruence].
    + apply bool_decide_eq_false in E. by rewrite bool_decide_eq_false_2 by congruence.
Qed.

(** An entry put in the trash takes what is below it out of the view. *)
Lemma view_trash t i g p d :
  keyed t -> keyed (update (has_id i) g t) -> (forall x, FileEntry.is_trashed (g x) = true) ->
  view t p = Some d -> FileEntry.id d = i ->
  forall q, view (update (has_id i) g t) q = cut p (view t) q.
Proof.
  intros K K' G V Ei. set (t' := update (has_id i) g t) in *.
  destruct (view_row t K p d V) as (Hd & _).
  assert (Np : p <> []) by (by intros ->).
  intros q. induction q as [|y q IH] using rev_ind; [by destruct p|].
  unfold cut in *. rewrite below_snoc. destruct (below_path p q) as [r|] eqn:B.
  { rewrite view_snoc, (folder_none t'); [done|done| |exact IH]. intros ->. by destruct p. }
  apply option_ext. intros e. rewrite view_iff, (folder_eq t) by (try done; intros _; exact IH).
  assert (M : forall par, folder_at t q = Some par ->
    (e ∈ t' /\ same_name u par y e = true) <-> (e ∈ t /\ same_name u par y e = true /\ FileEntry.id e <> i)).
  { intros par _. split.
    - intros [He Ne]. apply elem_update in He as (e0 & He & ->). unfold has_id in *.
      destruct (FileEntry.id e0 =? i) eqn:Q; [|by apply Z.eqb_neq in Q].
      apply same_name_iff in Ne as (_ & _ & _ & Ne). by rewrite G in Ne.
    - intros (He & Ne & N). split; [|done]. apply elem_update. exists e. split; [done|].
      unfold has_id. by apply Z.eqb_neq in N as ->. }
  case_bool_decide as Q.
  - split; [|done]. intros (par & F & M1). apply M in M1 as (He & Ne & N); [|done]. destruct N.
    rewrite Q in V. assert (E : view t (q ++ [y]) = Some e) by (apply view_iff; eauto). congruence.
  - rewrite view_iff by done. split.
    + intros (par & F & M1). apply M in M1 as (He & Ne & N); eauto.
    + intros (par & F & He & Ne). exists par. split; [done|]. apply M; [done|]. split; [done|]. split; [done|].
      intros E. destruct Q. apply (path_unique t K _ _ d); [done|].
      assert (e = d) as <- by (apply (by_id t K); [done|done|congruence]). apply view_iff; eauto.
Qed.

(** An entry given another name or another folder, which is not below it. *)
Lemma view_relocate t i g p d p' n :
  keyed t -> keyed (update (has_id i) g t) ->
  (forall x, FileEntry.id (g x) = FileEntry.id x /\ FileEntry.entry_type (g x) = FileEntry.entry_type x) ->
  view t p = Some d -> FileEntry.id d = i ->
  folder_at t p' = Some (FileEntry.parent_id (g d)) -> below_path p p' = None ->
  same_name u (FileEntry.parent_id (g d)) n (g d) = true ->
  forall q, view (update (has_id i) g t) q = relocate p (p' ++ [n]) g (view t) q.
Proof.
  intros K K' G V Ei Fp Bp N. set (t' := update (has_id i) g t) in *.
  destruct (view_row t K p d V) as (Hd & _).
  assert (Hi : has_id i d = true) by (unfold has_id; by rewrite Ei, Z.eqb_refl).
  assert (Hg : g d ∈ t') by (apply elem_update; exists d; by rewrite Hi).
  assert (Mem : forall e, e ∈ t' <-> e = g d \/ e ∈ t /\ e <> d).
  { intros e. unfold t'. rewrite elem_update. split.
    - intros (e0 & He & ->). unfold has_id. destruct (FileEntry.id e0 =? i) eqn:Q.
      + left. f_equal. apply (by_id t K); [done|done|]. apply Z.eqb_eq in Q. congruence.
      + right. split; [done|]. intros ->. apply Z.eqb_neq in Q. congruence.
    - intros [->|[He Ne]]; [exists d; by rewrite Hi|]. exists e. split; [done|]. unfold has_id.
      destruct (FileEntry.id e =? i) eqn:Q; [|done]. destruct Ne. apply Z.eqb_eq in Q.
      apply (by_id t K); [done|done|congruence]. }
  assert (Np : p <> []) by (by intros ->).
  (* another entry is not in the way *)
  assert (Free : forall e, view t (p' ++ [n]) = Some e -> e = d).
  { intros e (par & F & He & Ne)%view_iff; [|done]. rewrite Fp in F. injection F as <-.
    destruct (decide (e = d)) as [|Q]; [done|]. exfalso.
    assert (E : e = g d) by (apply (by_name t' K' (FileEntry.parent_id (g d)) n); [apply Mem; by right|done|done|done]).
    apply Q. apply (by_id t K); [done|done|]. rewrite E. apply G. }
  intros q. induction q as [|y q IH] using rev_ind.
  { unfold relocate. destruct (p' ++ [n]) as [|] eqn:Q; [by apply app_nil in Q as [_ Q]|]. cbn.
    unfold cut. by destruct p. }
  unfold relocate in *. rewrite below_snoc. destruct (below_path (p' ++ [n]) q) as [r|] eqn:B.
  - (* below the new place *)
    assert (Fq : folder_at t' q = folder_at t (p ++ r)).
    { destruct q as [|z q _] using rev_ind; [by apply below_path_iff in B; destruct p'|].
      rewrite folder_view, IH by done. destruct r as [|r0 r].
      - rewrite app_nil_r. destruct p as [|p1 p _] using rev_ind; [done|]. rewrite folder_view, V by done. cbn.
        destruct (G d) as [-> E]. unfold is_folder. by rewrite E.
      - destruct (exists_last (l := r0 :: r)) as (r1 & r2 & ->); [done|]. rewrite app_assoc, folder_view by done. done. }
    assert (Nr : r ++ [y] <> []) by (by destruct r). destruct (r ++ [y]) as [|a l] eqn:El; [done|]. rewrite <- El.
    apply option_ext. intros e. rewrite app_assoc, !view_iff, Fq by done.
    split; intros (par & F & He & Ne); exists par; (split; [done|]).
    + apply Mem in He as [->|[He _]]; [|done]. exfalso.
      apply same_name_iff in Ne as (_ & E & _). subst par.
      apply (folder_unique t K _ _ _ Fp) in F. subst p'. by apply below_path_None with (r := r) in Bp.
    + split; [|done]. apply Mem. right. split; [done|]. intros ->.
      assert (V2 : view t ((p ++ r) ++ [y]) = Some d) by (apply view_iff; eauto).
      apply (path_unique t K _ _ _ V) in V2. rewrite <- app_assoc in V2. rewrite <- (app_nil_r p) in V2 at 1.
      by apply app_inv_head in V2; destruct r.
  - case_bool_decide as Q.
    + (* the new place *)
      apply snoc_inj in Q as [<- <-]. rewrite V. cbn.
      assert (Fq : folder_at t' p' = Some (FileEntry.parent_id (g d))).
      { rewrite <- Fp. apply folder_eq; [done..|]. intros _. rewrite IH. unfold cut. by rewrite Bp. }
      apply view_iff; [done|]. eauto.
    + unfold cut in *. rewrite below_snoc. destruct (below_path p q) as [r|] eqn:C.
      { rewrite view_snoc, (folder_none t'); [done|done| |exact IH]. intros ->. by destruct p. }
      assert (Fq : folder_at t' q = folder_at t q) by (apply folder_eq; [done..|]; intros _; exact IH).
      apply option_ext. intros e. rewrite view_iff, Fq by done.
      assert (Gd : forall par, folder_at t q = Some par -> same_name u par y (g d) = true -> False).
      { intros par F Ne. apply Q. apply same_name_iff in Ne as (_ & E & Ey & _), N as (_ & _ & En & _). subst par.
        rewrite (folder_unique t K _ _ _ Fp F). f_equal. f_equal. congruence. }
      case_bool_decide as P.
      * split; [|done]. intros (par & F & He & Ne). exfalso. apply Mem in He as [->|[He X]]; [by eapply Gd|].
        apply X. assert (V2 : view t (q ++ [y]) = Some e) by (apply view_iff; eauto). congruence.
      * rewrite view_iff by done. split; intros (par & F & He & Ne); exists par; (split; [done|]).
        -- apply Mem in He as [->|[He _]]; [by destruct (Gd par)|done].
        -- split; [|done]. apply Mem. right. split; [done|]. intros ->. apply P.
           apply (path_unique t K _ _ d); [done|]. apply view_iff; eauto.
Qed.
End View.
End Paths.
