(* ===== verification/Webdav.v ===== *)
(** * Webdav: files by path

    backend/crates/file_metadata/src/webdav.rs: the handlers of the WebDAV
    methods over the file table and the storage root. *)

From S2P Require Import Prelude Text Effects Externals Fs Schema Auth Account Storage Files Tree Tenancy Quota Http Paths.

Module Webdav.
Import Files Tree Tenancy Http Paths.

Section Webdav.
Context {O : Oracle} {S2 : Sha256} {HX : Hex} {UT : UuidText} {MG : MimeGuess} {CO : Collation}
  {HV : HttpValues} {PG : PgDates}.
(** [config.storage.base_path] *)
Context (base : Fs.path).

(** PathBuf::join: an absolute path replaces the base. *)
Definition joined (rel : rstr) : Fs.path :=
  if starts_with [SLASH] rel then Storage.components rel else base ++ Storage.components rel.

(** ** Paths *)

(** The loop of resolve_path. *)
Fixpoint walk (user_id : Z) (current_parent : option Z) (segs : list rstr)
  : M Server (option Z * option FileEntry.row) :=
  match segs with
  | [] => mret (current_parent, None)
  | [segment] =>
      row ← map_err (to_internal "")
        (query (fun s => find_row (same_name user_id current_parent segment) (file_entries s)));
      mret (current_parent, row)
  | segment :: rest =>
      folder ← map_err (to_internal "")
        (query (fun s => find_row (fun f => same_name user_id current_parent segment f && is_folder f)
                           (file_entries s)));
      match folder with
      | Some d => walk user_id (Some (FileEntry.id d)) rest
      | None => mret (current_parent, None)
      end
  end.

Definition resolve_path (user_id : Z) (raw_path : rstr) : M Server (option Z * option FileEntry.row) :=
  walk user_id None (segments raw_path).

(** ** PROPFIND *)

Definition propfind_entry (f : FileEntry.row) : rstr :=
  lit "  <D:response>" ++ NL ++ lit "    <D:href>/webdav/" ++ FileEntry.name f ++ lit "</D:href>" ++ NL
  ++ lit "    <D:propstat>" ++ NL ++ lit "      <D:prop>" ++ NL
  ++ lit "        <D:displayname>" ++ FileEntry.name f ++ lit "</D:displayname>" ++ NL
  ++ lit "        <D:getcontentlength>" ++ show_int (FileEntry.size_bytes f) ++ lit "</D:getcontentlength>" ++ NL
  ++ lit "        <D:getlastmodified>" ++ http_date (FileEntry.updated_at f) ++ lit "</D:getlastmodified>" ++ NL
  ++ lit "        <D:resourcetype>" ++ (if is_folder f then lit "<D:collection/>" else []) ++ lit "</D:resourcetype>" ++ NL
  ++ lit "        <D:getetag>" ++ quoted (uuid_to_string (FileEntry.id f)) ++ lit "</D:getetag>" ++ NL
  ++ lit "      </D:prop>" ++ NL ++ lit "      <D:status>HTTP/1.1 200 OK</D:status>" ++ NL
  ++ lit "    </D:propstat>" ++ NL ++ lit "  </D:response>" ++ NL.

Definition propfind_xml (entries : list FileEntry.row) : rstr :=
  lit "<?xml version=" ++ quoted (lit "1.0") ++ lit " encoding=" ++ quoted (lit "utf-8") ++ lit "?>" ++ NL
  ++ lit "<D:multistatus xmlns:D=" ++ quoted (lit "DAV:") ++ lit ">" ++ NL
  ++ flat_map propfind_entry entries ++ lit "</D:multistatus>" ++ NL.

(** The live entries of a folder, folders first. *)
Definition listing (user_id : Z) (parent : option Z) : M Server (list FileEntry.row) :=
  map_err (to_internal "") (query (fun s => sort_by listing_order
    (select (fun f => owned_by user_id f && bool_decide (FileEntry.parent_id f = parent)
                      && negb (FileEntry.is_trashed f)) (file_entries s)))).

Definition propfind (user_id : Z) (path : option rstr) : M Server Response :=
  let raw_path := default [] path in
  r ← resolve_path user_id raw_path;
  entries ← match snd r with
            | Some f => if is_folder f then es ← listing user_id (Some (FileEntry.id f)); mret (Some es)
                        else mret (Some [f])
            | None => if bool_decide (raw_path = []) then es ← listing user_id None; mret (Some es)
                      else mret None
            end;
  match entries with
  | Some entries =>
      build 207 [(lit "content-type", lit "application/xml; charset=utf-8"); (lit "DAV", lit "1, 2")]
        (as_bytes (propfind_xml entries))
  | None => not_found
  end.

(** ** MKCOL *)

Definition new_folder (i user_id : Z) (parent : option Z) (name : rstr) (now : Z) : FileEntry.row :=
  {| FileEntry.id := i; FileEntry.user_id := user_id; FileEntry.parent_id := parent; FileEntry.name := name;
     FileEntry.entry_type := lit "folder"; FileEntry.mime_type := None; FileEntry.size_bytes := 0;
     FileEntry.sha256_hash := None; FileEntry.storage_path := None; FileEntry.is_trashed := false;
     FileEntry.trashed_at := None; FileEntry.created_at := now; FileEntry.updated_at := now |}.

Definition insert_folder (user_id : Z) (parent : option Z) (name : rstr) : M Server unit :=
  i ← new_v4;
  map_err (to_internal "") (execute schema_ok (fun now s => (tt, insert_file (new_folder i user_id parent name now) s))).

Definition mkcol (user_id : Z) (name : rstr) : M Server Response :=
  r ← resolve_path user_id name;
  match snd r with
  | Some _ => mret (plain_status 405)
  | None =>
      _ ← insert_folder user_id (fst r) (last_piece (trim_slashes name));
      mret (plain_status 201)
  end.

(** ** GET and HEAD *)

Definition OCTETS : rstr := lit "application/octet-stream".

Definition webdav_get (user_id : Z) (hs : HeaderMap) (name : rstr) : M Server Response :=
  r ← resolve_path user_id name;
  match snd r with
  | None => not_found
  | Some f =>
      if is_folder f then propfind user_id (Some name) else
      match FileEntry.storage_path f with
      | None => not_found
      | Some p =>
          data ← map_err (to_internal "Failed to read file: ") (Storage.fs_read (fun d => Fs.read d (joined p)));
          serve (h_range hs) (default OCTETS (FileEntry.mime_type f)) (Z.of_nat (length data))
            (http_date (FileEntry.updated_at f)) (quoted (uuid_to_string (FileEntry.id f))) data
      end
  end.

Definition webdav_head (user_id : Z) (name : rstr) : M Server Response :=
  r ← resolve_path user_id name;
  match snd r with
  | None => not_found
  | Some f =>
      build 200
        [(lit "content-type", if is_folder f then lit "httpd/unix-directory" else default OCTETS (FileEntry.mime_type f));
         (lit "content-length", show_int (FileEntry.size_bytes f)); (lit "accept-ranges", lit "bytes");
         (lit "last-modified", http_date (FileEntry.updated_at f));
         (lit "etag", quoted (uuid_to_string (FileEntry.id f)))] []
  end.

(** ** PUT *)

(** create_dir_all of the parent, File::create, write_all, flush. *)
Definition write_file (full_path : Fs.path) (data : bytes) : M Server unit :=
  _ ← map_err (to_internal "") (Storage.fs_op (fun f => Fs.create_dir_all f (Fs.parent full_path)));
  _ ← map_err (to_internal "") (Storage.fs_op (fun f => Fs.write f full_path []));
  _ ← map_err (to_internal "") (Storage.fs_op (fun f => Fs.write f full_path data));
  map_err (to_internal "") (Storage.fs_op (fun f => Some f)).

Definition guess_mime (hs : HeaderMap) (filename : rstr) : option rstr :=
  match h_content_type hs with
  | Some m => Some m
  | None => mime_first_raw filename
  end.

(** UPDATE file_entries SET size_bytes, sha256_hash, storage_path, mime_type, updated_at *)
Definition overwritten (size : Z) (hash path : rstr) (mime : option rstr) (now : Z) (f : FileEntry.row)
  : FileEntry.row :=
  FileEntry.set_updated_at now (FileEntry.set_mime_type mime (FileEntry.set_storage_path (Some path)
    (FileEntry.set_sha256_hash (Some hash) (FileEntry.set_size_bytes size f)))).

Definition new_file (i user_id : Z) (parent : option Z) (name : rstr) (mime : option rstr) (size : Z)
  (hash : option rstr) (path : rstr) (now : Z) : FileEntry.row :=
  {| FileEntry.id := i; FileEntry.user_id := user_id; FileEntry.parent_id := parent; FileEntry.name := name;
     FileEntry.entry_type := lit "file"; FileEntry.mime_type := mime; FileEntry.size_bytes := size;
     FileEntry.sha256_hash := hash; FileEntry.storage_path := Some path; FileEntry.is_trashed := false;
     FileEntry.trashed_at := None; FileEntry.created_at := now; FileEntry.updated_at := now |}.

Definition item_of (item_id user_id : Z) (f : FileEntry.row) : bool := has_id item_id f && owned_by user_id f.

Definition webdav_put (user_id : Z) (hs : HeaderMap) (name : rstr) (body : rstr + bytes) : M Server Response :=
  r ← resolve_path user_id name;
  data ← read_body body;
  let filename := last_piece (trim_slashes name) in
  let mime := guess_mime hs filename in
  let hash := Storage.digest data in
  let size := Z.of_nat (length data) in
  match snd r with
  | Some e =>
      let rel := default (Storage.relative_path user_id (FileEntry.id e)) (FileEntry.storage_path e) in
      _ ← write_file (joined rel) data;
      _ ← map_err (to_internal "") (execute schema_ok (fun now s =>
            (tt, update_files (item_of (FileEntry.id e) user_id) (overwritten size hash rel mime now) s)));
      build 204 [(lit "etag", quoted hash)] []
  | None =>
      i ← new_v4;
      let rel := Storage.relative_path user_id i in
      _ ← write_file (joined rel) data;
      _ ← map_err (to_internal "") (execute schema_ok (fun now s =>
            (tt, insert_file (new_file i user_id (fst r) filename mime size (Some hash) rel now) s)));
      build 201 [(lit "etag", quoted hash)] []
  end.

(** ** DELETE, MOVE, COPY *)

Definition webdav_delete (user_id : Z) (name : rstr) : M Server Response :=
  r ← resolve_path user_id name;
  match snd r with
  | Some e =>
      _ ← map_err (to_internal "") (execute schema_ok (fun now s =>
            (tt, update_files (item_of (FileEntry.id e) user_id)
                   (fun f => FileEntry.set_updated_at now (FileEntry.set_is_trashed true f)) s)));
      mret (plain_status 204)
  | None => mret (plain_status 404)
  end.

(** The last segment of the Destination header. *)
Definition destination (hs : HeaderMap) : M Server rstr :=
  ok_or (option_map last_piece (h_destination hs)) (Validation (lit "Missing Destination header")).

Definition webdav_move (user_id : Z) (hs : HeaderMap) (name : rstr) : M Server Response :=
  dest ← destination hs;
  r ← resolve_path user_id name;
  match snd r with
  | Some e =>
      _ ← map_err (to_internal "") (execute schema_ok (fun now s =>
            (tt, update_files (item_of (FileEntry.id e) user_id)
                   (fun f => FileEntry.set_updated_at now (FileEntry.set_name dest f)) s)));
      mret (plain_status 201)
  | None => mret (plain_status 404)
  end.

(** fs::copy *)
Definition copy_file (src dst : Fs.path) : M Server unit :=
  Storage.fs_op (fun f => match Fs.read f src with Some b => Fs.write f dst b | None => None end).

Definition webdav_copy (user_id : Z) (hs : HeaderMap) (name : rstr) : M Server Response :=
  dest ← destination hs;
  r ← resolve_path user_id name;
  match snd r with
  | Some e =>
      _ ← (if is_folder e then insert_folder user_id (fst r) dest
           else match FileEntry.storage_path e with
                | Some src =>
                    i ← new_v4;
                    let rel := Storage.relative_path user_id i in
                    _ ← map_err (to_internal "")
                          (Storage.fs_op (fun f => Fs.create_dir_all f (Fs.parent (joined rel))));
                    _ ← map_err (to_internal "") (copy_file (joined src) (joined rel));
                    map_err (to_internal "") (execute schema_ok (fun now s =>
                      (tt, insert_file (new_file i user_id (fst r) dest (FileEntry.mime_type e)
                                          (FileEntry.size_bytes e) None rel now) s)))
                | None => mret tt
                end);
      mret (plain_status 201)
  | None => mret (plain_status 404)
  end.

(** ** Dispatch *)

Definition options : M Server Response :=
  build 200 [(lit "DAV", lit "1, 2"); (lit "Allow", lit "OPTIONS, GET, HEAD, PUT, DELETE, PROPFIND, MKCOL, MOVE, COPY");
             (lit "MS-Author-Via", lit "DAV")] [].

Definition dispatch_root (user_id : Z) (method : rstr) : M Server Response :=
  if bool_decide (method = lit "OPTIONS") then options
  else if bool_decide (method = lit "PROPFIND") || bool_decide (method = lit "GET") then propfind user_id None
  else mret (plain_status 405).

Definition dispatch_path (user_id : Z) (hs : HeaderMap) (path method : rstr) (body : rstr + bytes)
  : M Server Response :=
  if bool_decide (method = lit "OPTIONS") then options
  else if bool_decide (method = lit "PROPFIND") then propfind user_id (Some path)
  else if bool_decide (method = lit "MKCOL") then mkcol user_id path
  else if bool_decide (method = lit "GET") then webdav_get user_id hs path
  else if bool_decide (method = lit "HEAD") then webdav_head user_id path
  else if bool_decide (method = lit "PUT") then webdav_put user_id hs path body
  else if bool_decide (method = lit "DELETE") then webdav_delete user_id path
  else if bool_decide (method = lit "MOVE") then webdav_move user_id hs path
  else if bool_decide (method = lit "COPY") then webdav_copy user_id hs path
  else mret (plain_status 405).

(** ** Resolution *)

(** What the loop answers on a table. *)
Fixpoint walked (user_id : Z) (t : list FileEntry.row) (current_parent : option Z) (segs : list rstr)
  : option Z * option FileEntry.row :=
  match segs with
  | [] => (current_parent, None)
  | [segment] => (current_parent, find_row (same_name user_id current_parent segment) t)
  | segment :: rest =>
      match find_row (fun f => same_name user_id current_parent segment f && is_folder f) t with
      | Some d => walked user_id t (Some (FileEntry.id d)) rest
      | None => (current_parent, None)
      end
  end.

Lemma walk_Ok u segs cur w r w' :
  walk u cur segs w = (Ok r, w') -> data w' = data w /\ r = walked u (file_entries (data w)) cur segs.
Proof.
  revert cur w. induction segs as [|x [|y segs] IH]; intros cur w H; cbn [walk walked] in *.
  - run_ok H. done.
  - run_ok H. done.
  - apply bind_Ok in H as (d & w1 & E & H). apply map_err_Ok, query_Ok in E as (_ & -> & ->).
    destruct (find_row _ _) as [d|]; [|by run_ok H]. apply IH in H. done.
Qed.

Lemma walk_tables u segs cur : preserves Tenancy.tables_same (walk u cur segs).
Proof.
  revert cur. induction segs as [|x [|y segs] IH]; intros cur; cbn [walk]; [preserve..|].
  apply preserves_bind; [apply _|preserve|]. intros [d|]; [apply IH|preserve].
Qed.

Lemma walked_view u t segs :
  snd (walked u t None segs) = view u t segs
  /\ (forall pre x par, segs = pre ++ [x] -> folder_at u t pre = Some par -> fst (walked u t None segs) = par).
Proof.
  assert (G : forall segs cur,
    snd (walked u t cur segs) = match last segs with
      | Some x => match fold_left (step u t) (removelast segs) (Some cur) with
                  | Some par => find_row (same_name u par x) t
                  | None => None
                  end
      | None => None end
    /\ (forall pre x par, segs = pre ++ [x] -> fold_left (step u t) pre (Some cur) = Some par ->
          fst (walked u t cur segs) = par)).
  { clear segs. induction segs as [|x [|y segs] IH]; intros cur.
    - split; [done|]. intros pre x par E. by destruct pre.
    - split; [done|]. intros [|? [|]] z par E; simplify_eq. by intros [= <-].
    - destruct (IH cur) as [_ _]. cbn [walked]. change (last (x :: y :: segs)) with (last (y :: segs)).
      change (removelast (x :: y :: segs)) with (x :: removelast (y :: segs)). cbn [fold_left step].
      assert (N : fold_left (step u t) (removelast (y :: segs)) None = None).
      { generalize (removelast (y :: segs)). intros l. by induction l. }
      destruct (find_row _ t) as [d|] eqn:E; cbn [option_map].
      + destruct (IH (Some (FileEntry.id d))) as [S F]. split; [exact S|].
        intros [|a pre] z par Q; [by injection Q as _ Q; destruct segs|]. injection Q as -> Q.
        cbn [fold_left step]. rewrite E. by apply (F pre z).
      + rewrite N. split; [by destruct (last _)|]. intros [|a pre] z par Q; [done|]. injection Q as -> Q.
        cbn [fold_left step]. rewrite E. cbn.
        assert (N2 : forall l, fold_left (step u t) l None = None) by (intros l; by induction l).
        by rewrite N2. }
  exact (G segs None).
Qed.

(** The name a path ends with. *)
Lemma split_snoc s c :
  c <> SLASH ->
  split_char SLASH (s ++ [c]) = removelast (split_char SLASH s) ++ [default [] (last (split_char SLASH s)) ++ [c]].
Proof.
  intros N. induction s as [|a s IH]; cbn [app split_char].
  - by destruct (Z.eqb_spec c SLASH).
  - assert (E : split_char SLASH s <> []) by apply split_char_not_nil. rewrite IH.
    destruct (split_char SLASH s) as [|w [|b l]]; [done|..]; by destruct (a =? SLASH).
Qed.

Lemma segments_last s p x : segments s = p ++ [x] -> last_piece (trim_slashes s) = x.
Proof.
  unfold segments, last_piece. intros E.
  destruct (trim_slashes s) as [|c0 t0] eqn:T; [by destruct p|]. rewrite <- T in *.
  assert (exists t c, trim_slashes s = t ++ [c] /\ c <> SLASH) as (t & c & Q & N).
  { destruct (exists_last (l := trim_slashes s)) as (t & c & Q); [by rewrite T|]. exists t, c. split; [done|].
    intros ->. unfold trim_slashes, trim_end_by in Q. apply (f_equal reverse) in Q.
    rewrite reverse_involutive, reverse_snoc in Q.
    apply trim_start_by_head in Q. by rewrite Z.eqb_refl in Q. }
  rewrite Q, split_snoc in * by done. rewrite last_snoc. cbn.
  rewrite List.filter_app in E. cbn [List.filter] in E.
  assert (nonempty (default [] (last (split_char SLASH t)) ++ [c]) = true) as M by (by destruct (default _ _)).
  rewrite M in E. apply app_inj_tail in E as [_ E]. done.
Qed.

(** ** What the handlers do

    The change a method makes to the files of the user, as a tree of names: [p]
    is the path of the request, [dest] the last segment of the Destination
    header, which is all the handlers read of it. *)
Inductive dav_effect (p : list rstr) (dest : option rstr) (body : rstr + bytes)
  : rstr -> Z -> tree -> tree -> Prop :=
  | did_same m code v v' :
      (m ∈ [lit "OPTIONS"; lit "PROPFIND"; lit "GET"; lit "HEAD"]) \/ code = 405 \/ code = 404 /\ v p = None ->
      (forall q, v' q = v q) -> dav_effect p dest body m code v v'
  | did_mkcol v v' r :
      v p = None -> is_folder r = true -> last p = Some (FileEntry.name r) -> (forall q, v' q = put p r v q) ->
      dav_effect p dest body (lit "MKCOL") 201 v v'
  | did_create v v' r data :
      v p = None -> body = inr data -> last p = Some (FileEntry.name r) -> FileEntry.entry_type r = lit "file" ->
      FileEntry.size_bytes r = Z.of_nat (length data) -> FileEntry.sha256_hash r = Some (Storage.digest data) ->
      (forall q, v' q = put p r v q) ->
      dav_effect p dest body (lit "PUT") 201 v v'
  | did_overwrite v v' e r data :
      v p = Some e -> body = inr data -> FileEntry.id r = FileEntry.id e ->
      FileEntry.entry_type r = FileEntry.entry_type e ->
      FileEntry.size_bytes r = Z.of_nat (length data) -> FileEntry.sha256_hash r = Some (Storage.digest data) ->
      (forall q, v' q = put p r v q) ->
      dav_effect p dest body (lit "PUT") 204 v v'
  | did_delete v v' e :
      v p = Some e -> (forall q, v' q = cut p v q) -> dav_effect p dest body (lit "DELETE") 204 v v'
  | did_move v v' e n now :
      v p = Some e -> dest = Some n ->
      (forall q, v' q = relocate p (removelast p ++ [n])
                          (fun f => FileEntry.set_updated_at now (FileEntry.set_name n f)) v q) ->
      dav_effect p dest body (lit "MOVE") 201 v v'
  | did_copy v v' e n r :
      v p = Some e -> dest = Some n -> v (removelast p ++ [n]) = None ->
      FileEntry.name r = n -> is_folder r = is_folder e ->
      (is_folder e = false -> FileEntry.size_bytes r = FileEntry.size_bytes e /\ FileEntry.mime_type r = FileEntry.mime_type e) ->
      (forall q, v' q = put (removelast p ++ [n]) r v q) ->
      dav_effect p dest body (lit "COPY") 201 v v'
  | did_copy_nothing v v' e n :
      v p = Some e -> dest = Some n -> is_folder e = false -> FileEntry.storage_path e = None ->
      (forall q, v' q = v q) -> dav_effect p dest body (lit "COPY") 201 v v'.

Lemma write_file_tables p b : preserves tables_same (write_file p b).
Proof. unfold write_file. repeat first [apply fs_op_tables | progress preserve]. Qed.

Lemma tables_same_files s s' : tables_same s s' -> file_entries s' = file_entries s /\ schema_ok s' = schema_ok s.
Proof. intros ->. done. Qed.

(** An INSERT of a live row in the folder at [pre]. *)
Lemma insert_refines u mk w w' pre par x :
  schema_ok (data w) = true -> folder_at u (file_entries (data w)) pre = Some par ->
  (forall now, FileEntry.parent_id (mk now) = par /\ same_name u par x (mk now) = true) ->
  execute schema_ok (fun now s => (tt, insert_file (mk now) s)) w = (Ok tt, w') ->
  let v := view u (file_entries (data w)) in
  v (pre ++ [x]) = None
  /\ exists now, forall q, view u (file_entries (data w')) q = put (pre ++ [x]) (mk now) v q.
Proof.
  intros S F M H. apply execute_Ok in H as (_ & H & S' & _). injection H as H. rewrite <- H in *.
  destruct (M (clock_at (pos w))) as [P N]. rewrite <- P in F, N.
  destruct (view_insert u _ _ _ _ (schema_keyed _ S) (schema_parents _ S) (schema_keyed _ S') F N) as [V E].
  split; [exact V|]. exists (clock_at (pos w)). exact E.
Qed.

(** An UPDATE of an entry of the user. *)
Lemma update_item u e g s p :
  schema_ok s = true -> view u (file_entries s) p = Some e ->
  update_files (item_of (FileEntry.id e) u) g s = update_files (has_id (FileEntry.id e)) g s.
Proof.
  intros S V. unfold update_files. f_equal. unfold update. apply map_ext_in. intros f Hf.
  apply list_elem_of_In in Hf. unfold item_of. destruct (has_id (FileEntry.id e) f) eqn:I; [|done]. cbn.
  apply view_row in V as (He & U & _); [|by apply schema_keyed].
  apply Z.eqb_eq in I. rewrite (by_id _ (schema_keyed _ S) f e) by done. unfold owned_by. by rewrite U, Z.eqb_refl.
Qed.

Lemma below_removelast p : p <> [] -> below_path p (removelast p) = None.
Proof.
  intros N. destruct p as [|x p _] using rev_ind; [done|]. rewrite removelast_last. apply below_path_None.
  intros r Q. apply (f_equal length) in Q. rewrite !length_app in Q. simpl in Q. lia.
Qed.

Section Steps.
Context (u : Z) (hs : HeaderMap) (path : rstr) (body : rstr + bytes) (pre : list rstr) (x : rstr) (par : option Z).
Hypothesis segs : segments path = pre ++ [x].
Notation dest := (option_map last_piece (h_destination hs)).
Notation view_of w := (view u (file_entries (data w))).
(** What a method answers and does, when the folder of the path exists. *)
Notation steps m run := (forall w r w',
  schema_ok (data w) = true -> folder_at u (file_entries (data w)) pre = Some par -> run w = (Ok r, w') ->
  dav_effect (pre ++ [x]) dest body (lit m) (status r) (view_of w) (view_of w')).

Lemma resolve_Ok w r w' :
  folder_at u (file_entries (data w)) pre = Some par -> resolve_path u path w = (Ok r, w') ->
  data w' = data w /\ snd r = view_of w (pre ++ [x]) /\ fst r = par.
Proof.
  intros F H. unfold resolve_path in H. rewrite segs in H. apply walk_Ok in H as [D ->].
  destruct (walked_view u (file_entries (data w)) (pre ++ [x])) as [V P]. split; [done|]. split; [done|]. by apply (P pre x).
Qed.

Lemma mkcol_step : steps "MKCOL" (mkcol u path).
Proof.
  intros w r w' S F H. apply bind_Ok in H as ([par' row] & w1 & E & H).
  apply resolve_Ok in E as (D & V & P); [|done]. cbn [fst snd] in *. subst par'.
  destruct row as [e|]; [run_ok H; apply did_same; [by right; left|by rewrite D]|].
  apply bind_Ok in H as ([] & w2 & E & H). run_ok H.
  apply bind_Ok in E as (i & w3 & E & H). apply interact_Ok in E as [-> ->]. apply map_err_Ok in H.
  apply (insert_refines u (new_folder (uuid_at (pos w1)) u par (last_piece (trim_slashes path))) _ _ pre par x) in H
    as (_ & now & Q); cbn [data] in *; rewrite ?D in *; [|done..|].
  - eapply did_mkcol; [| | |exact Q]; [done|done|]. rewrite last_snoc. f_equal. symmetry. by eapply segments_last.
  - intros now. split; [done|]. apply same_name_iff. split_and!; try done. by eapply segments_last.
Qed.

(** What a PUT that was answered wrote. *)
Lemma put_Ok w r w' :
  schema_ok (data w) = true -> folder_at u (file_entries (data w)) pre = Some par ->
  webdav_put u hs path body w = (Ok r, w') ->
  exists b rel row, body = inr b
    /\ FileEntry.size_bytes row = Z.of_nat (length b) /\ FileEntry.sha256_hash row = Some (Storage.digest b)
    /\ FileEntry.storage_path row = Some rel
    /\ FileEntry.mime_type row = guess_mime hs (last_piece (trim_slashes path))
    /\ (forall q, view_of w' q = put (pre ++ [x]) row (view_of w) q)
    /\ match view_of w (pre ++ [x]) with
       | Some e => status r = 204 /\ FileEntry.id row = FileEntry.id e
                   /\ FileEntry.entry_type row = FileEntry.entry_type e
                   /\ rel = default (Storage.relative_path u (FileEntry.id e)) (FileEntry.storage_path e)
       | None => status r = 201 /\ FileEntry.name row = x /\ FileEntry.entry_type row = lit "file"
                 /\ exists i, rel = Storage.relative_path u i
       end
    /\ exists wa wb, write_file (joined rel) b wa = (Ok tt, wb) /\ disk (data w') = disk (data wb).
Proof.
  intros S F H. apply bind_Ok in H as ([par' row] & w1 & E & H).
  apply resolve_Ok in E as (D & V & P); [|done]. cbn [fst snd] in *. subst par'.
  apply bind_Ok in H as (b & w2 & E & H).
  assert (body = inr b /\ w2 = w1) as [Eb ->].
  { unfold read_body in E. destruct body as [e|b']; [by run_ok E|]. by run_ok E. }
  clear E. cbv zeta in H. rewrite <- V. symmetry in V. destruct row as [e|].
  - apply bind_Ok in H as ([] & w3 & E1 & H). assert (W := E1).
    apply write_file_tables, tables_same_files in E1 as [D3 S3].
    apply bind_Ok in H as ([] & w4 & E2 & H). apply build_Ok in H as [-> ->].
    apply map_err_Ok, execute_Ok in E2 as (_ & E2 & S4 & _). injection E2 as E2.
    rewrite D in D3, S3. rewrite S in S3. rewrite <- D3 in V.
    rewrite (update_item u e _ _ _ S3 V) in E2. set (g := overwritten _ _ _ _ _) in *.
    assert (G : in_place g) by (intros f; split; [done|split; done]).
    eexists b, _, (g e). do 5 (split; [done|]). split; [|split; [done|]].
    + rewrite <- E2, <- D3. unfold update_files. cbn [file_entries set_file_entries].
      by apply view_update; [by apply schema_keyed| | |].
    + exists w1, w3. split; [exact W|]. by rewrite <- E2.
  - apply bind_Ok in H as (i & w3 & E & H). apply interact_Ok in E as [-> ->].
    apply bind_Ok in H as ([] & w4 & E1 & H). assert (W := E1).
    apply write_file_tables, tables_same_files in E1 as [D4 S4].
    apply bind_Ok in H as ([] & w5 & E2 & H). apply build_Ok in H as [-> ->]. apply map_err_Ok in E2.
    cbn [data] in D4, S4. rewrite D in D4, S4.
    set (rel := Storage.relative_path u (uuid_at (pos w1))) in *.
    set (mk := new_file (uuid_at (pos w1)) u par (last_piece (trim_slashes path)) _ _ _ rel) in *.
    assert (Disk : disk (data w5) = disk (data w4)).
    { apply execute_Ok in E2 as (_ & E2 & _). injection E2 as E2. by rewrite <- E2. }
    apply (insert_refines u mk _ _ pre par x) in E2 as (_ & now & Q).
    + rewrite D4 in Q. exists b, rel, (mk now). do 5 (split; [done|]). split; [exact Q|]. split.
      * split; [done|]. split; [by eapply segments_last|]. split; [done|]. by eexists.
      * by exists (mkWorld (data w1) (Datatypes.S (pos w1))), w4.
    + by rewrite S4.
    + by rewrite D4.
    + intros now. split; [done|]. apply same_name_iff. split_and!; try done. by eapply segments_last.
Qed.

Lemma put_step : steps "PUT" (webdav_put u hs path body).
Proof.
  intros w r w' S F H. apply put_Ok in H as (b & rel & row & Eb & Sz & Hh & _ & _ & Q & M & _); [|done..].
  destruct (view_of w (pre ++ [x])) as [e|] eqn:V.
  - destruct M as (-> & Ei & Et & _). by eapply did_overwrite.
  - destruct M as (-> & En & Et & _). eapply did_create; try done. by rewrite last_snoc, En.
Qed.

Lemma delete_step : steps "DELETE" (webdav_delete u path).
Proof.
  intros w r w' S F H. apply bind_Ok in H as ([par' row] & w1 & E & H).
  apply resolve_Ok in E as (D & V & P); [|done]. cbn [fst snd] in *. subst par'.
  destruct row as [e|]; [|run_ok H; apply did_same; [by right; right|by rewrite D]].
  apply bind_Ok in H as ([] & w2 & E2 & H). run_ok H.
  apply map_err_Ok, execute_Ok in E2 as (_ & E2 & S2' & _). injection E2 as E2. rewrite <- E2 in *.
  rewrite D in *. symmetry in V. rewrite (update_item u e _ _ _ S V) in *. unfold update_files.
  eapply did_delete; [exact V|]. eapply view_trash; [by apply schema_keyed|by apply (schema_keyed _ S2')|done|exact V|done].
Qed.

Lemma destination_Ok w n w' : destination hs w = (Ok n, w') -> dest = Some n /\ w' = w.
Proof. unfold destination. intros H. by run_ok H. Qed.

Lemma move_step : steps "MOVE" (webdav_move u hs path).
Proof.
  intros w r w' S F H. apply bind_Ok in H as (n & w0 & E & H). apply destination_Ok in E as [Dn ->].
  apply bind_Ok in H as ([par' row] & w1 & E & H).
  apply resolve_Ok in E as (D & V & P); [|done]. cbn [fst snd] in *. subst par'.
  destruct row as [e|]; [|run_ok H; apply did_same; [by right; right|by rewrite D]].
  apply bind_Ok in H as ([] & w2 & E2 & H). run_ok H.
  apply map_err_Ok, execute_Ok in E2 as (_ & E2 & S2' & _). injection E2 as E2. rewrite <- E2 in *.
  rewrite D in *. symmetry in V. rewrite (update_item u e _ _ _ S V) in *. unfold update_files.
  eapply (did_move _ _ _ _ _ e n (clock_at (pos w1))); [exact V|exact Dn|].
  destruct (view_parent u _ (schema_keyed _ S) _ _ _ V) as [Fp Nx].
  eapply view_relocate; [by apply schema_keyed|by apply (schema_keyed _ S2')|done|exact V|done| | |].
  - by rewrite removelast_last.
  - apply below_removelast. by destruct pre.
  - apply view_row in V as (_ & U & T); [|by apply schema_keyed]. apply same_name_iff. done.
Qed.

Lemma copy_step : steps "COPY" (webdav_copy u hs path).
Proof.
  intros w r w' S F H. apply bind_Ok in H as (n & w0 & E & H). apply destination_Ok in E as [Dn ->].
  apply bind_Ok in H as ([par' row] & w1 & E & H).
  apply resolve_Ok in E as (D & V & P); [|done]. cbn [fst snd] in *. subst par'.
  destruct row as [e|]; [|run_ok H; apply did_same; [by right; right|by rewrite D]].
  apply bind_Ok in H as ([] & w2 & E & H). run_ok H. symmetry in V.
  destruct (is_folder e) eqn:Fe; [|destruct (FileEntry.storage_path e) as [src|] eqn:Sp].
  - apply bind_Ok in E as (i & w3 & E & H). apply interact_Ok in E as [-> ->]. apply map_err_Ok in H.
    apply (insert_refines u (new_folder (uuid_at (pos w1)) u par n) _ _ pre par n) in H
      as (Vn & now & Q); cbn [data] in *; rewrite ?D in *; [|done..|].
    + eapply did_copy; rewrite ?removelast_last; [exact V|exact Dn|exact Vn| | | |exact Q]; [done|by rewrite Fe|by rewrite Fe].
    + intros now. split; [done|]. by apply same_name_iff.
  - apply bind_Ok in E as (i & w3 & E & H). apply interact_Ok in E as [-> ->]. cbv zeta in H.
    apply bind_Ok in H as ([] & w4 & E1 & H). apply map_err_Ok, fs_op_tables, tables_same_files in E1 as [D4 S4].
    apply bind_Ok in H as ([] & w5 & E2 & H). apply map_err_Ok, fs_op_tables, tables_same_files in E2 as [D5 S5].
    apply map_err_Ok in H. cbn [data] in *. rewrite D4, D in D5. rewrite S4, D in S5.
    apply (insert_refines u (new_file (uuid_at (pos w1)) u par n _ _ _ _) _ _ pre par n) in H as (Vn & now & Q).
    + rewrite D5 in Vn, Q. eapply did_copy; rewrite ?removelast_last; [exact V|exact Dn|exact Vn| | | |exact Q]; [done|by rewrite Fe|done].
    + by rewrite S5.
    + by rewrite D5.
    + intros now. split; [done|]. by apply same_name_iff.
  - run_ok E. eapply did_copy_nothing; [exact V|exact Dn|done|done|]. by rewrite D.
Qed.
End Steps.

Lemma propfind_tables u p : preserves tables_same (propfind u p).
Proof.
  unfold propfind, resolve_path, listing, not_found, build.
  repeat first [apply walk_tables | progress preserve].
Qed.

Lemma get_tables u hs p : preserves tables_same (webdav_get u hs p).
Proof.
  unfold webdav_get, resolve_path, not_found, serve, build.
  repeat first [apply walk_tables | apply propfind_tables | apply fs_read_tables | progress preserve].
Qed.

Lemma head_tables u p : preserves tables_same (webdav_head u p).
Proof.
  unfold webdav_head, resolve_path, not_found, build.
  repeat first [apply walk_tables | progress preserve].
Qed.

Lemma options_tables : preserves tables_same options.
Proof. unfold options, build. preserve. Qed.

Lemma webdav_effect u hs path method body w r w' pre x par :
  schema_ok (data w) = true -> segments path = pre ++ [x] ->
  folder_at u (file_entries (data w)) pre = Some par ->
  dispatch_path u hs path method body w = (Ok r, w') ->
  dav_effect (pre ++ [x]) (option_map last_piece (h_destination hs)) body method (status r)
    (view u (file_entries (data w))) (view u (file_entries (data w'))).
Proof.
  intros S G F H. unfold dispatch_path in H.
  assert (Read : forall (m : M Server Response) l, preserves tables_same m -> m w = (Ok r, w') ->
    l ∈ [lit "OPTIONS"; lit "PROPFIND"; lit "GET"; lit "HEAD"] ->
    dav_effect (pre ++ [x]) (option_map last_piece (h_destination hs)) body l (status r)
      (view u (file_entries (data w))) (view u (file_entries (data w')))).
  { intros m l P E I. apply P, tables_same_files in E as [-> _]. apply did_same; [by left|done]. }
  repeat case_bool_decide; subst.
  - eapply Read; [apply options_tables|exact H|set_solver].
  - eapply Read; [apply propfind_tables|exact H|set_solver].
  - by eapply mkcol_step.
  - eapply Read; [apply get_tables|exact H|set_solver].
  - eapply Read; [apply head_tables|exact H|set_solver].
  - by eapply put_step.
  - by eapply delete_step.
  - by eapply move_step.
  - by eapply copy_step.
  - run_ok H. apply did_same; [by right; left|done].
Qed.

(** ** Refinement

    What API_REFERENCE.md promises, on a tree of names: [p] is the path of the
    request and [dest] the path its Destination header names.  MOVE takes an
    entry, with everything below it, from the one path to the other; COPY gives
    everything at and below the one path a copy at and below the other. *)
Definition copied (a b : option FileEntry.row) : Prop :=
  match a, b with
  | Some e, Some r => is_folder r = is_folder e /\ FileEntry.size_bytes r = FileEntry.size_bytes e
                      /\ FileEntry.mime_type r = FileEntry.mime_type e
  | None, None => True
  | _, _ => False
  end.

Inductive dav_step (p dest : list rstr) (body : rstr + bytes) : rstr -> Z -> tree -> tree -> Prop :=
  | dav_same m code v v' :
      (m ∈ [lit "OPTIONS"; lit "PROPFIND"; lit "GET"; lit "HEAD"]) \/ code = 405 \/ code = 404 /\ v p = None ->
      (forall q, v' q = v q) -> dav_step p dest body m code v v'
  | dav_mkcol v v' r :
      v p = None -> is_folder r = true -> last p = Some (FileEntry.name r) -> (forall q, v' q = put p r v q) ->
      dav_step p dest body (lit "MKCOL") 201 v v'
  | dav_create v v' r data :
      v p = None -> body = inr data -> last p = Some (FileEntry.name r) -> FileEntry.entry_type r = lit "file" ->
      FileEntry.size_bytes r = Z.of_nat (length data) -> FileEntry.sha256_hash r = Some (Storage.digest data) ->
      (forall q, v' q = put p r v q) ->
      dav_step p dest body (lit "PUT") 201 v v'
  | dav_overwrite v v' e r data :
      v p = Some e -> is_folder e = false -> body = inr data -> FileEntry.id r = FileEntry.id e ->
      FileEntry.entry_type r = FileEntry.entry_type e ->
      FileEntry.size_bytes r = Z.of_nat (length data) -> FileEntry.sha256_hash r = Some (Storage.digest data) ->
      (forall q, v' q = put p r v q) ->
      dav_step p dest body (lit "PUT") 204 v v'
  | dav_delete v v' e :
      v p = Some e -> (forall q, v' q = cut p v q) -> dav_step p dest body (lit "DELETE") 204 v v'
  | dav_move v v' e n now :
      v p = Some e -> last dest = Some n ->
      (forall q, v' q = relocate p dest (fun f => FileEntry.set_updated_at now (FileEntry.set_name n f)) v q) ->
      dav_step p dest body (lit "MOVE") 201 v v'
  | dav_copy v v' e r :
      v p = Some e -> v dest = None -> v' dest = Some r -> last dest = Some (FileEntry.name r) ->
      (forall rest, copied (v (p ++ rest)) (v' (dest ++ rest))) ->
      (forall q, below_path dest q = None -> v' q = v q) ->
      dav_step p dest body (lit "COPY") 201 v v'.

Lemma join_snoc sep l x : l <> [] -> join sep (l ++ [x]) = join sep l ++ sep ++ x.
Proof.
  induction l as [|y l IH]; [done|]. intros _. destruct l as [|z l]; [done|]. cbn [app join] in *. rewrite IH by done.
  by rewrite <- !app_assoc.
Qed.

Lemma split_join sep a b : split_char sep (a ++ sep :: b) = split_char sep a ++ split_char sep b.
Proof.
  induction a as [|c a IH]; cbn [app split_char]; [by rewrite Z.eqb_refl|]. rewrite IH.
  pose proof (split_char_not_nil sep a) as N. destruct (split_char sep a) as [|w ws]; [done|]. by destruct (c =? sep).
Qed.

Lemma split_last a n : SLASH ∉ n -> last (split_char SLASH (a ++ SLASH :: n)) = Some n.
Proof. intros N. by rewrite split_join, (split_char_last SLASH n), last_snoc. Qed.

(** The Destination header is a URL of the path [dest], which has no escapes. *)
Definition destination_is (hs : HeaderMap) (dest : list rstr) : Prop :=
  exists origin, h_destination hs = Some (origin ++ lit "/webdav/" ++ join [SLASH] dest)
    /\ Forall (fun x => x <> [] /\ SLASH ∉ x /\ chr "%" ∉ x) dest.

Lemma destination_last hs dest n :
  destination_is hs (dest ++ [n]) -> option_map last_piece (h_destination hs) = Some n.
Proof.
  intros (origin & H & F). apply Forall_app in F as [_ F]. apply Forall_singleton in F as (_ & N & _).
  rewrite H. cbn [option_map]. f_equal. unfold last_piece.
  assert (exists a, origin ++ lit "/webdav/" ++ join [SLASH] (dest ++ [n]) = a ++ SLASH :: n) as (a & E).
  { destruct dest as [|d l].
    - exists (origin ++ lit "/webdav"). change (lit "/webdav/") with (lit "/webdav" ++ [SLASH]).
      cbn [app join]. by rewrite <- !app_assoc.
    - exists (origin ++ lit "/webdav/" ++ join [SLASH] (d :: l)). rewrite join_snoc by done.
      by rewrite <- !app_assoc. }
  rewrite E, split_last by done. reflexivity.
Qed.

(** Below what is no folder there is nothing. *)
Lemma view_below u t p rest :
  keyed t -> (forall e, view u t p = Some e -> is_folder e = false) -> p <> [] -> rest <> [] -> view u t (p ++ rest) = None.
Proof.
  intros K V N. induction rest as [|y rest IH] using rev_ind; [done|]. intros _. rewrite app_assoc, (view_snoc u t).
  assert (E : folder_at u t (p ++ rest) = None); [|by rewrite E].
  destruct rest as [|z l _] using rev_ind.
  - rewrite app_nil_r. destruct p as [|x p _] using rev_ind; [done|]. rewrite (folder_view u t) by done.
    destruct (view u t (p ++ [x])) as [d|]; [|done]. by rewrite (V d).
  - apply (folder_none u t); [done|by destruct p|]. apply IH. by destruct l.
Qed.

(** The copy of a file is one new entry. *)
Lemma copy_promised u t p pre e r body v' :
  keyed t -> p <> [] -> view u t p = Some e -> is_folder e = false -> view u t (pre ++ [FileEntry.name r]) = None ->
  is_folder r = is_folder e -> FileEntry.size_bytes r = FileEntry.size_bytes e /\ FileEntry.mime_type r = FileEntry.mime_type e ->
  (forall q, v' q = put (pre ++ [FileEntry.name r]) r (view u t) q) ->
  dav_step p (pre ++ [FileEntry.name r]) body (lit "COPY") 201 (view u t) v'.
Proof.
  intros K N V Fe Vn Fo [Sz Mi] Q. set (dest := pre ++ [FileEntry.name r]) in *.
  assert (Pd : put dest r (view u t) dest = Some r) by (unfold put; by rewrite bool_decide_true).
  assert (Nd : dest <> []) by (unfold dest; by destruct pre).
  eapply (dav_copy _ _ _ _ _ e r); [done|done|by rewrite Q|by apply last_snoc| |].
  - intros [|y rest]; rewrite Q.
    + rewrite !app_nil_r, Pd, V. by split_and!.
    + unfold put. rewrite bool_decide_false.
      2: { intros B. rewrite <- (app_nil_r dest) in B at 2. by apply app_inv_head in B. }
      rewrite !view_below; try done; intros e' V'; congruence.
  - intros q B. rewrite Q. unfold put. rewrite bool_decide_false; [done|]. intros ->.
    by rewrite (proj2 (below_path_iff dest dest []) (eq_sym (app_nil_r _))) in B.
Qed.


(** where the promise is not kept.  Whatever folder the destination names, MOVE
    leaves the entry in the folder it is in and gives it the last name of the
    destination; and the copy of a folder is a folder with nothing in it. *)
Theorem move_copy_gaps u hs path body w r w' pre x par :
  schema_ok (data w) = true -> segments path = pre ++ [x] -> folder_at u (file_entries (data w)) pre = Some par ->
  status r = 201 ->
  (dispatch_path u hs path (lit "MOVE") body w = (Ok r, w') ->
     exists n now, option_map last_piece (h_destination hs) = Some n
       /\ forall q, view u (file_entries (data w')) q
            = relocate (pre ++ [x]) (pre ++ [n]) (fun f => FileEntry.set_updated_at now (FileEntry.set_name n f))
                (view u (file_entries (data w))) q)
  /\ (dispatch_path u hs path (lit "COPY") body w = (Ok r, w') ->
     forall e, view u (file_entries (data w)) (pre ++ [x]) = Some e -> is_folder e = true ->
     exists n f, option_map last_piece (h_destination hs) = Some n /\ is_folder f = true
       /\ view u (file_entries (data w')) (pre ++ [n]) = Some f
       /\ forall rest, rest <> [] -> view u (file_entries (data w')) ((pre ++ [n]) ++ rest) = None).
Proof.
  intros S G F St. split; intros H; pose proof (webdav_effect _ _ _ _ _ _ _ _ _ _ _ S G F H) as E; rewrite St in E.
  - inversion E; subst; rewrite ?removelast_last in *; [set_solver|]. eauto.
  - intros e V Fe. inversion E; subst; rewrite ?removelast_last in *; [set_solver| |congruence].
    match goal with V' : view _ _ (pre ++ [x]) = Some ?e' |- _ => assert (e' = e) as -> by congruence end.
    match goal with Q : forall q, view _ _ q = put (pre ++ [?n]) ?f _ q |- _ => exists n, f; assert (Q' := Q) end.
    assert (Nd : forall n : rstr, pre ++ [n] <> []) by (intros n; by destruct pre).
    split; [done|]. split; [congruence|]. split; [rewrite Q'; unfold put; by rewrite bool_decide_true|].
    intros rest N. rewrite Q'. unfold put. rewrite bool_decide_false.
    + apply view_below; [by apply schema_keyed|intros; congruence|apply Nd|done].
    + intros B. rewrite <- (app_nil_r (pre ++ [_])) in B at 2. by apply app_inv_head in B.
Qed.

(** ** Isolation *)

(** What the resolution of a path established. *)
Definition resolved_in (u : Z) (r : option Z * option FileEntry.row) (t : list FileEntry.row) : Prop :=
  parent_owned u (fst r) t
  /\ forall e, snd r = Some e -> e ∈ t /\ FileEntry.user_id e = u.

Lemma walked_resolved u t segs cur : parent_owned u cur t -> resolved_in u (walked u t cur segs) t.
Proof.
  revert cur. induction segs as [|x [|y segs] IH]; intros cur P; cbn [walked].
  - by split.
  - split; [done|]. cbn. intros e E. apply find_row_Some in E as [He N]. by apply same_name_iff in N as (? & _).
  - destruct (find_row _ t) as [d|] eqn:E; [|by split]. apply IH. intros q [= <-].
    apply find_row_Some in E as [Hd N]. apply andb_true_iff in N as [N _]. apply same_name_iff in N as (U & _).
    exists d. split; [done|]. by apply root_of_iff.
Qed.

Lemma under_resolve u path {B} (k : option Z * option FileEntry.row -> M Server B) :
  (forall r, under (resolved_in u r) u (k r)) -> under (fun _ => True) u (r ← resolve_path u path; k r).
Proof.
  intros Hk w o w' _ H. apply bind_inv in H as [(r & w1 & E & H)|(o' & E)].
  - unfold resolve_path in E. apply walk_Ok in E as [D ->].
    rewrite <- D. eapply Hk; [|exact H]. rewrite D. apply walked_resolved. by intros q.
  - unfold resolve_path in E. by apply tables_same_isolated, (walk_tables u (segments path) None w o').
Qed.

Lemma under_insert u (P : list FileEntry.row -> Prop) mk :
  (forall t now, P t -> FileEntry.user_id (mk now) = u /\ parent_owned u (FileEntry.parent_id (mk now)) t) ->
  under P u (execute schema_ok (fun now s => (tt, insert_file (mk now) s))).
Proof.
  intros H. apply under_execute. intros now s HP T S'. cbn [snd] in *.
  destruct (H _ now HP) as [U Q]. by apply insert_kept.
Qed.

Lemma under_item u e (P : list FileEntry.row -> Prop) g :
  (forall now, keeps_shape (g now)) ->
  under P u (execute schema_ok (fun now s => (tt, update_files (item_of (FileEntry.id e) u) (g now) s))).
Proof.
  intros K. apply under_execute. intros now s HP [_ T] S'. cbn [snd] in *.
  split; [by apply update_owned|]. apply update_kept; [|intros x; apply K].
  intros f _ I. unfold item_of, owned_by in I. lia.
Qed.

Lemma insert_folder_under u par n : under (parent_owned u par) u (insert_folder u par n).
Proof.
  unfold insert_folder. apply under_frame; [preserve|]. intros i. apply under_map_err, under_insert. done.
Qed.

(** the files reached by path are the user's.  Whatever the request and
    whatever fails, the invariant of the file tables holds after it and the
    files, the versions and the links of every other user are as they were. *)
Theorem webdav_isolated u hs path method body w r w' :
  dispatch_path u hs path method body w = (r, w') -> tidy (data w) ->
  tidy (data w') /\ others_kept u (data w) (data w').
Proof.
  assert (G : under (fun _ => True) u (dispatch_path u hs path method body)); [|intros H; exact (G w r w' I H)].
  assert (Dest : preserves tables_same (destination hs)) by (unfold destination; preserve).
  unfold dispatch_path. repeat case_bool_decide.
  - apply under_same, options_tables.
  - apply under_same, propfind_tables.
  - apply under_resolve. intros [par [e|]]; cbn [fst snd]; [apply under_same; preserve|]. apply under_last; [|intros; preserve].
    eapply under_weaken; [|apply insert_folder_under]. by intros t [? _].
  - apply under_same, get_tables.
  - apply under_same, head_tables.
  - apply under_resolve. intros [par row]. apply under_frame; [unfold read_body; preserve|]. intros b. cbv zeta. cbn [fst snd].
    destruct row as [e|].
    + apply under_frame; [apply write_file_tables|]. intros _. apply under_last; [|intros; unfold build; preserve].
      apply under_map_err, under_item. by intros now f.
    + apply under_frame; [preserve|]. intros i. apply under_frame; [apply write_file_tables|]. intros _.
      apply under_last; [|intros; unfold build; preserve]. apply under_map_err, under_insert. by intros t now [? _].
  - apply under_resolve. intros [par [e|]]; cbn [fst snd]; [|apply under_same; preserve]. apply under_last; [|intros; preserve].
    apply under_map_err, under_item. by intros now f.
  - apply under_frame; [exact Dest|]. intros n. apply under_resolve. intros [par [e|]]; cbn [fst snd]; [|apply under_same; preserve].
    apply under_last; [|intros; preserve]. apply under_map_err, under_item. by intros now f.
  - apply under_frame; [exact Dest|]. intros n. apply under_resolve. intros [par [e|]]; cbn [fst snd]; [|apply under_same; preserve].
    apply under_last; [|intros; preserve]. cbn [fst snd]. destruct (is_folder e).
    + eapply under_weaken; [|apply insert_folder_under]. by intros t [? _].
    + destruct (FileEntry.storage_path e) as [src|]; [|apply under_same; preserve].
      apply under_frame; [preserve|]. intros i. cbv zeta.
      apply under_frame; [repeat first [apply fs_op_tables | progress preserve]|]. intros _.
      apply under_frame; [unfold copy_file; repeat first [apply fs_op_tables | progress preserve]|]. intros _.
      apply under_map_err, under_insert. by intros t now [? _].
  - apply under_same. preserve.
Qed.

(** ** What was put is what is got *)

Lemma write_file_read d c b w w' :
  Fs.plain c -> write_file (d ++ [c]) b w = (Ok tt, w') -> Fs.read (disk (data w')) (d ++ [c]) = Some b.
Proof.
  intros P H. unfold write_file in H.
  apply bind_Ok in H as ([] & w1 & _ & H). apply bind_Ok in H as ([] & w2 & _ & H).
  apply bind_Ok in H as ([] & w3 & E & H).
  apply map_err_Ok, Storage.fs_op_Ok in E as (f & E & D). apply map_err_Ok, Storage.fs_op_Ok in H as (f' & H & D').
  injection H as <-. rewrite D'. cbn. rewrite D. cbn. by eapply Fs.write_read.
Qed.

Lemma joined_relative u i :
  joined (Storage.relative_path u i) = (base ++ [uuid_to_string u; Storage.id_prefix i]) ++ [uuid_to_string i].
Proof.
  unfold joined. rewrite Storage.relative_components, <- app_assoc. unfold Storage.relative_path.
  assert (L := uuid_to_string_length u). assert (N := Storage.no_slash _ (Storage.uuid_forall u)).
  destruct (uuid_to_string u) as [|c s]; [done|]. apply not_elem_of_cons in N as [N _]. cbn [join app starts_with].
  by destruct (Z.eqb_spec SLASH c).
Qed.

Lemma walk_run u segs cur w :
  reliable O -> exists w', walk u cur segs w = (Ok (walked u (file_entries (data w)) cur segs), w') /\ data w' = data w.
Proof.
  intros R. revert cur w. induction segs as [|x [|y segs] IH]; intros cur w; cbn [walk walked].
  - by exists w.
  - unfold map_err, query, statement, mbind, M_bind. rewrite (proj1 (R _)). eexists. split; [reflexivity|done].
  - unfold mbind, M_bind at 1, map_err, query, statement. rewrite (proj1 (R _)).
    destruct (find_row _ _) as [d|]; [|eexists; split; [reflexivity|done]].
    destruct (IH (Some (FileEntry.id d)) (mkWorld (data w) (Datatypes.S (pos w)))) as (w' & E & D). by exists w'.
Qed.

Lemma serve_whole ct n modified etag b w :
  header_ok ct = true -> visible modified -> visible etag ->
  exists a, serve None ct n modified etag b w = (Ok a, w) /\ status a = 200 /\ body a = b.
Proof.
  intros C M E. unfold serve. cbn. unfold build. cbn [forallb snd].
  rewrite C, (header_ok_visible (show_int n)), (header_ok_visible (lit "bytes")), (header_ok_visible modified),
    (header_ok_visible etag); [|done|done|apply visible_iff; vm_compute; reflexivity|apply visible_int].
  cbn. eexists. split; [reflexivity|done].
Qed.

(** The path of a stored entry ends in a name. *)
Definition named (e : FileEntry.row) : Prop :=
  forall rel, FileEntry.storage_path e = Some rel -> exists d c, joined rel = d ++ [c] /\ Fs.plain c.

(** a PUT is read back.  With the database and the disk answering, when the
    folder of the path exists and the path is no folder, a PUT that was
    answered, whether it made an entry or replaced one, is followed by a GET of
    the same path that answers 200 with the body that was put. *)
Theorem webdav_put_get u hs hs' path b w r w' pre x par :
  reliable O -> schema_ok (data w) = true -> segments path = pre ++ [x] ->
  folder_at u (file_entries (data w)) pre = Some par ->
  (forall m, h_content_type hs = Some m -> header_ok m = true) -> h_range hs' = None ->
  (forall e, view u (file_entries (data w)) (pre ++ [x]) = Some e -> is_folder e = false /\ named e) ->
  webdav_put u hs path (inr b) w = (Ok r, w') ->
  exists a w'', webdav_get u hs' path w' = (Ok a, w'') /\ status a = 200 /\ body a = b.
Proof.
  intros R S G F C Rg Old H.
  apply (put_Ok _ _ _ _ pre x par G) in H as (b' & rel & row & [= <-] & _ & _ & Sp & Mi & V & M & wa & wb & W & D); [|done..].
  assert (Vp : view u (file_entries (data w')) (pre ++ [x]) = Some row).
  { rewrite V. unfold put. by rewrite bool_decide_eq_true_2. }
  assert (is_folder row = false /\ exists d c, joined rel = d ++ [c] /\ Fs.plain c) as [T (d & c & J & P)].
  { destruct (view u _ _) as [e|] eqn:E.
    - destruct M as (_ & _ & Et & Er), (Old e eq_refl) as [Fe Ne]. unfold is_folder in *. rewrite Et. split; [done|].
      destruct (FileEntry.storage_path e) as [p|] eqn:Q; cbn [from_option] in Er; subst rel; [by apply Ne|].
      rewrite joined_relative. do 2 eexists. split; [reflexivity|apply Storage.uuid_plain].
    - destruct M as (_ & _ & Et & i & ->). unfold is_folder. rewrite Et. split; [done|].
      rewrite joined_relative. do 2 eexists. split; [reflexivity|apply Storage.uuid_plain]. }
  rewrite J in W. apply write_file_read in W; [|done]. rewrite <- J, <- D in W.
  destruct (walk_run u (pre ++ [x]) None w' R) as (w1 & E1 & D1).
  assert (E2 : resolve_path u path w' = (Ok (fst (walked u (file_entries (data w')) None (pre ++ [x])), Some row), w1)).
  { unfold resolve_path. rewrite G, E1. f_equal. f_equal. rewrite <- Vp, <- (proj1 (walked_view u _ (pre ++ [x]))).
    apply surjective_pairing. }
  assert (Hm : header_ok (default OCTETS (FileEntry.mime_type row)) = true).
  { rewrite Mi. unfold guess_mime. destruct (h_content_type hs) as [m|]; [by apply C|].
    destruct (mime_first_raw _) as [m|] eqn:Em; cbn; apply header_ok_visible; [by eapply mime_first_visible|].
    apply visible_iff. vm_compute. reflexivity. }
  destruct (serve_whole (default OCTETS (FileEntry.mime_type row)) (Z.of_nat (length b)) (http_date (FileEntry.updated_at row))
    (quoted (uuid_to_string (FileEntry.id row))) b (mkWorld (data w1) (Datatypes.S (pos w1))) Hm
    (http_date_visible _) (visible_quoted _ (visible_uuid _))) as (a & Ea & Sa & Ba).
  exists a. eexists. split; [|split; [exact Sa|exact Ba]].
  eapply bind_run; [exact E2|]. cbn [snd]. rewrite T, Sp. eapply bind_run; [|by rewrite Rg].
  unfold map_err. rewrite (Storage.fs_read_ok (fun f => Fs.read f (joined rel)) w1 b R); [reflexivity|]. by rewrite D1.
Qed.
End Webdav.

(** ** Concrete runs *)

(** Bob's folders of Tree.v on an empty disk. *)
Definition demo_dav : World Server :=
  mkWorld (set_disk Storage.demo_disk (data Tree.demo_tree)) 0.

Definition demo_headers (dest : option rstr) : HeaderMap :=
  {| h_range := None; h_content_type := None; h_destination := dest |}.

Definition demo_request (method path dest : string) (b : bytes) (w : World Server) :=
  dispatch_path (O := toy_env []) (S2 := toy_sha256) (HX := plain_hex) (UT := plain_uuid) (MG := octet_stream)
    (CO := c_collation) (HV := any_header) (PG := epoch_dates) Storage.demo_base 2
    (demo_headers (Some (lit dest))) (lit path) (lit method) (inr b) w.

Definition demo_status (r : outcome Response * World Server) : option Z :=
  match fst r with Ok a => Some (status a) | _ => None end.

Definition demo_has (p : list string) (r : outcome Response * World Server) : option (rstr * Z) :=
  option_map (fun f => (FileEntry.entry_type f, FileEntry.size_bytes f))
    (view 2 (file_entries (data (snd r))) (map lit p)).

(** where the paths are not those of a tree.  A PUT below a folder that does
    not exist is accepted and lands in the deepest folder that does; a MOVE to
    another folder only renames; a COPY of a folder copies nothing in it; a PUT
    on a folder is accepted, and the folder has a size from then on. *)
Theorem webdav_gaps :
  (let r := demo_request "PUT" "docs/none/file" "" [1; 2; 3] demo_dav in
   demo_status r = Some 201 /\ demo_has ["docs"; "none"; "file"]%string r = None
   /\ demo_has ["docs"; "file"]%string r = Some (lit "file", 3))
  /\ (let r := demo_request "MOVE" "docs/sub/note" "/webdav/docs/memo" [] demo_dav in
      demo_status r = Some 201 /\ demo_has ["docs"; "memo"]%string r = None
      /\ demo_has ["docs"; "sub"; "memo"]%string r = Some (lit "file", 0))
  /\ (let r := demo_request "COPY" "docs" "/webdav/copy" [] demo_dav in
      demo_status r = Some 201 /\ demo_has ["copy"]%string r = Some (lit "folder", 0)
      /\ demo_has ["copy"; "sub"]%string r = None)
  /\ (let r := demo_request "PUT" "docs" "" [1; 2; 3] demo_dav in
      demo_status r = Some 204 /\ demo_has ["docs"]%string r = Some (lit "folder", 3)).
Proof. cbv zeta. split_and!; vm_compute; reflexivity. Qed.

Lemma demo_dav_schema : schema_ok (data demo_dav) = true.
Proof. vm_compute. reflexivity. Qed.

Lemma demo_segments : segments (lit "docs/sub/new") = [lit "docs"; lit "sub"] ++ [lit "new"].
Proof. vm_compute. reflexivity. Qed.

Lemma demo_folder : folder_at 2 (file_entries (data demo_dav)) [lit "docs"; lit "sub"] = Some (Some 11).
Proof. vm_compute. reflexivity. Qed.

Lemma demo_absent : view 2 (file_entries (data demo_dav)) ([lit "docs"; lit "sub"] ++ [lit "new"]) = None.
Proof. vm_compute. reflexivity. Qed.

Abbreviation demo_put := (webdav_put (O := toy_env []) (S2 := toy_sha256) (HX := plain_hex) (UT := plain_uuid)
  (MG := octet_stream) (HV := any_header) Storage.demo_base 2
  (demo_headers None) (lit "docs/sub/new") (inr [7; 8]) demo_dav).

Lemma demo_put_run : exists r, demo_put = (Ok r, snd demo_put) /\ status r = 201.
Proof.
  assert (E : match fst demo_put with Ok a => Some (status a) | _ => None end = Some 201) by (vm_compute; reflexivity).
  destruct demo_put as [[a|e| |] w']; [|discriminate E..]. exists a. injection E as E. split; [reflexivity|exact E].
Qed.

Lemma put_get_witness : exists a w'',
  webdav_get (O := toy_env []) (UT := plain_uuid) (CO := c_collation) (HV := any_header) (PG := epoch_dates)
    Storage.demo_base 2 (demo_headers None) (lit "docs/sub/new") (snd demo_put) = (Ok a, w'')
  /\ status a = 200 /\ body a = [7; 8].
Proof.
  destruct demo_put_run as (r & E & _).
  refine (webdav_put_get (O := toy_env []) (S2 := toy_sha256) (HX := plain_hex) (UT := plain_uuid)
    (MG := octet_stream) (CO := c_collation) (HV := any_header) (PG := epoch_dates) Storage.demo_base 2
    (demo_headers None) (demo_headers None) (lit "docs/sub/new") [7; 8] demo_dav r (snd demo_put)
    [lit "docs"; lit "sub"] (lit "new") (Some 11) toy_env_reliable demo_dav_schema demo_segments demo_folder
    _ eq_refl _ E).
  - intros m H. discriminate H.
  - intros e H. rewrite demo_absent in H. discriminate H.
Defined.

Abbreviation demo_dispatch := (dispatch_path (O := toy_env []) (S2 := toy_sha256) (HX := plain_hex)
  (UT := plain_uuid) (MG := octet_stream) (CO := c_collation) (HV := any_header) (PG := epoch_dates)
  Storage.demo_base 2 (demo_headers None) (lit "docs/sub/new") (lit "PUT") (inr [7; 8]) demo_dav).

Lemma demo_dispatch_run : exists r, demo_dispatch = (Ok r, snd demo_dispatch).
Proof.
  assert (E : match fst demo_dispatch with Ok a => true | _ => false end = true) by (vm_compute; reflexivity).
  destruct demo_dispatch as [[a|e| |] w']; [|discriminate E..]. exists a. reflexivity.
Qed.


Lemma demo_dav_tidy : tidy (data demo_dav).
Proof.
  assert (F : file_entries (data demo_dav) = [demo_docs; demo_sub; demo_note]) by (vm_compute; reflexivity).
  split; [exact demo_dav_schema|]. split.
  - rewrite F. intros f p Hf Hp _.
    assert (U : forall g, g ∈ [demo_docs; demo_sub; demo_note] -> FileEntry.user_id g = 2).
    { intros g Hg. repeat (apply elem_of_cons in Hg as [->|Hg]; [reflexivity|]). destruct (proj1 (elem_of_nil g) Hg). }
    rewrite (U f Hf), (U p Hp). reflexivity.
  - intros l f Hl. assert (L : share_links (data demo_dav) = []) by (vm_compute; reflexivity). rewrite L in Hl.
    destruct (proj1 (elem_of_nil l) Hl).
Qed.

Lemma webdav_isolated_witness : tidy (data (snd demo_dispatch)).
Proof.
  exact (proj1 (webdav_isolated (O := toy_env []) (S2 := toy_sha256) (HX := plain_hex) (UT := plain_uuid)
    (MG := octet_stream) (CO := c_collation) (HV := any_header) (PG := epoch_dates) Storage.demo_base 2
    (demo_headers None) (lit "docs/sub/new") (lit "PUT") (inr [7; 8]) demo_dav _ _ (surjective_pairing _) demo_dav_tidy)).
Defined.
End Webdav.
