(* ===== verification/S3.v ===== *)
(** * S3: files as objects

    backend/crates/file_metadata/src/s3_compat.rs: one bucket whose keys are
    names of files; a key names a file by what follows its last slash, in
    whatever folder it is. *)

From S2P Require Import Prelude Text Effects Externals Fs Schema Auth Account Storage Files Tree Tenancy Quota Http Paths Webdav.

Module S3.
Import Files Tree Tenancy Http Paths.

Record ListQuery := { prefix : option rstr; max_keys : option Z; continuation_token : option rstr }.

(** LIKE of PostgreSQL: a percent sign for any text, an underscore for any
    character, a backslash before a character that stands for itself. *)
Fixpoint like (pat s : rstr) : bool :=
  match pat with
  | [] => negb (nonempty s)
  | c :: pat' =>
      if c =? chr "%" then
        (fix any (s : rstr) : bool :=
           like pat' s || match s with _ :: s' => any s' | [] => false end) s
      else if c =? chr "_" then match s with _ :: s' => like pat' s' | [] => false end
      else if c =? chr "\" then
        match pat' with
        | d :: pat'' => match s with x :: s' => (x =? d) && like pat'' s' | [] => false end
        | [] => false
        end
      else match s with x :: s' => (x =? c) && like pat' s' | [] => false end
  end.

Section S3.
Context {O : Oracle} {S2 : Sha256} {HX : Hex} {UT : UuidText} {MG : MimeGuess} {CO : Collation}
  {HV : HttpValues} {PG : PgDates}.
Context (base : Fs.path).

Definition xml_header : rstr :=
  lit "<?xml version=" ++ quoted (lit "1.0") ++ lit " encoding=" ++ quoted (lit "UTF-8") ++ lit "?>" ++ NL.

Definition xmlns : rstr := quoted (lit "http://s3.amazonaws.com/doc/2006-03-01/").

Definition list_buckets (user_id : Z) : M Server Response :=
  build 200 [(lit "content-type", lit "application/xml")] (as_bytes (xml_header
    ++ lit "<ListAllMyBucketsResult xmlns=" ++ xmlns ++ lit ">" ++ NL
    ++ lit "  <Owner><ID>" ++ uuid_to_string user_id ++ lit "</ID><DisplayName>pcos-user</DisplayName></Owner>" ++ NL
    ++ lit "  <Buckets>" ++ NL
    ++ lit "    <Bucket><Name>pcos-files</Name><CreationDate>2026-01-01T00:00:00.000Z</CreationDate></Bucket>" ++ NL
    ++ lit "  </Buckets>" ++ NL ++ lit "</ListAllMyBucketsResult>")).

(** ORDER BY name *)
Definition by_name (a b : FileEntry.row) : bool := text_le (FileEntry.name a) (FileEntry.name b).

(** The rows of the listing: LIMIT refuses a negative number. *)
Definition matching (user_id : Z) (pattern : rstr) (f : FileEntry.row) : bool :=
  owned_by user_id f && negb (FileEntry.is_trashed f) && like pattern (FileEntry.name f).

Definition list_rows (user_id : Z) (pattern : rstr) (max : Z) : M Server (list FileEntry.row) :=
  map_err (to_internal "") (statement (fun _ s =>
    if max <? 0 then Fails (DbOther (lit "LIMIT must not be negative"))
    else Rows (take (Z.to_nat max) (sort_by by_name (select (matching user_id pattern) (file_entries s)))) s)).

Definition list_entry (f : FileEntry.row) : rstr :=
  if is_folder f then NL ++ lit "  <CommonPrefixes><Prefix>" ++ FileEntry.name f ++ lit "/</Prefix></CommonPrefixes>"
  else NL ++ lit "  <Contents><Key>" ++ FileEntry.name f ++ lit "</Key><Size>" ++ show_int (FileEntry.size_bytes f)
    ++ lit "</Size><LastModified>" ++ iso_date (FileEntry.updated_at f) ++ lit "</LastModified><ETag>&quot;"
    ++ default (lit "0000000000000000") (FileEntry.sha256_hash f)
    ++ lit "&quot;</ETag><StorageClass>STANDARD</StorageClass></Contents>".

Definition list_xml (prefix : rstr) (max : Z) (rows : list FileEntry.row) : rstr :=
  xml_header ++ lit "<ListBucketResult xmlns=" ++ xmlns ++ lit ">" ++ NL ++ lit "  <Name>pcos-files</Name>" ++ NL
  ++ lit "  <Prefix>" ++ prefix ++ lit "</Prefix>" ++ NL ++ lit "  <MaxKeys>" ++ show_int max ++ lit "</MaxKeys>" ++ NL
  ++ lit "  <IsTruncated>false</IsTruncated>" ++ flat_map list_entry rows ++ NL ++ lit "</ListBucketResult>".

Definition list_objects (user_id : Z) (params : ListQuery) : M Server Response :=
  let pre := default [] (prefix params) in
  let max := default 1000 (max_keys params) in
  rows ← list_rows user_id (pre ++ lit "%") max;
  build 200 [(lit "content-type", lit "application/xml")] (as_bytes (list_xml pre max rows)).

(** The file a key names: the first live file of the user with that name. *)
Definition object_named (user_id : Z) (filename : rstr) (f : FileEntry.row) : bool :=
  owned_by user_id f && bool_decide (FileEntry.name f = filename) && negb (FileEntry.is_trashed f)
  && Account.is_file f.

Definition find_object (user_id : Z) (filename : rstr) : M Server (option FileEntry.row) :=
  map_err (to_internal "") (query (fun s => find_row (object_named user_id filename) (file_entries s))).

Definition get_object (user_id : Z) (hs : HeaderMap) (key : rstr) : M Server Response :=
  entry ← find_object user_id (last_piece key);
  match entry with
  | None => not_found
  | Some f =>
      match FileEntry.storage_path f with
      | None => not_found
      | Some p =>
          data ← map_err (to_internal "Failed to read file: ")
                   (Storage.fs_read (fun d => Fs.read d (Webdav.joined base p)));
          serve (h_range hs) (default Webdav.OCTETS (FileEntry.mime_type f)) (FileEntry.size_bytes f)
            (http_date (FileEntry.updated_at f)) (quoted (default [] (FileEntry.sha256_hash f))) data
      end
  end.

Definition head_object (user_id : Z) (key : rstr) : M Server Response :=
  entry ← find_object user_id (last_piece key);
  match entry with
  | Some f =>
      build 200
        [(lit "content-length", show_int (FileEntry.size_bytes f));
         (lit "content-type", default Webdav.OCTETS (FileEntry.mime_type f));
         (lit "last-modified", http_date (FileEntry.updated_at f));
         (lit "etag", quoted (default [] (FileEntry.sha256_hash f))); (lit "accept-ranges", lit "bytes")] []
  | None => not_found
  end.

(** create_dir_all, File::create, write_all: no flush. *)
Definition write_object (full_path : Fs.path) (data : bytes) : M Server unit :=
  _ ← map_err (to_internal "") (Storage.fs_op (fun f => Fs.create_dir_all f (Fs.parent full_path)));
  _ ← map_err (to_internal "") (Storage.fs_op (fun f => Fs.write f full_path []));
  map_err (to_internal "") (Storage.fs_op (fun f => Fs.write f full_path data)).

Definition put_object (user_id : Z) (hs : HeaderMap) (key : rstr) (body : rstr + bytes) : M Server Response :=
  let filename := last_piece (trim_slashes key) in
  data ← read_body body;
  let hash := Storage.digest data in
  let size := Z.of_nat (length data) in
  let mime := Webdav.guess_mime hs filename in
  existing ← find_object user_id filename;
  _ ← match existing with
      | Some e =>
          let rel := default (Storage.relative_path user_id (FileEntry.id e)) (FileEntry.storage_path e) in
          _ ← write_object (Webdav.joined base rel) data;
          map_err (to_internal "") (execute schema_ok (fun now s =>
            (tt, update_files (Webdav.item_of (FileEntry.id e) user_id)
                   (Webdav.overwritten size hash rel mime now) s)))
      | None =>
          i ← new_v4;
          let rel := Storage.relative_path user_id i in
          _ ← write_object (Webdav.joined base rel) data;
          map_err (to_internal "") (execute schema_ok (fun now s =>
            (tt, insert_file (Webdav.new_file i user_id None filename mime size (Some hash) rel now) s)))
      end;
  build 200 [(lit "etag", quoted hash)] [].

(** Every live row of the name is trashed. *)
Definition delete_object (user_id : Z) (key : rstr) : M Server Response :=
  let filename := last_piece key in
  _ ← map_err (to_internal "") (execute schema_ok (fun now s =>
        (tt, update_files (fun f => owned_by user_id f && bool_decide (FileEntry.name f = filename)
                                    && negb (FileEntry.is_trashed f))
               (fun f => FileEntry.set_updated_at now (FileEntry.set_is_trashed true f)) s)));
  mret (plain_status 204).

(** ** Prefixes *)

(** A text without the characters LIKE interprets. *)
Definition literal (s : rstr) : Prop := Forall (fun c => c <> chr "%" /\ c <> chr "_" /\ c <> chr "\") s.

Lemma like_all s : like (lit "%") s = true.
Proof. change (lit "%") with [chr "%"]. cbn [like]. rewrite Z.eqb_refl. induction s as [|c s IH]; [done|]. cbn. exact IH. Qed.

Lemma like_prefix pre s : literal pre -> like (pre ++ lit "%") s = starts_with pre s.
Proof.
  intros L. revert s. induction pre as [|c pre IH]; intros s; [apply like_all|].
  apply Forall_cons in L as [(N1 & N2 & N3) L]. cbn [app like starts_with].
  destruct (Z.eqb_spec c (chr "%")), (Z.eqb_spec c (chr "_")), (Z.eqb_spec c (chr "\")); try done.
  destruct s as [|x s]; [done|]. rewrite IH by done. by rewrite (Z.eqb_sym x c).
Qed.

(** a listing is the live entries by prefix.  For a prefix without the
    characters LIKE interprets, the rows of an answered listing are the live
    entries of the user, files and folders of every folder alike, whose names
    start with the prefix, in the order of their names, as many as asked. *)
Theorem list_rows_spec u pre max w rows w' :
  literal pre -> list_rows u (pre ++ lit "%") max w = (Ok rows, w') ->
  data w' = data w /\ 0 <= max
  /\ (exists rest, rows ++ rest ≡ₚ select (fun f => owned_by u f && negb (FileEntry.is_trashed f)
                                           && starts_with pre (FileEntry.name f)) (file_entries (data w))
      /\ (forall x y, x ∈ rows -> y ∈ rest -> by_name x y = true)
      /\ (rest <> [] -> Z.of_nat (length rows) = max))
  /\ sorted_by by_name rows /\ Z.of_nat (length rows) <= max.
Proof.
  intros L H. unfold list_rows in H. apply map_err_Ok, statement_Ok in H as (_ & H).
  destruct (max <? 0) eqn:M; [by destruct H|]. destruct H as [H P]. injection H as <- D.
  split; [by rewrite <- D|]. split; [lia|].
  set (all := sort_by by_name _).
  assert (Q : all ≡ₚ select (fun f => owned_by u f && negb (FileEntry.is_trashed f)
    && starts_with pre (FileEntry.name f)) (file_entries (data w))).
  { unfold all. rewrite (sort_by_perm by_name). unfold select.
    rewrite (List.filter_ext (matching u (pre ++ lit "%")) (fun f => owned_by u f && negb (FileEntry.is_trashed f)
      && starts_with pre (FileEntry.name f))); [done|]. intros f. unfold matching. by rewrite like_prefix. }
  assert (S : sorted_by by_name (take (Z.to_nat max) all ++ drop (Z.to_nat max) all)).
  { rewrite take_drop. apply sort_by_sorted; unfold by_name; intros; [by apply text_le_total|by eapply text_le_trans]. }
  apply sorted_app in S as (S1 & _ & S12). split; [|split; [exact S1|rewrite length_take; lia]].
  exists (drop (Z.to_nat max) all). rewrite take_drop. split; [exact Q|]. split; [exact S12|].
  intros N. rewrite length_take. destruct (decide (length all <= Z.to_nat max)%nat) as [|]; [|lia].
  destruct N. by apply drop_ge.
Qed.

(** ** What was put is what is got *)

Lemma find_row_update {A} (p q : A -> bool) f (t : list A) :
  (forall x, q (f x) = q x) -> find_row q (update p f t) = option_map (fun x => if p x then f x else x) (find_row q t).
Proof.
  intros H. induction t as [|x t IH]; [done|]. unfold update, find_row in *. cbn [map List.find].
  replace (q (if p x then f x else x)) with (q x) by (destruct (p x); by rewrite ?H).
  destruct (q x); [done|exact IH].
Qed.

Lemma find_row_insert {A} (q : A -> bool) (t : list A) r :
  find_row q t = None -> q r = true -> find_row q (insert_row r t) = Some r.
Proof.
  intros N Q. unfold insert_row. induction t as [|x t IH]; cbn in *; [by rewrite Q|]. destruct (q x); [done|by apply IH].
Qed.

Lemma write_object_tables p b : preserves tables_same (write_object p b).
Proof. unfold write_object. repeat first [apply fs_op_tables | progress preserve]. Qed.

Lemma write_object_read d c b w w' :
  Fs.plain c -> write_object (d ++ [c]) b w = (Ok tt, w') -> Fs.read (disk (data w')) (d ++ [c]) = Some b.
Proof.
  intros P H. unfold write_object in H.
  apply bind_Ok in H as ([] & w1 & _ & H). apply bind_Ok in H as ([] & w2 & _ & H).
  apply map_err_Ok, Storage.fs_op_Ok in H as (f & E & D). rewrite D. cbn. by eapply Fs.write_read.
Qed.

Lemma find_object_Ok u n w f w' :
  find_object u n w = (Ok f, w') -> f = find_row (object_named u n) (file_entries (data w)) /\ data w' = data w.
Proof. unfold find_object. intros H. by run_ok H. Qed.

Lemma find_object_run u n w :
  reliable O -> find_object u n w
    = (Ok (find_row (object_named u n) (file_entries (data w))), mkWorld (data w) (Datatypes.S (pos w))).
Proof. intros R. unfold find_object, map_err, query, statement. by rewrite (proj1 (R _)). Qed.

(** What an answered PUT wrote. *)
Lemma put_object_Ok u hs key body w r w' :
  put_object u hs key body w = (Ok r, w') ->
  let n := last_piece (trim_slashes key) in
  exists b rel row, body = inr b /\ FileEntry.storage_path row = Some rel
    /\ FileEntry.mime_type row = Webdav.guess_mime hs n /\ FileEntry.sha256_hash row = Some (Storage.digest b)
    /\ FileEntry.size_bytes row = Z.of_nat (length b)
    /\ find_row (object_named u n) (file_entries (data w')) = Some row
    /\ match find_row (object_named u n) (file_entries (data w)) with
       | Some e => FileEntry.id row = FileEntry.id e /\ FileEntry.parent_id row = FileEntry.parent_id e
                   /\ rel = default (Storage.relative_path u (FileEntry.id e)) (FileEntry.storage_path e)
       | None => FileEntry.parent_id row = None /\ exists i, rel = Storage.relative_path u i
       end
    /\ exists wa wb, write_object (Webdav.joined base rel) b wa = (Ok tt, wb) /\ disk (data w') = disk (data wb).
Proof.
  intros H n. unfold put_object in H. cbv zeta in H. fold n in H.
  apply bind_Ok in H as (b & w1 & E & H).
  assert (body = inr b /\ w1 = w) as [-> ->].
  { unfold read_body in E. destruct body as [e|b']; [by run_ok E|]. by run_ok E. }
  clear E. apply bind_Ok in H as (e & w2 & E & H). apply find_object_Ok in E as [-> D2].
  apply bind_Ok in H as ([] & w3 & E & H). apply Http.build_Ok in H as [_ ->].
  destruct (find_row (object_named u n) (file_entries (data w))) as [e|] eqn:F.
  - apply find_row_Some in F as F'. destruct F' as [He Ne].
    apply bind_Ok in E as ([] & w4 & W & E). assert (D4 := W). apply write_object_tables, Webdav.tables_same_files in D4 as [D4 _].
    apply map_err_Ok, execute_Ok in E as (_ & E & _). injection E as E.
    set (g := Webdav.overwritten _ _ _ _ _) in E. exists b, (default (Storage.relative_path u (FileEntry.id e)) (FileEntry.storage_path e)), (g e).
    do 5 (split; [done|]). split; [|split; [done|]].
    + rewrite <- E. unfold update_files. cbn [file_entries set_file_entries]. rewrite find_row_update by done.
      rewrite D4, D2, F. cbn. unfold Webdav.item_of, has_id. rewrite Z.eqb_refl. cbn [andb].
      unfold object_named in Ne. apply andb_true_iff in Ne as [Ne _]. apply andb_true_iff in Ne as [Ne _].
      apply andb_true_iff in Ne as [-> _]. done.
    + exists w2, w4. split; [exact W|]. by rewrite <- E.
  - apply bind_Ok in E as (i & w4 & Ei & E). apply interact_Ok in Ei as [-> ->].
    apply bind_Ok in E as ([] & w5 & W & E). assert (D5 := W). apply write_object_tables, Webdav.tables_same_files in D5 as [D5 _].
    apply map_err_Ok, execute_Ok in E as (_ & E & _). injection E as E. cbn [data] in D5.
    set (row := Webdav.new_file _ _ _ _ _ _ _ _ _) in E.
    exists b, (Storage.relative_path u (uuid_at (pos w2))), row. do 5 (split; [done|]). split; [|split; [by eauto|]].
    + rewrite <- E. unfold insert_file. cbn [file_entries set_file_entries]. apply find_row_insert; [by rewrite D5, D2|].
      unfold object_named, row, owned_by. cbn. rewrite Z.eqb_refl, bool_decide_eq_true_2 by done. done.
    + eexists _, w5. split; [exact W|]. by rewrite <- E.
Qed.

(** an object that was put is got.  With the database and the disk
    answering, a PUT of a key that does not end in a slash is followed by a GET
    of the same key that answers 200 with the body that was put, wherever the
    object is. *)
Theorem put_get_object u hs hs' key b w r w' :
  reliable O -> last_piece (trim_slashes key) = last_piece key ->
  (forall m, h_content_type hs = Some m -> header_ok m = true) -> h_range hs' = None ->
  (forall e, find_row (object_named u (last_piece key)) (file_entries (data w)) = Some e -> Webdav.named base e) ->
  put_object u hs key (inr b) w = (Ok r, w') ->
  exists a w'', get_object u hs' key w' = (Ok a, w'') /\ status a = 200 /\ body a = b.
Proof.
  intros R T C Rg Old H.
  apply put_object_Ok in H as (b' & rel & row & [= <-] & Sp & Mi & Hh & _ & F & M & wa & wb & W & D). rewrite T in *.
  assert (exists d c, Webdav.joined base rel = d ++ [c] /\ Fs.plain c) as (d & c & J & P).
  { assert (U : forall i, exists d c, Webdav.joined base (Storage.relative_path u i) = d ++ [c] /\ Fs.plain c).
    { intros i. rewrite Webdav.joined_relative. do 2 eexists. split; [reflexivity|apply Storage.uuid_plain]. }
    destruct (find_row _ (file_entries (data w))) as [e|].
    - destruct M as (_ & _ & Er). specialize (Old e eq_refl).
      destruct (FileEntry.storage_path e) as [p|] eqn:Q; cbn [from_option] in Er; subst rel; [by apply Old|apply U].
    - destruct M as (_ & i & ->). apply U. }
  rewrite J in W. apply write_object_read in W; [|done]. rewrite <- J, <- D in W.
  assert (Hm : header_ok (default Webdav.OCTETS (FileEntry.mime_type row)) = true).
  { rewrite Mi. unfold Webdav.guess_mime. destruct (h_content_type hs) as [m|]; [by apply C|].
    destruct (mime_first_raw _) as [m|] eqn:Em; cbn; apply header_ok_visible; [by eapply mime_first_visible|].
    apply visible_iff. vm_compute. reflexivity. }
  assert (Vh : visible (quoted (default [] (FileEntry.sha256_hash row)))).
  { rewrite Hh. apply visible_quoted. eapply Forall_impl; [apply hex_encode_chars, sha256_bytes|].
    intros x [X _]. unfold uuid_char, is_ascii_digit in X. change (chr "-") with 45 in X. lia. }
  destruct (Webdav.serve_whole (default Webdav.OCTETS (FileEntry.mime_type row)) (FileEntry.size_bytes row)
    (http_date (FileEntry.updated_at row)) (quoted (default [] (FileEntry.sha256_hash row))) b
    (mkWorld (data w') (Datatypes.S (Datatypes.S (pos w')))) Hm
    (http_date_visible _) Vh) as (a & Ea & Sa & Ba).
  exists a. eexists. split; [|split; [exact Sa|exact Ba]].
  eapply bind_run; [by apply find_object_run|]. rewrite F, Sp. eapply bind_run; [|by rewrite Rg].
  unfold map_err. rewrite (Storage.fs_read_ok (fun f => Fs.read f (Webdav.joined base rel)) _ b R); [reflexivity|exact W].
Qed.

(** ** Isolation *)

Inductive op :=
  | ListBuckets | ListObjects (q : ListQuery) | GetObject (hs : HeaderMap) (key : rstr) | HeadObject (key : rstr)
  | PutObject (hs : HeaderMap) (key : rstr) (body : rstr + bytes) | DeleteObject (key : rstr).

Definition run_op (user_id : Z) (o : op) : M Server Response :=
  match o with
  | ListBuckets => list_buckets user_id
  | ListObjects q => list_objects user_id q
  | GetObject hs key => get_object user_id hs key
  | HeadObject key => head_object user_id key
  | PutObject hs key body => put_object user_id hs key body
  | DeleteObject key => delete_object user_id key
  end.

(** objects are the user's.  Whatever the request and whatever fails, the
    invariant of the file tables holds after it and the files, the versions
    and the links of every other user are as they were. *)
Theorem objects_isolated u o w r w' :
  run_op u o w = (r, w') -> tidy (data w) -> tidy (data w') /\ others_kept u (data w) (data w').
Proof.
  assert (G : under (fun _ => True) u (run_op u o)); [|intros H; exact (G w r w' I H)].
  assert (Find : forall n, preserves tables_same (find_object u n)) by (intros n; unfold find_object; preserve).
  destruct o as [|q|hs key|key|hs key body|key]; cbn [run_op].
  - apply under_same. unfold list_buckets, build. preserve.
  - apply under_same. unfold list_objects, list_rows, build. preserve.
    apply preserves_statement; [apply _|]. intros now s a s' E. destruct (_ <? 0); [done|]. by injection E as _ <-.
  - apply under_same. unfold get_object, not_found, serve, build.
    repeat first [apply Find | apply fs_read_tables | progress preserve].
  - apply under_same. unfold head_object, not_found, build. repeat first [apply Find | progress preserve].
  - unfold put_object. cbv zeta. apply under_frame; [unfold read_body; preserve|]. intros b.
    apply under_frame; [apply Find|]. intros e. apply under_last; [|intros; unfold build; preserve].
    destruct e as [e|].
    + apply under_frame; [apply write_object_tables|]. intros _. apply under_map_err, Webdav.under_item. by intros now f.
    + apply under_frame; [preserve|]. intros i. apply under_frame; [apply write_object_tables|]. intros _.
      apply under_map_err, Webdav.under_insert. intros t now _. split; [done|]. by intros p.
  - unfold delete_object. cbv zeta. apply under_last; [|intros; preserve].
    apply under_map_err, under_execute. intros now s _ [_ T] S'. cbn [snd] in *. split; [by apply update_owned|].
    apply update_kept; [|done]. intros f _ E. unfold owned_by in E. lia.
Qed.
End S3.

(** ** Concrete runs *)

Definition demo_op (o : op) (w : World Server) :=
  run_op (O := toy_env []) (S2 := toy_sha256) (HX := plain_hex) (UT := plain_uuid) (MG := octet_stream)
    (CO := c_collation) (HV := any_header) (PG := epoch_dates) Storage.demo_base 2 o w.

Definition demo_put (key : string) (b : bytes) : op := PutObject (Webdav.demo_headers None) (lit key) (inr b).
Definition demo_get (key : string) (w : World Server) : option (Z * bytes) :=
  match fst (demo_op (GetObject (Webdav.demo_headers None) (lit key)) w) with
  | Ok a => Some (status a, body a)
  | _ => None
  end.

Definition demo_rows (prefix : string) (w : World Server) : option (list rstr) :=
  match fst (list_rows (O := toy_env []) (CO := c_collation) 2 (lit prefix ++ lit "%") 1000 w) with
  | Ok rows => Some (map FileEntry.name rows)
  | _ => None
  end.

(** keys are not paths.  A key names a file by its last segment alone: a PUT
    of one folder replaces the object of another.  A key that ends in a slash
    is put but cannot be got.  A prefix is a pattern: an underscore in it
    matches any character. *)
Theorem keys_are_names :
  (let w := snd (demo_op (demo_put "b/report" [9]) (snd (demo_op (demo_put "a/report" [1; 2]) Webdav.demo_dav))) in
   demo_get "a/report" w = Some (200, [9]))
  /\ demo_get "dir/" (snd (demo_op (demo_put "dir/" [5]) Webdav.demo_dav)) = Some (404, [])
  /\ demo_rows "n_te" Webdav.demo_dav = Some [lit "note"].
Proof. split_and!; vm_compute; reflexivity. Qed.

Abbreviation demo_stored := (put_object (O := toy_env []) (S2 := toy_sha256) (HX := plain_hex) (UT := plain_uuid)
  (MG := octet_stream) (HV := any_header) Storage.demo_base 2
  (Webdav.demo_headers None) (lit "a/report") (inr [1; 2]) Webdav.demo_dav).

Lemma demo_stored_run : exists r, demo_stored = (Ok r, snd demo_stored).
Proof.
  assert (E : match fst demo_stored with Ok _ => true | _ => false end = true) by (vm_compute; reflexivity).
  destruct demo_stored as [[a|e| |] w']; [|discriminate E..]. exists a. reflexivity.
Qed.

Lemma demo_key : last_piece (trim_slashes (lit "a/report")) = last_piece (lit "a/report").
Proof. vm_compute. reflexivity. Qed.

Lemma demo_new : find_row (object_named 2 (last_piece (lit "a/report"))) (file_entries (data Webdav.demo_dav)) = None.
Proof. vm_compute. reflexivity. Qed.

Lemma put_get_object_witness : exists a w'',
  get_object (O := toy_env []) (HV := any_header) (PG := epoch_dates) Storage.demo_base 2
    (Webdav.demo_headers None) (lit "a/report") (snd demo_stored) = (Ok a, w'') /\ status a = 200 /\ body a = [1; 2].
Proof.
  destruct demo_stored_run as (r & E).
  refine (put_get_object (O := toy_env []) (S2 := toy_sha256) (HX := plain_hex) (UT := plain_uuid)
    (MG := octet_stream) (HV := any_header) (PG := epoch_dates) Storage.demo_base 2
    (Webdav.demo_headers None) (Webdav.demo_headers None) (lit "a/report") [1; 2] Webdav.demo_dav r (snd demo_stored)
    toy_env_reliable demo_key _ eq_refl _ E).
  - intros m H. discriminate H.
  - intros e H. rewrite demo_new in H. discriminate H.
Defined.

Lemma objects_isolated_witness : tidy (data (snd (demo_op (demo_put "a/report" [1; 2]) Webdav.demo_dav))).
Proof.
  exact (proj1 (objects_isolated (O := toy_env []) (S2 := toy_sha256) (HX := plain_hex) (UT := plain_uuid)
    (MG := octet_stream) (CO := c_collation) (HV := any_header) (PG := epoch_dates) Storage.demo_base 2
    (demo_put "a/report" [1; 2]) Webdav.demo_dav _ _ (surjective_pairing _) Webdav.demo_dav_tidy)).
Defined.

Abbreviation demo_listing := (list_rows (O := toy_env []) (CO := c_collation) 2 (lit "s" ++ lit "%") 5 Webdav.demo_dav).

Lemma demo_listing_run : exists rows, demo_listing = (Ok rows, snd demo_listing) /\ map FileEntry.name rows = [lit "sub"].
Proof.
  assert (E : match fst demo_listing with Ok rows => Some (map FileEntry.name rows) | _ => None end = Some [lit "sub"])
    by (vm_compute; reflexivity).
  destruct demo_listing as [[a|e| |] w']; [|discriminate E..]. exists a. injection E as E. split; [reflexivity|exact E].
Qed.

Lemma list_rows_witness : exists rows, sorted_by (by_name (CO := c_collation)) rows /\ map FileEntry.name rows = [lit "sub"].
Proof.
  destruct demo_listing_run as (rows & E & N). exists rows. split; [|exact N].
  refine (proj1 (proj2 (proj2 (proj2 (list_rows_spec (O := toy_env []) (CO := c_collation) 2 (lit "s") 5
    Webdav.demo_dav rows (snd demo_listing) _ E))))).
  apply Forall_singleton. split; [discriminate|]. split; discriminate.
Defined.
End S3.
