(* ===== verification/Family.v ===== *)
(** * Family: family clouds and their members

    backend/crates/user/src/family.rs: the handlers, their checks of the
    caller's role, and what the checks do and do not guarantee. *)

From S2P Require Import Prelude Text Effects Externals Fs Schema Auth.

Module Family.

(** ** Requests *)

Record CreateCloudRequest := { cloud_name : rstr; req_cloud_type : option rstr }.

Record InviteMemberRequest := {
  inv_cloud : rstr; inv_user : option Z; inv_role : option rstr; inv_quota : option Z }.

Definition in_cloud (c : rstr) (m : FamilyMember.row) : bool := bool_decide (FamilyMember.cloud_id m = c).
Definition of_user (u : Z) (m : FamilyMember.row) : bool := FamilyMember.user_id m =? u.
Definition member_id (i : rstr) (m : FamilyMember.row) : bool := bool_decide (FamilyMember.id m = i).

(** ORDER BY created_at DESC, ORDER BY joined_at ASC *)
Definition newest_cloud (a b : FamilyCloud.row) : bool := FamilyCloud.created_at b <=? FamilyCloud.created_at a.
Definition oldest_member (a b : FamilyMember.row) : bool := FamilyMember.joined_at a <=? FamilyMember.joined_at b.

(** Uuid::simple: the digits without hyphens. *)
Definition uuid_simple `{UuidText} (u : Z) : rstr := unhyphenate (uuid_to_string u).

Section Family.
Context {O : Oracle} {UT : UuidText}.

Definition create_cloud (user_id : Z) (req : CreateCloudRequest) : M Server FamilyCloud.row :=
  if negb (nonempty (trim (cloud_name req))) then throw (Validation (lit "Cloud name is required")) else
  u1 ← new_v4;
  u2 ← new_v4;
  let cloud_id := lit "cld_" ++ uuid_to_string u1 in
  let member_id := lit "fmem_" ++ uuid_to_string u2 in
  cloud ← execute schema_ok (fun now s =>
    let c := {| FamilyCloud.id := cloud_id; FamilyCloud.name := trim (cloud_name req);
                FamilyCloud.owner_id := user_id;
                FamilyCloud.cloud_type := default (lit "family") (req_cloud_type req);
                FamilyCloud.created_at := now |} in
    (c, set_family_clouds (insert_row c (family_clouds s)) s));
  _ ← execute schema_ok (fun now s =>
    (tt, set_family_members (insert_row
      {| FamilyMember.id := member_id; FamilyMember.cloud_id := cloud_id;
         FamilyMember.user_id := user_id; FamilyMember.role := lit "owner";
         FamilyMember.storage_quota_bytes := 53687091200; FamilyMember.used_bytes := 0;
         FamilyMember.invite_code := None; FamilyMember.joined_at := now |} (family_members s)) s));
  mret cloud.

Definition list_clouds (user_id : Z) : M Server (list FamilyCloud.row) :=
  query (fun s => sort_by newest_cloud
    (select (fun c => FamilyCloud.owner_id c =? user_id) (family_clouds s))).

Definition list_members (user_id : Z) (cloud : option rstr) : M Server (list FamilyMember.row) :=
  match cloud with
  | Some cloud_id =>
      is_member ← query (fun s => exists_row (fun m => in_cloud cloud_id m && of_user user_id m) (family_members s));
      if negb is_member
      then throw (Forbidden (lit "Access denied: You are not a member of this family cloud"))
      else query (fun s => sort_by oldest_member (select (in_cloud cloud_id) (family_members s)))
  | None => query (fun s => sort_by oldest_member (select (of_user user_id) (family_members s)))
  end.

(** SELECT role FROM family_members WHERE cloud_id = $1 AND user_id = $2 *)
Definition caller_role (cloud_id : rstr) (user_id : Z) : M Server (option rstr) :=
  query (fun s => option_map FamilyMember.role
    (find_row (fun m => in_cloud cloud_id m && of_user user_id m) (family_members s))).

Definition role_among (l : list string) (r : option rstr) : bool :=
  match r with Some r => one_of l r | None => false end.

Definition invite_member (user_id : Z) (req : InviteMemberRequest) : M Server FamilyMember.row :=
  caller ← caller_role (inv_cloud req) user_id;
  if negb (role_among ["owner"; "admin"]%string caller)
  then throw (Forbidden (lit "Only family cloud owners or administrators can invite members")) else
  u1 ← new_v4;
  u2 ← new_v4;
  let invite_code := lit "fam_inv_" ++ take 12 (uuid_simple u2) in
  target ← match inv_user req with Some u => mret u | None => new_v4 end;
  execute schema_ok (fun now s =>
    let m := {| FamilyMember.id := lit "fmem_" ++ uuid_to_string u1;
                FamilyMember.cloud_id := inv_cloud req; FamilyMember.user_id := target;
                FamilyMember.role := default (lit "member") (inv_role req);
                FamilyMember.storage_quota_bytes := default 21474836480 (inv_quota req);
                FamilyMember.used_bytes := 0; FamilyMember.invite_code := Some invite_code;
                FamilyMember.joined_at := now |} in
    (m, set_family_members (insert_row m (family_members s)) s)).

Definition find_member (i : rstr) : M Server FamilyMember.row :=
  row ← query (fun s => find_row (member_id i) (family_members s));
  ok_or row (NotFound (lit "Family member not found")).

Definition update_members (p : FamilyMember.row -> bool) (f : FamilyMember.row -> FamilyMember.row) (s : Server)
  : Server := set_family_members (update p f (family_members s)) s.

Definition update_member_role (user_id : Z) (i role : rstr) : M Server unit :=
  target ← find_member i;
  caller ← caller_role (FamilyMember.cloud_id target) user_id;
  if negb (role_among ["owner"]%string caller)
  then throw (Forbidden (lit "Only the family cloud owner can modify member roles"))
  else execute schema_ok (fun _ s => (tt, update_members (member_id i) (FamilyMember.set_role role) s)).

Definition update_member_quota (user_id : Z) (i : rstr) (quota : Z) : M Server unit :=
  target ← find_member i;
  caller ← caller_role (FamilyMember.cloud_id target) user_id;
  if negb (role_among ["owner"; "admin"]%string caller)
  then throw (Forbidden (lit "Only family cloud owners or administrators can modify storage quotas"))
  else execute schema_ok (fun _ s =>
         (tt, update_members (member_id i) (FamilyMember.set_storage_quota_bytes quota) s)).

Definition delete_member (user_id : Z) (i : rstr) : M Server unit :=
  target ← find_member i;
  _ ← if FamilyMember.user_id target =? user_id then mret tt
      else
        caller ← caller_role (FamilyMember.cloud_id target) user_id;
        if role_among ["owner"]%string caller
           || (role_among ["admin"]%string caller
               && negb (bool_decide (FamilyMember.role target = lit "owner")))
        then mret tt
        else throw (Forbidden (lit "Insufficient permissions to remove this family member"));
  execute schema_ok (fun _ s =>
    (tt, set_family_members (delete_rows (member_id i) (family_members s)) s)).

(** ** Who may change a cloud *)

Definition has_role (s : Server) (c : rstr) (u : Z) (r : rstr) : Prop :=
  exists m, m ∈ family_members s /\ FamilyMember.cloud_id m = c /\ FamilyMember.user_id m = u
    /\ FamilyMember.role m = r.

Definition members (c : rstr) (s : Server) : list FamilyMember.row := select (in_cloud c) (family_members s).

Inductive op :=
| CreateCloud (req : CreateCloudRequest)
| ListClouds
| ListMembers (cloud : option rstr)
| Invite (req : InviteMemberRequest)
| UpdateRole (i role : rstr)
| UpdateQuota (i : rstr) (quota : Z)
| DeleteMember (i : rstr).

Definition run_op (user_id : Z) (o : op) : M Server unit :=
  match o with
  | CreateCloud req => _ ← create_cloud user_id req; mret tt
  | ListClouds => _ ← list_clouds user_id; mret tt
  | ListMembers c => _ ← list_members user_id c; mret tt
  | Invite req => _ ← invite_member user_id req; mret tt
  | UpdateRole i r => update_member_role user_id i r
  | UpdateQuota i q => update_member_quota user_id i q
  | DeleteMember i => delete_member user_id i
  end.

(** How one operation of [u] may change the members of the existing cloud [c]. *)
Inductive allowed (u : Z) (c : rstr) (s s' : Server) : Prop :=
| allowed_same : members c s' = members c s -> allowed u c s s'
| allowed_owner : has_role s c u (lit "owner") -> allowed u c s s'
| allowed_leave : members c s' = delete_rows (of_user u) (members c s) -> allowed u c s s'
| allowed_invite m : has_role s c u (lit "admin") -> members c s' = members c s ++ [m] -> allowed u c s s'
| allowed_quota p q : has_role s c u (lit "admin") ->
    members c s' = update p (FamilyMember.set_storage_quota_bytes q) (members c s) -> allowed u c s s'
| allowed_remove i : has_role s c u (lit "admin") ->
    members c s' = delete_rows (member_id i) (members c s) ->
    (forall m, m ∈ members c s -> FamilyMember.id m = i -> FamilyMember.role m <> lit "owner") ->
    allowed u c s s'.

Lemma one_of_iff l r : one_of l r = true <-> exists x, x ∈ l /\ r = lit x.
Proof.
  unfold one_of. rewrite existsb_exists. setoid_rewrite bool_decide_eq_true.
  by setoid_rewrite list_elem_of_In.
Qed.

Lemma caller_role_Ok c u w r w' :
  caller_role c u w = (Ok r, w') ->
  data w' = data w
  /\ forall l, role_among l r = true -> exists x, x ∈ l /\ has_role (data w) c u (lit x).
Proof.
  unfold caller_role. intros H. run_ok H. split; [done|]. intros l Hr.
  destruct (find_row _ _) as [m|] eqn:F; [|done]. simpl in Hr.
  apply one_of_iff in Hr as (x & Hx & E). apply find_row_Some in F as [Hm F].
  unfold in_cloud, of_user in F. boolify. exists x. split; [done|]. exists m. by split_and!.
Qed.

Lemma caller_role_keeps c u : preserves eq (caller_role c u).
Proof. unfold caller_role. preserve. Qed.

Lemma find_member_Ok i w m w' :
  find_member i w = (Ok m, w') ->
  data w' = data w /\ m ∈ family_members (data w) /\ FamilyMember.id m = i.
Proof.
  unfold find_member. intros H. run_ok H. apply find_row_Some in H as [Hm E].
  by apply bool_decide_eq_true in E.
Qed.

Lemma find_member_keeps i : preserves eq (find_member i).
Proof. unfold find_member. preserve. Qed.

Lemma in_members c s m : m ∈ members c s <-> m ∈ family_members s /\ FamilyMember.cloud_id m = c.
Proof. unfold members. rewrite elem_select. unfold in_cloud. by rewrite bool_decide_eq_true. Qed.

(** A write to the rows with the identifier of [m] touches the cloud of [m]. *)
Lemma only_member s m x :
  schema_ok s = true -> m ∈ family_members s -> x ∈ family_members s ->
  member_id (FamilyMember.id m) x = true -> x = m.
Proof.
  intros S Hm Hx E. apply bool_decide_eq_true in E. destruct (key_member _ S) as [U _].
  by apply (unique_key_inj _ _ _ _ U).
Qed.

Lemma members_update c m f s :
  schema_ok s = true -> m ∈ family_members s -> FamilyMember.cloud_id m <> c ->
  (forall x, FamilyMember.cloud_id (f x) = FamilyMember.cloud_id x) ->
  members c (update_members (member_id (FamilyMember.id m)) f s) = members c s.
Proof.
  intros S Hm N K. unfold members, update_members. cbn [family_members set_family_members].
  apply select_update_disjoint. intros x Hx E. rewrite (only_member s m x S Hm Hx E).
  unfold in_cloud. rewrite K. split; by apply bool_decide_eq_false.
Qed.

Lemma members_update_in c p f s :
  (forall x, FamilyMember.cloud_id (f x) = FamilyMember.cloud_id x) ->
  members c (update_members p f s) = update p f (members c s).
Proof.
  intros K. unfold members, update_members. cbn [family_members set_family_members].
  unfold select, update. induction (family_members s) as [|x t IH]; simpl; [done|].
  assert (E : in_cloud c (if p x then f x else x) = in_cloud c x).
  { unfold in_cloud. by destruct (p x); rewrite ?K. }
  rewrite E. destruct (in_cloud c x); simpl; by rewrite IH.
Qed.

Lemma members_delete c p s :
  members c (set_family_members (delete_rows p (family_members s)) s) = delete_rows p (members c s).
Proof.
  unfold members, select, delete_rows. cbn [family_members set_family_members].
  induction (family_members s) as [|x t IH]; simpl; [done|].
  destruct (p x) eqn:P, (in_cloud c x) eqn:C; simpl; rewrite ?P, ?C; simpl; by rewrite IH.
Qed.

Lemma members_insert c m s :
  members c (set_family_members (insert_row m (family_members s)) s)
  = members c s ++ (if in_cloud c m then [m] else []).
Proof. unfold members. cbn [family_members set_family_members]. apply select_insert. Qed.

(** A handler that looked up its member and the caller's role, and then runs
    [k]: it changes nothing unless it got there. *)
Lemma checked_member {A} i u (k : FamilyMember.row -> option rstr -> M Server A) w o w' :
  (target ← find_member i; caller ← caller_role (FamilyMember.cloud_id target) u; k target caller) w = (o, w') ->
  data w' = data w
  \/ exists m r w1, m ∈ family_members (data w) /\ FamilyMember.id m = i /\ data w1 = data w
      /\ (forall l, role_among l r = true ->
            exists x, x ∈ l /\ has_role (data w) (FamilyMember.cloud_id m) u (lit x))
      /\ k m r w1 = (o, w').
Proof.
  intros H. apply bind_inv in H as [(m & w1 & E & H)|(o' & E)];
    [|left; symmetry; by apply find_member_keeps in E].
  apply find_member_Ok in E as (D & Hm & Ei).
  apply bind_inv in H as [(r & w2 & E & H)|(o' & E)];
    [|left; apply caller_role_keeps in E; congruence].
  apply caller_role_Ok in E as (D2 & F). rewrite D in *. right. exists m, r, w2. by split_and!.
Qed.

Lemma owner_or_admin s c u x :
  x ∈ ["owner"; "admin"]%string -> has_role s c u (lit x) ->
  has_role s c u (lit "owner") \/ has_role s c u (lit "admin").
Proof. intros Hx H. apply list_elem_of_In in Hx as [<-|[<-|[]]]; auto. Qed.

Lemma create_allowed u req w o w' c :
  c ∈ map FamilyCloud.id (family_clouds (data w)) -> create_cloud u req w = (o, w') ->
  allowed u c (data w) (data w').
Proof.
  intros Hc H. apply allowed_same. unfold create_cloud in H.
  destruct (negb _); [by injection H as _ <-|].
  rewrite !bind_new_v4 in H. cbn [data pos] in H. cbv zeta in H. apply bind_inv in H as [(cl & w3 & E3 & H)|(o' & E3)].
  2: { apply execute_inv in E3 as [E3|[E3 _]]; cbn [data] in E3; by rewrite E3. }
  apply execute_Ok in E3 as (_ & E3 & S3 & _). injection E3 as _ E3. cbn [data] in E3.
  assert (N : lit "cld_" ++ uuid_to_string (uuid_at (pos w)) <> c).
  { intros <-. rewrite <- E3 in S3. unfold schema_ok, keys_ok in S3. rewrite !andb_true_iff in S3.
    destruct_and!. match goal with H : unique_key FamilyCloud.id _ = true |- _ => rename H into K end.
    unfold unique_key in K. apply bool_decide_eq_true in K.
    cbn [family_clouds set_family_clouds] in K. unfold insert_row in K. rewrite map_app in K.
    apply NoDup_app in K as (_ & K & _). apply (K _ Hc). simpl. left. }
  assert (M3 : members c (data w3) = members c (data w)) by (rewrite <- E3; reflexivity).
  apply bind_inv in H as [([] & w4 & E4 & H)|(o' & E4)]; [injection H as _ <-|];
    (apply execute_inv in E4 as [E4|[E4 _]]; rewrite E4; [done|]; cbn [snd];
     rewrite members_insert, M3; unfold in_cloud; cbn [FamilyMember.cloud_id];
     rewrite bool_decide_false by done; apply app_nil_r).
Qed.

Lemma invite_allowed u req w o w' c : invite_member u req w = (o, w') -> allowed u c (data w) (data w').
Proof.
  unfold invite_member. intros H.
  apply bind_inv in H as [(r & w1 & E & H)|(o' & E)];
    [|apply allowed_same; apply caller_role_keeps in E; by rewrite E].
  apply caller_role_Ok in E as (D & F). rewrite <- D in *.
  destruct (role_among _ r) eqn:R; cbn [negb] in H; [|injection H as _ <-; by apply allowed_same].
  destruct (F _ R) as (x & Hx & Hr). clear F.
  rewrite !bind_new_v4 in H. cbn [data pos] in H. cbv zeta in H.
  assert (T : preserves eq (match inv_user req with Some u => mret u | None => new_v4 end : M Server Z))
    by preserve.
  apply bind_inv in H as [(t & w4 & E4 & H)|(o' & E4)]; apply T in E4; cbn [data] in E4;
    [|apply allowed_same; by rewrite E4].
  apply execute_inv in H as [H|[H _]]; [apply allowed_same; by rewrite H, E4|].
  cbn [snd] in H. rewrite <- E4 in H. pose proof (f_equal (members c) H) as HM.
  rewrite members_insert in HM. unfold in_cloud in HM. cbn [FamilyMember.cloud_id] in HM.
  case_bool_decide as Ec; [|apply allowed_same; by rewrite HM, app_nil_r].
  rewrite Ec in Hr. destruct (owner_or_admin _ _ _ _ Hx Hr); [by apply allowed_owner|by eapply allowed_invite].
Qed.

Lemma role_allowed u i r w o w' c :
  schema_ok (data w) = true -> update_member_role u i r w = (o, w') -> allowed u c (data w) (data w').
Proof.
  intros S H. unfold update_member_role in H.
  apply checked_member in H as [->|(m & caller & w1 & Hm & <- & D & F & H)]; [by apply allowed_same|].
  destruct (role_among _ caller) eqn:R; cbn [negb] in H; [|injection H as _ <-; apply allowed_same; by rewrite D].
  destruct (F _ R) as (x & Hx & Hr). apply list_elem_of_singleton in Hx as ->.
  apply execute_inv in H as [->|[-> _]]; rewrite D; [by apply allowed_same|]. cbn [snd].
  destruct (decide (FamilyMember.cloud_id m = c)) as [<-|N]; [by apply allowed_owner|].
  apply allowed_same. by apply members_update.
Qed.

Lemma quota_allowed u i q w o w' c :
  schema_ok (data w) = true -> update_member_quota u i q w = (o, w') -> allowed u c (data w) (data w').
Proof.
  intros S H. unfold update_member_quota in H.
  apply checked_member in H as [->|(m & caller & w1 & Hm & <- & D & F & H)]; [by apply allowed_same|].
  destruct (role_among _ caller) eqn:R; cbn [negb] in H; [|injection H as _ <-; apply allowed_same; by rewrite D].
  destruct (F _ R) as (x & Hx & Hr).
  apply execute_inv in H as [->|[-> _]]; rewrite D; [by apply allowed_same|]. cbn [snd].
  destruct (decide (FamilyMember.cloud_id m = c)) as [<-|N]; [|apply allowed_same; by apply members_update].
  destruct (owner_or_admin _ _ _ _ Hx Hr) as [?|A]; [by apply allowed_owner|].
  eapply allowed_quota; [exact A|]. by apply members_update_in.
Qed.

Lemma delete_allowed u i w o w' c :
  schema_ok (data w) = true -> delete_member u i w = (o, w') -> allowed u c (data w) (data w').
Proof.
  intros S H. unfold delete_member in H.
  apply bind_inv in H as [(m & w1 & E & H)|(o' & E)];
    [|apply allowed_same; apply find_member_keeps in E; by rewrite E].
  apply find_member_Ok in E as (D & Hm & <-).
  assert (W : forall w2, data w2 = data w ->
    execute schema_ok (fun _ s => (tt, set_family_members (delete_rows (member_id (FamilyMember.id m)) (family_members s)) s)) w2 = (o, w') ->
    (FamilyMember.cloud_id m = c -> forall s', members c s' = delete_rows (member_id (FamilyMember.id m)) (members c (data w)) ->
       allowed u c (data w) s') -> allowed u c (data w) (data w')).
  { intros w2 D2 X A. apply execute_inv in X as [->|[-> _]]; rewrite D2; [by apply allowed_same|]. cbn [snd].
    destruct (decide (FamilyMember.cloud_id m = c)) as [Ec|N]; [apply A; [done|apply members_delete]|].
    apply allowed_same. unfold members. cbn [family_members set_family_members].
    apply select_delete_disjoint. intros x Hx E. rewrite (only_member _ m x S Hm Hx E).
    by apply bool_decide_eq_false. }
  destruct (Z.eqb_spec (FamilyMember.user_id m) u) as [Eu|Nu].
  - apply (W w1 D H). intros Ec s' Es. apply allowed_leave. rewrite Es.
    unfold delete_rows. apply filter_ext_in. intros x Hx. apply list_elem_of_In, in_members in Hx as [Hx Ex].
    f_equal. destruct (key_member _ S) as [_ Uq]. unfold member_id, of_user.
    case_bool_decide as I; symmetry; [|apply Z.eqb_neq].
    + rewrite (only_member _ m x S Hm Hx); [by apply Z.eqb_eq|by apply bool_decide_eq_true].
    + intros Ux. apply I. by rewrite (unique_key_inj _ _ _ _ Uq Hx Hm ltac:(congruence)).
  - apply bind_inv in H as [([] & w2 & E & H)|(o' & E)].
    2: { assert (K : data w' = data w1); [|apply allowed_same; congruence].
         apply bind_inv in E as [(r & w2 & E & H)|(o2 & E)]; apply caller_role_keeps in E; [|done].
         destruct (_ || _); injection H as _ <-; done. }
    apply bind_Ok in E as (r & w3 & E & H2). apply caller_role_Ok in E as (D3 & F). rewrite D in *.
    destruct (_ || _) eqn:R in H2; [|by apply throw_Ok in H2]. apply ret_Ok in H2 as [_ <-].
    apply (W w3 D3 H). intros <- s' Es. apply orb_true_iff in R as [R|R].
    + destruct (F _ R) as (x & Hx & Hr). apply list_elem_of_singleton in Hx as ->. by apply allowed_owner.
    + apply andb_true_iff in R as [R N]. destruct (F _ R) as (x & Hx & Hr).
      apply list_elem_of_singleton in Hx as ->. eapply allowed_remove; [exact Hr|exact Es|].
      intros k Hk Ek. apply in_members in Hk as [Hk _]. boolify.
      by rewrite (only_member _ m k S Hm Hk ltac:(by apply bool_decide_eq_true)).
Qed.

(** a cloud is its members' own.  Whatever an operation by [u] is given and
    whatever fails, the members of a cloud that exists change only when [u] is
    its owner, leaves it, or is its administrator and adds one member, sets one
    quota or removes one member who is no owner. *)
Theorem family_gate u o w out w' c :
  schema_ok (data w) = true -> c ∈ map FamilyCloud.id (family_clouds (data w)) ->
  run_op u o w = (out, w') -> allowed u c (data w) (data w').
Proof.
  assert (B : forall A (m : M Server A), (_ ← m; mret tt) w = (out, w') -> exists o', m w = (o', w')).
  { intros A m H. apply bind_inv in H as [(a & w1 & E & H)|H]; [|done]. injection H as _ <-. eauto. }
  intros S Hc. destruct o; cbn [run_op]; intros H; try (apply B in H as (o' & H)).
  - by eapply create_allowed.
  - apply allowed_same. unfold list_clouds in H. apply (preserves_query eq) in H. by rewrite H.
  - apply allowed_same. assert (K : preserves eq (list_members u cloud)) by (unfold list_members; preserve).
    apply K in H. by rewrite H.
  - by eapply invite_allowed.
  - by eapply role_allowed.
  - by eapply quota_allowed.
  - by eapply delete_allowed.
Qed.

(** the members of a cloud are listed to its members: an answer for a cloud
    is all of its members, the caller among them, oldest first; an answer
    without one is the caller's memberships. *)
Theorem list_members_isolated u cloud w l w' :
  list_members u cloud w = (Ok l, w') ->
  data w' = data w
  /\ match cloud with
     | Some c => l ≡ₚ members c (data w) /\ exists m, m ∈ l /\ FamilyMember.user_id m = u
     | None => l ≡ₚ select (of_user u) (family_members (data w))
     end.
Proof.
  unfold list_members. destruct cloud as [c|]; intros H; run_ok H; (split; [done|]); [|apply sort_by_perm].
  cbn [data]. split; [apply sort_by_perm|]. apply negb_false_iff, exists_row_iff in E as (m & Hm & E).
  boolify. exists m. split; [|by apply Z.eqb_eq]. rewrite sort_by_perm. apply elem_select. done.
Qed.
End Family.

(** ** Concrete runs *)

Definition demo_member (i : string) (u : Z) (r : string) : FamilyMember.row :=
  {| FamilyMember.id := lit i; FamilyMember.cloud_id := lit "cld_1"; FamilyMember.user_id := u;
     FamilyMember.role := lit r; FamilyMember.storage_quota_bytes := 0; FamilyMember.used_bytes := 0;
     FamilyMember.invite_code := None; FamilyMember.joined_at := u |}.

Definition demo_cloud : FamilyCloud.row :=
  {| FamilyCloud.id := lit "cld_1"; FamilyCloud.name := lit "home"; FamilyCloud.owner_id := 1;
     FamilyCloud.cloud_type := lit "family"; FamilyCloud.created_at := 0 |}.

(** Ada owns the cloud, Bob administers it; Eve (3) is not in it. *)
Definition demo_family : World Server :=
  mkWorld (set_family_members [demo_member "m1" 1 "owner"; demo_member "m2" 2 "admin"]
    (set_family_clouds [demo_cloud]
      (set_users (users Auth.demo_server ++ [Auth.demo_user 3 "eve@example.com" "user" None])
         Auth.demo_server))) 0.

Definition demo_op (faults : list nat) (u : Z) (o : op) (w : World Server) :=
  run_op (O := toy_env faults) (UT := plain_uuid) u o w.

Definition roles (w : World Server) : list (Z * rstr) :=
  map (fun m => (FamilyMember.user_id m, FamilyMember.role m)) (family_members (data w)).

(** an administrator takes a cloud over in three steps: the invitation takes
    any role, so Bob invites Eve as an owner, Eve demotes Ada, and Bob, who could
    not remove the owner before, removes Ada. *)
Theorem administrator_takes_over :
  let invite := demo_op [] 2 (Invite {| inv_cloud := lit "cld_1"; inv_user := Some 3;
                                        inv_role := Some (lit "owner"); inv_quota := None |}) in
  let demote := demo_op [] 3 (UpdateRole (lit "m1") (lit "member")) in
  let remove := demo_op [] 2 (DeleteMember (lit "m1")) in
  fst (remove demo_family) = Err (Forbidden (lit "Insufficient permissions to remove this family member"))
  /\ roles (snd (remove (snd (demote (snd (invite demo_family))))))
     = [(2, lit "admin"); (3, lit "owner")].
Proof. cbv zeta. split; vm_compute; reflexivity. Qed.

(** the creation of a cloud is two statements: when the second fails, the
    answer is an error and the cloud exists without a member, and its owner is
    refused its list of members and every invitation. *)
Theorem create_cloud_not_atomic :
  let create f := demo_op f 2 (CreateCloud {| cloud_name := lit "den"; req_cloud_type := None |}) demo_family in
  let orphan := snd (create [3%nat]) in
  let cloud := hd [] (map FamilyCloud.id (rev (family_clouds (data orphan)))) in
  fst (create []) = Ok tt
  /\ fst (create [3%nat]) = Err (Database (DbOther (lit "connection closed")))
  /\ map FamilyCloud.owner_id (family_clouds (data orphan)) = [1; 2]
  /\ members cloud (data orphan) = []
  /\ fst (demo_op [] 2 (ListMembers (Some cloud)) orphan)
     = Err (Forbidden (lit "Access denied: You are not a member of this family cloud")).
Proof. cbv zeta. split_and!; vm_compute; reflexivity. Qed.

Lemma family_gate_witness :
  allowed 2 (lit "cld_1") (data demo_family) (data (snd (demo_op [] 2 (UpdateQuota (lit "m1") 5) demo_family))).
Proof.
  destruct (demo_op [] 2 (UpdateQuota (lit "m1") 5) demo_family) as [o w'] eqn:E. unfold demo_op in E.
  exact (family_gate (O := toy_env []) (UT := plain_uuid) 2 _ demo_family o w' (lit "cld_1")
    ltac:(vm_compute; reflexivity) ltac:(left) E).
Defined.

Lemma list_members_witness : exists l w',
  list_members (O := toy_env []) 2 (Some (lit "cld_1")) demo_family = (Ok l, w')
  /\ l ≡ₚ members (lit "cld_1") (data demo_family).
Proof.
  destruct (list_members (O := toy_env []) 2 (Some (lit "cld_1")) demo_family) as [[l|e| |] w'] eqn:E; [|not_ok E..].
  exists l, w'. split; [reflexivity|].
  exact (proj1 (proj2 (list_members_isolated (O := toy_env []) 2 (Some (lit "cld_1")) demo_family l w' E))).
Defined.
End Family.
