(* ===== verification/Policy.v ===== *)
(** * Policy: storage policies and placement

    backend/crates/file_metadata/src/policy.rs: the classification of files and
    the handlers of custom policies. *)

From S2P Require Import Prelude Text Effects Externals Fs Schema Auth.

Module Policy.

Inductive StorageCategory := Photos | Videos | Audio | Documents | Backups | Important | Custom (name : rstr).
Inductive StorageType := Ssd | Hdd | Usb | Nas | AnyType.

Record PlacementEvaluation := {
  category : StorageCategory; target_storage_type : StorageType; replica_count : Z;
  availability_tier : rstr; rule_name : rstr }.

Record CreatePolicyRequest := {
  pol_category : rstr; pol_patterns : rstr; pol_type : option rstr; pol_node : option rstr;
  pol_replicas : option Z; pol_tier : option rstr; pol_priority : option Z }.

Record StorageEvaluateRequest := { eval_name : option rstr; eval_mime : option rstr }.

(** An entry of the list: a built-in policy, or a row shown with its category
    as its name. *)
Record DefaultPolicy := {
  def_id : rstr; def_category : rstr; def_name : rstr; def_patterns : rstr; def_type : rstr;
  def_replicas : Z; def_tier : rstr; def_priority : Z }.
Inductive PolicyEntry := BuiltIn (p : DefaultPolicy) | UserPolicy (r : StoragePolicy.row).

Record CreatedPolicy := {
  new_id : rstr; new_user : Z; new_category : rstr; new_patterns : rstr; new_type : rstr;
  new_node : option rstr; new_replicas : Z; new_tier : rstr; new_priority : Z }.

Record EvaluationAnswer := {
  matched_category : rstr; storage_type : rstr; node_id : option rstr; node_name : rstr;
  answer_replicas : Z; answer_tier : rstr; rule_applied : rstr }.

(** s.ends_with(a) || s.ends_with(b) || ... *)
Definition ends_with_any (l : list string) (s : rstr) : bool := existsb (fun e => ends_with (lit e) s) l.

Section Policy.
Context {O : Oracle} {U : Unicode} {UT : UuidText}.

Definition evaluate_placement (file_name : rstr) (mime_type : option rstr) : PlacementEvaluation :=
  let lower_name := to_lowercase file_name in
  let lower_mime := to_lowercase (default [] mime_type) in
  if starts_with (lit "image/") lower_mime
     || ends_with_any [".jpg"; ".jpeg"; ".png"; ".webp"; ".heic"; ".raw"]%string lower_name
  then {| category := Photos; target_storage_type := Ssd; replica_count := 1;
          availability_tier := lit "local_only";
          rule_name := lit "Default Photos -> High-Speed SSD Pool Policy" |}
  else if starts_with (lit "video/") lower_mime
     || ends_with_any [".mp4"; ".mkv"; ".mov"; ".avi"; ".webm"]%string lower_name
  then {| category := Videos; target_storage_type := Hdd; replica_count := 1;
          availability_tier := lit "local_only";
          rule_name := lit "Default Videos -> Massive Capacity HDD Pool Policy" |}
  else if starts_with (lit "audio/") lower_mime
     || ends_with_any [".mp3"; ".flac"; ".wav"; ".ogg"; ".m4a"]%string lower_name
  then {| category := Audio; target_storage_type := AnyType; replica_count := 1;
          availability_tier := lit "local_only";
          rule_name := lit "Default Audio -> Music Library Policy" |}
  else if ends_with_any [".tar"; ".zip"; ".bak"; ".dump"; ".gz"]%string lower_name
  then {| category := Backups; target_storage_type := Usb; replica_count := 2;
          availability_tier := lit "always_available";
          rule_name := lit "Default System Backups & Archives Policy" |}
  else {| category := Documents; target_storage_type := Ssd; replica_count := 1;
          availability_tier := lit "any_device";
          rule_name := lit "Default Documents -> Fast SSD / NAS Policy" |}.

Definition default_policy (id category name patterns type : string) (replicas : Z) (tier : string) (priority : Z)
  : PolicyEntry :=
  BuiltIn {| def_id := lit id; def_category := lit category; def_name := lit name;
             def_patterns := lit patterns; def_type := lit type; def_replicas := replicas;
             def_tier := lit tier; def_priority := priority |}.

Definition defaults : list PolicyEntry :=
  [default_policy "pol_def_photos" "photos" "Photos & Images -> High-Speed SSD Pool"
     "image/*" "ssd" 1 "local_only" 10;
   default_policy "pol_def_videos" "videos" "Videos & High-Res Footage -> Massive HDD Pool"
     "video/*" "hdd" 1 "local_only" 10;
   default_policy "pol_def_audio" "audio" "Music & Audio -> Music Library"
     "audio/*" "any" 1 "local_only" 10;
   default_policy "pol_def_docs" "documents" "Documents & Notes -> Fast SSD / NAS"
     "application/pdf,text/*" "ssd" 1 "any_device" 10;
   default_policy "pol_def_backups" "backups" "System Backups & Archives -> Backup Disk"
     "application/zip,application/x-tar" "usb" 2 "always_available" 15].

Definition by_user (u : Z) (p : StoragePolicy.row) : bool := StoragePolicy.user_id p =? u.

(** ORDER BY priority DESC *)
Definition priority_order (a b : StoragePolicy.row) : bool := StoragePolicy.priority b <=? StoragePolicy.priority a.

Definition list_policies (user_id : Z) : M Server (list PolicyEntry) :=
  custom ← unwrap_or (query (fun s =>
    sort_by priority_order (select (by_user user_id) (storage_policies s)))) [];
  mret (defaults ++ map UserPolicy custom).

Definition create_policy (user_id : Z) (req : CreatePolicyRequest) : M Server CreatedPolicy :=
  if negb (nonempty (trim (pol_category req))) || negb (nonempty (trim (pol_patterns req)))
  then throw (Validation (lit "category and mime_patterns required")) else
  u ← new_v4;
  let policy_id := lit "pol_" ++ uuid_to_string u in
  let target_type := default (lit "any") (pol_type req) in
  let replicas := default 1 (pol_replicas req) in
  let tier := default (lit "local_only") (pol_tier req) in
  let priority := default 10 (pol_priority req) in
  _ ← execute schema_ok (fun now s =>
    (tt, set_storage_policies (insert_row
      {| StoragePolicy.id := policy_id; StoragePolicy.user_id := user_id;
         StoragePolicy.category := pol_category req; StoragePolicy.mime_patterns := pol_patterns req;
         StoragePolicy.target_storage_type := target_type; StoragePolicy.target_node_id := pol_node req;
         StoragePolicy.replica_count := replicas; StoragePolicy.availability_tier := tier;
         StoragePolicy.priority := priority; StoragePolicy.created_at := now;
         StoragePolicy.updated_at := now |} (storage_policies s)) s));
  mret {| new_id := policy_id; new_user := user_id; new_category := pol_category req;
          new_patterns := pol_patterns req; new_type := target_type; new_node := pol_node req;
          new_replicas := replicas; new_tier := tier; new_priority := priority |}.

Definition delete_policy (user_id : Z) (policy_id : rstr) : M Server unit :=
  execute schema_ok (fun _ s =>
    (tt, set_storage_policies (delete_rows (fun p => bool_decide (StoragePolicy.id p = policy_id)
                                                      && by_user user_id p) (storage_policies s)) s)).

(** The names the answer uses; the last case stands for every other pair. *)
Definition answer_names (c : StorageCategory) (t : StorageType) : string * string :=
  match c, t with
  | Photos, Ssd => ("photos", "ssd")
  | Videos, Hdd => ("videos", "hdd")
  | Audio, _ => ("audio", "any")
  | Backups, Usb => ("backups", "usb")
  | _, _ => ("documents", "ssd")
  end%string.

(** SELECT ... FROM storage_nodes: no migration creates the table, so the
    statement fails. *)
Definition online_node (user_id : Z) : M Server (option (rstr * rstr)) :=
  statement (fun _ _ => Fails (DbOther (lit "relation storage_nodes does not exist"))).

Definition evaluate_storage (user_id : Z) (req : StorageEvaluateRequest) : M Server EvaluationAnswer :=
  let name := default [] (eval_name req) in
  let eval := evaluate_placement name (eval_mime req) in
  let '(cat_str, type_str) := answer_names (category eval) (target_storage_type eval) in
  node_row ← unwrap_or (online_node user_id) None;
  let '(rec_id, rec_name) :=
    match node_row with
    | Some (id, n) => (Some id, n)
    | None => (None, to_uppercase (lit type_str) ++ lit " Pool")
    end in
  mret {| matched_category := lit cat_str; storage_type := lit type_str; node_id := rec_id;
          node_name := rec_name; answer_replicas := replica_count eval;
          answer_tier := availability_tier eval; rule_applied := rule_name eval |}.

(** ** The rules as a table *)

(** A rule: a MIME prefix, if any, the suffixes, and the placement. *)
Record Rule := { mime_prefix : option string; suffixes : list string; placement : PlacementEvaluation }.

Definition rule_matches (name mime : rstr) (r : Rule) : bool :=
  match mime_prefix r with Some p => starts_with (lit p) mime | None => false end
  || ends_with_any (suffixes r) name.

Definition place (c : StorageCategory) (t : StorageType) (n : Z) (tier rule : string) : PlacementEvaluation :=
  {| category := c; target_storage_type := t; replica_count := n; availability_tier := lit tier;
     rule_name := lit rule |}.

Definition rules : list Rule :=
  [{| mime_prefix := Some "image/"%string; suffixes := [".jpg"; ".jpeg"; ".png"; ".webp"; ".heic"; ".raw"]%string;
      placement := place Photos Ssd 1 "local_only" "Default Photos -> High-Speed SSD Pool Policy" |};
   {| mime_prefix := Some "video/"%string; suffixes := [".mp4"; ".mkv"; ".mov"; ".avi"; ".webm"]%string;
      placement := place Videos Hdd 1 "local_only" "Default Videos -> Massive Capacity HDD Pool Policy" |};
   {| mime_prefix := Some "audio/"%string; suffixes := [".mp3"; ".flac"; ".wav"; ".ogg"; ".m4a"]%string;
      placement := place Audio AnyType 1 "local_only" "Default Audio -> Music Library Policy" |};
   {| mime_prefix := None; suffixes := [".tar"; ".zip"; ".bak"; ".dump"; ".gz"]%string;
      placement := place Backups Usb 2 "always_available" "Default System Backups & Archives Policy" |}].

Definition fallback : PlacementEvaluation :=
  place Documents Ssd 1 "any_device" "Default Documents -> Fast SSD / NAS Policy".

(** The placement of the first rule that matches. *)
Definition first_rule (name mime : rstr) : PlacementEvaluation :=
  match find_row (rule_matches name mime) rules with Some r => placement r | None => fallback end.

Lemma evaluate_first_rule name mime :
  evaluate_placement name mime = first_rule (to_lowercase name) (to_lowercase (default [] mime)).
Proof.
  unfold evaluate_placement, first_rule, find_row, rules, rule_matches. cbv zeta.
  cbn [List.find mime_prefix suffixes placement].
  repeat match goal with |- context [if ?b then _ else _] => destruct b; [reflexivity|] end.
  reflexivity.
Qed.

(** The names of an evaluation, as the type says them. *)
Definition category_name (c : StorageCategory) : rstr :=
  match c with
  | Photos => lit "photos" | Videos => lit "videos" | Audio => lit "audio" | Documents => lit "documents"
  | Backups => lit "backups" | Important => lit "important" | Custom n => n
  end.
Definition type_name (t : StorageType) : string :=
  match t with Ssd => "ssd" | Hdd => "hdd" | Usb => "usb" | Nas => "nas" | AnyType => "any" end.

Lemma names_agree name mime :
  let e := evaluate_placement name mime in
  answer_names (category e) (target_storage_type e)
  = (match category e with
     | Photos => "photos" | Videos => "videos" | Audio => "audio" | Backups => "backups" | _ => "documents"
     end%string, type_name (target_storage_type e))
  /\ lit (fst (answer_names (category e) (target_storage_type e))) = category_name (category e).
Proof.
  cbv zeta. rewrite evaluate_first_rule. unfold first_rule. destruct (find_row _ _) as [r|] eqn:F; [|done].
  apply find_row_Some in F as [Hr _]. apply list_elem_of_In in Hr. simpl in Hr.
  by destruct Hr as [<-|[<-|[<-|[<-|[]]]]].
Qed.

(** placement is the first matching rule of a table of four, in the order
    photos, videos, audio, archives, with documents for the rest, on the
    lower-cased name and type; only archives get two replicas. *)
Theorem placement_is_first_rule name mime :
  evaluate_placement name mime = first_rule (to_lowercase name) (to_lowercase (default [] mime))
  /\ (replica_count (evaluate_placement name mime) = 2
      <-> category (evaluate_placement name mime) = Backups)
  /\ replica_count (evaluate_placement name mime) ∈ [1; 2].
Proof.
  split; [apply evaluate_first_rule|]. rewrite evaluate_first_rule. unfold first_rule.
  destruct (find_row _ _) as [r|] eqn:F; [|split; [done|left]].
  apply find_row_Some in F as [Hr _]. apply list_elem_of_In in Hr. simpl in Hr.
  destruct Hr as [<-|[<-|[<-|[<-|[]]]]]; (split; [done|]); simpl; (left || (right; left)).
Qed.

(** an evaluation always answers, changes nothing, and says what the
    placement says, whatever the state and whatever fails: no policy a user
    creates and no storage node is ever consulted. *)
Theorem evaluation_ignores_policies user_id req w :
  let e := evaluate_placement (default [] (eval_name req)) (eval_mime req) in
  exists w', evaluate_storage user_id req w =
    (Ok {| matched_category := category_name (category e);
           storage_type := lit (type_name (target_storage_type e)); node_id := None;
           node_name := to_uppercase (lit (type_name (target_storage_type e))) ++ lit " Pool";
           answer_replicas := replica_count e; answer_tier := availability_tier e;
           rule_applied := rule_name e |}, w')
    /\ data w' = data w.
Proof.
  cbv zeta. unfold evaluate_storage. cbv zeta.
  destruct (names_agree (default [] (eval_name req)) (eval_mime req)) as [N C]. cbv zeta in N, C.
  set (e := evaluate_placement _ _) in *. rewrite <- C. clear C. rewrite N. cbn [fst].
  assert (Q : exists w1, unwrap_or (online_node user_id) None w = (Ok None, w1) /\ data w1 = data w).
  { unfold unwrap_or, online_node, statement. destruct (db_fault _); eauto. }
  destruct Q as (w1 & Q & D). exists w1. split; [|done].
  eapply bind_run; [exact Q|]. reflexivity.
Qed.

(** The operations of one user leave the others' policies alone. *)
Definition others_policies (u : Z) (s s' : Server) : Prop :=
  select (fun p => negb (by_user u p)) (storage_policies s')
  = select (fun p => negb (by_user u p)) (storage_policies s)
  /\ set_storage_policies (storage_policies s) s' = s.

#[local] Instance others_policies_preorder u : PreOrder (others_policies u).
Proof.
  split; [by intros []|]. intros s1 s2 s3 [A1 B1] [A2 B2]. split; [congruence|].
  rewrite <- B1 at 2. rewrite <- B2. destruct s1, s2, s3. reflexivity.
Qed.

(** creating and deleting policies concerns the caller's policies only; a
    created policy is one new row with the values of the answer, and after a
    deletion the caller has no policy of that identifier. *)
Theorem policies_isolated user_id :
  (forall req, preserves (others_policies user_id) (create_policy user_id req))
  /\ (forall i, preserves (others_policies user_id) (delete_policy user_id i))
  /\ (forall req w p w', create_policy user_id req w = (Ok p, w') ->
       exists r, storage_policies (data w') = storage_policies (data w) ++ [r]
         /\ StoragePolicy.id r = new_id p /\ StoragePolicy.user_id r = user_id
         /\ StoragePolicy.category r = new_category p
         /\ StoragePolicy.replica_count r = new_replicas p /\ StoragePolicy.priority r = new_priority p)
  /\ forall i w u w', delete_policy user_id i w = (Ok u, w') ->
       forall r, r ∈ storage_policies (data w') -> StoragePolicy.id r = i -> StoragePolicy.user_id r <> user_id.
Proof.
  split; [|split; [|split]].
  - intros req. unfold create_policy. preserve. apply preserves_execute; [apply _|].
    intros now s ? s' [= <- <-] _. split; [|by destruct s]. cbn [storage_policies set_storage_policies].
    rewrite select_insert. unfold by_user at 2. cbn [StoragePolicy.user_id]. rewrite Z.eqb_refl.
    apply app_nil_r.
  - intros i. unfold delete_policy. apply preserves_execute; [apply _|].
    intros now s ? s' [= <- <-] _. split; [|by destruct s]. cbn [storage_policies set_storage_policies].
    apply select_delete_disjoint. intros r Hr E. boolify. by rewrite H0.
  - intros req w p w' H. unfold create_policy in H. run_ok H. injection Hm as _ EE. cbn [data] in EE.
    eexists. split; [rewrite <- EE; reflexivity|]. by split_and!.
  - intros i w u w' D r Hr Ei Eu. unfold delete_policy in D. run_ok D. injection D as _ D.
    rewrite <- D in Hr. cbn [storage_policies set_storage_policies] in Hr. apply elem_delete in Hr as [_ N].
    unfold by_user in N. rewrite Eu, Z.eqb_refl, bool_decide_true in N by done. done.
Qed.
End Policy.

Lemma placement_example :
  category (evaluate_placement (U := ascii_unicode) (lit "Holiday.JPG") None) = Photos
  /\ category (evaluate_placement (U := ascii_unicode) (lit "song.zip") (Some (lit "AUDIO/x"))) = Audio.
Proof. split; vm_compute; reflexivity. Qed.
End Policy.
