(* ===== verification/Sync.v ===== *)
(** * Sync: change feeds, conflicts and the sync socket

    backend/crates/sync_engine/src/service.rs, models.rs and handlers.rs. *)

From S2P Require Import Prelude Text Effects Externals Fs Schema Token Auth Storage Files Tree.

Module Sync.
Import Token.

(** ** models.rs *)

Record ChangeEvent := {
  ev_id : Z; ev_file : Z; change_type : rstr; ev_name : rstr; ev_version : Z; ev_timestamp : Z }.

Record AddSyncFolderRequest := { folder_device : Z; local_path : rstr; remote_folder : option Z }.
Record ResolveConflictRequest := { conflict_file : Z; resolution : rstr }.
Record SyncStatusResponse := {
  st_device : Z; total_synced : Z; pending : Z; conflicts : Z; last_sync : option Z }.

Section Sync.
Context {O : Oracle} {CH : Chrono} {JW : JsonWebToken}.

(** ** service.rs *)

Definition newest_first (a b : FileEntry.row) : bool := FileEntry.updated_at b <=? FileEntry.updated_at a.

Definition changed_since (user_id since : Z) (f : FileEntry.row) : bool :=
  Files.owned_by user_id f && (since <? FileEntry.updated_at f).

Definition change_event (f : FileEntry.row) : ChangeEvent :=
  {| ev_id := FileEntry.id f; ev_file := FileEntry.id f; change_type := lit "modified";
     ev_name := FileEntry.name f; ev_version := 1; ev_timestamp := FileEntry.updated_at f |}.

(** The last thirty days when no instant is given; ORDER BY ... LIMIT 1000. *)
Definition get_changes (user_id : Z) (since : option Z) : M Server (list ChangeEvent) :=
  since_ts ← match since with
             | Some t => mret t
             | None => now ← utc_now; or_panic (add_seconds now (- (30 * 86400)))
             end;
  rows ← query (fun s => take 1000 (sort_by newest_first
    (select (changed_since user_id since_ts) (file_entries s))));
  mret (map change_event rows).

Definition state_of (user_id device_id : Z) (x : SyncState.row) : bool :=
  (SyncState.user_id x =? user_id) && (SyncState.device_id x =? device_id).
Definition in_status (st : string) (x : SyncState.row) : bool := bool_decide (SyncState.status x = lit st).

(** MAX over a column with NULLs. *)
Definition max_opt (l : list (option Z)) : option Z :=
  foldr (fun o acc => match o, acc with
                      | Some x, Some y => Some (Z.max x y)
                      | Some x, None => Some x
                      | None, _ => acc
                      end) None l.

(** A NULL maximum is a decoding error, which becomes None too. *)
Definition sync_status (user_id device_id : Z) : M Server SyncStatusResponse :=
  let count st := unwrap_or (query (fun s =>
    count_rows (fun x => state_of user_id device_id x && in_status st x) (sync_states s))) 0 in
  synced ← count "synced"%string;
  pend ← count "pending"%string;
  confl ← count "conflict"%string;
  last ← unwrap_or (query (fun s =>
    max_opt (map SyncState.last_synced_at (select (state_of user_id device_id) (sync_states s))))) None;
  mret {| st_device := device_id; total_synced := synced; pending := pend; conflicts := confl;
          last_sync := last |}.

Definition state_on (user_id file_id : Z) (x : SyncState.row) : bool :=
  (SyncState.user_id x =? user_id) && (SyncState.file_entry_id x =? file_id).

Definition mark_synced (p : SyncState.row -> bool) : M Server unit :=
  execute schema_ok (fun now s =>
    (tt, set_sync_states (update p (fun x => SyncState.set_updated_at now
           (SyncState.set_status (lit "synced") x)) (sync_states s)) s)).

Definition resolve_conflict (user_id : Z) (req : ResolveConflictRequest) : M Server unit :=
  if one_of ["keep_local"; "keep_remote"]%string (resolution req)
  then mark_synced (fun x => state_on user_id (conflict_file req) x && in_status "conflict" x)
  else if one_of ["keep_both"]%string (resolution req)
  then mark_synced (state_on user_id (conflict_file req))
  else throw (Validation (lit "Invalid resolution")).

Definition folder_of (user_id : Z) (x : SyncFolder.row) : bool := SyncFolder.user_id x =? user_id.
Definition newest_folder (a b : SyncFolder.row) : bool := SyncFolder.created_at b <=? SyncFolder.created_at a.

Definition add_sync_folder (user_id : Z) (req : AddSyncFolderRequest) : M Server SyncFolder.row :=
  new_id ← new_v4;
  execute schema_ok (fun now s =>
    let x := {| SyncFolder.id := new_id; SyncFolder.user_id := user_id;
                SyncFolder.device_id := folder_device req; SyncFolder.local_path := local_path req;
                SyncFolder.remote_folder_id := remote_folder req; SyncFolder.is_active := true;
                SyncFolder.created_at := now |} in
    (x, set_sync_folders (insert_row x (sync_folders s)) s)).

Definition list_sync_folders (user_id : Z) : M Server (list SyncFolder.row) :=
  query (fun s => sort_by newest_folder (select (folder_of user_id) (sync_folders s))).

Definition remove_sync_folder (user_id folder_id : Z) : M Server unit :=
  n ← execute schema_ok (fun _ s =>
    let p x := (SyncFolder.id x =? folder_id) && folder_of user_id x in
    (count_rows p (sync_folders s), set_sync_folders (delete_rows p (sync_folders s)) s));
  if n =? 0 then throw (NotFound (lit "Sync folder not found")) else mret tt.

(** ** handlers.rs: the socket *)

(** The token of the upgrade request, from its headers and its query. *)
Definition ws_token (authorization protocol query_token : option rstr) : option rstr :=
  match authorization with
  | Some auth_hdr =>
      match strip_prefix (lit "Bearer ") auth_hdr with
      | Some bearer => Some (trim bearer)
      | None => Some (trim auth_hdr)
      end
  | None =>
      match protocol with
      | Some proto =>
          match map trim (split_char (chr ",") proto) with
          | _ :: second :: _ => Some second
          | [only] => if 20 <? str_len only then Some only else None
          | [] => None
          end
      | None => query_token
      end
  end.

Definition sync_websocket (authorization protocol query_token : option rstr) (jwt_secret : rstr)
  : M Server Z :=
  token ← ok_or (ws_token authorization protocol query_token)
    (Unauthorized (lit "Missing authentication token via Authorization header, subprotocol, or token parameter"));
  claims ← map_err (fun _ => Unauthorized (lit "Invalid or expired authentication token"))
             (validate_token token jwt_secret);
  mret (sub claims).

(** A text frame, once its JSON is read: the type, and what the handlers look
    up in the payload. *)
Record SyncMessage := {
  msg_type : rstr; since_field : option Z; conflict_payload : option ResolveConflictRequest;
  device_field : option Z }.

Inductive Frame := Text (m : option SyncMessage) | Close | OtherFrame.

Inductive Reply :=
| Pong (now : Z)
| Changes (l : list ChangeEvent)
| ErrorReply (text : rstr)
| ConflictResolved
| StatusReport (st : SyncStatusResponse)
| Ack (received : rstr).

(** [match r { Ok(a) => ok(a), Err(e) => error reply }] *)
Definition reply_or {A} (m : M Server A) (ok : A -> Reply) : M Server Reply := fun w =>
  match m w with
  | (Ok a, w') => (Ok (ok a), w')
  | (Err e, w') => (Ok (ErrorReply (display e)), w')
  | (Panic, w') => (Panic, w')
  | (Diverge, w') => (Diverge, w')
  end.

Definition respond (user_id : Z) (m : SyncMessage) : M Server Reply :=
  let typed t := bool_decide (msg_type m = lit t) in
  if typed "ping"%string then now ← utc_now; mret (Pong now)
  else if typed "get_changes"%string then reply_or (get_changes user_id (since_field m)) Changes
  else if typed "resolve_conflict"%string then
    match conflict_payload m with
    | Some req => reply_or (resolve_conflict user_id req) (fun _ => ConflictResolved)
    | None => mret (ErrorReply (lit "Invalid resolve_conflict payload"))
    end
  else if typed "status"%string then reply_or (sync_status user_id (default 0 (device_field m))) StatusReport
  else mret (Ack (msg_type m)).

(** The loop over the frames received, each with whether its reply can be sent;
    the replies made, in order. *)
Fixpoint handle_sync_ws (user_id : Z) (frames : list (Frame * bool)) : M Server (list Reply) :=
  match frames with
  | [] => mret []
  | (Text (Some m), sent) :: rest =>
      r ← respond user_id m;
      if sent : bool then more ← handle_sync_ws user_id rest; mret (r :: more) else mret [r]
  | (Close, _) :: _ => mret []
  | (_, _) :: rest => handle_sync_ws user_id rest
  end.

(** ** The change feed *)

Lemma newest_total a b : newest_first a b = false -> newest_first b a = true.
Proof. unfold newest_first. lia. Qed.

Lemma newest_trans a b c : newest_first a b = true -> newest_first b c = true -> newest_first a c = true.
Proof. unfold newest_first. lia. Qed.

(** the change feed is the caller's rows changed after the given instant,
    newest first, at most a thousand; when it leaves one out it is full, and
    everything it reports is at least as new. *)
Theorem get_changes_spec user_id since w l w' :
  get_changes user_id (Some since) w = (Ok l, w') ->
  data w' = data w
  /\ exists rows rest, l = map change_event rows
     /\ rows ++ rest ≡ₚ select (changed_since user_id since) (file_entries (data w))
     /\ sorted_by newest_first rows /\ (length rows <= 1000)%nat
     /\ (rest <> [] -> length rows = 1000%nat)
     /\ forall x y, x ∈ rows -> y ∈ rest -> FileEntry.updated_at y <= FileEntry.updated_at x.
Proof.
  unfold get_changes. intros H. run_ok H. split; [done|].
  set (all := sort_by newest_first _). exists (take 1000 all), (drop 1000 all).
  assert (S : sorted_by newest_first (take 1000 all ++ drop 1000 all)).
  { rewrite take_drop. apply sort_by_sorted; [apply newest_total|apply newest_trans]. }
  apply sorted_app in S as (S1 & _ & P). split; [done|].
  split; [rewrite take_drop; apply sort_by_perm|]. split; [done|].
  split; [rewrite length_take; lia|]. split.
  - intros N. rewrite length_take. destruct (Nat.le_gt_cases 1000 (length all)); [lia|].
    destruct N. apply drop_ge. lia.
  - intros a b Ha Hb. specialize (P a b Ha Hb). unfold newest_first in P. lia.
Qed.

(** ** Conflicts *)

(** resolving a conflict.  An accepted resolution leaves no state of the
    caller on the file in conflict and touches no other row; keeping one side
    changes exactly the states in conflict, keeping both changes every state of
    the file, the pending ones included, which are then reported as synced. *)
Theorem resolve_conflict_spec user_id req w w' :
  resolve_conflict user_id req w = (Ok tt, w') ->
  exists p now, data w' = set_sync_states (update p (fun x => SyncState.set_updated_at now
                           (SyncState.set_status (lit "synced") x)) (sync_states (data w))) (data w)
  /\ (forall x, p x = true <-> state_on user_id (conflict_file req) x = true
        /\ (resolution req = lit "keep_both" \/ SyncState.status x = lit "conflict"))
  /\ (forall x, x ∈ sync_states (data w') -> state_on user_id (conflict_file req) x = true ->
        SyncState.status x <> lit "conflict").
Proof.
  assert (N : lit "synced" <> lit "conflict") by (intros E; vm_compute in E; discriminate E).
  assert (G : forall p, (forall x, state_on user_id (conflict_file req) x = true ->
      SyncState.status x = lit "conflict" -> p x = true) ->
    mark_synced p w = (Ok tt, w') -> exists now,
      data w' = set_sync_states (update p (fun x => SyncState.set_updated_at now
                 (SyncState.set_status (lit "synced") x)) (sync_states (data w))) (data w)
      /\ (forall x, x ∈ sync_states (data w') -> state_on user_id (conflict_file req) x = true ->
            SyncState.status x <> lit "conflict")).
  { intros p Hp H. unfold mark_synced in H. run_ok H. injection H as H. exists (clock_at (pos w)).
    split; [by symmetry|]. intros x Hx S. rewrite <- H in Hx. cbn [sync_states set_sync_states] in Hx.
    apply elem_update in Hx as (y & Hy & ->). destruct (p y) eqn:P; [done|]. intros C.
    by rewrite Hp in P. }
  unfold resolve_conflict. destruct (one_of ["keep_local"; "keep_remote"]%string (resolution req)) eqn:E1.
  - intros H. apply G in H as (now & D & F).
    + exists (fun x => state_on user_id (conflict_file req) x && in_status "conflict" x), now.
      split; [done|]. split; [|done]. intros x. rewrite andb_true_iff. unfold in_status.
      rewrite bool_decide_eq_true. split; [tauto|]. intros [S [K|C]]; [|done].
      rewrite K in E1. vm_compute in E1. discriminate E1.
    + intros x S C. by rewrite S; unfold in_status; rewrite C, bool_decide_true.
  - destruct (one_of ["keep_both"]%string (resolution req)) eqn:E2; [|by intros H%throw_Ok].
    intros H. apply G in H as (now & D & F); [|done].
    exists (state_on user_id (conflict_file req)), now. split; [done|]. split; [|done].
    intros x. split; [|tauto]. intros S. split; [done|left]. simpl in E2. rewrite orb_false_r in E2.
    by apply bool_decide_eq_true in E2.
Qed.

(** ** The socket *)

(** The messages that get an answer: those before the first close frame, up to
    the first answer that cannot be sent. *)
Fixpoint answered (frames : list (Frame * bool)) : list SyncMessage :=
  match frames with
  | [] => []
  | (Text (Some m), sent) :: rest => m :: if sent : bool then answered rest else []
  | (Close, _) :: _ => []
  | _ :: rest => answered rest
  end.

(** The answer to a message, by its type. *)
Definition answers (m : SyncMessage) (r : Reply) : Prop :=
  match r with
  | Pong _ => msg_type m = lit "ping"
  | Changes _ => msg_type m = lit "get_changes"
  | ConflictResolved => msg_type m = lit "resolve_conflict"
  | StatusReport _ => msg_type m = lit "status"
  | ErrorReply _ => msg_type m = lit "get_changes" \/ msg_type m = lit "resolve_conflict" \/ msg_type m = lit "status"
  | Ack t => t = msg_type m
  end.

(** A program that ends with an answer or an error. *)
Definition ends {A} (m : M Server A) : Prop :=
  forall w, exists o w', m w = (o, w') /\ o <> Panic /\ o <> Diverge.

Lemma ends_bind {A B} (m : M Server A) (k : A -> M Server B) :
  ends m -> (forall a, ends (k a)) -> ends (x ← m; k x).
Proof.
  intros Hm Hk w. destruct (Hm w) as (o & w1 & E & N1 & N2). unfold mbind, M_bind. rewrite E.
  destruct o as [a|e| |]; [apply Hk|by exists (Err e), w1|done|done].
Qed.

Lemma ends_ret {A} (a : A) : ends (mret a).
Proof. intros w. by exists (Ok a), w. Qed.

Lemma ends_statement {A} (f : Z -> Server -> sql A Server) :
  (forall now s, f now s <> Loops) -> ends (statement f).
Proof.
  intros L w. unfold statement. destruct (db_fault _); [by eexists _, _|].
  specialize (L (clock_at (pos w)) (data w)). destruct (f _ _); [by eexists _, _..|done].
Qed.

Lemma ends_query {A} (f : Server -> A) : ends (query f).
Proof. by apply ends_statement. Qed.

Lemma ends_unwrap_or {A} (m : M Server A) a : ends m -> ends (unwrap_or m a).
Proof.
  intros Hm w. destruct (Hm w) as (o & w1 & E & N1 & N2). unfold unwrap_or. rewrite E.
  destruct o; try done; by eexists _, _.
Qed.

Lemma ends_mark p : ends (mark_synced p).
Proof. apply ends_statement. intros now s. unfold checked. by destruct (schema_ok _). Qed.

Lemma ends_resolve u req : ends (resolve_conflict u req).
Proof.
  unfold resolve_conflict. destruct (one_of _ _); [apply ends_mark|]. destruct (one_of _ _); [apply ends_mark|].
  intros w. by eexists _, _.
Qed.

Lemma ends_status u d : ends (sync_status u d).
Proof.
  unfold sync_status. cbv zeta.
  repeat (apply ends_bind; [apply ends_unwrap_or, ends_query|intros ?]). apply ends_ret.
Qed.

(** The clock shows a time between 1970 and 2508. *)
Definition sane_clock : Prop := forall n, 0 <= clock_at n < 17000000000 * 1000000.

Lemma ends_changes u since : sane_clock -> ends (get_changes u since).
Proof.
  intros C. unfold get_changes. apply ends_bind; [|intros t; apply ends_bind; [apply ends_query|intros r; apply ends_ret]].
  destruct since; [apply ends_ret|]. intros w. unfold utc_now. rewrite bind_interact.
  destruct (add_seconds_total (clock_at (pos w)) (- (30 * 86400)) (C _) ltac:(lia)) as [t E].
  rewrite E. by eexists _, _.
Qed.

Lemma reply_or_ends {A} (m : M Server A) ok w :
  ends m -> exists r w', reply_or m ok w = (Ok r, w') /\ ((exists a, r = ok a) \/ exists t, r = ErrorReply t).
Proof.
  intros Hm. destruct (Hm w) as (o & w1 & E & N1 & N2). unfold reply_or. rewrite E.
  destruct o; try done; eexists _, _; eauto.
Qed.

Lemma respond_answers u m w : sane_clock -> exists r w', respond u m w = (Ok r, w') /\ answers m r.
Proof.
  intros C. unfold respond. cbv zeta.
  case_bool_decide as E1; [unfold utc_now; rewrite bind_interact; by eexists _, _|].
  case_bool_decide as E2.
  { destruct (reply_or_ends (get_changes u (since_field m)) Changes w) as (r & w' & H & [[a ->]|[t ->]]);
      [by apply ends_changes|exists (Changes a), w'; by split|exists (ErrorReply t), w'; split; [done|by left]]. }
  case_bool_decide as E3.
  { destruct (conflict_payload m) as [req|]; [|eexists _, _; split; [reflexivity|right; by left]].
    destruct (reply_or_ends (resolve_conflict u req) (fun _ => ConflictResolved) w) as (r & w' & H & [[a ->]|[t ->]]);
      [apply ends_resolve|exists ConflictResolved, w'; by split|exists (ErrorReply t), w'; split; [done|right; by left]]. }
  case_bool_decide as E4; [|by eexists _, _].
  destruct (reply_or_ends (sync_status u (default 0 (device_field m))) StatusReport w) as (r & w' & H & [[a ->]|[t ->]]);
    [apply ends_status|exists (StatusReport a), w'; by split|exists (ErrorReply t), w'; split; [done|right; by right]].
Qed.

(** the socket answers.  Over any sequence of frames, whatever the database
    refuses, the loop ends and has made exactly one reply, of the kind its type
    asks for, to each readable message before the first close frame and up to
    the first reply that cannot be sent. *)
Theorem socket_answers user_id frames w :
  sane_clock ->
  exists replies w', handle_sync_ws user_id frames w = (Ok replies, w')
    /\ Forall2 answers (answered frames) replies.
Proof.
  intros C. revert w. induction frames as [|[f sent] rest IH]; intros w; cbn [handle_sync_ws answered].
  { eexists _, _. split; [reflexivity|constructor]. }
  destruct f as [[m|]| |]; [|by apply IH|eexists _, _; split; [reflexivity|constructor]|by apply IH].
  destruct (respond_answers user_id m w C) as (r & w1 & E & A).
  destruct sent.
  - destruct (IH w1) as (more & w2 & E2 & F). exists (r :: more), w2. split; [|by constructor].
    eapply bind_run; [exact E|]. eapply bind_run; [exact E2|]. reflexivity.
  - exists [r], w1. split; [|by repeat constructor]. by eapply bind_run.
Qed.
End Sync.

(** ** Concrete runs *)

Lemma changes_witness : exists l w',
  get_changes (O := toy_env []) (CH := plain_chrono) 2 (Some (-1)) Tree.demo_tree = (Ok l, w')
  /\ exists rows, l = map change_event rows /\ (length rows <= 1000)%nat.
Proof.
  destruct (get_changes (O := toy_env []) (CH := plain_chrono) 2 (Some (-1)) Tree.demo_tree)
    as [[l|e| |] w'] eqn:E; [|not_ok E..].
  exists l, w'. split; [reflexivity|].
  destruct (get_changes_spec (O := toy_env []) (CH := plain_chrono) 2 (-1) Tree.demo_tree l w' E)
    as (_ & rows & rest & H & _ & _ & L & _). by exists rows.
Defined.

Definition demo_state (d : Z) (st : string) : SyncState.row :=
  {| SyncState.id := d; SyncState.user_id := 2; SyncState.device_id := d; SyncState.file_entry_id := 10;
     SyncState.version := 1; SyncState.status := lit st; SyncState.last_synced_at := None;
     SyncState.created_at := 0; SyncState.updated_at := 0 |}.

Definition demo_device (d : Z) : Device.row :=
  {| Device.id := d; Device.user_id := 2; Device.name := lit "laptop"; Device.device_type := lit "desktop";
     Device.os := lit "linux"; Device.os_version := []; Device.agent_version := [];
     Device.is_online := false; Device.last_seen_at := None; Device.created_at := 0;
     Device.updated_at := 0 |}.

Definition demo_conflict : World Server :=
  mkWorld (set_sync_states [demo_state 50 "conflict"; demo_state 51 "pending"]
    (set_devices [demo_device 50; demo_device 51] (data Tree.demo_tree))) 0.

Definition demo_resolve (how : string) :=
  resolve_conflict (O := toy_env []) 2 {| conflict_file := 10; resolution := lit how |} demo_conflict.

Lemma resolve_witness : exists w', demo_resolve "keep_both" = (Ok tt, w')
  /\ forall x, x ∈ sync_states (data w') -> state_on 2 10 x = true -> SyncState.status x <> lit "conflict".
Proof.
  destruct (demo_resolve "keep_both") as [[[]|e| |] w'] eqn:E; [|not_ok E..].
  exists w'. split; [reflexivity|]. unfold demo_resolve in E.
  destruct (resolve_conflict_spec (O := toy_env []) 2 {| conflict_file := 10; resolution := lit "keep_both" |}
    demo_conflict w' E) as (p & now & _ & _ & H). exact H.
Defined.

(** The environment of the examples with a clock that stands still. *)
Definition still_env (faults : list nat) : Oracle :=
  {| db_fault := toy_oracle faults; io_fault n := None; uuid_at n := Z.of_nat n; byte_at n := 0;
     salt_at n := 0; token_at n := []; code_at n := 0; clock_at n := 1700000000000000 |}.

Lemma still_sane faults : sane_clock (O := still_env faults).
Proof. intros n. unfold clock_at, still_env. lia. Qed.

Definition demo_message (t : string) : Frame :=
  Text (Some {| msg_type := lit t; since_field := None; conflict_payload := None; device_field := None |}).

(** The first statement fails; the fourth frame closes the socket. *)
Definition demo_frames : list (Frame * bool) :=
  [(demo_message "get_changes", true); (Text None, true); (demo_message "status", true); (Close, true);
   (demo_message "ping", true)].

Lemma socket_witness : exists replies w',
  handle_sync_ws (O := still_env [1%nat]) (CH := plain_chrono) 2 demo_frames Tree.demo_tree = (Ok replies, w')
  /\ length replies = 2%nat.
Proof.
  destruct (socket_answers (O := still_env [1%nat]) (CH := plain_chrono) 2 demo_frames Tree.demo_tree
    (still_sane _)) as (replies & w' & H & F).
  exists replies, w'. split; [exact H|]. symmetry. exact (Forall2_length _ _ _ F).
Defined.
End Sync.
