(* ===== verification/Delta.v ===== *)
(** * Delta: content-defined chunking of the device agent

    agent/src/delta.rs: [split_into_chunks] cuts a file where a rolling hash
    hits a mask, [diff_chunks] finds the chunks the server does not have, and
    [file_hash] hashes a file through a 64 KB buffer. *)

From S2P Require Import Prelude Text Externals.

Module Delta.

Definition MIN_CHUNK : Z := 64 * 1024.
Definition AVG_CHUNK : Z := 256 * 1024.
Definition MAX_CHUNK : Z := 1024 * 1024.
Definition MASK : Z := AVG_CHUNK - 1.

Record ChunkInfo := { index : Z; offset : Z; length_ : Z; hash : rstr }.

(** &data[a..b] *)
Definition slice (data : bytes) (a b : Z) : bytes := take (Z.to_nat (b - a)) (drop (Z.to_nat a) data).

Section Chunks.
Context {S : Sha256} {H : Hex}.

Definition digest_hex (b : bytes) : rstr := hex_encode (sha256 b).

(** rolling_hash.wrapping_mul(31).wrapping_add(byte) *)
Definition roll (h b : Z) : Z := wrap_u32 (wrap_u32 (h * 31) + b).

Definition at_boundary (chunk_len rolling : Z) : bool :=
  ((MIN_CHUNK <=? chunk_len) && (Z.land rolling MASK =? 0)) || (MAX_CHUNK <=? chunk_len).

(** The [while offset < data.len()] loop: [rest] is [data] from [off] on. *)
Fixpoint split_loop (data rest : bytes) (off chunk_start rolling_hash idx : Z) : list ChunkInfo :=
  match rest with
  | [] => []
  | b :: rest' =>
      let rolling_hash := roll rolling_hash b in
      let chunk_len := off - chunk_start in
      let is_boundary := at_boundary chunk_len rolling_hash in
      if is_boundary || (off =? Z.of_nat (length data) - 1) then
        let end_ := if is_boundary then off else off + 1 in
        let chunk_data := slice data chunk_start end_ in
        {| index := idx; offset := chunk_start;
           length_ := Z.of_nat (length chunk_data); hash := digest_hex chunk_data |}
        :: split_loop data rest' (off + 1) end_ 0 (idx + 1)
      else split_loop data rest' (off + 1) chunk_start rolling_hash idx
  end.

Definition split_into_chunks (data : bytes) : list ChunkInfo := split_loop data data 0 0 0 0.

(** HashSet of the server's hashes, then filter and map. *)
Definition diff_chunks (local server : list ChunkInfo) : list Z :=
  let server_hashes := map hash server in
  map index (List.filter (fun c => negb (bool_decide (hash c ∈ server_hashes))) local).

(** The read loop of [file_hash]: the n-th read returns between one byte and
    a buffer full of what is left, [reads n] bytes being asked for. *)
Fixpoint hash_loop (fuel : nat) (reads : nat -> nat) (n : nat) (rest hashed : bytes) : option bytes :=
  match fuel with
  | O => None
  | Datatypes.S f =>
      let k := Nat.min (Nat.min (Z.to_nat 65536) (length rest)) (Nat.max 1 (reads n)) in
      if (k =? 0)%nat then Some hashed
      else hash_loop f reads (Datatypes.S n) (drop k rest) (hashed ++ take k rest)
  end.

Definition file_hash (fuel : nat) (reads : nat -> nat) (content : bytes) : option rstr :=
  option_map digest_hex (hash_loop fuel reads 0 content []).

(** ** Lemmas *)

Lemma slice_length data a b :
  0 <= a -> a <= b <= Z.of_nat (length data) -> Z.of_nat (length (slice data a b)) = b - a.
Proof. intros Ha Hb. unfold slice. rewrite length_take, length_drop. lia. Qed.

Lemma slice_app data a b :
  0 <= a <= b -> b <= Z.of_nat (length data) ->
  take (Z.to_nat a) data ++ slice data a b = take (Z.to_nat b) data.
Proof.
  intros Ha Hb. unfold slice. rewrite <- (take_drop (Z.to_nat a) (take (Z.to_nat b) data)).
  rewrite take_take, Nat.min_l by lia. f_equal.
  rewrite skipn_firstn_comm. f_equal. lia.
Qed.

(** The bytes a chunk stands for. *)
Definition chunk_bytes (data : bytes) (c : ChunkInfo) : bytes :=
  slice data (offset c) (offset c + length_ c).

(** Consecutive chunks from [start], numbered from [idx], with the right hashes. *)
Inductive chain (data : bytes) : Z -> Z -> list ChunkInfo -> Z -> Prop :=
| chain_nil start idx : chain data start idx [] start
| chain_cons start idx c cs stop :
    index c = idx -> offset c = start -> 1 <= length_ c <= MAX_CHUNK ->
    start + length_ c <= Z.of_nat (length data) ->
    hash c = digest_hex (chunk_bytes data c) ->
    chain data (start + length_ c) (idx + 1) cs stop ->
    chain data start idx (c :: cs) stop.

Lemma chain_concat data start idx cs stop :
  0 <= start <= Z.of_nat (length data) -> chain data start idx cs stop ->
  take (Z.to_nat start) data ++ concat (map (chunk_bytes data) cs) = take (Z.to_nat stop) data.
Proof.
  intros Hs Hc. induction Hc as [|start idx c cs stop Hi Ho Hl Hb Hh Hc IH]; simpl.
  - apply app_nil_r.
  - rewrite app_assoc. unfold chunk_bytes at 1. rewrite Ho, slice_app by lia. apply IH. lia.
Qed.

(** What the loop does from any point: it produces a chain from the start of
    the current chunk, and the chain ends at the end of the data, or one byte
    before it when the last byte is itself a boundary. *)
Lemma split_loop_chain data rest off start rolling idx :
  rest = drop (Z.to_nat off) data -> 0 <= start <= off -> off - start <= MAX_CHUNK ->
  (rest = [] -> off = start \/ off = start + 1) -> off <= Z.of_nat (length data) ->
  exists stop, chain data start idx (split_loop data rest off start rolling idx) stop
    /\ (rest <> [] -> Z.of_nat (length data) - 1 <= stop <= Z.of_nat (length data))
    /\ (rest = [] -> stop = start).
Proof.
  assert (Hm : 0 < MIN_CHUNK /\ MIN_CHUNK < MAX_CHUNK) by (split; reflexivity).
  revert off start rolling idx.
  induction rest as [|b rest IH]; intros off start rolling idx Hr Hs HM Hn Ho.
  { exists start. split; [constructor|]. done. }
  assert (Hlt : off < Z.of_nat (length data)).
  { apply (f_equal length) in Hr. rewrite length_drop in Hr. simpl in Hr. lia. }
  assert (Hr' : rest = drop (Z.to_nat (off + 1)) data).
  { replace (Z.to_nat (off + 1)) with (Z.to_nat off + 1)%nat by lia.
    by rewrite <- drop_drop, <- Hr. }
  assert (Hnil : rest = [] -> off = Z.of_nat (length data) - 1).
  { intros ->. apply (f_equal length) in Hr. rewrite length_drop in Hr. simpl in Hr. lia. }
  cbn [split_loop]. set (r := roll rolling b).
  destruct (at_boundary (off - start) r) eqn:B; cbn [orb].
  - assert (MIN_CHUNK <= off - start).
    { unfold at_boundary in B. apply orb_true_iff in B as [B|B]; boolify; lia. }
    destruct (IH (off + 1) off 0 (idx + 1)) as (stop & C & K & E); try done; try lia.
    exists stop. split; [|split; [|done]].
    + pose proof (slice_length data start off ltac:(lia) ltac:(lia)) as L.
      apply chain_cons; simpl; rewrite ?L; try done; try lia.
      * unfold chunk_bytes. simpl. do 3 f_equal. simpl. lia.
      * replace (start + (off - start)) with off by lia. done.
    + intros _. destruct rest; [rewrite E by done; specialize (Hnil eq_refl); lia|].
      by apply K.
  - assert (off - start < MAX_CHUNK).
    { unfold at_boundary in B. boolify. lia. }
    destruct (Z.eqb_spec off (Z.of_nat (length data) - 1)) as [El|El].
    + assert (rest = []) as ->.
      { rewrite Hr'. apply drop_ge. lia. }
      exists (off + 1). split; [|split; [lia|done]].
      pose proof (slice_length data start (off + 1) ltac:(lia) ltac:(lia)) as L.
      apply chain_cons; simpl; rewrite ?L; try done; try lia.
      * unfold chunk_bytes. simpl.
        by replace (start + (off + 1 - start)) with (off + 1) by lia.
      * replace (start + (off + 1 - start)) with (off + 1) by lia. constructor.
    + destruct (IH (off + 1) start r idx) as (stop & C & K & E); try done; try lia.
      { intros Hn'. specialize (Hnil Hn'). lia. }
      exists stop. split; [done|]. split; [|done]. intros _.
      destruct rest; [specialize (Hnil eq_refl); lia | by apply K].
Qed.

(** Bytes that are no boundary and not the last are passed over. *)
Lemma split_loop_zeros data k rest off start idx :
  (Z.of_nat k + off - start <= MIN_CHUNK) -> Z.of_nat k + off < Z.of_nat (length data) ->
  0 <= off -> 
  split_loop data (replicate k 0 ++ rest) off start 0 idx =
  split_loop data rest (off + Z.of_nat k) start 0 idx.
Proof.
  assert (Hm : MIN_CHUNK < MAX_CHUNK) by reflexivity.
  revert off. induction k as [|k IH]; intros off Hk Hl Ho; [simpl; by rewrite Z.add_0_r|].
  cbn [replicate app split_loop].
  replace (at_boundary (off - start) (roll 0 0)) with false.
  2:{ symmetry. unfold at_boundary. rewrite (proj2 (Z.leb_gt _ _)) by lia. simpl.
      apply Z.leb_gt. lia. }
  rewrite (proj2 (Z.eqb_neq _ _)) by lia. cbn [orb].
  change (roll 0 0) with 0. rewrite IH by lia. f_equal. lia.
Qed.

(** A file of [MIN_CHUNK] zero bytes and one more: one chunk, one byte short. *)
Lemma split_zeros n :
  Z.of_nat n = MIN_CHUNK ->
  let data := replicate n 0 ++ [0] in
  Z.of_nat (length data) = MIN_CHUNK + 1
  /\ map length_ (split_into_chunks data) = [MIN_CHUNK]
  /\ concat (map (chunk_bytes data) (split_into_chunks data)) <> data.
Proof.
  intros Hn data.
  assert (HL : Z.of_nat (length data) = MIN_CHUNK + 1).
  { unfold data. rewrite length_app, length_replicate. cbn [length]. lia. }
  assert (E : exists h, split_into_chunks data =
    [{| index := 0; offset := 0; length_ := MIN_CHUNK; hash := h |}]).
  { unfold split_into_chunks. unfold data at 2. rewrite split_loop_zeros by lia.
    rewrite Z.add_0_l, Hn. cbn [split_loop]. change (roll 0 0) with 0.
    change (at_boundary (MIN_CHUNK - 0) 0) with true. cbn [orb].
    rewrite slice_length, Z.sub_0_r by lia. eexists. reflexivity. }
  split; [exact HL|]. destruct E as [h ->]. split; [reflexivity|].
  cbn [map concat]. rewrite app_nil_r. unfold chunk_bytes. cbn [offset length_].
  intros Heq. apply (f_equal (fun l => Z.of_nat (length l))) in Heq.
  rewrite slice_length in Heq by lia. lia.
Qed.

Lemma hash_loop_total fuel reads n rest hashed :
  (length rest < fuel)%nat -> hash_loop fuel reads n rest hashed = Some (hashed ++ rest).
Proof.
  revert n rest hashed. induction fuel as [|f IH]; intros n rest hashed Hf; [lia|].
  cbn [hash_loop]. destruct (Nat.eqb_spec (Nat.min (Nat.min (Z.to_nat 65536) (length rest))
    (Nat.max 1 (reads n))) 0) as [E|E].
  - destruct rest as [|b rest]; [by rewrite app_nil_r|]. cbn [length] in *. lia.
  - rewrite IH.
    + by rewrite <- app_assoc, take_drop.
    + rewrite length_drop. lia.
Qed.

(** ** Properties *)

(** every file, whatever its content, is cut into consecutive non-empty
    chunks of at most [MAX_CHUNK] bytes numbered from 0, each with the digest
    of its bytes, and together they are the file or the file less its last
    byte. *)
Theorem split_into_chunks_partition data :
  exists stop, chain data 0 0 (split_into_chunks data) stop
    /\ concat (map (chunk_bytes data) (split_into_chunks data)) = take (Z.to_nat stop) data
    /\ Z.of_nat (length data) - 1 <= stop <= Z.of_nat (length data).
Proof.
  destruct (split_loop_chain data data 0 0 0 0) as (stop & C & K & E); try done; try lia.
  exists stop. split; [done|]. split.
  - apply chain_concat in C; [done|lia].
  - destruct data as [|b data]; [rewrite E by done; simpl; lia | by apply K].
Qed.

(** the last byte is lost when it falls on a chunk boundary: a file of
    65537 zero bytes is uploaded as the single chunk of its first 65536. *)
Theorem split_into_chunks_loses_last_byte :
  exists data, Z.of_nat (length data) = 65537
    /\ concat (map (chunk_bytes data) (split_into_chunks data)) <> data
    /\ map length_ (split_into_chunks data) = [65536].
Proof.
  assert (Hn : Z.of_nat (Z.to_nat 65536) = MIN_CHUNK) by (rewrite Z2Nat.id; [done|lia]).
  revert Hn. generalize (Z.to_nat 65536). intros n Hn.
  destruct (split_zeros n Hn) as (L & E & N).
  exists (replicate n 0 ++ [0]). split; [rewrite L; reflexivity|]. split; [exact N|].
  rewrite E. reflexivity.
Qed.

(** [diff_chunks] reports exactly the indices of the local chunks whose
    hash no server chunk has, in the local order; nothing when the server has
    them all, in particular for an unchanged file. *)
Theorem diff_chunks_spec local server :
  (forall i, i ∈ diff_chunks local server <->
     exists c, c ∈ local /\ index c = i /\ hash c ∉ map hash server)
  /\ sublist (diff_chunks local server) (map index local)
  /\ diff_chunks local local = [].
Proof.
  unfold diff_chunks. split; [|split].
  - intros i. rewrite list_elem_of_In, in_map_iff. setoid_rewrite filter_In.
    setoid_rewrite negb_true_iff. setoid_rewrite bool_decide_eq_false.
    setoid_rewrite list_elem_of_In. naive_solver.
  - induction local as [|c l IH]; simpl; [constructor|]. case_match; simpl.
    + by apply sublist_skip.
    + by apply sublist_cons.
  - assert (G : forall l, Forall (fun c => hash c ∈ map hash local) l ->
      List.filter (fun c => negb (bool_decide (hash c ∈ map hash local))) l = []).
    { induction 1 as [|c l Hc Hl IH]; simpl; [done|].
      rewrite bool_decide_eq_true_2 by done. simpl. exact IH. }
    rewrite G; [done|]. apply Forall_forall. intros c Hc.
    rewrite list_elem_of_In. apply in_map. by apply list_elem_of_In.
Qed.

(** the streamed hash does not depend on how the reads are cut: with one
    read more than the file has bytes it ends, with the digest of the whole
    content. *)
Theorem file_hash_streaming reads content :
  file_hash (Datatypes.S (length content)) reads content = Some (digest_hex content).
Proof. unfold file_hash. rewrite hash_loop_total by lia. reflexivity. Qed.
End Chunks.
End Delta.
