(* ===== verification/Queue.v ===== *)
(** * Queue: the offline transfer queue of the agent

    agent/src/queue.rs: a disk-backed priority queue.  The disk is the content
    of the queue file and of its temporary file; each file-system call of a
    save may fail, and the failing one is an argument. *)

From S2P Require Import Prelude Text.

Module Queue.

Record QueuedTransfer := {
  id : rstr; local_path : rstr; relative_path : rstr; storage_node_id : option rstr;
  op : rstr; size_bytes : Z; sha256 : option rstr; priority : Z; attempts : Z; created_at : rstr
}.

(** serde_json on the element type: what is printed parses back. *)
Class Json := {
  to_string_pretty : list QueuedTransfer -> rstr;
  from_str : rstr -> option (list QueuedTransfer);
  from_to : forall l, from_str (to_string_pretty l) = Some l
}.

(** The two files of the queue; [None] is a file that does not exist. *)
Record Disk := { queue_file : option rstr; tmp_file : option rstr }.

(** The call of a save that fails, if one does. *)
Inductive save_fault := FailCreateDir | FailWrite (partial : rstr) | FailRename.

Section Queue.
Context {J : Json}.

(** [readable] is whether fs::read_to_string succeeds on an existing file. *)
Definition list_items (readable : bool) (d : Disk) : list QueuedTransfer :=
  match queue_file d with
  | None => []
  | Some content =>
      if readable then default [] (from_str content) else []
  end.

(** Result::Ok is [true]. *)
Definition save (fault : option save_fault) (d : Disk) (items : list QueuedTransfer) : bool * Disk :=
  match fault with
  | Some FailCreateDir => (false, d)
  | Some (FailWrite partial) => (false, {| queue_file := queue_file d; tmp_file := Some partial |})
  | Some FailRename =>
      (false, {| queue_file := queue_file d; tmp_file := Some (to_string_pretty items) |})
  | None => (true, {| queue_file := Some (to_string_pretty items); tmp_file := None |})
  end.

(** b.priority.cmp(&a.priority) is not Greater *)
Definition by_priority (a b : QueuedTransfer) : bool := priority b <=? priority a.

Definition enqueue_items (items : list QueuedTransfer) (transfer : QueuedTransfer) :=
  sort_by by_priority
    (List.filter (fun i => negb (bool_decide (id i = id transfer))) items ++ [transfer]).

Definition enqueue (r : bool) (fault : option save_fault) (d : Disk) (transfer : QueuedTransfer) : bool * Disk :=
  save fault d (enqueue_items (list_items r d) transfer).

(** iter().position and Vec::remove *)
Fixpoint remove_first (the_id : rstr) (items : list QueuedTransfer)
    : option (QueuedTransfer * list QueuedTransfer) :=
  match items with
  | [] => None
  | i :: rest =>
      if bool_decide (id i = the_id) then Some (i, rest)
      else match remove_first the_id rest with
           | Some (x, rest') => Some (x, i :: rest')
           | None => None
           end
  end.

(** [None] is an io::Error; otherwise the removed item, if any. *)
Definition dequeue (r : bool) (fault : option save_fault) (d : Disk) (the_id : rstr)
    : option (option QueuedTransfer) * Disk :=
  match remove_first the_id (list_items r d) with
  | Some (removed, items) =>
      let (ok, d') := save fault d items in
      (if ok then Some (Some removed) else None, d')
  | None => (Some None, d)
  end.

Definition drain (r : bool) (fault : option save_fault) (d : Disk) : option (list QueuedTransfer) * Disk :=
  let items := list_items r d in
  let (ok, d') := save fault d [] in
  (if ok then Some items else None, d').

Definition len (r : bool) (d : Disk) : nat := length (list_items r d).
Definition is_empty (r : bool) (d : Disk) : bool := negb (nonempty (list_items r d)).

(** ** The queue invariant and its abstract view *)

Definition well_formed (items : list QueuedTransfer) : Prop :=
  sorted_by by_priority items /\ base.NoDup (map id items).

(** One operation of a client. *)
Inductive step : Disk -> Disk -> Prop :=
| step_enqueue f d t : step d (snd (enqueue true f d t))
| step_dequeue f d i : step d (snd (dequeue true f d i))
| step_drain f d : step d (snd (drain true f d)).

(** ** Lemmas *)

Lemma by_priority_total x y : by_priority x y = false -> by_priority y x = true.
Proof. unfold by_priority. lia. Qed.

Lemma by_priority_trans x y z : by_priority x y = true -> by_priority y z = true -> by_priority x z = true.
Proof. unfold by_priority. lia. Qed.

Lemma list_saved c t : list_items true {| queue_file := Some (to_string_pretty c); tmp_file := t |} = c.
Proof. unfold list_items. simpl. by rewrite from_to. Qed.

Lemma list_items_tmp r q t t' :
  list_items r {| queue_file := q; tmp_file := t |} = list_items r {| queue_file := q; tmp_file := t' |}.
Proof. done. Qed.

(** A save changes the readable queue exactly when it reports success. *)
Lemma save_spec f d items :
  list_items true (snd (save f d items)) = if fst (save f d items) then items else list_items true d.
Proof. destruct f as [[]|]; cbn [save fst snd]; [done..|]. apply list_saved. Qed.

Lemma sorted_filter (p : QueuedTransfer -> bool) l :
  sorted_by by_priority l -> sorted_by by_priority (List.filter p l).
Proof.
  induction l as [|x l IH]; simpl; [done|]. intros [Hx Hl]. destruct (p x); simpl; [|by apply IH].
  split; [|by apply IH]. rewrite Forall_forall in *. intros y Hy.
  apply Hx. rewrite list_elem_of_In in *. by apply filter_In in Hy as [Hy _].
Qed.

Lemma nodup_filter (p : QueuedTransfer -> bool) l :
  base.NoDup (map id l) -> base.NoDup (map id (List.filter p l)).
Proof.
  induction l as [|x l IH]; simpl; [done|]. intros H. inversion H as [|? ? Hx Hl]; subst.
  destruct (p x); simpl; [|by apply IH]. constructor; [|by apply IH].
  intros Hin. apply Hx. rewrite list_elem_of_In in *. rewrite in_map_iff in *.
  destruct Hin as (y & <- & Hy). apply filter_In in Hy as [Hy _]. by exists y.
Qed.

Lemma enqueue_items_wf items t : well_formed items -> well_formed (enqueue_items items t).
Proof.
  intros [_ Hn]. split.
  - apply sort_by_sorted; [apply by_priority_total | apply by_priority_trans].
  - unfold enqueue_items. rewrite (sort_by_perm by_priority). rewrite map_app. simpl.
    rewrite NoDup_app. split; [by apply nodup_filter|]. split; [|by apply NoDup_singleton].
    intros x Hx. rewrite list_elem_of_singleton. intros ->.
    rewrite list_elem_of_In, in_map_iff in Hx. destruct Hx as (y & E & Hy).
    apply filter_In in Hy as [_ Hy]. boolify. done.
Qed.

Lemma remove_first_spec i items x rest :
  remove_first i items = Some (x, rest) ->
  exists a b, items = a ++ x :: b /\ rest = a ++ b /\ id x = i /\ Forall (fun y => id y <> i) a.
Proof.
  revert rest. induction items as [|y items IH]; intros rest; simpl; [done|].
  destruct (bool_decide (id y = i)) eqn:E; boolify.
  - intros [= -> ->]. by exists [], rest.
  - destruct (remove_first i items) as [[z r]|]; [|done]. intros [= -> <-].
    destruct (IH r eq_refl) as (a & b & -> & -> & Hi & F). exists (y :: a), b.
    repeat split; try done. by constructor.
Qed.

Lemma remove_first_None i items : remove_first i items = None <-> Forall (fun y => id y <> i) items.
Proof.
  induction items as [|y items IH]; simpl; [split; [constructor|done]|].
  rewrite Forall_cons. destruct (bool_decide (id y = i)) eqn:E; boolify; [split; [done|naive_solver]|].
  destruct (remove_first i items) as [[]|]; naive_solver.
Qed.

Lemma sorted_app_remove a x b :
  sorted_by by_priority (a ++ x :: b) -> sorted_by by_priority (a ++ b).
Proof.
  induction a as [|y a IH]; simpl; [by intros [_ ?]|]. intros [Hy Hs]. split; [|by apply IH].
  apply Forall_app in Hy as [H1 H2]. inversion H2; subst. by apply Forall_app.
Qed.

Lemma remove_first_wf i items x rest :
  well_formed items -> remove_first i items = Some (x, rest) -> well_formed rest.
Proof.
  intros [Hs Hn] H. apply remove_first_spec in H as (a & b & -> & -> & _ & _).
  split; [by eapply sorted_app_remove|].
  rewrite map_app in *. simpl in Hn. rewrite NoDup_app in *. destruct Hn as (Ha & Hd & Hb).
  inversion Hb; subst. split; [done|]. split; [|done]. intros z Hz Hz'. apply (Hd z Hz). by right.
Qed.

(** ** Properties *)

(** a successful enqueue leaves the queue sorted by priority with the
    transfer in it exactly once, after the transfers of the same priority
    that were already waiting, and every transfer of another id kept, in its
    order within its priority; a failed one leaves the queue as it was. *)
Theorem enqueue_spec f d t :
  let (ok, d') := enqueue true f d t in
  let before := list_items true d in
  let after := list_items true d' in
  if ok then
    sorted_by by_priority after
    /\ after ≡ₚ List.filter (fun i => negb (bool_decide (id i = id t))) before ++ [t]
    /\ (forall p, List.filter (fun i => priority i =? p) after
         = List.filter (fun i => priority i =? p)
             (List.filter (fun i => negb (bool_decide (id i = id t))) before ++ [t]))
  else after = before.
Proof.
  unfold enqueue. pose proof (save_spec f d (enqueue_items (list_items true d) t)) as S.
  destruct (save f d _) as [ok d'] eqn:E. simpl in S. rewrite S. destruct ok; [|done].
  split; [apply sort_by_sorted; [apply by_priority_total | apply by_priority_trans]|].
  split; [apply sort_by_perm|]. intros p. unfold enqueue_items.
  apply sort_by_stable; [apply by_priority_total | apply by_priority_trans |].
  unfold by_priority. lia.
Qed.

(** a dequeue removes the transfer of that id and no other, an unknown id
    changes nothing, and no failure loses a transfer. *)
Theorem dequeue_spec f d i :
  well_formed (list_items true d) ->
  match dequeue true f d i with
  | (Some (Some x), d') =>
      id x = i /\ x ∈ list_items true d
      /\ list_items true d' = List.filter (fun y => negb (bool_decide (id y = i))) (list_items true d)
  | (Some None, d') => d' = d /\ Forall (fun y => id y <> i) (list_items true d)
  | (None, d') => list_items true d' = list_items true d
  end.
Proof.
  intros [_ Hn]. unfold dequeue. destruct (remove_first i (list_items true d)) as [[x rest]|] eqn:E.
  - pose proof (save_spec f d rest) as S. destruct (save f d rest) as [ok d'] eqn:Es. simpl in S.
    destruct ok; [|done]. rewrite S. apply remove_first_spec in E as (a & b & El & -> & Hi & F).
    rewrite El in Hn |- *. split; [done|]. split; [apply elem_of_app; right; left|].
    assert (G : forall l, Forall (fun y => id y <> i) l ->
              List.filter (fun y => negb (bool_decide (id y = i))) l = l).
    { induction 1 as [|y l Hy Hl IH]; simpl; [done|]. by rewrite bool_decide_eq_false_2, IH. }
    rewrite List.filter_app. simpl. rewrite bool_decide_eq_true_2 by done. simpl.
    rewrite !G; [done| |done]. rewrite map_app in Hn. simpl in Hn.
    rewrite NoDup_app in Hn. destruct Hn as (_ & _ & Hb). inversion Hb as [|? ? Hx _]; subst.
    apply Forall_forall. intros y Hy Ey. apply Hx. rewrite <- Ey.
    by apply list_elem_of_In, in_map, list_elem_of_In.
  - split; [done|]. by apply remove_first_None.
Qed.

(** in every state reached from a well-formed queue by enqueues, dequeues
    and drains, failing or not, the queue on disk is sorted by priority and
    holds no id twice. *)
Theorem queue_invariant d d' :
  well_formed (list_items true d) -> rtc step d d' -> well_formed (list_items true d').
Proof.
  intros Hw H. induction H as [d|d d1 d2 Hs _ IH]; [done|]. apply IH. clear IH.
  destruct Hs as [f d t|f d i|f d].
  - unfold enqueue. rewrite save_spec. destruct (fst _); [by apply enqueue_items_wf|done].
  - unfold dequeue. destruct (remove_first i (list_items true d)) as [[x rest]|] eqn:E; [|done].
    pose proof (save_spec f d rest) as S. destruct (save f d rest) as [ok d']. simpl in *. rewrite S.
    destruct ok; [by eapply remove_first_wf|done].
  - unfold drain. pose proof (save_spec f d []) as S. destruct (save f d []) as [ok d'].
    simpl in *. rewrite S. destruct ok; [split; [done|constructor]|done].
Qed.

(** a queue file that exists but cannot be read is taken for an empty
    queue, and the next enqueue overwrites it: the waiting transfers are lost. *)
Theorem unreadable_queue_is_overwritten d t :
  list_items true (snd (enqueue false None d t)) = [t].
Proof.
  unfold enqueue. rewrite save_spec. unfold list_items, enqueue_items. simpl.
  by destruct (queue_file d).
Qed.
End Queue.

(** A concrete printer: the number that encodes the list. *)
Definition to_tuple (t : QueuedTransfer) :=
  (id t, local_path t, relative_path t, storage_node_id t, op t, size_bytes t, sha256 t,
   priority t, attempts t, created_at t).

Definition coded_json : Json.
Proof.
  refine {| to_string_pretty l := [Zpos (encode (map to_tuple l))];
            from_str s :=
              match s with
              | [Zpos p] =>
                  option_map (map (fun '(i, lp, rp, sn, o, sz, h, pr, a, c) =>
                    {| id := i; local_path := lp; relative_path := rp; storage_node_id := sn; op := o;
                       size_bytes := sz; sha256 := h; priority := pr; attempts := a; created_at := c |}))
                    (decode p)
              | _ => None
              end |}.
  intros l. rewrite decode_encode. simpl. f_equal. rewrite map_map.
  rewrite <- (map_id l) at 2. apply map_ext. by intros [].
Defined.

Definition demo_transfer (n p : Z) : QueuedTransfer :=
  {| id := [n]; local_path := []; relative_path := []; storage_node_id := None; op := lit "upload";
     size_bytes := 1; sha256 := None; priority := p; attempts := 0; created_at := [] |}.

Definition demo_disk : Disk :=
  {| queue_file := Some (to_string_pretty (Json := coded_json) [demo_transfer 1 9; demo_transfer 2 4]);
     tmp_file := None |}.

Lemma demo_wf : well_formed (list_items (J := coded_json) true demo_disk).
Proof.
  unfold demo_disk. rewrite list_saved. split; [by vm_compute; repeat constructor|].
  apply (bool_decide_eq_true_1 _). vm_compute. reflexivity.
Qed.

Lemma dequeue_witness :
  match dequeue (J := coded_json) true None demo_disk [1] with
  | (Some (Some x), d') => id x = [1] /\ x ∈ list_items (J := coded_json) true demo_disk
        /\ list_items (J := coded_json) true d'
           = List.filter (fun y => negb (bool_decide (id y = [1]))) (list_items (J := coded_json) true demo_disk)
  | (Some None, d') => d' = demo_disk
        /\ Forall (fun y => id y <> [1]) (list_items (J := coded_json) true demo_disk)
  | (None, d') => list_items (J := coded_json) true d' = list_items (J := coded_json) true demo_disk
  end.
Proof. apply (dequeue_spec (J := coded_json) None demo_disk [1]). apply demo_wf. Defined.

Lemma queue_invariant_witness :
  well_formed (list_items (J := coded_json) true
    (snd (enqueue (J := coded_json) true None demo_disk (demo_transfer 3 5)))).
Proof.
  apply (queue_invariant (J := coded_json) demo_disk); [apply demo_wf|].
  eapply rtc_l; [apply (step_enqueue (J := coded_json) None demo_disk (demo_transfer 3 5))|]. apply rtc_refl.
Defined.
End Queue.
