(* ===== verification/Identity.v ===== *)
(** * Identity: logical identifiers of the agent

    agent/src/identity.rs: the pcos:// URI of a device, a storage node or a
    file, its Display and its FromStr. *)

From S2P Require Import Prelude Text Externals.

Module Identity.

Record PcosUri := { cloud_id : rstr; device_id : Z; node_id : option Z; file_id : option Z }.

Record NodeIdentity := {
  user_id : Z; ni_cloud_id : rstr; ni_device_id : Z; storage_node_id : Z;
  device_name : rstr; device_type : rstr
}.

Section Identity.
Context {UT : UuidText}.

(** fmt::Display *)
Definition to_string (u : PcosUri) : rstr :=
  lit "pcos://cloud/" ++ cloud_id u ++ lit "/device/" ++ uuid_to_string (device_id u)
  ++ match node_id u with Some node => lit "/node/" ++ uuid_to_string node | None => [] end
  ++ match file_id u with Some file => lit "/file/" ++ uuid_to_string file | None => [] end.

(** The [while i < parts.len()] loop over the parts after the device. *)
Fixpoint scan (parts : list rstr) (node file : option Z) : rstr + (option Z * option Z) :=
  match parts with
  | [] => inr (node, file)
  | p :: rest =>
      match rest with
      | v :: rest' =>
          if bool_decide (p = lit "node") then
            match uuid_parse_str v with
            | Some u => scan rest' (Some u) file
            | None => inl (uuid_error v)
            end
          else if bool_decide (p = lit "file") then
            match uuid_parse_str v with
            | Some u => scan rest' node (Some u)
            | None => inl (uuid_error v)
            end
          else scan rest node file
      | [] => scan rest node file
      end
  end.

(** FromStr *)
Definition from_str (s : rstr) : rstr + PcosUri :=
  let trimmed := trim s in
  match strip_prefix (lit "pcos://cloud/") trimmed with
  | None => inl (lit "Invalid PCOS URI format: must start with pcos://cloud/")
  | Some rest =>
      match split_char (chr "/") rest with
      | p0 :: p1 :: p2 :: parts =>
          if bool_decide (p1 = lit "device") then
            match uuid_parse_str p2 with
            | None => inl (uuid_error p2)
            | Some dev =>
                match scan parts None None with
                | inl e => inl e
                | inr (node, file) =>
                    inr {| cloud_id := p0; device_id := dev; node_id := node; file_id := file |}
                end
            end
          else inl (lit "Invalid PCOS URI format: expected pcos://cloud/<cloud_id>/device/<device_id>")
      | _ => inl (lit "Invalid PCOS URI format: expected pcos://cloud/<cloud_id>/device/<device_id>")
      end
  end.

(** cfg(target_os): the device type is fixed at compile time. *)
Definition detect_platform_device_type (android_or_ios : bool) : rstr :=
  if android_or_ios then lit "phone" else lit "desktop".

Definition new_identity (mobile : bool) (device node : Z) (cloud : rstr) (user : Z) (name : rstr) : NodeIdentity :=
  {| user_id := user; ni_cloud_id := cloud; ni_device_id := device; storage_node_id := node;
     device_name := name; device_type := detect_platform_device_type mobile |}.

Definition to_uri (n : NodeIdentity) : PcosUri :=
  {| cloud_id := ni_cloud_id n; device_id := ni_device_id n;
     node_id := Some (storage_node_id n); file_id := None |}.

(** ** Lemmas *)

Definition wf_uri (u : PcosUri) : Prop :=
  chr "/" ∉ cloud_id u /\ is_uuid (device_id u)
  /\ (forall n, node_id u = Some n -> is_uuid n) /\ (forall f, file_id u = Some f -> is_uuid f).

Lemma uuid_no_slash u : chr "/" ∉ uuid_to_string u.
Proof.
  pose proof (uuid_to_string_chars u) as H. rewrite Forall_forall in H.
  intros Hin. by specialize (H _ Hin).
Qed.

Lemma uuid_last u : exists r c, uuid_to_string u = r ++ [c] /\ is_whitespace c = false.
Proof.
  pose proof (uuid_to_string_length u) as L. pose proof (uuid_to_string_chars u) as C.
  destruct (uuid_to_string u) as [|c r _] using rev_ind; [done|]. exists r, c. split; [done|].
  apply Forall_app in C as [_ C]. inversion C as [|? ? Hc _]; subst.
  unfold uuid_char, is_ascii_digit, is_whitespace in *. change (chr "-") with 45 in Hc. lia.
Qed.

(** The part of the text after the device, as pieces between slashes. *)
Definition tail_parts (u : PcosUri) : list rstr :=
  match node_id u with Some n => [lit "node"; uuid_to_string n] | None => [] end
  ++ match file_id u with Some f => [lit "file"; uuid_to_string f] | None => [] end.

Lemma split_uuid_then u rest :
  split_char (chr "/") (uuid_to_string u ++ chr "/" :: rest)
  = uuid_to_string u :: split_char (chr "/") rest.
Proof. apply split_char_app, uuid_no_slash. Qed.

Lemma split_word_then (w : string) rest :
  contains_char (chr "/") (lit w) = false ->
  split_char (chr "/") (lit w ++ chr "/" :: rest) = lit w :: split_char (chr "/") rest.
Proof. intros H. apply split_char_app. by apply contains_char_false. Qed.

Lemma split_uri u :
  chr "/" ∉ cloud_id u ->
  exists rest, to_string u = lit "pcos://cloud/" ++ rest
    /\ split_char (chr "/") rest
       = cloud_id u :: lit "device" :: uuid_to_string (device_id u) :: tail_parts u.
Proof.
  intros Hc. unfold to_string. eexists. split; [reflexivity|].
  change (lit "/device/") with (chr "/" :: lit "device" ++ chr "/" :: []).
  rewrite <- app_comm_cons, split_char_app by done. f_equal.
  rewrite <- app_assoc. cbn [app]. rewrite split_word_then by reflexivity. f_equal.
  change (lit "/node/") with (chr "/" :: lit "node" ++ chr "/" :: []).
  change (lit "/file/") with (chr "/" :: lit "file" ++ chr "/" :: []).
  unfold tail_parts. destruct (node_id u) as [n|], (file_id u) as [f|]; cbn [app];
    repeat first [ rewrite <- app_assoc; cbn [app] | rewrite app_nil_r | rewrite split_uuid_then
                 | rewrite split_word_then by reflexivity
                 | rewrite split_char_last by apply uuid_no_slash ]; reflexivity.
Qed.

Lemma scan_tail u :
  wf_uri u -> scan (tail_parts u) None None = inr (node_id u, file_id u).
Proof.
  intros (_ & _ & Hn & Hf). unfold tail_parts.
  destruct (node_id u) as [n|], (file_id u) as [f|]; cbn [app scan];
    repeat first [ rewrite bool_decide_eq_true_2 by done
                 | rewrite uuid_parse_to_string by eauto
                 | rewrite bool_decide_eq_false_2 by done ]; reflexivity.
Qed.

Lemma to_string_trim u : trim (to_string u) = to_string u.
Proof.
  apply trim_fixed.
  - unfold to_string. change (lit "pcos://cloud/") with (112 :: lit "cos://cloud/").
    intros c r. rewrite <- app_comm_cons. intros [= <- _]. reflexivity.
  - assert (E : exists r c, to_string u = r ++ [c] /\ is_whitespace c = false).
    { unfold to_string.
      destruct (uuid_last (device_id u)) as (rd & cd & Ed & Wd).
      destruct (node_id u) as [n|], (file_id u) as [f|].
      - destruct (uuid_last f) as (rf & cf & Ef & Wf). rewrite Ef. eexists _, cf.
        split; [rewrite !app_assoc; reflexivity|done].
      - destruct (uuid_last n) as (rf & cf & Ef & Wf). rewrite Ef, app_nil_r. eexists _, cf.
        split; [rewrite !app_assoc; reflexivity|done].
      - destruct (uuid_last f) as (rf & cf & Ef & Wf). rewrite Ef. eexists _, cf.
        split; [rewrite !app_assoc; reflexivity|done].
      - rewrite Ed, !app_nil_r. eexists _, cd. split; [rewrite !app_assoc; reflexivity|done]. }
    destruct E as (r0 & c0 & E & W). intros c r Hr. rewrite E in Hr.
    apply app_inj_tail in Hr as [_ <-]. done.
Qed.

Lemma scan_wf parts n f n' f' :
  scan parts n f = inr (n', f') ->
  (forall u, n = Some u -> is_uuid u) -> (forall u, f = Some u -> is_uuid u) ->
  (forall u, n' = Some u -> is_uuid u) /\ (forall u, f' = Some u -> is_uuid u).
Proof.
  assert (G : forall k parts n f, (length parts <= k)%nat -> scan parts n f = inr (n', f') ->
    (forall u, n = Some u -> is_uuid u) -> (forall u, f = Some u -> is_uuid u) ->
    (forall u, n' = Some u -> is_uuid u) /\ (forall u, f' = Some u -> is_uuid u)).
  { induction k as [|k IH]; intros [|p [|v rest]] n0 f0 L H Hn Hf; simpl in L, H;
      simplify_eq; try done; try lia.
    case_match; [|case_match].
    - destruct (uuid_parse_str v) as [u|] eqn:E; [|done]. apply uuid_parse_range in E.
      apply (IH rest (Some u) f0); [lia|done|naive_solver|done].
    - destruct (uuid_parse_str v) as [u|] eqn:E; [|done]. apply uuid_parse_range in E.
      apply (IH rest n0 (Some u)); [lia|done|done|naive_solver].
    - apply (IH (v :: rest) n0 f0); [simpl; lia|done..]. }
  by apply (G (length parts)).
Qed.

(** ** Properties *)

(** printing a well-formed URI and parsing the text, with any white space
    around it removed, gives the URI back; everything that parses is
    well-formed, so parsing, printing and parsing again is parsing. *)
Theorem uri_roundtrip :
  (forall u, wf_uri u -> from_str (to_string u) = inr u)
  /\ (forall s u, from_str s = inr u -> wf_uri u /\ from_str (to_string u) = inr u).
Proof.
  assert (A : forall u, wf_uri u -> from_str (to_string u) = inr u).
  { intros u Hu. unfold from_str. rewrite to_string_trim.
    destruct (split_uri u (proj1 Hu)) as (rest & E & S).
    rewrite (proj2 (strip_prefix_iff _ _ _) E), S, bool_decide_eq_true_2 by done.
    destruct Hu as (Hc & Hd & Ho). rewrite uuid_parse_to_string by done.
    rewrite scan_tail by done. by destruct u. }
  split; [exact A|]. intros s u H. assert (W : wf_uri u); [|by split; [|apply A]].
  unfold from_str in H. destruct (strip_prefix _ _) as [rest|]; [|done].
  destruct (split_char (chr "/") rest) as [|p0 [|p1 [|p2 parts]]] eqn:S; try done.
  destruct (bool_decide (p1 = lit "device")); [|done].
  destruct (uuid_parse_str p2) as [dev|] eqn:E; [|done].
  destruct (scan parts None None) as [|[n f]] eqn:Sc; [done|]. injection H as <-.
  apply scan_wf in Sc; [|done..]. apply uuid_parse_range in E.
  split; [|split; [done|exact Sc]]. simpl. apply (split_char_pieces _ rest). rewrite S. left.
Qed.
End Identity.
End Identity.
