(* ===== verification/Base64.v ===== *)
(** * Base64: the codec of the agent's file handler

    agent/src/fs_handler.rs, [base64_encode] and [base64_decode]. *)

From S2P Require Import Prelude Text Bits.

Module Base64.

Definition TABLE : rstr := lit "ABCDEFGHIJKLMNOPQRSTUVWXYZabcdefghijklmnopqrstuvwxyz0123456789+/".

Definition sym (v : Z) : Z := nth (Z.to_nat v) TABLE 0.

(** One turn of [for chunk in data.chunks(3)]. *)
Definition encode_chunk (chunk : bytes) : rstr :=
  let b0 := nth 0 chunk 0 in
  let b1 := if (1 <? length chunk)%nat then nth 1 chunk 0 else 0 in
  let b2 := if (2 <? length chunk)%nat then nth 2 chunk 0 else 0 in
  let n := Z.lor (Z.lor (Z.shiftl b0 16) (Z.shiftl b1 8)) b2 in
  [ sym (Z.land (Z.shiftr n 18) 63);
    sym (Z.land (Z.shiftr n 12) 63);
    if (1 <? length chunk)%nat then sym (Z.land (Z.shiftr n 6) 63) else chr "=";
    if (2 <? length chunk)%nat then sym (Z.land n 63) else chr "=" ].

Fixpoint base64_encode (data : bytes) : rstr :=
  match data with
  | b0 :: b1 :: b2 :: rest => encode_chunk [b0; b1; b2] ++ base64_encode rest
  | [] => []
  | chunk => encode_chunk chunk
  end.

(** The value of a character: [None] is an invalid character, [Some None] a
    skipped one. *)
Definition char_value (ch : Z) : option (option Z) :=
  if is_ascii_upper ch then Some (Some (ch - 65))
  else if is_ascii_lower ch then Some (Some (ch - 97 + 26))
  else if is_ascii_digit ch then Some (Some (ch - 48 + 52))
  else if ch =? chr "+" then Some (Some 62)
  else if ch =? chr "/" then Some (Some 63)
  else if is_whitespace ch then Some None
  else None.

Fixpoint decode_loop (s : rstr) (buffer bits : Z) : rstr + bytes :=
  match s with
  | [] => inr []
  | ch :: s' =>
      if ch =? chr "=" then inr []
      else
        match char_value ch with
        | None => inl (lit "Invalid base64 character: " ++ [ch])
        | Some None => decode_loop s' buffer bits
        | Some (Some val) =>
            let buffer := Z.lor (wrap_u32 (Z.shiftl buffer 6)) val in
            let bits := bits + 6 in
            if 8 <=? bits then
              let bits := bits - 8 in
              match decode_loop s' buffer bits with
              | inr out => inr (Z.land (Z.shiftr buffer bits) 0xFF :: out)
              | inl e => inl e
              end
            else decode_loop s' buffer bits
        end
  end.

Definition base64_decode (encoded : rstr) : rstr + bytes :=
  let clean := trim encoded in
  if negb (nonempty clean) then inr [] else decode_loop clean 0 0.

(** ** Lemmas *)

Lemma sym_facts v : 0 <= v < 64 ->
  char_value (sym v) = Some (Some v) /\ (sym v =? chr "=") = false /\ is_whitespace (sym v) = false.
Proof.
  intros Hv.
  assert (A : forallb (fun i => bool_decide (char_value (sym (Z.of_nat i)) = Some (Some (Z.of_nat i)))
      && negb (sym (Z.of_nat i) =? chr "=") && negb (is_whitespace (sym (Z.of_nat i))))
    (seq 0 64) = true) by (vm_compute; reflexivity).
  rewrite forallb_forall in A. specialize (A (Z.to_nat v)). rewrite Z2Nat.id in A by lia.
  assert (I : In (Z.to_nat v) (seq 0 64)) by (apply in_seq; lia). specialize (A I).
  apply andb_true_iff in A as [A A3]. apply andb_true_iff in A as [A1 A2].
  apply bool_decide_eq_true in A1. apply negb_true_iff in A2, A3. done.
Qed.

Lemma mask_63 v : Z.land v 63 = Z.land v (Z.ones (Z.of_nat 6)).
Proof. reflexivity. Qed.

(** Four symbols carry the 24 bits of three bytes. *)
Lemma word_bits b0 b1 b2 :
  is_byte b0 -> is_byte b1 -> is_byte b2 ->
  let n := Z.lor (Z.lor (Z.shiftl b0 16) (Z.shiftl b1 8)) b2 in
  tobits 24 n = tobits 8 b0 ++ tobits 8 b1 ++ tobits 8 b2.
Proof.
  intros H0 H1 H2 n. unfold n.
  replace (Z.lor (Z.shiftl b0 16) (Z.shiftl b1 8)) with (Z.shiftl (Z.lor (Z.shiftl b0 8) b1) 8).
  - etransitivity; [exact (tobits_lor 16 8 (Z.lor (Z.shiftl b0 8) b1) b2 H2)|].
    rewrite app_assoc. f_equal. exact (tobits_lor 8 8 b0 b1 H1).
  - by rewrite Z.shiftl_lor, Z.shiftl_shiftl by lia.
Qed.

Lemma word_digits n :
  tobits 24 n = digits_bits 6 [Z.land (Z.shiftr n 18) 63; Z.land (Z.shiftr n 12) 63;
                               Z.land (Z.shiftr n 6) 63; Z.land n 63].
Proof.
  rewrite !digits_bits_cons, digits_bits_nil, app_nil_r.
  etransitivity; [exact (tobits_take 6 18 n)|]. f_equal.
  etransitivity; [exact (tobits_take 6 12 n)|]. f_equal.
  etransitivity; [exact (tobits_take 6 6 n)|]. f_equal.
  symmetry. by apply (tobits_land 6 n 6).
Qed.

Lemma digit6 v : 0 <= Z.land v 63 < 2 ^ Z.of_nat 6.
Proof. rewrite mask_63. apply land_digit. Qed.

(** An encoding is the symbols of 6-bit digits, then the padding. *)
Lemma encode_spec data :
  are_bytes data ->
  exists ds k pad, base64_encode data = map sym ds ++ replicate k (chr "=")
    /\ digits 6 ds /\ (length pad < 6)%nat /\ digits_bits 6 ds = digits_bits 8 data ++ pad
    /\ (data <> [] -> ds <> []).
Proof.
  assert (Z0 : is_byte 0) by (unfold is_byte; lia).
  assert (G : forall m data, (length data <= m)%nat -> are_bytes data ->
    exists ds k pad, base64_encode data = map sym ds ++ replicate k (chr "=")
      /\ digits 6 ds /\ (length pad < 6)%nat /\ digits_bits 6 ds = digits_bits 8 data ++ pad
      /\ (data <> [] -> ds <> [])).
  { clear data. induction m as [|m IH]; intros data Hm Hd.
    { destruct data; [|simpl in Hm; lia]. exists [], O, []. repeat split; [constructor|simpl; lia|done]. }
    destruct data as [|b0 [|b1 [|b2 rest]]].
    - exists [], O, []. repeat split; [constructor|simpl; lia|done].
    - inversion Hd as [|? ? H0 _]; subst. pose proof (word_bits b0 0 0 H0 Z0 Z0) as W.
      cbv zeta in W. rewrite word_digits, !digits_bits_cons, digits_bits_nil, app_nil_r in W.
      set (n := Z.lor _ 0) in *.
      exists [Z.land (Z.shiftr n 18) 63; Z.land (Z.shiftr n 12) 63], 2%nat, (replicate 4 false).
      split; [reflexivity|]. split; [repeat constructor; apply digit6|]. split; [simpl; lia|].
      split; [|done]. rewrite !digits_bits_cons, !digits_bits_nil, !app_nil_r.
      apply (f_equal (take 12)) in W. exact W.
    - inversion Hd as [|? ? H0 Hd']; subst. inversion Hd' as [|? ? H1 _]; subst.
      pose proof (word_bits b0 b1 0 H0 H1 Z0) as W.
      cbv zeta in W. rewrite word_digits, !digits_bits_cons, digits_bits_nil, app_nil_r in W.
      set (n := Z.lor _ 0) in *.
      exists [Z.land (Z.shiftr n 18) 63; Z.land (Z.shiftr n 12) 63; Z.land (Z.shiftr n 6) 63], 1%nat,
        (replicate 2 false).
      split; [reflexivity|]. split; [repeat constructor; apply digit6|]. split; [simpl; lia|].
      split; [|done]. rewrite !digits_bits_cons, !digits_bits_nil, !app_nil_r.
      apply (f_equal (take 18)) in W. exact W.
    - inversion Hd as [|? ? H0 Hd']; subst. inversion Hd' as [|? ? H1 Hd'']; subst.
      inversion Hd'' as [|? ? H2 Hr]; subst.
      destruct (IH rest) as (ds & k & pad & E & D & P & B & _); [simpl in Hm; lia|done|].
      set (n := Z.lor (Z.lor (Z.shiftl b0 16) (Z.shiftl b1 8)) b2).
      exists ([Z.land (Z.shiftr n 18) 63; Z.land (Z.shiftr n 12) 63; Z.land (Z.shiftr n 6) 63;
               Z.land n 63] ++ ds), k, pad.
      cbn [base64_encode]. rewrite E, map_app, <- app_assoc. split; [reflexivity|].
      split; [apply Forall_app; split; [repeat constructor; apply digit6|done]|]. split; [done|].
      split; [|done]. rewrite digits_bits_app, B, <- word_digits. unfold n. rewrite word_bits by done.
      rewrite !digits_bits_cons. by rewrite !app_assoc. }
  intros Hd. by apply (G (length data)).
Qed.

Lemma b64_decode_loop_spec ds k buffer b :
  digits 6 ds -> (b < 8)%nat ->
  exists out r, decode_loop (map sym ds ++ replicate k (chr "=")) buffer (Z.of_nat b) = inr out
    /\ digits 8 out /\ (length r < 8)%nat
    /\ tobits b buffer ++ digits_bits 6 ds = digits_bits 8 out ++ r.
Proof.
  intros Hd. revert buffer b. induction Hd as [|v ds Hv Hd IH]; intros buffer b Hb.
  - exists [], (tobits b buffer). rewrite tobits_length, digits_bits_nil, app_nil_r.
    split; [by destruct k|]. split; [constructor|done].
  - destruct (sym_facts v Hv) as (C & Q & _).
    cbn [map app decode_loop]. rewrite Q, C. set (buf := Z.lor _ v).
    replace (Z.of_nat b + 6) with (Z.of_nat (b + 6)) by lia.
    assert (P : tobits b buffer ++ tobits 6 v = tobits (b + 6) buf).
    { symmetry. apply (tobits_push b 6 32 buffer v Hv). lia. }
    rewrite digits_bits_cons, app_assoc, P.
    destruct (Z.leb_spec 8 (Z.of_nat (b + 6))).
    + replace (Z.of_nat (b + 6) - 8) with (Z.of_nat (b + 6 - 8)) by lia.
      destruct (IH buf (b + 6 - 8)%nat) as (out & r & -> & D & R & E); [lia|].
      eexists (_ :: out), r. split; [reflexivity|]. split; [|split; [done|]].
      * constructor; [apply (land_digit _ 8)|done].
      * replace (b + 6)%nat with (8 + (b + 6 - 8))%nat at 1 by lia.
        rewrite digits_bits_cons, <- app_assoc, <- E, app_assoc.
        change 255 with (Z.ones (Z.of_nat 8)). by rewrite <- (tobits_take 8).
    + destruct (IH buf (b + 6)%nat) as (out & r & -> & D & R & E); [lia|]. by exists out, r.
Qed.

(** ** Properties *)

(** decoding an encoding gives the bytes back, whatever their number. *)
Theorem base64_roundtrip data : are_bytes data -> base64_decode (base64_encode data) = inr data.
Proof.
  intros Hd. unfold base64_decode.
  destruct (encode_spec data Hd) as (ds & k & pad & E & D & P & B & N).
  assert (T : trim (base64_encode data) = base64_encode data).
  { apply trim_id. rewrite E. apply Forall_app. split.
    - apply Forall_forall. intros c Hc. apply list_elem_of_In, in_map_iff in Hc as (v & <- & Hv).
      unfold digits in D. rewrite Forall_forall in D.
      apply sym_facts. apply D. by apply list_elem_of_In.
    - by apply Forall_replicate. }
  rewrite T. destruct data as [|b data]; [done|].
  assert (nonempty (base64_encode (b :: data)) = true) as ->.
  { rewrite E. destruct ds; [by destruct N|done]. }
  cbn [negb]. rewrite E.
  destruct (b64_decode_loop_spec ds k 0 0 D ltac:(lia)) as (out & r & G & D' & R & B').
  change (Z.of_nat 0) with 0 in G. rewrite G. f_equal. rewrite B in B'. simpl in B'.
  apply (digits_bits_inj 8 out (b :: data) r pad); try done; lia.
Qed.

Lemma base64_roundtrip_witness :
  base64_decode (base64_encode [72; 105; 0; 255]) = inr [72; 105; 0; 255].
Proof. apply base64_roundtrip. repeat constructor; unfold is_byte; lia. Defined.
End Base64.
