(* ===== verification/Lan.v ===== *)
(** * Lan: request parsing of the LAN server and of the gateway

    agent/src/lan_server.rs ([is_path_permitted], [parse_range],
    [constant_time_eq]) and the Range parser of
    backend/crates/file_metadata/src/handlers.rs. *)

From S2P Require Import Prelude Text Bits.

Module Lan.

(** ** Range headers *)

(** lan_server.rs: [parts] is never empty, so [parts[0]] does not panic. *)
Definition lan_parse_range (range_header : rstr) (total_size : Z) : option (Z * Z) :=
  match strip_prefix (lit "bytes=") range_header with
  | None => None
  | Some r =>
      match split_char (chr "-") r with
      | [] => None
      | p0 :: ps =>
          match parse_uint 10 u64_max p0 with
          | None => None
          | Some start =>
              let last := Z.max (total_size - 1) 0 in
              let end_ :=
                match ps with
                | p1 :: _ =>
                    if nonempty p1 then option_map (fun e => Z.min e last) (parse_uint 10 u64_max p1)
                    else Some last
                | [] => Some last
                end in
              match end_ with
              | None => None
              | Some e => if (start <=? e) && (start <? total_size) then Some (start, e) else None
              end
          end
      end
  end.

(** handlers.rs: [total - 1] wraps on an empty file. *)
Definition parse_range (range : rstr) (total : Z) : option (Z * Z) :=
  match strip_prefix (lit "bytes=") range with
  | None => None
  | Some r =>
      match split_char (chr "-") r with
      | [p0; p1] =>
          match parse_uint 10 u64_max p0 with
          | None => None
          | Some start =>
              let end_ := if nonempty p1 then parse_uint 10 u64_max p1 else Some (wrap_u64 (total - 1)) in
              match end_ with
              | None => None
              | Some e => if (e <? start) || (total <=? e) then None else Some (start, e)
              end
          end
      | _ => None
      end
  end.

(** ** Tokens and paths *)

Definition constant_time_eq (a b : rstr) : bool := ct_eq (as_bytes a) (as_bytes b).

Section Paths.
Context {U : Unicode}.

Definition is_slash (c : Z) : bool := (c =? chr "\") || (c =? chr "/").

(** The verbatim prefix of Windows and the trailing separators removed. *)
Definition clean_path (s : rstr) : rstr :=
  trim_end_by is_slash (trim_start_matches (lit "\\?\") s).

(** [cwd] is the canonical current directory, when there is one. *)
Definition is_path_permitted (target : rstr) (allowed_disks : list rstr) (cwd : option rstr) : bool :=
  let clean_target := clean_path (to_lowercase target) in
  match allowed_disks with
  | _ :: _ =>
      existsb (fun al =>
        let clean_al := clean_path (to_lowercase (trim al)) in
        bool_decide (clean_target = clean_al) || starts_with clean_al clean_target
        || starts_with clean_target clean_al) allowed_disks
  | [] =>
      match cwd with
      | Some cwd =>
          let clean_cwd := clean_path (to_lowercase cwd) in
          bool_decide (clean_target = clean_cwd) || starts_with clean_cwd clean_target
      | None => false
      end
  end.

(** [p] is [dir] or lies below it. *)
Definition under (dir p : rstr) : Prop := p = dir \/ exists c r, is_slash c = true /\ p = dir ++ c :: r.

(** ** Properties *)

(** the two Range parsers return only non-empty ranges inside the file, and
    whatever the gateway accepts the LAN server accepts with the same range;
    the LAN server also clamps an end beyond the file, which the gateway
    refuses. *)
Theorem parse_range_spec h total :
  0 <= total < 2 ^ 64 ->
  (forall s e, parse_range h total = Some (s, e) ->
     0 <= s <= e /\ e < total /\ lan_parse_range h total = Some (s, e))
  /\ (forall s e, lan_parse_range h total = Some (s, e) -> 0 <= s <= e /\ e < total).
Proof.
  intros Ht. assert (U64 : 0 <= u64_max) by (unfold u64_max; lia).
  unfold parse_range, lan_parse_range. destruct (strip_prefix _ h) as [r|]; [|done].
  destruct (split_char (chr "-") r) as [|p0 ps]; [done|]. split; intros s e.
  - destruct ps as [|p1 [|]]; try done.
    destruct (parse_uint 10 u64_max p0) as [st|] eqn:E0; [|done].
    apply parse_uint_bound in E0; [|done..]. destruct (nonempty p1).
    + destruct (parse_uint 10 u64_max p1) as [en|] eqn:E1; [|done].
      apply parse_uint_bound in E1; [|done..]. cbn [option_map].
      destruct ((en <? st) || (total <=? en)) eqn:C; [done|]. intros [= <- <-].
      split; [lia|]. split; [lia|]. rewrite Z.min_l by lia.
      by replace ((st <=? en) && (st <? total)) with true by lia.
    + unfold wrap_u64.
      destruct (Z.eq_dec total 0) as [->|]; [|rewrite Z.mod_small by lia].
      * change ((0 - 1) mod 2 ^ 64) with u64_max. destruct ((u64_max <? st) || (0 <=? u64_max)) eqn:C; [done|].
        unfold u64_max in C. lia.
      * destruct ((total - 1 <? st) || (total <=? total - 1)) eqn:C; [done|]. intros [= <- <-].
        rewrite Z.max_l by lia. split; [lia|]. split; [lia|].
        by replace ((st <=? total - 1) && (st <? total)) with true by lia.
  - destruct (parse_uint 10 u64_max p0) as [st|] eqn:E0; [|done].
    apply parse_uint_bound in E0; [|done..].
    match goal with |- context [match ?x with Some _ => _ | None => None end] => set (o := x) end.
    assert (B : forall v, o = Some v -> v <= Z.max (total - 1) 0).
    { unfold o. intros v. destruct ps as [|p1 ps']; [intros [= <-]; lia|].
      destruct (nonempty p1); [|intros [= <-]; lia].
      destruct (parse_uint 10 u64_max p1); [|done]. intros [= <-]. lia. }
    destruct o as [en|]; [|done]. specialize (B en eq_refl).
    destruct ((st <=? en) && (st <? total)) eqn:C; [|done]. intros [= <- <-]. lia.
Qed.

(** the constant-time comparison of tokens decides equality of their
    bytes. *)
Theorem constant_time_eq_iff a b : constant_time_eq a b = true <-> as_bytes a = as_bytes b.
Proof. apply ct_eq_iff. Qed.

(** the permission check accepts everything at or under an allowed
    directory, but what it decides is only that one of the two cleaned texts
    is a prefix of the other: siblings whose name extends an allowed
    directory, and all its ancestors, are accepted too. *)
Theorem is_path_permitted_iff target allowed cwd :
  allowed <> [] ->
  (is_path_permitted target allowed cwd = true <->
     exists al, al ∈ allowed /\
       let t := clean_path (to_lowercase target) in
       let a := clean_path (to_lowercase (trim al)) in
       (exists r, t = a ++ r) \/ (exists r, a = t ++ r))
  /\ (forall al, al ∈ allowed ->
        under (clean_path (to_lowercase (trim al))) (clean_path (to_lowercase target)) ->
        is_path_permitted target allowed cwd = true).
Proof.
  intros Ha.
  assert (A : is_path_permitted target allowed cwd = true <->
     exists al, al ∈ allowed /\
       let t := clean_path (to_lowercase target) in
       let a := clean_path (to_lowercase (trim al)) in
       (exists r, t = a ++ r) \/ (exists r, a = t ++ r)).
  { destruct allowed as [|x xs]; [done|]. unfold is_path_permitted.
    rewrite existsb_exists. setoid_rewrite list_elem_of_In. split.
    - intros (al & Hin & H). exists al. split; [done|]. cbv zeta.
      apply orb_true_iff in H as [H|H]; [apply orb_true_iff in H as [H|H]|].
      + boolify. left. exists []. by rewrite app_nil_r.
      + left. by apply starts_with_iff.
      + right. by apply starts_with_iff.
    - intros (al & Hin & [H|H]); exists al; (split; [done|]); cbv zeta;
        apply starts_with_iff in H; rewrite H.
      + by rewrite orb_true_r.
      + apply orb_true_r. }
  split; [exact A|]. intros al Hin Hu. apply A. exists al. split; [done|]. left.
  destruct Hu as [->|(c & r & _ & ->)]; [exists []; by rewrite app_nil_r | by exists (c :: r)].
Qed.
End Paths.

(** with [/data/share] shared, the neighbour [/data/share-private] and the
    root of the file system are permitted. *)
Theorem is_path_permitted_leaks :
  let U := ascii_unicode in
  is_path_permitted (lit "/data/share-private/key.pem") [lit "/data/share"] None = true
  /\ is_path_permitted (lit "/") [lit "/data/share"] None = true
  /\ is_path_permitted (lit "/etc/passwd") [lit "/data/share"] None = false
  /\ is_path_permitted (lit "/etc/passwd") [lit "/data/share"; lit "/"] None = true.
Proof. vm_compute. done. Qed.

Lemma parse_range_witness :
  0 <= 10 <= 19 /\ 19 < 100 /\ lan_parse_range (lit "bytes=10-19") 100 = Some (10, 19).
Proof. apply (parse_range_spec (lit "bytes=10-19") 100); [lia | reflexivity]. Defined.

Lemma is_path_permitted_witness :
  is_path_permitted (U := ascii_unicode) (lit "/data/share/a.txt") [lit "/data/share"] None = true.
Proof.
  apply (is_path_permitted_iff (U := ascii_unicode) _ [lit "/data/share"] None) with (al := lit "/data/share").
  - discriminate.
  - apply list_elem_of_here.
  - right. exists 47, (lit "a.txt"). split; reflexivity.
Defined.
End Lan.
