(* ===== verification/Uploads.v ===== *)
(** * Uploads: the HTTP handlers of the file service

    backend/crates/file_metadata/src/handlers.rs: the multipart bodies of an
    upload and of a chunk, the download with its range, the preview, and the
    bodies that are validated before the service sees them. *)

From S2P Require Import Prelude Text Tables Effects Externals Schema Account Fs Storage Files Tree Tenancy Quota Sharing Http Lan.

Module Uploads.
Import Fs Files Tree Tenancy Sharing Http.

(** multer's Field::text: the content of a field as text, by the charset of its
    content type. *)
Class MultipartText := { field_text : option rstr -> bytes -> rstr }.

(** str::parse::<i32> *)
Definition parse_i32 (s : rstr) : option Z :=
  match s with
  | c :: r =>
      if c =? chr "-" then (if nonempty r then option_map Z.opp (parse_digits 10 (2 ^ 31) 0 r) else None)
      else parse_uint 10 (2 ^ 31 - 1) s
  | [] => None
  end.

(** #[validate(length(min = 1, max = 255))] on a name *)
Definition invalid_name (n : rstr) : list string :=
  if (1 <=? Z.of_nat (length n)) && (Z.of_nat (length n) <=? 255) then [] else ["name"%string].

Definition named (n : string) (f : Field) : bool := bool_decide (default [] (field_name f) = lit n).

Section Uploads.
Context {O : Oracle} {S2 : Sha256} {HX : Hex} {UT : UuidText} {MG : MimeGuess} {HV : HttpValues} {MX : MultipartText}.
Context (base : Fs.path) (validation_text : list string -> rstr).

Definition text_of (f : Field) : M Server rstr :=
  match content f with
  | inl e => throw (Validation e)
  | inr b => mret (field_text (field_type f) b)
  end.

Definition bytes_of (message : string) (f : Field) : M Server bytes :=
  match content f with
  | inl e => throw (Internal (lit message ++ e))
  | inr b => mret b
  end.

Definition uuid_or (message : string) (s : rstr) : M Server Z := ok_or (uuid_parse_str s) (Validation (lit message)).

(** ** Uploading a file *)

(** The loop over the fields: every field named "file" is uploaded, into the
    folder read last. *)
Fixpoint upload_fields (user_id : Z) (fields : list (rstr + Field)) (parent : option Z)
    (result : option FileEntryResponse) : M Server (option FileEntryResponse) :=
  match fields with
  | [] => mret result
  | inl e :: _ => throw (Validation e)
  | inr f :: rest =>
      if named "parent_id" f then
        text ← text_of f;
        parent' ← (if nonempty text then p ← uuid_or "Invalid parent_id" text; mret (Some p) else mret parent);
        upload_fields user_id rest parent' result
      else if named "file" f then
        data ← bytes_of "Failed to read upload: " f;
        r ← Files.upload_file base user_id parent (default (lit "unnamed") (file_name f))
              (default (lit "application/octet-stream") (field_type f)) data;
        upload_fields user_id rest parent (Some r)
      else upload_fields user_id rest parent result
  end.

Definition upload_file (user_id : Z) (fields : list (rstr + Field)) : M Server FileEntryResponse :=
  file_result ← upload_fields user_id fields None None;
  ok_or file_result (Validation (lit "No file provided")).

(** ** Uploading a chunk *)

Fixpoint chunk_fields (user_id : Z) (fields : list (rstr + Field)) (upload_id chunk_index : option Z) : M Server unit :=
  match fields with
  | [] => throw (Validation (lit "No chunk data provided"))
  | inl e :: _ => throw (Validation e)
  | inr f :: rest =>
      if named "upload_id" f then
        text ← text_of f;
        u ← uuid_or "Invalid upload_id" text;
        chunk_fields user_id rest (Some u) chunk_index
      else if named "chunk_index" f then
        text ← text_of f;
        i ← ok_or (parse_i32 text) (Validation (lit "Invalid chunk_index"));
        chunk_fields user_id rest upload_id (Some i)
      else if named "chunk" f then
        uid ← ok_or upload_id (Validation (lit "upload_id must be sent before chunk"));
        idx ← ok_or chunk_index (Validation (lit "chunk_index must be sent before chunk"));
        data ← bytes_of "Read failed: " f;
        Files.store_chunk base user_id uid idx data
      else chunk_fields user_id rest upload_id chunk_index
  end.

Definition upload_chunk (user_id : Z) (fields : list (rstr + Field)) : M Server unit :=
  chunk_fields user_id fields None None.

(** ** Downloading *)

Definition OCTETS : rstr := lit "application/octet-stream".

(** The bytes behind an opened path. *)
Definition handle_content (f : Fs.fs) (p : Fs.path) : bytes :=
  match Fs.node_at f p with Some (Fs.File b) => b | _ => [] end.

Definition attachment (name : rstr) : rstr := lit "attachment; filename=" ++ quoted name.

Definition download_file (user_id file_id : Z) (range : option rstr) : M Server Response :=
  '(entry, file, total_size) ← open_file_for_download base user_id file_id;
  let content_type := default OCTETS (FileEntry.mime_type entry) in
  s ← get;
  let content := handle_content (disk s) file in
  match range ≫= (fun h => Lan.parse_range h total_size) with
  | Some (start, end_) =>
      let content_length := end_ - start + 1 in
      _ ← map_err (to_internal "Seek failed: ") (Storage.fs_read (fun _ => Some tt));
      build 206
        [(lit "content-type", content_type); (lit "content-disposition", attachment (FileEntry.name entry));
         (lit "content-length", show_int content_length);
         (lit "content-range", lit "bytes " ++ show_int start ++ lit "-" ++ show_int end_ ++ lit "/" ++ show_int total_size);
         (lit "accept-ranges", lit "bytes")]
        (take (Z.to_nat content_length) (drop (Z.to_nat start) content))
  | None =>
      build 200
        [(lit "content-type", content_type); (lit "content-disposition", attachment (FileEntry.name entry));
         (lit "content-length", show_int total_size); (lit "accept-ranges", lit "bytes");
         (lit "etag", quoted (default [] (FileEntry.sha256_hash entry)))] content
  end.

(** The headers of the answer are checked by axum, which answers 500 with the
    text of its error for a value it refuses. *)
Definition preview_file (header_error : rstr) (user_id file_id : Z) : M Server Response :=
  '(entry, data) ← Files.download_file base user_id file_id;
  let hs := [(lit "content-type", default OCTETS (FileEntry.mime_type entry));
             (lit "content-disposition", lit "inline; filename=" ++ quoted (FileEntry.name entry))] in
  if forallb (fun h => header_ok (snd h)) hs then mret {| status := 200; headers := hs; body := data |}
  else mret {| status := 500; headers := []; body := as_bytes header_error |}.

(** ** Validated bodies *)

Definition validated {A} (invalid : list string) (m : M Server A) : M Server A :=
  if nonempty invalid then throw (Validation (validation_text invalid)) else m.

Definition create_folder (user_id : Z) (req : CreateFolderRequest) : M Server FileEntryResponse :=
  validated (invalid_name (folder_name req)) (Files.create_folder user_id req).

Definition rename_item (user_id item_id : Z) (name : rstr) : M Server FileEntryResponse :=
  validated (invalid_name name) (Files.rename_item user_id item_id name).

(** The requests of a user that this file has a handler of its own for; the
    other routes call the operation of the service. *)
Inductive op :=
| Upload (fields : list (rstr + Field))
| Chunk (fields : list (rstr + Field))
| Download (file_id : Z) (range : option rstr)
| Preview (file_id : Z)
| NewFolder (req : CreateFolderRequest)
| Rename (item_id : Z) (name : rstr).

Definition run_op (header_error : rstr) (user_id : Z) (o : op) : M Server unit :=
  match o with
  | Upload fields => _ ← upload_file user_id fields; mret tt
  | Chunk fields => upload_chunk user_id fields
  | Download i range => _ ← download_file user_id i range; mret tt
  | Preview i => _ ← preview_file header_error user_id i; mret tt
  | NewFolder req => _ ← create_folder user_id req; mret tt
  | Rename i name => _ ← rename_item user_id i name; mret tt
  end.

(** ** What a multipart body asks for *)

(** The folder a field names, if it is a field that names one. *)
Definition folder_named (x : rstr + Field) : option Z :=
  match x with
  | inr f =>
      if named "parent_id" f then
        match content f with
        | inr b => let text := field_text (field_type f) b in if nonempty text then uuid_parse_str text else None
        | inl _ => None
        end
      else None
  | inl _ => None
  end.

(** The places of the files in a body, in order. *)
Definition is_file_field (x : option (rstr + Field)) : bool := match x with Some (inr f) => named "file" f | _ => false end.
Definition file_places (fields : list (rstr + Field)) (from n : nat) : list nat :=
  List.filter (fun i => is_file_field (fields !! i)) (seq from n).

(** The row of the file at a place of the body of a user's upload. *)
Definition row_for (u : Z) (fields : list (rstr + Field)) (i : nat) (row : FileEntry.row) : Prop :=
  exists f b, fields !! i = Some (inr f) /\ content f = inr b
    /\ FileEntry.user_id row = u /\ FileEntry.parent_id row = last (omap folder_named (take i fields))
    /\ FileEntry.name row = default (lit "unnamed") (file_name f) /\ FileEntry.entry_type row = lit "file"
    /\ FileEntry.mime_type row = Some (default (lit "application/octet-stream") (field_type f))
    /\ FileEntry.size_bytes row = Z.of_nat (length b) /\ FileEntry.sha256_hash row = Some (Storage.digest b)
    /\ FileEntry.is_trashed row = false.

(** What an answered upload of one file does. *)
Lemma service_row u parent n m b w r w' :
  Files.upload_file base u parent n m b w = (Ok r, w') ->
  exists row, r = response row /\ FileEntry.user_id row = u /\ FileEntry.parent_id row = parent
    /\ FileEntry.name row = n /\ FileEntry.entry_type row = lit "file" /\ FileEntry.mime_type row = Some m
    /\ FileEntry.size_bytes row = Z.of_nat (length b) /\ FileEntry.sha256_hash row = Some (Storage.digest b)
    /\ FileEntry.is_trashed row = false
    /\ data w' = set_file_entries (file_entries (data w) ++ [row]) (set_disk (disk (data w')) (data w)).
Proof.
  unfold Files.upload_file, insert_stored. intros H. run_ok H.
  apply verify_parent_tables in Hm. apply quota_tables in Hm0. apply Quota.store_file_result in Hm1 as [-> T].
  cbn [data snd fst] in *. injection Hm2 as <- E. eexists. split; [reflexivity|]. do 8 (split; [done|]).
  rewrite <- E, T. unfold tables_same in Hm0, Hm. rewrite Hm0, Hm. reflexivity.
Qed.

Lemma upload_fields_rows u fields pre rest parent answer w r w' :
  fields = pre ++ rest -> parent = last (omap folder_named pre) ->
  upload_fields u rest parent answer w = (Ok r, w') ->
  exists rows, data w' = set_file_entries (file_entries (data w) ++ rows) (set_disk (disk (data w')) (data w))
    /\ Forall2 (row_for u fields) (file_places fields (length pre) (length rest)) rows
    /\ r = match last rows with Some row => Some (response row) | None => answer end.
Proof.
  revert pre parent answer w. induction rest as [|x rest IH]; intros pre parent answer w E P H; cbn [upload_fields] in H.
  - run_ok H. exists []. rewrite app_nil_r. split; [by destruct (data w')|]. by split; [constructor|].
  - assert (E' : fields = (pre ++ [x]) ++ rest) by by rewrite <- app_assoc.
    assert (L : length (pre ++ [x]) = S (length pre)) by (rewrite length_app; cbn; lia).
    assert (At : fields !! length pre = Some x) by by rewrite E, lookup_app_r, Nat.sub_diag by lia.
    assert (G : forall parent' answer', is_file_field (Some x) = false -> parent' = last (omap folder_named (pre ++ [x])) ->
      upload_fields u rest parent' answer' w = (Ok r, w') ->
      exists rows, data w' = set_file_entries (file_entries (data w) ++ rows) (set_disk (disk (data w')) (data w))
        /\ Forall2 (row_for u fields) (file_places fields (length pre) (length (x :: rest))) rows
        /\ r = match last rows with Some row => Some (response row) | None => answer' end).
    { intros parent' answer' N P' H'. destruct (IH (pre ++ [x]) _ _ _ E' P' H') as (rows & D & F & A).
      exists rows. split; [done|]. split; [|done]. unfold file_places in *. cbn [length seq List.filter]. rewrite At, N, <- L. done. }
    rewrite omap_app in G. cbn [omap list_omap] in G.
    destruct x as [e|f]; [by apply throw_Ok in H|]. cbn [folder_named is_file_field] in G.
    destruct (named "parent_id" f) eqn:Np.
    + assert (Nf : named "file" f = false).
      { unfold named in *. boolify. rewrite Np. apply bool_decide_false. by vm_compute. }
      apply bind_Ok in H as (text & w1 & T & H). unfold text_of in T. destruct (content f) as [e|b]; [by apply throw_Ok in T|].
      apply ret_Ok in T as [Tx Tw]. subst text w1. apply bind_Ok in H as (q & w1 & T & H). cbv zeta in G.
      destruct (nonempty (field_text (field_type f) b)).
      * apply bind_Ok in T as (q' & w2 & T & Tq). apply ret_Ok in Tq as [Tx Tw]. subst. unfold uuid_or in T. apply ok_or_Ok in T as [T Tw]. subst.
        rewrite T in G. apply (G (Some q') answer); [done|by rewrite last_snoc|exact H].
      * apply ret_Ok in T as [Tx Tw]. subst. eapply G; [done|by rewrite app_nil_r|exact H].
    + rewrite app_nil_r in G. destruct (named "file" f) eqn:Nf; [|by eapply G].
      clear G. apply bind_Ok in H as (b & w1 & T & H). unfold bytes_of in T. destruct (content f) as [e|b'] eqn:Cf; [by apply throw_Ok in T|].
      apply ret_Ok in T as [Tx Tw]. subst b w1. apply bind_Ok in H as (r1 & w2 & T & H).
      apply service_row in T as (row & -> & Ru & Rp & Rn & Re & Rm & Rs & Rh & Rt & D1).
      destruct (IH (pre ++ [inr f]) parent (Some (response row)) w2 E') as (rows & D & F & A).
      { rewrite omap_app. cbn [omap list_omap folder_named]. rewrite Np. cbn. by rewrite app_nil_r. }
      { exact H. }
      exists (row :: rows). split; [|split].
      * rewrite D, D1. cbn [file_entries set_file_entries set_disk disk]. rewrite <- app_assoc. reflexivity.
      * unfold file_places in *. cbn [length seq List.filter]. rewrite At. cbn [is_file_field]. rewrite Nf. constructor; [|by rewrite <- L].
        exists f, b'. split_and!; try done. rewrite Rp, P, E. by rewrite take_app_length.
      * rewrite A. destruct rows as [|y rows]; [done|]. cbn [last]. by destruct (last (y :: rows)) eqn:X; [|apply last_None in X].
Qed.

(** C29: multipart bodies.  An answered upload adds one row for each field named
    "file" of its body, in their order: a file of the user with the name, type,
    size and digest of the field, in the folder of the last field before it that
    names one, or in the root.  There is at least one, the answer is about the
    last, and but for the disk the server is otherwise as it was. *)
Theorem multipart_rows u fields w r w' :
  upload_file u fields w = (Ok r, w') ->
  exists rows row, last rows = Some row /\ r = response row
    /\ data w' = set_file_entries (file_entries (data w) ++ rows) (set_disk (disk (data w')) (data w))
    /\ Forall2 (row_for u fields) (file_places fields 0 (length fields)) rows.
Proof.
  unfold upload_file. intros H. apply bind_Ok in H as (o & w1 & H & E). apply ok_or_Ok in E as [-> ->].
  apply (upload_fields_rows u fields []) in H as (rows & D & F & A); [|done|done].
  destruct (last rows) as [row|] eqn:L; [|done]. injection A as ->. by exists rows, row.
Qed.

(** ** What a download answers *)

Lemma open_for_download_Ok u i w e p n w' :
  open_file_for_download base u i w = (Ok (e, p, n), w') ->
  data w' = data w /\ e ∈ file_entries (data w) /\ owned_by u e = true /\ has_id i e = true /\ Account.is_file e = true
  /\ n = Z.of_nat (length (handle_content (disk (data w)) p))
  /\ (forall b, canonicalize (disk (data w)) base = Some b -> path_prefix b p = true).
Proof.
  unfold open_file_for_download, downloadable. intros H. run_ok H. injection H as <- <- <-.
  apply verify_ownership_Ok in Hm0 as (_ & -> & He & Ro). unfold Storage.open_file in Hm. run_ok Hm.
  apply Storage.resolve_path_Ok in Hm0 as [Hp D1]. apply Storage.fs_read_Ok in Hm as [Hc D2]. apply Storage.fs_read_Ok in Hm2 as [Hn D3].
  cbn [data fst snd] in *. rewrite D3, D2, D1. split; [done|]. split; [exact He|].
  unfold root_of in Ro. apply andb_true_iff in Ro as [R1 R2]. split; [exact R2|]. split; [exact R1|].
  split; [by apply negb_false_iff|]. split.
  - rewrite D2, D1 in Hn. unfold handle_content. destruct (node_at _ x) as [[]|]; try discriminate Hn; by injection Hn as <-.
  - intros b Hb. rewrite D1 in Hc. by apply (Storage.safe_resolve_target base _ _ _ _ _ Hb Hp Hc).
Qed.

Lemma parse_range_within h total s e : Lan.parse_range h total = Some (s, e) -> 0 <= s <= e /\ e < total.
Proof.
  unfold Lan.parse_range. destruct (strip_prefix _ h) as [r|]; [|done].
  destruct (split_char _ r) as [|p0 [|p1 [|]]]; try done. destruct (parse_uint 10 u64_max p0) as [st|] eqn:E0; [|done].
  apply parse_uint_bound in E0; [|done..]. destruct (if nonempty p1 then _ else _) as [en|]; [|done].
  destruct ((en <? st) || (total <=? en)) eqn:B; [done|]. intros [= <- <-]. apply orb_false_iff in B. lia.
Qed.

Lemma part_size {A} (c : list A) s n : 0 <= s <= n -> n < Z.of_nat (length c) ->
  Z.of_nat (length (take (Z.to_nat (n - s + 1)) (drop (Z.to_nat s) c))) = n - s + 1.
Proof. intros H1 H2. rewrite length_take, length_drop. lia. Qed.

(** downloads.  An answered download changes nothing.  It is of a file the
    caller owns, opened below the base directory; its body is the whole content,
    or, with status 206, the non-empty range the header asks for, cut at nothing;
    and the length it announces is the length of the body. *)
Theorem download_spec u i range w r w' :
  download_file u i range w = (Ok r, w') ->
  data w' = data w
  /\ exists e p, e ∈ file_entries (data w) /\ owned_by u e = true /\ has_id i e = true /\ Account.is_file e = true
     /\ (forall b, canonicalize (disk (data w)) base = Some b -> path_prefix b p = true)
     /\ In (lit "content-length", show_int (Z.of_nat (length (body r)))) (headers r)
     /\ let c := handle_content (disk (data w)) p in
        (status r = 200 /\ body r = c
         \/ status r = 206 /\ exists h s n, range = Some h /\ Lan.parse_range h (Z.of_nat (length c)) = Some (s, n)
              /\ 0 <= s <= n /\ n < Z.of_nat (length c)
              /\ body r = take (Z.to_nat (n - s + 1)) (drop (Z.to_nat s) c)).
Proof.
  unfold download_file. intros H. apply bind_Ok in H as ([[e p] n] & w1 & H1 & H). apply open_for_download_Ok in H1 as (D & He & Ou & Hi & Fi & -> & Pf).
  apply bind_Ok in H as (s0 & w2 & G & H). unfold get in G. injection G as <- <-. rewrite D in H.
  set (c := handle_content _ p) in *.
  destruct (range ≫= _) as [[s n]|] eqn:Rg.
  - destruct range as [h|]; [|done]. cbn [mbind option_bind] in Rg. destruct (parse_range_within _ _ _ _ Rg) as [B1 B2].
    apply bind_Ok in H as ([] & w3 & Sk & H). apply map_err_Ok, Storage.fs_read_Ok in Sk as [_ D3].
    apply build_Ok in H as [-> ->]. split; [by rewrite D3|]. exists e, p. do 5 (split; [done|]). cbn [headers body status].
    split; [right; right; left; by rewrite part_size|]. right. split; [done|]. by exists h, s, n.
  - apply build_Ok in H as [-> ->]. split; [done|]. exists e, p. do 5 (split; [done|]). cbn [headers body status].
    split; [right; right; by left|]. by left.
Qed.

(** ** Resuming *)

(** Reading that depends on the data alone. *)
Definition steady {A} (m : M Server A) : Prop :=
  forall w v, data v = data w -> fst (m v) = fst (m w) /\ data (snd (m v)) = data (snd (m w)).

Lemma steady_ret {A} (a : A) : steady (mret a).
Proof. by intros w v. Qed.

Lemma steady_throw {A} e : steady (throw (A := A) e).
Proof. by intros w v. Qed.

Lemma steady_ok_or {A} (o : option A) e : steady (ok_or o e).
Proof. destruct o; [apply steady_ret|apply steady_throw]. Qed.

Lemma steady_bind {A B} (m : M Server A) (k : A -> M Server B) : steady m -> (forall a, steady (k a)) -> steady (m ≫= k).
Proof.
  intros Hm Hk w v D. destruct (Hm w v D) as [F E]. unfold mbind, M_bind. destruct (m w) as [o w1], (m v) as [o' v1].
  cbn [fst snd] in *. subst o'. destruct o; try done. by apply Hk.
Qed.

Lemma steady_map_err {A} f (m : M Server A) : steady m -> steady (map_err f m).
Proof.
  intros Hm w v D. destruct (Hm w v D) as [F E]. unfold map_err. destruct (m w) as [o w1], (m v) as [o' v1].
  cbn [fst snd] in *. subst o'. by destruct o.
Qed.

Lemma steady_query {A} (f : Server -> A) : reliable O -> steady (query f).
Proof. intros R w v D. unfold query, statement. by rewrite !(proj1 (R _)), D. Qed.

Lemma steady_io {A} (f : Server -> rstr + (A * Server)) : reliable O -> steady (io f).
Proof. intros R w v D. unfold io. rewrite !(proj2 (R _)), D. by destruct (f (data w)) as [|[]]. Qed.

Lemma steady_get : steady get.
Proof. intros w v D. unfold get. by rewrite D. Qed.

Lemma steady_build code hs b : steady (build code hs b).
Proof. intros w v D. unfold build. by destruct (forallb _ hs). Qed.

Lemma steady_download u i range : reliable O -> steady (download_file u i range).
Proof.
  intros R. unfold download_file, open_file_for_download, downloadable, verify_ownership, Storage.open_file, Storage.resolve_path,
    Storage.fs_read.
  repeat first [apply steady_bind; [|intros ?] | apply steady_ret | apply steady_throw | apply steady_ok_or | apply steady_map_err
    | apply steady_query, R | apply steady_io, R | apply steady_get | apply steady_build | case_match].
Qed.

(** The header a client sends for the bytes from [a] to [b], or to the end. *)
Definition range_header (a : Z) (b : option Z) : rstr :=
  lit "bytes=" ++ show_uint a ++ chr "-" :: match b with Some e => show_uint e | None => [] end.

Lemma no_dash n : 0 <= n -> chr "-" ∉ show_uint n.
Proof.
  intros Hn H. destruct (show_uint_spec n Hn) as (_ & D & _). unfold digit_str in D. rewrite Forall_forall in D.
  apply D in H. discriminate H.
Qed.

Lemma strip_own pat s : strip_prefix pat (pat ++ s) = Some s.
Proof. by apply strip_prefix_iff. Qed.

Lemma parse_range_header a b total :
  0 <= a <= u64_max -> 0 <= total <= u64_max -> opt_all (fun e => (0 <=? e) && (e <=? u64_max)) b = true ->
  a <= default (total - 1) b < total ->
  Lan.parse_range (range_header a b) total = Some (a, default (total - 1) b).
Proof.
  intros Ha Ht Hb B. unfold Lan.parse_range, range_header. rewrite strip_own, split_char_app by (apply no_dash; lia).
  destruct b as [e|]; cbn [opt_all default Datatypes.id] in *.
  - rewrite split_char_last by (apply no_dash; lia). rewrite !parse_show_uint by lia.
    destruct (show_uint_spec e ltac:(lia)) as (_ & _ & N & _). assert (nonempty (show_uint e) = true) as -> by (by destruct (show_uint e)).
    replace ((e <? a) || (total <=? e)) with false by lia. done.
  - cbn [split_char nonempty]. rewrite parse_show_uint by lia. unfold wrap_u64. rewrite Z.mod_small by (unfold u64_max in *; lia).
    replace ((total - 1 <? a) || (total <=? total - 1)) with false by lia. done.
Qed.

(** What a whole answer says of every range of the same file. *)
Lemma range_run u i w r w1 a b :
  reliable O -> download_file u i None w = (Ok r, w1) ->
  let total := Z.of_nat (length (body r)) in
  total <= u64_max -> 0 <= a -> opt_all (fun e => (0 <=? e) && (e <=? u64_max)) b = true -> a <= default (total - 1) b < total ->
  forall v, data v = data w ->
  exists r' v', download_file u i (Some (range_header a b)) v = (Ok r', v') /\ status r' = 206 /\ data v' = data w
    /\ body r' = take (Z.to_nat (default (total - 1) b - a + 1)) (drop (Z.to_nat a) (body r)).
Proof.
  intros R H total Ht Ha Hb B v Dv.
  assert (G : exists r' w', download_file u i (Some (range_header a b)) w = (Ok r', w') /\ status r' = 206 /\ data w' = data w
    /\ body r' = take (Z.to_nat (default (total - 1) b - a + 1)) (drop (Z.to_nat a) (body r))).
  { unfold download_file in H. apply bind_Ok in H as ([[e p] n] & w2 & H1 & H). assert (H1' := H1).
    apply open_for_download_Ok in H1 as (D & _ & _ & _ & _ & -> & _).
    apply bind_Ok in H as (s0 & w3 & G & H). unfold get in G. injection G as <- <-. cbn [mbind option_bind] in H.
    unfold build in H. case_hyp H; [|not_ok H]. injection H as <- <-. cbn [body] in *.
    assert (Td : total = Z.of_nat (length (handle_content (disk (data w)) p))) by (unfold total; by rewrite D).
    rewrite D. clearbody total.
    unfold download_file. eapply ex_intro, ex_intro. split.
    { eapply bind_run; [exact H1'|]. eapply bind_run; [reflexivity|]. cbn [mbind option_bind]. rewrite D, <- Td.
      rewrite (parse_range_header a b total) by first [exact Hb | exact B | lia]. eapply bind_run; [unfold map_err; by rewrite (Storage.fs_read_ok _ _ tt R)|].
      unfold build. cbn [forallb snd] in E |- *. rewrite !andb_true_iff in E. destruct E as (E1 & E2 & _ & _).
      rewrite E1, E2, !header_ok_visible; [reflexivity|by repeat constructor| |apply visible_int].
      repeat apply visible_app; try apply visible_int; by repeat constructor. }
    cbn [status body data]. split; [done|]. split; [exact D|done]. }
  destruct G as (r' & w' & G & St & D & Bd). destruct (steady_download u i (Some (range_header a b)) R w v Dv) as [F Dd].
  rewrite G in F, Dd. destruct (download_file u i (Some (range_header a b)) v) as [o v']. cbn [fst snd] in *. subst o.
  exists r', v'. split; [done|]. split; [done|]. split; [congruence|done].
Qed.

(** C15: a download resumes.  With the environment answering, when the whole of a
    file is answered, then cutting it anywhere, the range before the cut and the
    open range from the cut on, asked for later and over the same data, are both
    answered, with status 206, and their bodies put together are the whole. *)
Theorem download_resumes u i w r w1 k v1 v2 :
  reliable O -> download_file u i None w = (Ok r, w1) -> 0 < k < Z.of_nat (length (body r)) ->
  Z.of_nat (length (body r)) <= u64_max -> data v1 = data w -> data v2 = data w ->
  exists r1 v1' r2 v2',
    download_file u i (Some (range_header 0 (Some (k - 1)))) v1 = (Ok r1, v1')
    /\ download_file u i (Some (range_header k None)) v2 = (Ok r2, v2')
    /\ status r1 = 206 /\ status r2 = 206 /\ body r1 ++ body r2 = body r.
Proof.
  intros R H K L D1 D2.
  destruct (range_run u i w r w1 0 (Some (k - 1)) R H L ltac:(lia) ltac:(cbn; lia) ltac:(cbn; lia) v1 D1) as (r1 & v1' & E1 & T1 & _ & B1).
  destruct (range_run u i w r w1 k None R H L ltac:(lia) ltac:(done) ltac:(cbn; lia) v2 D2) as (r2 & v2' & E2 & T2 & _ & B2).
  exists r1, v1', r2, v2'. do 4 (split; [done|]). rewrite B1, B2. cbn [default Datatypes.id]. rewrite drop_0.
  replace (Z.to_nat (k - 1 - 0 + 1)) with (Z.to_nat k) by lia. rewrite (take_ge (drop _ _)) by (rewrite length_drop; lia).
  apply take_drop.
Qed.
(** ** Tenants *)

Lemma upload_fields_isolated u fields parent answer :
  Tenancy.under (fun _ => True) u (upload_fields u fields parent answer).
Proof.
  revert parent answer. induction fields as [|[e|f] rest IH]; intros parent answer; cbn [upload_fields].
  - apply Tenancy.under_same. preserve.
  - apply Tenancy.under_throw.
  - unfold text_of, bytes_of, uuid_or. destruct (named "parent_id" f).
    { apply Tenancy.under_frame; [preserve|intros t]. apply Tenancy.under_frame; [preserve|intros p]. apply IH. }
    destruct (named "file" f); [|apply IH]. apply Tenancy.under_frame; [preserve|intros d].
    apply Tenancy.under_seq; [apply Tenancy.upload_under|intros r; apply IH].
Qed.

Lemma chunk_fields_tables u fields uid idx : preserves Tenancy.tables_same (chunk_fields u fields uid idx).
Proof.
  revert uid idx. induction fields as [|[e|f] rest IH]; intros uid idx; cbn [chunk_fields]; unfold text_of, bytes_of, uuid_or, Files.store_chunk;
    repeat first [apply IH | apply Tenancy.store_chunk_tables | progress preserve].
Qed.

Ltac reading :=
  repeat first [apply downloadable_tables | apply read_file_tables | apply open_file_tables | apply fs_read_tables | progress preserve].

Lemma uploads_isolated he u o w out w' : run_op he u o w = (out, w') -> Tenancy.isolated u (data w) (data w').
Proof.
  assert (G : Tenancy.under (fun _ => True) u (run_op he u o)); [|intros H; by eapply G].
  destruct o; cbn [run_op].
  - apply Tenancy.under_last; [|intros r; preserve]. unfold upload_file.
    apply Tenancy.under_last; [apply upload_fields_isolated|intros r; preserve].
  - apply Tenancy.under_same, chunk_fields_tables.
  - apply Tenancy.under_same. unfold download_file, open_file_for_download, build. reading.
  - apply Tenancy.under_same. unfold preview_file, Files.download_file. reading.
  - apply Tenancy.under_last; [|intros r; preserve]. unfold create_folder, validated. destruct (nonempty _); [apply Tenancy.under_throw|].
    apply Tenancy.create_folder_under.
  - apply Tenancy.under_last; [|intros r; preserve]. unfold rename_item, validated. destruct (nonempty _); [apply Tenancy.under_throw|].
    apply Tenancy.rename_under.
Qed.
End Uploads.

(** ** Concrete runs *)

Definition plain_text : MultipartText := {| field_text _ b := b |}.

Definition demo_field (n : string) (name : option string) (b : bytes) : rstr + Field :=
  inr {| field_name := Some (lit n); file_name := option_map lit name; field_type := None; content := inr b |}.

(** Bob's tree on an empty disk. *)
Definition demo_world : World Server := mkWorld (set_disk Storage.demo_disk (data demo_tree)) 0.

Notation demo_upload fields := (upload_file (O := toy_env []) (S2 := toy_sha256) (HX := plain_hex) (UT := plain_uuid)
  (MX := plain_text) Storage.demo_base 2 fields demo_world).

Definition demo_body : list (rstr + Field) := [demo_field "file" (Some "a.bin"%string) [1; 2; 3; 4; 5]].
Definition demo_uploaded : World Server := snd (demo_upload demo_body).

Notation demo_download range := (download_file (O := toy_env []) (HV := any_header) Storage.demo_base 2 1002 range demo_uploaded)
  (only parsing).

Definition demo_bytes (r : outcome Response) : bytes := match r with Ok a => body a | _ => [] end.

Definition demo_files_body : list (rstr + Field) :=
  [demo_field "file" (Some "a"%string) [1]; demo_field "parent_id" None (plain_uuid_to_string 10);
   demo_field "file" (Some "b"%string) [2; 3]].

Lemma demo_files_run : exists r, demo_upload demo_files_body = (Ok r, snd (demo_upload demo_files_body)).
Proof.
  destruct (demo_upload demo_files_body) as [o w] eqn:E.
  assert (K : match fst (demo_upload demo_files_body) with Ok _ => true | _ => false end = true) by (vm_compute; reflexivity).
  rewrite E in K. destruct o as [r|e| |]; [|discriminate K..]. by exists r.
Qed.

Lemma multipart_rows_witness : exists rows row, last rows = Some row
  /\ data (snd (demo_upload demo_files_body))
     = set_file_entries (file_entries (data demo_world) ++ rows)
         (set_disk (disk (data (snd (demo_upload demo_files_body)))) (data demo_world))
  /\ map FileEntry.size_bytes rows = [1; 2].
Proof.
  destruct demo_files_run as (r & E).
  destruct (multipart_rows (O := toy_env []) (S2 := toy_sha256) (HX := plain_hex) (UT := plain_uuid) (MX := plain_text)
    Storage.demo_base 2 demo_files_body demo_world r _ E) as (rows & row & L & _ & D & F).
  exists rows, row. split; [exact L|]. split; [exact D|].
  change (file_places demo_files_body 0 (length demo_files_body)) with [0; 2]%nat in F.
  inversion F as [|? ? ? ? (f & b & F1 & B1 & _ & _ & _ & _ & _ & S1 & _) F']; subst.
  inversion F' as [|? ? ? ? (f' & b' & F2 & B2 & _ & _ & _ & _ & _ & S2' & _) F'']; subst. inversion F''; subst.
  injection F1 as <-. injection F2 as <-. injection B1 as <-. injection B2 as <-. cbn [map]. rewrite S1, S2'. reflexivity.
Defined.

(** what is left of a refused body.  A body with a file, a folder, another
    file and then an error is answered with the error, and both files stay: the
    first in the root, the second in the folder named between them. *)
Theorem refused_body_stays :
  let fields := [demo_field "file" (Some "a"%string) [1]; demo_field "parent_id" None (plain_uuid_to_string 10);
                 demo_field "file" (Some "b"%string) [2]; inl (lit "incomplete")] in
  let r := demo_upload fields in
  fst r = Err (Validation (lit "incomplete"))
  /\ map (fun f => (FileEntry.name f, FileEntry.parent_id f))
       (select Account.is_file (drop 3 (file_entries (data (snd r))))) = [(lit "a", None); (lit "b", Some 10)].
Proof. vm_compute. split; reflexivity. Qed.

(** The second and third byte of the file Bob uploaded. *)
Lemma upload_download_witness : exists r w', demo_download (Some (lit "bytes=1-2")) = (Ok r, w')
  /\ body r = [2; 3] /\ data w' = data demo_uploaded.
Proof.
  assert (B : demo_bytes (fst (demo_download (Some (lit "bytes=1-2")))) = [2; 3]) by (vm_compute; reflexivity).
  assert (H : exists r, fst (demo_download (Some (lit "bytes=1-2"))) = Ok r) by (eexists; vm_compute; reflexivity).
  destruct (demo_download (Some (lit "bytes=1-2"))) as [o w'] eqn:E. destruct H as (r & Ho). cbn [fst] in Ho. subst o.
  exists r, w'. split; [reflexivity|]. split; [exact B|].
  exact (proj1 (download_spec (O := toy_env []) (HV := any_header) Storage.demo_base 2 1002 _ demo_uploaded r w' E)).
Defined.

(** Cut after its second byte. *)
Lemma download_resumes_witness : exists r r1 v1 r2 v2, fst (demo_download None) = Ok r
  /\ demo_download (Some (range_header 0 (Some 1))) = (Ok r1, v1)
  /\ demo_download (Some (range_header 2 None)) = (Ok r2, v2) /\ body r1 ++ body r2 = body r.
Proof.
  assert (B : length (demo_bytes (fst (demo_download None))) = 5%nat) by (vm_compute; reflexivity).
  assert (H : exists r, fst (demo_download None) = Ok r) by (eexists; vm_compute; reflexivity).
  destruct (demo_download None) as [o w'] eqn:E. destruct H as (r & Ho). cbn [fst] in Ho. subst o. cbn [fst demo_bytes] in B.
  destruct (download_resumes (O := toy_env []) (HV := any_header) Storage.demo_base 2 1002 demo_uploaded r w' 2 demo_uploaded demo_uploaded
    toy_env_reliable E ltac:(rewrite B; cbn; lia) ltac:(rewrite B; vm_compute; discriminate) eq_refl eq_refl)
    as (r1 & v1 & r2 & v2 & A1 & A2 & _ & _ & A3).
  exists r, r1, v1, r2, v2. split; [reflexivity|]. split; [exact A1|]. split; [exact A2|exact A3].
Defined.
End Uploads.
