(* ===== verification/Jail.v ===== *)
(** * Jail: directories no link leads out of

    What std::fs does below a canonical directory that has no link in it: paths
    without ".." resolve below it, and opening and making directories change
    nothing outside it. *)

From S2P Require Import Prelude Text Fs.

Module Jail.
Import Fs.

Definition no_links (f : fs) (b : path) : Prop := forall q t, path_prefix b q = true -> f !! q <> Some (Link t).

Definition outside_same (b : path) (f f' : fs) : Prop := forall q, path_prefix b q = false -> f' !! q = f !! q.

#[export] Instance outside_same_preorder b : PreOrder (outside_same b).
Proof. split; [by intros f q|]. intros f1 f2 f3 H12 H23 q N. by rewrite H23, H12. Qed.

Lemma prefix_self b : path_prefix b b = true.
Proof. apply path_prefix_iff. exists []. by rewrite app_nil_r. Qed.

Lemma prefix_app b q r : path_prefix b q = true -> path_prefix b (q ++ r) = true.
Proof. rewrite !path_prefix_iff. intros [x ->]. exists (x ++ r). by rewrite app_assoc. Qed.

Lemma real_prefix f a x : real f (a ++ x) -> real f a.
Proof.
  induction x as [|c x IH] using rev_ind; [by rewrite app_nil_r|]. intros H. apply IH.
  apply real_parent in H. unfold parent in H. by rewrite app_assoc, removelast_last in H.
Qed.

Lemma real_plain f p : real f p -> Forall plain p.
Proof. by intros [H _]. Qed.

Lemma real_step f a c x : real f (a ++ c :: x) -> plain c /\ exists n, f !! (a ++ [c]) = Some n /\ forall t, n <> Link t.
Proof.
  intros H. split; [apply real_plain in H; apply Forall_app in H as [_ H]; by apply Forall_cons in H as [H _]|].
  assert (R : real f (a ++ [c])) by (apply (real_prefix f _ x); by rewrite <- app_assoc).
  destruct R as (_ & _ & E). apply E. by destruct a.
Qed.

(** [cur] is on the way to [b], and [rest] leads through it, or [cur] is below. *)
Definition through (b cur rest : path) : Prop :=
  (exists x y, b = cur ++ x /\ rest = x ++ y) \/ path_prefix b cur = true.

Lemma through_nil b r : through b [] (b ++ r).
Proof. left. by exists b, r. Qed.

(** One component: it is the next one of [b], or [cur] is below. *)
Lemma through_cons b cur c r :
  through b cur (c :: r) ->
  path_prefix b cur = true \/ exists x y, b = cur ++ c :: x /\ r = x ++ y.
Proof.
  intros [(x & y & -> & E)|H]; [|by left]. destruct x as [|d x].
  - left. rewrite app_nil_r. apply prefix_self.
  - injection E as -> ->. right. by exists x, y.
Qed.

Lemma through_next b cur c x y : b = cur ++ c :: x -> through b (cur ++ [c]) (x ++ y).
Proof. intros ->. left. exists x, y. by rewrite <- app_assoc. Qed.

Lemma resolve_cons links f cur c r :
  c <> DOTDOT ->
  resolve links f cur (c :: r) = (if bool_decide (c = DOT) then resolve links f cur r
    else match f !! (cur ++ [c]) with
         | None => None
         | Some (Link t) => match links with O => None | S l => resolve l f [] (t ++ r) end
         | Some (File _) => if nonempty r then None else Some (cur ++ [c])
         | Some Dir => resolve links f (cur ++ [c]) r
         end).
Proof. intros N. destruct links; cbn [resolve]; by rewrite (bool_decide_eq_false_2 _ N). Qed.

Lemma resolve_inside b links f cur rest q :
  real f b -> no_links f b -> DOTDOT ∉ drop (length b - length cur) rest -> through b cur rest ->
  resolve links f cur rest = Some q -> path_prefix b q = true.
Proof.
  intros R N. revert cur. induction rest as [|c r IH]; intros cur D T.
  { intros H. assert (q = cur) as -> by (by destruct links; injection H as <-).
    destruct T as [(x & y & -> & E)|T]; [|done]. symmetry in E. apply app_nil in E as [-> _].
    rewrite app_nil_r. apply prefix_self. }
  apply through_cons in T as [T|(x & y & E & ->)].
  - assert (length b - length cur = 0)%nat as Z.
    { apply path_prefix_iff in T as [z ->]. rewrite length_app. lia. }
    rewrite Z in D. cbn [drop] in D. apply not_elem_of_cons in D as [D1 D].
    assert (DR : forall k, DOTDOT ∉ drop k r) by (intros k H; apply D; rewrite <- (take_drop k r); apply elem_of_app; by right).
    rewrite resolve_cons by done. destruct (bool_decide (c = DOT)); [apply IH; [done|by right]|].
    destruct (f !! (cur ++ [c])) as [[b0| |t]|] eqn:L; [| | |done].
    + destruct (nonempty r); [done|]. intros [= <-]. by apply prefix_app.
    + apply IH; [done|]. right. by apply prefix_app.
    + destruct (N (cur ++ [c]) t); [by apply prefix_app|done].
  - assert (R' := R). rewrite E in R'. destruct (real_step _ _ _ _ R') as [[P1 P2] (n & L & K)].
    rewrite resolve_cons by done. rewrite (bool_decide_eq_false_2 _ P1), L.
    destruct n as [b0| |t]; [| |by destruct (K t)].
    + destruct x as [|]; cbn [app]; [|done]. destruct (nonempty y); [done|]. intros [= <-]. rewrite E. apply prefix_self.
    + apply IH; [|by eapply through_next]. rewrite E, length_app in D. cbn in D.
      rewrite E, !length_app. cbn. replace (length cur + S (length x) - length cur)%nat with (S (length x)) in D by lia.
      cbn [drop] in D. by replace (length cur + S (length x) - (length cur + 1))%nat with (length x) by lia.
Qed.

(** A path through [b] without ".." after it resolves below [b]. *)
Lemma canonicalize_inside f b r q :
  real f b -> no_links f b -> DOTDOT ∉ r -> canonicalize f (b ++ r) = Some q -> path_prefix b q = true.
Proof.
  intros R N D. apply resolve_inside; [done|done| |apply through_nil].
  cbn. by rewrite Nat.sub_0_r, drop_app_length.
Qed.

(** ** Making directories *)

Lemma create_dirs_real f cur rest f' :
  real f (cur ++ rest) -> create_dirs f cur rest = Some f' -> f' = f.
Proof.
  revert cur. induction rest as [|c r IH]; intros cur R; cbn [create_dirs]; [by intros [= <-]|].
  assert (R1 : real f (cur ++ [c])) by (apply (real_prefix f _ r); by rewrite <- app_assoc).
  rewrite (real_canonicalize f (cur ++ [c])) by done.
  destruct (node_at f (cur ++ [c])) as [[| |]|]; try done. apply IH. by rewrite <- app_assoc.
Qed.

Lemma no_links_dir f b q : no_links f b -> no_links (<[q := Dir]> f) b.
Proof.
  intros N p t P. destruct (decide (p = q)) as [->|Ne]; [by rewrite lookup_insert_eq|].
  rewrite lookup_insert_ne by done. by apply N.
Qed.

Lemma outside_insert f b q n : path_prefix b q = true -> outside_same b f (<[q := n]> f).
Proof. intros P p Np. rewrite lookup_insert_ne; [done|]. intros ->. congruence. Qed.

Lemma canonicalize_ready f d r : dir_ready f d -> canonicalize f (d ++ r) = resolve MAX_LINKS f d r.
Proof.
  intros [(Hp & Hd & _) D]. unfold canonicalize. rewrite (resolve_app MAX_LINKS f [] d r); [done|done|].
  intros n Hn. cbn. destruct (decide (n = length d)) as [->|]; [|apply Hd; lia].
  rewrite take_ge by done. rewrite <- node_at_cons; [done|]. destruct d; [cbn in *; lia|done].
Qed.

(** Below [b], from a directory that exists. *)
Lemma create_stays_below f b cur rest f' :
  no_links f b -> path_prefix b cur = true -> dir_ready f cur -> DOTDOT ∉ rest ->
  create_dirs f cur rest = Some f' -> outside_same b f f' /\ no_links f' b.
Proof.
  revert f cur. induction rest as [|c r IH]; intros f cur N P R D; cbn [create_dirs]; [by intros [= <-]|].
  apply not_elem_of_cons in D as [D1 D]. rewrite canonicalize_ready, resolve_cons by done.
  destruct (bool_decide_reflect (c = DOT)) as [->|D2].
  { unfold MAX_LINKS. cbn [resolve]. destruct R as [R Dir]. rewrite Dir. by apply IH. }
  assert (P' : path_prefix b (cur ++ [c]) = true) by (by apply prefix_app).
  assert (Pl : plain c) by done.
  destruct (f !! (cur ++ [c])) as [[b0| |t]|] eqn:L.
  - cbn [nonempty]. rewrite node_at_cons, L by (by destruct cur). done.
  - unfold MAX_LINKS. cbn [resolve]. rewrite node_at_cons, L by (by destruct cur).
    apply IH; [done|done|by apply dir_ready_snoc|done].
  - by destruct (N (cur ++ [c]) t).
  - intros H. apply IH in H as [H1 H2]; [| | |by apply dir_ready_snoc; [apply dir_ready_file| |apply lookup_insert_eq]|done].
    + split; [|done]. intros q Nq. rewrite H1 by done. rewrite lookup_insert_ne; [done|]. intros <-. congruence.
    + by apply no_links_dir.
    + done.
Qed.

Lemma create_dirs_inside f b r f' :
  real f b -> no_links f b -> DOTDOT ∉ r -> create_dir_all f (b ++ r) = Some f' ->
  outside_same b f f' /\ no_links f' b.
Proof.
  intros R N D H. unfold create_dir_all in H.
  assert (K : forall cur x, b = cur ++ x -> dir_ready f cur -> create_dirs f cur (x ++ r) = Some f' ->
    outside_same b f f' /\ no_links f' b).
  { intros cur x. revert cur. induction x as [|c x IH]; intros cur E Rc Hc.
    - rewrite app_nil_r in E. subst cur. eapply create_stays_below; [done|apply prefix_self|done|done|exact Hc].
    - cbn [app create_dirs] in Hc. assert (R' := R). rewrite E in R'.
      assert (R1 : real f (cur ++ [c])) by (apply (real_prefix f _ x); by rewrite <- app_assoc).
      rewrite (real_canonicalize f _ R1) in Hc.
      destruct (node_at f (cur ++ [c])) as [[| |]|] eqn:Q; try done.
      apply (IH (cur ++ [c])); [by rewrite <- app_assoc|by split|done]. }
  apply (K [] b); [done| |exact H]. split; [apply real_nil|done].
Qed.

Lemma real_mono f f' p : (forall k n, f !! k = Some n -> f' !! k = Some n) -> real f p -> real f' p.
Proof.
  intros K (Hp & Hd & He). split; [done|]. split; [intros n Hn; by apply K, Hd|].
  intros N. destruct (He N) as (n & Hn & L). exists n. auto.
Qed.

Lemma create_dirs_mono f cur rest f' :
  create_dirs f cur rest = Some f' -> forall k n, f !! k = Some n -> f' !! k = Some n.
Proof.
  revert f cur. induction rest as [|c r IH]; intros f cur; cbn [create_dirs]; [by intros [= <-]|].
  destruct (canonicalize f (cur ++ [c])) as [q|].
  - destruct (node_at f q) as [[| |]|]; try done. apply IH.
  - destruct (f !! (cur ++ [c])) as [|] eqn:L; [done|]. intros H k n Hk. eapply IH; [exact H|].
    rewrite lookup_insert_ne; [done|]. intros <-. congruence.
Qed.

Lemma create_only_dirs f cur rest f' :
  create_dirs f cur rest = Some f' -> forall k n, f' !! k = Some n -> f !! k = Some n \/ n = Dir.
Proof.
  revert f cur. induction rest as [|c r IH]; intros f cur; cbn [create_dirs]; [intros [= <-]; auto|].
  destruct (canonicalize f (cur ++ [c])) as [q|].
  - destruct (node_at f q) as [[| |]|]; try done. apply IH.
  - destruct (f !! (cur ++ [c])) as [|] eqn:L; [done|]. intros H k n Hk.
    apply (IH _ _ H) in Hk as [Hk|Hk]; [|by right]. destruct (decide (k = cur ++ [c])) as [->|Ne].
    + rewrite lookup_insert_eq in Hk. injection Hk as <-. by right.
    + rewrite lookup_insert_ne in Hk by done. by left.
Qed.

(** ** Opening *)

Lemma open_target_nonempty links f p q : open_target links f p = Some q -> q <> [].
Proof.
  revert p. induction links as [|l IH]; intros p; cbn [open_target];
    (destruct (match last p with Some _ => _ | None => _ end); [done|]);
    unfold entry_name; destruct (canonicalize f (parent p)) as [d|]; try done;
    destruct (node_at f d) as [[| |]|]; try done; destruct (last p) as [c|]; try done;
    destruct (node_at f (d ++ [c])) as [[| |]|]; try done; try (intros [= <-]; by destruct d).
  apply IH.
Qed.

(** The file an opening ends at, from a directory below [b]. *)
Lemma entry_inside f b p q :
  (forall d, canonicalize f (parent p) = Some d -> path_prefix b d = true) -> entry_name f p = Some q ->
  path_prefix b q = true.
Proof.
  unfold entry_name. intros K H. destruct (canonicalize f (parent p)) as [d|]; [|done].
  destruct (node_at f d) as [[| |]|]; try done. destruct (last p); [|done]. injection H as <-.
  apply prefix_app, K. done.
Qed.

(** The entry of a path through [b]. *)
Lemma entry_through f b r q :
  real f b -> no_links f b -> DOTDOT ∉ r -> entry_name f (b ++ r) = Some q -> path_prefix b q = true.
Proof.
  intros R N D H. destruct r as [|c r _] using rev_ind.
  - rewrite app_nil_r in H. unfold entry_name in H. rewrite (real_canonicalize f (parent b)) in H by (by apply real_parent).
    destruct (node_at f (parent b)) as [[| |]|]; try done. destruct b as [|c b _] using rev_ind; [done|].
    unfold parent in H. rewrite removelast_last, last_snoc in H. injection H as <-. apply prefix_self.
  - eapply entry_inside; [|exact H]. intros d Hd. unfold parent in Hd. rewrite app_assoc, removelast_last in Hd.
    eapply canonicalize_inside; [done|done| |exact Hd]. intros I. apply D, elem_of_app. by left.
Qed.

Lemma open_inside f b r q f' :
  real f b -> no_links f b -> DOTDOT ∉ r -> open_create f (b ++ r) = Some (q, f') ->
  path_prefix b q = true /\ outside_same b f f' /\ no_links f' b /\ exists c, f' !! q = Some (File c).
Proof.
  intros R N D. unfold open_create, MAX_LINKS. cbn [open_target]. intros H.
  destruct (match last (b ++ r) with Some _ => _ | None => _ end); [done|].
  destruct (entry_name f (b ++ r)) as [e|] eqn:E; [|done].
  assert (Pe : path_prefix b e = true) by (by eapply entry_through).
  destruct (node_at f e) as [[c| |t]|] eqn:Q; [| done | |].
  - destruct (f !! e) as [n|] eqn:L; [|by destruct e; [|cbn in Q; congruence]].
    injection H as <- <-. split; [done|]. split; [done|]. split; [done|]. destruct e as [|x e]; [done|].
    cbn in Q. rewrite L in Q. injection Q as ->. by exists c.
  - destruct e as [|x e]; [done|]. by destruct (N (x :: e) t).
  - destruct (f !! e) as [n|] eqn:L; [destruct e; [done|cbn in Q; congruence]|].
    injection H as <- <-. split; [done|]. split; [by apply outside_insert|]. split.
    + intros p t P. destruct (decide (p = e)) as [->|Ne]; [by rewrite lookup_insert_eq|].
      rewrite lookup_insert_ne by done. by apply N.
    + exists []. by rewrite lookup_insert_eq.
Qed.

(** ** What stays when a disk grows

    Entries stay in place with their kind; the content of a file may change. *)

Definition same_kind (n n' : node) : Prop := match n, n' with File _, File _ => True | _, _ => n = n' end.

Definition grows (f f' : fs) : Prop := forall k n, f !! k = Some n -> exists n', f' !! k = Some n' /\ same_kind n n'.

Lemma same_kind_refl n : same_kind n n.
Proof. by destruct n. Qed.

#[export] Instance grows_preorder : PreOrder grows.
Proof.
  split; [intros f k n H; exists n; split; [done|apply same_kind_refl]|].
  intros f1 f2 f3 H12 H23 k n H. destruct (H12 k n H) as (n2 & E2 & K2). destruct (H23 k n2 E2) as (n3 & E3 & K3).
  exists n3. split; [done|]. destruct n, n2, n3; cbn in *; congruence || done.
Qed.

Lemma grows_create f cur rest f' : create_dirs f cur rest = Some f' -> grows f f'.
Proof. intros H k n E. exists n. split; [by eapply create_dirs_mono|apply same_kind_refl]. Qed.

Lemma grows_file f q c c' : f !! q = Some (File c) \/ f !! q = None -> grows f (<[q := File c']> f).
Proof.
  intros H k n E. destruct (decide (k = q)) as [->|N].
  - exists (File c'). rewrite lookup_insert_eq. split; [done|]. destruct H; simplify_eq. done.
  - exists n. rewrite lookup_insert_ne by done. split; [done|apply same_kind_refl].
Qed.

Lemma grows_resolve f f' links cur rest q :
  grows f f' -> resolve links f cur rest = Some q -> resolve links f' cur rest = Some q.
Proof.
  intros G. revert cur rest. induction links as [|l IHl]; intros cur rest; revert cur.
  all: induction rest as [|c r IH]; intros cur; cbn [resolve]; [done|].
  all: destruct (bool_decide (c = DOT)); [apply IH|]; destruct (bool_decide (c = DOTDOT)); [apply IH|].
  all: destruct (f !! (cur ++ [c])) as [n|] eqn:E; [|done]; destruct (G _ _ E) as (n' & -> & K).
  all: destruct n as [c0| |t], n' as [c1| |t']; cbn in K; try discriminate K; try done; try apply IH.
  injection K as <-. apply IHl.
Qed.

Lemma grows_node f f' q : grows f f' -> node_at f q = Some Dir -> node_at f' q = Some Dir.
Proof. intros G. destruct q as [|x q]; [done|]. cbn. intros H. destruct (G _ _ H) as (n' & -> & K). by destruct n'. Qed.

(** The path that was opened leads to the file as long as it is there. *)
Lemma open_found f b r q f1 f2 c :
  real f b -> no_links f b -> DOTDOT ∉ r -> open_create f (b ++ r) = Some (q, f1) ->
  grows f1 f2 -> f2 !! q = Some (File c) -> canonicalize f2 (b ++ r) = Some q.
Proof.
  intros R N D H G F. assert (G1 : grows f f1).
  { unfold open_create in H. destruct (open_target _ _ _) as [q'|]; [|done].
    destruct (f !! q') as [n|] eqn:E; injection H as <- <-; [done|]. apply (grows_file _ _ []). by right. }
  assert (G2 : grows f f2) by (by transitivity f1). revert H. unfold open_create, MAX_LINKS. cbn [open_target].
  destruct (last (b ++ r)) as [l|] eqn:L; [|done].
  destruct (bool_decide (l = DOT) || bool_decide (l = DOTDOT)) eqn:P; [done|]. boolify.
  destruct (entry_name f (b ++ r)) as [e|] eqn:E; [|done].
  assert (Pe : path_prefix b e = true) by (by eapply entry_through).
  assert (K : q = e -> canonicalize f2 (b ++ r) = Some q).
  { intros ->. unfold entry_name in E. destruct (canonicalize f (parent (b ++ r))) as [d|] eqn:C; [|done].
    destruct (node_at f d) as [[| |]|] eqn:Q; try done. rewrite L in E. injection E as <-.
    apply last_Some in L as [p' L]. rewrite L in *. unfold parent in C. rewrite removelast_last in C.
    eapply resolve_then; [by eapply grows_resolve|by eapply grows_node|by split|done]. }
  destruct (node_at f e) as [[c0| |t]|] eqn:Q; [| done | |].
  - destruct (f !! e); intros [= <- <-]; by apply K.
  - destruct e as [|x e]; [done|]. by destruct (N (x :: e) t).
  - destruct (f !! e); intros [= <- <-]; by apply K.
Qed.

(** ** Removing *)

Lemma remove_dir_all_inside f b p f' :
  (forall q, entry_name f p = Some q -> path_prefix b q = true) -> remove_dir_all f p = Some f' -> outside_same b f f'.
Proof.
  unfold remove_dir_all. intros K H. destruct (entry_name f p) as [q|]; [|done].
  destruct (node_at f q) as [[| |]|]; try done. injection H as <-. intros k Nk.
  apply (without_other q f k). destruct (path_prefix q k) eqn:E; [|done].
  apply path_prefix_iff in E as [r ->]. specialize (K q eq_refl). by rewrite (prefix_app b q r K) in Nk.
Qed.

Lemma remove_entry_inside f b p f' :
  (forall q, entry_name f p = Some q -> path_prefix b q = true) ->
  remove_dir f p = Some f' \/ remove_file f p = Some f' -> outside_same b f f'.
Proof.
  unfold remove_dir, remove_file. intros K H. destruct (entry_name f p) as [q|]; [|by destruct H].
  specialize (K q eq_refl).
  assert (f' = delete q f) as ->.
  { destruct H as [H|H]; destruct (node_at f q) as [[| |]|]; try done; [case_hyp H; [done|]|..]; by injection H as <-. }
  intros k Nk. rewrite lookup_delete_ne; [done|]. intros ->. congruence.
Qed.
End Jail.
