(* ===== verification/Json.v ===== *)
(** * Json: the values of serde_json

    The code builds and reads JSON through serde_json::Value: indexing with a
    missing key gives Null, and the accessors answer None for a value of another
    kind.  The text of a value is serde_json's, a parameter. *)

From S2P Require Import Prelude Text.

Inductive Value :=
| Null
| Bool (b : bool)
| Num (n : Z)
| Float (text : rstr)
| Str (s : rstr)
| Arr (l : list Value)
| Obj (l : list (rstr * Value)).

Module Json.

(** The last binding of a repeated key counts. *)
Fixpoint lookup (k : rstr) (l : list (rstr * Value)) : option Value :=
  match l with
  | [] => None
  | (k', v) :: r => match lookup k r with
                    | Some v' => Some v'
                    | None => if bool_decide (k = k') then Some v else None
                    end
  end.

Definition get (k : string) (v : Value) : option Value :=
  match v with Obj l => lookup (lit k) l | _ => None end.

(** [v[k]] *)
Definition index (v : Value) (k : string) : Value := default Null (get k v).

Definition as_str (v : Value) : option rstr := match v with Str s => Some s | _ => None end.
Definition as_bool (v : Value) : option bool := match v with Bool b => Some b | _ => None end.
Definition as_u64 (v : Value) : option Z :=
  match v with Num n => if (0 <=? n) && (n <=? u64_max) then Some n else None | _ => None end.

(** A field of type Option. *)
Definition opt_str (o : option rstr) : Value := match o with Some s => Str s | None => Null end.

(** The object of the json! macro. *)
Definition obj (l : list (string * Value)) : Value := Obj (map (fun kv => (lit (fst kv), snd kv)) l).

(** serde_json::from_str and to_string. *)
Class JsonText := {
  json_parse : rstr -> option Value;
  json_print : Value -> rstr
}.
End Json.
