(* ===== verification/Utf8.v ===== *)
(** * Utf8: String::from_utf8_lossy

    Decoding of UTF-8 that replaces every maximal ill-formed part by U+FFFD. *)

From S2P Require Import Prelude Text Bits.

Module Utf8.

Definition REPLACEMENT : Z := 0xFFFD.

(** What a leading byte asks for: the number of bytes to come, the range of the
    next one, and the bits it gives. *)
Definition lead (c : Z) : option (nat * Z * Z * Z) :=
  if (0xC2 <=? c) && (c <=? 0xDF) then Some (1%nat, 0x80, 0xBF, c - 0xC0)
  else if c =? 0xE0 then Some (2%nat, 0xA0, 0xBF, 0)
  else if c =? 0xED then Some (2%nat, 0x80, 0x9F, 0xD)
  else if (0xE1 <=? c) && (c <=? 0xEF) then Some (2%nat, 0x80, 0xBF, c - 0xE0)
  else if c =? 0xF0 then Some (3%nat, 0x90, 0xBF, 0)
  else if (0xF1 <=? c) && (c <=? 0xF3) then Some (3%nat, 0x80, 0xBF, c - 0xF0)
  else if c =? 0xF4 then Some (3%nat, 0x80, 0x8F, 4)
  else None.

(** The decoder: [st] is what an open sequence still asks for. *)
Fixpoint decode (b : bytes) (st : option (nat * Z * Z * Z)) : rstr :=
  match b with
  | [] => match st with Some _ => [REPLACEMENT] | None => [] end
  | c :: r =>
      let start (_ : unit) :=
        if c <? 0x80 then c :: decode r None
        else match lead c with
             | Some s => decode r (Some s)
             | None => REPLACEMENT :: decode r None
             end in
      match st with
      | Some (need, lo, hi, acc) =>
          if (lo <=? c) && (c <=? hi) then
            let acc := acc * 64 + (c - 0x80) in
            match need with
            | S (S n) => decode r (Some (S n, 0x80, 0xBF, acc))
            | _ => acc :: decode r None
            end
          else REPLACEMENT :: start tt
      | None => start tt
      end
  end.

Definition from_utf8_lossy (b : bytes) : rstr := decode b None.

(** String::from_utf8: what has nothing to replace. *)
Definition from_utf8 (b : bytes) : option rstr :=
  let s := from_utf8_lossy b in if bool_decide (as_bytes s = b) then Some s else None.

(** A Unicode scalar value. *)
Definition scalar (c : Z) : Prop := 0 <= c < 0xD800 \/ 0xE000 <= c < 0x110000.

Lemma lor_high k h a : 0 <= a < 2 ^ k -> 0 <= k -> 0 <= h -> Z.lor (h * 2 ^ k) a = h * 2 ^ k + a.
Proof.
  intros Ha Hk Hh. assert (N : Z.land (h * 2 ^ k) a = 0).
  { apply Z.bits_inj'. intros n Hn. rewrite Z.land_spec, Z.bits_0. destruct (Z.ltb_spec n k).
    - by rewrite Z.mul_pow2_bits_low.
    - rewrite <- (Z.mod_small a (2 ^ k)) by done. by rewrite Z.mod_pow2_bits_high, andb_false_r by lia. }
  by rewrite <- Z.lxor_lor, Z.add_nocarry_lxor by done.
Qed.

Lemma cont_byte x : Z.lor 0x80 (Z.land x 0x3F) = 0x80 + x mod 64.
Proof.
  change 0x3F with (Z.ones 6). rewrite Z.land_ones by lia.
  apply (lor_high 6 2); [apply Z.mod_pos_bound; lia|lia|lia].
Qed.

Lemma utf8_char_spec c : scalar c ->
  utf8_char c = (if c <? 0x80 then [c]
    else if c <? 0x800 then [0xC0 + c / 64; 0x80 + c mod 64]
    else if c <? 0x10000 then [0xE0 + c / 4096; 0x80 + c / 64 mod 64; 0x80 + c mod 64]
    else [0xF0 + c / 262144; 0x80 + c / 4096 mod 64; 0x80 + c / 64 mod 64; 0x80 + c mod 64]).
Proof.
  intros S. assert (0 <= c < 0x110000) as B by (unfold scalar in S; lia).
  unfold utf8_char. rewrite !cont_byte. rewrite !Z.shiftr_div_pow2 by lia.
  change (2 ^ 6) with 64. change (2 ^ 12) with 4096. change (2 ^ 18) with 262144.
  destruct (Z.ltb_spec c 0x80); [done|]. destruct (Z.ltb_spec c 0x800).
  { f_equal. apply (lor_high 5 6); [|lia|lia]. split; [apply Z.div_pos; lia|apply Z.div_lt_upper_bound; lia]. }
  destruct (Z.ltb_spec c 0x10000).
  { f_equal. apply (lor_high 4 14); [|lia|lia]. split; [apply Z.div_pos; lia|apply Z.div_lt_upper_bound; lia]. }
  f_equal. apply (lor_high 3 30); [|lia|lia]. split; [apply Z.div_pos; lia|apply Z.div_lt_upper_bound; lia].
Qed.

Lemma decode_char c r : scalar c -> decode (utf8_char c ++ r) None = c :: decode r None.
Proof.
  intros S. rewrite utf8_char_spec by done. unfold scalar in S.
  pose proof (Z.mod_pos_bound c 64). pose proof (Z.mod_pos_bound (c / 64) 64). pose proof (Z.mod_pos_bound (c / 4096) 64).
  pose proof (Z.div_mod c 64). pose proof (Z.div_mod (c / 64) 64). pose proof (Z.div_mod (c / 4096) 64).
  assert (D1 : c / 64 / 64 = c / 4096) by (by rewrite Z.div_div by lia).
  assert (D2 : c / 4096 / 64 = c / 262144) by (by rewrite Z.div_div by lia).
  destruct (Z.ltb_spec c 0x80) as [L|L].
  { cbn [app decode]. by replace (c <? 0x80) with true by lia. }
  destruct (Z.ltb_spec c 0x800) as [L2|L2].
  { cbn [app decode]. replace (0xC0 + c / 64 <? 0x80) with false by lia. unfold lead.
    replace ((0xC2 <=? 0xC0 + c / 64) && (0xC0 + c / 64 <=? 0xDF)) with true by lia. cbn [decode].
    replace ((128 <=? 128 + c mod 64) && (128 + c mod 64 <=? 191)) with true by lia. f_equal. lia. }
  destruct (Z.ltb_spec c 0x10000) as [L3|L3].
  { cbn [app decode]. replace (0xE0 + c / 4096 <? 0x80) with false by lia.
    assert (exists lo hi, lead (0xE0 + c / 4096) = Some (2%nat, lo, hi, c / 4096) /\ lo <= 128 + c / 64 mod 64 <= hi) as (lo & hi & -> & B).
    { unfold lead. replace ((0xC2 <=? 0xE0 + c / 4096) && (0xE0 + c / 4096 <=? 0xDF)) with false by lia.
      destruct (Z.eqb_spec (0xE0 + c / 4096) 0xE0); [exists 0xA0, 0xBF; split; [do 2 f_equal; lia|lia]|].
      destruct (Z.eqb_spec (0xE0 + c / 4096) 0xED); [exists 0x80, 0x9F; split; [do 2 f_equal; lia|lia]|].
      replace ((0xE1 <=? 0xE0 + c / 4096) && (0xE0 + c / 4096 <=? 0xEF)) with true by lia.
      exists 0x80, 0xBF. split; [do 2 f_equal; lia|lia]. }
    cbn [decode]. replace ((lo <=? 128 + c / 64 mod 64) && (128 + c / 64 mod 64 <=? hi)) with true by lia.
    replace ((128 <=? 128 + c mod 64) && (128 + c mod 64 <=? 191)) with true by lia. f_equal. lia. }
  cbn [app decode]. replace (0xF0 + c / 262144 <? 0x80) with false by lia.
  assert (exists lo hi, lead (0xF0 + c / 262144) = Some (3%nat, lo, hi, c / 262144) /\ lo <= 128 + c / 4096 mod 64 <= hi) as (lo & hi & -> & B).
  { unfold lead. replace ((0xC2 <=? 0xF0 + c / 262144) && (0xF0 + c / 262144 <=? 0xDF)) with false by lia.
    destruct (Z.eqb_spec (0xF0 + c / 262144) 0xE0); [lia|]. destruct (Z.eqb_spec (0xF0 + c / 262144) 0xED); [lia|].
    replace ((0xE1 <=? 0xF0 + c / 262144) && (0xF0 + c / 262144 <=? 0xEF)) with false by lia.
    destruct (Z.eqb_spec (0xF0 + c / 262144) 0xF0); [exists 0x90, 0xBF; split; [do 2 f_equal; lia|lia]|].
    destruct ((0xF1 <=? 0xF0 + c / 262144) && (0xF0 + c / 262144 <=? 0xF3)) eqn:Q.
    - exists 0x80, 0xBF. split; [do 2 f_equal; lia|lia].
    - destruct (Z.eqb_spec (0xF0 + c / 262144) 0xF4); [exists 0x80, 0x8F; split; [do 2 f_equal; lia|lia]|lia]. }
  cbn [decode]. replace ((lo <=? 128 + c / 4096 mod 64) && (128 + c / 4096 mod 64 <=? hi)) with true by lia.
  replace ((128 <=? 128 + c / 64 mod 64) && (128 + c / 64 mod 64 <=? 191)) with true by lia.
  replace ((128 <=? 128 + c mod 64) && (128 + c mod 64 <=? 191)) with true by lia. f_equal. lia.
Qed.

(** Decoding gives back every encoded text. *)
Lemma lossy_as_bytes s : Forall scalar s -> from_utf8_lossy (as_bytes s) = s.
Proof.
  unfold from_utf8_lossy, as_bytes. induction 1 as [|c s H _ IH]; [done|]. cbn [flat_map].
  by rewrite decode_char, IH.
Qed.
End Utf8.
