(* ===== verification/FsHandler.v ===== *)
(** * FsHandler: the agent's files for remote clients

    agent/src/fs_handler.rs: listing, reading and writing below a storage root
    of the agent's machine.  A relative path of the client is joined to the
    canonical root; the state is the disk, and every call of std::fs is one
    interaction that can fail. *)

From S2P Require Import Prelude Text Effects Externals Fs Storage Jail Base64.

Module FsHandler.
Import Fs Jail.

Inductive FsError :=
| PathTraversal (p : rstr)
| InvalidRoot (p : rstr)
| NotFound (p : rstr)
| PermissionDenied (p : rstr)
| Io (e : rstr).

Definition apostrophes (s : rstr) : rstr := lit "'" ++ s ++ lit "'".

Definition display (e : FsError) : rstr :=
  match e with
  | PathTraversal p => lit "Path traversal violation: " ++ apostrophes p ++ lit " escapes root"
  | InvalidRoot p => lit "Storage root inaccessible: " ++ apostrophes p
  | NotFound p => lit "File/directory not found: " ++ apostrophes p
  | PermissionDenied p => lit "Access denied: " ++ apostrophes p
  | Io e => lit "I/O error: " ++ e
  end.

Record FsEntry := {
  name : rstr; relative_path : rstr; entry_type : rstr; size_bytes : Z; modified_at : option rstr;
  mime_type : option rstr; is_readonly : bool }.

Record ListDirResult := { list_path : rstr; entries : list FsEntry; total_count : Z }.
Record StatResult := { exists_ : bool; entry : option FsEntry }.
Record ReadChunkResult := {
  read_path : rstr; read_offset : Z; length_ : Z; read_total : Z; eof : bool; data_base64 : rstr }.
Record WriteChunkResult := { write_path : rstr; write_offset : Z; bytes_written : Z; write_total : Z }.

(** ** Results over the disk *)

Definition F (A : Type) : Type := World fs -> (FsError + A) * World fs.

#[export] Instance F_ret : MRet F := fun A a w => (inr a, w).
#[export] Instance F_bind : MBind F := fun A B k m w =>
  match m w with
  | (inr a, w') => k a w'
  | (inl e, w') => (inl e, w')
  end.

Definition fail {A} (e : FsError) : F A := fun w => (inl e, w).
Definition relabel {A} (e : FsError) (m : F A) : F A := fun w =>
  match m w with (inl _, w') => (inl e, w') | r => r end.

(** What a file's metadata says besides its kind and length: the time of its
    last change, already as RFC 3339 text, and its permissions. *)
Class Metadata := {
  modified_text : fs -> path -> option rstr;
  readonly_flag : fs -> path -> bool
}.

Section FsHandler.
Context {O : Oracle} {U : Unicode} {MT : Metadata}.
(** The number of bytes the n-th interaction reads at most, when it is a read. *)
Context (reads : nat -> nat).

(** One call that can fail; [None] is an error of the operating system. *)
Definition sys {A} (f : fs -> option (A * fs)) : F A := fun w =>
  let w' := mkWorld (data w) (S (pos w)) in
  match io_fault (pos w) with
  | Some t => (inl (Io t), w')
  | None => match f (data w) with
            | Some (a, d) => (inr a, mkWorld d (S (pos w)))
            | None => (inl (Io Storage.OS_ERROR), w')
            end
  end.

Definition look {A} (f : fs -> option A) : F A := sys (fun d => option_map (fun a => (a, d)) (f d)).

(** exists, is_dir, is_file: an error counts as no. *)
Definition probe (f : fs -> bool) : F bool := fun w =>
  (inr (match io_fault (pos w) with Some _ => false | None => f (data w) end), mkWorld (data w) (S (pos w))).

(** [match r { Ok(a) => .., Err(_) => continue }] *)
Definition attempt {A} (m : F A) : F (option A) := fun w =>
  match m w with
  | (inr a, w') => (inr (Some a), w')
  | (inl _, w') => (inr None, w')
  end.

Definition stat_node (f : fs) (p : path) : option node :=
  match canonicalize f p with Some q => node_at f q | None => None end.
Definition is_dir (f : fs) (p : path) : bool := match stat_node f p with Some Dir => true | _ => false end.
Definition is_file (f : fs) (p : path) : bool := match stat_node f p with Some (File _) => true | _ => false end.

(** ** Paths *)

(** The parts of a path as the operating system walks them: a trailing slash
    asks for a directory, which the part "." does too. *)
Definition raw_components (s : rstr) : path :=
  List.filter nonempty (split_char (chr "/") s)
  ++ (match last s with Some c => if c =? chr "/" then [DOT] else [] | None => [] end).

(** Path::parent and the comparison of paths work on components. *)
Definition normal (p : path) : path := List.filter (fun c => negb (bool_decide (c = DOT))) p.
Fixpoint drop_dots (p : path) : path :=
  match p with c :: r => if bool_decide (c = DOT) then drop_dots r else p | [] => [] end.
Definition parent_of (p : path) : path :=
  reverse (drop_dots (match drop_dots (reverse p) with _ :: r => r | [] => [] end)).

(** A storage root: how it is shown, and its path from the root directory, which
    an empty text does not have. *)
Record Root := { shown : rstr; dir : option path }.

Definition show_path (p : path) : rstr := lit "/" ++ join (lit "/") p.
Definition canonical_root (p : path) : Root := {| shown := show_path p; dir := Some p |}.

(** Path::new, relative to the current directory. *)
Definition root_at (cwd : path) (s : rstr) : Root :=
  {| shown := s;
     dir := if nonempty s then Some ((if starts_with (lit "/") s then [] else cwd) ++ raw_components s) else None |}.

Definition canonical_dir (f : fs) (root : Root) : option path :=
  match dir root with Some p => canonicalize f p | None => None end.

(** [replace('\\', "/").trim().trim_start_matches('/')] *)
Definition clean_rel (rel_path : rstr) : rstr :=
  trim_start_by (Z.eqb (chr "/")) (trim (Storage.normalize_slashes rel_path)).

Definition has_drive (cleaned : rstr) : bool :=
  match as_bytes cleaned with
  | b0 :: b1 :: _ => (b1 =? chr ":") && is_ascii_alphabetic b0
  | _ => false
  end.

Definition safe_resolve (root : Root) (rel_path : rstr) : F path :=
  canonical_root ← relabel (InvalidRoot (shown root)) (look (fun f => canonical_dir f root));
  let cleaned := clean_rel rel_path in
  if has_drive cleaned then fail (PathTraversal rel_path)
  else if existsb (fun c => bool_decide (c = DOTDOT)) (raw_components cleaned) then fail (PathTraversal rel_path)
  else
    let candidate := canonical_root ++ raw_components cleaned in
    present ← probe (fun f => path_exists f candidate);
    if present : bool then
      canonical_candidate ← look (fun f => canonicalize f candidate);
      if path_prefix canonical_root canonical_candidate then mret canonical_candidate
      else fail (PathTraversal rel_path)
    else
      let parent := parent_of candidate in
      parent_there ← probe (fun f => path_exists f parent);
      if parent_there : bool then
        canonical_parent ← look (fun f => canonicalize f parent);
        if path_prefix canonical_root canonical_parent then mret candidate
        else fail (PathTraversal rel_path)
      else mret candidate.

(** ** MIME types *)

Definition mime_table : list (list string * string) :=
  [ (["mp4"; "m4v"], "video/mp4"); (["mkv"], "video/x-matroska"); (["webm"], "video/webm");
    (["mov"], "video/quicktime"); (["avi"], "video/x-msvideo");
    (["mp3"], "audio/mpeg"); (["flac"], "audio/flac"); (["wav"], "audio/wav"); (["m4a"], "audio/mp4");
    (["ogg"], "audio/ogg");
    (["jpg"; "jpeg"], "image/jpeg"); (["png"], "image/png"); (["gif"], "image/gif"); (["webp"], "image/webp");
    (["svg"], "image/svg+xml");
    (["pdf"], "application/pdf"); (["json"], "application/json");
    (["txt"; "md"; "rs"; "ts"; "dart"; "toml"; "yaml"; "yml"], "text/plain");
    (["html"; "htm"], "text/html"); (["zip"], "application/zip"); (["tar"], "application/x-tar");
    (["gz"], "application/gzip") ]%string.

(** The first arm of a match on text whose alternatives list the text. *)
Definition arm (table : list (list string * string)) (otherwise : string) (ext : rstr) : rstr :=
  match List.find (fun row : list string * string => existsb (fun e => bool_decide (lit e = ext)) (fst row)) table with
  | Some row => lit (snd row)
  | None => lit otherwise
  end.

Definition guess_mime_type (filename : rstr) : rstr :=
  arm mime_table "application/octet-stream" (default [] (last (split_char (chr ".") (to_lowercase filename)))).

(** ** Listing *)

(** The length lstat reports. *)
Definition node_len (n : node) : Z :=
  match n with
  | File b => Z.of_nat (length b)
  | Link t => str_len (show_path t)
  | Dir => 0
  end.

Definition entry_of (clean : rstr) (file_name : rstr) (n : node) (modified : option rstr) (ro : bool) : FsEntry :=
  let folder := match n with Dir => true | _ => false end in
  {| name := file_name;
     relative_path := if nonempty clean then clean ++ lit "/" ++ file_name else file_name;
     entry_type := if folder then lit "folder" else lit "file";
     size_bytes := node_len n; modified_at := modified;
     mime_type := if folder then None else Some (guess_mime_type file_name); is_readonly := ro |}.

(** The entries whose metadata can be read. *)
Fixpoint list_entries (full_path : path) (clean : rstr) (names : list rstr) : F (list FsEntry) :=
  match names with
  | [] => mret []
  | c :: r =>
      meta ← attempt (look (fun f => option_map (fun n =>
        entry_of clean c n (modified_text f (full_path ++ [c])) (readonly_flag f (full_path ++ [c])))
        (f !! (full_path ++ [c]))));
      rest ← list_entries full_path clean r;
      mret (match meta with Some e => e :: rest | None => rest end)
  end.

Definition is_folder (e : FsEntry) : bool := bool_decide (entry_type e = lit "folder").

(** Folders first, then by lower-cased name. *)
Definition listing_order (a b : FsEntry) : bool :=
  match is_folder a, is_folder b with
  | true, false => true
  | false, true => false
  | _, _ => code_le (to_lowercase (name a)) (to_lowercase (name b))
  end.

Definition list_dir (root : Root) (rel_path : rstr) : F ListDirResult :=
  full_path ← safe_resolve root rel_path;
  there ← probe (fun f => path_exists f full_path);
  if negb there then fail (NotFound rel_path) else
  folder ← probe (fun f => is_dir f full_path);
  if negb folder then fail (InvalidRoot (apostrophes rel_path ++ lit " is not a directory")) else
  names ← look (fun f => option_map (map fst) (read_dir f full_path));
  found ← list_entries full_path (clean_rel rel_path) names;
  let sorted := sort_by listing_order found in
  mret {| list_path := clean_rel rel_path; entries := sorted; total_count := Z.of_nat (length sorted) |}.

Definition no_stat : StatResult := {| exists_ := false; entry := None |}.

(** The resolution never answers NotFound; the arm is the code's. *)
Definition stat_entry (root : Root) (rel_path : rstr) (full_path : path) : F StatResult :=
  there ← probe (fun f => path_exists f full_path);
  if negb there then mret no_stat else
  e ← look (fun f => option_map (fun n =>
    let shown := default (lit "root") (last (normal full_path)) in
    let folder := match n with Dir => true | _ => false end in
    {| name := shown; relative_path := clean_rel rel_path;
       entry_type := if folder then lit "folder" else lit "file";
       size_bytes := node_len n; modified_at := modified_text f full_path;
       mime_type := if folder then None else Some (guess_mime_type shown);
       is_readonly := readonly_flag f full_path |}) (stat_node f full_path));
  mret {| exists_ := true; entry := Some e |}.

Definition stat (root : Root) (rel_path : rstr) : F StatResult := fun w =>
  match safe_resolve root rel_path w with
  | (inr p, w') => stat_entry root rel_path p w'
  | (inl (NotFound _), w') => (inr no_stat, w')
  | (inl e, w') => (inl e, w')
  end.

(** ** Reading and writing *)

Definition MAX_READ : Z := 2 * 1024 * 1024.

(** One read of at most [n] bytes at [offset] of [content]. *)
Definition read_at (content : bytes) (offset n : Z) (k : nat) : bytes :=
  take (Nat.min (Z.to_nat n) (Nat.max 1 k)) (drop (Z.to_nat offset) content).

Definition read_buffer (full_path : path) (offset read_len : Z) : F bytes := fun w =>
  look (fun f => option_map (fun b => read_at b offset read_len (reads (pos w))) (read f full_path)) w.

Definition read_chunk (root : Root) (rel_path : rstr) (offset max_length : Z) : F ReadChunkResult :=
  full_path ← safe_resolve root rel_path;
  file ← probe (fun f => is_file f full_path);
  if negb file then fail (NotFound rel_path) else
  _ ← look (fun f => read f full_path);
  total_size ← look (fun f => option_map (fun b : bytes => Z.of_nat (length b)) (read f full_path));
  if total_size <=? offset
  then mret {| read_path := rel_path; read_offset := offset; length_ := 0; read_total := total_size; eof := true;
               data_base64 := [] |}
  else
  _ ← look (fun f => Some tt);
  let read_len := Z.min (Z.min max_length MAX_READ) (total_size - offset) in
  buffer ← read_buffer full_path offset read_len;
  let n := Z.of_nat (length buffer) in
  mret {| read_path := rel_path; read_offset := offset; length_ := n; read_total := total_size;
          eof := total_size <=? offset + n; data_base64 := Base64.base64_encode buffer |}.

(** The content after [data] is written at [offset]; a gap reads as zeros. *)
Definition splice (content : bytes) (offset : nat) (data : bytes) : bytes :=
  take offset content ++ replicate (offset - length content) 0 ++ data ++ drop (offset + length data) content.

(** write_all through the handle of the file at [q], positioned at [offset];
    writing nothing changes nothing. *)
Definition write_at (f : fs) (q : path) (offset : Z) (data : bytes) : option fs :=
  match f !! q with
  | Some (File b) => Some (if nonempty data then <[q := File (splice b (Z.to_nat offset) data)]> f else f)
  | _ => None
  end.

Definition write_chunk (root : Root) (rel_path : rstr) (offset : Z) (data : bytes) : F WriteChunkResult :=
  full_path ← safe_resolve root rel_path;
  _ ← sys (fun f => option_map (fun d => (tt, d)) (create_dir_all f (parent_of full_path)));
  handle ← sys (fun f => open_create f full_path);
  _ ← look (fun f => if offset <=? i64_max then Some tt else None);
  _ ← sys (fun f => option_map (fun d => (tt, d)) (write_at f handle offset data));
  _ ← look (fun f => Some tt);
  total_size ← look (fun f => match f !! handle with Some (File b) => Some (Z.of_nat (length b)) | _ => None end);
  mret {| write_path := rel_path; write_offset := offset; bytes_written := Z.of_nat (length data);
          write_total := total_size |}.

(** ** Deleting and making directories *)

Definition remove (recursive : bool) (full_path : path) (folder : bool) : F unit :=
  sys (fun f => option_map (fun d => (tt, d))
    (if folder then if recursive then remove_dir_all f full_path else remove_dir f full_path
     else remove_file f full_path)).

Definition delete (root : Root) (rel_path : rstr) (recursive : bool) : F bool :=
  full_path ← safe_resolve root rel_path;
  canonical_root ← look (fun f => canonical_dir f root);
  if bool_decide (normal full_path = canonical_root)
  then fail (PermissionDenied (lit "Cannot delete storage root directory"))
  else
  there ← probe (fun f => path_exists f full_path);
  if negb there then mret false else
  folder ← probe (fun f => is_dir f full_path);
  _ ← remove recursive full_path folder;
  mret true.

Definition mkdir (root : Root) (rel_path : rstr) : F bool :=
  full_path ← safe_resolve root rel_path;
  there ← probe (fun f => path_exists f full_path);
  if there : bool then mret false else
  _ ← sys (fun f => option_map (fun d => (tt, d)) (create_dir_all f full_path));
  mret true.

(** ** Runs *)

Lemma bind_inr {A B} (m : F A) (k : A -> F B) w b w' :
  (x ← m; k x) w = (inr b, w') <-> exists a w1, m w = (inr a, w1) /\ k a w1 = (inr b, w').
Proof.
  unfold mbind, F_bind. destruct (m w) as [[e|a] w1]; split.
  - intros H. discriminate H.
  - intros (a & w2 & E & _). discriminate E.
  - eauto.
  - by intros (a' & w2 & [= <- <-] & H).
Qed.

Lemma look_inr {A} (f : fs -> option A) w a w' :
  look f w = (inr a, w') -> f (data w) = Some a /\ data w' = data w.
Proof.
  unfold look, sys. destruct (io_fault _); [done|]. destruct (f (data w)) as [x|]; [|done]. by intros [= -> <-].
Qed.

Lemma sys_inr {A} (f : fs -> option (A * fs)) w a w' :
  sys f w = (inr a, w') -> f (data w) = Some (a, data w').
Proof.
  unfold sys. destruct (io_fault _); [done|]. destruct (f (data w)) as [[x d]|]; [|done]. by intros [= -> <-].
Qed.

Lemma probe_inr f w b w' : probe f w = (inr b, w') -> data w' = data w /\ (b = true -> f (data w) = true).
Proof. unfold probe. intros [= <- <-]. split; [done|]. by destruct (io_fault _). Qed.

Lemma probe_reliable f w b w' : reliable O -> probe f w = (inr b, w') -> b = f (data w) /\ data w' = data w.
Proof. unfold probe. intros R. rewrite (proj2 (R _)). by intros [= <- <-]. Qed.

Lemma relabel_inr {A} e (m : F A) w a w' : relabel e m w = (inr a, w') -> m w = (inr a, w').
Proof. unfold relabel. by destruct (m w) as [[]]. Qed.

(** Programs that relate the disks before and after, whatever the outcome. *)
Definition always (R : fs -> fs -> Prop) {A} (m : F A) : Prop :=
  forall w r w', m w = (r, w') -> R (data w) (data w').

Section Always.
Context (R : fs -> fs -> Prop) {PO : PreOrder R}.

Lemma always_ret {A} (a : A) : always R (mret a).
Proof. intros w r w' H. by injection H as _ <-. Qed.

Lemma always_fail {A} e : always R (fail e : F A).
Proof. intros w r w' H. by injection H as _ <-. Qed.

Lemma always_bind {A B} (m : F A) (k : A -> F B) :
  always R m -> (forall w a w1, m w = (inr a, w1) -> always R (k a)) -> always R (x ← m; k x).
Proof.
  intros Hm Hk w r w' H. unfold mbind, F_bind in H. destruct (m w) as [[e|a] w1] eqn:E.
  - injection H as _ <-. by eapply Hm.
  - transitivity (data w1); [by eapply Hm|]. by eapply (Hk w a w1).
Qed.

Lemma always_sys {A} (f : fs -> option (A * fs)) : (forall d a d', f d = Some (a, d') -> R d d') -> always R (sys f).
Proof.
  intros Hf w r w' H. unfold sys in H. destruct (io_fault _); [by injection H as _ <-|].
  destruct (f (data w)) as [[a d]|] eqn:E; injection H as _ <-; [by eapply Hf|done].
Qed.

Lemma always_look {A} (f : fs -> option A) : always R (look f).
Proof. apply always_sys. intros d a d' H. destruct (f d); [|done]. by injection H as _ <-. Qed.

Lemma always_probe f : always R (probe f).
Proof. intros w r w' H. by injection H as _ <-. Qed.

Lemma always_relabel {A} e (m : F A) : always R m -> always R (relabel e m).
Proof. intros Hm w r w' H. unfold relabel in H. destruct (m w) as [[] w1] eqn:E; injection H as _ <-; by eapply Hm. Qed.
End Always.

Lemma safe_resolve_same root rel : always eq (safe_resolve root rel).
Proof.
  unfold safe_resolve. apply always_bind; [apply _|apply always_relabel, always_look; apply _|]. intros _ b _ _.
  repeat first [apply always_fail; apply _ | apply always_ret; apply _ | apply always_look; apply _
    | apply always_probe; apply _ | apply always_bind; [apply _| |intros] | case_goal].
Qed.

Lemma canonical_dir_real f root b : canonical_dir f root = Some b -> real f b.
Proof. unfold canonical_dir. destruct (dir root); [apply canonicalize_real|done]. Qed.

Lemma canonical_dir_grows f f' root b : grows f f' -> canonical_dir f root = Some b -> canonical_dir f' root = Some b.
Proof. unfold canonical_dir. intros G. destruct (dir root); [by apply grows_resolve|done]. Qed.

(** What a resolution answers: a canonical path below the canonical root, or
    the joined path when nothing is seen there. *)
Lemma safe_resolve_inr root rel w p w' :
  safe_resolve root rel w = (inr p, w') ->
  exists b, canonical_dir (data w) root = Some b /\ data w' = data w
    /\ (canonicalize (data w) p = Some p /\ path_prefix b p = true
        /\ canonicalize (data w) (b ++ raw_components (clean_rel rel)) = Some p
        \/ p = b ++ raw_components (clean_rel rel) /\ DOTDOT ∉ raw_components (clean_rel rel)
           /\ (reliable O -> canonicalize (data w) p = None)).
Proof.
  intros H. assert (D := safe_resolve_same _ _ _ _ _ H). unfold safe_resolve in H.
  apply bind_inr in H as (b & w1 & Hb & H). apply relabel_inr, look_inr in Hb as [Hb D1].
  exists b. split; [done|]. split; [done|].
  destruct (has_drive _); [discriminate H|]. destruct (existsb _ _) eqn:E; [discriminate H|].
  assert (N : DOTDOT ∉ raw_components (clean_rel rel)).
  { intros I. apply list_elem_of_In in I. rewrite (proj2 (existsb_exists _ _)) in E; [done|].
    exists DOTDOT. split; [done|]. by apply bool_decide_eq_true. }
  apply bind_inr in H as (there & w2 & P & H). pose proof (probe_inr _ _ _ _ P) as [D2 _].
  destruct there.
  - apply bind_inr in H as (c & w3 & L & H). apply look_inr in L as [L D3].
    destruct (path_prefix b c) eqn:Pr; [|discriminate H]. injection H as <- <-. left.
    rewrite D2, D1 in L. split; [by eapply canonicalize_idem|]. by split.
  - right. assert (X : reliable O -> canonicalize (data w) (b ++ raw_components (clean_rel rel)) = None).
    { intros R. apply (probe_reliable _ _ _ _ R) in P as [P _]. unfold path_exists in P. rewrite D1 in P.
      destruct (canonicalize (data w) (b ++ _)); [discriminate P|reflexivity]. }
    apply bind_inr in H as (pt & w3 & _ & H). destruct pt.
    + apply bind_inr in H as (c & w4 & _ & H). destruct (path_prefix b c); [|discriminate H]. by injection H as <- <-.
    + by injection H as <- <-.
Qed.

(** ** What a request may change *)

Lemma bind_cases {A B} (m : F A) (k : A -> F B) w r w' :
  (x ← m; k x) w = (r, w') ->
  (exists a w1, m w = (inr a, w1) /\ k a w1 = (r, w')) \/ (exists e, m w = (inl e, w') /\ r = inl e).
Proof.
  unfold mbind, F_bind. destruct (m w) as [[e|a] w1]; intros H; [|eauto]. injection H as <- <-. right. by exists e.
Qed.

Lemma prefix_of_reverse {A} (l : list A) (f : list A -> list A) :
  (forall l, exists x, l = x ++ f l) -> exists x, l = reverse (f (reverse l)) ++ x.
Proof.
  intros H. destruct (H (reverse l)) as [x E]. exists (reverse x).
  rewrite <- reverse_app, <- E. by rewrite reverse_involutive.
Qed.

Lemma drop_dots_suffix l : exists x, l = x ++ drop_dots l.
Proof.
  induction l as [|c l [x IH]]; cbn; [by exists []|]. destruct (bool_decide (c = DOT)); [|by exists []].
  exists (c :: x). cbn. by rewrite <- IH.
Qed.

Lemma parent_of_prefix p : exists x, p = parent_of p ++ x.
Proof.
  unfold parent_of. apply (prefix_of_reverse p (fun l => drop_dots (match drop_dots l with _ :: r => r | [] => [] end))).
  intros l. destruct (drop_dots_suffix l) as [x E]. destruct (drop_dots l) as [|c r] eqn:D.
  - exists l. cbn. by rewrite app_nil_r.
  - destruct (drop_dots_suffix r) as [y E2]. exists (x ++ c :: y). by rewrite <- app_assoc, <- app_comm_cons, <- E2.
Qed.

(** What a resolution answers is below the root by its parts. *)
Lemma safe_resolve_below root rel w p w' b :
  safe_resolve root rel w = (inr p, w') -> canonical_dir (data w) root = Some b ->
  data w' = data w /\ exists r, p = b ++ r /\ DOTDOT ∉ r.
Proof.
  intros H Hb. apply safe_resolve_inr in H as (b' & Hb' & D & H). rewrite Hb in Hb'. injection Hb' as <-.
  split; [done|]. destruct H as [(C & P & _)|(-> & N & _)]; [|by eexists].
  apply path_prefix_iff in P as [r ->]. exists r. split; [done|]. intros I.
  apply canonicalize_real, real_plain in C. rewrite Forall_forall in C.
  by destruct (C DOTDOT) as [_ X]; [apply elem_of_app; by right|].
Qed.

(** Making the parent directories. *)
Lemma parents_inside f b r f' :
  real f b -> no_links f b -> DOTDOT ∉ r -> create_dir_all f (parent_of (b ++ r)) = Some f' ->
  outside_same b f f' /\ no_links f' b /\ real f' b.
Proof.
  intros R N D H. assert (R' : real f' b) by (eapply real_mono; [by eapply create_dirs_mono|done]).
  destruct (parent_of_prefix (b ++ r)) as [x E].
  assert (K : (exists r1, parent_of (b ++ r) = b ++ r1 /\ DOTDOT ∉ r1) \/ exists y, b = parent_of (b ++ r) ++ y).
  { revert E. generalize (parent_of (b ++ r)) as q. intros q E.
    destruct (decide (length b <= length q)%nat) as [L|L].
    - left. exists (drop (length b) q). assert (take (length b) q = b) as T.
      { apply (f_equal (take (length b))) in E. rewrite take_app_length, take_app_le in E by lia. done. }
      split; [transitivity (take (length b) q ++ drop (length b) q); [by rewrite take_drop|by rewrite T]|]. intros I. apply D.
      apply (f_equal (drop (length b))) in E. rewrite drop_app_length, drop_app_le in E by lia. rewrite E.
      apply elem_of_app. by left.
    - right. exists (drop (length q) b). apply (f_equal (take (length q))) in E.
      rewrite take_app_length, take_app_le in E by lia.
      transitivity (take (length q) b ++ drop (length q) b); [by rewrite take_drop|by rewrite E]. }
  destruct K as [(r1 & E1 & D1)|(y & E1)].
  - rewrite E1 in H. apply create_dirs_inside in H as [? ?]; [|done..]. done.
  - assert (f' = f) as ->; [|done]. eapply (create_dirs_real f []); [|exact H]. cbn. eapply real_prefix. by rewrite <- E1.
Qed.

Lemma sys_cases {A} (f : fs -> option (A * fs)) w r w' :
  sys f w = (r, w') -> (exists a, r = inr a /\ f (data w) = Some (a, data w')) \/ (exists e, r = inl e /\ data w' = data w).
Proof.
  unfold sys. destruct (io_fault _); [intros [= <- <-]; right; eauto|].
  destruct (f (data w)) as [[x d]|]; intros [= <- <-]; [left|right]; eauto.
Qed.

Lemma write_inside root rel offset bs w r w' b :
  canonical_dir (data w) root = Some b -> no_links (data w) b ->
  write_chunk root rel offset bs w = (r, w') -> outside_same b (data w) (data w').
Proof.
  intros Hb N H. unfold write_chunk in H. pose proof (canonical_dir_real _ _ _ Hb) as R.
  apply bind_cases in H as [(p & w1 & Hp & H)|(e & H & _)]; [|by apply safe_resolve_same in H as <-].
  destruct (safe_resolve_below _ _ _ _ _ _ Hp Hb) as (D1 & r0 & -> & Dr).
  apply bind_cases in H as [([] & w2 & Hc & H)|(e & Hc & _)].
  2: { apply sys_cases in Hc as [(a & Ea & _)|(e' & _ & ->)]; [discriminate Ea|by rewrite D1]. }
  apply sys_inr in Hc. destruct (create_dir_all (data w1) _) as [f2|] eqn:C; [|done]. injection Hc as Hc. subst f2.
  rewrite D1 in C. apply parents_inside in C as (O2 & N2 & R2); [|done..].
  apply bind_cases in H as [(q & w3 & Ho & H)|(e & Ho & _)].
  2: { apply sys_cases in Ho as [(a & Ea & _)|(e' & _ & ->)]; [discriminate Ea|exact O2]. }
  apply sys_inr, open_inside in Ho as (Pq & O3 & _ & _); [|done..].
  transitivity (data w2); [done|]. transitivity (data w3); [done|].
  revert H. generalize w3 r w'. apply (always_bind _ _ _ (always_look _ _)). intros _ _ _ _.
  apply always_bind; [apply _| |intros; apply always_bind; [apply _|apply always_look; apply _|intros];
    apply always_bind; [apply _|apply always_look; apply _|intros; apply always_ret; apply _]].
  apply always_sys; [apply _|]. intros d a d' W. unfold write_at in W.
  destruct (d !! q) as [[c| |]|]; try done. injection W as _ <-. destruct (nonempty bs); [|done]. by apply outside_insert.
Qed.

Lemma delete_inside root rel recursive w r w' b :
  canonical_dir (data w) root = Some b -> no_links (data w) b ->
  delete root rel recursive w = (r, w') -> outside_same b (data w) (data w').
Proof.
  intros Hb N H. unfold delete in H. pose proof (canonical_dir_real _ _ _ Hb) as R.
  apply bind_cases in H as [(p & w1 & Hp & H)|(e & H & _)]; [|by apply safe_resolve_same in H as <-].
  destruct (safe_resolve_below _ _ _ _ _ _ Hp Hb) as (D1 & r0 & -> & Dr).
  apply bind_cases in H as [(b' & w2 & Hl & H)|(e & Hl & _)]; [|apply (always_look eq) in Hl; by rewrite <- Hl, D1].
  apply look_inr in Hl as [Hl D2]. rewrite D1, Hb in Hl. injection Hl as <-.
  case_bool_decide; [injection H as _ <-; by rewrite D2, D1|].
  apply bind_cases in H as [(t & w3 & Hq & H)|(e & Hq & _)]; [|discriminate Hq]. apply probe_inr in Hq as [D3 _].
  destruct (negb t); [injection H as _ <-; by rewrite D3, D2, D1|].
  apply bind_cases in H as [(d & w4 & Hq & H)|(e & Hq & _)]; [|discriminate Hq]. apply probe_inr in Hq as [D4 _].
  assert (E4 : data w4 = data w) by congruence. rewrite <- E4 in *. clear E4 D1 D2 D3 D4.
  assert (K : forall q, entry_name (data w4) (b ++ r0) = Some q -> path_prefix b q = true) by
    (intros q; by apply entry_through).
  assert (S : outside_same b (data w4) (data w') \/ exists a w5, remove recursive (b ++ r0) d w4 = (inr a, w5) /\ data w' = data w5).
  { apply bind_cases in H as [(a & w5 & S & H)|(e & S & _)].
    - right. exists a, w5. split; [done|]. by injection H as _ <-.
    - left. apply sys_cases in S as [(x & X & _)|(e' & _ & ->)]; [discriminate X|done]. }
  destruct S as [S|(a & w5 & S & ->)]; [exact S|]. apply sys_inr in S.
  destruct (if d then _ else _) as [f5|] eqn:X; [|discriminate S]. injection S as _ ->.
  destruct d; [destruct recursive|]; [by eapply remove_dir_all_inside|eapply remove_entry_inside; eauto..].
Qed.

Lemma mkdir_inside root rel w r w' b :
  canonical_dir (data w) root = Some b -> no_links (data w) b ->
  mkdir root rel w = (r, w') -> outside_same b (data w) (data w').
Proof.
  intros Hb N H. unfold mkdir in H. pose proof (canonical_dir_real _ _ _ Hb) as R.
  apply bind_cases in H as [(p & w1 & Hp & H)|(e & H & _)]; [|by apply safe_resolve_same in H as <-].
  destruct (safe_resolve_below _ _ _ _ _ _ Hp Hb) as (D1 & r0 & -> & Dr).
  apply bind_cases in H as [(t & w2 & Hq & H)|(e & Hq & _)]; [|discriminate Hq]. apply probe_inr in Hq as [D2 _].
  destruct t; [injection H as _ <-; by rewrite D2, D1|].
  assert (E2 : data w2 = data w) by congruence. rewrite <- E2 in *. clear E2 D1 D2.
  apply bind_cases in H as [(a & w3 & S & H)|(e & S & _)].
  - injection H as _ <-. apply sys_inr in S. destruct (create_dir_all _ _) as [f3|] eqn:C; [|done].
    injection S as _ ->. by apply create_dirs_inside in C as [? _].
  - apply sys_cases in S as [(x & X & _)|(e' & _ & ->)]; [discriminate X|done].
Qed.

(** None of the operations makes a symbolic link. *)
Definition unlinked (f f' : fs) : Prop := forall k t, f' !! k = Some (Link t) -> f !! k = Some (Link t).

#[local] Instance unlinked_preorder : PreOrder unlinked.
Proof. split; [by intros f k t|]. intros f1 f2 f3 H12 H23 k t H. by apply H12, H23. Qed.

Lemma unlinked_file f q c : unlinked f (<[q := File c]> f).
Proof.
  intros k t. destruct (decide (k = q)) as [->|N]; [by rewrite lookup_insert_eq|]. by rewrite lookup_insert_ne.
Qed.

Lemma unlinked_subset f f' : (forall k n, f' !! k = Some n -> f !! k = Some n) -> unlinked f f'.
Proof. intros H k t. apply H. Qed.

Lemma unlinked_dirs f p f' : create_dir_all f p = Some f' -> unlinked f f'.
Proof. intros H k t E. by destruct (create_only_dirs _ _ _ _ H k _ E). Qed.

Lemma unlinked_remove (recursive : bool) p (folder : bool) f f' :
  (if folder then if recursive then remove_dir_all f p else remove_dir f p else remove_file f p) = Some f' -> unlinked f f'.
Proof.
  assert (D : forall q : path, unlinked f (base.delete q f : fs)).
  { intros q. apply unlinked_subset. intros k n E. by apply lookup_delete_Some in E as [_ E]. }
  assert (W : forall q : path, unlinked f (filter (fun kv => path_prefix q (fst kv) = false) f)).
  { intros q. apply unlinked_subset. intros k n E. by apply map_lookup_filter_Some in E as [E _]. }
  unfold remove_dir_all, remove_dir, remove_file. destruct folder; [destruct recursive|];
    (destruct (entry_name f p) as [q|]; [|done]); destruct (node_at f q) as [[| |]|]; try done;
    try (destruct (existsb _ _); [done|]); by intros [= <-].
Qed.

Lemma always_unlinked {A} (m : F A) : always eq m -> always unlinked m.
Proof. intros H w r w' E. by rewrite (H w r w' E). Qed.

Ltac unlinks := repeat first
  [ apply always_unlinked, safe_resolve_same | apply always_look; apply _ | apply always_probe; apply _
  | apply always_fail; apply _ | apply always_ret; apply _ | apply always_bind; [apply _| |intros] | case_goal ].

Lemma write_unlinked root rel offset bs : always unlinked (write_chunk root rel offset bs).
Proof.
  unfold write_chunk. unlinks; apply always_sys; try apply _; intros d1 x1 d2 Ed.
  - destruct (create_dir_all d1 _) eqn:C; [|done]. injection Ed as _ <-. by eapply unlinked_dirs.
  - unfold open_create  in Ed. destruct (open_target _ _ _) as [q|]; [|done].
    destruct (d1 !! q); injection Ed as _ <-; [done|apply unlinked_file].
  - destruct (write_at d1 _ _ _) as [d3|] eqn:C; [|done]. injection Ed as _ <-. unfold write_at in C.
    destruct (d1 !! _) as [[c| |]|]; try done. destruct (nonempty bs); injection C as <-; [apply unlinked_file|done].
Qed.

Lemma remove_unlinked recursive p folder : always unlinked (remove recursive p folder).
Proof.
  apply always_sys; [apply _|]. intros d1 x1 d2 Ed.
  destruct (if folder then _ else _) eqn:C in Ed; [|done]. injection Ed as _ <-. by eapply unlinked_remove.
Qed.

Lemma delete_unlinked root rel recursive : always unlinked (delete root rel recursive).
Proof. unfold delete. repeat first [apply remove_unlinked | progress unlinks]. Qed.

Lemma mkdir_unlinked root rel : always unlinked (mkdir root rel).
Proof.
  unfold mkdir. unlinks; apply always_sys; try apply _; intros d1 x1 d2 Ed.
  destruct (create_dir_all d1 _) eqn:C; [|done]. injection Ed as _ <-. by eapply unlinked_dirs.
Qed.

(** C9: writes stay below the root.  Where no symbolic link lies below the
    canonical root, writing, deleting and making directories change nothing
    outside it and leave no symbolic link below it, whatever the relative path
    and whatever fails on the way. *)
Theorem changes_confined root rel w b :
  canonical_dir (data w) root = Some b -> no_links (data w) b ->
  (forall offset bs r w', write_chunk root rel offset bs w = (r, w') -> outside_same b (data w) (data w') /\ no_links (data w') b)
  /\ (forall recursive r w', delete root rel recursive w = (r, w') -> outside_same b (data w) (data w') /\ no_links (data w') b)
  /\ (forall r w', mkdir root rel w = (r, w') -> outside_same b (data w) (data w') /\ no_links (data w') b).
Proof.
  intros Hb N. assert (K : forall w', unlinked (data w) (data w') -> no_links (data w') b).
  { intros w' L q t P E. by apply (N q t P), L. }
  split; [|split]; intros * E; (split; [|apply K]); first
    [ by eapply write_inside | by eapply delete_inside | by eapply mkdir_inside
    | by eapply write_unlinked | by eapply delete_unlinked | by eapply mkdir_unlinked ].
Qed.

(** ** What a request answers *)

(** With the disk answering, what a resolution answers and the operating system
    then finds is canonical and below the root. *)
Lemma safe_resolve_found root rel w p w' q :
  reliable O -> safe_resolve root rel w = (inr p, w') -> canonicalize (data w') p = Some q ->
  q = p /\ exists b, canonical_dir (data w) root = Some b /\ path_prefix b p = true.
Proof.
  intros R H C. apply safe_resolve_inr in H as (b & Hb & D & H). rewrite D in C.
  destruct H as [(C' & P & _)|(-> & _ & X)]; [|rewrite X in C by done; done].
  rewrite C' in C. injection C as <-. split; [done|]. by exists b.
Qed.

Lemma read_of f p c : read f p = Some c -> exists q, canonicalize f p = Some q /\ f !! q = Some (File c).
Proof.
  unfold read. destruct (canonicalize f p) as [q|]; [|done]. intros H. exists q. split; [done|].
  destruct q as [|x q]; [done|]. cbn in H. destruct (f !! (x :: q)) as [[| |]|]; try done. by injection H as ->.
Qed.

Lemma take_length_min {A} n (l : list A) : take (Nat.min n (length l)) l = take n l.
Proof. destruct (Nat.min_spec n (length l)) as [[? ->]|[? ->]]; [done|]. by rewrite !take_ge. Qed.

Lemma read_at_length c offset n k :
  (length (read_at c offset n k) <= Z.to_nat n)%nat /\ (length (read_at c offset n k) <= length c - Z.to_nat offset)%nat.
Proof. unfold read_at. rewrite length_take, length_drop. lia. Qed.

(** a read answers the bytes of a file below the root.  With the disk
    answering, an answered read changes nothing and carries, in base64, bytes of
    one file below the canonical root from the offset on: as many as it says, at
    least one when the offset is inside the file and something was asked for, at
    most two megabytes and what was asked for; it says the end of the file
    exactly when it reaches it. *)
Theorem read_chunk_spec root rel offset max_length w r w' :
  reliable O -> 0 <= offset -> read_chunk root rel offset max_length w = (inr r, w') ->
  data w' = data w /\ exists b q c, canonical_dir (data w) root = Some b /\ path_prefix b q = true
    /\ data w !! q = Some (File c) /\ read_total r = Z.of_nat (length c)
    /\ data_base64 r = Base64.base64_encode (take (Z.to_nat (length_ r)) (drop (Z.to_nat offset) c))
    /\ 0 <= length_ r <= Z.max 0 (Z.min max_length MAX_READ) /\ offset + length_ r <= Z.max offset (read_total r)
    /\ (offset < read_total r -> 0 < max_length -> 0 < length_ r)
    /\ (eof r = true <-> read_total r <= offset + length_ r).
Proof.
  intros R Ho H. unfold read_chunk in H. apply bind_inr in H as (p & w1 & Hp & H).
  apply bind_inr in H as (fl & w2 & Pf & H). apply probe_inr in Pf as [D2 _]. destruct fl; [|discriminate H]. cbn [negb] in H.
  apply bind_inr in H as (c1 & w3 & L3 & H). apply look_inr in L3 as [L3 D3].
  apply bind_inr in H as (t & w4 & L4 & H). apply look_inr in L4 as [L4 D4].
  rewrite D3, L3 in L4. injection L4 as <-. rewrite D2 in L3. rewrite D2 in D3. rewrite D3 in D4.
  apply read_of in L3 as (q & C & F). destruct (safe_resolve_found _ _ _ _ _ _ R Hp C) as [-> (b & Hb & P)].
  apply safe_resolve_same in Hp as D1. rewrite <- D1 in *.
  destruct (Z.leb_spec (Z.of_nat (length c1)) offset) as [L|L].
  { injection H as <- <-. split; [done|]. exists b, p, c1. cbn. repeat split; try done; try lia.
    }
  apply bind_inr in H as ([] & w5 & L5 & H). apply look_inr in L5 as [_ D5]. rewrite D4 in D5.
  apply bind_inr in H as (buf & w6 & L6 & H). unfold read_buffer in L6. apply look_inr in L6 as [L6 D6].
  rewrite D5 in L6, D6. unfold read in L6. rewrite C in L6. rewrite (node_at_cons (data w) p), F in L6.
  2: { intros ->. done. }
  injection L6 as E6. injection H as <- <-. split; [done|]. exists b, p, c1. cbn [read_total data_base64 length_ eof].
  set (n := Z.min (Z.min max_length MAX_READ) (Z.of_nat (length c1) - offset)) in *.
  pose proof (read_at_length c1 offset n (reads (pos w5))) as [B1 B2]. rewrite E6 in B1, B2.
  assert (E : take (length buf) (drop (Z.to_nat offset) c1) = buf).
  { rewrite <- E6. unfold read_at. rewrite length_take. apply take_length_min. }
  rewrite Nat2Z.id, E. split_and!; try done; try lia.
  intros _ M. assert (0 < length buf)%nat; [|lia]. rewrite <- E6. unfold read_at. rewrite length_take, length_drop.
  unfold n, MAX_READ. lia.
Qed.

(** ** Reading back *)

Lemma splice_length c o d :
  length (splice c o d) = Nat.max (length c) (o + length d).
Proof.
  unfold splice. rewrite !length_app, length_take, length_replicate, length_drop. lia.
Qed.

Lemma splice_get c o d : take (length d) (drop o (splice c o d)) = d.
Proof.
  unfold splice. rewrite (app_assoc (take o c)), drop_app_ge by (rewrite length_app, length_take, length_replicate; lia).
  rewrite length_app, length_take, length_replicate.
  replace (o - (Nat.min o (length c) + (o - length c)))%nat with 0%nat by lia. rewrite drop_0.
  by rewrite take_app_length.
Qed.

(** Outside what was written, the file is as it was. *)
Lemma splice_keep c o d i : (i < length c)%nat -> (i < o \/ o + length d <= i)%nat -> splice c o d !! i = c !! i.
Proof.
  intros Hi H. unfold splice. destruct H as [H|H].
  - rewrite lookup_app_l by (rewrite length_take; lia). by rewrite lookup_take_lt by done.
  - rewrite !lookup_app_r; rewrite ?length_take, ?length_replicate; try lia.
    rewrite lookup_drop. f_equal. lia.
Qed.

Lemma bind_step {A B} (m : F A) (k : A -> F B) w a w1 :
  m w = (inr a, w1) -> (x ← m; k x) w = k a w1.
Proof. unfold mbind, F_bind. by intros ->. Qed.

Lemma look_run {A} (f : fs -> option A) w a :
  reliable O -> f (data w) = Some a -> look f w = (inr a, mkWorld (data w) (S (pos w))).
Proof. intros R H. unfold look, sys. by rewrite (proj2 (R _)), H. Qed.

Lemma probe_run f w : reliable O -> probe f w = (inr (f (data w)), mkWorld (data w) (S (pos w))).
Proof. intros R. unfold probe. by rewrite (proj2 (R _)). Qed.

Lemma safe_resolve_run root rel w b q :
  reliable O -> canonical_dir (data w) root = Some b -> has_drive (clean_rel rel) = false ->
  DOTDOT ∉ raw_components (clean_rel rel) ->
  canonicalize (data w) (b ++ raw_components (clean_rel rel)) = Some q -> path_prefix b q = true ->
  safe_resolve root rel w = (inr q, mkWorld (data w) (S (S (S (pos w))))).
Proof.
  intros R Hb Dr N C P. unfold safe_resolve.
  erewrite bind_step by (unfold relabel; rewrite (look_run _ _ b) by done; done). rewrite Dr.
  destruct (existsb _ _) eqn:E.
  { apply existsb_exists in E as (x & I & X). apply bool_decide_eq_true in X. subst x. by apply list_elem_of_In in I. }
  erewrite bind_step by (by apply probe_run). unfold path_exists. cbn [data pos]. rewrite C.
  erewrite bind_step by (by apply (look_run _ _ q)). by rewrite P.
Qed.

Lemma safe_resolve_clean root rel w p w' :
  safe_resolve root rel w = (inr p, w') -> has_drive (clean_rel rel) = false /\ DOTDOT ∉ raw_components (clean_rel rel).
Proof.
  unfold safe_resolve. intros H. apply bind_inr in H as (b & w1 & _ & H).
  destruct (has_drive _); [discriminate H|]. destruct (existsb _ _) eqn:E; [discriminate H|]. split; [done|].
  intros I. apply list_elem_of_In in I. rewrite (proj2 (existsb_exists _ _)) in E; [done|].
  exists DOTDOT. split; [done|]. by apply bool_decide_eq_true.
Qed.

Lemma open_create_grows f p q f' : open_create f p = Some (q, f') -> grows f f'.
Proof.
  unfold open_create. destruct (open_target _ _ _) as [q'|]; [|done].
  destruct (f !! q') eqn:E; intros [= <- <-]; [done|]. apply (grows_file _ _ []). by right.
Qed.

(** What an answered write did: the file at [q], to which the path leads from
    then on, holds the bytes. *)
Lemma write_chunk_inr root rel offset bs w x w' b :
  reliable O -> canonical_dir (data w) root = Some b -> no_links (data w) b -> bs <> [] ->
  write_chunk root rel offset bs w = (inr x, w') ->
  offset <= i64_max /\ grows (data w) (data w')
  /\ exists q c, q <> [] /\ path_prefix b q = true /\ canonicalize (data w') (b ++ raw_components (clean_rel rel)) = Some q
       /\ data w' !! q = Some (File (splice c (Z.to_nat offset) bs))
       /\ (data w !! q = Some (File c) \/ data w !! q = None /\ c = [])
       /\ write_total x = Z.of_nat (Nat.max (length c) (Z.to_nat offset + length bs)).
Proof.
  intros R Hb N Nb H. unfold write_chunk in H. pose proof (canonical_dir_real _ _ _ Hb) as Rb.
  apply bind_inr in H as (p & w1 & Hp & H).
  destruct (safe_resolve_below _ _ _ _ _ _ Hp Hb) as (D1 & r0 & Ep & Dr).
  apply safe_resolve_inr in Hp as (b' & Hb' & _ & Hp). rewrite Hb in Hb'. injection Hb' as <-. subst p.
  apply bind_inr in H as ([] & w2 & Hc & H). apply sys_inr in Hc.
  destruct (create_dir_all (data w1) _) as [f2|] eqn:C; [|done]. injection Hc as ->.
  rewrite D1 in C. assert (G2 : grows (data w) (data w2)) by (by eapply grows_create).
  assert (M2 := create_dirs_mono _ _ _ _ C). assert (C' := C).
  apply parents_inside in C as (O2 & N2 & R2); [|done..].
  apply bind_inr in H as (q & w3 & Ho & H). apply sys_inr in Ho. assert (G3 := open_create_grows _ _ _ _ Ho).
  pose proof (open_inside _ _ _ _ _ R2 N2 Dr Ho) as (Pq & _ & _ & c & Fq).
  apply bind_inr in H as ([] & w4 & L4 & H). apply look_inr in L4 as [L4 D4].
  destruct (Z.leb_spec offset i64_max) as [Lo|]; [|discriminate L4].
  apply bind_inr in H as ([] & w5 & W5 & H). apply sys_inr in W5. unfold write_at in W5. rewrite D4, Fq in W5.
  destruct bs as [|b0 bs0] eqn:Eb; [done|]. cbn [nonempty option_map] in W5. rewrite <- Eb in *. injection W5 as W5.
  apply bind_inr in H as ([] & w6 & L6 & H). apply look_inr in L6 as [_ D6].
  apply bind_inr in H as (t & w7 & L7 & H). apply look_inr in L7 as [L7 D7]. injection H as <- <-.
  assert (G5 : grows (data w3) (data w7)).
  { rewrite D7, D6, <- W5. apply (grows_file _ _ c). by left. }
  assert (F7 : data w7 !! q = Some (File (splice c (Z.to_nat offset) bs))) by (by rewrite D7, D6, <- W5, lookup_insert_eq).
  assert (Cq := open_found _ _ _ _ _ _ _ R2 N2 Dr Ho G5 F7).
  assert (G : grows (data w) (data w7)) by (by do 2 (etransitivity; [eassumption|])).
  split; [done|]. split; [done|]. exists q, c. split; [|split; [done|split; [|split; [done|split]]]].
  - unfold open_create in Ho. destruct (open_target _ _ _) as [q'|] eqn:T; [|done].
    assert (q = q') as -> by (destruct (data w2 !! q'); by injection Ho). by eapply open_target_nonempty.
  - destruct Hp as [(Cp & _ & Cr)|(E & _)]; [|by rewrite <- E].
    apply (grows_resolve _ _ _ _ _ _ G) in Cr, Cp. unfold canonicalize in *. congruence.
  - destruct (data w !! q) as [n|] eqn:E.
    + left. apply M2 in E as E2. unfold open_create in Ho. destruct (open_target _ _ _) as [q'|]; [|done].
      destruct (data w2 !! q') as [n'|] eqn:E3; injection Ho as -> Ho; [|congruence].
      rewrite <- Ho in Fq. congruence.
    + right. split; [done|]. unfold open_create in Ho. destruct (open_target _ _ _) as [q'|] eqn:T; [|done].
      destruct (data w2 !! q') as [n'|] eqn:E3; injection Ho as -> Ho.
      * exfalso. rewrite <- Ho, E3 in Fq. injection Fq as ->.
        destruct (create_only_dirs _ _ _ _ C' q _ E3) as [?|?]; congruence.
      * rewrite <- Ho, lookup_insert_eq in Fq. by injection Fq as <-.
  - cbn. rewrite D6, <- W5, lookup_insert_eq in L7. injection L7 as <-. by rewrite splice_length.
Qed.

(** a write is read back.  With the disk answering, below a root without
    links, a write that was answered is followed by a read of the same place
    that answers, and whose base64 decodes to the bytes that were written. *)
Theorem write_then_read root rel offset bs w x w' b :
  reliable O -> (forall n, (length bs <= reads n)%nat) ->
  canonical_dir (data w) root = Some b -> no_links (data w) b ->
  0 <= offset -> bs <> [] -> Z.of_nat (length bs) <= MAX_READ -> are_bytes bs ->
  write_chunk root rel offset bs w = (inr x, w') ->
  exists r w'', read_chunk root rel offset (Z.of_nat (length bs)) w' = (inr r, w'')
    /\ Base64.base64_decode (data_base64 r) = inr bs /\ read_total r = write_total x.
Proof.
  intros R Rd Hb N Ho Nb Mx By H.
  assert (Hs : has_drive (clean_rel rel) = false /\ DOTDOT ∉ raw_components (clean_rel rel)).
  { unfold write_chunk in H. apply bind_inr in H as (p & w1 & Hp & _). by eapply safe_resolve_clean. }
  destruct (write_chunk_inr _ _ _ _ _ _ _ _ R Hb N Nb H) as (_ & G & q & c & Nq & P & C & F & _ & T).
  assert (Hb' : canonical_dir (data w') root = Some b) by (by eapply canonical_dir_grows).
  assert (Cq := canonicalize_idem _ _ _ C). assert (Rq : forall k, read (data (mkWorld (data w') k)) q = Some (splice c (Z.to_nat offset) bs)).
  { intros k. unfold read. cbn [data]. by rewrite Cq, node_at_cons, F. }
  set (n := Z.of_nat (length (splice c (Z.to_nat offset) bs))).
  assert (Ln : offset + Z.of_nat (length bs) <= n) by (unfold n; rewrite splice_length; lia).
  assert (B0 : (0 < length bs)%nat) by (by destruct bs; [|cbn; lia]).
  eexists. eexists. split; [|split].
  - unfold read_chunk. erewrite bind_step by (by apply (safe_resolve_run _ _ _ b q); tauto).
    erewrite bind_step by (by apply probe_run). unfold is_file, stat_node. cbn [data pos]. rewrite Cq, node_at_cons, F by done.
    cbn [negb]. erewrite bind_step by (by apply look_run; [|apply Rq]).
    erewrite bind_step by (apply (look_run _ _ n); [done|]; by rewrite Rq). cbn [data pos].
    destruct (Z.leb_spec n offset); [lia|]. erewrite bind_step by (by apply look_run).
    erewrite bind_step by (unfold read_buffer; apply look_run; [done|]; by rewrite Rq). reflexivity.
  - cbn [data_base64]. unfold read_at.
    replace (Z.min (Z.min (Z.of_nat (length bs)) MAX_READ) (n - offset)) with (Z.of_nat (length bs)) by lia.
    rewrite Nat2Z.id. rewrite Nat.min_l by (match goal with |- context [reads ?k] => pose proof (Rd k); lia end).
    rewrite splice_get. by apply Base64.base64_roundtrip.
  - cbn [read_total]. rewrite T. unfold n. by rewrite splice_length.
Qed.

(** ** Listings *)

Lemma listing_order_total (a b : FsEntry) : listing_order a b = false -> listing_order b a = true.
Proof.
  unfold listing_order. destruct (is_folder a), (is_folder b); try done; apply (text_le_total (Collation := c_collation)).
Qed.

Lemma listing_order_trans (a b c : FsEntry) :
  listing_order a b = true -> listing_order b c = true -> listing_order a c = true.
Proof.
  unfold listing_order.
  destruct (is_folder a), (is_folder b), (is_folder c); try done; apply (text_le_trans (Collation := c_collation)).
Qed.

(** The names in a directory are those of its entries, once each. *)
Lemma names_in (q : path) (l : list (path * node)) :
  NoDup (map fst l) ->
  let names := map fst (omap (fun kv : path * node =>
    let (k, n) := kv in
    match last k with Some c => if bool_decide (k = q ++ [c]) then Some (c, n) else None | None => None end) l) in
  NoDup names /\ forall c, c ∈ names <-> q ++ [c] ∈ map fst l.
Proof.
  induction l as [|[k n] l IH]; cbn; [split; [constructor|intros c; by rewrite !elem_of_nil]|].
  intros [Nk N]%NoDup_cons. destruct (IH N) as [ND EL]. clear IH.
  assert (Sk : forall c, k <> q ++ [c] -> c ∈ map fst (omap (fun kv : path * node =>
    let (k, n) := kv in
    match last k with Some c => if bool_decide (k = q ++ [c]) then Some (c, n) else None | None => None end) l)
    <-> q ++ [c] ∈ k :: map fst l).
  { intros c Ne. rewrite elem_of_cons, EL. split; [by right|]. intros [X|X]; [by destruct Ne|done]. }
  destruct (last k) as [d|] eqn:L; [|split; [done|]; intros c; apply Sk; intros ->; by rewrite last_snoc in L].
  destruct (bool_decide_reflect (k = q ++ [d])) as [->|Ne].
  - cbn. split; [apply NoDup_cons; split; [by rewrite EL|done]|]. intros c. rewrite !elem_of_cons, EL. split.
    + intros [->|?]; [by left|by right].
    + intros [X|?]; [left; by simplify_list_eq|by right].
  - split; [done|]. intros c. apply Sk. intros ->. rewrite last_snoc in L. by simplify_eq.
Qed.

Lemma read_dir_names f q :
  canonicalize f q = Some q -> node_at f q = Some Dir ->
  exists l, read_dir f q = Some l /\ NoDup (map fst l) /\ forall c, c ∈ map fst l <-> is_Some (f !! (q ++ [c])).
Proof.
  intros C D. unfold read_dir. rewrite C, D. eexists. split; [reflexivity|].
  destruct (names_in q (map_to_list f)) as [ND EL]; [apply NoDup_fst_map_to_list|]. split; [exact ND|].
  intros c. rewrite EL. rewrite list_elem_of_fmap. split.
  - intros ([k n] & -> & H%elem_of_map_to_list). by exists n.
  - intros [n H]. exists (q ++ [c], n). split; [done|]. by apply elem_of_map_to_list.
Qed.

Lemma list_entries_run q clean names w :
  reliable O -> Forall (fun c => is_Some (data w !! (q ++ [c]))) names ->
  exists es, list_entries q clean names w = (inr es, mkWorld (data w) (length names + pos w))
    /\ map name es = names
    /\ forall e, e ∈ es -> exists n, data w !! (q ++ [name e]) = Some n
         /\ e = entry_of clean (name e) n (modified_text (data w) (q ++ [name e])) (readonly_flag (data w) (q ++ [name e])).
Proof.
  intros R. revert w. induction names as [|c r IH]; intros w A.
  { exists []. destruct w. split; [done|]. split; [done|]. by intros e H%elem_of_nil. }
  apply Forall_cons in A as [[n Hn] A]. destruct (IH (mkWorld (data w) (S (pos w))) A) as (es & E & N & F).
  set (e0 := entry_of clean c n (modified_text (data w) (q ++ [c])) (readonly_flag (data w) (q ++ [c]))).
  assert (L : look (fun f => option_map (fun n => entry_of clean c n (modified_text f (q ++ [c])) (readonly_flag f (q ++ [c])))
    (f !! (q ++ [c]))) w = (inr e0, mkWorld (data w) (S (pos w)))) by (apply look_run; [done|by rewrite Hn]).
  exists (e0 :: es). split; [|split].
  - cbn [list_entries]. rewrite (bind_step _ _ _ (Some e0) (mkWorld (data w) (S (pos w)))) by (unfold attempt; by rewrite L).
    erewrite bind_step by exact E. cbn [length pos data]. do 2 f_equal. lia.
  - cbn. by rewrite N.
  - intros e [->|H]%elem_of_cons; [by exists n|by apply F].
Qed.

(** a listing is the directory.  With the disk answering, an answered
    listing changes nothing and is of a directory below the canonical root: it
    has one entry for every name in it, with its kind, length and the path the
    client can ask for, folders first and then by lower-cased name. *)
Theorem list_dir_spec root rel w r w' :
  reliable O -> list_dir root rel w = (inr r, w') ->
  data w' = data w /\ exists b q, canonical_dir (data w) root = Some b /\ path_prefix b q = true
    /\ node_at (data w) q = Some Dir
    /\ NoDup (map name (entries r)) /\ (forall c, c ∈ map name (entries r) <-> is_Some (data w !! (q ++ [c])))
    /\ (forall e, e ∈ entries r -> exists n, data w !! (q ++ [name e]) = Some n
          /\ e = entry_of (list_path r) (name e) n (modified_text (data w) (q ++ [name e]))
                   (readonly_flag (data w) (q ++ [name e])))
    /\ sorted_by listing_order (entries r) /\ total_count r = Z.of_nat (length (entries r)).
Proof.
  intros R H. unfold list_dir in H. apply bind_inr in H as (p & w1 & Hp & H).
  assert (D1 := Hp). apply safe_resolve_same in D1.
  apply bind_inr in H as (t & w2 & P2 & H). apply (probe_reliable _ _ _ _ R) in P2 as [-> D2].
  destruct (path_exists (data w1) p) eqn:X; [|discriminate H]. cbn [negb] in H.
  unfold path_exists in X. destruct (canonicalize (data w1) p) as [q|] eqn:C; [|done]. clear X.
  destruct (safe_resolve_found _ _ _ _ _ _ R Hp C) as [-> (b & Hb & Pr)].
  apply bind_inr in H as (d & w3 & P3 & H). apply (probe_reliable _ _ _ _ R) in P3 as [-> D3].
  destruct (is_dir (data w2) p) eqn:X; [|discriminate H]. cbn [negb] in H.
  unfold is_dir, stat_node in X. rewrite D2, C in X. destruct (node_at (data w1) p) as [[| |]|] eqn:Nd; try done. clear X.
  destruct (read_dir_names _ _ C Nd) as (l & E & ND & EL).
  apply bind_inr in H as (names & w4 & L4 & H). apply look_inr in L4 as [L4 D4].
  rewrite D3, D2, E in L4. injection L4 as <-.
  assert (E4 : data w4 = data w) by congruence. rewrite <- D1 in *.
  destruct (list_entries_run p (clean_rel rel) (map fst l) w4) as (es & Er & N & F).
  { done. }
  { apply Forall_forall. intros c Hc. rewrite E4. by apply EL. }
  apply bind_inr in H as (es' & w5 & H5 & H). rewrite Er in H5. injection H5 as <- <-.
  injection H as <- <-. cbn [data entries total_count list_path]. split; [done|]. exists b, p.
  assert (Pm : map name (sort_by listing_order es) ≡ₚ map fst l).
  { rewrite <- N. apply Permutation_map, sort_by_perm. }
  split; [done|]. split; [done|]. split; [done|]. split; [by rewrite Pm|]. split; [intros c; by rewrite Pm, EL|].
  split; [|split; [|done]].
  - intros e He. rewrite (sort_by_perm listing_order) in He. rewrite <- E4. by apply F.
  - apply sort_by_sorted; [apply listing_order_total|apply listing_order_trans].
Qed.
End FsHandler.

(** ** Concrete runs *)

Definition plain_metadata : Metadata := {| modified_text _ _ := None; readonly_flag _ _ := false |}.

Definition demo_root : Root := {| shown := lit "/srv/data"; dir := Some [lit "srv"; lit "data"] |}.

Definition demo_disk : fs :=
  <[[lit "srv"] := Dir]> (<[[lit "srv"; lit "data"] := Dir]>
    (<[[lit "srv"; lit "data"; lit "a.txt"] := File [104; 105]]>
      (<[[lit "srv"; lit "data"; lit "Music"] := Dir]> (<[[lit "etc"] := Dir]> ∅)))).

(** The same with two links below the root: to a directory, and to nothing. *)
Definition demo_linked : fs :=
  <[[lit "srv"; lit "data"; lit "out"] := Link [lit "etc"]]>
    (<[[lit "srv"; lit "data"; lit "new"] := Link [lit "etc"; lit "passwd"]]> demo_disk).

Definition demo_write (d : fs) (rel : string) (offset : Z) (b : bytes) :=
  write_chunk (O := toy_env []) demo_root (lit rel) offset b (mkWorld d 0).
Definition demo_mkdir (d : fs) (rel : string) := mkdir (O := toy_env []) demo_root (lit rel) (mkWorld d 0).

(** where the jail leaks.  A link below the root is caught only when what it
    leads to, or the parent of what is asked for, exists: two missing folders
    behind a link to /etc are made in /etc, a file behind a missing folder too,
    and a link that leads nowhere is written through.  One missing name behind
    the link is refused. *)
Theorem jail_leaks :
  data (snd (demo_mkdir demo_linked "out/x/y")) !! [lit "etc"; lit "x"; lit "y"] = Some Dir
  /\ data (snd (demo_write demo_linked "out/cron/job" 0 [42])) !! [lit "etc"; lit "cron"; lit "job"] = Some (File [42])
  /\ data (snd (demo_write demo_linked "new" 0 [42])) !! [lit "etc"; lit "passwd"] = Some (File [42])
  /\ fst (demo_mkdir demo_linked "out/x") = inl (PathTraversal (lit "out/x"))
  /\ fst (demo_write demo_linked "../etc/x" 0 [42]) = inl (PathTraversal (lit "../etc/x")).
Proof. split_and!; vm_compute; reflexivity. Qed.

Lemma demo_canonical : canonical_dir demo_disk demo_root = Some [lit "srv"; lit "data"].
Proof. vm_compute. reflexivity. Qed.

Lemma demo_no_links : no_links demo_disk [lit "srv"; lit "data"].
Proof.
  intros q t _ H. unfold demo_disk in H.
  repeat (apply lookup_insert_Some in H as [[_ H]|[_ H]]; [discriminate H|]). by rewrite lookup_empty in H.
Qed.

Lemma changes_confined_witness :
  outside_same [lit "srv"; lit "data"] demo_disk (data (snd (demo_write demo_disk "x/y/z" 3 [1; 2])))
  /\ no_links (data (snd (demo_write demo_disk "x/y/z" 3 [1; 2]))) [lit "srv"; lit "data"].
Proof.
  exact (proj1 (changes_confined (O := toy_env []) demo_root (lit "x/y/z") (mkWorld demo_disk 0) _ demo_canonical demo_no_links)
    3 [1; 2] _ _ (surjective_pairing _)).
Defined.

Abbreviation demo_read := (read_chunk (O := toy_env []) (fun _ => 5%nat) demo_root (lit "a.txt") 1 100 (mkWorld demo_disk 0)).

Lemma demo_read_run : exists r, demo_read = (inr r, snd demo_read) /\ data_base64 r = lit "aQ==".
Proof.
  assert (E : match fst demo_read with inr r => Some (data_base64 r) | inl _ => None end = Some (lit "aQ=="))
    by (vm_compute; reflexivity).
  destruct demo_read as [[e|r] w']; [discriminate E|]. injection E as E. by exists r.
Qed.

Lemma read_chunk_witness : data (snd demo_read) = demo_disk.
Proof.
  destruct demo_read_run as (r & E & _).
  refine (proj1 (read_chunk_spec (O := toy_env []) (fun _ => 5%nat) demo_root (lit "a.txt") 1 100 (mkWorld demo_disk 0) r _
    toy_env_reliable _ E)). lia.
Defined.

Lemma demo_write_run : exists x, demo_write demo_disk "x/y/z" 3 [1; 2] = (inr x, snd (demo_write demo_disk "x/y/z" 3 [1; 2])).
Proof.
  assert (E : match fst (demo_write demo_disk "x/y/z" 3 [1; 2]) with inr _ => true | inl _ => false end = true)
    by (vm_compute; reflexivity).
  destruct (demo_write demo_disk "x/y/z" 3 [1; 2]) as [[e|x] w']; [discriminate E|]. by exists x.
Qed.

Lemma write_then_read_witness : exists r w'',
  read_chunk (O := toy_env []) (fun _ => 5%nat) demo_root (lit "x/y/z") 3 2 (snd (demo_write demo_disk "x/y/z" 3 [1; 2]))
    = (inr r, w'') /\ Base64.base64_decode (data_base64 r) = inr [1; 2].
Proof.
  destruct demo_write_run as (x & E).
  destruct (write_then_read (O := toy_env []) (fun _ => 5%nat) demo_root (lit "x/y/z") 3 [1; 2] (mkWorld demo_disk 0) x _ _
    toy_env_reliable (fun _ => ltac:(cbn; lia)) demo_canonical demo_no_links ltac:(lia) ltac:(discriminate)
    ltac:(unfold MAX_READ; cbn; lia) ltac:(repeat constructor; lia) E) as (r & w2 & H & B & _).
  exists r, w2. split; [exact H|exact B].
Defined.

Abbreviation demo_list := (list_dir (O := toy_env []) (U := ascii_unicode) (MT := plain_metadata) demo_root [] (mkWorld demo_disk 0)).

Lemma demo_list_run : exists r, demo_list = (inr r, snd demo_list) /\ map name (entries r) = [lit "Music"; lit "a.txt"].
Proof.
  assert (E : match fst demo_list with inr r => Some (map name (entries r)) | inl _ => None end = Some [lit "Music"; lit "a.txt"])
    by (vm_compute; reflexivity).
  destruct demo_list as [[e|r] w']; [discriminate E|]. injection E as E. by exists r.
Qed.

Lemma list_dir_witness : data (snd demo_list) = demo_disk.
Proof.
  destruct demo_list_run as (r & E & _).
  exact (proj1 (list_dir_spec (O := toy_env []) (U := ascii_unicode) (MT := plain_metadata) demo_root [] (mkWorld demo_disk 0) r _
    toy_env_reliable E)).
Defined.
End FsHandler.
