(* ===== verification/Transcoder.v ===== *)
(** * Transcoder: ffprobe and ffmpeg

    agent/src/transcoder.rs: what the agent asks the two programs and what it
    makes of their answers.  The programs themselves are a parameter: a run of
    one on a disk ends with a status and its output, and leaves a disk. *)

From S2P Require Import Prelude Text Effects Externals Fs Storage Jail Json FsHandler.

Module Transcoder.
Import Fs FsHandler Json.

Record Output := { success : bool; stdout : bytes; stderr : bytes }.

(** std::process::Command, String::from_utf8_lossy and the floats of std. *)
Class Programs := {
  command : rstr -> list rstr -> fs -> (rstr + Output) * fs;
  from_utf8_lossy : bytes -> rstr;
  from_slice : bytes -> rstr + Value;
  (** f64: parsing, and printing with two decimals *)
  parse_f64 : rstr -> option rstr;
  two_decimals : rstr -> rstr
}.

Record MediaProbeResult := {
  duration_secs : rstr; width : option Z; height : option Z; video_codec : option rstr; audio_codec : option rstr;
  bitrate_kbps : option Z; format_name : rstr }.

(** Result<A, String> over the disk. *)
Definition R (A : Type) : Type := World fs -> (rstr + A) * World fs.

#[export] Instance R_ret : MRet R := fun A a w => (inr a, w).
#[export] Instance R_bind : MBind R := fun A B k m w =>
  match m w with
  | (inr a, w') => k a w'
  | (inl e, w') => (inl e, w')
  end.

Definition fail {A} (e : rstr) : R A := fun w => (inl e, w).

(** A call of std::fs whose error is put in a text. *)
Definition with_text {A} (text : string) (m : F A) : R A := fun w =>
  match m w with
  | (inr a, w') => (inr a, w')
  | (inl (Io e), w') => (inl (lit text ++ e), w')
  | (inl e, w') => (inl (lit text ++ display e), w')
  end.

Section Transcoder.
Context {O : Oracle} {P : Programs}.

Definition seen (p : path) : R bool := fun w => match probe (fun f => path_exists f p) w with
                                                | (inr b, w') => (inr b, w')
                                                | (inl _, w') => (inr false, w')
                                                end.

(** A run of a program: it could not be started, it failed, or it answered. *)
Definition run (program : string) (args : list rstr) (not_started failed : string) : R bytes := fun w =>
  let '(r, d) := command (lit program) args (data w) in
  let w' := mkWorld d (S (pos w)) in
  match r with
  | inl e => (inl (lit not_started ++ e), w')
  | inr o => if success o then (inr (stdout o), w') else (inl (lit failed ++ from_utf8_lossy (stderr o)), w')
  end.

(** [w as u32] *)
Definition as_u32 (n : Z) : Z := n mod 2 ^ 32.

(** One turn of the loop over the streams. *)
Definition read_stream (r : MediaProbeResult) (s : Value) : MediaProbeResult :=
  let codec_type := default [] (as_str (index s "codec_type")) in
  if bool_decide (codec_type = lit "video") && match video_codec r with None => true | Some _ => false end
  then {| duration_secs := duration_secs r; width := option_map as_u32 (as_u64 (index s "width"));
          height := option_map as_u32 (as_u64 (index s "height")); video_codec := as_str (index s "codec_name");
          audio_codec := audio_codec r; bitrate_kbps := bitrate_kbps r; format_name := format_name r |}
  else if bool_decide (codec_type = lit "audio") && match audio_codec r with None => true | Some _ => false end
  then {| duration_secs := duration_secs r; width := width r; height := height r; video_codec := video_codec r;
          audio_codec := as_str (index s "codec_name"); bitrate_kbps := bitrate_kbps r; format_name := format_name r |}
  else r.

Definition option_bind {A B} (o : option A) (k : A -> option B) : option B :=
  match o with Some a => k a | None => None end.

(** What ffprobe answered, read. *)
Definition read_probe (json : Value) : MediaProbeResult :=
  let format := index json "format" in
  let start :=
    {| duration_secs := default (lit "0.0") (option_bind (as_str (index format "duration")) parse_f64);
       width := None; height := None; video_codec := None; audio_codec := None;
       bitrate_kbps := option_map (fun b => b / 1000)
                         (option_bind (as_str (index format "bit_rate")) (parse_uint 10 u64_max));
       format_name := default (lit "unknown") (as_str (index format "format_name")) |} in
  match index json "streams" with
  | Arr streams => fold_left read_stream streams start
  | _ => start
  end.

Definition probe_args (file_path : path) : list rstr :=
  map lit ["-v"; "quiet"; "-print_format"; "json"; "-show_format"; "-show_streams"]%string ++ [show_path file_path].

Definition media_probe (file_path : path) : R MediaProbeResult :=
  there ← seen file_path;
  if negb there then fail (lit "File does not exist: " ++ show_path file_path) else
  out ← run "ffprobe" (probe_args file_path) "Failed to execute ffprobe: " "ffprobe exited with error: ";
  match from_slice out with
  | inl e => fail (lit "Failed to parse ffprobe JSON output: " ++ e)
  | inr json => mret (read_probe json)
  end.

Definition make_dirs (p : path) (text : string) : R unit :=
  with_text text (sys (fun f => option_map (fun d => (tt, d)) (create_dir_all f p))).

Definition thumbnail_args (input_file output_image : path) (time_offset_secs : rstr) : list rstr :=
  [lit "-ss"; two_decimals time_offset_secs; lit "-i"; show_path input_file]
  ++ map lit ["-vframes"; "1"; "-q:v"; "2"; "-y"]%string ++ [show_path output_image].

Definition generate_thumbnail (input_file output_image : path) (time_offset_secs : rstr) : R path :=
  there ← seen input_file;
  if negb there then fail (lit "Input file does not exist: " ++ show_path input_file) else
  _ ← make_dirs (parent_of output_image) "Failed to create thumbnail directory: ";
  _ ← run "ffmpeg" (thumbnail_args input_file output_image time_offset_secs)
        "Failed to execute ffmpeg for thumbnail: " "ffmpeg thumbnail generation failed: ";
  mret output_image.

Definition encoder_args : list rstr :=
  map lit ["-c:v"; "libx264"; "-preset"; "veryfast"; "-crf"; "23"; "-c:a"; "aac"; "-b:a"; "128k"]%string.

Definition mp4_args (input_file output_file : path) (max_height : option Z) : list rstr :=
  [lit "-i"; show_path input_file]
  ++ (match max_height with
      | Some h => [lit "-vf"; lit "scale=-2:min(" ++ show_uint h ++ lit ",ih)"]
      | None => []
      end)
  ++ encoder_args ++ map lit ["-movflags"; "+faststart"; "-y"]%string ++ [show_path output_file].

Definition transcode_web_mp4 (input_file output_file : path) (max_height : option Z) : R path :=
  there ← seen input_file;
  if negb there then fail (lit "Input file does not exist: " ++ show_path input_file) else
  _ ← make_dirs (parent_of output_file) "Failed to create output directory: ";
  _ ← run "ffmpeg" (mp4_args input_file output_file max_height)
        "Failed to execute ffmpeg transcode: " "ffmpeg transcoding failed: ";
  mret output_file.

Definition hls_args (input_file output_dir : path) (segment_duration_secs : Z) : list rstr :=
  [lit "-i"; show_path input_file] ++ encoder_args
  ++ [lit "-hls_time"; show_uint segment_duration_secs; lit "-hls_list_size"; lit "0"; lit "-hls_segment_filename";
      show_path (output_dir ++ [lit "segment_%03d.ts"]); lit "-y"; show_path (output_dir ++ [lit "playlist.m3u8"])].

Definition generate_hls (input_file output_dir : path) (segment_duration_secs : Z) : R path :=
  there ← seen input_file;
  if negb there then fail (lit "Input file does not exist: " ++ show_path input_file) else
  _ ← make_dirs output_dir "Failed to create HLS output directory: ";
  _ ← run "ffmpeg" (hls_args input_file output_dir segment_duration_secs)
        "Failed to execute ffmpeg HLS generation: " "ffmpeg HLS generation failed: ";
  mret (output_dir ++ [lit "playlist.m3u8"]).

(** ** Lemmas *)

Definition is_stream (kind : string) (s : Value) : bool :=
  bool_decide (as_str (index s "codec_type") = Some (lit kind)).

Lemma is_stream_default kind s :
  kind <> EmptyString -> bool_decide (default [] (as_str (index s "codec_type")) = lit kind) = is_stream kind s.
Proof.
  intros N. unfold is_stream. destruct (as_str _) as [t|]; cbn; apply bool_decide_ext.
  - split; congruence.
  - split; [|discriminate]. destruct kind; [done|]. intros X. cbn in X. discriminate X.
Qed.

(** The codec of the first stream of a kind that names one. *)
Definition first_codec (kind : string) (streams : list Value) : option rstr :=
  head (omap (fun s => if is_stream kind s then as_str (index s "codec_name") else None) streams).

Lemma codecs_of streams r :
  video_codec (fold_left read_stream streams r)
    = match video_codec r with Some c => Some c | None => first_codec "video" streams end
  /\ audio_codec (fold_left read_stream streams r)
    = match audio_codec r with Some c => Some c | None => first_codec "audio" streams end.
Proof.
  revert r. induction streams as [|s l IH]; intros r; cbn [fold_left].
  { unfold first_codec. cbn. by destruct (video_codec r), (audio_codec r). }
  destruct (IH (read_stream r s)) as [-> ->]. clear IH. unfold read_stream.
  rewrite !is_stream_default by done.
  assert (Ex : is_stream "video" s = true -> is_stream "audio" s = false).
  { unfold is_stream. intros X. apply bool_decide_eq_true in X. apply bool_decide_eq_false. rewrite X. discriminate. }
  unfold first_codec. cbn [omap list_omap].
  destruct (is_stream "video" s) eqn:V.
  - rewrite Ex by done. destruct (video_codec r) as [c|] eqn:Vc; cbn.
    + rewrite Vc. by destruct (audio_codec r).
    + destruct (as_str (index s "codec_name")); cbn; by destruct (audio_codec r).
  - destruct (is_stream "audio" s) eqn:A; cbn.
    + destruct (audio_codec r) as [c|] eqn:Ac; cbn; [rewrite Ac; by destruct (video_codec r)|].
      destruct (as_str (index s "codec_name")); cbn; by destruct (video_codec r).
    + by destruct (video_codec r), (audio_codec r).
Qed.

(** The codecs a probe answers are those of the first video and the first audio
    stream that name one. *)
Lemma read_probe_codecs json streams :
  index json "streams" = Arr streams ->
  video_codec (read_probe json) = first_codec "video" streams
  /\ audio_codec (read_probe json) = first_codec "audio" streams.
Proof. intros H. unfold read_probe. rewrite H. apply codecs_of. Qed.
End Transcoder.
End Transcoder.
