(* ===== verification/Tunnel.v ===== *)
(** * Tunnel: file commands over the control tunnel

    agent/src/connection_manager.rs: the commands the control plane sends over
    the WebSocket, the policy on storage roots and the loop that answers them. *)

From S2P Require Import Prelude Text Effects Externals Fs Storage Jail Base64 Delta Json FsHandler Transcoder.

Module Tunnel.
Import Fs Jail FsHandler Json.

(** ** The results as JSON *)

Definition entry_value (e : FsEntry) : Value :=
  obj [("name", Str (name e)); ("relative_path", Str (relative_path e)); ("entry_type", Str (entry_type e));
       ("size_bytes", Num (size_bytes e)); ("modified_at", opt_str (modified_at e));
       ("mime_type", opt_str (mime_type e)); ("is_readonly", Bool (is_readonly e))]%string.

Definition list_value (r : ListDirResult) : Value :=
  obj [("relative_path", Str (list_path r)); ("entries", Arr (map entry_value (entries r)));
       ("total_count", Num (total_count r))]%string.

Definition stat_value (r : StatResult) : Value :=
  obj [("exists", Bool (exists_ r)); ("entry", match entry r with Some e => entry_value e | None => Null end)]%string.

Definition read_value (r : ReadChunkResult) : Value :=
  obj [("relative_path", Str (read_path r)); ("offset", Num (read_offset r)); ("length", Num (length_ r));
       ("total_size", Num (read_total r)); ("eof", Bool (eof r)); ("data_base64", Str (data_base64 r))]%string.

Definition write_value (r : WriteChunkResult) : Value :=
  obj [("relative_path", Str (write_path r)); ("offset", Num (write_offset r)); ("bytes_written", Num (bytes_written r));
       ("total_size", Num (write_total r))]%string.

Definition opt_num (o : option Z) : Value := match o with Some n => Num n | None => Null end.

Definition probe_value (r : Transcoder.MediaProbeResult) : Value :=
  obj [("duration_secs", Float (Transcoder.duration_secs r)); ("width", opt_num (Transcoder.width r));
       ("height", opt_num (Transcoder.height r)); ("video_codec", opt_str (Transcoder.video_codec r));
       ("audio_codec", opt_str (Transcoder.audio_codec r)); ("bitrate_kbps", opt_num (Transcoder.bitrate_kbps r));
       ("format_name", Str (Transcoder.format_name r))]%string.

Section Tunnel.
Context {O : Oracle} {U : Unicode} {MT : Metadata} {P : Transcoder.Programs} {S2 : Sha256} {HX : Hex} {JT : JsonText}.
Context (reads : nat -> nat) (cwd : path).

(** ** The policy on storage roots *)

Definition is_separator (c : Z) : bool := (c =? chr "\") || (c =? chr "/").

(** [trim().trim_end_matches(['\\', '/']).to_lowercase()] *)
Definition clean (s : rstr) : rstr := to_lowercase (trim_end_by is_separator (trim s)).

Definition is_forbidden (default_root root : rstr) (allowed excluded : list rstr) : bool :=
  let clean_root := clean root in
  let clean_default := clean default_root in
  let is_accessing_default_data_dir :=
    bool_decide (clean_root = clean_default) || starts_with clean_default clean_root in
  let matches_excluded := existsb (fun ex =>
    bool_decide (clean_root = clean ex) || starts_with (clean ex) clean_root) excluded in
  match allowed with
  | _ :: _ =>
      let matches_allowed := existsb (fun al =>
        bool_decide (clean_root = clean al) || starts_with (clean al) clean_root || starts_with clean_root (clean al))
        allowed || is_accessing_default_data_dir in
      negb matches_allowed || matches_excluded
  | [] => if negb is_accessing_default_data_dir then true else matches_excluded
  end.

(** ** Commands *)

Definition target_root (default_root : rstr) (req : Value) : rstr :=
  match as_str (index req "storage_path") with
  | Some custom_root => if nonempty (trim custom_root) then custom_root else default_root
  | None => default_root
  end.

Definition answer (request_id : rstr) (ok : bool) (field : string) (v : Value) : Value :=
  obj [("type", Str (lit "fs_response")); ("request_id", Str request_id); ("success", Bool ok); (field, v)]%string.

Definition respond {A} (request_id : rstr) (m : F A) (value : A -> Value) (w : World fs) : Value * World fs :=
  match m w with
  | (inr a, w') => (answer request_id true "result" (value a), w')
  | (inl e, w') => (answer request_id false "error" (Str (display e)), w')
  end.

(** The canonical root for the commands that hand a path on. *)
Definition resolved (request_id : rstr) (root : Root) (rel_path : rstr)
  (k : path -> World fs -> Value * World fs) (w : World fs) : Value * World fs :=
  match look (fun f => canonical_dir f root) w with
  | (inl (Io e), w1) => (answer request_id false "error" (Str (lit "Invalid root: " ++ e)), w1)
  | (inl e, w1) => (answer request_id false "error" (Str (lit "Invalid root: " ++ display e)), w1)
  | (inr b, w1) =>
      match safe_resolve (canonical_root b) rel_path w1 with
      | (inl e, w2) => (answer request_id false "error" (Str (display e)), w2)
      | (inr p, w2) => k p w2
      end
  end.

(** delta::file_hash: the file is opened and read to its end. *)
Definition hash_of (p : path) (w : World fs) : (rstr + rstr) * World fs :=
  match look (fun f => read f p) w with
  | (inl (Io e), w1) => (inl e, w1)
  | (inl e, w1) => (inl (display e), w1)
  | (inr b, w1) =>
      (match Delta.file_hash (Datatypes.S (length b)) reads b with Some h => inr h | None => inl [] end, w1)
  end.

Definition deleted_value (b : bool) : Value := obj [("deleted", Bool b)]%string.
Definition created_value (b : bool) : Value := obj [("created", Bool b)]%string.

Definition run_command (request_id op rel_path : rstr) (root : Root) (req : Value) (w : World fs) : Value * World fs :=
  if bool_decide (op = lit "fs_list_dir") then respond request_id (list_dir root rel_path) list_value w
  else if bool_decide (op = lit "fs_stat") then respond request_id (stat root rel_path) stat_value w
  else if bool_decide (op = lit "fs_read_chunk") then
    let offset := default 0 (as_u64 (index req "offset")) in
    let length := default (256 * 1024) (as_u64 (index req "length")) in
    respond request_id (read_chunk reads root rel_path offset length) read_value w
  else if bool_decide (op = lit "fs_write_chunk") then
    let offset := default 0 (as_u64 (index req "offset")) in
    let b64 := default [] (as_str (index req "data_base64")) in
    match Base64.base64_decode b64 with
    | inr bytes => respond request_id (write_chunk root rel_path offset bytes) write_value w
    | inl err => (answer request_id false "error" (Str (lit "Base64 decode error: " ++ err)), w)
    end
  else if bool_decide (op = lit "fs_delete") then
    let recursive := default false (as_bool (index req "recursive")) in
    respond request_id (delete root rel_path recursive) deleted_value w
  else if bool_decide (op = lit "fs_mkdir") then respond request_id (mkdir root rel_path) created_value w
  else if bool_decide (op = lit "media_probe") then
    resolved request_id root rel_path (fun p w1 =>
      match Transcoder.media_probe p w1 with
      | (inr r, w2) => (answer request_id true "result" (probe_value r), w2)
      | (inl e, w2) => (answer request_id false "error" (Str e), w2)
      end) w
  else if bool_decide (op = lit "fs_checksum") then
    resolved request_id root rel_path (fun p w1 =>
      match hash_of p w1 with
      | (inr h, w2) => (answer request_id true "result" (obj [("sha256", Str h)]%string), w2)
      | (inl e, w2) => (answer request_id false "error" (Str e), w2)
      end) w
  else (answer request_id false "error" (Str (lit "Unknown filesystem operation: " ++ apostrophes op)), w).

Definition handle_fs_command (default_root : rstr) (req : Value) (allowed excluded : list rstr) (w : World fs)
  : Value * World fs :=
  let request_id := default [] (as_str (index req "request_id")) in
  let op := default [] (as_str (index req "op")) in
  let rel_path := default [] (as_str (index req "relative_path")) in
  let root := target_root default_root req in
  if is_forbidden default_root root allowed excluded
  then (answer request_id false "error" (Str (lit "Access to storage path " ++ apostrophes root
          ++ lit " is restricted by node policy in agent.toml (fail-closed allowlist)")), w)
  else run_command request_id op rel_path (root_at cwd root) req w.

(** ** The receiving loop *)

Inductive Frame := Text (t : rstr) | Ping (payload : bytes) | Close | Failed | OtherFrame.
Inductive Reply := TextReply (t : rstr) | Pong (payload : bytes).

(** The frames until the tunnel closes; a reply that cannot be sent is only
    logged, so that what is listed is what the loop tries to send. *)
Fixpoint receive (storage_root : rstr) (allowed excluded : list rstr) (frames : list Frame) (w : World fs)
  : list Reply * World fs :=
  match frames with
  | [] => ([], w)
  | Text t :: rest =>
      match json_parse t with
      | Some parsed =>
          match get "op" parsed with
          | Some _ =>
              let '(resp, w1) := handle_fs_command storage_root parsed allowed excluded w in
              let '(replies, w2) := receive storage_root allowed excluded rest w1 in
              (TextReply (json_print resp) :: replies, w2)
          | None => receive storage_root allowed excluded rest w
          end
      | None => receive storage_root allowed excluded rest w
      end
  | Ping payload :: rest =>
      let '(replies, w2) := receive storage_root allowed excluded rest w in
      (Pong payload :: replies, w2)
  | Close :: _ | Failed :: _ => ([], w)
  | OtherFrame :: rest => receive storage_root allowed excluded rest w
  end.

(** ** Lemmas *)

Ltac reading :=
  repeat first [apply always_fail; apply _ | apply always_ret; apply _ | apply always_look; apply _
    | apply always_probe; apply _ | apply always_bind; [apply _| |intros] | case_goal].

Lemma list_entries_same q c names : always eq (list_entries q c names).
Proof.
  induction names as [|n r IH]; cbn [list_entries]; [apply always_ret; apply _|]. apply always_bind; [apply _| |intros].
  - intros w0 o w' Hq. unfold attempt in Hq. destruct (look _ w0) as [[e|a] w1] eqn:L; injection Hq as _ <-;
      by apply (always_look eq) in L.
  - apply always_bind; [apply _|exact IH|intros]. apply always_ret; apply _.
Qed.

Lemma list_dir_same root rel : always eq (list_dir root rel).
Proof.
  unfold list_dir. apply always_bind; [apply _|apply safe_resolve_same|intros]. cbv zeta. reading; apply list_entries_same.
Qed.

Lemma stat_same root rel : always eq (stat root rel).
Proof.
  intros w r w' H. unfold stat in H. destruct (safe_resolve root rel w) as [[e|p] w1] eqn:S;
    apply safe_resolve_same in S; rewrite S; [destruct e; by injection H as _ <-|].
  revert H. unfold stat_entry. cbv zeta. apply (fun X => X : always eq _). reading.
Qed.

Lemma read_chunk_same root rel o n : always eq (read_chunk reads root rel o n).
Proof.
  unfold read_chunk. apply always_bind; [apply _|apply safe_resolve_same|intros]. cbv zeta. reading.
  intros w' r' w'' Hq. unfold read_buffer in Hq. by apply (always_look eq) in Hq.
Qed.

Lemma respond_keeps {A : Type} (Q : fs -> fs -> Prop) (id : rstr) (m : F A) v w r w' :
  (forall o w1, m w = (o, w1) -> Q (data w) (data w1)) -> respond id m v w = (r, w') -> Q (data w) (data w').
Proof. intros K H. unfold respond in H. destruct (m w) as [[e|a] w1] eqn:E; injection H as _ <-; by eapply K. Qed.

Lemma resolved_keeps id root rel k w r w' :
  (forall p w1 r w2, k p w1 = (r, w2) -> data w2 = data w1) ->
  resolved id root rel k w = (r, w') -> data w' = data w.
Proof.
  intros K H. unfold resolved in H. destruct (look _ w) as [[e|b] w1] eqn:L; apply (always_look eq) in L; rewrite L.
  - destruct e; by injection H as _ <-.
  - destruct (safe_resolve _ _ w1) as [[e|p] w2] eqn:S; apply safe_resolve_same in S; rewrite S.
    + by injection H as _ <-.
    + by eapply K.
Qed.

Lemma hash_of_same p w r w' : hash_of p w = (r, w') -> data w' = data w.
Proof.
  unfold hash_of. destruct (look _ w) as [[e|b] w1] eqn:L; apply (always_look eq) in L; rewrite L;
    [destruct e|]; by intros [= _ <-].
Qed.

(** A root that does not exist: nothing can be done below it. *)
Lemma no_root_fails root rel w r w' :
  canonical_dir (data w) root = None -> safe_resolve root rel w = (r, w') -> exists e, r = inl e.
Proof.
  intros N H. unfold safe_resolve in H. apply bind_cases in H as [(b & w1 & L & _)|(e & _ & ->)]; [|by exists e].
  apply relabel_inr, look_inr in L as [L _]. congruence.
Qed.

Lemma no_root_same {A} root rel (k : path -> F A) w r w' :
  canonical_dir (data w) root = None -> (x ← safe_resolve root rel; k x) w = (r, w') -> data w' = data w.
Proof.
  intros N H. apply bind_cases in H as [(p & w1 & S & _)|(e & S & _)].
  - by apply no_root_fails in S as [e E].
  - by apply safe_resolve_same in S as <-.
Qed.

Lemma command_inside id op rel root req w r w' :
  op <> lit "media_probe" -> run_command id op rel root req w = (r, w') ->
  match canonical_dir (data w) root with
  | Some b => no_links (data w) b -> outside_same b (data w) (data w')
  | None => data w' = data w
  end.
Proof.
  intros Np H. set (Q := fun f f' : fs => match canonical_dir f root with
    | Some b => no_links f b -> outside_same b f f' | None => f' = f end).
  change (Q (data w) (data w')).
  assert (Same : data w' = data w -> Q (data w) (data w')).
  { unfold Q. intros ->. destruct (canonical_dir _ _); [done|reflexivity]. }
  unfold run_command in H. cbv zeta in H.
  repeat (case_bool_decide; [try (apply Same; apply (respond_keeps eq) in H; [done|]; intros o w1;
    first [apply list_dir_same | apply stat_same | apply read_chunk_same])|]).
  - destruct (Base64.base64_decode _) as [err|bytes]; [by injection H as _ <-; apply Same|].
    apply (respond_keeps Q) in H; [done|]. intros o w1 E. unfold Q. destruct (canonical_dir _ _) as [b|] eqn:C.
    + intros N. by eapply write_inside.
    + unfold write_chunk in E. by apply no_root_same in E.
  - apply (respond_keeps Q) in H; [done|]. intros o w1 E. unfold Q. destruct (canonical_dir _ _) as [b|] eqn:C.
    + intros N. by eapply delete_inside.
    + unfold delete in E. by apply no_root_same in E.
  - apply (respond_keeps Q) in H; [done|]. intros o w1 E. unfold Q. destruct (canonical_dir _ _) as [b|] eqn:C.
    + intros N. by eapply mkdir_inside.
    + unfold mkdir in E. by apply no_root_same in E.
  - done.
  - apply Same. eapply resolved_keeps; [|exact H]. intros p w1 r1 w2 E. cbv beta in E.
    destruct (hash_of p w1) as [[e|h] w3] eqn:Eh; apply hash_of_same in Eh; by injection E as _ <-.
  - injection H as _ <-. by apply Same.
Qed.

(** C10: what a command over the tunnel changes.  A command whose root the policy
    forbids is answered with a failure and does nothing; with an empty
    allow-list only roots whose text begins with that of the default root are
    let through, and a root whose text begins with that of an excluded one
    never is.  A command that is let through, other than a probe of a media
    file, changes nothing when its root does not exist, and nothing outside its
    canonical root when no link lies below it. *)
Theorem tunnel_confined default_root req allowed excluded w v w' :
  handle_fs_command default_root req allowed excluded w = (v, w') ->
  let root := target_root default_root req in
  (is_forbidden default_root root allowed excluded = true -> data w' = data w /\ index v "success" = Bool false)
  /\ (allowed = [] -> starts_with (clean default_root) (clean root) = false ->
        is_forbidden default_root root allowed excluded = true)
  /\ (forall ex, ex ∈ excluded -> starts_with (clean ex) (clean root) = true ->
        is_forbidden default_root root allowed excluded = true)
  /\ (as_str (index req "op") <> Some (lit "media_probe") ->
        match canonical_dir (data w) (root_at cwd root) with
        | Some b => no_links (data w) b -> outside_same b (data w) (data w')
        | None => data w' = data w
        end).
Proof.
  intros H root. unfold handle_fs_command in H. cbv zeta in H. fold root in H. split; [|split; [|split]].
  - intros X. rewrite X in H. by injection H as <- <-.
  - intros -> X. unfold is_forbidden. cbv zeta. rewrite X, orb_false_r.
    destruct (bool_decide_reflect (clean root = clean default_root)) as [E|E]; [|done].
    rewrite E in X. assert (starts_with (clean default_root) (clean default_root) = true) as Y; [|congruence].
    apply starts_with_iff. exists []. by rewrite app_nil_r.
  - intros ex I X. unfold is_forbidden. cbv zeta.
    assert (E : existsb (fun ex => bool_decide (clean root = clean ex) || starts_with (clean ex) (clean root)) excluded = true).
    { apply existsb_exists. exists ex. split; [by apply list_elem_of_In|]. by rewrite X, orb_true_r. }
    rewrite E. destruct allowed; [by destruct (negb _)|]. by rewrite orb_true_r.
  - intros N. destruct (is_forbidden _ _ _ _).
    + injection H as _ <-. destruct (canonical_dir _ _); [intros _; reflexivity|done].
    + eapply command_inside; [|exact H]. intros E. apply N. destruct (as_str (index req "op")) as [t|]; cbn in E; [by rewrite E|].
      discriminate E.
Qed.

(** ** The loop *)

(** The frames up to the end of the tunnel that ask for an answer. *)
Fixpoint asking (frames : list Frame) : list Frame :=
  match frames with
  | [] => []
  | Text t :: rest =>
      match json_parse t with
      | Some v => match get "op" v with Some _ => Text t :: asking rest | None => asking rest end
      | None => asking rest
      end
  | Ping p :: rest => Ping p :: asking rest
  | Close :: _ | Failed :: _ => []
  | OtherFrame :: rest => asking rest
  end.

(** A ping is answered with its payload, a command with a response of its number. *)
Definition answers (f : Frame) (r : Reply) : Prop :=
  match f, r with
  | Ping p, Pong p' => p' = p
  | Text t, TextReply t' => exists req v, json_parse t = Some req /\ t' = json_print v
      /\ index v "type" = Str (lit "fs_response")
      /\ index v "request_id" = Str (default [] (as_str (index req "request_id")))
      /\ exists b, index v "success" = Bool b
  | _, _ => False
  end.

Definition response_of (id : rstr) (v : Value) : Prop :=
  index v "type" = Str (lit "fs_response") /\ index v "request_id" = Str id /\ exists b, index v "success" = Bool b.

Lemma answer_response id b field v :
  field ∈ ["result"; "error"]%string -> response_of id (answer id b field v).
Proof.
  intros F. rewrite !elem_of_cons, elem_of_nil in F. destruct F as [->|[->|[]]]; (split; [done|split; [done|by exists b]]).
Qed.

Ltac field := repeat constructor.

Lemma command_answers id op rel root req w v w' :
  run_command id op rel root req w = (v, w') -> response_of id v.
Proof.
  assert (A : forall b f x, f ∈ ["result"; "error"]%string -> response_of id (answer id b f x)) by (intros; by apply answer_response).
  assert (Rs : forall A (m : F A) k w r w1, respond id m k w = (r, w1) -> response_of id r).
  { intros X m k w0 r w1 E. unfold respond in E. destruct (m w0) as [[e|a] w2]; injection E as <- _; apply A; field. }
  assert (Re : forall k w r w1, (forall p w r w1, k p w = (r, w1) -> response_of id r) ->
    resolved id root rel k w = (r, w1) -> response_of id r).
  { intros k w0 r w1 K E. unfold resolved in E. destruct (look _ w0) as [[e|b] w2]; [destruct e; injection E as <- _; apply A; field|].
    destruct (safe_resolve _ _ w2) as [[e|p] w3]; [injection E as <- _; apply A; field|by eapply K]. }
  unfold run_command. cbv zeta. repeat (case_bool_decide; [try apply Rs|]).
  - destruct (Base64.base64_decode _); [intros [= <- _]; apply A; field|apply Rs].
  - apply Re. intros p w1 r w2 E. cbv beta in E. destruct (Transcoder.media_probe _ _) as [[e|x] w3]; injection E as <- _; apply A; field.
  - apply Re. intros p w1 r w2 E. cbv beta in E. destruct (hash_of _ _) as [[e|x] w3]; injection E as <- _; apply A; field.
  - intros [= <- _]. apply A; field.
Qed.

(** the tunnel answers every command.  Over any sequence of frames, up to
    the first close or error, the loop makes exactly one reply to each ping and
    to each command, in their order: the payload of the ping, or a response with
    the number of the command that says whether it succeeded. *)
Theorem tunnel_answers storage_root allowed excluded frames w :
  Forall2 answers (asking frames) (fst (receive storage_root allowed excluded frames w)).
Proof.
  revert w. induction frames as [|[t|p| | |] rest IH]; intros w; cbn [asking receive]; try constructor.
  - destruct (json_parse t) as [req|] eqn:E; [|apply IH]. destruct (get "op" req) as [op|]; [|apply IH].
    destruct (handle_fs_command storage_root req allowed excluded w) as [v w1] eqn:H.
    destruct (receive storage_root allowed excluded rest w1) as [rs w2] eqn:Rc. cbn [fst]. constructor.
    + exists req, v. split; [done|]. split; [done|]. unfold handle_fs_command in H. cbv zeta in H.
      destruct (is_forbidden _ _ _ _); [injection H as <- _; apply answer_response; field|by eapply command_answers].
    + specialize (IH w1). by rewrite Rc in IH.
  - destruct (receive storage_root allowed excluded rest w) as [rs w2] eqn:Rc. cbn [fst]. constructor; [done|].
    specialize (IH w). by rewrite Rc in IH.
  - apply IH.
Qed.
End Tunnel.

(** ** Concrete runs *)

(** A machine without ffprobe. *)
Definition no_programs : Transcoder.Programs := {|
  Transcoder.command _ _ d := (inl (lit "not found"), d);
  Transcoder.from_utf8_lossy b := b;
  Transcoder.from_slice _ := inl [];
  Transcoder.parse_f64 _ := None;
  Transcoder.two_decimals s := s |}.

Definition demo_machine : fs :=
  <[[lit "etc"; lit "passwd"] := File [114]]>
    (<[[lit "srv"; lit "database"] := Dir]> (<[[lit "srv"; lit "database"; lit "dump"] := File [100]]> demo_disk)).

Definition demo_request (op root rel : string) : Value :=
  obj [("request_id", Str (lit "7")); ("op", Str (lit op)); ("storage_path", Str (lit root)); ("relative_path", Str (lit rel))]%string.

Definition demo_command (allowed excluded : list string) (req : Value) :=
  handle_fs_command (O := toy_env []) (U := ascii_unicode) (MT := plain_metadata) (P := no_programs) (S2 := toy_sha256)
    (HX := plain_hex) (fun _ => 9%nat) [] (lit "/srv/data") req (map lit allowed) (map lit excluded) (mkWorld demo_machine 0).

(** What a command read, when it succeeded. *)
Definition demo_read_result (r : Value * World fs) : option rstr :=
  match index (fst r) "success" with
  | Bool true => as_str (index (index (fst r) "result") "data_base64")
  | _ => None
  end.

(** where the policy leaks.  The policy compares texts, not paths: with an
    allow-list the root "/" is let through, since every allowed path begins with
    its empty trimmed text; with an empty one, a root that begins with the
    default root and then climbs out of it, or names a sibling of it, is let
    through.  Each reads a file outside the allowed roots. *)
Theorem policy_leaks :
  demo_read_result (demo_command ["/srv/share"]%string [] (demo_request "fs_read_chunk" "/" "etc/passwd")) = Some (lit "cg==")
  /\ demo_read_result (demo_command [] [] (demo_request "fs_read_chunk" "/srv/data/../../etc" "passwd")) = Some (lit "cg==")
  /\ demo_read_result (demo_command [] [] (demo_request "fs_read_chunk" "/srv/database" "dump")) = Some (lit "ZA==")
  /\ demo_read_result (demo_command [] [] (demo_request "fs_read_chunk" "/etc" "passwd")) = None.
Proof. split_and!; vm_compute; reflexivity. Qed.

Abbreviation demo_made := (demo_command [] [] (demo_request "fs_mkdir" "/srv/data" "x/y")).

Lemma demo_machine_root : canonical_dir demo_machine (root_at [] (lit "/srv/data")) = Some [lit "srv"; lit "data"].
Proof. vm_compute. reflexivity. Qed.

Lemma demo_machine_links : no_links demo_machine [lit "srv"; lit "data"].
Proof.
  intros q t _ H. unfold demo_machine, demo_disk in H.
  repeat (apply lookup_insert_Some in H as [[_ H]|[_ H]]; [discriminate H|]). by rewrite lookup_empty in H.
Qed.

Lemma demo_target : target_root (lit "/srv/data") (demo_request "fs_mkdir" "/srv/data" "x/y") = lit "/srv/data".
Proof. vm_compute. reflexivity. Qed.

Lemma tunnel_confined_witness : outside_same [lit "srv"; lit "data"] demo_machine (data (snd demo_made)).
Proof.
  pose proof (tunnel_confined (O := toy_env []) (U := ascii_unicode) (MT := plain_metadata) (P := no_programs) (S2 := toy_sha256)
    (HX := plain_hex) (fun _ => 9%nat) [] (lit "/srv/data") (demo_request "fs_mkdir" "/srv/data" "x/y") [] []
    (mkWorld demo_machine 0) (fst demo_made) (snd demo_made) (surjective_pairing demo_made)) as (_ & _ & _ & K).
  rewrite demo_target in K. cbn [data] in K. rewrite demo_machine_root in K.
  exact (K ltac:(intros X; vm_compute in X; discriminate X) demo_machine_links).
Defined.
End Tunnel.
