(* ===== verification/LanServer.v ===== *)
(** * LanServer: the agent's HTTP server on the local network

    agent/src/lan_server.rs: one connection reads one request of at most 16384
    bytes and writes one response.  [Lan] has the range and permission checks. *)

From S2P Require Import Prelude Text Bits Effects Externals Fs Storage Jail Json Utf8 FsHandler Transcoder Tunnel Http Lan.

Module LanServer.
Import Fs Jail FsHandler Json Lan Utf8.

Record LanServerConfig := { device_id : rstr; auth_token : rstr; preferred_port : Z; allowed_disks : list rstr }.

(** ** Reading the request *)

(** What one read into a buffer of 16384 bytes gives of what was sent. *)
Definition first_read (sent : bytes) : bytes := take (Z.to_nat 16384) sent.

(** HashMap::insert as the pairs come: the last of a key counts. *)
Definition last_of (k : rstr) (l : list (rstr * rstr)) : option rstr :=
  fold_left (fun (acc : option rstr) (kv : rstr * rstr) => if bool_decide (fst kv = k) then Some (snd kv) else acc) l None.

(** u8::from_str_radix on two characters, each a byte as char. *)
Definition hex_byte (h1 h2 : Z) : option Z := parse_uint 16 255 [h1; h2].

(** A percent sign takes the next two bytes with it; when they are no number
    only the sign is kept. *)
Fixpoint percent_bytes (s : bytes) : bytes :=
  match s with
  | [] => []
  | b :: r =>
      if b =? chr "%" then
        match r with
        | h1 :: h2 :: r' =>
            match hex_byte h1 h2 with
            | Some v => v :: percent_bytes r'
            | None => b :: percent_bytes r'
            end
        | _ => [b]
        end
      else if b =? chr "+" then chr " " :: percent_bytes r
      else b :: percent_bytes r
  end.

Definition percent_decode (s : rstr) : rstr := from_utf8_lossy (percent_bytes (as_bytes s)).

Definition parse_query (full_path : rstr) : rstr * list (rstr * rstr) :=
  match split_once (chr "?") full_path with
  | Some (path, query) =>
      (path, omap (fun pair => option_map (fun kv : rstr * rstr => (percent_decode (fst kv), percent_decode (snd kv)))
                                 (split_once (chr "=") pair)) (split_char (chr "&") query))
  | None => (full_path, [])
  end.

Section Parsing.
Context {U : Unicode}.

(** The headers up to the first empty line. *)
Fixpoint parse_headers (lines : list rstr) : list (rstr * rstr) :=
  match lines with
  | [] => []
  | line :: rest =>
      if negb (nonempty line) || bool_decide (line = [13]) then []
      else match split_once (chr ":") line with
           | Some (k, v) => (to_lowercase (trim k), trim v) :: parse_headers rest
           | None => parse_headers rest
           end
  end.

Record Request := { method : rstr; full_path : rstr; headers : list (rstr * rstr) }.

Definition parse_request (buf : bytes) : option Request :=
  match lines (from_utf8_lossy buf) with
  | [] => None
  | request_line :: rest =>
      match split_whitespace request_line with
      | m :: p :: _ => Some {| method := m; full_path := p; headers := parse_headers rest |}
      | _ => None
      end
  end.

Definition request_token (req : Request) (query : list (rstr * rstr)) : rstr :=
  let auth_header := default [] (last_of (lit "authorization") (headers req)) in
  trim (match strip_prefix (lit "Bearer ") auth_header with
        | Some t => t
        | None => default [] (last_of (lit "token") query)
        end).
End Parsing.

(** ** Responses *)

Definition CRLF : rstr := [13; 10].

Definition cors : rstr :=
  lit "Access-Control-Allow-Origin: *" ++ CRLF
  ++ lit "Access-Control-Allow-Headers: Authorization, Content-Type, Range" ++ CRLF ++ CRLF.

Definition status_text (status : Z) : rstr :=
  if status =? 200 then lit "OK" else if status =? 201 then lit "Created"
  else if status =? 400 then lit "Bad Request" else if status =? 401 then lit "Unauthorized"
  else if status =? 403 then lit "Forbidden" else if status =? 404 then lit "Not Found"
  else if status =? 500 then lit "Internal Server Error" else lit "OK".

(** What a connection writes: nothing, the answer to a preflight, a JSON
    document, or the head of a file and the bytes that follow it. *)
Inductive LanReply :=
| Silence
| Preflight
| JsonReply (status : Z) (body : rstr)
| FileReply (mime : rstr) (range : option (Z * Z)) (total_size : Z) (sent : bytes).

Definition preflight : rstr :=
  lit "HTTP/1.1 204 No Content" ++ CRLF ++ lit "Access-Control-Allow-Origin: *" ++ CRLF
  ++ lit "Access-Control-Allow-Methods: GET, POST, DELETE, OPTIONS" ++ CRLF
  ++ lit "Access-Control-Allow-Headers: Authorization, Content-Type, Range" ++ CRLF
  ++ lit "Access-Control-Max-Age: 86400" ++ CRLF ++ lit "Content-Length: 0" ++ CRLF ++ CRLF.

Definition send_json_response (status : Z) (body : rstr) : rstr :=
  lit "HTTP/1.1 " ++ show_int status ++ lit " " ++ status_text status ++ CRLF
  ++ lit "Content-Type: application/json" ++ CRLF
  ++ lit "Content-Length: " ++ show_int (str_len body) ++ CRLF ++ cors ++ body.

Definition file_head (mime : rstr) (range : option (Z * Z)) (total_size : Z) : rstr :=
  match range with
  | Some (start, end_) =>
      lit "HTTP/1.1 206 Partial Content" ++ CRLF ++ lit "Content-Type: " ++ mime ++ CRLF
      ++ lit "Content-Length: " ++ show_int (end_ - start + 1) ++ CRLF
      ++ lit "Content-Range: bytes " ++ show_int start ++ lit "-" ++ show_int end_ ++ lit "/" ++ show_int total_size ++ CRLF
      ++ lit "Accept-Ranges: bytes" ++ CRLF ++ cors
  | None =>
      lit "HTTP/1.1 200 OK" ++ CRLF ++ lit "Content-Type: " ++ mime ++ CRLF
      ++ lit "Content-Length: " ++ show_int total_size ++ CRLF ++ lit "Accept-Ranges: bytes" ++ CRLF ++ cors
  end.

Definition wire (r : LanReply) : bytes :=
  match r with
  | Silence => []
  | Preflight => as_bytes preflight
  | JsonReply s b => as_bytes (send_json_response s b)
  | FileReply m range t sent => as_bytes (file_head m range t) ++ sent
  end.

(** A JSON object of texts, written out in the source. *)
Definition raw_object (l : list (string * string)) : rstr :=
  lit "{" ++ join (lit ",") (map (fun kv : string * string =>
    Http.quoted (lit (fst kv)) ++ lit ":" ++ Http.quoted (lit (snd kv))) l) ++ lit "}".

Definition lan_mimes : list (list string * string) :=
  [ (["mp4"], "video/mp4"); (["webm"], "video/webm"); (["mkv"], "video/x-matroska"); (["mp3"], "audio/mpeg");
    (["flac"], "audio/flac"); (["wav"], "audio/wav"); (["jpg"; "jpeg"], "image/jpeg"); (["png"], "image/png");
    (["gif"], "image/gif"); (["webp"], "image/webp"); (["svg"], "image/svg+xml"); (["pdf"], "application/pdf");
    (["json"], "application/json"); (["txt"; "md"; "rs"; "dart"; "ts"], "text/plain; charset=utf-8") ]%string.

(** Path::extension of a file name: what follows the last dot, unless the dot is
    the first character. *)
Definition extension (file_name : rstr) : rstr :=
  match split_char (chr ".") file_name with
  | first :: (_ :: _) as parts => if negb (nonempty first) && (length parts =? 2)%nat then [] else default [] (last parts)
  | _ => []
  end.

Section LanServer.
Context {O : Oracle} {U : Unicode} {MT : Metadata} {S2 : Sha256} {HX : Hex} {JT : JsonText}.
Context (reads : nat -> nat) (cwd : path) (hostname : option rstr).

Definition detect_mime (p : path) : rstr :=
  arm lan_mimes "application/octet-stream" (to_lowercase (extension (default [] (last (normal p))))).

Definition json_error (e : rstr) : rstr := json_print (obj [("error", Str e)]%string).

(** Path::canonicalize of a text, and the permission check on what it gives. *)
Definition with_root (storage_path : rstr) (permission : bool) (cfg : LanServerConfig)
  (k : path -> World fs -> LanReply * World fs) (w : World fs) : LanReply * World fs :=
  match look (fun f => canonical_dir f (root_at cwd storage_path)) w with
  | (inl _, w1) => (JsonReply 404 (raw_object [("error", "Storage root not found")]%string), w1)
  | (inr b, w1) =>
      if permission && negb (is_path_permitted (show_path b) (allowed_disks cfg)
                               (option_map show_path (canonicalize (data w1) cwd)))
      then (JsonReply 403 (raw_object [("error", "Access to storage path is restricted by node allowlist policy");
                                       ("code", "PATH_NOT_ALLOWED")]%string), w1)
      else k b w1
  end.

Definition lan_list (b : path) (rel_path : rstr) (w : World fs) : LanReply * World fs :=
  match list_dir (canonical_root b) rel_path w with
  | (inr r, w1) => (JsonReply 200 (json_print (Tunnel.list_value r)), w1)
  | (inl e, w1) => (JsonReply 400 (json_error (display e)), w1)
  end.

Definition lan_stat (b : path) (rel_path : rstr) (w : World fs) : LanReply * World fs :=
  match stat (canonical_root b) rel_path w with
  | (inr r, w1) => (JsonReply 200 (json_print (Tunnel.stat_value r)), w1)
  | (inl e, w1) => (JsonReply 404 (json_error (display e)), w1)
  end.

(** The bytes that are streamed: none when the file cannot be opened. *)
Definition stream (p : path) (part : bytes -> bytes) (w : World fs) : bytes * World fs :=
  match look (fun f => read f p) w with
  | (inr content, w1) => (part content, w1)
  | (inl _, w1) => ([], w1)
  end.

Definition lan_read (b : path) (rel_path : rstr) (range_header : option rstr) (w : World fs) : LanReply * World fs :=
  match safe_resolve (canonical_root b) rel_path w with
  | (inl e, w1) => (JsonReply 403 (json_error (display e)), w1)
  | (inr p, w1) =>
      match probe (fun f => is_file f p) w1 with
      | (inr true, w2) =>
          match look (fun f => option_map (fun c : bytes => Z.of_nat (length c)) (read f p)) w2 with
          | (inl e, w3) => (JsonReply 500 (json_error (match e with Io t => t | _ => display e end)), w3)
          | (inr total_size, w3) =>
              let mime := detect_mime p in
              match match range_header with Some range => lan_parse_range range total_size | None => None end with
              | Some (start, end_) =>
                  let '(sent, w4) := stream p (fun c =>
                    take (Z.to_nat (end_ - start + 1)) (drop (Z.to_nat start) c)) w3 in
                  (FileReply mime (Some (start, end_)) total_size sent, w4)
              | None =>
                  let '(sent, w4) := stream p (fun c => c) w3 in
                  (FileReply mime None total_size sent, w4)
              end
          end
      | (_, w2) => (JsonReply 404 (raw_object [("error", "File not found")]%string), w2)
      end
  end.

Definition lan_checksum (b : path) (rel_path : rstr) (w : World fs) : LanReply * World fs :=
  match safe_resolve (canonical_root b) rel_path w with
  | (inl e, w1) => (JsonReply 403 (json_error (display e)), w1)
  | (inr p, w1) =>
      match Tunnel.hash_of reads p w1 with
      | (inr h, w2) => (JsonReply 200 (json_print (obj [("sha256", Str h)]%string)), w2)
      | (inl e, w2) => (JsonReply 500 (json_error e), w2)
      end
  end.

(** ** The connection *)

Definition ping_body (cfg : LanServerConfig) : rstr :=
  json_print (obj [("status", Str (lit "pong")); ("device_id", Str (device_id cfg));
                   ("hostname", Str (default (lit "unknown") hostname))]%string).

Definition unconfigured : rstr :=
  json_print (obj [("error", Str (lit "LAN server unconfigured: missing device authentication token"));
                   ("code", Str (lit "DEVICE_TOKEN_REQUIRED"))]%string).

Definition unauthorized : rstr :=
  json_print (obj [("error", Str (lit "Unauthorized direct LAN access")); ("code", Str (lit "UNAUTHORIZED"))]%string).

(** The endpoints behind the token. *)
Definition protected (cfg : LanServerConfig) (method path_only : rstr) (query : list (rstr * rstr)) (range : option rstr)
  (w : World fs) : LanReply * World fs :=
  let storage_path := default (lit ".") (last_of (lit "storage_path") query) in
  let rel_path := default [] (last_of (lit "path") query) in
  let get := bool_decide (method = lit "GET") in
  if bool_decide (path_only = lit "/api/v1/lan/fs/list") && get
  then with_root storage_path true cfg (fun b => lan_list b rel_path) w
  else if bool_decide (path_only = lit "/api/v1/lan/fs/stat") && get
  then with_root storage_path true cfg (fun b => lan_stat b rel_path) w
  else if bool_decide (path_only = lit "/api/v1/lan/fs/read") && get
  then with_root storage_path true cfg (fun b => lan_read b rel_path range) w
  else if bool_decide (path_only = lit "/api/v1/lan/fs/checksum") && get
  then with_root storage_path false cfg (fun b => lan_checksum b rel_path) w
  else (JsonReply 404 (raw_object [("error", "Endpoint not found")]%string), w).

Definition handle_connection (cfg : LanServerConfig) (buf : bytes) (w : World fs) : LanReply * World fs :=
  match parse_request (first_read buf) with
  | None => (Silence, w)
  | Some req =>
      if bool_decide (method req = lit "OPTIONS") then (Preflight, w) else
      let '(path_only, query) := parse_query (full_path req) in
      if bool_decide (path_only = lit "/api/v1/lan/ping") then (JsonReply 200 (ping_body cfg), w) else
      let token := request_token req query in
      if negb (nonempty (auth_token cfg)) then (JsonReply 503 unconfigured, w)
      else if negb (nonempty token) || negb (constant_time_eq token (auth_token cfg))
      then (JsonReply 401 unauthorized, w)
      else protected cfg (method req) path_only query (last_of (lit "range") (headers req)) w
  end.

(** ** Lemmas *)

Lemma with_root_same sp perm cfg k w r w' :
  (forall b w1 r w2, k b w1 = (r, w2) -> data w2 = data w1) -> with_root sp perm cfg k w = (r, w') -> data w' = data w.
Proof.
  intros K H. unfold with_root in H. destruct (look _ w) as [[e|b] w1] eqn:L; apply (always_look eq) in L; rewrite L.
  - by injection H as _ <-.
  - destruct (perm && _); [by injection H as _ <-|by eapply K].
Qed.

Lemma stream_same p part w s w' : stream p part w = (s, w') -> data w' = data w.
Proof. unfold stream. destruct (look _ w) as [[e|c] w1] eqn:L; apply (always_look eq) in L; rewrite L; by intros [= _ <-]. Qed.

Lemma lan_read_same b rel rg w r w' : lan_read b rel rg w = (r, w') -> data w' = data w.
Proof.
  unfold lan_read. destruct (safe_resolve _ _ w) as [[e|p] w1] eqn:S; apply safe_resolve_same in S; rewrite S; [by intros [= _ <-]|].
  destruct (probe _ w1) as [[e|t] w2] eqn:Pr; apply (always_probe eq) in Pr; rewrite Pr; [by intros [= _ <-]|].
  destruct t; [|by intros [= _ <-]].
  destruct (look _ w2) as [[e|n] w3] eqn:L; apply (always_look eq) in L; rewrite L; [by intros [= _ <-]|].
  destruct (match rg with Some _ => _ | None => None end) as [[s e]|];
    (destruct (stream _ _ w3) as [x w4] eqn:St; apply stream_same in St; rewrite <- St; by intros [= _ <-]).
Qed.

Lemma protected_same cfg m p q rg w r w' : protected cfg m p q rg w = (r, w') -> data w' = data w.
Proof.
  unfold protected. cbv zeta.
  destruct (_ && _); [apply with_root_same; intros b w1 r1 w2|].
  { unfold lan_list. destruct (list_dir _ _ w1) as [[e|x] w3] eqn:L; apply Tunnel.list_dir_same in L; rewrite L; by intros [= _ <-]. }
  destruct (_ && _); [apply with_root_same; intros b w1 r1 w2|].
  { unfold lan_stat. destruct (stat _ _ w1) as [[e|x] w3] eqn:L; apply Tunnel.stat_same in L; rewrite L; by intros [= _ <-]. }
  destruct (_ && _); [apply with_root_same; intros b w1 r1 w2; apply lan_read_same|].
  destruct (_ && _); [apply with_root_same; intros b w1 r1 w2|by intros [= _ <-]].
  unfold lan_checksum. destruct (safe_resolve _ _ w1) as [[e|x] w3] eqn:L; apply safe_resolve_same in L; rewrite L; [by intros [= _ <-]|].
  destruct (Tunnel.hash_of _ _ w3) as [[e|h] w4] eqn:Eh; apply Tunnel.hash_of_same in Eh; rewrite <- Eh; by intros [= _ <-].
Qed.

(** The request carries the token the server was configured with. *)
Definition authorized (cfg : LanServerConfig) (buf : bytes) : Prop :=
  exists req, parse_request (first_read buf) = Some req /\ auth_token cfg <> []
    /\ as_bytes (request_token req (snd (parse_query (full_path req)))) = as_bytes (auth_token cfg).

(** C27: without the token the disk does not matter.  No request changes the
    disk.  A request that does not carry the configured token, or any request
    while none is configured, is answered the same whatever is on the disk, and
    with no file. *)
Theorem lan_gate cfg buf :
  (forall w r w', handle_connection cfg buf w = (r, w') -> data w' = data w)
  /\ (~ authorized cfg buf ->
      exists r, (forall w, handle_connection cfg buf w = (r, w)) /\ forall m rg t s, r <> FileReply m rg t s).
Proof.
  split.
  - intros w r w' H. unfold handle_connection in H. destruct (parse_request _) as [req|]; [|by injection H as _ <-].
    case_bool_decide; [by injection H as _ <-|]. destruct (parse_query _) as [p q].
    case_bool_decide; [by injection H as _ <-|]. destruct (negb _); [by injection H as _ <-|].
    destruct (_ || _); [by injection H as _ <-|by eapply protected_same].
  - intros N. unfold handle_connection. unfold authorized in N. destruct (parse_request _) as [req|]; [|by eexists].
    case_bool_decide; [by eexists|]. destruct (parse_query _) as [p q] eqn:Q.
    case_bool_decide; [by eexists|]. destruct (nonempty (auth_token cfg)) eqn:A; cbn [negb]; [|by eexists].
    destruct (negb (nonempty (request_token req q)) || negb (constant_time_eq (request_token req q) (auth_token cfg))) eqn:T;
      [by eexists|].
    destruct N. exists req. split; [done|]. rewrite Q. cbn [snd]. split; [by destruct (auth_token cfg)|].
    apply orb_false_iff in T as [_ T]. apply negb_false_iff in T. by apply ct_eq_iff in T.
Qed.

(** A file is answered behind the token only. *)
Lemma handle_file cfg buf w r w' :
  handle_connection cfg buf w = (r, w') -> (exists m rg t s, r = FileReply m rg t s) ->
  authorized cfg buf /\ exists m p q rg, protected cfg m p q rg w = (r, w').
Proof.
  intros H (m & rg & t & s & ->). unfold handle_connection in H. unfold authorized.
  destruct (parse_request _) as [req|]; [|discriminate H]. destruct (bool_decide (method req = _)); [discriminate H|].
  destruct (parse_query _) as [p q] eqn:Q. destruct (bool_decide (p = _)); [discriminate H|].
  destruct (nonempty (auth_token cfg)) eqn:A; [|discriminate H]. cbn [negb] in H.
  destruct (negb (nonempty (request_token req q)) || negb (constant_time_eq (request_token req q) (auth_token cfg))) eqn:T;
    [discriminate H|].
  split; [|by eexists _, _, _, _]. exists req. split; [done|]. rewrite Q. cbn [snd].
  split; [by destruct (auth_token cfg)|]. apply orb_false_iff in T as [_ T]. apply negb_false_iff in T. by apply ct_eq_iff in T.
Qed.

(** C28: what a file response holds.  With the disk answering, a response with a
    file is to a request with the token, for a root the policy permits, and
    streams a file below that root: the whole of it, or the non-empty range the
    head announces, in either case as many bytes as the head announces. *)
Theorem lan_read_spec cfg buf w m rg t sent w' :
  reliable O -> (forall q c, data w !! q = Some (File c) -> Z.of_nat (length c) < 2 ^ 64) ->
  handle_connection cfg buf w = (FileReply m rg t sent, w') ->
  authorized cfg buf
  /\ exists b p c,
       is_path_permitted (show_path b) (allowed_disks cfg) (option_map show_path (canonicalize (data w) cwd)) = true
       /\ path_prefix b p = true /\ data w !! p = Some (File c) /\ t = Z.of_nat (length c)
       /\ match rg with
          | Some (s, e) => 0 <= s <= e /\ e < t /\ Z.of_nat (length sent) = e - s + 1
                           /\ sent = take (Z.to_nat (e - s + 1)) (drop (Z.to_nat s) c)
          | None => sent = c
          end.
Proof.
  intros R Sz H. apply handle_file in H as (Au & me & pa & qu & ra & H); [|by exists m, rg, t, sent].
  split; [exact Au|]. clear Au.
  assert (exists sp b rel range w1, look (fun f => canonical_dir f (root_at cwd sp)) w = (inr b, w1)
    /\ is_path_permitted (show_path b) (allowed_disks cfg) (option_map show_path (canonicalize (data w1) cwd)) = true
    /\ lan_read b rel range w1 = (FileReply m rg t sent, w')) as (sp & b & rel & range & w1 & L & Pm & Rd).
  { unfold protected in H. cbv zeta in H.
    destruct (_ && _).
    { unfold with_root in H. destruct (look _ w) as [[]]; [done|]. destruct (_ && _); [done|]. unfold lan_list in H. by destruct (list_dir _ _ _) as [[]]. }
    destruct (_ && _).
    { unfold with_root in H. destruct (look _ w) as [[]]; [done|]. destruct (_ && _); [done|]. unfold lan_stat in H. by destruct (stat _ _ _) as [[]]. }
    destruct (_ && _).
    { unfold with_root in H. destruct (look _ w) as [[|b] w1] eqn:L; [done|]. destruct (true && _) eqn:Pm; [done|].
      cbn [andb] in Pm. apply negb_false_iff in Pm. eauto 8. }
    destruct (_ && _); [|done]. unfold with_root in H. destruct (look _ w) as [[]]; [done|]. destruct (_ && _); [done|].
    unfold lan_checksum in H. destruct (safe_resolve _ _ _) as [[]]; [done|]. by destruct (Tunnel.hash_of _ _ _) as [[]]. }
  clear H. apply look_inr in L as [L D1]. exists b. unfold lan_read in Rd.
  destruct (safe_resolve _ _ w1) as [[e|p] w2] eqn:S; [done|].
  destruct (probe _ w2) as [[e|[]] w3] eqn:Pr; [done| |done]. apply (probe_reliable _ _ _ _ R) in Pr as [Pr D3].
  destruct (look _ w3) as [[e|n] w4] eqn:L4; [done|]. apply look_inr in L4 as [L4 D4].
  destruct (read (data w3) p) as [c|] eqn:Rc; [|done]. injection L4 as <-.
  assert (D2 := S). apply safe_resolve_same in D2.
  rewrite D3 in Rc. assert (Rc' := Rc). apply read_of in Rc as (q & C & F).
  destruct (safe_resolve_found _ _ _ _ _ _ R S C) as [-> (b' & Hb & P)].
  assert (b' = b) as ->.
  { change (canonical_dir (data w1) (canonical_root b)) with (canonicalize (data w1) b) in Hb. rewrite D1 in Hb.
    assert (Cb : canonicalize (data w) b = Some b) by (unfold canonical_dir in L; destruct (dir _); [by eapply canonicalize_idem|done]).
    congruence. }
  assert (E : data w2 = data w) by congruence. rewrite E in F. exists p, c. rewrite D1 in Pm. split; [done|]. split; [done|]. split; [done|].
  assert (St : forall part x w5, stream p part w4 = (x, w5) -> x = part c).
  { intros part x w5 St. unfold stream in St. rewrite (look_run _ _ c R) in St by (by rewrite D4, D3, Rc'). by injection St as <- _. }
  destruct (match range with Some _ => _ | None => None end) as [[s e]|] eqn:Rg.
  - destruct (stream _ _ w4) as [x w5] eqn:X. apply St in X. injection Rd as <- <- <- <- <-. split; [done|].
    destruct range as [h|]; [|done]. destruct (parse_range_spec h (Z.of_nat (length c))) as [_ B]; [split; [lia|by eapply Sz]|].
    destruct (B _ _ Rg) as [B1 B2]. split; [done|]. split; [done|]. split; [|done].
    subst x. rewrite length_take, length_drop. lia.
  - destruct (stream _ _ w4) as [x w5] eqn:X. apply St in X. by injection Rd as <- <- <- <- <-.
Qed.
End LanServer.

(** ** Percent encoding *)

(** A reference encoder: letters, digits and four marks as they are, every other
    byte as two hexadecimal digits. *)
Definition unreserved (b : Z) : bool :=
  is_ascii_digit b || is_ascii_alphabetic b || existsb (Z.eqb b) [chr "-"; chr "."; chr "_"; chr "~"].
Definition encode_byte (b : Z) : bytes := if unreserved b then [b] else [chr "%"; hex_digit (b / 16); hex_digit (b mod 16)].
Definition percent_encode (s : rstr) : rstr := flat_map encode_byte (as_bytes s).

Lemma encode_byte_ok b r : is_byte b -> percent_bytes (encode_byte b ++ r) = b :: percent_bytes r
  /\ Forall (fun c => c < 0x80) (encode_byte b).
Proof.
  intros B.
  assert (A : forallb (fun b => if unreserved b then negb (b =? chr "%") && negb (b =? chr "+") && (b <? 0x80)
    else bool_decide (hex_byte (hex_digit (b / 16)) (hex_digit (b mod 16)) = Some b)
         && (hex_digit (b / 16) <? 0x80) && (hex_digit (b mod 16) <? 0x80)) (map Z.of_nat (seq 0 256)) = true)
    by (vm_compute; reflexivity).
  rewrite forallb_forall in A. specialize (A b). unfold encode_byte. destruct (unreserved b).
  - assert (X : negb (b =? chr "%") && negb (b =? chr "+") && (b <? 0x80) = true).
    { apply A. rewrite <- (Z2Nat.id b) by (unfold is_byte in B; lia). apply in_map, in_seq. unfold is_byte in B. lia. }
    boolify. split; [|constructor; [lia|constructor]]. cbn [app percent_bytes].
    destruct (Z.eqb_spec b (chr "%")); [done|]. by destruct (Z.eqb_spec b (chr "+")).
  - assert (X : bool_decide (hex_byte (hex_digit (b / 16)) (hex_digit (b mod 16)) = Some b)
         && (hex_digit (b / 16) <? 0x80) && (hex_digit (b mod 16) <? 0x80) = true).
    { apply A. rewrite <- (Z2Nat.id b) by (unfold is_byte in B; lia). apply in_map, in_seq. unfold is_byte in B. lia. }
    boolify. split.
    + cbn [app percent_bytes]. rewrite Z.eqb_refl. match goal with H : hex_byte _ _ = Some _ |- _ => by rewrite H end.
    + repeat constructor; lia.
Qed.

Lemma utf8_bytes s : Forall scalar s -> Forall is_byte (as_bytes s).
Proof.
  induction 1 as [|c s S _ IH]; [constructor|]. cbn [as_bytes flat_map]. apply Forall_app. split; [|exact IH].
  rewrite utf8_char_spec by done. unfold scalar in S.
  pose proof (Z.mod_pos_bound c 64). pose proof (Z.mod_pos_bound (c / 64) 64). pose proof (Z.mod_pos_bound (c / 4096) 64).
  assert (0 <= c / 64) by (apply Z.div_pos; lia). assert (0 <= c / 4096) by (apply Z.div_pos; lia).
  assert (0 <= c / 262144) by (apply Z.div_pos; lia).
  unfold is_byte. destruct (Z.ltb_spec c 0x80); [repeat constructor; lia|].
  destruct (Z.ltb_spec c 0x800); [assert (c / 64 < 32) by (apply Z.div_lt_upper_bound; lia); repeat constructor; lia|].
  destruct (Z.ltb_spec c 0x10000); [assert (c / 4096 < 16) by (apply Z.div_lt_upper_bound; lia); repeat constructor; lia|].
  assert (c / 262144 < 8) by (apply Z.div_lt_upper_bound; lia). repeat constructor; lia.
Qed.

Lemma ascii_as_bytes s : Forall (fun c => c < 0x80) s -> as_bytes s = s.
Proof.
  induction 1 as [|c s H _ IH]; [done|]. cbn [as_bytes flat_map]. unfold utf8_char.
  replace (c <? 0x80) with true by lia. cbn [app]. f_equal. exact IH.
Qed.

(** percent decoding inverts percent encoding, for every text. *)
Theorem percent_roundtrip s : Forall scalar s -> percent_decode (percent_encode s) = s.
Proof.
  intros Sc. unfold percent_decode, percent_encode. pose proof (utf8_bytes s Sc) as B.
  rewrite ascii_as_bytes.
  - assert (E : percent_bytes (flat_map encode_byte (as_bytes s)) = as_bytes s); [|by rewrite E, lossy_as_bytes].
    induction B as [|b bs Hb _ IH]; [done|]. cbn [flat_map]. by rewrite (proj1 (encode_byte_ok b _ Hb)), IH.
  - induction B as [|b bs Hb _ IH]; [constructor|]. cbn [flat_map]. apply Forall_app. split; [|exact IH].
    by apply (encode_byte_ok b []).
Qed.

(** ** Concrete runs *)

(** A printer of texts: the strings of an object, one after another. *)
Definition toy_json : JsonText := {|
  json_parse _ := None;
  json_print v := match v with
                  | Obj l => flat_map (fun kv : rstr * Value => match snd kv with Str s => s | _ => [] end) l
                  | _ => [] end |}.

Definition demo_lan (token : string) (target : string) (range : string) (hdr : string) : LanReply :=
  fst (handle_connection (O := toy_env []) (U := ascii_unicode) (MT := plain_metadata) (S2 := toy_sha256)
    (HX := plain_hex) (JT := toy_json) (fun _ => 9%nat) [] None
    {| device_id := lit "d1"; auth_token := lit token; preferred_port := 8998; allowed_disks := [lit "/srv/share"] |}
    (lit "GET " ++ lit target ++ lit " HTTP/1.1" ++ CRLF ++ lit hdr ++ CRLF ++ lit range ++ CRLF ++ CRLF)
    (mkWorld (<[[lit "srv"; lit "share"] := Dir]> (<[[lit "srv"; lit "share"; lit "f.txt"] := File [7; 8; 9]]> Tunnel.demo_machine)) 0)).

Definition status_of (r : LanReply) : Z :=
  match r with Silence => 0 | Preflight => 204 | JsonReply s _ => s | FileReply _ (Some _) _ _ => 206 | FileReply _ None _ _ => 200 end.

(** where the LAN server's answers part from its policy.  A root outside
    the allow-list is refused to the read endpoint and answered with a hash by
    the checksum endpoint, which has no check of the allow-list; a server
    without a token answers 503 with the reason OK; and a percent sign that is
    not an escape takes the two bytes that follow it out of the text. *)
Theorem lan_gaps :
  status_of (demo_lan "k" "/api/v1/lan/fs/read?storage_path=/etc&path=passwd" "" "Authorization: Bearer k") = 403
  /\ demo_lan "k" "/api/v1/lan/fs/checksum?storage_path=/etc&path=passwd" "" "Authorization: Bearer k"
     = JsonReply 200 (hex_encode (Hex := plain_hex) (sha256 (Sha256 := toy_sha256) [114]))
  /\ (forall body, starts_with (lit "HTTP/1.1 503 OK") (send_json_response 503 body) = true)
  /\ status_of (demo_lan "" "/api/v1/lan/fs/read?storage_path=/srv/share&path=f.txt&token=k" "" "Host: x") = 503
  /\ percent_decode (lit "100%zz") = lit "100%".
Proof. split_and!; [vm_compute; reflexivity|vm_compute; reflexivity|intros body|vm_compute; reflexivity|vm_compute; reflexivity].
  unfold send_json_response. vm_compute (lit _ ++ show_int 503). reflexivity. Qed.

Definition demo_config : LanServerConfig :=
  {| device_id := lit "d1"; auth_token := lit "k"; preferred_port := 8998; allowed_disks := [lit "/srv/share"] |}.

Definition demo_buf : bytes :=
  lit "GET /api/v1/lan/fs/read?storage_path=/srv/share&path=f%2Etxt&token=k HTTP/1.1" ++ CRLF ++ lit "Range: bytes=1-" ++ CRLF ++ CRLF.

Definition demo_world : World fs :=
  mkWorld (<[[lit "srv"; lit "share"] := Dir]> (<[[lit "srv"; lit "share"; lit "f.txt"] := File [7; 8; 9]]> Tunnel.demo_machine)) 0.

Abbreviation demo_answer := (handle_connection (O := toy_env []) (U := ascii_unicode) (MT := plain_metadata) (S2 := toy_sha256)
  (HX := plain_hex) (JT := toy_json) (fun _ => 9%nat) [] None demo_config demo_buf demo_world).

Lemma demo_answered : demo_answer = (FileReply (lit "text/plain; charset=utf-8") (Some (1, 2)) 3 [8; 9], snd demo_answer).
Proof. vm_compute. reflexivity. Qed.

Lemma demo_small q c : data demo_world !! q = Some (File c) -> Z.of_nat (length c) < 2 ^ 64.
Proof.
  intros H. unfold demo_world, Tunnel.demo_machine, demo_disk in H. cbn [data] in H.
  repeat (apply lookup_insert_Some in H as [[_ H]|[_ H]]; [(injection H as <- || discriminate H); cbn; lia|]).
  by rewrite lookup_empty in H.
Qed.

Lemma lan_read_witness :
  exists p c, data demo_world !! p = Some (File c) /\ 3 = Z.of_nat (length c) /\ [8; 9] = take 2 (drop 1 c).
Proof.
  pose proof (lan_read_spec (O := toy_env []) (U := ascii_unicode) (MT := plain_metadata) (S2 := toy_sha256)
    (HX := plain_hex) (JT := toy_json) (fun _ => 9%nat) [] None demo_config demo_buf demo_world
    (lit "text/plain; charset=utf-8") (Some (1, 2)) 3 [8; 9] (snd demo_answer) toy_env_reliable demo_small demo_answered)
    as (_ & b & p & c & _ & _ & F & T & _ & _ & _ & S).
  exists p, c. split; [exact F|]. split; [exact T|exact S].
Defined.

Lemma percent_roundtrip_witness : percent_decode (percent_encode (lit "a b/" ++ [0xE9; 0x1F600])) = lit "a b/" ++ [0xE9; 0x1F600].
Proof.
  apply percent_roundtrip. repeat (constructor; [vm_compute; intuition congruence|]). constructor.
Defined.
End LanServer.
