(* ===== verification/Streaming.v ===== *)
(** * Streaming: transcoding jobs, playback tokens and playback progress

    backend/crates/streaming/src: service.rs and handlers.rs.  Programs are run
    on the disk as in Transcoder.v; the floats of a playback position are the
    IEEE numbers of the Standard Library. *)

From Stdlib Require Import Floats.SpecFloat.
From S2P Require Import Prelude Text Tables Effects Externals Fs Schema Token Auth Storage Jail Json Utf8 FsHandler Transcoder Files Tree Tenancy Http Webdav LanServer.

Module Streaming.
Import Json Utf8 Files Tree Http.

(** ** Playback tokens *)

Record PlaybackClaims := { sub : Z; file_id : Z; device_id : option Z; exp : Z; typ : rstr }.

(** jsonwebtoken on these claims: a signature and an expiry with the leeway of the
    default validation. *)
Class PlaybackTokens := {
  pb_encode : PlaybackClaims -> rstr -> rstr + rstr;
  pb_decode : Z -> rstr -> rstr -> rstr + PlaybackClaims;
  pb_expired : rstr;
  pb_decode_encode : forall c key t now,
    pb_encode c key = inr t -> 0 <= exp c ->
    pb_decode now t key = if now <=? exp c + Token.LEEWAY then inr c else inl pb_expired;
  pb_decode_exp : forall c key t now, pb_decode now t key = inr c -> now <= exp c + Token.LEEWAY
}.

Inductive TranscodeProfile := Adaptive | AudioOnly | Thumbnail.

Definition as_str (p : TranscodeProfile) : rstr :=
  lit match p with Adaptive => "adaptive" | AudioOnly => "audio-only" | Thumbnail => "thumbnail" end.

(** match req.profile.as_deref() *)
Definition profile_of (o : option rstr) : TranscodeProfile :=
  match o with
  | Some t => if bool_decide (t = lit "audio-only") then AudioOnly
              else if bool_decide (t = lit "thumbnail") then Thumbnail else Adaptive
  | None => Adaptive
  end.

Record MediaInfo := {
  duration_secs : rstr; width : option Z; height : option Z; video_codec : option rstr; audio_codec : option rstr;
  bitrate_kbps : option Z; format : rstr; has_video : bool; has_audio : bool }.

(** [input_path.trim_end_matches(|c| c != '.')] with a suffix. *)
Definition output_dir_of (input_path : rstr) : rstr :=
  trim_end_by (fun c => negb (c =? chr ".")) input_path ++ lit "_hls".

(** PathBuf::from(a).join(b), as text. *)
Definition path_join (a b : rstr) : rstr :=
  if starts_with (lit "/") b then b
  else match last a with
       | None => b
       | Some c => if c =? chr "/" then a ++ b else a ++ lit "/" ++ b
       end.

Section Streaming.
Context {O : Oracle} {P : Transcoder.Programs} {JT : JsonText} {U : Unicode} {HV : HttpValues}.
Context {PT : PlaybackTokens}.
(** PCOS_STORAGE__BASE_PATH, the working directory and the signing key. *)
Context (env_base : option rstr) (cwd : Fs.path) (jwt_secret : rstr).

Definition create_playback_token {D} (user_id file_id : Z) (device_id : option Z) : M D (rstr * Z) :=
  now ← utc_now;
  let e := Token.timestamp now + 7200 in
  match pb_encode {| sub := user_id; file_id := file_id; device_id := device_id; exp := e; typ := lit "playback" |}
          jwt_secret with
  | inl t => throw (Internal (lit "Failed to sign playback token: " ++ t))
  | inr t => mret (t, e)
  end.

Definition verify_playback_token {D} (token : rstr) : M D PlaybackClaims :=
  now ← utc_now;
  match pb_decode (Token.timestamp now) token jwt_secret with
  | inl _ => throw (Unauthorized (lit "Invalid or expired media playback token"))
  | inr c => if bool_decide (typ c = lit "playback") then mret c
             else throw (Unauthorized (lit "Invalid token type"))
  end.

(** ** Jobs *)

Definition base_path : rstr := default (lit "/data/pcos/storage") env_base.

(** A path as text, for the operating system. *)
Definition os_path (s : rstr) : Fs.path :=
  if starts_with (lit "/") s then FsHandler.raw_components s else cwd ++ FsHandler.raw_components s.

Definition job_is (i : Z) (j : TranscodeJob.row) : bool := TranscodeJob.id j =? i.
Definition job_of (user_id : Z) (j : TranscodeJob.row) : bool := TranscodeJob.user_id j =? user_id.

Definition insert_job (j : TranscodeJob.row) (s : Server) : Server :=
  set_transcode_jobs (insert_row j (transcode_jobs s)) s.

Definition update_job (i : Z) (f : TranscodeJob.row -> TranscodeJob.row) (s : Server) : Server :=
  set_transcode_jobs (update (job_is i) f (transcode_jobs s)) s.

Definition queue_transcode (file_id user_id : Z) (input_path : rstr) (profile : TranscodeProfile)
  : M Server TranscodeJob.row :=
  i ← new_v4;
  execute schema_ok (fun now s =>
    let j := {| TranscodeJob.id := i; TranscodeJob.file_id := file_id; TranscodeJob.user_id := user_id;
                TranscodeJob.profile := as_str profile; TranscodeJob.status := lit "pending";
                TranscodeJob.input_path := input_path; TranscodeJob.output_dir := output_dir_of input_path;
                TranscodeJob.master_playlist := None; TranscodeJob.error_message := None;
                TranscodeJob.created_at := now; TranscodeJob.completed_at := None |} in
    (j, insert_job j s)).

(** A run of a program on the disk. *)
Definition command (program : string) (args : list rstr) : M Server (rstr + Transcoder.Output) := fun w =>
  let '(r, d) := Transcoder.command (lit program) args (disk (data w)) in
  (Ok r, mkWorld (set_disk d (data w)) (S (pos w))).

Definition started (program : string) (args : list rstr) : M Server bool :=
  r ← command program args;
  mret (match r with inr _ => true | inl _ => false end).

Definition container_runner : M Server string :=
  docker ← started "docker" [lit "--version"];
  if docker : bool then mret "docker"%string else
  podman ← started "podman" [lit "--version"];
  mret (if podman : bool then "podman"%string else "docker"%string).

Definition ffmpeg_args (abs_input abs_output : rstr) : list rstr :=
  [lit "-i"; abs_input; lit "-c:v"; lit "h264"; lit "-c:a"; lit "aac"; lit "-hls_time"; lit "4";
   lit "-hls_playlist_type"; lit "vod"; lit "-hls_segment_filename"; path_join abs_output (lit "segment_%03d.ts");
   path_join abs_output (lit "master.m3u8")].

Definition container_args (words : list rstr) : list rstr :=
  [lit "run"; lit "--rm"; lit "-v"; base_path ++ lit ":/data"; lit "pcos-transcoder:latest"] ++ words.

Definition transcode_command (job : TranscodeJob.row) : M Server (rstr + Transcoder.Output) :=
  let abs_input := path_join base_path (TranscodeJob.input_path job) in
  let abs_output := path_join base_path (TranscodeJob.output_dir job) in
  _ ← discard (Storage.fs_op (fun f => Fs.create_dir_all f (os_path abs_output)));
  local_ffmpeg ← started "ffmpeg" [lit "-version"];
  if local_ffmpeg : bool then command "ffmpeg" (ffmpeg_args abs_input abs_output)
  else
    runner ← container_runner;
    command runner (container_args
      [lit "transcode"; TranscodeJob.input_path job; TranscodeJob.output_dir job; TranscodeJob.profile job]).

Definition completed_job (now : Z) (master : rstr) (j : TranscodeJob.row) : TranscodeJob.row :=
  TranscodeJob.set_completed_at (Some now)
    (TranscodeJob.set_master_playlist (Some master) (TranscodeJob.set_status (lit "completed") j)).

Definition failed_job (now : Z) (err : rstr) (j : TranscodeJob.row) : TranscodeJob.row :=
  TranscodeJob.set_completed_at (Some now)
    (TranscodeJob.set_error_message (Some err) (TranscodeJob.set_status (lit "failed") j)).

Definition fail_job (job_id : Z) (err : rstr) : M Server unit :=
  execute schema_ok (fun now s => (tt, update_job job_id (failed_job now err) s)).

(** The end of a job, by what the command answered. *)
Definition finish_job (job_id : Z) (output_dir : rstr) (res : rstr + Transcoder.Output) : M Server unit :=
  match res with
  | inr output =>
      if Transcoder.success output then
        let master := output_dir ++ lit "/master.m3u8" in
        execute schema_ok (fun now s => (tt, update_job job_id (completed_job now master) s))
      else fail_job job_id (from_utf8_lossy (Transcoder.stderr output))
  | inl e => fail_job job_id e
  end.

(** The task a queued job starts. *)
Definition execute_transcode (job_id : Z) : M Server TranscodeJob.row :=
  _ ← execute schema_ok (fun _ s => (tt, update_job job_id (TranscodeJob.set_status (lit "processing")) s));
  job ← fetch_one (fun s => find_row (job_is job_id) (transcode_jobs s));
  res ← transcode_command job;
  _ ← finish_job job_id (TranscodeJob.output_dir job) res;
  map_err (to_internal "") (fetch_one (fun s => find_row (job_is job_id) (transcode_jobs s))).

Definition newest_job (a b : TranscodeJob.row) : bool := TranscodeJob.created_at b <=? TranscodeJob.created_at a.

Definition list_jobs (user_id : Z) : M Server (list TranscodeJob.row) :=
  query (fun s => take 50 (sort_by newest_job (select (job_of user_id) (transcode_jobs s)))).

Definition get_job (user_id job_id : Z) : M Server TranscodeJob.row :=
  map_err (fun _ => NotFound (lit "Job not found"))
    (fetch_one (fun s => find_row (fun j => job_is job_id j && job_of user_id j) (transcode_jobs s))).

Definition get_stream_url (job_id user_id : Z) : M Server rstr :=
  job ← get_job user_id job_id;
  match TranscodeJob.master_playlist job with
  | Some playlist => mret (lit "/api/v1/streaming/hls/" ++ playlist)
  | None => throw (Validation (lit "Transcoding not yet completed"))
  end.

(** SELECT storage_path: a NULL does not decode. *)
Definition stored_path (user_id file_id : Z) : M Server rstr :=
  map_err (fun _ => NotFound (lit "File not found"))
    (fetch_one (fun s => find_row (fun f => has_id file_id f && owned_by user_id f) (file_entries s)
                         ≫= FileEntry.storage_path)).

(** The answer, and the job whose task is spawned. *)
Definition transcode (user_id file_id : Z) (profile : option rstr) : M Server TranscodeJob.row :=
  path ← stored_path user_id file_id;
  queue_transcode file_id user_id path (profile_of profile).

(** ** Probing *)

Definition blank (format_name : rstr) (duration : rstr) (bitrate : option Z) : MediaInfo :=
  {| duration_secs := duration; width := None; height := None; video_codec := None; audio_codec := None;
     bitrate_kbps := bitrate; format := format_name; has_video := false; has_audio := false |}.

(** One turn of the loop over the streams: a later video stream replaces an
    earlier one, the first audio codec stays. *)
Definition read_stream (info : MediaInfo) (stream : Value) : MediaInfo :=
  let codec := Json.as_str (index stream "codec_name") in
  match Json.as_str (index stream "codec_type") with
  | Some t =>
      if bool_decide (t = lit "video") then
        {| duration_secs := duration_secs info;
           width := option_map Transcoder.as_u32 (as_u64 (index stream "width"));
           height := option_map Transcoder.as_u32 (as_u64 (index stream "height"));
           video_codec := codec; audio_codec := audio_codec info; bitrate_kbps := bitrate_kbps info;
           format := format info; has_video := true; has_audio := has_audio info |}
      else if bool_decide (t = lit "audio") then
        {| duration_secs := duration_secs info; width := width info; height := height info;
           video_codec := video_codec info;
           audio_codec := match audio_codec info with Some c => Some c | None => codec end;
           bitrate_kbps := bitrate_kbps info; format := format info; has_video := has_video info; has_audio := true |}
      else info
  | None => info
  end.

Definition parse_probe_json (probe : Value) : MediaInfo :=
  let fmt := index probe "format" in
  let start := blank (default (lit "unknown") (Json.as_str (index fmt "format_name")))
    (default (lit "0.0") (Json.as_str (index fmt "duration") ≫= Transcoder.parse_f64))
    (option_map (fun b => b / 1000) (Json.as_str (index fmt "bit_rate") ≫= parse_uint 10 u64_max)) in
  match index probe "streams" with
  | Arr streams => fold_left read_stream streams start
  | _ => start
  end.

(** What a probing command answered, when it succeeded with a JSON document. *)
Definition answered (r : rstr + Transcoder.Output) : option MediaInfo :=
  match r with
  | inr output => if Transcoder.success output
                  then option_map parse_probe_json (json_parse (from_utf8_lossy (Transcoder.stdout output))) else None
  | inl _ => None
  end.

Definition one_of (l : list string) (s : rstr) : bool := existsb (fun x => bool_decide (s = lit x)) l.

(** The guess from the extension. *)
Definition inspected (file_path : rstr) : MediaInfo :=
  let ext := to_lowercase (LanServer.extension (default [] (last (FsHandler.normal (FsHandler.raw_components file_path))))) in
  let is_video := one_of ["mp4"; "mkv"; "webm"; "avi"; "mov"; "m4v"]%string ext in
  let is_audio := one_of ["mp3"; "flac"; "wav"; "ogg"; "aac"; "m4a"]%string ext in
  {| duration_secs := lit "0.0"; width := if is_video then Some 1920 else None;
     height := if is_video then Some 1080 else None; video_codec := if is_video then Some (lit "h264") else None;
     audio_codec := if is_video || is_audio then Some (lit "aac") else None; bitrate_kbps := None; format := ext;
     has_video := is_video; has_audio := is_video || is_audio |}.

Definition ffprobe_args (abs : rstr) : list rstr :=
  map lit ["-v"; "quiet"; "-print_format"; "json"; "-show_format"; "-show_streams"]%string ++ [abs].

Definition probe_media (file_path : rstr) : M Server MediaInfo :=
  local ← command "ffprobe" (ffprobe_args (path_join base_path file_path));
  match answered local with
  | Some info => mret info
  | None =>
      runner ← container_runner;
      boxed ← command runner (container_args [lit "probe"; file_path]);
      match answered boxed with
      | Some info => mret info
      | None => mret (inspected file_path)
      end
  end.

Definition probe (user_id file_id : Z) : M Server MediaInfo :=
  path ← stored_path user_id file_id;
  probe_media path.

(** ** Playing *)

Record PlaybackAnswer := { token : rstr; expires_at : Z; stream_url : rstr }.

Definition generate_playback_token (user_id file_id : Z) (device_id : option Z) : M Server PlaybackAnswer :=
  _ ← map_err (fun _ => NotFound (lit "File not found"))
        (fetch_one (fun s => find_row (fun f => has_id file_id f && owned_by user_id f && negb (FileEntry.is_trashed f))
                               (file_entries s)));
  '(t, e) ← create_playback_token user_id file_id device_id;
  mret {| token := t; expires_at := e; stream_url := lit "/api/v1/streaming/play/" ++ t |}.

(** The bytes an opened path streams: a directory has none to give. *)
Definition content_of (n : Fs.node) : bytes := match n with Fs.File b => b | _ => [] end.

Definition media_headers (content_type : rstr) (length_ : Z) (range : option (Z * Z * Z)) (name : rstr)
  : list (rstr * rstr) :=
  [(lit "content-type", content_type); (lit "content-length", show_int length_)]
  ++ match range with
     | Some (start, end_, total) =>
         [(lit "content-range", lit "bytes " ++ show_int start ++ lit "-" ++ show_int end_ ++ lit "/" ++ show_int total)]
     | None => []
     end
  ++ [(lit "accept-ranges", lit "bytes"); (lit "content-disposition", lit "inline; filename=" ++ quoted name)].

(** The handle is read while the answer is sent: its content is that of when it
    was opened. *)
Definition play_with_token (range : option rstr) (token : rstr) : M Server Response :=
  claims ← verify_playback_token token;
  file ← map_err (to_internal "") (query (fun s =>
    find_row (fun f => has_id (file_id claims) f && owned_by (sub claims) f && negb (FileEntry.is_trashed f))
      (file_entries s)));
  match file with
  | None => mret (plain_status 404)
  | Some f =>
      match FileEntry.storage_path f with
      | None => mret (plain_status 404)
      | Some p =>
          node ← map_err (to_internal "Failed to open media: ")
                   (Storage.fs_read (fun d => FsHandler.stat_node d (os_path (path_join base_path p))));
          _ ← map_err (to_internal "Failed to get media metadata: ") (Storage.fs_read (fun _ => Some tt));
          let total_size := FsHandler.node_len node in
          let content_type := default (lit "application/octet-stream") (FileEntry.mime_type f) in
          match range ≫= (fun h => range_of h total_size) with
          | Some (start, end_) =>
              _ ← map_err (to_internal "Seek failed: ") (Storage.fs_read (fun _ => Some tt));
              let length_ := end_ - start + 1 in
              build 206 (media_headers content_type length_ (Some (start, end_, total_size)) (FileEntry.name f))
                (take (Z.to_nat length_) (drop (Z.to_nat start) (content_of node)))
          | None =>
              build 200 (media_headers content_type total_size None (FileEntry.name f)) (content_of node)
          end
      end
  end.

(** ** Progress *)

Record UpdateProgressRequest := { position_secs : spec_float; req_duration : spec_float; completed : option bool }.

(** The f64 nearest to 0.95, and f64 multiplication. *)
Definition F095 : spec_float := S754_finite false 8556839292003942 (-53).
Definition mul64 : spec_float -> spec_float -> spec_float := SFmul 53 1024.

Definition is_completed (req : UpdateProgressRequest) : bool :=
  default (SFleb (mul64 (req_duration req) F095) (position_secs req)) (completed req).

Definition progress_is (user_id file_id : Z) (p : PlaybackProgress.row) : bool :=
  (PlaybackProgress.user_id p =? user_id) && (PlaybackProgress.file_entry_id p =? file_id).

(** INSERT ... ON CONFLICT (user_id, file_entry_id) DO UPDATE *)
Definition upsert_progress (now : Z) (p : PlaybackProgress.row) (s : Server) : Server :=
  let same := progress_is (PlaybackProgress.user_id p) (PlaybackProgress.file_entry_id p) in
  set_playback_progress
    (if exists_row same (playback_progress s)
     then update same (fun r =>
            PlaybackProgress.set_updated_at now
              (PlaybackProgress.set_completed (PlaybackProgress.completed p)
                (PlaybackProgress.set_duration_secs (PlaybackProgress.duration_secs p)
                  (PlaybackProgress.set_position_secs (PlaybackProgress.position_secs p) r)))) (playback_progress s)
     else insert_row p (playback_progress s)) s.

Definition update_progress (user_id file_id : Z) (req : UpdateProgressRequest) : M Server unit :=
  map_err (to_internal "") (execute schema_ok (fun now s =>
    (tt, upsert_progress now
       {| PlaybackProgress.user_id := user_id; PlaybackProgress.file_entry_id := file_id;
          PlaybackProgress.position_secs := position_secs req; PlaybackProgress.duration_secs := req_duration req;
          PlaybackProgress.completed := is_completed req; PlaybackProgress.updated_at := now |} s))).

Definition get_progress (user_id file_id : Z) : M Server (option PlaybackProgress.row) :=
  map_err (to_internal "") (query (fun s => find_row (progress_is user_id file_id) (playback_progress s))).

Definition latest (a b : PlaybackProgress.row * rstr) : bool :=
  PlaybackProgress.updated_at (fst b) <=? PlaybackProgress.updated_at (fst a).

(** The join with file_entries: the progress and the name of the file. *)
Definition watched (user_id : Z) (s : Server) : list (PlaybackProgress.row * rstr) :=
  flat_map (fun p => map (fun f => (p, FileEntry.name f))
      (select (fun f => has_id (PlaybackProgress.file_entry_id p) f && negb (FileEntry.is_trashed f)) (file_entries s)))
    (select (fun p => (PlaybackProgress.user_id p =? user_id) && negb (PlaybackProgress.completed p)) (playback_progress s)).

Definition list_continue_watching (user_id : Z) : M Server (list (PlaybackProgress.row * rstr)) :=
  map_err (to_internal "") (query (fun s => take 20 (sort_by latest (watched user_id s)))).

(** ** The service *)

Inductive op :=
| Transcode (file_id : Z) (profile : option rstr)
| Execute (job_id : Z)
| ListJobs
| GetJob (job_id : Z)
| StreamUrl (job_id : Z)
| Probe (file_id : Z)
| GenerateToken (file_id : Z) (device_id : option Z)
| Play (range : option rstr) (token : rstr)
| UpdateProgress (file_id : Z) (req : UpdateProgressRequest)
| GetProgress (file_id : Z)
| ContinueWatching.

Definition run_op (user_id : Z) (o : op) : M Server unit :=
  match o with
  | Transcode f p => _ ← transcode user_id f p; mret tt
  | Execute j => _ ← execute_transcode j; mret tt
  | ListJobs => _ ← list_jobs user_id; mret tt
  | GetJob j => _ ← get_job user_id j; mret tt
  | StreamUrl j => _ ← get_stream_url j user_id; mret tt
  | Probe f => _ ← probe user_id f; mret tt
  | GenerateToken f d => _ ← generate_playback_token user_id f d; mret tt
  | Play r t => _ ← play_with_token r t; mret tt
  | UpdateProgress f req => update_progress user_id f req
  | GetProgress f => _ ← get_progress user_id f; mret tt
  | ContinueWatching => _ ← list_continue_watching user_id; mret tt
  end.

(** ** Playback tokens and what they play *)

Definition live (user_id file_id : Z) (f : FileEntry.row) : bool :=
  has_id file_id f && owned_by user_id f && negb (FileEntry.is_trashed f).

Definition claims_for (u f : Z) (d : option Z) (e : Z) : PlaybackClaims :=
  {| sub := u; file_id := f; device_id := d; exp := e; typ := lit "playback" |}.

Lemma verify_Ok {D} t c (w w' : World D) :
  verify_playback_token t w = (Ok c, w') ->
  pb_decode (Token.timestamp (clock_at (pos w))) t jwt_secret = inr c /\ typ c = lit "playback"
  /\ w' = mkWorld (data w) (S (pos w)).
Proof.
  unfold verify_playback_token, mbind, M_bind, utc_now, interact. destruct (pb_decode _ _ _) as [e|k]; [discriminate|].
  case_bool_decide; [|discriminate]. intros [= <- <-]. by split_and!.
Qed.

Lemma issued_verify {D} u f d e t (v : World D) :
  pb_encode (claims_for u f d e) jwt_secret = inr t -> 0 <= e ->
  verify_playback_token t v =
    (if Token.timestamp (clock_at (pos v)) <=? e + Token.LEEWAY then Ok (claims_for u f d e)
     else Err (Unauthorized (lit "Invalid or expired media playback token")), mkWorld (data v) (S (pos v))).
Proof.
  intros E N. unfold verify_playback_token, mbind, M_bind, utc_now, interact.
  rewrite (pb_decode_encode _ _ _ _ E) by exact N. cbn [exp claims_for]. destruct (_ <=? _); [|done].
  by rewrite bool_decide_eq_true_2.
Qed.

Lemma generate_Ok u f d w a w' :
  generate_playback_token u f d w = (Ok a, w') ->
  (exists x, x ∈ file_entries (data w) /\ live u f x = true)
  /\ expires_at a = Token.timestamp (clock_at (S (pos w))) + 7200
  /\ pb_encode (claims_for u f d (expires_at a)) jwt_secret = inr (token a) /\ data w' = data w.
Proof.
  unfold generate_playback_token, create_playback_token. intros H. run_ok H. cbn [token expires_at].
  match goal with H : find_row _ _ = Some ?r |- _ => apply find_row_Some in H as [H1 H2]; split; [by exists r|] end.
  by split_and!.
Qed.

(** The file of a claim, opened. *)
Definition opened (s : Server) (p : rstr) : option Fs.node :=
  FsHandler.stat_node (disk s) (os_path (path_join base_path p)).

Lemma live_run u f v x :
  reliable O -> schema_ok (data v) = true -> x ∈ file_entries (data v) -> live u f x = true ->
  map_err (to_internal "") (query (fun s => find_row (live u f) (file_entries s))) v
    = (Ok (Some x), mkWorld (data v) (S (pos v))).
Proof.
  intros R Sc Hx L. unfold map_err, query, statement. rewrite (proj1 (R _)).
  rewrite (find_unique FileEntry.id _ x); [done|by apply key_file|done|exact L|].
  intros y Hy. unfold live, has_id in *. rewrite !andb_true_iff, !Z.eqb_eq in *.
  destruct L as [[L _] _], Hy as [[Hy _] _]. congruence.
Qed.

Lemma play_run t c v x p n :
  reliable O -> schema_ok (data v) = true -> x ∈ file_entries (data v) -> live (sub c) (file_id c) x = true ->
  FileEntry.storage_path x = Some p -> opened (data v) p = Some n ->
  verify_playback_token t v = (Ok c, mkWorld (data v) (S (pos v))) ->
  play_with_token None t v =
    build 200 (media_headers (default (lit "application/octet-stream") (FileEntry.mime_type x)) (FsHandler.node_len n)
                 None (FileEntry.name x)) (content_of n) (mkWorld (data v) (S (S (S (S (pos v)))))).
Proof.
  intros R Sc Hx L Px Op V. unfold play_with_token. eapply bind_run; [exact V|].
  eapply bind_run; [by apply live_run|]. cbn beta iota. rewrite Px.
  eapply bind_run; [unfold map_err; by rewrite (Storage.fs_read_ok _ _ n R)|].
  eapply bind_run; [unfold map_err; by rewrite (Storage.fs_read_ok _ _ tt R)|]. reflexivity.
Qed.

(** a playback token opens one file for two hours.  With the environment
    answering, the token issued to a user for a live file of his expires two
    hours after it was issued.  Up to a minute after that, a request with it
    streams the content of the file, as long as the file is there and live; later
    the request is refused. *)
Theorem media_token_opens_file u f d w a w1 :
  reliable O -> (forall n, 0 <= clock_at n) -> generate_playback_token u f d w = (Ok a, w1) ->
  (exists x, x ∈ file_entries (data w) /\ live u f x = true)
  /\ expires_at a = Token.timestamp (clock_at (S (pos w))) + 7200
  /\ (forall v x p c, Token.timestamp (clock_at (pos v)) <= expires_at a + 60 -> schema_ok (data v) = true ->
        x ∈ file_entries (data v) -> live u f x = true -> FileEntry.storage_path x = Some p ->
        opened (data v) p = Some (Fs.File c) -> visible (FileEntry.name x) ->
        visible (default (lit "application/octet-stream") (FileEntry.mime_type x)) ->
        exists r v', play_with_token None (token a) v = (Ok r, v') /\ status r = 200 /\ body r = c)
  /\ (forall v range, expires_at a + 60 < Token.timestamp (clock_at (pos v)) ->
        fst (play_with_token range (token a) v) = Err (Unauthorized (lit "Invalid or expired media playback token"))).
Proof.
  intros R Ck H. apply generate_Ok in H as (Ex & Ea & En & _).
  assert (0 <= expires_at a).
  { rewrite Ea. unfold Token.timestamp. assert (0 <= clock_at (S (pos w)) / 1000000) by (apply Z.div_pos; [apply Ck|lia]). lia. }
  split; [exact Ex|]. split; [exact Ea|]. split.
  - intros v x p c T Sc Hx L Px Op Vn Vm. eexists _, _.
    rewrite (play_run (token a) (claims_for u f d (expires_at a)) v x p (Fs.File c)); [|done..|].
    + rewrite build_ok; [done|]. unfold media_headers. cbn [app].
      apply Forall_cons. split; [exact Vm|]. apply Forall_cons. split; [apply visible_int|].
      apply Forall_cons. split; [by apply visible_iff|]. apply Forall_cons. split; [|by constructor].
      apply visible_app; [by apply visible_iff|by apply visible_quoted].
    + rewrite (issued_verify _ _ _ _ _ _ En) by done. by rewrite (proj2 (Z.leb_le _ _)) by (unfold Token.LEEWAY; lia).
  - intros v range T. unfold play_with_token, mbind, M_bind. rewrite (issued_verify _ _ _ _ _ _ En) by done.
    by rewrite (proj2 (Z.leb_gt _ _)) by (unfold Token.LEEWAY; lia).
Qed.


(** ** Jobs *)

(** What an update may do to a job without touching its identity. *)
Definition same_job (j j' : TranscodeJob.row) : Prop :=
  TranscodeJob.id j' = TranscodeJob.id j /\ TranscodeJob.file_id j' = TranscodeJob.file_id j
  /\ TranscodeJob.user_id j' = TranscodeJob.user_id j /\ TranscodeJob.profile j' = TranscodeJob.profile j.

Lemma schema_update_job i f s :
  (forall j, same_job j (f j)) -> (forall j, varchar 20 (TranscodeJob.status (f j)) = true) ->
  schema_ok s = true -> schema_ok (update_job i f s) = true.
Proof.
  intros Hf Hs Sc. unfold update_job, schema_ok in *. apply andb_true_iff in Sc as [K R].
  unfold keys_ok, rows_ok in *. rewrite !andb_true_iff in *. destruct_and!.
  split_and!; try assumption; [apply unique_update; [intros j; by destruct (Hf j)|assumption]|].
  eapply forallb_update; [intros r Hr; exact Hr| |eassumption].
  intros r _ Hr _. destruct (Hf r) as (_ & Ff & Fu & Fp). unfold transcode_job_ok in *.
  rewrite !andb_true_iff in *. rewrite Ff, Fu, Fp, Hs. tauto.
Qed.

(** What the tasks keep of a job: its status is one of four, its output lies
    where its input says, a finished one has its playlist there, and a failed
    one says why. *)
Definition master_of (j : TranscodeJob.row) : rstr := TranscodeJob.output_dir j ++ lit "/master.m3u8".

Definition job_wf (j : TranscodeJob.row) : Prop :=
  TranscodeJob.status j ∈ map lit ["pending"; "processing"; "completed"; "failed"]%string
  /\ TranscodeJob.output_dir j = output_dir_of (TranscodeJob.input_path j)
  /\ (TranscodeJob.master_playlist j = None \/ TranscodeJob.master_playlist j = Some (master_of j))
  /\ (TranscodeJob.status j = lit "completed" -> TranscodeJob.master_playlist j = Some (master_of j)
                                               /\ TranscodeJob.completed_at j <> None)
  /\ (TranscodeJob.status j = lit "failed" -> TranscodeJob.error_message j <> None).

Definition jobs_wf (s : Server) : Prop := schema_ok s = true /\ forall j, j ∈ transcode_jobs s -> job_wf j.

(** What a run may do to the jobs. *)
Definition jobs_kept (s s' : Server) : Prop := jobs_wf s -> jobs_wf s'.
#[local] Instance jobs_kept_preorder : PreOrder jobs_kept.
Proof. split; [intros s H; exact H|intros s1 s2 s3 A B H; exact (B (A H))]. Qed.

Lemma jobs_update i f s :
  schema_ok (update_job i f s) = true -> (forall j, j ∈ transcode_jobs s -> job_wf j -> job_is i j = true -> job_wf (f j)) ->
  jobs_kept s (update_job i f s).
Proof.
  intros Sc Hf [_ H]. split; [exact Sc|]. unfold update_job. cbn [transcode_jobs set_transcode_jobs].
  intros j Hj. apply elem_update in Hj as (r & Hr & ->). destruct (job_is i r) eqn:J; [|by apply H]. apply Hf; [done|by apply H|done].
Qed.

Lemma jobs_disk s d : jobs_kept s (set_disk d s).
Proof. intros [S H]. by split. Qed.

Lemma command_keeps R `{!PreOrder R} program args :
  (forall s d, R s (set_disk d s)) -> preserves R (command program args).
Proof. intros H w o w'. unfold command. destruct (Transcoder.command _ _ _) as [r d]. intros [= _ <-]. apply H. Qed.

Lemma transcode_command_keeps R `{!PreOrder R} job :
  (forall s d, R s (set_disk d s)) -> preserves R (transcode_command job).
Proof.
  intros H. unfold transcode_command, container_runner, started. cbv zeta.
  repeat first [apply command_keeps; [apply _|exact H] | progress preserve].
  intros w o w' E. apply Storage.fs_op_inv in E as [->|(d & _ & _ & ->)]; [reflexivity|apply H].
Qed.

Lemma status_in t : existsb (fun x => bool_decide (t = lit x)) ["pending"; "processing"; "completed"; "failed"]%string = true ->
  t ∈ map lit ["pending"; "processing"; "completed"; "failed"]%string.
Proof.
  rewrite existsb_exists. intros (x & Hx & E). apply bool_decide_eq_true in E as ->. apply list_elem_of_In. by apply in_map.
Qed.

Lemma processing_wf j : job_wf j -> job_wf (TranscodeJob.set_status (lit "processing") j).
Proof.
  intros (_ & O1 & M1 & _ & _). unfold job_wf, master_of in *. cbn [TranscodeJob.set_status TranscodeJob.status
    TranscodeJob.output_dir TranscodeJob.input_path TranscodeJob.master_playlist TranscodeJob.completed_at].
  split_and!; try done; by apply status_in.
Qed.

Lemma failed_wf now err j : job_wf j -> job_wf (failed_job now err j).
Proof.
  intros (_ & O1 & M1 & _ & _). unfold job_wf, master_of, failed_job in *. cbn.
  split_and!; try done; by apply status_in.
Qed.

Lemma completed_wf now j : job_wf j -> job_wf (completed_job now (master_of j) j).
Proof.
  intros (_ & O1 & M1 & _ & _). unfold job_wf, master_of, completed_job in *. cbn.
  split_and!; try done; [by apply status_in|by right].
Qed.

(** The jobs, and where the output of the job [i] lies. *)
Definition at_dir (i : Z) (dir : rstr) (s : Server) : Prop :=
  jobs_wf s /\ forall j, j ∈ transcode_jobs s -> job_is i j = true -> TranscodeJob.output_dir j = dir.

Lemma at_dir_update i dir f s :
  schema_ok (update_job i f s) = true ->
  (forall j, job_wf j -> TranscodeJob.output_dir j = dir -> job_wf (f j)) ->
  (forall j, TranscodeJob.output_dir (f j) = TranscodeJob.output_dir j) -> at_dir i dir s -> at_dir i dir (update_job i f s).
Proof.
  intros Sc Hf Ho [W D]. split.
  - eapply jobs_update; [exact Sc| |exact W]. intros j Hj Wj Ij. apply Hf; [done|by apply D].
  - intros j Hj Ij. unfold update_job in Hj. cbn [transcode_jobs set_transcode_jobs] in Hj.
    apply elem_update in Hj as (r & Hr & ->). destruct (job_is i r) eqn:E; [rewrite Ho|]; by apply D.
Qed.

Lemma checked_wf {A} (f : Z -> Server -> A * Server) (Q : Server -> Prop) w o w' :
  (forall now s, Q s -> schema_ok (snd (f now s)) = true -> Q (snd (f now s))) ->
  execute schema_ok f w = (o, w') -> Q (data w) -> Q (data w').
Proof.
  intros Hf H Hq. assert (E : preserves (fun s s' => Q s -> Q s') (execute schema_ok f)); [|by eapply E].
  apply preserves_execute; [split; [by intros s|intros s1 s2 s3; tauto]|].
  intros now s a s' E Sc Hs. specialize (Hf now s Hs). rewrite E in Hf. by apply Hf.
Qed.

Lemma at_dir_preorder i dir : PreOrder (fun s s' => at_dir i dir s -> at_dir i dir s').
Proof. split; [by intros s|intros s1 s2 s3; tauto]. Qed.

Lemma finish_keeps i dir res : preserves (fun s s' => at_dir i dir s -> at_dir i dir s') (finish_job i dir res).
Proof.
  assert (Fl : forall err, preserves (fun s s' => at_dir i dir s -> at_dir i dir s') (fail_job i err)).
  { intros err w0 o0 w0' E. eapply checked_wf; [|exact E]. intros now s A Sc. apply at_dir_update; [exact Sc| |done|exact A].
    intros j Wj _. by apply failed_wf. }
  unfold finish_job. destruct res as [e|output]; [apply Fl|]. destruct (Transcoder.success output); [|apply Fl].
  intros w0 o0 w0' E. eapply checked_wf; [|exact E]. intros now s A Sc. apply at_dir_update; [exact Sc| |done|exact A].
  intros j Wj <-. by apply completed_wf.
Qed.

Lemma found_at_dir i job s : jobs_wf s -> find_row (job_is i) (transcode_jobs s) = Some job -> at_dir i (TranscodeJob.output_dir job) s.
Proof.
  intros W F. apply find_row_Some in F as [Hj Ij]. split; [exact W|]. intros j Hx Ix. f_equal. destruct W as [Sc _].
  eapply (unique_key_inj TranscodeJob.id); [|exact Hx|exact Hj|unfold job_is in *; rewrite Z.eqb_eq in *; congruence].
  unfold schema_ok, keys_ok in Sc. rewrite !andb_true_iff in Sc. tauto.
Qed.

Lemma start_keeps i w o w' :
  execute schema_ok (fun _ s => (tt, update_job i (TranscodeJob.set_status (lit "processing")) s)) w = (o, w') ->
  jobs_wf (data w) -> jobs_wf (data w').
Proof.
  intros E W. eapply checked_wf; [|exact E|exact W]. intros now s Ws Sc. eapply jobs_update; [exact Sc| |exact Ws].
  intros j _ Wj _. by apply processing_wf.
Qed.

Lemma rest_keeps i dir job : preserves (fun s s' => at_dir i dir s -> at_dir i dir s')
  (res ← transcode_command job;
   _ ← finish_job i dir res;
   map_err (to_internal "") (fetch_one (fun s => find_row (job_is i) (transcode_jobs s)))).
Proof.
  assert (K := at_dir_preorder i dir).
  apply preserves_bind; [exact K|apply transcode_command_keeps; [exact K|intros s d [[Sc W'] D]; by split]|intros res].
  apply preserves_bind; [exact K|apply finish_keeps|intros _; preserve].
Qed.

Lemma execute_transcode_keeps i : preserves jobs_kept (execute_transcode i).
Proof.
  intros w o w' H W. unfold execute_transcode in H. apply bind_inv in H as [([] & w1 & E1 & H)|(o1 & E1)];
    apply start_keeps in E1; [|exact W| |exact W]; [|exact E1].
  apply bind_inv in H as [(job & w2 & E2 & H)|(o2 & E2)].
  2: { assert (data w' = data w1) as ->; [|done]. unfold fetch_one, statement in E2.
       destruct (db_fault _); [by injection E2 as _ <-|]. destruct (find_row _ _); by injection E2 as _ <-. }
  apply fetch_one_Ok in E2 as (_ & F & ->). apply found_at_dir in F; [|exact E1].
  apply (rest_keeps i _ job) in H. by apply H in F as [F _].
Qed.

Lemma queue_keeps f u p profile : preserves jobs_kept (queue_transcode f u p profile).
Proof.
  unfold queue_transcode. apply preserves_bind; [apply _|preserve|intros i]. intros w o w' E.
  unfold jobs_kept. eapply checked_wf; [|exact E]. intros now s W Sc. cbn [snd] in *. split; [exact Sc|].
  intros j Hj. unfold insert_job in Hj. cbn [transcode_jobs set_transcode_jobs] in Hj.
  apply elem_insert in Hj as [Hj| ->]; [by apply W|]. unfold job_wf. cbn.
  split_and!; try done; [by apply status_in|by left].
Qed.

Lemma progress_keeps u f req : preserves jobs_kept (update_progress u f req).
Proof.
  unfold update_progress. apply preserves_map_err. intros w o w' E. unfold jobs_kept. eapply checked_wf; [|exact E].
  intros now s [_ W] Sc. split; [exact Sc|exact W].
Qed.

Lemma probe_media_keeps R `{!PreOrder R} p : (forall s d, R s (set_disk d s)) -> preserves R (probe_media p).
Proof.
  intros H. unfold probe_media, container_runner, started.
  repeat first [apply command_keeps; [apply _|exact H] | progress preserve].
Qed.

Lemma fs_read_keeps {A} R `{!PreOrder R} (f : Fs.fs -> option A) : preserves R (Storage.fs_read f).
Proof. intros w o w' E. unfold Storage.fs_read, io in E. destruct (io_fault _); [|destruct (f _)]; by injection E as _ <-. Qed.

Lemma run_op_jobs u o : preserves jobs_kept (run_op u o).
Proof.
  assert (D : forall s d, jobs_kept s (set_disk d s)) by apply jobs_disk.
  destruct o; cbn [run_op]; unfold transcode, probe, list_jobs, get_stream_url, get_job, stored_path,
    generate_playback_token, create_playback_token, play_with_token, verify_playback_token, get_progress,
    list_continue_watching, build; cbv zeta;
    repeat first [apply queue_keeps | apply progress_keeps | apply execute_transcode_keeps
      | apply probe_media_keeps; [apply _|exact D]
      | apply fs_read_keeps; apply _ | progress preserve].
Qed.

(** ** Sequences of operations *)

(** Operations of any users, one after the other, whatever fails. *)
Fixpoint after (l : list (Z * op)) (w : World Server) : World Server :=
  match l with [] => w | (u, o) :: r => after r (snd (run_op u o w)) end.

(** C30: the life of a transcoding job.  Over any sequence of operations of any
    users and of the tasks they start, whatever fails and whatever the programs
    answer, every job is pending, processing, completed or failed; a completed
    one has its playlist in the output directory its input gives, and its time;
    a failed one has its error. *)
Theorem job_states l w j :
  schema_ok (data w) = true -> (forall x, x ∈ transcode_jobs (data w) -> job_wf x) ->
  j ∈ transcode_jobs (data (after l w)) -> job_wf j.
Proof.
  intros Sc W. assert (K : jobs_wf (data (after l w))); [|intros Hj; by apply K].
  assert (W0 : jobs_wf (data w)) by (by split). clear Sc W. revert w W0.
  induction l as [|[u o] l IH]; intros w W0; [exact W0|]. cbn [after]. apply IH.
  destruct (run_op u o w) as [x w'] eqn:E. by apply (run_op_jobs u o w x w' E).
Qed.

(** ** A job that is run *)

Lemma transcode_command_run job w : exists res d n,
  transcode_command job w = (Ok res, mkWorld (set_disk d (data w)) n).
Proof.
  assert (C : forall program args w, exists r d, command program args w = (Ok r, mkWorld (set_disk d (data w)) (S (pos w)))).
  { intros program args v. unfold command. destruct (Transcoder.command _ _ _) as [r d]. by exists r, d. }
  assert (St : forall program args w, exists b d, started program args w = (Ok b, mkWorld (set_disk d (data w)) (S (pos w)))).
  { intros program args v. destruct (C program args v) as (r & d & E). unfold started, mbind, M_bind. rewrite E. by eexists _, d. }
  assert (Dd : forall s d d', set_disk d' (set_disk d s) = set_disk d' s) by done.
  unfold transcode_command. cbv zeta.
  assert (exists d0, discard (Storage.fs_op (fun f => Fs.create_dir_all f (os_path (path_join base_path (TranscodeJob.output_dir job))))) w
    = (Ok tt, mkWorld (set_disk d0 (data w)) (S (pos w)))) as (d0 & E0).
  { unfold discard, unwrap_or, mbind, M_bind, Storage.fs_op, io. destruct w as [s n]. cbn [data pos].
    destruct (io_fault n); [exists (disk s); by destruct s|].
    destruct (Fs.create_dir_all _ _) as [d|]; [by exists d|exists (disk s); by destruct s]. }
  destruct (St "ffmpeg"%string [lit "-version"] (mkWorld (set_disk d0 (data w)) (S (pos w)))) as (b & d1 & E1).
  cbn [data pos] in E1. rewrite Dd in E1. destruct b.
  - edestruct (C "ffmpeg"%string) as (r & d2 & E2). exists r, d2. eexists.
    eapply bind_run; [exact E0|]. eapply bind_run; [exact E1|]. cbn beta iota. rewrite E2. cbn [data pos]. by rewrite Dd.
  - assert (exists rn d2 n, container_runner (mkWorld (set_disk d1 (data w)) (S (S (pos w)))) = (Ok rn, mkWorld (set_disk d2 (data w)) n))
      as (rn & d2 & n & E2).
    { unfold container_runner. edestruct (St "docker"%string) as (b & d2 & E2). destruct b.
      - eexists _, d2, _. eapply bind_run; [exact E2|]. cbn [data pos]. by rewrite Dd.
      - edestruct (St "podman"%string) as (b' & d3 & E3). eexists _, d3, _.
        eapply bind_run; [exact E2|]. eapply bind_run; [exact E3|]. cbn [data pos]. by rewrite !Dd. }
    edestruct (C rn) as (r & d3 & E3). exists r, d3. eexists.
    eapply bind_run; [exact E0|]. eapply bind_run; [exact E1|]. cbn beta iota. eapply bind_run; [exact E2|].
    rewrite E3. cbn [data pos]. by rewrite Dd.
Qed.

Lemma update_job_run i f x w :
  reliable O -> schema_ok (data w) = true -> find_row (job_is i) (transcode_jobs (data w)) = Some x ->
  (forall now j, same_job j (f now j)) -> (forall now j, varchar 20 (TranscodeJob.status (f now j)) = true) ->
  exists w', execute schema_ok (fun now s => (tt, update_job i (f now) s)) w = (Ok tt, w')
    /\ data w' = update_job i (f (clock_at (pos w))) (data w) /\ schema_ok (data w') = true
    /\ find_row (job_is i) (transcode_jobs (data w')) = Some (f (clock_at (pos w)) x).
Proof.
  intros R Sc F Hf Hs. eexists (mkWorld (update_job i (f (clock_at (pos w))) (data w)) _).
  assert (Sc' := schema_update_job i (f (clock_at (pos w))) (data w) (Hf _) (Hs _) Sc).
  split; [unfold execute, statement, checked; rewrite (proj1 (R _)); cbn [fst snd]; by rewrite Sc'|].
  split; [done|]. split; [exact Sc'|]. unfold update_job. cbn [data transcode_jobs set_transcode_jobs].
  apply find_update; [exact F|]. apply find_row_Some in F as [_ F]. unfold job_is in *. by rewrite (proj1 (Hf _ _)).
Qed.

(** The two statements on a job amount to one. *)
Lemma two_updates i f g d s :
  (forall j, TranscodeJob.id (f j) = TranscodeJob.id j) ->
  update_job i g (set_disk d (update_job i f s)) = set_disk d (update_job i (fun j => g (f j)) s).
Proof.
  intros Hf. unfold update_job. cbn. unfold set_disk, set_transcode_jobs. cbn. f_equal. unfold update. rewrite map_map.
  apply map_ext. intros j. destruct (job_is i j) eqn:E; unfold job_is in *; rewrite ?Hf, E; done.
Qed.

(** The end of a run of the task, once the last statement is known. *)
Lemma finish_run g i x y w w1 res d n :
  reliable O -> schema_ok (data w1) = true -> y = TranscodeJob.set_status (lit "processing") x ->
  execute schema_ok (fun _ s => (tt, update_job i (TranscodeJob.set_status (lit "processing")) s)) w = (Ok tt, w1) ->
  data w1 = update_job i (TranscodeJob.set_status (lit "processing")) (data w) ->
  find_row (job_is i) (transcode_jobs (data w1)) = Some y ->
  transcode_command y (mkWorld (data w1) (S (pos w1))) = (Ok res, mkWorld (set_disk d (data w1)) n) ->
  (forall now j, same_job j (g now j)) -> (forall now j, varchar 20 (TranscodeJob.status (g now j)) = true) ->
  finish_job i (TranscodeJob.output_dir y) res = execute schema_ok (fun now s => (tt, update_job i (g now) s)) ->
  exists f n', execute_transcode i w = (Ok (g (clock_at n) y), mkWorld (set_disk d (update_job i f (data w))) n')
    /\ f x = g (clock_at n) y.
Proof.
  intros R Sc1 -> E1 D1 F1 E2 Hg Hs Eq. set (y := TranscodeJob.set_status (lit "processing") x) in *.
  set (w2 := mkWorld (set_disk d (data w1)) n) in *.
  destruct (update_job_run i g y w2 R Sc1 F1 Hg Hs) as (w3 & E3 & D3 & _ & F3).
  exists (fun j => g (clock_at n) (TranscodeJob.set_status (lit "processing") j)), (S (pos w3)). split; [|done].
  unfold execute_transcode. eapply bind_run; [exact E1|]. eapply bind_run.
  { unfold fetch_one, statement. rewrite (proj1 (R _)), F1. reflexivity. }
  eapply bind_run; [exact E2|]. eapply bind_run; [rewrite Eq; exact E3|].
  unfold map_err, fetch_one, statement. rewrite (proj1 (R _)), F3, D3. cbn [data pos w2]. by rewrite D1, two_updates.
Qed.

(** a task ends its job.  With the database answering, the task of a queued
    job, whatever the programs answer, ends with the job completed, with its
    playlist, or failed, with an error; and apart from what the programs did to
    the disk it changed that job and nothing else. *)
Theorem transcode_ends x w :
  reliable O -> schema_ok (data w) = true -> find_row (job_is (TranscodeJob.id x)) (transcode_jobs (data w)) = Some x ->
  exists x' f d n,
    execute_transcode (TranscodeJob.id x) w = (Ok x', mkWorld (set_disk d (update_job (TranscodeJob.id x) f (data w))) n)
    /\ f x = x' /\ same_job x x' /\ TranscodeJob.completed_at x' <> None
    /\ (TranscodeJob.status x' = lit "completed" /\ TranscodeJob.master_playlist x' = Some (master_of x)
        \/ TranscodeJob.status x' = lit "failed" /\ TranscodeJob.error_message x' <> None).
Proof.
  intros R Sc F. set (i := TranscodeJob.id x) in *.
  destruct (update_job_run i (fun _ => TranscodeJob.set_status (lit "processing")) x w R Sc F) as (w1 & E1 & D1 & Sc1 & F1);
    [done|done|]. set (y := TranscodeJob.set_status (lit "processing") x) in *.
  destruct (transcode_command_run y (mkWorld (data w1) (S (pos w1)))) as (res & d & n & E2). cbn [data] in E2.
  assert (Q := fun g => finish_run g i x y w w1 res d n R Sc1 eq_refl E1 D1 F1 E2).
  assert ((exists err, finish_job i (TranscodeJob.output_dir y) res = fail_job i err)
    \/ finish_job i (TranscodeJob.output_dir y) res
       = execute schema_ok (fun now s => (tt, update_job i (completed_job now (master_of y)) s))) as [[err Eq]|Eq].
  { destruct res as [e|output]; [left; by exists e|]. unfold finish_job. destruct (Transcoder.success output); [by right|left; by eexists]. }
  - destruct (Q (fun now => failed_job now err)) as (f & n' & E & Ef); [done|done|exact Eq|].
    exists (failed_job (clock_at n) err y), f, d, n'. split; [exact E|]. split; [exact Ef|]. split; [done|]. split; [done|].
    right. by split.
  - destruct (Q (fun now => completed_job now (master_of y))) as (f & n' & E & Ef); [done|done|exact Eq|].
    exists (completed_job (clock_at n) (master_of y) y), f, d, n'. split; [exact E|]. split; [exact Ef|]. split; [done|].
    split; [done|]. left. by split.
Qed.

(** ** Progress *)

(** a recorded position is the one that is resumed.  After an accepted
    update, reading the progress of that user on that file answers the position,
    the duration and the completion of the update, and the progress of every
    other user or file is what it was. *)
Theorem progress_roundtrip u f req w w1 v :
  reliable O -> update_progress u f req w = (Ok tt, w1) -> data v = data w1 ->
  (exists r, get_progress u f v = (Ok (Some r), mkWorld (data v) (S (pos v)))
    /\ PlaybackProgress.position_secs r = position_secs req /\ PlaybackProgress.duration_secs r = req_duration req
    /\ PlaybackProgress.completed r = is_completed req)
  /\ forall u' f', u' <> u \/ f' <> f ->
       find_row (progress_is u' f') (playback_progress (data w1)) = find_row (progress_is u' f') (playback_progress (data w)).
Proof.
  intros R H V. unfold update_progress in H. apply map_err_Ok, execute_Ok in H as (_ & E & _ & _). injection E as E.
  assert (Ej : forall u' f' r, progress_is u' f' r = true -> u' <> u \/ f' <> f -> progress_is u f r = false).
  { intros u' f' r. unfold progress_is. rewrite andb_true_iff, !Z.eqb_eq. intros [<- <-] N. apply andb_false_iff.
    rewrite !Z.eqb_neq. tauto. }
  unfold upsert_progress in E. cbn [PlaybackProgress.user_id PlaybackProgress.file_entry_id] in E.
  assert (Q : forall r, find_row (progress_is u f) (playback_progress (data w1)) = Some r ->
    get_progress u f v = (Ok (Some r), mkWorld (data v) (S (pos v)))).
  { intros r F. unfold get_progress, map_err, query, statement. by rewrite (proj1 (R _)), V, F. }
  destruct (exists_row _ _) eqn:X; rewrite <- E in *; cbn [playback_progress set_playback_progress] in *; split.
  - apply exists_row_iff in X as (r0 & Hr & Pr). destruct (find_row (progress_is u f) (playback_progress (data w))) as [r|] eqn:F.
    2: { rewrite find_row_None in F. by rewrite F in Pr. }
    eexists. split; [apply Q, find_update; [exact F|by apply find_row_Some in F as [_ F]]|]. by split_and!.
  - intros u' f' N. apply find_update_other; intros r Pr; [by eapply Ej|].
    destruct (progress_is u' f' _) eqn:Y; [|done]. apply (Ej u' f') in Y; [|exact N]. unfold progress_is in *. cbn in Y. congruence.
  - eexists. split; [apply Q, find_insert|by split_and!].
    + apply find_row_None. by apply exists_row_false.
    + unfold progress_is. cbn. by rewrite !Z.eqb_refl.
  - intros u' f' N. apply find_insert_other. destruct (progress_is u' f' _) eqn:Y; [|done].
    apply (Ej u' f') in Y; [|exact N]. unfold progress_is in Y. cbn in Y. by rewrite !Z.eqb_refl in Y.
Qed.
End Streaming.

(** ** Where outputs lie *)

Lemma trim_all p s : Forall (fun c => p c = true) s -> trim_end_by p s = [].
Proof.
  intros H. unfold trim_end_by. apply Forall_reverse in H. assert (trim_start_by p (reverse s) = []) as ->; [|done].
  induction H as [|c r Hc _ IH]; [done|]. cbn. by rewrite Hc.
Qed.

(** The path under which a file is stored has no dot. *)
Lemma stored_output `{UuidText} u f : output_dir_of (Storage.relative_path u f) = lit "_hls".
Proof.
  unfold output_dir_of. rewrite trim_all; [done|].
  assert (N : forall s, Forall (fun c => uuid_char c = true) s -> Forall (fun c => negb (c =? chr ".") = true) s).
  { intros s Hs. eapply Forall_impl; [exact Hs|]. intros c. unfold uuid_char. change (chr ".") with 46. change (chr "-") with 45.
    unfold is_ascii_digit. lia. }
  unfold Storage.relative_path. cbn [join]. repeat apply Forall_app_2; try (by repeat constructor); apply N.
  - apply Storage.uuid_forall.
  - apply Storage.prefix_forall.
  - apply Storage.uuid_forall.
Qed.

(** ** Concrete runs *)

(** Playback tokens of one character, the claims and the key as a number. *)
Definition pb_pack (c : PlaybackClaims) (key : rstr) : Z :=
  Zpos (countable.encode (sub c, file_id c, device_id c, exp c, typ c, key)).

Definition pb_unpack (z : Z) : option (PlaybackClaims * rstr) :=
  match z with
  | Zpos p =>
      match countable.decode (A := Z * Z * option Z * Z * rstr * rstr) p with
      | Some (s, f, d, e, t, key) => Some ({| sub := s; file_id := f; device_id := d; exp := e; typ := t |}, key)
      | None => None
      end
  | _ => None
  end.

Definition toy_pb_decode (now : Z) (token key : rstr) : rstr + PlaybackClaims :=
  match token with
  | [z] => match pb_unpack z with
           | Some (c, k) => if bool_decide (k = key) then if now <=? exp c + Token.LEEWAY then inr c else inl (lit "ExpiredSignature")
                            else inl (lit "InvalidSignature")
           | None => inl (lit "InvalidToken")
           end
  | _ => inl (lit "InvalidToken")
  end.

Definition toy_playback : PlaybackTokens.
Proof.
  refine {| pb_encode c key := inr [pb_pack c key]; pb_decode := toy_pb_decode; pb_expired := lit "ExpiredSignature" |}.
  - intros [s f d e t0] key t now [= <-] _. unfold toy_pb_decode, pb_unpack, pb_pack. rewrite decode_encode. cbn [exp sub file_id device_id typ].
    by rewrite bool_decide_eq_true_2.
  - intros c key t now. unfold toy_pb_decode. destruct t as [|z [|]]; try done. destruct (pb_unpack z) as [[c' k]|]; [|done].
    case_bool_decide; [|done]. destruct (Z.leb_spec now (exp c' + Token.LEEWAY)); [|done]. by intros [= ->].
Defined.

(** ffmpeg writes what it read where it was told to; there is no other program. *)
Definition demo_programs : Transcoder.Programs := {|
  Transcoder.command program args d :=
    if bool_decide (program = lit "ffmpeg") then
      (inr {| Transcoder.success := true; Transcoder.stdout := []; Transcoder.stderr := [] |},
       match args with
       | [_; _] | [_] | [] => d
       | _ :: input :: _ => default d (Fs.write d (FsHandler.raw_components (default [] (last args))) (as_bytes input))
       end)
    else (inl (lit "not found"), d);
  Transcoder.from_utf8_lossy b := b;
  Transcoder.from_slice _ := inl [];
  Transcoder.parse_f64 _ := None;
  Transcoder.two_decimals s := s |}.

Definition demo_stored (u i : Z) (n : string) : FileEntry.row :=
  FileEntry.set_storage_path (Some (Storage.relative_path (UT := plain_uuid) u i)) (demo_owned u i None n "file").

Definition demo_site (u i : Z) : Fs.path := Storage.demo_base ++ Storage.components (Storage.relative_path (UT := plain_uuid) u i).

(** Bob's film and Ada's, on disk. *)
Definition demo_media : World Server :=
  mkWorld (set_disk (<[demo_site 2 12 := Fs.File [1; 2; 3]]> (<[demo_site 1 22 := Fs.File [7; 8]]>
      (<[removelast (demo_site 2 12) := Fs.Dir]> (<[removelast (removelast (demo_site 2 12)) := Fs.Dir]>
      (<[removelast (demo_site 1 22) := Fs.Dir]> (<[removelast (removelast (demo_site 1 22)) := Fs.Dir]> Storage.demo_disk))))))
    (data (demo_files [demo_stored 2 12 "film"; demo_stored 1 22 "private"]))) 0.

Abbreviation demo_transcode u f w := (transcode (O := toy_env []) u f None w).
Abbreviation demo_execute j w := (execute_transcode (O := toy_env []) (P := demo_programs) (Some (lit "/srv/data")) [] j w).

(** The playlists of the jobs after each user transcoded his file, and what is at
    the one of a path. *)
Definition demo_jobs (w : World Server) : list (Z * option rstr) :=
  map (fun j => (TranscodeJob.user_id j, TranscodeJob.master_playlist j)) (transcode_jobs (data w)).

Definition demo_both : World Server :=
  let run u f w := match demo_transcode u f w with
                   | (Ok j, w1) => snd (demo_execute (TranscodeJob.id j) w1)
                   | (_, w1) => w1
                   end in
  run 1 22 (run 2 12 demo_media).

(** transcodings of different files overwrite each other.  The path under
    which a file is stored has no dot, so what is left of it when all but its
    extension is cut is nothing, and every job writes to the same directory:
    after Bob's film and then Ada's were transcoded, both have the same playlist,
    and it is Ada's. *)
Theorem outputs_collide :
  (forall (UT : UuidText) u f, output_dir_of (Storage.relative_path u f) = lit "_hls")
  /\ demo_jobs demo_both = [(2, Some (lit "_hls/master.m3u8")); (1, Some (lit "_hls/master.m3u8"))]
  /\ Fs.read (disk (data demo_both)) (Storage.demo_base ++ [lit "_hls"; lit "master.m3u8"])
     = Some (as_bytes (FsHandler.show_path (demo_site 1 22))).
Proof. split; [intros UT; apply stored_output|]. split; vm_compute; reflexivity. Qed.

Definition demo_request (completed : option bool) : UpdateProgressRequest :=
  {| position_secs := S754_zero false; req_duration := S754_finite false 4503599627370496 (-42); completed := completed |}.

Abbreviation demo_progress := (update_progress (O := toy_env []) 2 22 (demo_request None) demo_media).

(** progress shows the names of other users' files.  The position on a
    file is recorded without asking whose it is, and the list of what to continue
    joins the names: Bob, who may not have the path of Ada's file, reads its
    name. *)
Theorem continue_watching_leaks :
  fst (stored_path (O := toy_env []) 2 22 demo_media) = Err (NotFound (lit "File not found"))
  /\ fst demo_progress = Ok tt
  /\ match fst (list_continue_watching (O := toy_env []) 2 (snd demo_progress)) with
     | Ok l => map snd l | _ => [] end = [lit "private"]
  /\ (FileEntry.user_id (demo_stored 1 22 "private") = 1).
Proof. split_and!; vm_compute; reflexivity. Qed.

Lemma demo_media_schema : schema_ok (data demo_media) = true.
Proof. vm_compute. reflexivity. Qed.

Lemma demo_progress_run : demo_progress = (Ok tt, snd demo_progress).
Proof. apply run_pair. vm_compute. reflexivity. Qed.

Lemma progress_witness : exists r,
  get_progress (O := toy_env []) 2 22 (snd demo_progress) = (Ok (Some r), mkWorld (data (snd demo_progress)) 2)
  /\ PlaybackProgress.completed r = false.
Proof.
  destruct (progress_roundtrip (O := toy_env []) 2 22 (demo_request None) demo_media (snd demo_progress) (snd demo_progress)
    toy_env_reliable demo_progress_run eq_refl) as [(r & G & _ & _ & C) _].
  exists r. split; [exact G|]. rewrite C. vm_compute. reflexivity.
Defined.

Abbreviation demo_token := (generate_playback_token (O := toy_env []) (PT := toy_playback) (lit "secret") 2 12 None demo_media).

Lemma demo_token_run : exists a, demo_token = (Ok a, snd demo_token) /\ expires_at a = 1700007200.
Proof.
  assert (E : match fst demo_token with Ok a => Some (expires_at a) | _ => None end = Some 1700007200) by (vm_compute; reflexivity).
  destruct demo_token as [[a|e| |] w']; [|discriminate E..]. exists a. injection E as E. split; [reflexivity|exact E].
Qed.

Lemma demo_opened : opened (Some (lit "/srv/data")) [] (data demo_media)
  (Storage.relative_path (UT := plain_uuid) 2 12) = Some (Fs.File [1; 2; 3]).
Proof. vm_compute. reflexivity. Qed.

Lemma demo_clock n : 0 <= clock_at (Oracle := toy_env []) n.
Proof. cbn. lia. Qed.

Lemma media_token_witness : exists a r v', demo_token = (Ok a, snd demo_token)
  /\ play_with_token (O := toy_env []) (HV := any_header) (PT := toy_playback) (Some (lit "/srv/data")) [] (lit "secret") None (token a)
       demo_media = (Ok r, v') /\ body r = [1; 2; 3].
Proof.
  destruct demo_token_run as (a & E & X).
  destruct (media_token_opens_file (O := toy_env []) (HV := any_header) (PT := toy_playback) (Some (lit "/srv/data")) [] (lit "secret")
    2 12 None demo_media a (snd demo_token) toy_env_reliable demo_clock E) as (_ & _ & P & _).
  destruct (P demo_media (demo_stored 2 12 "film") (Storage.relative_path (UT := plain_uuid) 2 12) [1; 2; 3]) as (r & v' & G & _ & B).
  - rewrite X. vm_compute. discriminate.
  - exact demo_media_schema.
  - apply list_elem_of_In. left. reflexivity.
  - vm_compute. reflexivity.
  - reflexivity.
  - exact demo_opened.
  - apply visible_iff. vm_compute. reflexivity.
  - apply visible_iff. vm_compute. reflexivity.
  - exists a, r, v'. split; [exact E|]. split; [exact G|exact B].
Defined.

Abbreviation demo_play a := (play_with_token (O := toy_env []) (HV := any_header) (PT := toy_playback) (Some (lit "/srv/data")) []
  (lit "secret") (Some (lit "bytes=1-")) (token a) demo_media).

Lemma demo_play_run : exists a r, demo_token = (Ok a, snd demo_token) /\ demo_play a = (Ok r, snd (demo_play a)) /\ status r = 206.
Proof.
  destruct demo_token_run as (a & E & _). exists a.
  assert (Q : match fst demo_token with
              | Ok a => match fst (demo_play a) with Ok r => Some (status r) | _ => None end
              | _ => None end = Some 206) by (vm_compute; reflexivity).
  rewrite E in Q. cbn [fst] in Q. destruct (demo_play a) as [[r|e| |] w']; [|discriminate Q..].
  exists r. split; [exact E|]. injection Q as Q. split; [reflexivity|exact Q].
Qed.


Definition demo_ops : list (Z * op) :=
  [(2, Transcode 12 None); (1, Transcode 22 (Some (lit "thumbnail"))); (2, Execute 1001); (1, Execute 1004); (2, StreamUrl 1001)].

Abbreviation demo_after := (after (O := toy_env []) (P := demo_programs) (JT := LanServer.toy_json) (U := ascii_unicode)
  (HV := any_header) (PT := toy_playback) (Some (lit "/srv/data")) [] (lit "secret") demo_ops demo_media).

Lemma demo_no_jobs x : x ∈ transcode_jobs (data demo_media) -> job_wf x.
Proof. intros H. exfalso. revert H. change (transcode_jobs (data demo_media)) with (@nil TranscodeJob.row). apply not_elem_of_nil. Qed.

Lemma demo_after_jobs : map TranscodeJob.status (transcode_jobs (data demo_after)) = [lit "completed"; lit "completed"].
Proof. vm_compute. reflexivity. Qed.

Lemma demo_after_job : exists j, j ∈ transcode_jobs (data demo_after) /\ TranscodeJob.status j = lit "completed".
Proof.
  pose proof demo_after_jobs as H. destruct (transcode_jobs (data demo_after)) as [|j r]; [discriminate H|].
  exists j. split; [left|]. by injection H as -> _.
Qed.

Lemma job_states_witness : exists j, j ∈ transcode_jobs (data demo_after) /\ TranscodeJob.master_playlist j = Some (master_of j).
Proof.
  destruct demo_after_job as (j & Hj & S).
  destruct (job_states (O := toy_env []) (P := demo_programs) (JT := LanServer.toy_json) (U := ascii_unicode) (HV := any_header)
    (PT := toy_playback) (Some (lit "/srv/data")) [] (lit "secret") demo_ops demo_media j demo_media_schema demo_no_jobs Hj)
    as (_ & _ & _ & C & _).
  exists j. split; [exact Hj|]. exact (proj1 (C S)).
Defined.

Abbreviation demo_queue := (snd (demo_transcode 2 12 demo_media)).

Lemma demo_queue_schema : schema_ok (data demo_queue) = true.
Proof. vm_compute. reflexivity. Qed.

Lemma demo_queued : exists j, find_row (job_is (TranscodeJob.id j)) (transcode_jobs (data demo_queue)) = Some j.
Proof.
  assert (E : match find_row (job_is 1001) (transcode_jobs (data demo_queue)) with Some _ => true | None => false end = true)
    by (vm_compute; reflexivity).
  destruct (find_row (job_is 1001) (transcode_jobs (data demo_queue))) as [j|] eqn:F; [|discriminate E].
  exists j. assert (F' := F). apply find_row_Some in F' as [_ I]. apply Z.eqb_eq in I. rewrite I. exact F.
Qed.

Lemma transcode_ends_witness : exists j x' w', demo_execute (TranscodeJob.id j) demo_queue = (Ok x', w')
  /\ TranscodeJob.completed_at x' <> None.
Proof.
  destruct demo_queued as (j & F).
  destruct (transcode_ends (O := toy_env []) (P := demo_programs) (Some (lit "/srv/data")) [] j
    demo_queue toy_env_reliable demo_queue_schema F) as (x' & f & d & n & E & _ & _ & C & _).
  exists j, x'. eexists. split; [exact E|exact C].
Defined.
End Streaming.
