(* ===== verification/Notify.v ===== *)
(** * Notify: notifications and push subscriptions

    backend/crates/notification/src: handlers.rs and web_push.rs.  The push
    services of the browsers are a parameter: what they answer to a delivery. *)

From S2P Require Import Prelude Text Tables Effects Externals Schema Auth Json.

Module Notify.
Import Json.

Record CreateNotificationRequest := { title : rstr; body : rstr; user_id : option Z }.
Record SubscribeRequest := { endpoint : rstr; p256dh : rstr; auth : rstr }.
Record PushPayload := { p_title : rstr; p_body : rstr; icon : option rstr; url : option rstr; tag : option rstr }.

(** One POST to an endpoint: an error of the client, or the status of the
    answer; the number is that of the interaction. *)
Class PushServices := { deliver : nat -> rstr -> rstr -> rstr + Z }.

Section Notify.
Context {O : Oracle} {PS : PushServices} {JT : JsonText}.
(** the error of building an HTTP client, if it fails *)
Context (client_error : option rstr).

(** ** Notifications *)

Definition to_user (u : Z) (n : Notification.row) : bool := Notification.user_id n =? u.
Definition unread (u : Z) (n : Notification.row) : bool := to_user u n && negb (Notification.is_read n).
Definition notification_is (i : Z) (n : Notification.row) : bool := Notification.id n =? i.

Definition insert_notification (n : Notification.row) (s : Server) : Server :=
  set_notifications (insert_row n (notifications s)) s.

(** The id is the default of the column. *)
Definition post (target : Z) (t b : rstr) : M Server Notification.row :=
  i ← new_v4;
  execute schema_ok (fun now s =>
    let n := {| Notification.id := i; Notification.user_id := target; Notification.title := t; Notification.body := b;
                Notification.is_read := false; Notification.created_at := now |} in
    (n, insert_notification n s)).

Definition create_notification (caller : Z) (req : CreateNotificationRequest) : M Server Notification.row :=
  let target_user_id := default caller (user_id req) in
  map_err (to_internal "") (post target_user_id (title req) (body req)).

Definition create_system_notification (u : Z) (t b : rstr) : M Server unit :=
  map_err (to_internal "") (_ ← post u t b; mret tt).

Definition newest_note (a b : Notification.row) : bool := Notification.created_at b <=? Notification.created_at a.

Definition list_notifications (caller : Z) : M Server (list Notification.row) :=
  map_err (to_internal "") (query (fun s => take 50 (sort_by newest_note (select (to_user caller) (notifications s))))).

Definition mark (p : Notification.row -> bool) (s : Server) : Server :=
  set_notifications (update p (Notification.set_is_read true) (notifications s)) s.

Definition mark_read (caller i : Z) : M Server unit :=
  map_err (to_internal "") (execute schema_ok (fun _ s => (tt, mark (fun n => notification_is i n && to_user caller n) s))).

(** The number of rows affected. *)
Definition mark_all_read (caller : Z) : M Server Z :=
  map_err (to_internal "") (execute schema_ok (fun _ s =>
    (count_rows (unread caller) (notifications s), mark (unread caller) s))).

Definition unread_count (caller : Z) : M Server Z :=
  map_err (to_internal "") (query (fun s => count_rows (unread caller) (notifications s))).

(** ** Push subscriptions *)

Definition has_endpoint (e : rstr) (p : PushSubscription.row) : bool := bool_decide (PushSubscription.endpoint p = e).
Definition subscribed (u : Z) (p : PushSubscription.row) : bool := PushSubscription.user_id p =? u.
Definition sub_is (i : Z) (p : PushSubscription.row) : bool := PushSubscription.id p =? i.

(** INSERT ... ON CONFLICT (endpoint) DO UPDATE of the keys and the agent. *)
Definition upsert_subscription (n : PushSubscription.row) (s : Server) : option PushSubscription.row * Server :=
  let same := has_endpoint (PushSubscription.endpoint n) in
  let renew r := PushSubscription.set_user_agent (PushSubscription.user_agent n)
                   (PushSubscription.set_auth_key (PushSubscription.auth_key n)
                     (PushSubscription.set_p256dh_key (PushSubscription.p256dh_key n) r)) in
  if exists_row same (push_subscriptions s)
  then (option_map renew (find_row same (push_subscriptions s)),
        set_push_subscriptions (update same renew (push_subscriptions s)) s)
  else (Some n, set_push_subscriptions (insert_row n (push_subscriptions s)) s).

Definition subscribe (u : Z) (req : SubscribeRequest) (agent : option rstr) : M Server PushSubscription.row :=
  i ← new_v4;
  execute_one schema_ok (fun now => upsert_subscription
    {| PushSubscription.id := i; PushSubscription.user_id := u; PushSubscription.endpoint := endpoint req;
       PushSubscription.p256dh_key := p256dh req; PushSubscription.auth_key := auth req;
       PushSubscription.user_agent := agent; PushSubscription.created_at := now |}).

Definition drop_subscriptions (p : PushSubscription.row -> bool) (s : Server) : Server :=
  set_push_subscriptions (delete_rows p (push_subscriptions s)) s.

Definition unsubscribe (u : Z) (e : rstr) : M Server unit :=
  execute schema_ok (fun _ s => (tt, drop_subscriptions (fun p => subscribed u p && has_endpoint e p) s)).

Definition newest_sub (a b : PushSubscription.row) : bool := PushSubscription.created_at b <=? PushSubscription.created_at a.

Definition list_subscriptions (u : Z) : M Server (list PushSubscription.row) :=
  query (fun s => sort_by newest_sub (select (subscribed u) (push_subscriptions s))).

Definition payload_text (p : PushPayload) : rstr :=
  json_print (obj [("title", Str (p_title p)); ("body", Str (p_body p)); ("icon", opt_str (icon p));
                   ("url", opt_str (url p)); ("tag", opt_str (tag p))]%string).

Definition delivered (r : rstr + Z) : bool := match r with inr st => (200 <=? st) && (st <? 300) | inl _ => false end.
Definition gone (r : rstr + Z) : bool := match r with inr st => st =? 410 | inl _ => false end.

Fixpoint send_all (subs : list PushSubscription.row) (text : rstr) (sent : Z) : M Server Z :=
  match subs with
  | [] => mret sent
  | s :: rest =>
      r ← interact (fun n => deliver n (PushSubscription.endpoint s) text);
      if delivered r then send_all rest text (sent + 1)
      else if gone r then
        _ ← discard (execute schema_ok (fun _ d => (tt, drop_subscriptions (sub_is (PushSubscription.id s)) d)));
        send_all rest text sent
      else send_all rest text sent
  end.

Definition send_push (u : Z) (payload : PushPayload) : M Server Z :=
  subs ← list_subscriptions u;
  match client_error with
  | Some e => throw (Internal (lit "HTTP client error: " ++ e))
  | None => send_all subs (payload_text payload) 0
  end.

(** ** The routes *)

Definition push_subscribe (caller : Z) (req : SubscribeRequest) : M Server PushSubscription.row := subscribe caller req None.

Definition push_unsubscribe (caller : Z) (req : Value) : M Server unit :=
  e ← ok_or (as_str (index req "endpoint")) (Validation (lit "Missing endpoint"));
  unsubscribe caller e.

Inductive op :=
| Create (req : CreateNotificationRequest)
| List
| Read (i : Z)
| ReadAll
| Unread
| Subscribe (req : SubscribeRequest)
| Unsubscribe (req : Value)
| Subscriptions
| Push (p : PushPayload).

Definition run_op (caller : Z) (o : op) : M Server unit :=
  match o with
  | Create req => _ ← create_notification caller req; mret tt
  | List => _ ← list_notifications caller; mret tt
  | Read i => mark_read caller i
  | ReadAll => _ ← mark_all_read caller; mret tt
  | Unread => _ ← unread_count caller; mret tt
  | Subscribe req => _ ← push_subscribe caller req; mret tt
  | Unsubscribe req => push_unsubscribe caller req
  | Subscriptions => _ ← list_subscriptions caller; mret tt
  | Push p => _ ← send_push caller p; mret tt
  end.

(** ** The inbox of a user *)

(** What may happen to the inbox of [v] meanwhile: new unread notifications. *)
Definition inbox_grows (v : Z) (s s' : Server) : Prop :=
  exists new, select (to_user v) (notifications s') = select (to_user v) (notifications s) ++ new
              /\ Forall (fun n => Notification.is_read n = false) new.

#[local] Instance inbox_grows_preorder v : PreOrder (inbox_grows v).
Proof.
  split; [intros s; exists []; by rewrite app_nil_r|]. intros s1 s2 s3 (n1 & E1 & F1) (n2 & E2 & F2).
  exists (n1 ++ n2). split; [by rewrite E2, E1, app_assoc|by apply Forall_app].
Qed.

Lemma grows_same v s s' : notifications s' = notifications s -> inbox_grows v s s'.
Proof. intros E. exists []. by rewrite E, app_nil_r. Qed.

Lemma grows_insert v n s : Notification.is_read n = false -> inbox_grows v s (insert_notification n s).
Proof.
  intros U. unfold inbox_grows, insert_notification, insert_row, select. cbn [notifications set_notifications].
  rewrite List.filter_app. cbn. destruct (to_user v n); [by exists [n]; split; [|constructor]|exists []; by rewrite app_nil_r].
Qed.

Lemma grows_mark v p s : (forall n, p n = true -> to_user v n = false) -> inbox_grows v s (mark p s).
Proof.
  intros N. exists []. rewrite app_nil_r. split; [|constructor]. unfold mark. cbn [notifications set_notifications].
  apply select_update_disjoint. intros r _ P. split; exact (N r P).
Qed.

Lemma other_user u v n : v <> u -> to_user u n = true -> to_user v n = false.
Proof. unfold to_user. rewrite Z.eqb_eq, Z.eqb_neq. congruence. Qed.

Lemma execute_grows {A} v (f : Z -> Server -> A * Server) :
  (forall now s, inbox_grows v s (snd (f now s))) -> preserves (inbox_grows v) (execute schema_ok f).
Proof. intros H. apply preserves_execute; [apply _|]. intros now s a s' E _. specialize (H now s). by rewrite E in H. Qed.

Lemma send_all_grows v subs text n : preserves (inbox_grows v) (send_all subs text n).
Proof.
  revert n. induction subs as [|s r IH]; intros n; cbn [send_all]; [preserve|].
  apply preserves_bind; [apply _|apply preserves_interact; apply _|intros x].
  destruct (delivered x); [apply IH|]. destruct (gone x); [|apply IH].
  apply preserves_bind; [apply _| |intros _; apply IH]. apply preserves_discard; [apply _|].
  apply execute_grows. intros now t. by apply grows_same.
Qed.

Lemma post_grows v u t b : preserves (inbox_grows v) (post u t b).
Proof.
  unfold post. apply preserves_bind; [apply _|preserve|intros i]. apply execute_grows. intros now s. by apply grows_insert.
Qed.

(** nobody empties another user's inbox.  Whatever an operation on
    notifications or subscriptions is given and whatever fails, what the inbox of
    everyone but its caller held is still there, as read as it was, in its order,
    before whatever was added. *)
Theorem inbox_kept u o v w r w' : run_op u o w = (r, w') -> v <> u -> inbox_grows v (data w) (data w').
Proof.
  intros H N. enough (P : preserves (inbox_grows v) (run_op u o)) by (by eapply P). clear H.
  destruct o; cbn [run_op]; unfold create_notification, list_notifications, mark_read, mark_all_read, unread_count,
    push_subscribe, subscribe, push_unsubscribe, unsubscribe, list_subscriptions, send_push;
    repeat first [apply post_grows | apply send_all_grows
      | apply execute_grows; intros now s; first [by apply grows_same | apply grows_mark; intros n]
      | progress preserve].
  - intros P. apply andb_true_iff in P as [_ P]. by eapply other_user.
  - intros P. apply andb_true_iff in P as [P _]. by eapply other_user.
  - apply preserves_execute_one; [apply _|]. intros now s y s' E _. apply grows_same. unfold upsert_subscription in E.
    destruct (exists_row _ _); by injection E as _ <-.
Qed.

(** reading everything.  When all is marked as read, the answer is the
    number of notifications that were unread, none is unread afterwards, and the
    inboxes of others, and the texts and the order of the caller's, are as they
    were. *)
Theorem mark_all_read_spec u w n w' :
  mark_all_read u w = (Ok n, w') ->
  n = count_rows (unread u) (notifications (data w)) /\ count_rows (unread u) (notifications (data w')) = 0
  /\ map Notification.id (notifications (data w')) = map Notification.id (notifications (data w))
  /\ map Notification.title (notifications (data w')) = map Notification.title (notifications (data w))
  /\ forall v, v <> u -> select (to_user v) (notifications (data w')) = select (to_user v) (notifications (data w)).
Proof.
  unfold mark_all_read. intros H. apply map_err_Ok, execute_Ok in H as (_ & E & _ & _). injection E as <- E. rewrite <- E.
  unfold mark. cbn [notifications set_notifications]. split; [done|]. split; [|split; [|split]].
  - unfold count_rows, select. assert (List.filter (unread u) (update (unread u) (Notification.set_is_read true) (notifications (data w))) = []) as ->; [|done].
    unfold update. induction (notifications (data w)) as [|x t IH]; [done|]. cbn [map List.filter].
    destruct (unread u x) eqn:X; [|by rewrite X]. unfold unread at 1. cbn [Notification.set_is_read Notification.is_read negb].
    by rewrite andb_false_r.
  - by apply update_map_same.
  - by apply update_map_same.
  - intros v N. apply select_update_disjoint. intros r _ P. unfold unread in P. apply andb_true_iff in P as [P _].
    split; [|change (to_user v (Notification.set_is_read true r)) with (to_user v r)]; by eapply other_user.
Qed.

(** ** Sending *)

Lemma key_subscription s : schema_ok s = true -> unique_key PushSubscription.id (push_subscriptions s) = true.
Proof. unfold schema_ok, keys_ok. rewrite !andb_true_iff. tauto. Qed.

(** The subscriptions after [subs] were tried with the answers [rs]. *)
Definition expired (subs : list PushSubscription.row) (rs : list (rstr + Z)) (p : PushSubscription.row) : bool :=
  existsb (fun sr : PushSubscription.row * (rstr + Z) => gone (snd sr) && sub_is (PushSubscription.id (fst sr)) p) (zip subs rs).

Lemma delivered_not_gone r : delivered r = true -> gone r = false.
Proof. destruct r as [|st]; cbn; [done|]. lia. Qed.

Lemma schema_drop p s : schema_ok s = true -> schema_ok (drop_subscriptions p s) = true.
Proof.
  intros Sc. unfold drop_subscriptions, schema_ok in *. apply andb_true_iff in Sc as [K R].
  unfold keys_ok, rows_ok in *. rewrite !andb_true_iff in *. destruct_and!.
  split_and!; try assumption; try (by apply unique_delete). by apply forallb_delete.
Qed.

Lemma drop_drop p q s : drop_subscriptions q (drop_subscriptions p s) = drop_subscriptions (fun x => p x || q x) s.
Proof.
  unfold drop_subscriptions, set_push_subscriptions. cbn. f_equal. unfold delete_rows.
  induction (push_subscriptions s) as [|x t IH]; [done|]. cbn [List.filter]. destruct (p x); cbn [negb orb]; [exact IH|].
  cbn [List.filter]. destruct (q x); cbn [negb]; [exact IH|]. by rewrite IH.
Qed.

Lemma drop_none s : drop_subscriptions (fun _ => false) s = s.
Proof.
  unfold drop_subscriptions, delete_rows. assert (List.filter (fun r : PushSubscription.row => negb false) (push_subscriptions s) = push_subscriptions s)
    as ->; [|by destruct s]. induction (push_subscriptions s) as [|x t IH]; [done|]. cbn [List.filter]. exact (f_equal (cons x) IH).
Qed.

Lemma drop_ext p q s : (forall x, p x = q x) -> drop_subscriptions p s = drop_subscriptions q s.
Proof.
  intros E. unfold drop_subscriptions. f_equal. unfold delete_rows. apply List.filter_ext. intros x. by rewrite E.
Qed.

Lemma send_all_run subs text n w :
  reliable O -> schema_ok (data w) = true ->
  exists rs k, Forall2 (fun s r => exists i, r = deliver i (PushSubscription.endpoint s) text) subs rs
    /\ send_all subs text n w
       = (Ok (n + Z.of_nat (length (List.filter delivered rs))), mkWorld (drop_subscriptions (expired subs rs) (data w)) k).
Proof.
  intros R. revert n w. induction subs as [|s rest IH]; intros n w Sc; cbn [send_all].
  { exists [], (pos w). split; [constructor|]. cbn [length List.filter Z.of_nat]. rewrite Z.add_0_r. unfold expired. cbn.
    rewrite drop_none. by destruct w. }
  set (r := deliver (pos w) (PushSubscription.endpoint s) text).
  assert (G : forall (d : Server) (m : Z) (j : nat), schema_ok d = true -> gone r = false \/ d = drop_subscriptions (sub_is (PushSubscription.id s)) (data w) ->
    gone r = true \/ d = data w -> exists rs k, Forall2 (fun s r => exists i, r = deliver i (PushSubscription.endpoint s) text) (s :: rest) (r :: rs)
      /\ send_all rest text m (mkWorld d j) = (Ok (m + Z.of_nat (length (List.filter delivered rs))),
           mkWorld (drop_subscriptions (expired (s :: rest) (r :: rs)) (data w)) k)).
  { intros d m j Scd D1 D2. destruct (IH m (mkWorld d j) Scd) as (rs & k & F & E). exists rs, k.
    split; [constructor; [by exists (pos w)|exact F]|]. rewrite E. cbn [data]. do 2 f_equal.
    destruct (gone r) eqn:Gr.
    - destruct D1 as [D1| ->]; [done|]. rewrite drop_drop. apply drop_ext. intros x. unfold expired. cbn. by rewrite Gr.
    - destruct D2 as [D2| ->]; [done|]. apply drop_ext. intros x. unfold expired. cbn. by rewrite Gr. }
  unfold mbind at 1, M_bind at 1, interact. fold r. destruct (delivered r) eqn:Dr.
  - destruct (G (data w) (n + 1) (S (pos w)) Sc) as (rs & k & F & E); [left; by apply delivered_not_gone|by right|].
    exists (r :: rs), k. split; [exact F|]. rewrite E. cbn [List.filter]. rewrite Dr. cbn [length]. f_equal. f_equal. lia.
  - destruct (gone r) eqn:Gr.
    + assert (Sc' := schema_drop (sub_is (PushSubscription.id s)) _ Sc).
      destruct (G (drop_subscriptions (sub_is (PushSubscription.id s)) (data w)) n (S (S (pos w))) Sc') as (rs & k & F & E);
        [by right|by left|]. exists (r :: rs), k. split; [exact F|]. eapply bind_run.
      { unfold discard, unwrap_or, mbind, M_bind, execute, statement, checked. cbn [data pos]. rewrite (proj1 (R _)). cbn [fst snd].
        rewrite Sc'. reflexivity. }
      rewrite E. cbn [List.filter]. by rewrite Dr.
    + destruct (G (data w) n (S (pos w)) Sc) as (rs & k & F & E); [by left|by right|].
      exists (r :: rs), k. split; [exact F|]. rewrite E. cbn [List.filter]. by rewrite Dr.
Qed.

(** C24: a push.  With the database answering, a push posts to each of the user's
    subscriptions, newest first; the answer is how many were answered with a
    success, the subscriptions that are gone afterwards are exactly those that
    were answered with 410, and nothing else changes. *)
Theorem send_push_spec u p w :
  reliable O -> schema_ok (data w) = true -> client_error = None ->
  exists subs rs left k,
    subs ≡ₚ select (subscribed u) (push_subscriptions (data w)) /\ sorted_by newest_sub subs
    /\ Forall2 (fun s r => exists i, r = deliver i (PushSubscription.endpoint s) (payload_text p)) subs rs
    /\ send_push u p w
       = (Ok (count_rows (fun r => match r with inr st => (200 <=? st) && (st <? 300) | inl _ => false end) rs),
          mkWorld (set_push_subscriptions left (data w)) k)
    /\ forall x, x ∈ left <-> x ∈ push_subscriptions (data w) /\ ~ (x, inr 410) ∈ zip subs rs.
Proof.
  intros R Sc Nc. set (subs := sort_by newest_sub (select (subscribed u) (push_subscriptions (data w)))).
  destruct (send_all_run subs (payload_text p) 0 (mkWorld (data w) (S (pos w))) R Sc) as (rs & k & F & E).
  exists subs, rs, (delete_rows (expired subs rs) (push_subscriptions (data w))), k.
  assert (P : subs ≡ₚ select (subscribed u) (push_subscriptions (data w))) by apply sort_by_perm.
  split; [exact P|]. split.
  { apply sort_by_sorted; intros a b; unfold newest_sub; [lia|intros c; lia]. }
  split; [exact F|]. split.
  - unfold send_push, list_subscriptions. eapply bind_run.
    { unfold query, statement. rewrite (proj1 (R _)). reflexivity. }
    rewrite Nc. exact E.
  - intros x. rewrite elem_delete, <- not_true_iff_false.
    assert (G : x ∈ push_subscriptions (data w) -> expired subs rs x = true <-> (x, inr 410) ∈ zip subs rs); [|tauto].
    intros Hx. split.
    + intros X. apply existsb_exists in X as ([y r] & I & X). apply list_elem_of_In in I. cbn [fst snd] in X.
      apply andb_true_iff in X as [G Y]. apply Z.eqb_eq in Y. destruct r as [|st]; [done|]. apply Z.eqb_eq in G. subst st.
      assert (Hy : y ∈ push_subscriptions (data w)).
      { apply elem_of_zip_l in I. rewrite P in I. by apply elem_select in I as [? _]. }
      by rewrite (unique_key_inj _ _ _ _ (key_subscription _ Sc) Hx Hy Y).
    + intros I. apply existsb_exists. exists (x, inr 410). split; [by apply list_elem_of_In|]. cbn [fst snd]. apply Z.eqb_refl.
Qed.
End Notify.

(** ** Concrete runs *)

(** Services that took everything, except one that answers 410 and one that
    cannot be reached. *)
Definition demo_services : PushServices := {|
  deliver _ e _ := if bool_decide (e = lit "https://gone") then inr 410
                   else if bool_decide (e = lit "https://down") then inl (lit "connection refused") else inr 201 |}.

Definition demo_sub (i u : Z) (e : string) : PushSubscription.row :=
  {| PushSubscription.id := i; PushSubscription.user_id := u; PushSubscription.endpoint := lit e;
     PushSubscription.p256dh_key := lit "p"; PushSubscription.auth_key := lit "k"; PushSubscription.user_agent := None;
     PushSubscription.created_at := i |}.

Definition demo_subs : World Server :=
  mkWorld (set_push_subscriptions [demo_sub 1 2 "https://a"; demo_sub 2 2 "https://gone"; demo_sub 3 1 "https://b"; demo_sub 4 2 "https://down"]
             Auth.demo_server) 0.

Definition demo_note (u : Z) : CreateNotificationRequest := {| title := lit "Security alert"; body := lit "x"; user_id := Some u |}.

Abbreviation demo_noted := (create_notification (O := toy_env []) 2 (demo_note 1) demo_subs).
Abbreviation demo_taken := (subscribe (O := toy_env []) 2
  {| endpoint := lit "https://b"; p256dh := lit "P"; auth := lit "K" |} None demo_subs).

(** what the notification service does not ask.  Any user writes into any
    user's inbox; and subscribing an endpoint that another user subscribed is
    answered as a success, keeps the other's name on the subscription and puts
    the new keys under it, so that the caller gets no push and the other's
    browser can no longer read his. *)
Theorem notify_gaps :
  match fst demo_noted with Ok n => Notification.user_id n | _ => 0 end = 1
  /\ match fst demo_taken with Ok p => (PushSubscription.user_id p, PushSubscription.auth_key p) | _ => (0, []) end = (1, lit "K")
  /\ length (select (subscribed 2) (push_subscriptions (data (snd demo_taken)))) = 3%nat
  /\ map PushSubscription.auth_key (select (subscribed 1) (push_subscriptions (data (snd demo_taken)))) = [lit "K"].
Proof. split_and!; vm_compute; reflexivity. Qed.

Lemma demo_subs_schema : schema_ok (data demo_subs) = true.
Proof. vm_compute. reflexivity. Qed.

Abbreviation demo_push := (send_push (O := toy_env []) (PS := demo_services) (JT := {| json_parse _ := None; json_print _ := [] |}) None 2
  {| p_title := lit "t"; p_body := lit "b"; icon := None; url := None; tag := None |} demo_subs).

Lemma demo_pushed : fst demo_push = Ok 1 /\ map PushSubscription.id (push_subscriptions (data (snd demo_push))) = [1; 3; 4].
Proof. split; vm_compute; reflexivity. Qed.

Lemma send_push_witness : exists left, data (snd demo_push) = set_push_subscriptions left (data demo_subs)
  /\ demo_sub 3 1 "https://b" ∈ left.
Proof.
  destruct (send_push_spec (O := toy_env []) (PS := demo_services) (JT := {| json_parse _ := None; json_print _ := [] |}) None 2
    {| p_title := lit "t"; p_body := lit "b"; icon := None; url := None; tag := None |} demo_subs toy_env_reliable demo_subs_schema eq_refl)
    as (subs & rs & left & k & P & _ & _ & E & I).
  exists left. split; [rewrite E; reflexivity|]. apply I. split; [apply list_elem_of_In; cbn; tauto|].
  intros X. apply elem_of_zip_l in X. rewrite P in X. apply elem_select in X as [_ X]. discriminate X.
Defined.

Definition demo_inbox : World Server := snd (create_notification (O := toy_env []) 1 (demo_note 1) (snd demo_noted)).
Abbreviation demo_all_read := (mark_all_read (O := toy_env []) 1 demo_inbox).

Lemma demo_all_read_run : demo_all_read = (Ok 2, snd demo_all_read).
Proof. apply run_pair. vm_compute. reflexivity. Qed.

Lemma mark_all_read_witness : count_rows (unread 1) (notifications (data (snd demo_all_read))) = 0.
Proof.
  exact (proj1 (proj2 (mark_all_read_spec (O := toy_env []) 1 demo_inbox 2 (snd demo_all_read) demo_all_read_run))).
Defined.

Abbreviation demo_other := (run_op (O := toy_env []) (PS := demo_services) (JT := {| json_parse _ := None; json_print _ := [] |}) None 2
  (Create (demo_note 1)) demo_inbox).

Lemma inbox_kept_witness : inbox_grows 1 (data demo_inbox) (data (snd demo_other)).
Proof.
  exact (inbox_kept (O := toy_env []) (PS := demo_services) (JT := {| json_parse _ := None; json_print _ := [] |}) None 2
    (Create (demo_note 1)) 1 demo_inbox (fst demo_other) (snd demo_other) (surjective_pairing demo_other) ltac:(discriminate)).
Defined.
End Notify.
