(* ===== verification/Router.v ===== *)
(** * Router: the addresses of the gateway

    The routers of the services (lib.rs of every crate) and the application
    backend/crates/gateway/src/main.rs merges them into: which handler a method
    and a path reach, with which limit on the body, and which handlers can be
    reached without a token.  What a handler does is modelled in the file of its
    service and is a parameter here, and so are the CORS layer's own answers. *)

From S2P Require Import Prelude Text Effects Externals Schema Fs Token.

Module Router.
Import Token.

(** ** Handlers *)

(** One constructor for each handler that is mounted. *)
Inductive handler :=
| gateway_health_check | gateway_version_info | gateway_get_connectivity_diagnostics | gateway_get_cluster_status
| gateway_update_cluster_mode | gateway_rebalance_cluster | gateway_audit_licenses_quotas | gateway_export_cloud_data
| auth_register | auth_login | auth_refresh_token | auth_logout | auth_generate_recovery_phrase
| auth_verify_recovery_phrase | auth_setup_totp | auth_verify_totp_setup | auth_disable_totp | auth_mfa_status
| users_get_profile | users_update_profile | users_change_password | users_create_cloud | users_list_clouds
| users_list_members | users_invite_member | users_update_member_role | users_update_member_quota
| users_delete_member | users_list_users | users_update_role | users_update_quota | users_system_stats
| devices_register_device | devices_list_devices | devices_create_pairing | devices_claim_pairing
| devices_approve_pairing | devices_get_pairing_status | devices_redeem_pairing | devices_remove_device
| devices_heartbeat | files_create_folder | files_list_root | files_list_folder | files_rename_item
| files_delete_item | files_upload_file | files_upload_chunk | files_complete_chunked_upload | files_init_transfer
| files_write_chunk | files_get_status | files_finalize_transfer | files_get_file_meta | files_download_file
| files_preview_file | files_move_item | files_list_policies | files_create_policy | files_delete_policy
| files_evaluate_storage | files_list_trash | files_restore_from_trash | files_permanent_delete | files_empty_trash
| files_storage_stats | files_list_versions | files_restore_version | files_download_version | files_dispatch_root
| files_dispatch_path | files_list_buckets | files_list_objects | files_get_object | files_head_object
| files_put_object | files_delete_object | search_search | search_suggest | search_reindex | search_extract_text
| ai_auto_tag | ai_find_duplicates | ai_classify_file | ai_smart_search | ai_ai_status | shares_create_share
| shares_list_shares | shares_get_share | shares_update_share | shares_delete_share | shares_access_shared
| shares_download_shared | shares_upload_shared | sync_sync_websocket | sync_sync_status | sync_get_changes
| sync_resolve_conflict | sync_list_sync_folders | sync_add_sync_folder | sync_remove_sync_folder
| notices_list_notifications | notices_create_notification | notices_mark_read | notices_mark_all_read
| notices_unread_count | notices_push_subscribe | notices_push_unsubscribe | notices_push_list | notices_push_send
| jobs_list_jobs | jobs_job_stats | backups_list_backups | backups_create_backup | backups_get_backup
| backups_delete_backup | backups_restore_backup | backups_verify_backup | backups_enforce_retention
| backups_list_schedules | backups_create_schedule | backups_delete_schedule | analytics_overview
| analytics_storage_analytics | analytics_activity_timeline | analytics_file_type_breakdown
| analytics_prometheus_metrics | streaming_transcode | streaming_list_jobs | streaming_get_job | streaming_stream_url
| streaming_probe | streaming_generate_playback_token | streaming_play_with_token | streaming_update_progress
| streaming_get_progress | streaming_list_continue_watching.

(** Whether the handler has an [AuthUser] among its arguments. *)
Definition needs_user (h : handler) : bool :=
  match h with
  | gateway_health_check | gateway_version_info | gateway_get_connectivity_diagnostics | auth_register
  | auth_login | auth_refresh_token | auth_logout | auth_verify_recovery_phrase
  | devices_claim_pairing | devices_get_pairing_status | devices_redeem_pairing | shares_access_shared
  | shares_download_shared | shares_upload_shared | sync_sync_websocket | analytics_prometheus_metrics
  | streaming_play_with_token => false
  | _ => true
  end.

(** ** Patterns *)

(** A piece of a pattern: a text, a parameter [:name] of one piece of the path,
    or [*name], the rest of it. *)
Inductive piece := Static (s : rstr) | Param (name : rstr) | Rest (name : rstr).

Definition piece_of (s : rstr) : piece :=
  match s with
  | c :: name => if c =? chr ":" then Param name else if c =? chr "*" then Rest name else Static s
  | [] => Static []
  end.

Definition pieces (pattern : string) : list piece := map piece_of (split_char (chr "/") (lit pattern)).

(** A parameter is never empty. *)
Fixpoint match_path (p : list piece) (segments : list rstr) : option (list (rstr * rstr)) :=
  match p, segments with
  | [], [] => Some []
  | Static s :: p', x :: r => if bool_decide (s = x) then match_path p' r else None
  | Param n :: p', x :: r => if nonempty x then option_map (cons (n, x)) (match_path p' r) else None
  | [Rest n], _ => let rest := join [chr "/"] segments in if nonempty rest then Some [(n, rest)] else None
  | _, _ => None
  end.

(** Texts come before parameters, and these before the rest. *)
Fixpoint more_specific (p q : list piece) : bool :=
  match p, q with
  | Static _ :: p', Static _ :: q' | Param _ :: p', Param _ :: q' => more_specific p' q'
  | Static _ :: _, _ | Param _ :: _, Rest _ :: _ => true
  | _, _ => false
  end.

(** ** Routers *)

Definition MethodRouter : Type := list (string * handler).
Record Route := { pattern : string; methods : MethodRouter; body_limit : option Z }.
Definition Router : Type := list Route.

Definition GET (h : handler) : MethodRouter := [("GET"%string, h)].
Definition POST (h : handler) : MethodRouter := [("POST"%string, h)].
Definition PUT (h : handler) : MethodRouter := [("PUT"%string, h)].
Definition DELETE (h : handler) : MethodRouter := [("DELETE"%string, h)].
Definition HEAD (h : handler) : MethodRouter := [("HEAD"%string, h)].
Definition ANY (h : handler) : MethodRouter := [("*"%string, h)].

Definition route (p : string) (m : MethodRouter) : Route := {| pattern := p; methods := m; body_limit := None |}.

(** DefaultBodyLimit: the layer nearest to the handler decides. *)
Definition layer (n : Z) (r : Router) : Router :=
  map (fun x => {| pattern := pattern x; methods := methods x; body_limit := Some (default n (body_limit x)) |}) r.

Definition BODY_LIMIT : Z := 10 * 1024 * 1024 * 1024.

Definition gateway_router : Router :=
  [route "/health"%string (GET gateway_health_check);
   route "/api/v1/health"%string (GET gateway_health_check);
   route "/api/v1/version"%string (GET gateway_version_info);
   route "/api/v1/doctor/connectivity"%string (GET gateway_get_connectivity_diagnostics);
   route "/api/v1/cluster/status"%string (GET gateway_get_cluster_status);
   route "/api/v1/cluster/mode"%string (PUT gateway_update_cluster_mode);
   route "/api/v1/cluster/rebalance"%string (POST gateway_rebalance_cluster);
   route "/api/v1/admin/audit/licenses-quotas"%string (GET gateway_audit_licenses_quotas);
   route "/api/v1/admin/export"%string (GET gateway_export_cloud_data)].

Definition auth_router : Router :=
  [route "/api/v1/auth/register"%string (POST auth_register);
   route "/api/v1/auth/login"%string (POST auth_login);
   route "/api/v1/auth/refresh"%string (POST auth_refresh_token);
   route "/api/v1/auth/logout"%string (POST auth_logout);
   route "/api/v1/auth/recovery/generate"%string (POST auth_generate_recovery_phrase);
   route "/api/v1/auth/recovery/verify"%string (POST auth_verify_recovery_phrase);
   route "/api/v1/auth/mfa/setup"%string (POST auth_setup_totp);
   route "/api/v1/auth/mfa/verify"%string (POST auth_verify_totp_setup);
   route "/api/v1/auth/mfa/disable"%string (POST auth_disable_totp);
   route "/api/v1/auth/mfa/status"%string (GET auth_mfa_status)].

Definition users_router : Router :=
  [route "/api/v1/users/me"%string (GET users_get_profile ++ PUT users_update_profile);
   route "/api/v1/users/me/password"%string (PUT users_change_password);
   route "/api/v1/family/clouds"%string (POST users_create_cloud ++ GET users_list_clouds);
   route "/api/v1/family/members"%string (GET users_list_members);
   route "/api/v1/family/members/invite"%string (POST users_invite_member);
   route "/api/v1/family/members/:id/role"%string (PUT users_update_member_role);
   route "/api/v1/family/members/:id/quota"%string (PUT users_update_member_quota);
   route "/api/v1/family/members/:id"%string (DELETE users_delete_member);
   route "/api/v1/admin/users"%string (GET users_list_users);
   route "/api/v1/admin/users/role"%string (PUT users_update_role);
   route "/api/v1/admin/users/quota"%string (PUT users_update_quota);
   route "/api/v1/admin/system"%string (GET users_system_stats)].

Definition devices_router : Router :=
  [route "/api/v1/devices"%string (POST devices_register_device ++ GET devices_list_devices);
   route "/api/v1/devices/pair"%string (POST devices_create_pairing);
   route "/api/v1/devices/pair/claim"%string (POST devices_claim_pairing);
   route "/api/v1/devices/pair/approve"%string (POST devices_approve_pairing);
   route "/api/v1/devices/pair/status"%string (GET devices_get_pairing_status);
   route "/api/v1/devices/pair/redeem"%string (POST devices_redeem_pairing);
   route "/api/v1/devices/:id"%string (DELETE devices_remove_device);
   route "/api/v1/devices/:id/heartbeat"%string (PUT devices_heartbeat)].

Definition files_router : Router :=
  layer BODY_LIMIT
  [route "/api/v1/folders"%string (POST files_create_folder ++ GET files_list_root);
   route "/api/v1/folders/:id"%string (GET files_list_folder ++ PUT files_rename_item ++ DELETE files_delete_item);
   route "/api/v1/files/upload"%string (POST files_upload_file);
   route "/api/v1/files/upload/chunk"%string (POST files_upload_chunk);
   route "/api/v1/files/upload/complete"%string (POST files_complete_chunked_upload);
   route "/api/v1/transfers/resumable/init"%string (POST files_init_transfer);
   route "/api/v1/transfers/resumable/:id/chunk"%string (POST files_write_chunk);
   route "/api/v1/transfers/resumable/:id/status"%string (GET files_get_status);
   route "/api/v1/transfers/resumable/:id/finalize"%string (POST files_finalize_transfer);
   route "/api/v1/files/:id"%string (GET files_get_file_meta ++ PUT files_rename_item ++ DELETE files_delete_item);
   route "/api/v1/files/:id/download"%string (GET files_download_file);
   route "/api/v1/files/:id/preview"%string (GET files_preview_file);
   route "/api/v1/files/:id/move"%string (PUT files_move_item);
   route "/api/v1/storage/policies"%string (GET files_list_policies ++ POST files_create_policy);
   route "/api/v1/storage/policies/:id"%string (DELETE files_delete_policy);
   route "/api/v1/storage/evaluate"%string (POST files_evaluate_storage);
   route "/api/v1/trash"%string (GET files_list_trash);
   route "/api/v1/trash/:id/restore"%string (POST files_restore_from_trash);
   route "/api/v1/trash/:id"%string (DELETE files_permanent_delete);
   route "/api/v1/trash/empty"%string (POST files_empty_trash);
   route "/api/v1/storage/stats"%string (GET files_storage_stats);
   route "/api/v1/files/:id/versions"%string (GET files_list_versions);
   route "/api/v1/files/:file_id/versions/:version_id/restore"%string (POST files_restore_version);
   route "/api/v1/files/:file_id/versions/:version_id/download"%string (GET files_download_version)]
  ++ [route "/webdav"%string (ANY files_dispatch_root);
   route "/webdav/*path"%string (ANY files_dispatch_path);
   route "/s3"%string (GET files_list_buckets);
   route "/s3/pcos-files"%string (GET files_list_objects);
   route "/s3/pcos-files/*key"%string (GET files_get_object ++ HEAD files_head_object ++ PUT files_put_object ++ DELETE files_delete_object)].

Definition search_router : Router :=
  [route "/api/v1/search"%string (GET search_search);
   route "/api/v1/search/suggest"%string (GET search_suggest);
   route "/api/v1/search/reindex"%string (POST search_reindex);
   route "/api/v1/search/extract/:id"%string (POST search_extract_text)].

Definition ai_router : Router :=
  [route "/api/v1/ai/tag"%string (POST ai_auto_tag);
   route "/api/v1/ai/duplicates"%string (GET ai_find_duplicates);
   route "/api/v1/ai/classify"%string (POST ai_classify_file);
   route "/api/v1/ai/smart-search"%string (GET ai_smart_search);
   route "/api/v1/ai/status"%string (GET ai_ai_status)].

Definition shares_router : Router :=
  [route "/api/v1/shares"%string (POST shares_create_share ++ GET shares_list_shares);
   route "/api/v1/shares/:id"%string (GET shares_get_share ++ PUT shares_update_share ++ DELETE shares_delete_share);
   route "/api/v1/shared/:token"%string (GET shares_access_shared);
   route "/api/v1/shared/:token/download"%string (GET shares_download_shared);
   route "/api/v1/shared/:token/upload"%string (POST shares_upload_shared)].

Definition sync_router : Router :=
  [route "/api/v1/sync/ws"%string (GET sync_sync_websocket);
   route "/api/v1/sync/status"%string (GET sync_sync_status);
   route "/api/v1/sync/changes"%string (GET sync_get_changes);
   route "/api/v1/sync/resolve"%string (POST sync_resolve_conflict);
   route "/api/v1/sync/folders"%string (GET sync_list_sync_folders ++ POST sync_add_sync_folder);
   route "/api/v1/sync/folders/:id"%string (DELETE sync_remove_sync_folder)].

Definition notices_router : Router :=
  [route "/api/v1/notifications"%string (GET notices_list_notifications ++ POST notices_create_notification);
   route "/api/v1/notifications/:id/read"%string (PUT notices_mark_read);
   route "/api/v1/notifications/read-all"%string (POST notices_mark_all_read);
   route "/api/v1/notifications/unread-count"%string (GET notices_unread_count);
   route "/api/v1/push/subscribe"%string (POST notices_push_subscribe);
   route "/api/v1/push/unsubscribe"%string (POST notices_push_unsubscribe);
   route "/api/v1/push/subscriptions"%string (GET notices_push_list);
   route "/api/v1/push/send"%string (POST notices_push_send)].

Definition jobs_router : Router :=
  [route "/api/v1/jobs"%string (GET jobs_list_jobs);
   route "/api/v1/jobs/stats"%string (GET jobs_job_stats)].

Definition backups_router : Router :=
  [route "/api/v1/backups"%string (GET backups_list_backups ++ POST backups_create_backup);
   route "/api/v1/backups/:id"%string (GET backups_get_backup ++ DELETE backups_delete_backup);
   route "/api/v1/backups/:id/restore"%string (POST backups_restore_backup);
   route "/api/v1/backups/:id/verify"%string (GET backups_verify_backup);
   route "/api/v1/backups/retention"%string (POST backups_enforce_retention);
   route "/api/v1/backups/schedules"%string (GET backups_list_schedules ++ POST backups_create_schedule);
   route "/api/v1/backups/schedules/:id"%string (DELETE backups_delete_schedule)].

Definition analytics_router : Router :=
  [route "/api/v1/analytics/overview"%string (GET analytics_overview);
   route "/api/v1/analytics/storage"%string (GET analytics_storage_analytics);
   route "/api/v1/analytics/activity"%string (GET analytics_activity_timeline);
   route "/api/v1/analytics/file-types"%string (GET analytics_file_type_breakdown);
   route "/api/v1/admin/metrics"%string (GET analytics_prometheus_metrics)].

Definition streaming_router : Router :=
  [route "/api/v1/streaming/transcode"%string (POST streaming_transcode);
   route "/api/v1/streaming/jobs"%string (GET streaming_list_jobs);
   route "/api/v1/streaming/jobs/:id"%string (GET streaming_get_job);
   route "/api/v1/streaming/stream/:id"%string (GET streaming_stream_url);
   route "/api/v1/streaming/probe/:file_id"%string (POST streaming_probe);
   route "/api/v1/streaming/token/:file_id"%string (POST streaming_generate_playback_token);
   route "/api/v1/streaming/play/:token"%string (GET streaming_play_with_token);
   route "/api/v1/streaming/progress/:file_id"%string (POST streaming_update_progress ++ GET streaming_get_progress);
   route "/api/v1/streaming/resume"%string (GET streaming_list_continue_watching);
   route "/api/v1/media/history"%string (GET streaming_list_continue_watching);
   route "/api/v1/media/probe/:file_id"%string (POST streaming_probe ++ GET streaming_probe)].

(** [(config.storage.max_upload_size_mb * 1024 * 1024) as usize], in a release. *)
Definition upload_limit (max_upload_size_mb : Z) : Z := wrap_u64 (max_upload_size_mb * 1024 * 1024).

Definition app (max_upload_size_mb : Z) : Router :=
  layer (upload_limit max_upload_size_mb)
    (gateway_router ++ auth_router ++ users_router ++ devices_router ++ files_router ++ search_router ++ ai_router
     ++ shares_router ++ sync_router ++ notices_router ++ jobs_router ++ backups_router ++ analytics_router
     ++ streaming_router).

(** ** Dispatch *)

Definition find_route (path : rstr) (r : Router) : option (Route * list (rstr * rstr)) :=
  let segments := split_char (chr "/") path in
  foldr (fun x best =>
    match match_path (pieces (pattern x)) segments with
    | None => best
    | Some vs =>
        match best with
        | Some (y, _) => if more_specific (pieces (pattern y)) (pieces (pattern x)) then best else Some (x, vs)
        | None => Some (x, vs)
        end
    end) None r.

Definition method_handler (k : string) (m : MethodRouter) : option handler :=
  option_map snd (List.find (fun kh => String.eqb k (fst kh)) m).

(** A GET handler serves HEAD too when there is no other. *)
Definition handler_for (method : rstr) (m : MethodRouter) : option handler :=
  let found := List.find (fun kh => bool_decide (lit (fst kh) = method)) m in
  match found with
  | Some kh => Some (snd kh)
  | None =>
      match (if bool_decide (method = lit "HEAD") then method_handler "GET" m else None) with
      | Some h => Some h
      | None => method_handler "*" m
      end
  end.

Inductive Dispatched :=
| NotFound
| MethodNotAllowed
| Reached (x : Route) (h : handler) (params : list (rstr * rstr)).

Definition dispatch (r : Router) (method path : rstr) : Dispatched :=
  match find_route path r with
  | None => NotFound
  | Some (x, vs) => match handler_for method (methods x) with Some h => Reached x h vs | None => MethodNotAllowed end
  end.

(** ** Cross-origin requests *)

Record CorsPolicy := {
  any_origin : bool; origins : list rstr; allowed_methods : list string; any_header : bool; credentials : bool; max_age : Z }.

Section Cors.
Context {HV : HttpValues}.
(** Whether tower-http refuses to build a layer of this policy: it panics. *)
Context (unusable : CorsPolicy -> bool).

Definition VERBS : list string := ["GET"; "POST"; "PUT"; "DELETE"; "PATCH"]%string.

(** [env] is PCOS_CORS_ORIGINS. *)
Definition build_cors_layer (env : option rstr) : CorsPolicy :=
  let o := default [] env in
  if negb (nonempty o) || bool_decide (o = lit "*")
  then {| any_origin := true; origins := []; allowed_methods := VERBS; any_header := true; credentials := false; max_age := 3600 |}
  else {| any_origin := false; origins := List.filter header_ok (map trim (split_char (chr ",") o)); allowed_methods := VERBS;
          any_header := true; credentials := true; max_age := 3600 |}.

(** [.layer(cors)] of main. *)
Definition cors_layer (env : option rstr) : outcome CorsPolicy :=
  let p := build_cors_layer env in if unusable p then Panic else Ok p.
End Cors.

(** ** A request *)

Section Serve.
Context {O : Oracle} {JW : JsonWebToken}.
(** The headers besides Authorization, the query and the body of a request; and
    an answer. *)
Context {Q R : Type}.

Record Request := { method : rstr; path : rstr; authorization : option rstr; others : Q }.

(** What the CORS layer answers by itself; what the arguments before [AuthUser]
    refuse; an answer without a body; and the handlers, given the claims of the
    user, the limit on the body and the parameters of the path. *)
Context (config : AuthConfig) (cors_answers : Request -> option R)
  (refused_early : handler -> list (rstr * rstr) -> Request -> option R) (plain : Z -> R)
  (run : handler -> option Claims -> option Z -> list (rstr * rstr) -> Request -> M Server R).

Definition handle (h : handler) (x : Route) (params : list (rstr * rstr)) (req : Request) : M Server R :=
  if needs_user h then
    match refused_early h params req with
    | Some r => mret r
    | None =>
        claims ← from_request_parts (authorization req) config;
        run h (Some claims) (body_limit x) params req
    end
  else run h None (body_limit x) params req.

Definition serve (max_upload_size_mb : Z) (req : Request) : M Server R :=
  match cors_answers req with
  | Some r => mret r
  | None =>
      match dispatch (app max_upload_size_mb) (method req) (path req) with
      | NotFound => mret (plain 404)
      | MethodNotAllowed => mret (plain 405)
      | Reached x h params => handle h x params req
      end
  end.
End Serve.
Arguments Request : clear implicits.

(** ** What can be reached without a token *)

(** An address by its method and its pattern. *)
Definition addressed (e : string * string) (m p : rstr) : Prop :=
  (lit (fst e) = m \/ fst e = "GET"%string /\ m = lit "HEAD")
  /\ is_Some (match_path (pieces (snd e)) (split_char (chr "/") p)).

Definition OPEN : list (string * string) :=
  [("GET", "/health"); ("GET", "/api/v1/health"); ("GET", "/api/v1/version"); ("GET", "/api/v1/doctor/connectivity");
   ("POST", "/api/v1/auth/register"); ("POST", "/api/v1/auth/login"); ("POST", "/api/v1/auth/refresh");
   ("POST", "/api/v1/auth/logout"); ("POST", "/api/v1/auth/recovery/verify");
   ("POST", "/api/v1/devices/pair/claim"); ("GET", "/api/v1/devices/pair/status"); ("POST", "/api/v1/devices/pair/redeem");
   ("GET", "/api/v1/shared/:token"); ("GET", "/api/v1/shared/:token/download"); ("POST", "/api/v1/shared/:token/upload");
   ("GET", "/api/v1/sync/ws"); ("GET", "/api/v1/streaming/play/:token"); ("GET", "/api/v1/admin/metrics")]%string.

Lemma find_route_Some p r x vs : find_route p r = Some (x, vs) ->
  x ∈ r /\ match_path (pieces (pattern x)) (split_char (chr "/") p) = Some vs.
Proof.
  unfold find_route. induction r as [|y r IH]; cbn [foldr]; [done|]. intros H.
  destruct (match_path (pieces (pattern y)) _) as [ws|] eqn:E; [|destruct (IH H); set_solver].
  destruct (foldr _ _ r) as [[z zs]|] eqn:F; [destruct (more_specific _ _)|]; simplify_eq; [destruct (IH eq_refl)|..]; set_solver.
Qed.

Lemma handler_for_Some m l h : handler_for m l = Some h ->
  exists k, (k, h) ∈ l /\ (lit k = m \/ k = "GET"%string /\ m = lit "HEAD" \/ k = "*"%string).
Proof.
  unfold handler_for, method_handler. intros H.
  destruct (List.find _ l) as [[k h']|] eqn:E; [|destruct (bool_decide (m = lit "HEAD")) eqn:D].
  - apply find_some in E as [I E]. injection H as <-. apply bool_decide_eq_true_1 in E. exists k. split; [by apply list_elem_of_In|by left].
  - destruct (List.find (fun kh => String.eqb "GET" (fst kh)) l) as [[k h']|] eqn:E1; cbn [option_map snd] in H.
    + apply find_some in E1 as [I E1]. injection H as <-. apply String.eqb_eq in E1. cbn in E1. subst k.
      apply bool_decide_eq_true_1 in D. exists "GET"%string. split; [by apply list_elem_of_In|naive_solver].
    + destruct (List.find (fun kh => String.eqb "*" (fst kh)) l) as [[k h']|] eqn:E2; cbn [option_map] in H; [|done].
      apply find_some in E2 as [I E2]. injection H as <-. apply String.eqb_eq in E2. cbn in E2. subst k.
      exists "*"%string. split; [by apply list_elem_of_In|naive_solver].
  - destruct (List.find (fun kh => String.eqb "*" (fst kh)) l) as [[k h']|] eqn:E2; cbn [option_map] in H; [|done].
    apply find_some in E2 as [I E2]. injection H as <-. apply String.eqb_eq in E2. cbn in E2. subst k.
    exists "*"%string. split; [by apply list_elem_of_In|naive_solver].
Qed.

(** Every mounted handler that needs no user is among the open addresses. *)
Definition open_entry (x : Route) (kh : string * handler) : bool :=
  needs_user (snd kh) || existsb (fun e => String.eqb (fst e) (fst kh) && String.eqb (snd e) (pattern x)) OPEN.

Lemma open_table n : forallb (fun x => forallb (open_entry x) (methods x)) (app n) = true.
Proof. vm_compute. reflexivity. Qed.

Lemma reached_open n m p x h vs : dispatch (app n) m p = Reached x h vs -> needs_user h = false -> exists e, e ∈ OPEN /\ addressed e m p.
Proof.
  unfold dispatch. intros H N. destruct (find_route p (app n)) as [[y ws]|] eqn:F; [|done].
  destruct (handler_for m (methods y)) as [h'|] eqn:G; [|done]. injection H as -> -> ->.
  apply find_route_Some in F as [I F]. apply handler_for_Some in G as (k & Ik & K).
  pose proof (open_table n) as T. rewrite forallb_forall in T. apply list_elem_of_In, T in I. rewrite forallb_forall in I.
  apply list_elem_of_In, I in Ik. unfold open_entry in Ik. cbn [fst snd] in Ik. rewrite N in Ik. cbn [orb] in Ik.
  apply existsb_exists in Ik as ([a b] & J & E). apply andb_true_iff in E as [E1 E2]. apply String.eqb_eq in E1, E2. cbn in E1, E2. subst a b.
  exists (k, pattern x). split; [by apply list_elem_of_In|]. split; [|unfold addressed; cbn [fst snd]; by rewrite F].
  destruct K as [K|[K| ->]]; [by left|by right|]. exfalso. revert J. unfold OPEN. cbn. intros J. 
  repeat (destruct J as [J|J]; [discriminate J|]). done.
Qed.

Section Gate.
Context {O : Oracle} {JW : JsonWebToken} {Q R : Type}.
Context (config : AuthConfig) (cors_answers : Request Q -> option R)
  (refused_early : handler -> list (rstr * rstr) -> Request Q -> option R) (plain : Z -> R)
  (run : handler -> option Claims -> option Z -> list (rstr * rstr) -> Request Q -> M Server R).

Notation serve := (serve config cors_answers refused_early plain run).

(** C3: the gate.  A request that shows no valid token changes nothing and is
    answered without the code of a handler, by the CORS layer, by 404 or 405, by
    what refuses its other arguments, or by an error, unless its method and path
    are at one of the eighteen open addresses. *)
Theorem gate_closed mb req w o w' :
  (forall (v v' : World Server) c, from_request_parts (authorization req) config v <> (Ok c, v')) ->
  serve mb req w = (o, w') ->
  (exists e, e ∈ OPEN /\ addressed e (method req) (path req))
  \/ data w' = data w
     /\ forall r, o = Ok r -> cors_answers req = Some r \/ r = plain 404 \/ r = plain 405
                              \/ exists h vs, refused_early h vs req = Some r.
Proof.
  intros N H. unfold Router.serve in H. destruct (cors_answers req) as [r|] eqn:C.
  { injection H as <- <-. right. split; [done|]. intros r' [= <-]. by left. }
  destruct (dispatch _ _ _) as [| |x h vs] eqn:D.
  1, 2: injection H as <- <-; right; split; [done|]; intros r' [= <-]; auto.
  unfold handle in H. destruct (needs_user h) eqn:U; [right|left; by eapply reached_open].
  destruct (refused_early h vs req) as [r|] eqn:E.
  { injection H as <- <-. split; [done|]. intros r' [= <-]. do 3 right. eauto. }
  unfold mbind, M_bind in H. destruct (from_request_parts (authorization req) config w) as [out w1] eqn:F.
  pose proof (claims_still _ _ w out w1 F) as S. destruct out as [c|e| |]; [by apply N in F|injection H as <- <-; done..].
Qed.
End Gate.

(** ** What is mounted is reached *)

(** A path of which only the texts of a pattern are known: [None] stands for a
    piece that is none of the texts of any pattern, and an open path goes on
    with one or more pieces that are not all empty. *)
Fixpoint fits (p : list piece) (s : list (option rstr)) (open : bool) : option bool :=
  match p, s with
  | [], [] => Some (negb open)
  | [], _ :: _ => Some false
  | Static a :: p', Some b :: s' => if bool_decide (a = b) then fits p' s' open else Some false
  | Static _ :: _, None :: _ => Some false
  | Param _ :: p', Some b :: s' => if nonempty b then fits p' s' open else Some false
  | Param _ :: p', None :: s' => fits p' s' open
  | [Rest _], [] => Some open
  | [Rest _], [Some b] => Some (nonempty b || open)
  | [Rest _], _ => Some true
  | Rest _ :: _ :: _, _ => Some false
  | _, [] => if open then None else Some false
  end.

(** The path itself. *)
Fixpoint filled (s : list (option rstr)) (vs : list rstr) : list rstr :=
  match s, vs with
  | Some b :: s', _ => b :: filled s' vs
  | None :: s', v :: vs' => v :: filled s' vs'
  | _, _ => []
  end.

Definition statics (p : list piece) : list rstr :=
  flat_map (fun x => match x with Static a => [a] | _ => [] end) p.

Definition blanks (s : list (option rstr)) : nat := length (List.filter (fun x => match x with None => true | Some _ => false end) s).

Lemma join_nonempty (l : list rstr) : (2 <= length l)%nat -> nonempty (join [chr "/"] l) = true.
Proof.
  destruct l as [|x [|y l]]; cbn [length]; [lia..|]. intros _. cbn [join]. destruct x; done.
Qed.

Lemma rest_match n (l : list rstr) : is_Some (match_path [Rest n] l) <-> nonempty (join [chr "/"] l) = true.
Proof. destruct l as [|x l]; cbn [match_path]; destruct (nonempty _); split; try done; try (by intros [? H]); eauto. Qed.

Lemma join_app_nonempty (x : rstr) (l : list rstr) : nonempty x = true \/ l <> [] -> nonempty (join [chr "/"] (x :: l)) = true.
Proof.
  intros H. destruct l as [|y l]; [destruct H; [by destruct x|done]|]. apply join_nonempty. cbn. lia.
Qed.

Lemma fits_match p s open vs tail b :
  fits p s open = Some b -> length vs = blanks s ->
  Forall (fun v => nonempty v = true /\ v ∉ statics p) vs ->
  (if open then tail <> [] /\ nonempty (join [chr "/"] tail) = true else tail = []) ->
  (is_Some (match_path p (filled s vs ++ tail)) <-> b = true).
Proof.
  assert (S1 : forall (x : rstr * rstr) o, is_Some (option_map (cons x) o) <-> is_Some o).
  { intros x [o|]; cbn; split; intros [? H]; try done; eauto. }
  revert s vs. induction p as [|x p IH]; intros s vs F L V T.
  { assert (N : is_Some (match_path [] (filled s vs ++ tail)) <-> filled s vs ++ tail = []).
    { destruct (filled s vs ++ tail); cbn; split; intros H; try done; by destruct H. }
    rewrite N. clear N. destruct s as [|y s]; cbn in F; injection F as <-.
    - cbn. destruct open; cbn; [destruct T as [T _]; by destruct tail|by subst tail].
    - destruct y; [done|]. destruct vs; [done|]. done. }
  destruct s as [|[y|] s].
  - destruct vs as [|]; [|done]. cbn [filled]; try rewrite <- app_comm_cons. destruct x as [a|n|n]; [destruct open; [done|]..|].
    1, 2: injection F as <-; subst tail; cbn; split; [by intros [? ?]|done].
    destruct p; [|cbn in F; injection F as <-; destruct tail; cbn; split; try done; by intros [? ?]].
    injection F as <-. rewrite rest_match.
    cbn [app]. destruct open; [by split; [|intros _; apply T]|by subst tail].
  - cbn [filled]; try rewrite <- app_comm_cons. destruct x as [a|n|n]; cbn [fits] in F.
    + cbn [match_path]. destruct (bool_decide (a = y)); [|injection F as <-; split; [by intros [? ?]|done]].
      apply IH; [done|done| |done]. eapply Forall_impl; [exact V|]. intros v [? H]. split; [done|]. cbn in H. set_solver.
    + cbn [match_path]. destruct (nonempty y); [|injection F as <-; split; [by intros [? ?]|done]].
      rewrite S1. by apply IH.
    + destruct p; [|destruct s as [|[]]; injection F as <-; cbn; split; try done; by intros [? ?]].
      rewrite rest_match. destruct s as [|z s]; injection F as <-.
      * cbn [filled]; try rewrite <- app_comm_cons. destruct vs; [|done]. cbn [app]. destruct open; [rewrite orb_true_r|subst tail; by rewrite orb_false_r].
        split; [done|]. intros _. apply join_app_nonempty. right. apply T.
      * split; [done|]. intros _. apply join_app_nonempty. right. destruct z; [done|]. by destruct vs.
  - destruct vs as [|v vs]; [done|]. injection L as L. apply Forall_cons in V as [[Nv Sv] V]. cbn [filled]; try rewrite <- app_comm_cons.
    destruct x as [a|n|n]; cbn [fits] in F.
    + injection F as <-. cbn [match_path]. rewrite bool_decide_false by (cbn in Sv; set_solver). split; [by intros [? ?]|done].
    + cbn [match_path]. rewrite Nv, S1. by apply IH.
    + destruct p; [|destruct s as [|[]]; injection F as <-; cbn; split; try done; by intros [? ?]].
      assert (b = true) as -> by (destruct s as [|[]]; by injection F as <-).
      rewrite rest_match. split; [done|]. intros _. apply join_app_nonempty. by left.
Qed.

Section Addresses.
(** The texts of all the patterns. *)
Context (texts : list rstr).

(** Values for the parameters of a pattern: a piece that no pattern has as a
    text, and for a rest any text. *)
Fixpoint fills (p : list piece) (vs : list rstr) : Prop :=
  match p, vs with
  | [], [] => True
  | Static _ :: p', _ => fills p' vs
  | Param _ :: p', v :: vs' => nonempty v = true /\ chr "/" ∉ v /\ v ∉ texts /\ fills p' vs'
  | [Rest _], [v] => nonempty v = true
  | _, _ => False
  end.

Fixpoint address_pieces (p : list piece) (vs : list rstr) : list rstr :=
  match p, vs with
  | Static a :: p', _ => a :: address_pieces p' vs
  | (Param _ | Rest _) :: p', v :: vs' => v :: address_pieces p' vs'
  | _, _ => []
  end.

(** The path of a pattern with these values. *)
Definition address (p : list piece) (vs : list rstr) : rstr := join [chr "/"] (address_pieces p vs).

Definition names (p : list piece) : list rstr :=
  flat_map (fun x => match x with Static _ => [] | Param n | Rest n => [n] end) p.

Fixpoint shape (p : list piece) : list (option rstr) * bool :=
  match p with
  | [] => ([], false)
  | Static a :: p' => let '(s, o) := shape p' in (Some a :: s, o)
  | Param _ :: p' => let '(s, o) := shape p' in (None :: s, o)
  | Rest _ :: _ => ([], true)
  end.

Fixpoint known (p : list piece) (vs : list rstr) : list rstr :=
  match p, vs with
  | Static _ :: p', _ => known p' vs
  | Param _ :: p', v :: vs' => v :: known p' vs'
  | _, _ => []
  end.

Fixpoint rest_of (p : list piece) (vs : list rstr) : list rstr :=
  match p, vs with
  | Static _ :: p', _ => rest_of p' vs
  | Param _ :: p', _ :: vs' => rest_of p' vs'
  | Rest _ :: _, v :: _ => split_char (chr "/") v
  | _, _ => []
  end.

Definition segments (p : list piece) (vs : list rstr) : list rstr := filled (fst (shape p)) (known p vs) ++ rest_of p vs.

Lemma segments_static a p vs : segments (Static a :: p) vs = a :: segments p vs.
Proof. unfold segments. cbn [shape known rest_of]. destruct (shape p). reflexivity. Qed.
Lemma segments_param n p v vs : segments (Param n :: p) (v :: vs) = v :: segments p vs.
Proof. unfold segments. cbn [shape known rest_of]. destruct (shape p). reflexivity. Qed.

(** A path is split into the pieces it was made of. *)
Lemma split_address p vs : (forall a, Static a ∈ p -> chr "/" ∉ a) -> p <> [] -> fills p vs ->
  split_char (chr "/") (address p vs) = segments p vs.
Proof.
  unfold address. revert vs. induction p as [|x p IH]; intros vs St N F; [done|].
  assert (St' : forall a, Static a ∈ p -> chr "/" ∉ a) by (intros a Ha; apply St; by right).
  assert (Cons : forall v ws, chr "/" ∉ v -> fills p ws ->
            split_char (chr "/") (join [chr "/"] (v :: address_pieces p ws)) = v :: segments p ws).
  { intros v ws Nv Fw. destruct p as [|y p].
    - destruct ws; [|done]. cbn. by apply split_char_last.
    - destruct (address_pieces (y :: p) ws) as [|z zs] eqn:E.
      { exfalso. destruct y as [|?|?], ws; cbn in E, Fw; try done. by destruct p. }
      change (join [chr "/"] (v :: z :: zs)) with (v ++ chr "/" :: join [chr "/"] (z :: zs)).
      rewrite <- E. rewrite split_char_app by done. f_equal. apply IH; [done|done|done]. }
  destruct x as [a|n|n].
  - rewrite segments_static. cbn [address_pieces]. apply Cons; [apply St; by left|done].
  - destruct vs as [|v vs]; [done|]. destruct F as (_ & Nv & _ & F). rewrite segments_param. cbn [address_pieces]. by apply Cons.
  - destruct p; [|by destruct vs]. destruct vs as [|v [|]]; done.
Qed.

(** A pattern matches its own paths, with the values for its parameters. *)
Lemma match_segments p vs : fills p vs -> match_path p (segments p vs) = Some (combine (names p) vs).
Proof.
  revert vs. induction p as [|x p IH]; intros vs F.
  - destruct vs; [done|done].
  - destruct x as [a|n|n].
    + rewrite segments_static. cbn [match_path]. rewrite bool_decide_true by done. by apply IH.
    + destruct vs as [|v vs]; [done|]. destruct F as (Nv & _ & _ & F). rewrite segments_param. cbn [match_path]. rewrite Nv, IH by done. done.
    + destruct p; [|by destruct vs]. destruct vs as [|v [|]]; [done| |done]. cbn in F.
      change (segments [Rest n] [v]) with (split_char (chr "/") v).
      assert (E : forall l, match_path [Rest n] l = let rest := join [chr "/"] l in if nonempty rest then Some [(n, rest)] else None)
        by (by intros []).
      rewrite E, join_split. cbv zeta. by rewrite F.
Qed.

Lemma known_fills p vs : fills p vs ->
  length (known p vs) = blanks (fst (shape p)) /\ Forall (fun v => nonempty v = true /\ v ∉ texts) (known p vs)
  /\ if snd (shape p) then rest_of p vs <> [] /\ nonempty (join [chr "/"] (rest_of p vs)) = true else rest_of p vs = [].
Proof.
  revert vs. induction p as [|x p IH]; intros vs F.
  - destruct vs; [by split_and!|done].
  - destruct x as [a|n|n].
    + cbn in F. destruct (IH vs F) as (L & V & T). cbn [known shape rest_of]. by destruct (shape p).
    + destruct vs as [|v vs]; [done|]. destruct F as (Nv & _ & Tv & F). destruct (IH vs F) as (L & V & T).
      cbn [known shape rest_of]. destruct (shape p). cbn in *. split_and!; [unfold blanks in *; cbn; lia|by constructor|done].
    + destruct p; [|by destruct vs]. destruct vs as [|v [|]]; [done| |done]. cbn in F. cbn. split_and!; [done|done|apply split_char_not_nil|].
      by rewrite join_split.
Qed.
End Addresses.

Definition TEXTS : list rstr := flat_map (fun p => statics (pieces p)) (map pattern (app 0)).

(** The route such a path finds, when what is known of it is enough. *)
Definition finds (s : list (option rstr)) (open : bool) (r : Router) : option (option Route) :=
  foldr (fun (x : Route) (best : option (option Route)) =>
    match best, fits (pieces (pattern x)) s open with
    | Some b, Some true =>
        Some (match b with
              | Some y => if more_specific (pieces (pattern y)) (pieces (pattern x)) then b else Some x
              | None => Some x
              end)
    | Some b, Some false => best
    | _, _ => None
    end) (Some None) r.

Lemma finds_route p s (open : bool) vs tail r best :
  split_char (chr "/") p = filled s vs ++ tail -> length vs = blanks s ->
  (forall x, x ∈ r -> Forall (fun v => nonempty v = true /\ v ∉ statics (pieces (pattern x))) vs) ->
  (if open then tail <> [] /\ nonempty (join [chr "/"] tail) = true else tail = []) ->
  finds s open r = Some best -> option_map fst (find_route p r) = best.
Proof.
  intros P L V T. revert best. unfold finds, find_route. rewrite P. induction r as [|x r IH]; intros best H; cbn [foldr] in *; [by injection H as <-|].
  destruct (foldr _ (Some None) r) as [b|]; [|done]. destruct (fits _ s open) as [f|] eqn:F; [|by destruct b].
  specialize (IH (fun y Hy => V y (list_elem_of_further _ _ _ Hy)) b eq_refl).
  pose proof (fits_match _ _ _ _ _ _ F L (V x (list_elem_of_here _ _)) T) as E.
  destruct f; injection H as <-.
  - destruct (match_path _ _) as [ws|]; [|by destruct E as [_ [? ?]]]. destruct (foldr _ None r) as [[y ys]|]; cbn in IH; subst b; [|done].
    by destruct (more_specific _ _).
  - destruct (match_path _ _); [|done]. by destruct E as [E _]; specialize (E ltac:(by eexists)).
Qed.

Definition found (n : Z) (x : Route) : bool :=
  let '(s, o) := shape (pieces (pattern x)) in
  match finds s o (app n) with Some (Some y) => String.eqb (pattern y) (pattern x) | _ => false end.

Lemma all_found n : forallb (found n) (app n) = true.
Proof. vm_compute. reflexivity. Qed.

Definition method_free (l : MethodRouter) : bool :=
  bool_decide (base.NoDup (map fst l)) && (negb (existsb (String.eqb "*") (map fst l)) || (length l =? 1)%nat).

Lemma table_checked n :
  bool_decide (base.NoDup (map (fun x => shape (pieces (pattern x))) (app n))) && forallb (fun x => method_free (methods x)) (app n) = true.
Proof. vm_compute. reflexivity. Qed.

Lemma patterns_apart n x y : x ∈ app n -> y ∈ app n -> pattern x = pattern y -> x = y.
Proof.
  intros Hx Hy E. pose proof (table_checked n) as T. apply andb_true_iff in T as [T _]. apply bool_decide_eq_true_1 in T.
  apply list_elem_of_lookup in Hx as [i Hi], Hy as [j Hj].
  assert (i = j) as <-.
  { eapply (NoDup_lookup _ i j (shape (pieces (pattern x)))); [exact T|by rewrite list_lookup_fmap, Hi|].
    rewrite list_lookup_fmap, Hj. cbn. by rewrite E. }
  congruence.
Qed.

Lemma lit_inj a b : lit a = lit b -> a = b.
Proof.
  revert b. induction a as [|c a IH]; intros [|d b] H; [done|done|done|]. cbn in H. injection H as H1 H2.
  apply (inj Z.of_N) in H1. rewrite <- (ascii_N_embedding c), <- (ascii_N_embedding d), H1. f_equal. by apply IH.
Qed.

Lemma method_unique (l : MethodRouter) k h m : method_free l = true -> (k, h) ∈ l -> lit k = m \/ k = "*"%string -> handler_for m l = Some h.
Proof.
  unfold method_free. intros F I K. apply andb_true_iff in F as [N F]. apply bool_decide_eq_true_1 in N.
  destruct (String.eqb_spec k "*") as [->|Nk].
  - apply orb_true_iff in F as [F|F].
    { exfalso. apply negb_true_iff in F. apply not_true_iff_false in F. apply F, existsb_exists. exists "*"%string.
      split; [|done]. apply (in_map fst _ _ (proj1 (list_elem_of_In _ _) I)). }
    apply Nat.eqb_eq in F. destruct l as [|e [|]]; [done| |done]. apply list_elem_of_singleton in I. subst e.
    unfold handler_for, method_handler. cbn [List.find fst]. destruct (bool_decide (lit "*" = m)); [done|]. by destruct (bool_decide _).
  - destruct K as [<-|]; [|done]. unfold handler_for. assert (List.find (fun kh => bool_decide (lit (fst kh) = lit k)) l = Some (k, h)) as ->.
    2: { done. }
    clear F Nk. induction l as [|[k' h'] l IH]; [by apply not_elem_of_nil in I|]. cbn [List.find fst].
    cbn in N. apply NoDup_cons in N as [N0 N]. destruct (bool_decide_reflect (lit k' = lit k)) as [E|E].
    + apply lit_inj in E. subst k'. apply elem_of_cons in I as [[= ->]|I]; [done|]. exfalso. apply N0, list_elem_of_fmap. by exists (k, h).
    + apply elem_of_cons in I as [[= -> ->]|I]; [done|]. by apply IH.
Qed.

Lemma pieces_slash_free p a : Static a ∈ pieces p -> chr "/" ∉ a.
Proof.
  intros Ha. unfold pieces in Ha. apply list_elem_of_fmap in Ha as (w & E & Hw). apply split_char_pieces in Hw.
  destruct w as [|c w]; cbn in E; [injection E as ->; apply not_elem_of_nil|].
  destruct (c =? _); [done|]. destruct (c =? _); [done|]. by injection E as ->.
Qed.

Lemma pieces_nonempty p : pieces p <> [].
Proof. intros E. unfold pieces in E. apply fmap_nil_inv in E. by eapply split_char_not_nil. Qed.

Lemma texts_all n z v : z ∈ app n -> v ∈ statics (pieces (pattern z)) -> v ∈ TEXTS.
Proof.
  intros Hz Hv. unfold TEXTS. apply list_elem_of_In, in_flat_map. exists (pattern z).
  change (map pattern (app 0)) with (map pattern (app n)). split; [|by apply list_elem_of_In].
  apply in_map. by apply list_elem_of_In.
Qed.

(** C39: what is mounted is reached.  For every entry of the table, a request of
    its method for its pattern, filled with values that are not themselves texts
    of a pattern, reaches the entry's handler with these values: no entry hides
    another, in whatever order the services are merged. *)
Theorem route_reached n x k h vs m :
  x ∈ app n -> (k, h) ∈ methods x -> fills TEXTS (pieces (pattern x)) vs -> lit k = m \/ k = "*"%string ->
  dispatch (app n) m (address (pieces (pattern x)) vs) = Reached x h (combine (names (pieces (pattern x))) vs).
Proof.
  intros Hx Hk F K. pose proof (all_found n) as A. rewrite forallb_forall in A. pose proof Hx as A'.
  apply list_elem_of_In, A in A'. unfold found in A'. destruct (shape (pieces (pattern x))) as [s o] eqn:S.
  destruct (finds s o (app n)) as [[y|]|] eqn:D; [|done..]. apply String.eqb_eq in A'.
  destruct (known_fills TEXTS _ vs F) as (L & V & T). rewrite S in L, T. cbn [fst snd] in L, T.
  pose proof (split_address TEXTS (pieces (pattern x)) vs (pieces_slash_free _) (pieces_nonempty _) F) as P.
  assert (R : option_map fst (find_route (address (pieces (pattern x)) vs) (app n)) = Some y).
  { eapply finds_route; [rewrite P; unfold segments; by rewrite S|exact L| |exact T|exact D].
    intros z Hz. eapply Forall_impl; [exact V|]. intros v [N Nv]. split; [done|]. intros I. by eapply Nv, texts_all. }
  unfold dispatch. destruct (find_route _ (app n)) as [[y' vs']|] eqn:E; [|done]. cbn in R. injection R as ->.
  apply find_route_Some in E as [Hy M]. assert (y = x) as -> by (by eapply patterns_apart).
  rewrite P, (match_segments TEXTS) in M by done. injection M as <-.
  pose proof (table_checked n) as C. apply andb_true_iff in C as [_ C]. rewrite forallb_forall in C. apply list_elem_of_In, C in Hx.
  by rewrite (method_unique _ _ _ _ Hx Hk K).
Qed.

(** no two patterns of the table have one shape, and each has a method once,
    or one handler for all: axum, which panics on a table that has not this
    property, starts with this one. *)
Theorem table_well_formed n :
  base.NoDup (map (fun x => shape (pieces (pattern x))) (app n))
  /\ forall x, x ∈ app n -> base.NoDup (map fst (methods x)) /\ ("*"%string ∈ map fst (methods x) -> length (methods x) = 1%nat).
Proof.
  pose proof (table_checked n) as T. apply andb_true_iff in T as [T C]. apply bool_decide_eq_true_1 in T. split; [done|].
  intros x Hx. rewrite forallb_forall in C. apply list_elem_of_In, C in Hx. unfold method_free in Hx.
  apply andb_true_iff in Hx as [N F]. apply bool_decide_eq_true_1 in N. split; [done|]. intros I.
  apply orb_true_iff in F as [F|F]; [|by apply Nat.eqb_eq in F]. exfalso. apply negb_true_iff, not_true_iff_false in F. apply F, existsb_exists.
  exists "*"%string. split; [by apply list_elem_of_In|done].
Qed.

(** ** Limits, origins and addresses *)

(** An upload may have ten gibibytes whatever the configuration says, and a
    configured limit of sixteen exbibytes is a limit of nothing. *)
Lemma upload_limit_ignored n :
  (exists x, dispatch (app n) (lit "POST") (lit "/api/v1/files/upload") = Reached x files_upload_file [] /\ body_limit x = Some BODY_LIMIT)
  /\ upload_limit (2 ^ 44) = 0.
Proof. split; [eexists; split; vm_compute; reflexivity|vm_compute; reflexivity]. Qed.

(** the production setting of the origins.  tower-http refuses credentials with
    a wildcard for the headers; so with any origins but none and the wildcard
    the server panics before it serves. *)
Theorem production_refused {HV : HttpValues} (unusable : CorsPolicy -> bool) o :
  (forall p, credentials p = true -> any_header p = true -> unusable p = true) ->
  o <> [] -> o <> lit "*" -> cors_layer unusable (Some o) = Panic.
Proof.
  intros H N W. unfold cors_layer, build_cors_layer. change (default [] (Some o)) with o. rewrite (bool_decide_false (o = lit "*")) by done.
  replace (nonempty o) with true by (by destruct o). cbn [negb orb]. cbv zeta. rewrite H; reflexivity.
Qed.

(** The addresses of the agent's tunnel and advertisement are not the gateway's,
    its heartbeat is not of the gateway's method, and the gateway does not serve
    the WebDAV root with a slash at its end. *)
Lemma addresses_missing n :
  dispatch (app n) (lit "POST") (lit "/api/v1/agent/storage/advertise") = NotFound
  /\ dispatch (app n) (lit "GET") (lit "/ws/presence") = NotFound
  /\ dispatch (app n) (lit "POST") (lit "/api/v1/devices/7/heartbeat") = MethodNotAllowed
  /\ dispatch (app n) (lit "PROPFIND") (lit "/webdav/") = NotFound.
Proof. split_and!; vm_compute; reflexivity. Qed.

(** ** Instances *)

(** A server whose handlers all write its disk. *)
Definition demo_run : handler -> option Claims -> option Z -> list (rstr * rstr) -> Request unit -> M Server Z :=
  fun _ _ _ _ _ => _ ← modify (set_disk {[ [lit "x"] := Fs.Dir ]}); mret 200.
Definition demo_request (m p : string) : Request unit := {| method := lit m; path := lit p; authorization := None; others := tt |}.
Definition demo_serve (m p : string) (w : World Server) : outcome Z * World Server :=
  serve (O := toy_env []) (JW := toy_jwt) toy_config (fun _ => None) (fun _ _ _ => None) (fun c => c) demo_run 100 (demo_request m p) w.
Definition demo_world : World Server := mkWorld empty_server 0.

Lemma gate_closed_witness :
  fst (demo_serve "DELETE" "/api/v1/files/7" demo_world) = Err (Unauthorized (lit "Missing Authorization header"))
  /\ data (snd (demo_serve "DELETE" "/api/v1/files/7" demo_world)) = data demo_world.
Proof.
  split; [vm_compute; reflexivity|]. destruct (demo_serve "DELETE" "/api/v1/files/7" demo_world) as [o w'] eqn:E.
  destruct (gate_closed (O := toy_env []) (JW := toy_jwt) toy_config (fun _ => None) (fun _ _ _ => None) (fun c => c) demo_run 100
    (demo_request "DELETE" "/api/v1/files/7") demo_world o w') as [(e & He & A)|[D _]].
  - intros v v' c H. vm_compute in H. discriminate H.
  - exact E.
  - exfalso. revert A. unfold OPEN in He. repeat (apply elem_of_cons in He as [->|He];
      [intros [[A|[A _]] [x B]]; vm_compute in A, B; discriminate|]). by apply not_elem_of_nil in He.
  - exact D.
Defined.

Lemma production_refused_witness :
  cors_layer (HV := Externals.any_header) (fun p => credentials p && Router.any_header p) (Some (lit "https://cloud.example")) = Panic.
Proof.
  apply (production_refused (HV := Externals.any_header) (fun p => credentials p && Router.any_header p) (lit "https://cloud.example")).
  - intros p -> ->. reflexivity.
  - vm_compute. discriminate.
  - vm_compute. discriminate.
Defined.

Lemma route_reached_witness : exists x,
  dispatch (app 100) (lit "GET") (lit "/api/v1/files/7/download") = Reached x files_download_file [(lit "id", lit "7")].
Proof.
  exists {| pattern := "/api/v1/files/:id/download"%string; methods := GET files_download_file; body_limit := Some BODY_LIMIT |}.
  apply (route_reached 100 {| pattern := "/api/v1/files/:id/download"%string; methods := GET files_download_file; body_limit := Some BODY_LIMIT |}
    "GET"%string files_download_file [lit "7"] (lit "GET")).
  - apply (list_elem_of_lookup_2 _ 49%nat). vm_compute. reflexivity.
  - left.
  - split; [reflexivity|]. split; [apply (bool_decide_eq_true_1 _); vm_compute; reflexivity|].
    split; [apply (bool_decide_eq_true_1 _); vm_compute; reflexivity|exact I].
  - by left.
Defined.
End Router.
