(* ===== verification/Discovery.v ===== *)
(** * Discovery: the agents of a local network

    agent/src/discovery.rs: the announcements an agent broadcasts, the table of
    the agents it has heard, and what it tells of them.  An address is a text,
    and a moment a number of microseconds. *)

From S2P Require Import Prelude Text Bits Utf8.

Module Discovery.

Record Peer := { id : rstr; hostname : rstr; ip : rstr; port : Z; last_seen : Z }.

Record LanDiscovery := { table : gmap rstr Peer; service_port : Z; device_id : rstr }.

Definition DISCOVERY_PORT : Z := 5353.
Definition PEER_TIMEOUT : Z := 120 * 1000000.
Definition MAGIC : rstr := lit "PCOS-DISCOVER-V1".
Definition BUFFER : nat := 512.

Definition new (device_id : rstr) (service_port : Z) : LanDiscovery :=
  {| table := ∅; service_port := service_port; device_id := device_id |}.

(** A peer seen in the future counts as seen now. *)
Definition fresh (now : Z) (p : Peer) : bool := Z.max 0 (now - last_seen p) <? PEER_TIMEOUT.

(** In the order of the table, which is no particular one. *)
Definition peers (now : Z) (d : LanDiscovery) : list Peer := List.filter (fresh now) (map snd (map_to_list (table d))).

(** The text of an announcement, for a host name or none. *)
Definition announcement (d : LanDiscovery) (host : option rstr) : rstr :=
  MAGIC ++ lit "|" ++ device_id d ++ lit "|" ++ default (lit "unknown") host ++ lit "|" ++ show_int (service_port d).

(** One turn of the listener: the datagram is cut to the buffer. *)
Definition heard (now : Z) (addr : rstr) (datagram : bytes) (d : LanDiscovery) : LanDiscovery :=
  match split_char (chr "|") (Utf8.from_utf8_lossy (take BUFFER datagram)) with
  | [magic; peer_id; host; p] =>
      if bool_decide (magic = MAGIC) && negb (bool_decide (peer_id = device_id d)) then
        let peer := {| id := peer_id; hostname := host; ip := addr; port := default 8080 (parse_uint 10 65535 p); last_seen := now |} in
        {| table := <[peer_id := peer]> (table d); service_port := service_port d; device_id := device_id d |}
      else d
  | _ => d
  end.

(** The port of the socket: an ephemeral one when the port of the announcements
    is taken, as it is where a resolver of mDNS runs. *)
Definition bound (taken : bool) (ephemeral : option Z) : option Z := if taken then ephemeral else Some DISCOVERY_PORT.

(** An announcement reaches the sockets bound to the port it is sent to. *)
Definition broadcast (now : Z) (addr : rstr) (from : LanDiscovery) (host : option rstr) (socket : option Z) (to : LanDiscovery)
  : LanDiscovery :=
  if bool_decide (socket = Some DISCOVERY_PORT) then heard now addr (as_bytes (announcement from host)) to else to.

(** ** An announcement is heard *)

Definition word (s : rstr) : Prop := Forall Utf8.scalar s /\ chr "|" ∉ s.

Lemma scalar_ascii s : forallb (fun c => (0 <=? c) && (c <? 128)) s = true -> Forall Utf8.scalar s.
Proof.
  rewrite forallb_forall, Forall_forall. intros H c Hc. left. apply list_elem_of_In, H in Hc. lia.
Qed.

Lemma digits_word n : 0 <= n -> word (show_int n).
Proof.
  intros P. unfold show_int. replace (n <? 0) with false by lia. destruct (show_uint_spec n P) as (_ & D & _). unfold digit_str in D.
  split.
  - eapply Forall_impl; [exact D|]. intros c Hc. unfold is_ascii_digit in Hc. boolify. left. lia.
  - intros I. eapply Forall_forall in I; [|exact D]. by vm_compute in I.
Qed.

Lemma heard_announcement now addr d from host :
  word (device_id from) -> word (default (lit "unknown") host) -> 0 <= service_port from <= 65535 -> device_id from <> device_id d ->
  (length (as_bytes (announcement from host)) <= BUFFER)%nat ->
  heard now addr (as_bytes (announcement from host)) d =
  {| table := <[device_id from := {| id := device_id from; hostname := default (lit "unknown") host; ip := addr;
                                    port := service_port from; last_seen := now |}]> (table d);
     service_port := service_port d; device_id := device_id d |}.
Proof.
  intros [Si Ni] [Sh Nh] P Ne L. unfold heard. rewrite take_ge by done. destruct (digits_word (service_port from)) as [Sp Np]; [lia|].
  rewrite Utf8.lossy_as_bytes.
  2: { unfold announcement. rewrite !Forall_app. split_and!; try done; apply scalar_ascii; reflexivity. }
  unfold announcement. change (lit "|") with [chr "|"]. cbn [app].
  rewrite split_char_app by (apply (bool_decide_eq_true_1 _); vm_compute; reflexivity).
  rewrite !split_char_app, split_char_last by done.
  rewrite bool_decide_true, bool_decide_false by done. cbn [andb negb].
  unfold show_int. replace (service_port from <? 0) with false by lia. by rewrite parse_show_uint.
Qed.

(** an announcement.  When it fits the buffer, and its names have no bar,
    every other agent that listens on the port knows the sender from then on by
    its id, name, address and port, and tells of it for two minutes and no
    longer; what it knows of others stays. *)
Theorem announced_peer_listed now now' addr d from host :
  word (device_id from) -> word (default (lit "unknown") host) -> 0 <= service_port from <= 65535 -> device_id from <> device_id d ->
  (length (as_bytes (announcement from host)) <= BUFFER)%nat -> now <= now' ->
  let d' := broadcast now addr from host (bound false None) d in
  let p := {| id := device_id from; hostname := default (lit "unknown") host; ip := addr; port := service_port from; last_seen := now |} in
  table d' = <[device_id from := p]> (table d)
  /\ (p ∈ peers now' d' <-> now' < now + PEER_TIMEOUT)
  /\ forall q k, k <> device_id from -> table d !! k = Some q -> (q ∈ peers now' d' <-> fresh now' q = true).
Proof.
  intros Wi Wh P Ne L T. cbv zeta. unfold broadcast, bound. rewrite bool_decide_true by done. rewrite heard_announcement by done.
  split; [done|]. assert (E : forall q k, (<[device_id from := {| id := device_id from; hostname := default (lit "unknown") host; ip := addr;
      port := service_port from; last_seen := now |}]> (table d)) !! k = Some q ->
      (q ∈ peers now' {| table := <[device_id from := {| id := device_id from; hostname := default (lit "unknown") host; ip := addr;
      port := service_port from; last_seen := now |}]> (table d); service_port := service_port d; device_id := device_id d |} <-> fresh now' q = true)).
  { intros q k K. unfold peers. cbn [table]. rewrite list_elem_of_In, filter_In, <- list_elem_of_In. split; [by intros [_ ?]|]. intros F. split; [|done].
    apply list_elem_of_fmap. exists (k, q). split; [done|]. by apply elem_of_map_to_list. }
  split.
  - rewrite (E _ (device_id from)) by (by rewrite lookup_insert_eq). unfold fresh. cbn [last_seen]. rewrite Z.ltb_lt. lia.
  - intros q k K H. apply (E q k). by rewrite lookup_insert_ne.
Qed.

(** ** The table *)

(** The states of an agent that has heard any datagrams from anyone. *)
Inductive listening (me : rstr) (service : Z) : LanDiscovery -> Prop :=
| starts : listening me service (new me service)
| hears now addr datagram d : listening me service d -> listening me service (heard now addr datagram d).

Lemma heard_cases now addr datagram d : heard now addr datagram d = d
  \/ exists k h p, k <> device_id d /\ chr "|" ∉ k /\ 0 <= p <= 65535
       /\ heard now addr datagram d =
          {| table := <[k := {| id := k; hostname := h; ip := addr; port := p; last_seen := now |}]> (table d);
             service_port := service_port d; device_id := device_id d |}.
Proof.
  unfold heard. destruct (split_char _ _) as [|magic [|k [|h [|p [|]]]]] eqn:S; try by left.
  destruct (bool_decide (magic = MAGIC)) eqn:M; [|by left]. destruct (bool_decide (k = device_id d)) eqn:K; [by left|].
  apply bool_decide_eq_false_1 in K. right. exists k, h, (default 8080 (parse_uint 10 65535 p)). split; [done|]. split_and!; [| | |done].
  - eapply split_char_pieces. rewrite S. right. left.
  - destruct (parse_uint 10 65535 p) as [n|] eqn:P; cbn; [|lia]. apply parse_uint_bound in P; lia.
  - destruct (parse_uint 10 65535 p) as [n|] eqn:P; cbn; [|lia]. apply parse_uint_bound in P; lia.
Qed.

(** the table of peers.  Whatever datagrams an agent hears, it never lists
    itself, lists each peer under its own id, with a port of sixteen bits and
    without a bar in the id; and no datagram makes it forget an id it has heard,
    however long ago. *)
Theorem peers_sound me service d :
  listening me service d ->
  device_id d = me /\ service_port d = service
  /\ (forall k p, table d !! k = Some p -> k <> me /\ id p = k /\ 0 <= port p <= 65535 /\ chr "|" ∉ k)
  /\ (forall now p, p ∈ peers now d -> id p <> me /\ table d !! id p = Some p /\ now < last_seen p + PEER_TIMEOUT)
  /\ forall now addr b k, is_Some (table d !! k) -> is_Some (table (heard now addr b d) !! k).
Proof.
  intros L. assert (T : device_id d = me /\ service_port d = service
    /\ forall k p, table d !! k = Some p -> k <> me /\ id p = k /\ 0 <= port p <= 65535 /\ chr "|" ∉ k).
  { induction L as [|now addr b d L (I & S & IH)]; [by split_and!|].
    destruct (heard_cases now addr b d) as [->|(k & h & p & K & B & P & ->)]; [done|]. split_and!; [done|done|].
    intros k' q. cbn [table]. rewrite lookup_insert_Some. intros [[<- <-]|[_ H]]; [|by apply IH]. cbn. by rewrite <- I. }
  destruct T as (I & S & T). split_and!; [done|done|exact T| |].
  - intros now p H. unfold peers in H. rewrite list_elem_of_In, filter_In, <- list_elem_of_In in H. destruct H as [H F].
    apply list_elem_of_fmap in H as ([k q] & -> & H). apply elem_of_map_to_list in H. cbn [snd] in *.
    destruct (T k q H) as (N & E & _). rewrite E. split_and!; [done|done|]. unfold fresh in F. apply Z.ltb_lt in F. lia.
  - intros now addr b k H. destruct (heard_cases now addr b d) as [->|(k' & h & p & _ & _ & _ & ->)]; [done|]. cbn [table].
    destruct (decide (k' = k)) as [->|N]; [by rewrite lookup_insert_eq|by rewrite lookup_insert_ne].
Qed.

(** ** Instances *)

Definition laptop : LanDiscovery := new (lit "laptop") 8080.
Definition desktop : LanDiscovery := new (lit "desktop") 9090.

Lemma announced_peer_witness : exists p,
  p ∈ peers 60000000 (broadcast 0 (lit "192.168.1.5") laptop None (bound false None) desktop) /\ hostname p = lit "unknown".
Proof.
  destruct (announced_peer_listed 0 60000000 (lit "192.168.1.5") desktop laptop None) as (_ & H & _).
  - split; [apply scalar_ascii; reflexivity|]. apply (bool_decide_eq_true_1 _). vm_compute. reflexivity.
  - split; [apply scalar_ascii; reflexivity|]. apply (bool_decide_eq_true_1 _). vm_compute. reflexivity.
  - cbn. lia.
  - apply (bool_decide_eq_true_1 _). vm_compute. reflexivity.
  - apply Nat.leb_le. vm_compute. reflexivity.
  - lia.
  - eexists. split; [apply H; vm_compute; reflexivity|reflexivity].
Defined.

Definition demo_hearing : LanDiscovery := heard 7 (lit "10.0.0.9") (as_bytes (lit "PCOS-DISCOVER-V1|laptop|x|80")) desktop.

Lemma peers_sound_witness : device_id demo_hearing = lit "desktop" /\ is_Some (table demo_hearing !! lit "laptop").
Proof.
  destruct (peers_sound (lit "desktop") 9090 demo_hearing) as (I & _).
  - apply hears. apply starts.
  - split; [exact I|]. vm_compute. eexists. reflexivity.
Defined.

(** The datagrams are not signed: whoever sends the id of a peer takes its
    place in the table, at his own address. *)
Lemma peer_replaced : exists p,
  peers 60000001 (broadcast 60000000 (lit "10.6.6.6") laptop (Some (lit "evil")) (bound false None)
    (broadcast 0 (lit "192.168.1.5") laptop None (bound false None) desktop)) = [p] /\ ip p = lit "10.6.6.6".
Proof. eexists. split; vm_compute; reflexivity. Qed.

(** With the port taken, an agent is bound elsewhere and hears no announcement,
    and a long host name cuts the port from its own: it is told as 8080. *)
Lemma deaf_agent :
  broadcast 0 (lit "192.168.1.5") laptop None (bound true (Some 40000)) desktop = desktop
  /\ exists p, peers 0 (broadcast 0 (lit "192.168.1.5") (new (lit "laptop") 8443) (Some (replicate 487 97)) (bound false None) desktop) = [p]
       /\ port p = 8080.
Proof. split; [vm_compute; reflexivity|]. eexists. split; vm_compute; reflexivity. Qed.
End Discovery.
