(* ===== verification/Email.v ===== *)
(** * Email: mail over SMTP

    backend/crates/notification/src/email.rs: the conversation with a mail
    server and the mails the service can send.  The server is a parameter: its
    answer to the n-th read; what it makes of the bytes it gets after DATA is the
    abstract receiver of RFC 5321. *)

From S2P Require Import Prelude Text Bits Effects Externals Utf8.

Module Email.

Record EmailSender := {
  host : rstr; port : Z; username : option rstr; password : option rstr; from_address : rstr; enabled : bool }.

Record EmailMessage := { to : rstr; subject : rstr; body_html : rstr; body_text : option rstr }.

Definition from_env (env_var : string -> option rstr) : EmailSender :=
  let host := default [] (env_var "PCOS_SMTP_HOST"%string) in
  {| host := host; port := default 587 (env_var "PCOS_SMTP_PORT"%string ≫= parse_uint 10 65535);
     username := env_var "PCOS_SMTP_USER"%string; password := env_var "PCOS_SMTP_PASS"%string;
     from_address := default (lit "noreply@pcos.local") (env_var "PCOS_SMTP_FROM"%string); enabled := nonempty host |}.

Definition CRLF : rstr := [13; 10].
Definition BOUNDARY : rstr := [34] ++ lit "pcos-boundary" ++ [34].

Definition mime_msg (s : EmailSender) (m : EmailMessage) : rstr :=
  lit "From: " ++ from_address s ++ CRLF ++ lit "To: " ++ to m ++ CRLF ++ lit "Subject: " ++ subject m ++ CRLF
  ++ lit "MIME-Version: 1.0" ++ CRLF ++ lit "Content-Type: multipart/alternative; boundary=" ++ BOUNDARY ++ CRLF ++ CRLF
  ++ lit "--pcos-boundary" ++ CRLF ++ lit "Content-Type: text/plain; charset=utf-8" ++ CRLF ++ CRLF
  ++ default (lit "See HTML version") (body_text m) ++ CRLF
  ++ lit "--pcos-boundary" ++ CRLF ++ lit "Content-Type: text/html; charset=utf-8" ++ CRLF ++ CRLF
  ++ body_html m ++ CRLF ++ lit "--pcos-boundary--" ++ CRLF.

(** ** The conversation *)

(** The state of a connection: what was written, in order. *)
Notation Wire := (list rstr).

Section Smtp.
Context {O : Oracle}.
(** Base64 of the standard alphabet; the result of opening the connection, and the answer to the read at a place:
    what is in the buffer of 1024 bytes. *)
Context (b64_encode : bytes -> rstr) (connect : rstr -> option rstr) (answer : nat -> bytes).

(** A call of the socket, with the text an error is put behind. *)
Definition labelled {A} (prefix : string) (m : M Wire A) : M Wire A := fun w =>
  match m w with
  | (Err (Internal e), w') => (Err (Internal (lit prefix ++ lit ": " ++ e)), w')
  | r => r
  end.

Definition write_all (prefix : string) (text : rstr) : M Wire unit := labelled prefix (io (fun d => inr (tt, d ++ [text]))).

Definition read_smtp_response : M Wire rstr :=
  _ ← labelled "SMTP read" (io (fun d => inr (tt, d)));
  interact (fun n => Utf8.from_utf8_lossy (take 1024 (answer n))).

Definition command (prefix : string) (text : rstr) : M Wire rstr :=
  _ ← write_all prefix (text ++ CRLF);
  read_smtp_response.

Definition credentials (user pass : rstr) : rstr := b64_encode (as_bytes ([0] ++ user ++ [0] ++ pass)).

Definition authenticate (s : EmailSender) : M Wire unit :=
  match username s, password s with
  | Some user, Some pass =>
      resp ← command "SMTP auth" (lit "AUTH PLAIN " ++ credentials user pass);
      if negb (starts_with (lit "235") resp) then throw (Internal (lit "SMTP auth failed: " ++ resp)) else mret tt
  | _, _ => mret tt
  end.

Definition send (s : EmailSender) (m : EmailMessage) : M Wire unit :=
  if negb (enabled s) then mret tt else
  match connect (host s ++ lit ":" ++ show_uint (port s)) with
  | Some e => throw (Internal e)
  | None =>
      _ ← read_smtp_response;
      _ ← command "SMTP write" (lit "EHLO pcos");
      _ ← authenticate s;
      _ ← command "SMTP" (lit "MAIL FROM:<" ++ from_address s ++ lit ">");
      _ ← command "SMTP" (lit "RCPT TO:<" ++ to m ++ lit ">");
      _ ← command "SMTP" (lit "DATA");
      _ ← write_all "SMTP" (mime_msg s m ++ CRLF ++ lit "." ++ CRLF);
      resp ← read_smtp_response;
      _ ← discard (write_all "SMTP" (lit "QUIT" ++ CRLF));
      if starts_with (lit "250") resp then mret tt else throw (Internal (lit "SMTP send failed: " ++ resp))
  end.

(** ** The mails *)

Definition send_welcome (s : EmailSender) (addr display_name : rstr) : M Wire unit :=
  send s {| to := addr; subject := lit "Welcome to PCOS";
            body_html := lit "<h1>Welcome, " ++ display_name
              ++ lit "!</h1><p>Your Personal Cloud Operating System is ready.</p><p>Start uploading files, syncing devices, and taking control of your data.</p>";
            body_text := Some (lit "Welcome, " ++ display_name ++ lit "! Your PCOS is ready.") |}.

(** A long dash, as the texts have it. *)
Definition DASH : rstr := [0x2014].

Definition send_backup_complete (s : EmailSender) (addr backup_name : rstr) (file_count : Z) : M Wire unit :=
  send s {| to := addr; subject := lit "Backup Complete: " ++ backup_name;
            body_html := lit "<h2>Backup Completed</h2><p><strong>" ++ backup_name ++ lit "</strong> " ++ DASH ++ lit " " ++ show_int file_count
              ++ lit " files backed up successfully.</p>";
            body_text := Some (lit "Backup '" ++ backup_name ++ lit "' completed: " ++ show_int file_count ++ lit " files") |}.

Definition share_message (addr sharer_name file_name share_url : rstr) : EmailMessage :=
  {| to := addr; subject := sharer_name ++ lit " shared a file with you";
     body_html := lit "<h2>File Shared</h2><p><strong>" ++ sharer_name ++ lit "</strong> shared <em>" ++ file_name
       ++ lit "</em> with you.</p><p><a href='" ++ share_url ++ lit "'>View File</a></p>";
     body_text := Some (sharer_name ++ lit " shared '" ++ file_name ++ lit "': " ++ share_url) |}.

Definition send_share_notification (s : EmailSender) (addr sharer_name file_name share_url : rstr) : M Wire unit :=
  send s (share_message addr sharer_name file_name share_url).

Definition send_mfa_enabled (s : EmailSender) (addr : rstr) : M Wire unit :=
  send s {| to := addr; subject := lit "MFA Enabled on PCOS";
            body_html := lit "<h2>Two-Factor Authentication Enabled</h2><p>MFA has been enabled on your account. You'll need your authenticator app to log in.</p>";
            body_text := Some (lit "MFA has been enabled on your PCOS account.") |}.
End Smtp.

(** ** What the receiver makes of it *)

(** The lines of what comes after DATA, up to the line of one dot; a dot at the
    front of another line is taken away.  What follows is read as commands. *)
Fixpoint crlf_lines (s cur : rstr) : list rstr * rstr :=
  match s with
  | [] => ([], cur)
  | c :: r =>
      match r with
      | d :: r' => if (c =? 13) && (d =? 10) then let '(ls, rest) := crlf_lines r' [] in (cur :: ls, rest) else crlf_lines r (cur ++ [c])
      | [] => crlf_lines r (cur ++ [c])
      end
  end.

Fixpoint until_dot (ls : list rstr) : option (list rstr * list rstr) :=
  match ls with
  | [] => None
  | l :: r =>
      if bool_decide (l = lit ".") then Some ([], r)
      else option_map (fun x => (match l with c :: l' => if c =? chr "." then l' else l | [] => l end :: fst x, snd x)) (until_dot r)
  end.

(** The mail and the commands after it. *)
Definition received (s : rstr) : option (list rstr * list rstr) := until_dot (fst (crlf_lines s [])).

Lemma crlf_lines_step c r cur :
  crlf_lines (c :: r) cur =
  match r with
  | d :: r' => if (c =? 13) && (d =? 10) then let '(ls, rest) := crlf_lines r' [] in (cur :: ls, rest) else crlf_lines r (cur ++ [c])
  | [] => ([], cur ++ [c])
  end.
Proof. by destruct r. Qed.

Definition terminated (l : list rstr) : rstr := flat_map (fun x => x ++ CRLF) l.

(** The lines and the open end are the text. *)
Lemma crlf_lines_text s cur : terminated (fst (crlf_lines s cur)) ++ snd (crlf_lines s cur) = cur ++ s.
Proof.
  remember (length s) as n eqn:L. revert s cur L. induction n as [n IH] using lt_wf_ind. intros s cur L.
  destruct s as [|c r]; [cbn; by rewrite app_nil_r|]. rewrite crlf_lines_step. destruct r as [|d r].
  - done.
  - destruct ((c =? 13) && (d =? 10)) eqn:E.
    + apply andb_true_iff in E as [E1 E2]. apply Z.eqb_eq in E1, E2. subst. specialize (IH (length r) ltac:(cbn in *; lia) r [] eq_refl).
      destruct (crlf_lines r []) as [ls rest]. cbn [fst snd terminated flat_map] in *. rewrite <- app_assoc. unfold terminated in IH.
      rewrite IH. unfold CRLF. by rewrite <- app_assoc.
    + rewrite (IH (length (d :: r)) ltac:(cbn in *; lia) (d :: r) (cur ++ [c]) eq_refl). by rewrite <- app_assoc.
Qed.

(** A line end splits the lines. *)
Lemma crlf_lines_app a b cur :
  crlf_lines (a ++ CRLF ++ b) cur = (fst (crlf_lines a cur) ++ snd (crlf_lines a cur) :: fst (crlf_lines b []), snd (crlf_lines b [])).
Proof.
  remember (length a) as n eqn:L. revert a cur L. induction n as [n IH] using lt_wf_ind. intros a cur L.
  destruct a as [|c r].
  - unfold CRLF. cbn [app]. rewrite crlf_lines_step. cbn. by destruct (crlf_lines b []).
  - destruct r as [|d r].
    + unfold CRLF in *. cbn [app]. rewrite crlf_lines_step. replace ((c =? 13) && (13 =? 10)) with false by lia.
      apply (IH 0%nat ltac:(cbn in *; lia) [] (cur ++ [c]) eq_refl).
    + cbn [app]. rewrite !(crlf_lines_step c). destruct ((c =? 13) && (d =? 10)).
      * rewrite (IH (length r) ltac:(cbn in *; lia) r [] eq_refl). destruct (crlf_lines r []) as [ls rest]. done.
      * apply (IH (length (d :: r)) ltac:(cbn in *; lia) (d :: r) (cur ++ [c]) eq_refl).
Qed.

Lemma until_dot_plain ls r : Forall (fun l : rstr => head l <> Some (chr ".")) ls -> until_dot (ls ++ lit "." :: r) = Some (ls, r).
Proof.
  induction 1 as [|l ls Hl _ IH]; cbn [app until_dot]; [by rewrite bool_decide_true|].
  rewrite bool_decide_false by (intros ->; by apply Hl). rewrite IH. cbn [option_map fst snd]. destruct l as [|c l]; [done|].
  destruct (Z.eqb_spec c (chr ".")) as [->|]; [by destruct Hl|done].
Qed.

Lemma mime_msg_ends s m : exists x, mime_msg s m = x ++ CRLF.
Proof. unfold mime_msg. rewrite !app_assoc. by eexists. Qed.

(** a mail arrives.  When no line of the message begins with a dot, what the
    receiver takes after DATA is the message, line by line, and nothing of it is
    left to be read as a command. *)
Theorem mail_received s m :
  Forall (fun l : rstr => head l <> Some (chr ".")) (fst (crlf_lines (mime_msg s m) [])) ->
  exists ls, received (mime_msg s m ++ CRLF ++ lit "." ++ CRLF) = Some (ls, []) /\ terminated ls = mime_msg s m ++ CRLF.
Proof.
  intros F. unfold received. pose proof (crlf_lines_text (mime_msg s m) []) as T. destruct (mime_msg_ends s m) as [x E].
  assert (N : snd (crlf_lines (mime_msg s m) []) = []) by by rewrite E, <- (app_nil_r CRLF), crlf_lines_app.
  rewrite crlf_lines_app, N in *. rewrite app_nil_r in T. cbn [app] in T.
  exists (fst (crlf_lines (mime_msg s m) []) ++ [[]]). split.
  - cbn [fst]. rewrite (crlf_lines_app (lit ".") [] [] : crlf_lines (lit "." ++ CRLF) [] = _). cbn [fst snd crlf_lines app lit].
    change ([] :: ?l) with ([[]] ++ l). rewrite (cons_middle [] _ [lit "."]), app_assoc. apply until_dot_plain.
    apply Forall_app. split; [done|]. by repeat constructor.
  - unfold terminated in *. by rewrite flat_map_app, T.
Qed.
Definition toy_sender : EmailSender :=
  from_env (fun v => if String.eqb v "PCOS_SMTP_HOST" then Some (lit "mail.example") else if String.eqb v "PCOS_SMTP_USER" then Some (lit "pcos")
                     else if String.eqb v "PCOS_SMTP_PASS" then Some (lit "secret") else None).
Definition toy_mail (sharer : rstr) : EmailMessage :=
  share_message (lit "bob@example.org") sharer (lit "a.txt") (lit "https://pcos.local/s/1").

Lemma mail_received_witness :
  exists ls, received (mime_msg toy_sender (toy_mail (lit "Ann")) ++ CRLF ++ lit "." ++ CRLF) = Some (ls, []) /\
    terminated ls = mime_msg toy_sender (toy_mail (lit "Ann")) ++ CRLF.
Proof. apply (mail_received toy_sender (toy_mail (lit "Ann"))). apply (bool_decide_unpack _). vm_compute. exact I. Defined.

Section Sending.
Context {O : Oracle}.
Context (b64_encode : bytes -> rstr) (connect : rstr -> option rstr) (answer : nat -> bytes).

Lemma labelled_Ok {A} p (m : M Wire A) a w w' : labelled p m w = (Ok a, w') -> m w = (Ok a, w').
Proof. unfold labelled. destruct (m w) as [[| [] | |] ?]; congruence. Qed.

Lemma write_all_Ok p t x w w' : write_all p t w = (Ok x, w') -> data w' = data w ++ [t] /\ (pos w <= pos w')%nat.
Proof. intros [= E]%labelled_Ok. unfold io in E. case_hyp E; [done|]. simplify_eq E. intros. subst. cbn. split; [done|lia]. Qed.

(** The answer of the server that was read. *)
Definition said (n n' : nat) (resp : rstr) : Prop :=
  exists k, (n <= k < n')%nat /\ resp = Utf8.from_utf8_lossy (take 1024 (answer k)).

Lemma said_within n n' m m' r : said n n' r -> (m <= n)%nat -> (n' <= m')%nat -> said m m' r.
Proof. intros (k & ? & ?) ? ?. exists k. split; [lia|done]. Qed.

Lemma read_smtp_response_Ok resp w w' :
  read_smtp_response answer w = (Ok resp, w') -> data w' = data w /\ (pos w <= pos w')%nat /\ said (pos w) (pos w') resp.
Proof.
  intros R. unfold read_smtp_response in R. run_ok R. apply labelled_Ok in Hm. unfold io in Hm. case_hyp Hm; [done|].
  simplify_eq Hm. intros. subst. cbn. split; [done|]. split; [lia|]. eexists. split; [|done]. lia.
Qed.

Lemma command_Ok p t resp w w' :
  command answer p t w = (Ok resp, w') -> data w' = data w ++ [t ++ CRLF] /\ (pos w <= pos w')%nat /\ said (pos w) (pos w') resp.
Proof.
  intros R. unfold command in R. run_ok R. apply write_all_Ok in Hm as [D L]. apply read_smtp_response_Ok in R as (D' & L' & k & ? & ?).
  rewrite D', D. split; [done|]. split; [lia|]. exists k. split; [lia|done].
Qed.

(** What is said to log in. *)
Definition login (s : EmailSender) : list rstr :=
  match username s, password s with Some u, Some p => [lit "AUTH PLAIN " ++ credentials b64_encode u p ++ CRLF] | _, _ => [] end.

Lemma authenticate_Ok s w w' :
  authenticate b64_encode answer s w = (Ok tt, w') ->
  data w' = data w ++ login s /\ (pos w <= pos w')%nat /\
  (login s <> [] -> exists resp, said (pos w) (pos w') resp /\ starts_with (lit "235") resp = true).
Proof.
  unfold authenticate, login. intros R. destruct (username s), (password s); run_ok R; rewrite ?app_nil_r; try done.
  apply command_Ok in Hm as (D & L & SD). rewrite D. split; [by rewrite <- app_assoc|]. split; [done|]. intros _. eexists. split; [done|].
  by apply negb_false_iff.
Qed.

Lemma farewell_Ok p t x w w' :
  discard (write_all p t) w = (Ok x, w') -> (exists q, (q = [] \/ q = [t]) /\ data w' = data w ++ q) /\ (pos w <= pos w')%nat.
Proof.
  unfold discard, unwrap_or, mbind, M_bind, write_all, labelled, io. destruct (io_fault (pos w)); cbn.
  - intros Z; simplify_eq Z; intros; subst; cbn. split; [|lia]. exists []. rewrite app_nil_r. auto.
  - intros Z; simplify_eq Z; intros; subst; cbn. split; [|lia]. exists [t]. auto.
Qed.

(** what a sent mail is.  A sender that is set up reports success only when it
    reached the server of its address, said the greeting, its credentials when it
    has both of them, the two addresses and DATA, then the message with the final
    dot, in that order and nothing else but a farewell, and the server answered
    235 to the credentials and 250 to the message. *)
Theorem send_sound s m w w' :
  enabled s = true -> send b64_encode connect answer s m w = (Ok tt, w') ->
  connect (host s ++ lit ":" ++ show_uint (port s)) = None /\
  (exists quit, (quit = [] \/ quit = [lit "QUIT" ++ CRLF]) /\
     data w' = data w ++ [lit "EHLO pcos" ++ CRLF] ++ login s
       ++ [lit "MAIL FROM:<" ++ from_address s ++ lit ">" ++ CRLF; lit "RCPT TO:<" ++ to m ++ lit ">" ++ CRLF; lit "DATA" ++ CRLF;
           mime_msg s m ++ CRLF ++ lit "." ++ CRLF] ++ quit) /\
  (exists resp, said (pos w) (pos w') resp /\ starts_with (lit "250") resp = true) /\
  (login s <> [] -> exists resp, said (pos w) (pos w') resp /\ starts_with (lit "235") resp = true).
Proof.
  intros En R. unfold send in R. rewrite En in R. cbn [negb] in R. case_hyp R; [done|].
  run_ok R.
  apply read_smtp_response_Ok in Hm as (D0 & L0 & _). apply command_Ok in Hm0 as (D1 & L1 & _).
  match goal with H : authenticate _ _ _ _ = (Ok ?x, _) |- _ => destruct x; apply authenticate_Ok in H as (D2 & L2 & A2) end.
  repeat match goal with
  | H : command _ _ _ _ = _ |- _ => apply command_Ok in H as (? & ? & _)
  | H : write_all _ _ _ = _ |- _ => apply write_all_Ok in H as (? & ?)
  | H : read_smtp_response _ _ = _ |- _ => apply read_smtp_response_Ok in H as (? & ? & ?)
  | H : discard _ _ = _ |- _ => apply farewell_Ok in H as (? & ?)
  end.
  destruct H11 as (q & Q & H11). split; [done|]. repeat split.
  - exists q. split; [done|]. rewrite H11, H8, H6, H0, H2, H4, D2, D1, D0. by rewrite <- !app_assoc.
  - exists x6. split; [|done]. by apply (said_within (pos w6) (pos w7)); [|lia..].
  - intros A. destruct (A2 A) as (r & S & ?). exists r. split; [|done]. by apply (said_within (pos w1) (pos w2)); [|lia..].
Qed.
End Sending.

Definition toy_b64 (b : bytes) : rstr := lit "AHBjb3MAc2VjcmV0".
Definition toy_answer (n : nat) : bytes := lit (if Nat.eqb n 7 then "235 ok" else "250 ok").
Definition toy_sent : World Wire :=
  snd (send (O := toy_env []) toy_b64 (fun _ => None) toy_answer toy_sender (toy_mail (lit "Ann")) (mkWorld [] 0)).

Lemma send_sound_witness :
  (exists quit, (quit = [] \/ quit = [lit "QUIT" ++ CRLF]) /\
     data toy_sent = [lit "EHLO pcos" ++ CRLF; lit "AUTH PLAIN AHBjb3MAc2VjcmV0" ++ CRLF; lit "MAIL FROM:<noreply@pcos.local>" ++ CRLF;
       lit "RCPT TO:<bob@example.org>" ++ CRLF; lit "DATA" ++ CRLF;
       mime_msg toy_sender (toy_mail (lit "Ann")) ++ CRLF ++ lit "." ++ CRLF] ++ quit) /\
  exists resp, said toy_answer 0 (pos toy_sent) resp /\ starts_with (lit "250") resp = true.
Proof.
  destruct (send_sound (O := toy_env []) toy_b64 (fun _ => None) toy_answer toy_sender (toy_mail (lit "Ann")) (mkWorld [] 0) toy_sent
              eq_refl ltac:(vm_compute; reflexivity)) as (_ & Q & A & _).
  split; [exact Q|exact A].
Defined.

(** a text can end the mail it is in.  A name with a line of one dot makes the
    receiver end the mail there and read the rest of the name as commands. *)
Theorem mail_smuggled :
  option_map (fun x => take 1 (snd x))
    (received (mime_msg toy_sender (toy_mail (lit "Ann" ++ CRLF ++ lit "." ++ CRLF ++ lit "MAIL FROM:<ceo@example.org>" ++ CRLF))
               ++ CRLF ++ lit "." ++ CRLF))
  = Some [lit "MAIL FROM:<ceo@example.org>"].
Proof. vm_compute. reflexivity. Qed.
End Email.
