(* ===== verification/I18n.v ===== *)
(** * I18n: translations

    backend/crates/common/src/i18n.rs: the locales, the catalog and its
    fallback.  No handler uses it. *)

From S2P Require Import Prelude Text Utf8.

Module I18n.

Inductive Locale := En | Es | Fr | De | Ja | Zh | Ko | Pt | Hi | Ar.

#[global] Instance Locale_eq : EqDecision Locale.
Proof. solve_decision. Defined.

Definition code (l : Locale) : rstr :=
  lit match l with
      | En => "en" | Es => "es" | Fr => "fr" | De => "de" | Ja => "ja"
      | Zh => "zh" | Ko => "ko" | Pt => "pt" | Hi => "hi" | Ar => "ar"
      end.

Section From.
Context {U : Unicode}.

Definition from_str (s : rstr) : Locale :=
  let p := to_lowercase (default (lit "en") (head (split_char (chr "-") s))) in
  if bool_decide (p = lit "es") then Es else if bool_decide (p = lit "fr") then Fr
  else if bool_decide (p = lit "de") then De else if bool_decide (p = lit "ja") then Ja
  else if bool_decide (p = lit "zh") then Zh else if bool_decide (p = lit "ko") then Ko
  else if bool_decide (p = lit "pt") then Pt else if bool_decide (p = lit "hi") then Hi
  else if bool_decide (p = lit "ar") then Ar else En.

Definition from_header (header : option rstr) : Locale :=
  match header with Some h => from_str h | None => En end.
End From.

(** ** The catalog *)

Definition Catalog := list (rstr * rstr).

Definition text (key value : string) : rstr * rstr := (lit key, Utf8.from_utf8_lossy (lit value)).

Definition english : Catalog := [
  text "auth.login_success" "Login successful";
  text "auth.invalid_credentials" "Invalid email or password";
  text "auth.token_expired" "Session expired, please login again";
  text "auth.mfa_required" "Multi-factor authentication required";
  text "file.upload_success" "File uploaded successfully";
  text "file.not_found" "File not found";
  text "file.quota_exceeded" "Storage quota exceeded";
  text "share.created" "Share link created";
  text "share.expired" "This share link has expired";
  text "backup.created" "Backup created successfully";
  text "backup.restored" "Backup restored successfully";
  text "notification.none" "No new notifications";
  text "error.internal" "An internal error occurred";
  text "error.forbidden" "You don't have permission";
  text "error.not_found" "Resource not found";
  text "error.validation" "Invalid input" ].

Definition spanish : Catalog := [
  text "auth.login_success" "Inicio de sesión exitoso";
  text "auth.invalid_credentials" "Email o contraseña incorrectos";
  text "file.upload_success" "Archivo subido correctamente";
  text "file.not_found" "Archivo no encontrado";
  text "file.quota_exceeded" "Cuota de almacenamiento excedida";
  text "error.internal" "Ocurrió un error interno";
  text "error.forbidden" "No tienes permiso" ].

Definition hindi : Catalog := [
  text "auth.login_success" "लॉगिन सफल";
  text "auth.invalid_credentials" "अमान्य ईमेल या पासवर्ड";
  text "file.upload_success" "फ़ाइल सफलतापूर्वक अपलोड हुई";
  text "error.internal" "एक आंतरिक त्रुटि हुई" ].

Record I18n := { translations : list (Locale * Catalog); default_locale : Locale }.

Definition new : I18n := {| translations := [(En, english); (Es, spanish); (Hi, hindi)]; default_locale := En |}.

(** HashMap::get: the key is there once. *)
Definition get {K V} `{EqDecision K} (k : K) (m : list (K * V)) : option V :=
  option_map snd (find (fun kv => bool_decide (fst kv = k)) m).

(** [self.translations.get(&locale)] and [catalog.get(key)]. *)
Definition entry (i : I18n) (l : Locale) (key : rstr) : option rstr := get l (translations i) ≫= get key.

Definition t (i : I18n) (l : Locale) (key : rstr) : rstr :=
  match entry i l key with
  | Some val => val
  | None => match entry i (default_locale i) key with Some val => val | None => key end
  end.

(** ** Properties *)

Lemma get_Some {K V} `{EqDecision K} (k : K) (v : V) m : get k m = Some v -> (k, v) ∈ m.
Proof.
  unfold get. destruct (find _ m) as [[k' v']|] eqn:F; [|done]. apply find_some in F as [I E%bool_decide_eq_true].
  cbn in *. intros [= <-]. subst. by apply list_elem_of_In.
Qed.

Lemma get_None {K V} `{EqDecision K} (k : K) (m : list (K * V)) : get k m = None -> k ∉ map fst m.
Proof.
  unfold get. destruct (find _ m) eqn:F; [done|]. intros _ (kv & -> & I)%list_elem_of_fmap.
  apply list_elem_of_In in I. pose proof (find_none _ _ F _ I) as B. by apply bool_decide_eq_false in B.
Qed.

Lemma entry_new l key v : entry new l key = Some v -> v <> [] /\ key ∈ map fst english.
Proof.
  unfold entry. assert (A : Forall (fun lc : Locale * Catalog => Forall (fun kv => snd kv <> [] /\ fst kv ∈ map fst english) (snd lc)) (translations new)).
  { apply (bool_decide_unpack _). vm_compute. exact I. }
  destruct (get l (translations new)) as [c|] eqn:G; [|done]. cbn [mbind option_bind]. intros H%get_Some.
  apply get_Some in G. rewrite Forall_forall in A. specialize (A _ G). rewrite Forall_forall in A. exact (A _ H).
Qed.

(** the fallback is complete.  For every locale, a key that any locale
    translates is given a text of the locale itself or of English, never empty;
    any other key is given back. *)
Theorem translation_complete l key :
  (In key (map fst english) ->
     exists v, t new l key = v /\ v <> [] /\ (entry new l key = Some v \/ entry new l key = None /\ entry new En key = Some v)) /\
  (~ In key (map fst english) -> t new l key = key) /\
  (forall l' v, entry new l' key = Some v -> In key (map fst english)).
Proof.
  unfold t. split; [|split].
  - intros K. destruct (entry new l key) as [v|] eqn:E.
    + exists v. split; [done|]. split; [by eapply entry_new|]. by left.
    + change (default_locale new) with En. destruct (entry new En key) as [v|] eqn:F.
      * exists v. split; [done|]. split; [by eapply entry_new|]. by right.
      * exfalso. apply (get_None _ _ F). by apply list_elem_of_In.
  - intros K. destruct (entry new l key) eqn:E; [destruct K; by apply list_elem_of_In, (entry_new l _ _ E)|].
    change (default_locale new) with En. destruct (entry new En key) eqn:F; [|done]. destruct K. by apply list_elem_of_In, (entry_new En _ _ F).
  - intros l' v E. by apply list_elem_of_In, (entry_new l' _ _ E).
Qed.

Section Headers.
Context {U : Unicode}.

Lemma head_split sep a b : sep ∉ a -> head (split_char sep (a ++ sep :: b)) = Some a /\ head (split_char sep a) = Some a.
Proof.
  induction a as [|c a IH]; intros N; cbn [app split_char].
  - rewrite Z.eqb_refl. done.
  - apply not_elem_of_cons in N as [N1 N2]. destruct (IH N2) as [H1 H2]. replace (c =? sep) with false by lia.
    destruct (split_char sep (a ++ sep :: b)), (split_char sep a); cbn in *; try done. by injection H1 as ->; injection H2 as ->.
Qed.

Lemma code_chars l : Forall (fun c => (97 <=? c) && (c <=? 122) = true) (code l).
Proof. apply (bool_decide_unpack _). by destruct l. Qed.

Lemma code_letters l s : map to_ascii_lowercase s = code l -> ascii_str s /\ chr "-" ∉ s.
Proof.
  intros E. pose proof (code_chars l) as F. rewrite <- E, Forall_map in F. change (chr "-") with 45. split.
  - eapply Forall_impl; [exact F|]. intros c. unfold compose, to_ascii_lowercase, is_ascii, is_ascii_upper. case_match; lia.
  - intros I. rewrite Forall_forall in F. specialize (F _ I). done.
Qed.

(** a language tag is understood.  The code of a locale, in any case and with
    any region behind a bar, is read as that locale. *)
Theorem tag_roundtrip l s region :
  map to_ascii_lowercase s = code l -> from_header (Some s) = l /\ from_header (Some (s ++ chr "-" :: region)) = l.
Proof.
  intros E. destruct (code_letters l s E) as [A N]. destruct (head_split (chr "-") s region N) as [H1 H2].
  unfold from_header, from_str. rewrite H1, H2. cbn [default from_option id]. rewrite (to_lowercase_ascii s A), E. by destruct l.
Qed.
End Headers.

Lemma tag_roundtrip_witness :
  from_header (U := ascii_unicode) (Some (lit "HI")) = Hi /\ from_header (U := ascii_unicode) (Some (lit "HI" ++ chr "-" :: lit "IN")) = Hi.
Proof. apply (tag_roundtrip (U := ascii_unicode) Hi (lit "HI") (lit "IN")). vm_compute. reflexivity. Defined.

(** a list of languages is not understood.  What browsers send names
    several languages, with weights: it is read as English. *)
Theorem header_list_is_english :
  from_header (U := ascii_unicode) (Some (lit "es,en;q=0.9")) = En /\ from_header (U := ascii_unicode) (Some (lit "es;q=1")) = En /\
  from_header (U := ascii_unicode) (Some (lit "es-MX,es;q=0.9")) = Es.
Proof. by vm_compute. Qed.
End I18n.
