(* ===== verification/Plugin.v ===== *)
(** * Plugin: the plugin registry

    backend/crates/common/src/plugin.rs: the hooks, the registry and the
    dispatch.  A plugin is code from elsewhere: its manifest and its three
    functions are what is registered, as programs over any state.  The registry
    is in no handler. *)

From S2P Require Import Prelude Text Effects Json.

Module Plugin.

Inductive HookType :=
  | BeforeUpload | AfterUpload | BeforeDownload | AfterDelete | OnSearch | OnShare | OnNotification | OnSchedule.

#[global] Instance HookType_eq : EqDecision HookType.
Proof. solve_decision. Defined.

Record PluginManifest := { id : rstr; name : rstr; version : rstr; description : rstr; author : rstr; hooks : list HookType }.

Record HookContext := {
  user_id : Z; file_id : option Z; file_name : option rstr; mime_type : option rstr; metadata : Json.Value }.

Record HookResult := { allow : bool; modified_data : option Json.Value; hook_message : option rstr }.

Definition hook_default : HookResult := {| allow := true; modified_data := None; hook_message := None |}.

Section Registry.
Context {D : Type}.

(** The trait; an error of a plugin is its text. *)
Record Plugin := {
  manifest : PluginManifest;
  on_load : M D (rstr + unit);
  on_hook : HookType -> HookContext -> M D HookResult;
  on_unload : M D (rstr + unit) }.

(** A plugin that implements its manifest only. *)
Definition plugin_default (m : PluginManifest) : Plugin :=
  {| manifest := m; on_load := mret (inr tt); on_hook := fun _ _ => mret hook_default; on_unload := mret (inr tt) |}.

Definition PluginRegistry := list Plugin.

Definition new : PluginRegistry := [].

Definition register (r : PluginRegistry) (p : Plugin) : PluginRegistry := r ++ [p].

Definition subscribed (hook : HookType) (p : Plugin) : bool := existsb (fun h => bool_decide (h = hook)) (hooks (manifest p)).

Fixpoint dispatch (r : PluginRegistry) (hook : HookType) (ctx : HookContext) : M D (list HookResult) :=
  match r with
  | [] => mret []
  | p :: r =>
      if subscribed hook p then
        result ← on_hook p hook ctx;
        results ← dispatch r hook ctx;
        mret (result :: results)
      else dispatch r hook ctx
  end.

Definition check_allowed (r : PluginRegistry) (hook : HookType) (ctx : HookContext) : M D bool :=
  results ← dispatch r hook ctx;
  mret (forallb allow results).

Definition count (r : PluginRegistry) : nat := length r.

(** ** Properties *)

(** The runs of the subscribed plugins, one after the other. *)
Inductive ran (hook : HookType) (ctx : HookContext) : list Plugin -> World D -> list HookResult -> World D -> Prop :=
  | ran_nil w : ran hook ctx [] w [] w
  | ran_cons p ps w r w1 rs w2 :
      on_hook p hook ctx w = (Ok r, w1) -> ran hook ctx ps w1 rs w2 -> ran hook ctx (p :: ps) w (r :: rs) w2.

Lemma dispatch_ran r hook ctx w rs w' :
  dispatch r hook ctx w = (Ok rs, w') <-> ran hook ctx (List.filter (subscribed hook) r) w rs w'.
Proof.
  revert w rs. induction r as [|p r IH]; intros w rs; cbn [dispatch List.filter].
  - split; [intros [? ?]%ret_Ok; subst; constructor|]. by inversion 1.
  - destruct (subscribed hook p); [|apply IH]. split.
    + intros R. run_ok R. econstructor; [done|]. by apply IH.
    + inversion 1 as [|? ? ? ? ? ? ? H1 H2]; subst. unfold mbind, M_bind. rewrite H1. apply IH in H2. by rewrite H2.
Qed.

Lemma dispatch_app r1 r2 hook ctx w :
  dispatch (r1 ++ r2) hook ctx w = (rs1 ← dispatch r1 hook ctx; rs2 ← dispatch r2 hook ctx; mret (rs1 ++ rs2)) w.
Proof.
  revert w. induction r1 as [|p r1 IH]; intros w; cbn [app dispatch].
  - unfold mbind, M_bind, mret, M_ret. destruct (dispatch r2 hook ctx w) as [[] ?]; done.
  - destruct (subscribed hook p); [|apply IH]. unfold mbind, M_bind in *. destruct (on_hook p hook ctx w) as [[r| | |] w1]; [|done..].
    rewrite IH. destruct (dispatch r1 hook ctx w1) as [[rs1| | |] w2]; [|done..].
    unfold mret, M_ret. by destruct (dispatch r2 hook ctx w2) as [[] ?].
Qed.

(** every subscriber decides.  The check of an operation runs each plugin
    that asked for the hook, once, in the order of their registration and no
    other one, also after one of them has refused; it allows the operation if
    and only if all of them do. *)
Theorem check_allowed_spec r hook ctx w b w' :
  check_allowed r hook ctx w = (Ok b, w') <->
  exists rs, ran hook ctx (List.filter (subscribed hook) r) w rs w' /\
    length rs = length (List.filter (subscribed hook) r) /\ (b = true <-> Forall (fun x => allow x = true) rs).
Proof.
  assert (L : forall ps w rs w', ran hook ctx ps w rs w' -> length rs = length ps) by (induction 1; cbn; congruence).
  assert (A : forall rs : list HookResult, forallb allow rs = true <-> Forall (fun x => allow x = true) rs).
  { intros rs. rewrite forallb_forall, Forall_forall. by setoid_rewrite list_elem_of_In. }
  unfold check_allowed. split.
  - intros R. run_ok R. apply dispatch_ran in Hm. eexists. split; [done|]. split; [by eapply L|apply A].
  - intros (rs & H & _ & E). apply dispatch_ran in H. unfold mbind, M_bind. rewrite H. unfold mret, M_ret.
    f_equal. f_equal. apply eq_true_iff_eq. by rewrite A, E.
Qed.

(** registering is additive.  A plugin that is registered last runs after all
    others, and a plugin that asks for nothing changes no check. *)
Theorem register_spec r p hook ctx w :
  count (register r p) = S (count r) /\
  dispatch (register r p) hook ctx w =
    (rs ← dispatch r hook ctx; if subscribed hook p then x ← on_hook p hook ctx; mret (rs ++ [x]) else mret rs) w /\
  (hooks (manifest p) = [] -> check_allowed (register r p) hook ctx w = check_allowed r hook ctx w).
Proof.
  assert (E : dispatch (register r p) hook ctx w =
    (rs ← dispatch r hook ctx; if subscribed hook p then x ← on_hook p hook ctx; mret (rs ++ [x]) else mret rs) w).
  { unfold register. rewrite dispatch_app. cbn [dispatch]. unfold mbind, M_bind, mret, M_ret.
    destruct (dispatch r hook ctx w) as [[rs| | |] w1]; [|done..]. destruct (subscribed hook p); [|by rewrite app_nil_r].
    by destruct (on_hook p hook ctx w1) as [[] ?]. }
  split; [|split; [exact E|]].
  - unfold count, register. rewrite length_app. cbn. lia.
  - intros N. unfold check_allowed. unfold mbind, M_bind in *. rewrite E. unfold subscribed. rewrite N. cbn [existsb].
    unfold mret, M_ret. by destruct (dispatch r hook ctx w) as [[] ?].
Qed.
End Registry.
End Plugin.
