(* ===== verification/Cluster.v ===== *)
(** * Cluster: protection modes, replicas and the export of an account

    backend/crates/gateway/src/cluster.rs.  Minutes are f64, the IEEE numbers of
    the Standard Library. *)

From Stdlib Require Import Floats.SpecFloat.
From S2P Require Import Prelude Text Tables Effects Externals Schema Auth Files Tree Device Sync.

Module Cluster.
Import Files.

Record ClusterStatusResponse := {
  protection_mode : rstr; health_status : rstr; rpo_target_minutes : Z; rto_target_minutes : Z;
  measured_rpo_minutes : spec_float; measured_rto_minutes : spec_float; online_nodes : Z; total_replicas : Z;
  auto_rebalance : bool; last_health_check : Z }.

Record UpdateModeResponse := { new_mode : rstr; new_rpo : Z; new_rto : Z; mode_updated_at : Z }.

Record RebalanceResponse := { rebalanced_count : Z; verified_count : Z; nodes : Z }.

(** ** Minutes *)

Definition f64_of (z : Z) : spec_float := binary_normalize 53 1024 z 0 false.
Definition add64 : spec_float -> spec_float -> spec_float := SFadd 53 1024.
Definition div64 : spec_float -> spec_float -> spec_float := SFdiv 53 1024.
Definition max64 (a b : spec_float) : spec_float := if SFltb a b then b else a.
(** the f64 nearest to 0.1, and 1.5 *)
Definition F01 : spec_float := S754_finite false 7205759403792794 (-56).
Definition F15 : spec_float := S754_finite false 6755399441055744 (-52).

(** Duration::num_seconds: towards zero. *)
Definition num_seconds (microseconds : Z) : Z := Z.quot microseconds 1000000.

Section Cluster.
Context {O : Oracle} {UT : UuidText}.

Definition of_user (u : Z) (c : ClusterProtection.row) : bool := ClusterProtection.user_id c =? u.
Definition online (u : Z) (d : Device.row) : bool := (Device.user_id d =? u) && Device.is_online d.

(** file_replicas JOIN file_entries of the user *)
Definition replicas_of_user (u : Z) (s : Server) : Z :=
  Z.of_nat (length (flat_map (fun r => select (fun f => has_id (FileReplica.file_id r) f && owned_by u f) (file_entries s))
                             (file_replicas s))).

Definition protection (u : Z) : M Server (option ClusterProtection.row) :=
  query (fun s => find_row (of_user u) (cluster_protection s)).

Definition health (mode stored : rstr) (nodes : Z) : rstr :=
  if nodes =? 0 then lit "offline"
  else if bool_decide (mode = lit "two_node_protection") && (nodes <? 2) then lit "degraded"
  else if bool_decide (mode = lit "multi_node_mesh") && (nodes <? 3) then lit "at_risk"
  else stored.

Definition measured_rpo (nodes : Z) (diff_mins : spec_float) : spec_float :=
  if nodes =? 0 then max64 (add64 diff_mins (f64_of 1)) F01 else f64_of 0.

Definition measured_rto (mode : rstr) (nodes : Z) (diff_mins : spec_float) : spec_float :=
  if bool_decide (mode = lit "single_device") then f64_of 0
  else if 0 <? nodes then F15 else add64 diff_mins F15.

Definition get_cluster_status (u : Z) : M Server ClusterStatusResponse :=
  cluster_row ← protection u;
  n ← unwrap_or (query (fun s => count_rows (online u) (devices s))) 0;
  total ← unwrap_or (query (replicas_of_user u)) 0;
  let '(mode, rpo, rto, auto_reb, last_check, stored) :=
    match cluster_row with
    | Some r => (ClusterProtection.protection_mode r, ClusterProtection.rpo_target_minutes r,
                 ClusterProtection.rto_target_minutes r, ClusterProtection.auto_rebalance r,
                 ClusterProtection.last_health_check r, ClusterProtection.health_status r)
    | None => (lit "single_device", 1440, 120, true, None, lit "healthy")
    end in
  now ← utc_now;
  let diff_mins := match last_check with
                   | Some t => max64 (div64 (f64_of (num_seconds (now - t))) (f64_of 60)) (f64_of 0)
                   | None => f64_of 0
                   end in
  shown ← match last_check with Some t => mret t | None => utc_now end;
  mret {| protection_mode := mode; health_status := health mode stored n; rpo_target_minutes := rpo;
          rto_target_minutes := rto; measured_rpo_minutes := measured_rpo n diff_mins;
          measured_rto_minutes := measured_rto mode n diff_mins; online_nodes := n; total_replicas := total;
          auto_rebalance := auto_reb; last_health_check := shown |}.

(** The recovery targets of a mode: data lost and time lost, in minutes. *)
Definition targets (mode : rstr) : Z * Z :=
  if bool_decide (mode = lit "two_node_protection") then (15, 5)
  else if bool_decide (mode = lit "always_on_nas") then (5, 1)
  else if bool_decide (mode = lit "multi_node_mesh") then (1, 1) else (1440, 120).

Definition set_mode (u : Z) (mode : rstr) (now : Z) (s : Server) : Server :=
  let '(rpo, rto) := targets mode in
  set_cluster_protection
    (if exists_row (of_user u) (cluster_protection s)
     then update (of_user u) (fun r =>
            ClusterProtection.set_updated_at now (ClusterProtection.set_rto_target_minutes rto
              (ClusterProtection.set_rpo_target_minutes rpo (ClusterProtection.set_protection_mode mode r))))
            (cluster_protection s)
     else insert_row {| ClusterProtection.user_id := u; ClusterProtection.protection_mode := mode;
            ClusterProtection.rpo_target_minutes := rpo; ClusterProtection.rto_target_minutes := rto;
            ClusterProtection.auto_rebalance := true; ClusterProtection.last_health_check := Some now;
            ClusterProtection.health_status := lit "healthy"; ClusterProtection.updated_at := now |}
            (cluster_protection s)) s.

Definition update_cluster_mode (u : Z) (requested : option rstr) : M Server UpdateModeResponse :=
  let mode := default (lit "single_device") requested in
  now ← utc_now;
  _ ← execute schema_ok (fun _ s => (tt, set_mode u mode now s));
  mret {| new_mode := mode; new_rpo := fst (targets mode); new_rto := snd (targets mode); mode_updated_at := now |}.

(** ** Replicas *)

Definition live_of (u : Z) (f : FileEntry.row) : bool := owned_by u f && negb (FileEntry.is_trashed f).
Definition replica_of (file_id : Z) (r : FileReplica.row) : bool := FileReplica.file_id r =? file_id.

Definition rep_id (i : Z) : rstr := lit "rep_" ++ uuid_to_string i.
Definition node_id (device : Z) : rstr := lit "node_" ++ uuid_to_string device.

Definition replica_at (file_id device : Z) (r : FileReplica.row) : bool :=
  replica_of file_id r && bool_decide (FileReplica.storage_node_id r = node_id device).

Definition target_replicas (mode : rstr) : Z :=
  if bool_decide (mode = lit "two_node_protection") || bool_decide (mode = lit "always_on_nas") then 2
  else if bool_decide (mode = lit "multi_node_mesh") then 3 else 1.

Definition new_replica (i file_id device : Z) (chk : rstr) (now : Z) : FileReplica.row :=
  {| FileReplica.id := rep_id i; FileReplica.file_id := file_id; FileReplica.storage_node_id := node_id device;
     FileReplica.device_id := device; FileReplica.status := lit "synced"; FileReplica.checksum := chk;
     FileReplica.verified_at := now; FileReplica.created_at := now |}.

(** INSERT ... ON CONFLICT(file_id, storage_node_id) DO NOTHING, with the rows
    affected. *)
Definition insert_replica (i file_id device : Z) (chk : rstr) (now : Z) (s : Server) : Z * Server :=
  if exists_row (replica_at file_id device) (file_replicas s) then (0, s)
  else (1, set_file_replicas (insert_row (new_replica i file_id device chk now) (file_replicas s)) s).

(** The loop over the devices, left at the first that took a replica. *)
Fixpoint place (file_id : Z) (chk : rstr) (devices : list Z) : M Server bool :=
  match devices with
  | [] => mret false
  | d :: rest =>
      i ← new_v4;
      inserted ← attempt (execute schema_ok (insert_replica i file_id d chk));
      match inserted with
      | Some n => if 0 <? n then mret true else place file_id chk rest
      | None => place file_id chk rest
      end
  end.

(** One turn of the loop over the files: whether a replica was added. *)
Definition reconcile_file (target : Z) (devices : list Z) (f : FileEntry.row) : M Server bool :=
  if (1 <? target) && (1 <? Z.of_nat (length devices)) then
    rep_count ← unwrap_or (query (fun s => count_rows (replica_of (FileEntry.id f)) (file_replicas s))) 0;
    if rep_count <? target
    then place (FileEntry.id f) (default (lit "verified") (FileEntry.sha256_hash f)) devices
    else mret false
  else mret false.

Fixpoint reconcile (target : Z) (devices : list Z) (files : list FileEntry.row) (count : Z) : M Server Z :=
  match files with
  | [] => mret count
  | f :: rest =>
      placed ← reconcile_file target devices f;
      reconcile target devices rest (if placed : bool then count + 1 else count)
  end.

Definition checked_now (now : Z) (r : ClusterProtection.row) : ClusterProtection.row :=
  ClusterProtection.set_health_status (lit "healthy") (ClusterProtection.set_last_health_check (Some now) r).

Definition rebalance_cluster (u : Z) : M Server RebalanceResponse :=
  files ← query (fun s => select (live_of u) (file_entries s));
  ds ← query (fun s => map Device.id (select (online u) (devices s)));
  cluster_mode ← protection u;
  let mode := match cluster_mode with Some r => ClusterProtection.protection_mode r | None => lit "single_device" end in
  rebalanced ← reconcile (target_replicas mode) ds files 0;
  _ ← execute schema_ok (fun now s =>
        (tt, set_cluster_protection (update (of_user u) (checked_now now) (cluster_protection s)) s));
  mret {| rebalanced_count := rebalanced; verified_count := Z.of_nat (length files); nodes := Z.of_nat (length ds) |}.

(** ** Export *)

Record Export := {
  exported_user : option (Z * rstr * rstr * rstr); exported_files : list (Z * rstr * Z * option rstr * Z);
  exported_devices : list (Z * rstr * rstr * bool) }.

Definition export_cloud_data (u : Z) : M Server Export :=
  user ← query (fun s => option_map (fun x => (User.id x, User.email x, User.display_name x, User.role x))
                           (find_row (fun x => User.id x =? u) (users s)));
  files ← query (fun s => map (fun f => (FileEntry.id f, FileEntry.name f, FileEntry.size_bytes f, FileEntry.mime_type f,
                                         FileEntry.created_at f)) (select (live_of u) (file_entries s)));
  ds ← query (fun s => map (fun d => (Device.id d, Device.name d, Device.device_type d, Device.is_online d))
                         (select (fun d => Device.user_id d =? u) (devices s)));
  mret {| exported_user := user; exported_files := files; exported_devices := ds |}.

Inductive op := Status | Mode (requested : option rstr) | Rebalance | ExportData.

Definition run_op (u : Z) (o : op) : M Server unit :=
  match o with
  | Status => _ ← get_cluster_status u; mret tt
  | Mode m => _ ← update_cluster_mode u m; mret tt
  | Rebalance => _ ← rebalance_cluster u; mret tt
  | ExportData => _ ← export_cloud_data u; mret tt
  end.

(** ** How replicas spread *)

(** The version 4 identifiers drawn from here to interaction [L] are new. *)
Definition fresh_ids (L : nat) (w : World Server) : Prop :=
  (forall n, (pos w <= n < L)%nat -> is_uuid (uuid_at n))
  /\ (forall m n, (pos w <= m < L)%nat -> (pos w <= n < L)%nat -> uuid_at m = uuid_at n -> m = n)
  /\ forall r n, r ∈ file_replicas (data w) -> (pos w <= n < L)%nat -> FileReplica.id r <> rep_id (uuid_at n).

(** The interactions of a turn of the loop, at most: the count, and an
    identifier and a statement for each device. *)
Definition turn (ds : list Z) : nat := 1 + 2 * length ds.

(** The caller's devices and files, and the schema, as the loops meet them. *)
Definition ready (s : Server) (ds : list Z) : Prop :=
  schema_ok s = true /\ Forall (fun d => is_uuid d /\ refers Device.id (devices s) d = true) ds.

Definition file_there (s : Server) (f : FileEntry.row) : Prop := f ∈ file_entries s.

Definition chk_of (f : FileEntry.row) : rstr := default (lit "verified") (FileEntry.sha256_hash f).

Lemma short_id p u : Z.of_nat (length p) <= 28 -> varchar 64 (p ++ uuid_to_string u) = true.
Proof. intros Hp. unfold varchar. rewrite length_app, uuid_to_string_length. lia. Qed.

Lemma varchar_le m n s : m <= n -> varchar m s = true -> varchar n s = true.
Proof. unfold varchar. lia. Qed.

Lemma checksum_fits s f : schema_ok s = true -> f ∈ file_entries s -> varchar 128 (chk_of f) = true.
Proof.
  unfold schema_ok, rows_ok. rewrite !andb_true_iff. intros [_ R] Hf. assert (E : file_entry_ok s f = true).
  { assert (F : forallb (file_entry_ok s) (file_entries s) = true) by tauto. rewrite forallb_forall in F. by apply F, list_elem_of_In. }
  clear R. unfold file_entry_ok in E. rewrite !andb_true_iff in E. assert (H : opt_all (varchar 64) (FileEntry.sha256_hash f) = true) by tauto.
  clear E. unfold chk_of. destruct (FileEntry.sha256_hash f) as [h|]; [|done]. cbn [default opt_all] in *. eapply varchar_le; [|exact H]. lia.
Qed.

Lemma refers_in {A} (key : A -> Z) t r : r ∈ t -> refers key t (key r) = true.
Proof. intros H. unfold refers. apply existsb_exists. exists r. split; [by apply list_elem_of_In|by apply Z.eqb_eq]. Qed.

Lemma schema_insert_replica s f d i chk now :
  schema_ok s = true -> f ∈ file_entries s -> refers Device.id (devices s) d = true ->
  (chk = chk_of f) -> (forall r, r ∈ file_replicas s -> FileReplica.id r <> rep_id i) ->
  exists_row (replica_at (FileEntry.id f) d) (file_replicas s) = false ->
  schema_ok (set_file_replicas (insert_row (new_replica i (FileEntry.id f) d chk now) (file_replicas s)) s) = true.
Proof.
  intros Sc Hf Hd -> Fi Fd. assert (Cf := checksum_fits _ _ Sc Hf). unfold schema_ok in *. apply andb_true_iff in Sc as [K R].
  unfold keys_ok, rows_ok in *. rewrite !andb_true_iff in *. destruct_and!.
  split_and!; try assumption.
  - apply unique_insert; [assumption|]. intros r Hr. cbn. by apply Fi.
  - apply unique_insert; [assumption|]. intros r Hr E. cbn in E. injection E as E1 E2.
    rewrite exists_row_false in Fd. specialize (Fd r Hr). unfold replica_at, replica_of in Fd.
    rewrite E1, Z.eqb_refl, E2, bool_decide_eq_true_2 in Fd by done. done.
  - apply forallb_insert; [assumption|]. unfold file_replica_ok, new_replica.
    cbn [FileReplica.id FileReplica.storage_node_id FileReplica.status FileReplica.checksum FileReplica.file_id FileReplica.device_id].
    cbn [file_entries devices set_file_replicas]. rewrite (refers_in FileEntry.id _ f Hf), Hd.
    unfold rep_id, node_id. rewrite !short_id by (vm_compute; discriminate). cbn [andb].
    rewrite Cf. done.
Qed.

Definition replicas (g : Z) (s : Server) : Z := count_rows (replica_of g) (file_replicas s).
Definition has_replica (g d : Z) (s : Server) : bool := exists_row (replica_at g d) (file_replicas s).

(** A device without a replica of the file. *)
Definition free (ds : list Z) (g : Z) (s : Server) : bool := existsb (fun d => negb (has_replica g d s)) ds.

(** Whether a run adds a replica of the file. *)
Definition needs (target : Z) (ds : list Z) (g : Z) (s : Server) : bool := (replicas g s <? target) && free ds g s.

Lemma refers_devices s ds : ready s ds -> forall d, d ∈ ds -> refers Device.id (devices s) d = true.
Proof. intros [_ F] d Hd. rewrite Forall_forall in F. by apply F. Qed.

Lemma fresh_later L w k : fresh_ids L w -> (pos w <= k)%nat -> fresh_ids L (mkWorld (data w) k).
Proof.
  intros (U & V & F) Hk. unfold fresh_ids. cbn [data pos]. split; [intros n Hn; apply U; lia|].
  split; [intros m n Hm Hn; apply V; lia|]. intros r n Hr Hn. apply F; [done|lia].
Qed.

Lemma fresh_insert L w j f d chk now k : fresh_ids L w -> (pos w <= j < k)%nat -> (k <= L)%nat ->
  fresh_ids L (mkWorld (set_file_replicas (insert_row (new_replica (uuid_at j) f d chk now) (file_replicas (data w))) (data w)) k).
Proof.
  intros (U & V & F) Hj Hk. unfold fresh_ids. cbn [data pos file_replicas set_file_replicas]. split; [intros n Hn; apply U; lia|].
  split; [intros m n Hm Hn; apply V; lia|]. intros r n Hr Hn.
  apply elem_insert in Hr as [Hr| ->]; [apply F; [done|lia]|]. cbn [FileReplica.id new_replica]. unfold rep_id. intros E.
  apply app_inv_head in E. apply uuid_text_inj in E; [|apply U; lia..]. apply V in E; lia.
Qed.

Lemma ready_insert s ds f j d now : ready s ds -> f ∈ file_entries s -> d ∈ ds ->
  (forall r, r ∈ file_replicas s -> FileReplica.id r <> rep_id j) -> has_replica (FileEntry.id f) d s = false ->
  ready (set_file_replicas (insert_row (new_replica j (FileEntry.id f) d (chk_of f) now) (file_replicas s)) s) ds.
Proof.
  intros Rd Hf Hd Fj Nd. assert (Hr := refers_devices _ _ Rd _ Hd). destruct Rd as [Sc F]. split; [|exact F].
  by apply schema_insert_replica.
Qed.

(** The loop over the devices: nothing when all hold a replica, and else one
    more, on a device that held none. *)
Lemma place_run L f ds all w :
  reliable O -> fresh_ids L w -> (pos w + 2 * length ds <= L)%nat -> ready (data w) all -> f ∈ file_entries (data w) -> (forall d, d ∈ ds -> d ∈ all) ->
  exists k, (pos w <= k <= pos w + 2 * length ds)%nat
  /\ ((free ds (FileEntry.id f) (data w) = false /\ place (FileEntry.id f) (chk_of f) ds w = (Ok false, mkWorld (data w) k))
      \/ (free ds (FileEntry.id f) (data w) = true /\ exists j d now,
            (pos w <= j < k)%nat /\ d ∈ all /\ has_replica (FileEntry.id f) d (data w) = false
            /\ place (FileEntry.id f) (chk_of f) ds w
               = (Ok true, mkWorld (set_file_replicas (insert_row (new_replica (uuid_at j) (FileEntry.id f) d (chk_of f) now)
                                     (file_replicas (data w))) (data w)) k))).
Proof.
  intros R Fr Bd Rd Hf. revert w Fr Bd Rd Hf. induction ds as [|d rest IH]; intros w Fr Bd Rd Hf Sub.
  { exists (pos w). split; [lia|]. left. split; [done|]. cbn [place]. unfold mret, M_ret. by destruct w. }
  cbn [length] in *. cbn [place]. set (w1 := mkWorld (data w) (S (pos w))).
  unfold free. cbn [existsb]. destruct (has_replica (FileEntry.id f) d (data w)) eqn:X; cbn [negb orb].
  - assert (A : attempt (execute schema_ok (insert_replica (uuid_at (pos w)) (FileEntry.id f) d (chk_of f))) w1
      = (Ok (Some 0), mkWorld (data w) (S (S (pos w))))).
    { unfold attempt, unwrap_or, mbind, M_bind, execute, statement, checked, insert_replica. rewrite (proj1 (R _)).
      unfold has_replica in X. cbn [data w1 pos]. rewrite X. cbn [fst snd]. rewrite (proj1 Rd). reflexivity. }
    destruct (IH (mkWorld (data w) (S (S (pos w))))) as (k & Hk & C); [apply fresh_later; [done|lia]|cbn [pos]; lia|done|done|intros y Hy; apply Sub; by right|].
    assert (Step : forall r, place (FileEntry.id f) (chk_of f) rest (mkWorld (data w) (S (S (pos w)))) = r ->
      place (FileEntry.id f) (chk_of f) (d :: rest) w = r).
    { intros r Er. cbn [place]. eapply bind_run; [reflexivity|]. eapply bind_run; [exact A|]. exact Er. }
    exists k. split; [cbn in Hk; lia|]. destruct C as [[E P]|(E & j & d' & now & Lj & Hd & Nd & P)].
    + left. split; [exact E|exact (Step _ P)].
    + right. split; [exact E|]. exists j, d', now. split; [cbn in Lj; lia|]. split; [done|]. split; [done|exact (Step _ P)].
  - exists (S (S (pos w))). split; [lia|]. right. split; [done|]. exists (pos w), d, (clock_at (S (pos w))).
    split; [lia|]. split; [apply Sub; by left|]. split; [done|].
    assert (Lt : (pos w < L)%nat) by lia.
    assert (Rd' := ready_insert _ _ f (uuid_at (pos w)) d (clock_at (S (pos w))) Rd Hf (Sub d ltac:(by left))
      (fun r Hr => proj2 (proj2 Fr) r (pos w) Hr (conj (le_n _) Lt)) X).
    eapply bind_run; [reflexivity|]. fold w1.
    unfold attempt, unwrap_or, mbind, M_bind, execute, statement, checked, insert_replica. rewrite (proj1 (R _)).
    unfold has_replica in X. cbn [data w1 pos]. rewrite X. cbn [fst snd]. rewrite (proj1 Rd'). reflexivity.
Qed.

Lemma reconcile_file_run L target ds f w :
  reliable O -> fresh_ids L w -> (pos w + turn ds <= L)%nat -> ready (data w) ds -> f ∈ file_entries (data w) -> 1 < target -> 1 < Z.of_nat (length ds) ->
  exists w1, reconcile_file target ds f w = (Ok (needs target ds (FileEntry.id f) (data w)), w1)
    /\ fresh_ids L w1 /\ (pos w1 <= pos w + turn ds)%nat /\ ready (data w1) ds
    /\ (needs target ds (FileEntry.id f) (data w) = false /\ data w1 = data w
        \/ needs target ds (FileEntry.id f) (data w) = true
           /\ exists r, data w1 = set_file_replicas (insert_row r (file_replicas (data w))) (data w)
                        /\ FileReplica.file_id r = FileEntry.id f).
Proof.
  intros R Fr Bd Rd Hf T D. unfold turn in *. unfold reconcile_file. replace ((1 <? target) && _) with true by lia.
  unfold mbind at 1, M_bind at 1, unwrap_or at 1, query, statement at 1. rewrite (proj1 (R _)).
  change (count_rows _ _) with (replicas (FileEntry.id f) (data w)). unfold needs.
  set (w0 := mkWorld (data w) (S (pos w))). assert (Fr0 : fresh_ids L w0) by (apply fresh_later; [done|lia]).
  destruct (replicas (FileEntry.id f) (data w) <? target); cbn [andb]; [|exists w0; unfold mret, M_ret; split; [done|]; split; [done|]; split; [cbn; lia|]; split; [done|by left]].
  destruct (place_run L f ds ds w0 R Fr0 ltac:(cbn; lia) Rd Hf (fun d H => H)) as (k & Hk & [[E P]|(E & j & d & now & Lj & Hd & Nd & P)]);
    cbn [data pos w0] in *; rewrite E.
  - exists (mkWorld (data w) k). split; [exact P|]. split; [apply (fresh_later L w0); [done|cbn; lia]|]. split; [cbn; lia|]. split; [done|by left].
  - eexists. split; [exact P|]. split; [apply (fresh_insert L w0); [done|cbn; lia..]|]. split; [cbn; lia|]. split.
    + apply ready_insert; try done. intros r Hr. apply Fr; [done|lia].
    + right. split; [done|]. eexists. split; [reflexivity|done].
Qed.

Lemma replicas_insert g r s :
  replicas g (set_file_replicas (insert_row r (file_replicas s)) s) = replicas g s + (if FileReplica.file_id r =? g then 1 else 0).
Proof.
  unfold replicas, count_rows, insert_row, select. cbn [file_replicas set_file_replicas]. rewrite List.filter_app, length_app.
  cbn [List.filter]. unfold replica_of at 2. destruct (FileReplica.file_id r =? g); cbn [length]; lia.
Qed.

Lemma has_replica_insert g d r s : FileReplica.file_id r <> g ->
  has_replica g d (set_file_replicas (insert_row r (file_replicas s)) s) = has_replica g d s.
Proof.
  intros N. unfold has_replica, exists_row, insert_row. cbn [file_replicas set_file_replicas]. rewrite existsb_app. cbn [existsb].
  unfold replica_at at 2, replica_of. apply Z.eqb_neq in N. rewrite N. cbn. by rewrite orb_false_r.
Qed.

(** What a step on the replicas leaves of those of [g]. *)
Definition untouched (g : Z) (s s' : Server) : Prop :=
  replicas g s' = replicas g s /\ forall d, has_replica g d s' = has_replica g d s.

Lemma untouched_needs target ds g s s' : untouched g s s' -> needs target ds g s' = needs target ds g s.
Proof.
  intros [E H]. unfold needs, free. rewrite E. f_equal. induction ds as [|d l IH]; [done|]. cbn. by rewrite H, IH.
Qed.

(** What the loop over [l] does to the data. *)
Definition spread (target : Z) (ds : list Z) (l : list FileEntry.row) (s s' : Server) : Prop :=
  (exists t, s' = set_file_replicas t s)
  /\ (forall f, f ∈ l -> replicas (FileEntry.id f) s' = replicas (FileEntry.id f) s + (if needs target ds (FileEntry.id f) s then 1 else 0))
  /\ (forall g, g ∉ map FileEntry.id l -> untouched g s s').

Lemma reconcile_run L target ds l c w :
  reliable O -> fresh_ids L w -> (pos w + length l * turn ds <= L)%nat -> ready (data w) ds -> (forall f, f ∈ l -> f ∈ file_entries (data w)) ->
  base.NoDup (map FileEntry.id l) -> 1 < target -> 1 < Z.of_nat (length ds) ->
  exists w', reconcile target ds l c w
             = (Ok (c + Z.of_nat (length (List.filter (fun f => needs target ds (FileEntry.id f) (data w)) l))), w')
    /\ fresh_ids L w' /\ (pos w' <= pos w + length l * turn ds)%nat /\ ready (data w') ds /\ spread target ds l (data w) (data w').
Proof.
  intros R. revert c w. induction l as [|f l IH]; intros c w Fr Bd Rd Hl Nd T D; cbn [reconcile].
  { exists w. cbn [List.filter length Z.of_nat]. rewrite Z.add_0_r. split; [done|]. split; [done|]. split; [lia|]. split; [done|].
    split; [by exists (file_replicas (data w)); destruct (data w)|]. split; [intros f Hf; by apply elem_of_nil in Hf|by split]. }
  cbn [map length Nat.mul] in *. apply NoDup_cons in Nd as [Nf Nd].
  destruct (reconcile_file_run L target ds f w R Fr ltac:(lia) Rd (Hl f ltac:(by left)) T D) as (w1 & E1 & Fr1 & Bd1 & Rd1 & C).
  set (b := needs target ds (FileEntry.id f) (data w)) in *.
  assert (G : (exists t, data w1 = set_file_replicas t (data w))
    /\ replicas (FileEntry.id f) (data w1) = replicas (FileEntry.id f) (data w) + (if b then 1 else 0)
    /\ forall g, g <> FileEntry.id f -> untouched g (data w) (data w1)).
  { destruct C as [[Eb Ed]|(Eb & r & Ed & Er)]; rewrite Eb, Ed.
    - split; [by exists (file_replicas (data w)); destruct (data w)|]. split; [lia|by split].
    - split; [by eexists|]. split; [rewrite replicas_insert, Er, Z.eqb_refl; lia|]. intros g Ng.
      split; [rewrite replicas_insert; destruct (Z.eqb_spec (FileReplica.file_id r) g); [congruence|lia]|].
      intros d. apply has_replica_insert. congruence. }
  clear C. destruct G as ((t1 & D1) & Cf & Un).
  destruct (IH (if b then c + 1 else c) w1 Fr1 ltac:(lia) Rd1) as (w' & E2 & Fr2 & Bd2 & Rd2 & (t2 & D2) & C2 & U2); [|done|done|done|].
  { intros x Hx. rewrite D1. cbn [file_entries set_file_replicas]. apply Hl. by right. }
  assert (Ne : forall x, x ∈ l -> untouched (FileEntry.id x) (data w) (data w1)).
  { intros x Hx. apply Un. intros E. apply Nf. rewrite <- E. apply list_elem_of_fmap. by exists x. }
  exists w'. split; [|split; [exact Fr2|split; [lia|split; [exact Rd2|]]]].
  - eapply bind_run; [exact E1|]. rewrite E2. do 2 f_equal.
    assert (Ef : List.filter (fun x => needs target ds (FileEntry.id x) (data w1)) l
                 = List.filter (fun x => needs target ds (FileEntry.id x) (data w)) l).
    { apply filter_ext_in. intros x Hx. apply untouched_needs, Ne. by apply list_elem_of_In. }
    rewrite Ef. cbn [List.filter]. fold b. destruct b; cbn [length]; lia.
  - split; [exists t2; by rewrite D2, D1|]. split.
    + intros x Hx. apply elem_of_cons in Hx as [-> |Hx].
      * rewrite (proj1 (U2 _ Nf)). exact Cf.
      * rewrite (C2 x Hx), (untouched_needs _ _ _ _ _ (Ne x Hx)). by rewrite (proj1 (Ne x Hx)).
    + intros g Ng. cbn [map] in Ng. apply not_elem_of_cons in Ng as [N1 N2]. destruct (Un g N1) as [A1 A2], (U2 g N2) as [B1 B2].
      split; [by rewrite B1|]. intros d. by rewrite B2.
Qed.

(** ** Pigeons *)

Lemma free_exists ds g s :
  base.NoDup ds -> Forall is_uuid ds -> replicas g s < Z.of_nat (length ds) -> free ds g s = true.
Proof.
  intros Nd Uu L. destruct (free ds g s) eqn:F; [done|]. exfalso.
  assert (A : forall d, d ∈ ds -> has_replica g d s = true).
  { intros d Hd. destruct (has_replica g d s) eqn:X; [done|]. rewrite <- F. unfold free. apply existsb_exists.
    exists d. split; [by apply list_elem_of_In|by rewrite X]. }
  assert (I : map node_id ds ⊆ map FileReplica.storage_node_id (select (replica_of g) (file_replicas s))).
  { intros k Hk. apply list_elem_of_fmap in Hk as (d & -> & Hd). apply A, exists_row_iff in Hd as (r & Hr & P).
    apply andb_true_iff in P as [P1 P2]. apply bool_decide_eq_true in P2. apply list_elem_of_fmap. exists r. split; [done|].
    by apply elem_select. }
  assert (N : base.NoDup (map node_id ds)).
  { clear -Nd Uu. induction ds as [|d l IH]; [constructor|]. cbn [map]. apply NoDup_cons in Nd as [N1 N2].
    apply Forall_cons in Uu as [U1 U2]. apply NoDup_cons. split; [|by apply IH]. intros H.
    apply list_elem_of_fmap in H as (x & E & Hx). apply N1. unfold node_id in E. apply app_inv_head, uuid_text_inj in E;
      [by subst x|done|]. rewrite Forall_forall in U2. by apply U2. }
  apply (NoDup_submseteq _ _ N) in I. apply submseteq_length in I. rewrite !length_map in I.
  unfold replicas, count_rows in L. lia.
Qed.

(** ** Whole runs *)

Lemma schema_checked u now s :
  schema_ok s = true ->
  schema_ok (set_cluster_protection (update (of_user u) (checked_now now) (cluster_protection s)) s) = true.
Proof.
  intros Sc. unfold schema_ok in *. apply andb_true_iff in Sc as [K R].
  unfold keys_ok, rows_ok in *. rewrite !andb_true_iff in *. destruct_and!.
  split_and!; try assumption; [by apply unique_update|].
  eapply forallb_update; [intros r Hr; exact Hr| |eassumption]. intros r _ Hr _.
  unfold cluster_protection_ok, checked_now in *. rewrite !andb_true_iff in *. cbn. tauto.
Qed.

Definition mode_of (u : Z) (s : Server) : rstr :=
  match find_row (of_user u) (cluster_protection s) with
  | Some r => ClusterProtection.protection_mode r
  | None => lit "single_device"
  end.

Definition online_ids (u : Z) (s : Server) : list Z := map Device.id (select (online u) (devices s)).

(** A state the replicas of [u] can spread in. *)
Definition spreading (L : nat) (u : Z) (w : World Server) : Prop :=
  fresh_ids L w /\ schema_ok (data w) = true /\ Forall (fun d => is_uuid (Device.id d)) (devices (data w))
  /\ 1 < target_replicas (mode_of u (data w)) /\ 1 < Z.of_nat (length (online_ids u (data w))).

Lemma nodup_ids {A} (key : A -> Z) p (t : list A) : unique_key key t = true -> base.NoDup (map key (select p t)).
Proof.
  unfold unique_key. rewrite bool_decide_eq_true. intros H. eapply sublist_NoDup; [exact H|]. unfold select. clear H.
  induction t as [|x t IH]; [constructor|]. cbn. destruct (p x); by constructor.
Qed.

Lemma schema_device_ids s : schema_ok s = true -> unique_key Device.id (devices s) = true.
Proof. unfold schema_ok, keys_ok. rewrite !andb_true_iff. tauto. Qed.

Lemma online_ready u s : schema_ok s = true -> Forall (fun d => is_uuid (Device.id d)) (devices s) -> ready s (online_ids u s).
Proof.
  intros Sc F. split; [exact Sc|]. apply Forall_forall. intros i Hi. apply list_elem_of_fmap in Hi as (d & -> & Hd).
  apply elem_select in Hd as [Hd _]. rewrite Forall_forall in F. split; [by apply F|by apply refers_in].
Qed.

(** The interactions of one run, at most. *)
Definition run_cost (u : Z) (s : Server) : nat :=
  4 + length (select (live_of u) (file_entries s)) * turn (online_ids u s).

(** One run: every live file that needs a replica and can have one gets one. *)
Lemma rebalance_run L u w :
  reliable O -> spreading L u w -> (pos w + run_cost u (data w) <= L)%nat ->
  let ds := online_ids u (data w) in
  let target := target_replicas (mode_of u (data w)) in
  exists r w', rebalance_cluster u w = (Ok r, w') /\ spreading L u w' /\ (pos w' <= pos w + run_cost u (data w))%nat
    /\ devices (data w') = devices (data w) /\ file_entries (data w') = file_entries (data w)
    /\ mode_of u (data w') = mode_of u (data w)
    /\ rebalanced_count r = Z.of_nat (length (List.filter (fun f => needs target ds (FileEntry.id f) (data w))
                                               (select (live_of u) (file_entries (data w)))))
    /\ (forall f, f ∈ file_entries (data w) -> live_of u f = true ->
          replicas (FileEntry.id f) (data w') = replicas (FileEntry.id f) (data w)
            + (if needs target ds (FileEntry.id f) (data w) then 1 else 0))
    /\ (forall f, f ∈ file_entries (data w) -> live_of u f = false ->
          replicas (FileEntry.id f) (data w') = replicas (FileEntry.id f) (data w)).
Proof.
  intros R (Fr & Sc & Uu & T & D) Bd ds target. unfold run_cost in *. fold ds in Bd |- *. set (files := select (live_of u) (file_entries (data w))).
  set (w3 := mkWorld (data w) (S (S (S (pos w))))).
  destruct (reconcile_run L target ds files 0 w3 R) as (w4 & E4 & Fr4 & Bd4 & Rd4 & (t & D4) & C4 & U4);
    [apply fresh_later; [done|lia]|cbn [pos w3]; fold files in Bd; lia|by apply online_ready|intros f Hf; by apply elem_select in Hf as [Hf _]
    |by apply nodup_ids, key_file|exact T|exact D|].
  cbn [data pos w3] in *. set (s5 := set_cluster_protection (update (of_user u) (checked_now (clock_at (pos w4))) (cluster_protection (data w4))) (data w4)).
  assert (Sc5 : schema_ok s5 = true) by (apply schema_checked, Rd4).
  assert (M5 : mode_of u s5 = mode_of u (data w)).
  { unfold mode_of, s5. rewrite D4. cbn [cluster_protection set_cluster_protection set_file_replicas].
    destruct (find_row (of_user u) (cluster_protection (data w))) as [x|] eqn:F.
    - rewrite (find_update _ _ _ _ F); [done|]. by apply find_row_Some in F as [_ F].
    - assert (find_row (of_user u) (update (of_user u) (checked_now (clock_at (pos w4))) (cluster_protection (data w))) = None) as ->; [|done].
      apply find_row_None. rewrite find_row_None in F. intros r Hr. apply elem_update in Hr as (r0 & Hr0 & ->).
      destruct (of_user u r0) eqn:X; [by rewrite F in X|exact X]. }
  eexists _, (mkWorld s5 (S (pos w4))). split.
  { unfold rebalance_cluster. eapply bind_run; [unfold query, statement; rewrite (proj1 (R _)); reflexivity|].
    eapply bind_run; [unfold query, statement; rewrite (proj1 (R _)); reflexivity|].
    eapply bind_run; [unfold protection, query, statement; rewrite (proj1 (R _)); reflexivity|].
    eapply bind_run; [exact E4|]. eapply bind_run; [|reflexivity].
    unfold execute, statement, checked. rewrite (proj1 (R _)). cbn [fst snd]. fold s5. by rewrite Sc5. }
  assert (Dv : devices s5 = devices (data w)) by (unfold s5; by rewrite D4).
  assert (Fe : file_entries s5 = file_entries (data w)) by (unfold s5; by rewrite D4).
  assert (Rp : forall g, replicas g s5 = replicas g (data w4)) by done.
  cbn [data pos rebalanced_count]. split; [|split; [fold files in Bd; lia|split; [exact Dv|split; [exact Fe|split; [exact M5|split; [cbn; lia|split]]]]]].
  - split; [|split; [exact Sc5|]].
    + destruct Fr4 as (A & B & C). unfold fresh_ids. cbn [data pos]. split; [intros n Hn; apply A; lia|].
      split; [intros m n Hm Hn; apply B; lia|]. intros r n Hr Hn. apply C; [exact Hr|lia].
    + cbn [data]. unfold online_ids. rewrite Dv, M5. by split.
  - intros f Hf Lf. rewrite Rp. apply C4. by apply elem_select.
  - intros f Hf Lf. rewrite Rp. apply U4. intros H. apply list_elem_of_fmap in H as (x & E & Hx). apply elem_select in Hx as [Hx Lx].
    assert (f = x) as -> by (eapply (unique_key_inj FileEntry.id (file_entries (data w))); [by apply key_file|exact Hf|exact Hx|exact E]). congruence.
Qed.

(** The caller rebalances [n] times. *)
Fixpoint rebalances (n : nat) (u : Z) (w : World Server) : World Server :=
  match n with 0%nat => w | Datatypes.S k => rebalances k u (snd (rebalance_cluster u w)) end.

Lemma one_more L u w f :
  spreading L u w -> Z.min (replicas (FileEntry.id f) (data w) + 1)
      (Z.min (target_replicas (mode_of u (data w))) (Z.of_nat (length (online_ids u (data w)))))
    <= replicas (FileEntry.id f) (data w)
       + (if needs (target_replicas (mode_of u (data w))) (online_ids u (data w)) (FileEntry.id f) (data w) then 1 else 0)
    <= Z.max (replicas (FileEntry.id f) (data w)) (target_replicas (mode_of u (data w))).
Proof.
  intros (_ & Sc & Uu & _ & _). unfold needs. set (n := replicas _ _). set (ds := online_ids u (data w)).
  assert (Fe : n < Z.of_nat (length ds) -> free ds (FileEntry.id f) (data w) = true).
  { apply free_exists; [by apply nodup_ids, schema_device_ids|].
    apply Forall_forall. intros i Hi. apply list_elem_of_fmap in Hi as (d & -> & Hd). apply elem_select in Hd as [Hd _].
    rewrite Forall_forall in Uu. by apply Uu. }
  destruct (Z.ltb_spec n (target_replicas (mode_of u (data w)))); cbn [andb]; [|lia].
  destruct (free ds (FileEntry.id f) (data w)); [lia|]. destruct (Z.lt_ge_cases n (Z.of_nat (length ds))) as [Lt|Lt]; [by apply Fe in Lt|lia].
Qed.

(** C12: replicas converge.  With the database answering and identifiers that
    do not repeat during the runs, for a mode that asks for several replicas and a user with
    several devices online, [n] calls of rebalance in a row give every live file
    at least one more replica each, up to as many as the mode asks for or as there
    are devices, and never take a file beyond what the mode asks for; the other
    files keep the replicas they have. *)
Theorem rebalance_converges L n u w :
  reliable O -> spreading L u w -> (pos w + n * run_cost u (data w) <= L)%nat ->
  let target := target_replicas (mode_of u (data w)) in
  let nodes := Z.of_nat (length (online_ids u (data w))) in
  let w' := rebalances n u w in
  forall f, f ∈ file_entries (data w) ->
    if live_of u f
    then Z.min (replicas (FileEntry.id f) (data w) + Z.of_nat n) (Z.min target nodes) <= replicas (FileEntry.id f) (data w')
         /\ replicas (FileEntry.id f) (data w) <= replicas (FileEntry.id f) (data w')
            <= Z.max (replicas (FileEntry.id f) (data w)) target
    else replicas (FileEntry.id f) (data w') = replicas (FileEntry.id f) (data w).
Proof.
  intros R. revert w. induction n as [|n IH]; intros w Sp Bd target nodes w' f Hf.
  { unfold w'. cbn [rebalances Z.of_nat]. destruct (live_of u f); [|done]. lia. }
  cbn [Nat.mul] in Bd. destruct (rebalance_run L u w R Sp ltac:(lia)) as (r & w1 & E & Sp1 & Bd1 & Dv & Fe & Md & _ & Cl & Cn).
  assert (W : w' = rebalances n u w1) by (unfold w'; cbn [rebalances]; by rewrite E).
  assert (Rc : run_cost u (data w1) = run_cost u (data w)) by (unfold run_cost, online_ids; by rewrite Dv, Fe).
  specialize (IH w1 Sp1 ltac:(rewrite Rc; lia)). cbv zeta in IH. unfold online_ids in IH. rewrite Dv, Md in IH. fold (online_ids u (data w)) in IH.
  fold target in IH. fold nodes in IH. rewrite W. rewrite Fe in IH. specialize (IH f Hf).
  destruct (live_of u f) eqn:Lv; [|by rewrite IH, Cn].
  assert (One := one_more L u w f Sp). fold target nodes in One. rewrite (Cl f Hf Lv) in IH.
  destruct (needs _ _ _ _); lia.
Qed.
End Cluster.

(** a mode is what the status shows.  After an accepted change, the
    protection of the caller is the requested mode with the recovery targets of
    its row of the table, and everyone else's is what it was. *)
Theorem mode_roundtrip `{O : Oracle} u m w a w' :
  update_cluster_mode u m w = (Ok a, w') ->
  (exists r, find_row (of_user u) (cluster_protection (data w')) = Some r
     /\ ClusterProtection.protection_mode r = new_mode a /\ ClusterProtection.rpo_target_minutes r = new_rpo a
     /\ ClusterProtection.rto_target_minutes r = new_rto a)
  /\ new_mode a = default (lit "single_device") m /\ (new_rpo a, new_rto a) = targets (new_mode a)
  /\ forall v, v <> u -> find_row (of_user v) (cluster_protection (data w')) = find_row (of_user v) (cluster_protection (data w)).
Proof.
  unfold update_cluster_mode. intros H. run_ok H. cbn [new_mode new_rpo new_rto].
  match goal with H : (tt, _) = (_, data _) |- _ => injection H as _ E end. rewrite <- E. cbn [data].
  set (mode := default (lit "single_device") m) in *. unfold set_mode. destruct (targets mode) as [rpo rto] eqn:T. cbn [fst snd].
  cbn [cluster_protection set_cluster_protection]. cbn [data] in *.
  assert (N : forall v r, v <> u -> of_user u r = true -> of_user v r = false).
  { intros v r Nv. unfold of_user. rewrite Z.eqb_eq, Z.eqb_neq. congruence. }
  destruct (exists_row _ _) eqn:X.
  - apply exists_row_iff in X as (r0 & Hr & Pr). destruct (find_row (of_user u) (cluster_protection (data w))) as [r|] eqn:F.
    2: { rewrite find_row_None in F. by rewrite F in Pr. }
    split; [|split; [done|split; [by rewrite <- T|]]].
    + eexists. split; [apply find_update; [exact F|by apply find_row_Some in F as [_ F]]|done].
    + intros v Nv. apply find_update_other; intros y Py; [destruct (of_user u y) eqn:Y; [by rewrite (N v y Nv Y) in Py|done]|exact (N v y Nv Py)].
  - split; [|split; [done|split; [by rewrite <- T|]]].
    + eexists. split; [apply find_insert; [apply find_row_None; by apply exists_row_false|by apply Z.eqb_refl]|done].
    + intros v Nv. apply find_insert_other. unfold of_user. cbn. apply Z.eqb_neq. congruence.
Qed.

(** ** Concrete runs *)

Definition demo_device (i : Z) : Device.row := Device.set_is_online true (Sync.Sync.demo_device i).

(** Bob with three devices online, two files and a folder, protected by two
    nodes; the folder is of Tree.v, and one file has a digest. *)
Definition demo_cluster : World Server :=
  snd (update_cluster_mode (O := toy_env []) 2 (Some (lit "multi_node_mesh"))
    (mkWorld (set_devices [demo_device 50; demo_device 51; demo_device 52] (data Tree.demo_tree)) 0)).

Notation demo_env := (toy_env []) (only parsing).

Lemma demo_spreading : spreading (O := demo_env) (UT := plain_uuid) 54 2 demo_cluster.
Proof.
  assert (P : pos demo_cluster = 2%nat) by (vm_compute; reflexivity).
  assert (T : file_replicas (data demo_cluster) = []) by (vm_compute; reflexivity).
  split; [|split; [vm_compute; reflexivity|split; [|split; vm_compute; reflexivity]]].
  - unfold fresh_ids. rewrite P, T. split; [intros n Hn; unfold is_uuid; cbn; lia|]. split; [intros m n Hm Hn E; cbn in E; lia|].
    intros r n Hr. by apply elem_of_nil in Hr.
  - assert (D : devices (data demo_cluster) = [demo_device 50; demo_device 51; demo_device 52]) by (vm_compute; reflexivity).
    rewrite D. repeat constructor; cbn; unfold is_uuid; lia.
Qed.

(** Two runs give the note two of the three replicas its mode asks for. *)
Lemma rebalance_witness :
  2 <= replicas 12 (data (rebalances (O := demo_env) (UT := plain_uuid) 2 2 demo_cluster)) <= 3.
Proof.
  destruct (rebalance_converges (O := demo_env) (UT := plain_uuid) 54 2 2 demo_cluster toy_env_reliable demo_spreading
    ltac:(apply Nat.leb_le; vm_compute; reflexivity) Tree.demo_note
    ltac:(apply list_elem_of_In; right; right; left; vm_compute; reflexivity)) as [A B].
  assert (E1 : replicas 12 (data demo_cluster) = 0) by (vm_compute; reflexivity).
  assert (E2 : target_replicas (mode_of 2 (data demo_cluster)) = 3) by (vm_compute; reflexivity).
  assert (E3 : length (online_ids 2 (data demo_cluster)) = 3%nat) by (vm_compute; reflexivity).
  change (FileEntry.id Tree.demo_note) with 12 in A, B. rewrite E1, E2, E3 in *. cbn in A, B. split; [exact A|apply B].
Defined.

Notation demo_switch := (update_cluster_mode (O := demo_env) 1 (Some (lit "raid0")) demo_cluster) (only parsing).

(** A mode nobody knows is stored with the targets of a single device, and Bob
    keeps his mesh. *)
Lemma mode_roundtrip_witness : exists a w', demo_switch = (Ok a, w')
  /\ new_rpo a = 1440
  /\ find_row (of_user 2) (cluster_protection (data w')) = find_row (of_user 2) (cluster_protection (data demo_cluster)).
Proof.
  assert (H : exists a, fst demo_switch = Ok a /\ new_rpo a = 1440) by (eexists; vm_compute; split; reflexivity).
  destruct demo_switch as [o w'] eqn:E. destruct H as (a & Ho & Hr). cbn [fst] in Ho. subst o.
  destruct (mode_roundtrip (O := demo_env) 1 (Some (lit "raid0")) demo_cluster a w' E) as (_ & _ & _ & N).
  exists a, w'. split; [reflexivity|]. split; [exact Hr|]. apply N. lia.
Defined.

(** replicas are rows.  A rebalance of Bob's tree reports a replica of each
    entry, of the folders too, and leaves rows that say "synced" and "verified",
    with three statements for each entry and nothing sent to a device; nothing
    removes such a row when the content of the file changes, and a mode is any
    text. *)
Theorem replica_gaps :
  let r := rebalance_cluster (O := demo_env) (UT := plain_uuid) 2 demo_cluster in
  match fst r with Ok a => rebalanced_count a = 3 | _ => False end
  /\ map (fun x => (FileReplica.file_id x, FileReplica.status x, FileReplica.checksum x)) (file_replicas (data (snd r)))
     = [(10, lit "synced", lit "verified"); (11, lit "synced", lit "verified"); (12, lit "synced", lit "verified")]
  /\ map FileEntry.entry_type (file_entries (data demo_cluster)) = [lit "folder"; lit "folder"; lit "file"].
Proof. vm_compute. repeat split; reflexivity. Qed.
End Cluster.
