(* ===== verification/Maintenance.v ===== *)
(** * Maintenance: the background tasks of the gateway

    backend/crates/gateway/src/main.rs, spawn_background_tasks: three loops that
    clean the sessions, the trash and the share links, each with one statement a
    tick, whose error is logged and forgotten. *)

From S2P Require Import Prelude Text Tables Effects Externals Schema Auth Storage Files Tree Tenancy Sharing.

Module Maintenance.
Import Files Tree Tenancy.

(** INTERVAL '30 days', in microseconds. *)
Definition thirty_days : Z := 30 * 86400 * 1000000.

Definition spent (now : Z) (r : RefreshToken.row) : bool := (RefreshToken.expires_at r <? now) || RefreshToken.revoked r.

Definition old_trash (now : Z) (f : FileEntry.row) : bool :=
  FileEntry.is_trashed f && (FileEntry.updated_at f <? now - thirty_days).

(** expires_at < NOW(), which NULL is not. *)
Definition overdue (now : Z) (l : ShareLink.row) : bool :=
  match ShareLink.expires_at l with Some e => e <? now | None => false end && ShareLink.is_active l.

Inductive task := CleanTokens | PurgeTrash | ExpireLinks.

Section Maintenance.
Context {O : Oracle}.

Definition clean_tokens : M Server Z :=
  execute schema_ok (fun now s =>
    (count_rows (spent now) (refresh_tokens s), set_refresh_tokens (delete_rows (spent now) (refresh_tokens s)) s)).

Definition purge_trash : M Server Z :=
  execute schema_ok (fun now s => (count_rows (old_trash now) (file_entries s), delete_files (old_trash now) s)).

Definition expire_links : M Server unit :=
  execute schema_ok (fun now s =>
    (tt, set_share_links (update (overdue now) (ShareLink.set_is_active false) (share_links s)) s)).

(** One turn of a loop. *)
Definition tick (t : task) : M Server unit :=
  match t with
  | CleanTokens => discard clean_tokens
  | PurgeTrash => discard purge_trash
  | ExpireLinks => discard expire_links
  end.

(** ** What a deletion of files takes with it *)

Definition parent_dead (dead : list Z) (f : FileEntry.row) : bool :=
  match FileEntry.parent_id f with Some p => existsb (Z.eqb p) dead | None => false end.

Definition next_dead (t : list FileEntry.row) (dead : list Z) : list FileEntry.row :=
  select (fun f => negb (id_in dead f) && parent_dead dead f) t.

Definition alive (t : list FileEntry.row) (dead : list Z) : nat := length (select (fun f => negb (id_in dead f)) t).

(** No row is left below a dead one. *)
Definition closed (t : list FileEntry.row) (dead : list Z) : Prop :=
  forall f, f ∈ t -> parent_dead dead f = true -> id_in dead f = true.

Lemma mem_iff i l : existsb (Z.eqb i) l = true <-> i ∈ l.
Proof.
  rewrite existsb_exists. split; [intros (k & Hk & E); apply Z.eqb_eq in E; subst k; by apply list_elem_of_In|].
  intros H. exists i. split; [by apply list_elem_of_In|by apply Z.eqb_eq].
Qed.

Lemma cascade_step k t dead : cascade (S k) t dead = cascade k t (dead ++ map FileEntry.id (next_dead t dead)).
Proof. done. Qed.

Lemma next_dead_nil t dead : next_dead t dead = [] <-> closed t dead.
Proof.
  unfold next_dead, closed. split.
  - intros N f Hf P. destruct (id_in dead f) eqn:I; [done|]. exfalso.
    assert (H : f ∈ (@nil FileEntry.row)); [|by apply elem_of_nil in H].
    rewrite <- N. apply elem_select. by rewrite I, P.
  - intros C. destruct (select _ t) as [|f l] eqn:E; [done|]. exfalso.
    assert (H : f ∈ select (fun f => negb (id_in dead f) && parent_dead dead f) t) by (rewrite E; by left).
    apply elem_select in H as [Hf P]. apply andb_true_iff in P as [N P]. by rewrite (C f Hf P) in N.
Qed.

Lemma cascade_closed k t dead : closed t dead -> cascade k t dead = dead.
Proof.
  intros C. induction k as [|k IH]; [done|]. rewrite cascade_step, (proj2 (next_dead_nil t dead) C). cbn [map].
  by rewrite app_nil_r.
Qed.

Lemma id_in_app a b f : id_in (a ++ b) f = id_in a f || id_in b f.
Proof. unfold id_in. apply existsb_app. Qed.

Lemma alive_next t dead : next_dead t dead <> [] -> (alive t (dead ++ map FileEntry.id (next_dead t dead)) < alive t dead)%nat.
Proof.
  intros N. destruct (next_dead t dead) as [|x l] eqn:E; [done|]. clear N.
  assert (Hx : x ∈ next_dead t dead) by (rewrite E; by left). rewrite <- E. clear l E.
  set (new := map FileEntry.id (next_dead t dead)). unfold next_dead in Hx. apply elem_select in Hx as [Hx P].
  apply andb_true_iff in P as [P1 P2].
  assert (Ix : id_in new x = true).
  { unfold id_in. apply mem_iff. apply list_elem_of_fmap. exists x. split; [done|]. apply elem_select. by rewrite P1, P2. }
  clearbody new. unfold alive. clear P2. revert Hx. induction t as [|y t IH]; intros Hx; [by apply elem_of_nil in Hx|].
  unfold select in *. cbn [List.filter]. rewrite id_in_app.
  assert (Le : (length (List.filter (fun f => negb (id_in (dead ++ new) f)) t) <= length (List.filter (fun f => negb (id_in dead f)) t))%nat).
  { clear. induction t as [|z t IH]; [done|]. cbn [List.filter]. rewrite id_in_app.
    destruct (id_in dead z), (id_in new z); cbn [orb negb length]; lia. }
  apply elem_of_cons in Hx as [-> |Hx].
  - rewrite Ix, orb_true_r, P1. cbn [negb length]. lia.
  - specialize (IH Hx). destruct (id_in dead y), (id_in new y); cbn [orb negb length]; lia.
Qed.

(** As many rounds as there are rows reach everything. *)
Lemma cascade_reaches k t dead : (alive t dead <= k)%nat -> closed t (cascade k t dead).
Proof.
  revert dead. induction k as [|k IH]; intros dead L.
  - intros f Hf _. cbn [cascade]. destruct (id_in dead f) eqn:I; [done|]. exfalso. unfold alive in L.
    assert (H : f ∈ select (fun f => negb (id_in dead f)) t) by (apply elem_select; by rewrite I).
    destruct (select _ t); [by apply elem_of_nil in H|cbn in L; lia].
  - rewrite cascade_step. destruct (next_dead t dead) as [|x l] eqn:E.
    + cbn [map]. rewrite app_nil_r. assert (C : closed t dead) by (by apply next_dead_nil). by rewrite cascade_closed.
    + rewrite <- E. apply IH. assert (N : next_dead t dead <> []) by (by rewrite E). apply alive_next in N. lia.
Qed.

Lemma cascade_incl k t dead i : i ∈ dead -> i ∈ cascade k t dead.
Proof. revert dead. induction k as [|k IH]; intros dead H; [done|]. rewrite cascade_step. apply IH, elem_of_app. by left. Qed.

(** What a cascade reaches lies below a row it started from. *)
Definition reached (p : FileEntry.row -> bool) (t : list FileEntry.row) (f : FileEntry.row) : Prop :=
  exists d, d ∈ t /\ p d = true /\ below t d f.

Lemma cascade_reached p s k dead : schema_ok s = true ->
  (forall f, f ∈ file_entries s -> id_in dead f = true -> reached p (file_entries s) f) ->
  forall f, f ∈ file_entries s -> id_in (cascade k (file_entries s) dead) f = true -> reached p (file_entries s) f.
Proof.
  intros Sc. revert dead. induction k as [|k IH]; intros dead D; [exact D|]. rewrite cascade_step. apply IH.
  intros f Hf. rewrite id_in_app. intros [I|I]%orb_true_iff; [by apply D|].
  unfold id_in in I. apply mem_iff, list_elem_of_fmap in I as (y & E & Hy). apply elem_select in Hy as [Hy P].
  assert (y = f) as -> by (eapply unique_key_inj; [by apply key_file|done|done|done]).
  apply andb_true_iff in P as [_ P]. unfold parent_dead in P. destruct (FileEntry.parent_id f) as [q|] eqn:Q; [|done].
  destruct (file_parent _ _ _ Sc Hf Q) as (d & Hd & <-). destruct (D d Hd P) as (r & Hr & Pr & B).
  exists r. split; [done|]. split; [done|]. eapply below_child; [done|]. by split.
Qed.

(** A deletion takes the rows it selects and everything below them, and no
    other row. *)
Lemma delete_files_rows p s f :
  schema_ok s = true ->
  f ∈ file_entries (delete_files p s) <-> f ∈ file_entries s /\ ~ reached p (file_entries s) f.
Proof.
  intros Sc. unfold delete_files. cbn [file_entries set_file_entries]. rewrite elem_delete.
  set (t := file_entries s). set (start := map FileEntry.id (select p t)). split; intros [Hf N]; (split; [exact Hf|]).
  - intros (d & Hd & Pd & B). rewrite <- not_true_iff_false in N. apply N. clear N.
    assert (C : closed t (cascade (length t) t start)).
    { apply cascade_reaches. unfold alive, select. apply filter_length_le. }
    assert (Id : id_in (cascade (length t) t start) d = true).
    { apply mem_iff, cascade_incl, list_elem_of_fmap. exists d. split; [done|]. by apply elem_select. }
    clear Pd. induction B as [d|d e f [He Pe] _ IH]; [exact Id|]. apply IH; [done|done|]. apply C; [done|].
    unfold parent_dead. by rewrite Pe.
  - rewrite <- not_true_iff_false. intros I. apply N. eapply cascade_reached; [exact Sc| |exact Hf|exact I].
    intros x Hx Ix. apply mem_iff, list_elem_of_fmap in Ix as (y & E & Hy). apply elem_select in Hy as [Hy P].
    assert (x = y) as -> by (eapply unique_key_inj; [by apply key_file|done|done|done]).
    exists y. split; [done|]. split; [done|constructor].
Qed.

(** *** The constraints of the schema after a deletion *)

Lemma refers_kept {A} (key : A -> Z) p t i :
  refers key t i = true -> (forall r, r ∈ t -> key r = i -> p r = false) -> refers key (delete_rows p t) i = true.
Proof.
  rewrite !refers_iff. intros (r & Hr & E) K. exists r. split; [|exact E]. apply elem_delete. split; [done|by apply K].
Qed.

(** A table whose rows go with the file they refer to. *)
Ltac cascaded R :=
  eapply forallb_delete_to; [|eassumption]; let r := fresh in let G := fresh in let H := fresh in intros r _ G H; cbn beta in G;
  unfold file_version_ok, share_link_ok, sync_state_ok, transcode_job_ok, playback_progress_ok, file_replica_ok,
    file_tag_ok, text_extraction_ok in *;
  rewrite !andb_true_iff in *; destruct_and!; split_and!; try assumption; apply R; assumption.

(** The references of the tables to files cascade or become NULL, so that
    nothing stops a deletion. *)
Lemma delete_files_schema p s : schema_ok s = true -> schema_ok (delete_files p s) = true.
Proof.
  intros Sc. set (t := file_entries s). set (dead := cascade (length t) t (map FileEntry.id (select p t))).
  set (t' := delete_rows (id_in dead) t).
  assert (R : forall i, existsb (Z.eqb i) dead = false -> refers FileEntry.id t i = true -> refers FileEntry.id t' i = true).
  { intros i G H. apply refers_kept; [exact H|]. intros r _ E. unfold id_in. by rewrite E. }
  assert (C : closed t dead) by (apply cascade_reaches; unfold alive, select; apply filter_length_le).
  unfold schema_ok in *. apply andb_true_iff in Sc as [K Rw]. unfold keys_ok, rows_ok in *. rewrite !andb_true_iff in *.
  destruct_and!. unfold delete_files. fold t. fold dead. fold t'.
  split_and!; try assumption; try (apply unique_delete; assumption); try (by apply unique_update); try by cascaded R.
  - eapply forallb_delete_to; [|eassumption]. intros r Hr G. unfold file_entry_ok. rewrite !andb_true_iff. intros Ok_r.
    destruct_and!. split_and!; try assumption. destruct (FileEntry.parent_id r) as [q|] eqn:Q; [|done]. cbn [opt_all] in *.
    apply R; [|assumption]. apply not_true_iff_false. intros D.
    rewrite (C r Hr) in G; [done|]. unfold parent_dead. by rewrite Q.
  - eapply forallb_update_to; [| |eassumption]; intros r G; unfold sync_folder_ok; rewrite !andb_true_iff; intros Ok_r;
      destruct_and!; split_and!; try assumption; [|done].
    destruct (SyncFolder.remote_folder_id r); [by apply R|done].
Qed.

(** ** The trash *)

Lemma version_file s v : schema_ok s = true -> v ∈ file_versions s ->
  exists f, f ∈ file_entries s /\ FileEntry.id f = FileVersion.file_entry_id v.
Proof.
  unfold schema_ok, rows_ok. rewrite !andb_true_iff. intros S Hv. destruct_and!.
  match goal with H : forallb (file_version_ok s) _ = true |- _ => rename H into F end.
  rewrite forallb_forall in F. apply list_elem_of_In, F in Hv. unfold file_version_ok in Hv. rewrite !andb_true_iff in Hv.
  apply refers_iff. tauto.
Qed.

Lemma below_root t d f : FileEntry.parent_id f = None -> below t d f -> d = f.
Proof.
  intros P B. induction B as [|d e f [He Pe] _ IH]; [done|]. specialize (IH P). subst e. congruence.
Qed.

(** the trash is purged.  With the database answering, one tick deletes
    exactly the rows that have been in the trash, unchanged, for thirty days and
    every row below one of them, with the versions of what goes and no other
    version; the answer counts the former only, no constraint can stop it, and
    the disk keeps the blobs. *)
Theorem purge_trash_spec w :
  reliable O -> schema_ok (data w) = true ->
  let old := old_trash (clock_at (pos w)) in
  exists w', purge_trash w = (Ok (count_rows old (file_entries (data w))), w')
  /\ (forall f, f ∈ file_entries (data w') <-> f ∈ file_entries (data w) /\ ~ reached old (file_entries (data w)) f)
  /\ (forall v, v ∈ file_versions (data w') <->
        v ∈ file_versions (data w)
        /\ exists f, f ∈ file_entries (data w') /\ FileEntry.id f = FileVersion.file_entry_id v)
  /\ disk (data w') = disk (data w) /\ schema_ok (data w') = true.
Proof.
  intros R Sc old. assert (Sd := delete_files_schema old _ Sc).
  exists (mkWorld (delete_files old (data w)) (S (pos w))). split.
  { unfold purge_trash, execute, statement, checked. rewrite (proj1 (R _)). cbn [fst snd]. fold old. by rewrite Sd. }
  cbn [data]. split; [intros f; by apply delete_files_rows|]. split; [|by split].
  intros v. unfold delete_files at 1. cbn [file_versions set_file_entries set_file_versions]. rewrite elem_delete.
  set (dead := cascade _ _ _). split; intros [Hv N]; (split; [exact Hv|]).
  - destruct (version_file _ _ Sc Hv) as (f & Hf & E). exists f. split; [|exact E]. unfold delete_files.
    cbn [file_entries set_file_entries]. fold dead. apply elem_delete. split; [exact Hf|]. unfold id_in. by rewrite E.
  - destruct N as (f & Hf & <-). unfold delete_files in Hf. cbn [file_entries set_file_entries] in Hf. fold dead in Hf.
    by apply elem_delete in Hf as [_ Hf].
Qed.

(** ** What nobody notices *)

(** A session that refreshes at time [t], and a link that opens then. *)
Definition live_at (t : Z) (r : RefreshToken.row) : bool := negb (RefreshToken.revoked r) && (t <? RefreshToken.expires_at r).

Definition open_at (t : Z) (l : ShareLink.row) : bool :=
  ShareLink.is_active l && match ShareLink.expires_at l with Some e => t <=? e | None => true end.

Lemma select_delete_sub {A} (p q : A -> bool) t :
  (forall r, q r = true -> p r = false) -> select q (delete_rows p t) = select q t.
Proof.
  intros N. unfold select, delete_rows. induction t as [|x t IH]; [done|]. cbn [List.filter]. destruct (p x) eqn:P; cbn [negb].
  - destruct (q x) eqn:Q; [by rewrite N in P|exact IH].
  - cbn [List.filter]. by rewrite IH.
Qed.

Lemma select_update_sub {A} (p q : A -> bool) f t :
  (forall r, p r = true -> q r = false /\ q (f r) = false) -> select q (update p f t) = select q t.
Proof.
  intros N. unfold select, update. induction t as [|x t IH]; [done|]. cbn [map List.filter]. destruct (p x) eqn:P.
  - destruct (N x P) as [-> ->]. exact IH.
  - by rewrite IH.
Qed.

Lemma discarded_step {A} (f : Z -> Server -> A * Server) w o w' :
  discard (execute schema_ok f) w = (o, w') ->
  data w' = data w \/ data w' = snd (f (clock_at (pos w)) (data w)) /\ schema_ok (data w') = true.
Proof.
  destruct (discard_execute_run schema_ok f w) as (w1 & E & C). rewrite E. intros H. injection H as _ <-. tauto.
Qed.

Lemma discarded_data {A} (f : Z -> Server -> A * Server) w o w' :
  discard (execute schema_ok f) w = (o, w') ->
  o = Ok tt /\ (data w' = data w \/ data w' = snd (f (clock_at (pos w)) (data w))).
Proof.
  intros H. destruct (discard_execute_run schema_ok f w) as (w1 & E & _). split; [congruence|].
  apply discarded_step in H. tauto.
Qed.

(** cleaning is invisible.  Whatever the database answers a tick ends well;
    and after cleaning tokens or links, for every moment from the tick on, the
    sessions that can be refreshed and the links that open are the same rows in
    the same order. *)
Theorem cleaning_invisible k w o w' t :
  tick k w = (o, w') -> k <> PurgeTrash -> clock_at (pos w) <= t ->
  o = Ok tt
  /\ select (live_at t) (refresh_tokens (data w')) = select (live_at t) (refresh_tokens (data w))
  /\ select (open_at t) (share_links (data w')) = select (open_at t) (share_links (data w)).
Proof.
  intros H N L. destruct k; [|done|]; cbn [tick] in H; apply discarded_data in H as [-> [E|E]]; (split; [done|]); rewrite E; try done.
  - cbn. split; [|done]. apply select_delete_sub. intros r Q. unfold live_at, spent in *. destruct (RefreshToken.revoked r); [done|].
    cbn [negb andb orb] in *. lia.
  - cbn. split; [done|]. apply select_update_sub. intros r P. split; [|done]. unfold open_at, overdue in *.
    destruct (ShareLink.expires_at r) as [e|]; [|done]. apply andb_true_iff in P as [P ->]. cbn [andb]. lia.
Qed.
End Maintenance.

(** ** Concrete runs *)

(** Bob's docs of Tree.v, marked in 1970 as WebDAV's DELETE does, the folder
    only, and a file of another tree. *)
Definition demo_binned : World Server :=
  demo_files [FileEntry.set_is_trashed true demo_docs; demo_sub; demo_note; demo_row 14 None "plan" "file"].

Notation demo_purge := (purge_trash (O := toy_env []) demo_binned) (only parsing).

(** The live note and its folder go with the docs, and the plan stays. *)
Lemma purge_witness : exists w', demo_purge = (Ok 1, w')
  /\ demo_row 14 None "plan" "file" ∈ file_entries (data w') /\ ~ demo_note ∈ file_entries (data w')
  /\ FileEntry.is_trashed demo_note = false.
Proof.
  destruct (purge_trash_spec (O := toy_env []) demo_binned toy_env_reliable ltac:(vm_compute; reflexivity))
    as (w' & E & F & _). exists w'. split; [exact E|]. split; [|split; [|reflexivity]].
  - apply F. split; [apply list_elem_of_In; do 3 right; left; reflexivity|]. intros (d & Hd & Od & B).
    apply below_root in B as ->; [|reflexivity]. vm_compute in Od. discriminate Od.
  - intros H. apply F in H as [_ H]. apply H. exists (FileEntry.set_is_trashed true demo_docs).
    split; [by left|]. split; [vm_compute; reflexivity|].
    apply below_step with demo_sub; [split; [by right; left|reflexivity]|].
    apply below_step with demo_note; [split; [by right; right; left|reflexivity]|apply below_refl].
Defined.

(** A tick over Bob's sessions of Auth.v. *)
Lemma cleaning_witness : exists w', tick (O := toy_env []) CleanTokens Auth.demo_session = (Ok tt, w')
  /\ select (live_at 1700000000000100) (refresh_tokens (data w'))
     = select (live_at 1700000000000100) (refresh_tokens (data Auth.demo_session)).
Proof.
  destruct (tick (O := toy_env []) CleanTokens Auth.demo_session) as [o w'] eqn:E.
  destruct (cleaning_invisible (O := toy_env []) CleanTokens Auth.demo_session o w' 1700000000000100 E ltac:(discriminate)
    ltac:(vm_compute; discriminate)) as (-> & H & _).
  exists w'. split; [reflexivity|exact H].
Defined.
End Maintenance.
