(* ===== verification/Search.v ===== *)
(** * Search: finding files by name and by text

    backend/crates/search: the index of tantivy, which holds a document for
    every indexed file of every user; the search handlers with their fallback to
    the database; and the extraction of a file's text.  The state is the server
    with the index, when there is one. *)

From S2P Require Import Prelude Text Effects Externals Schema Account Fs Storage Files Tree Tenancy S3 FsHandler Utf8 Transcoder Streaming.

Module Search.
Import Files Tree Tenancy.

Record Doc := { d_id : rstr; d_user_id : rstr; d_name : rstr; d_content : rstr; d_mime : rstr; d_entry : rstr }.

Record SearchResult := { id : rstr; name : rstr; mime_type : rstr; entry_type : rstr; score : rstr }.

(** tantivy: the query language, which documents a query matches, and the best
    of them with their score. *)
Class Tantivy := {
  Query : Type;
  parse_query : rstr -> option Query;
  all_query : Query;
  matches : Query -> Doc -> bool;
  top_docs : Z -> Query -> list Doc -> list (Doc * rstr);
  top_docs_match : forall n q ds d s, (d, s) ∈ top_docs n q ds -> d ∈ ds /\ matches q d = true;
  top_docs_all : forall n q ds d, Z.of_nat (length ds) <= n -> d ∈ ds -> matches q d = true -> exists s, (d, s) ∈ top_docs n q ds;
  all_matches : forall d, matches all_query d = true
}.

(** The case mapping of the database's locale. *)
Class PgLower := { pg_lower : rstr -> rstr }.

(** What the writer has done and not committed, what is committed, and what the
    reader has loaded. *)
Record Index := { pending : list Doc; committed : list Doc; visible : list Doc }.

Record State := mkState { server : Server; search_index : option Index }.

Definition on_index (f : Index -> Index) (s : State) : State := mkState (server s) (option_map f (search_index s)).

Definition delete_term (i : rstr) (x : Index) : Index :=
  {| pending := delete_rows (fun d => bool_decide (d_id d = i)) (pending x); committed := committed x; visible := visible x |}.
Definition add_document (d : Doc) (x : Index) : Index :=
  {| pending := insert_row d (pending x); committed := committed x; visible := visible x |}.
Definition commit (x : Index) : Index := {| pending := pending x; committed := pending x; visible := visible x |}.

(** The reader reloads some time after a commit. *)
Definition reload (x : Index) : Index := {| pending := pending x; committed := committed x; visible := committed x |}.

(** &text[..n]: the first [n] bytes, when a character ends there. *)
Fixpoint str_take (n : Z) (s : rstr) : option rstr :=
  if n =? 0 then Some [] else
  match s with
  | [] => None
  | c :: r => let k := Z.of_nat (length (utf8_char c)) in
              if n <? k then None else option_map (cons c) (str_take (n - k) r)
  end.

Record SearchHit := { h_id : rstr; h_name : rstr; h_mime : option rstr; h_entry : rstr; h_size : option Z; h_score : option rstr }.
Record SearchAnswer := { results : list SearchHit; total : Z; query : rstr; engine : rstr }.

Record ExtractionResult := { text : rstr; method : rstr; confidence : rstr; page_count : option Z }.
Record ExtractAnswer := {
  x_file_id : Z; x_method : rstr; x_confidence : rstr; x_pages : option Z; text_length : Z; text_preview : rstr }.

Record ReindexAnswer := { files_found : Z; files_indexed : Z; reindex_engine : rstr }.

Section Search.
Context {O : Oracle} {UT : UuidText} {CO : Collation} {PL : PgLower} {TV : Tantivy} {PR : Transcoder.Programs}.
(** PCOS_STORAGE__BASE_PATH and the current directory of the server. *)
Context (env_base : option rstr) (cwd : Fs.path).

Definition on_server {A} (m : M Server A) : M State A := fun w =>
  let '(o, w') := m (mkWorld (server (data w)) (pos w)) in (o, mkWorld (mkState (data w') (search_index (data w))) (pos w')).

(** ** The index *)

Definition index_document (file_id user_id : Z) (name content mime entry : rstr) : M State unit :=
  _ ← modify (on_index (delete_term (uuid_to_string file_id)));
  _ ← io (fun s => inr (tt, on_index (add_document
        {| d_id := uuid_to_string file_id; d_user_id := uuid_to_string user_id; d_name := name; d_content := content;
           d_mime := mime; d_entry := entry |}) s));
  io (fun s => inr (tt, on_index commit s)).

Definition remove_document (file_id : Z) : M State unit :=
  _ ← modify (on_index (delete_term (uuid_to_string file_id)));
  io (fun s => inr (tt, on_index commit s)).

(** searcher.doc of every hit. *)
Fixpoint load (hits : list (Doc * rstr)) : M State (list SearchResult) :=
  match hits with
  | [] => mret []
  | (d, sc) :: r =>
      _ ← io (fun s => inr (tt, s));
      rest ← load r;
      mret ({| id := d_id d; name := d_name d; mime_type := d_mime d; entry_type := d_entry d; score := sc |} :: rest)
  end.

Definition full_query (user_id : Z) (query_str : rstr) : rstr :=
  lit "user_id:" ++ uuid_to_string user_id ++ lit " AND (" ++ query_str ++ lit ")".

Definition the_query (user_id : Z) (query_str : rstr) : Query :=
  match parse_query (full_query user_id query_str) with
  | Some q => q
  | None => default all_query (parse_query query_str)
  end.

(** TopDocs::with_limit panics on 0. *)
Definition index_search (ix : Index) (user_id : Z) (query_str : rstr) (limit : Z) : M State (list SearchResult) :=
  if limit =? 0 then panic else
  hits ← io (fun s => inr (top_docs limit (the_query user_id query_str) (visible ix), s));
  load hits.

(** ** Searching *)

Definition ilike (pat s : rstr) : bool := S3.like (pg_lower pat) (pg_lower s).

Definition live_of (user_id : Z) (f : FileEntry.row) : bool := owned_by user_id f && negb (FileEntry.is_trashed f).

(** ORDER BY updated_at DESC *)
Definition newest (a b : FileEntry.row) : bool := FileEntry.updated_at b <=? FileEntry.updated_at a.

Definition rows_like (user_id : Z) (pattern : rstr) (s : Server) : list FileEntry.row :=
  sort_by newest (select (fun f => live_of user_id f && ilike pattern (FileEntry.name f)) (file_entries s)).

Definition database_hit (f : FileEntry.row) : SearchHit :=
  {| h_id := uuid_to_string (FileEntry.id f); h_name := FileEntry.name f; h_mime := FileEntry.mime_type f;
     h_entry := FileEntry.entry_type f; h_size := Some (FileEntry.size_bytes f); h_score := None |}.

Definition index_hit (r : SearchResult) : SearchHit :=
  {| h_id := id r; h_name := name r; h_mime := Some (mime_type r); h_entry := entry_type r; h_size := None;
     h_score := Some (score r) |}.

Definition answer (hits : list SearchHit) (q : rstr) (engine : string) : SearchAnswer :=
  {| results := hits; total := Z.of_nat (length hits); query := q; engine := lit engine |}.

Definition search_database (user_id : Z) (q : rstr) (limit : Z) : M Server SearchAnswer :=
  let pattern := lit "%" ++ q ++ lit "%" in
  let db_limit := wrap_i64 limit in
  rows ← map_err (to_internal "") (statement (fun _ s =>
    if db_limit <? 0 then Fails (DbOther (lit "LIMIT must not be negative"))
    else Rows (take (Z.to_nat db_limit) (rows_like user_id pattern s)) s));
  mret (answer (map database_hit rows) q "database").

Definition search (user_id : Z) (q : rstr) (limit : option Z) : M State SearchAnswer :=
  let limit := default 50 limit in
  s ← get;
  match search_index s with
  | Some idx =>
      found ← attempt (index_search idx user_id q limit);
      match found with
      | Some rs => mret (answer (map index_hit rs) q "tantivy")
      | None => on_server (search_database user_id q limit)
      end
  | None => on_server (search_database user_id q limit)
  end.

(** service.rs *)
Definition service_search (ix : Index) (user_id : Z) (q : rstr) (limit : Z) : M State (list SearchResult) :=
  if negb (nonempty (trim q)) then mret [] else
  map_err (to_internal "Search failed: ") (index_search ix user_id q limit).

(** SELECT DISTINCT *)
Definition distinct (l : list rstr) : list rstr := remove_dups l.

Definition suggest (user_id : Z) (q : rstr) : M State (list rstr) :=
  on_server (map_err (to_internal "") (Effects.query (fun s =>
    take 10 (sort_by text_le (distinct (map FileEntry.name
      (select (fun f => live_of user_id f && ilike (q ++ lit "%") (FileEntry.name f)) (file_entries s)))))))).

(** ** Reindexing *)

Definition index_row (user_id : Z) (f : FileEntry.row) : M State unit :=
  index_document (FileEntry.id f) user_id (FileEntry.name f) [] (default [] (FileEntry.mime_type f)) (FileEntry.entry_type f).

Fixpoint index_rows (user_id : Z) (rows : list FileEntry.row) (indexed : Z) : M State Z :=
  match rows with
  | [] => mret indexed
  | f :: r =>
      ok ← attempt (index_row user_id f);
      index_rows user_id r (match ok with Some _ => indexed + 1 | None => indexed end)
  end.

Definition live_rows (user_id : Z) : M State (list FileEntry.row) :=
  on_server (Effects.query (fun s => select (live_of user_id) (file_entries s))).

Definition reindex (user_id : Z) : M State ReindexAnswer :=
  rows ← map_err (to_internal "") (live_rows user_id);
  s ← get;
  indexed ← match search_index s with Some _ => index_rows user_id rows 0 | None => mret 0 end;
  mret {| files_found := Z.of_nat (length rows); files_indexed := indexed;
          reindex_engine := if 0 <? indexed then lit "tantivy" else lit "none" |}.

(** service.rs: the first document that fails ends it. *)
Fixpoint index_all (user_id : Z) (rows : list FileEntry.row) : M State unit :=
  match rows with
  | [] => mret tt
  | f :: r => _ ← map_err (to_internal "Index failed: ") (index_row user_id f); index_all user_id r
  end.

Definition reindex_user (user_id : Z) : M State Z :=
  rows ← live_rows user_id;
  _ ← index_all user_id rows;
  mret (Z.of_nat (length rows)).

(** ** Extracting text: extraction.rs *)

Definition MAX_TEXT : Z := 1048576.

Definition disk_path (file_path : rstr) : option Fs.path := FsHandler.dir (FsHandler.root_at cwd file_path).

Definition read_bytes (file_path : rstr) : M Server bytes := Storage.fs_read (fun f => p ← disk_path file_path; Fs.read f p).

Definition extract_plaintext (file_path : rstr) : M Server ExtractionResult :=
  content ← map_err (to_internal "Failed to read file: ")
    (Storage.fs_read (fun f => p ← disk_path file_path; b ← Fs.read f p; Utf8.from_utf8 b));
  truncated ← (if MAX_TEXT <? str_len content then or_panic (str_take MAX_TEXT content) else mret content);
  mret {| text := truncated; method := lit "plaintext"; confidence := lit "1.0"; page_count := None |}.

(** What is between the first "(" and the last ")" of a line, when they are in
    that order. *)
Fixpoint before_last (c : Z) (s : rstr) : option rstr :=
  match s with
  | [] => None
  | x :: r => match before_last c r with
              | Some b => Some (x :: b)
              | None => if x =? c then Some [] else None
              end
  end.

Definition between_parens (line : rstr) : option rstr :=
  match split_once (chr "(") line with
  | Some (_, rest) => before_last (chr ")") rest
  | None => None
  end.

(** The markers BT and ET of a text object, in this order when a line has both. *)
Fixpoint pdf_lines (ls : list rstr) (text : rstr) (in_text : bool) (pages : Z) : rstr * Z :=
  match ls with
  | [] => (text, pages)
  | line :: r =>
      let pages := if contains_str (lit "/Type /Page") line then wrap_u32 (pages + 1) else pages in
      let in_text := if contains_str (lit "BT") line then true else in_text in
      let in_text := if contains_str (lit "ET") line then false else in_text in
      let text := if in_text then match between_parens line with Some t => text ++ t ++ lit " " | None => text end else text in
      pdf_lines r text in_text pages
  end.

Definition extract_ocr (file_path : rstr) : M Server ExtractionResult :=
  r ← Streaming.command "tesseract" [file_path; lit "stdout"; lit "--psm"; lit "3"; lit "-l"; lit "eng"];
  match r with
  | inl e => throw (Internal (lit "Tesseract not available: " ++ e ++ lit ". Install with: apt-get install tesseract-ocr"))
  | inr output =>
      if negb (Transcoder.success output)
      then throw (Internal (lit "Tesseract failed: " ++ Utf8.from_utf8_lossy (Transcoder.stderr output)))
      else mret {| text := trim (Utf8.from_utf8_lossy (Transcoder.stdout output)); method := lit "tesseract-ocr";
                   confidence := lit "0.6"; page_count := Some 1 |}
  end.

Definition extract_pdf (file_path : rstr) : M Server ExtractionResult :=
  data ← map_err (to_internal "Failed to read PDF: ") (read_bytes file_path);
  let '(text, pages) := pdf_lines (lines (Utf8.from_utf8_lossy data)) [] false 0 in
  if negb (nonempty (trim text)) then extract_ocr file_path
  else mret {| text := trim text; method := lit "pdf-parse"; confidence := lit "0.7"; page_count := Some (Z.max pages 1) |}.

Definition plain_types : list string :=
  ["text/plain"; "text/markdown"; "text/csv"; "text/html"; "application/json"; "application/xml"; "text/xml"]%string.

Definition extract_by_type (file_path mime : rstr) : M Server ExtractionResult :=
  if bool_decide (mime = lit "application/pdf") then extract_pdf file_path
  else if existsb (fun t : string => bool_decide (mime = lit t)) plain_types then extract_plaintext file_path
  else if starts_with (lit "image/") mime then extract_ocr file_path
  else throw (Validation (lit "Unsupported MIME type for extraction: " ++ mime)).

(** The handler. *)
Definition extract_text (user_id file_id : Z) : M State ExtractAnswer :=
  entry ← on_server (map_err (to_internal "") (Effects.query (fun s =>
    find_row (fun f => has_id file_id f && live_of user_id f) (file_entries s))));
  f ← ok_or entry (NotFound (lit "File not found"));
  let mime := default (lit "application/octet-stream") (FileEntry.mime_type f) in
  sp ← ok_or (FileEntry.storage_path f) (NotFound (lit "File has no storage path"));
  let file_path := default (lit "/data/pcos/storage") env_base ++ lit "/" ++ sp in
  r ← on_server (extract_by_type file_path mime);
  s ← get;
  _ ← match search_index s with
      | Some _ => discard (index_document file_id user_id (FileEntry.name f) (text r) mime (lit "file"))
      | None => mret tt
      end;
  preview ← or_panic (str_take (Z.min (str_len (text r)) 500) (text r));
  mret {| x_file_id := file_id; x_method := method r; x_confidence := confidence r; x_pages := page_count r;
          text_length := str_len (text r); text_preview := preview |}.
(** ** What an answer holds *)

Lemma load_ok hits w rs w' : load hits w = (Ok rs, w') ->
  data w' = data w /\ forall r, r ∈ rs <-> exists d sc, (d, sc) ∈ hits
    /\ r = {| id := d_id d; name := d_name d; mime_type := d_mime d; entry_type := d_entry d; score := sc |}.
Proof.
  revert w rs. induction hits as [|[d sc] l IH]; intros w rs H; cbn [load] in H.
  - apply ret_Ok in H as [<- ->]. split; [done|]. intros r. rewrite elem_of_nil. split; [done|].
    intros (d & sc & X & _). by apply elem_of_nil in X.
  - apply bind_Ok in H as ([] & w1 & Hi & H). apply io_Ok in Hi as (_ & Hi & _). injection Hi as Hi.
    apply bind_Ok in H as (rest & w2 & Hl & H). apply ret_Ok in H as [<- <-].
    destruct (IH _ _ Hl) as [D I]. rewrite D, <- Hi. split; [done|]. intros r.
    rewrite elem_of_cons, I. split.
    + intros [-> |(d' & sc' & X & ->)]; eexists _, _; (split; [|reflexivity]); [by left|by right].
    + intros (d' & sc' & [[= -> ->]|X]%elem_of_cons & ->); [by left|]. right. by eexists _, _.
Qed.

Definition hit_of (h : SearchHit) (d : Doc) : Prop :=
  h_id h = d_id d /\ h_name h = d_name d /\ h_mime h = Some (d_mime d) /\ h_entry h = d_entry d.

Lemma index_search_ok ix u q limit w rs w' :
  index_search ix u q limit w = (Ok rs, w') -> data w' = data w
  /\ forall r, r ∈ rs -> exists d, d ∈ visible ix /\ matches (the_query u q) d = true /\ hit_of (index_hit r) d.
Proof.
  unfold index_search. destruct (limit =? 0); [by intros H; not_ok H|]. intros H. apply bind_Ok in H as (hits & w1 & Hi & H). apply io_Ok in Hi as (_ & Hi & _). injection Hi as E1 E2.
  apply load_ok in H as [D I]. rewrite D, <- E2. split; [done|]. intros r Hr. apply I in Hr as (d & sc & Hd & ->).
  rewrite <- E1 in Hd. apply top_docs_match in Hd as [? ?]. exists d. by split_and!.
Qed.

Lemma rows_like_own u pat s f : f ∈ rows_like u pat s -> f ∈ file_entries s /\ live_of u f = true /\ ilike pat (FileEntry.name f) = true.
Proof.
  unfold rows_like. rewrite (sort_by_perm newest). intros [H E]%elem_select. apply andb_true_iff in E as [? ?]. done.
Qed.

Definition reads_only (s s' : State) : Prop := s' = s.

#[local] Instance reads_only_preorder : PreOrder reads_only.
Proof. split; [by intros s|]. by intros s1 s2 s3 -> ->. Qed.

Lemma load_reads hits : preserves reads_only (load hits).
Proof.
  induction hits as [|[d sc] l IH]; cbn [load]; preserve. apply preserves_io; [apply _|]. intros s a s' E. by injection E as _ <-.
Qed.

Lemma index_search_reads ix u q limit : preserves reads_only (index_search ix u q limit).
Proof.
  unfold index_search. destruct (limit =? 0); [apply preserves_panic; apply _|]. preserve; [|apply load_reads].
  apply preserves_io; [apply _|]. intros s a s' E. by injection E as _ <-.
Qed.

(** what a search answers.  It changes nothing, and a hit is of a document of
    the index that matches the query the text makes with the user's id, or, when
    the index is not there or fails, of a live row of the user in the database
    whose name is like the text. *)
Theorem search_answers u q limit w a w' :
  search u q limit w = (Ok a, w') ->
  server (data w') = server (data w) /\ search_index (data w') = search_index (data w)
  /\ forall h, h ∈ results a ->
      (exists ix d, search_index (data w) = Some ix /\ d ∈ visible ix /\ matches (the_query u q) d = true /\ hit_of h d)
      \/ exists f, f ∈ file_entries (server (data w)) /\ live_of u f = true
           /\ ilike (lit "%" ++ q ++ lit "%") (FileEntry.name f) = true /\ h = database_hit f.
Proof.
  assert (DB : forall l w a w', on_server (search_database u q l) w = (Ok a, w') -> data w' = data w
    /\ forall h, h ∈ results a -> exists f, f ∈ file_entries (server (data w)) /\ live_of u f = true
           /\ ilike (lit "%" ++ q ++ lit "%") (FileEntry.name f) = true /\ h = database_hit f).
  { intros l v b v' H. unfold on_server in H. destruct (search_database u q l _) as [o x] eqn:E. injection H as -> <-.
    unfold search_database in E. run_ok E. apply statement_Ok in Hm as (_ & R & _). cbn [data] in R.
    destruct (wrap_i64 l <? 0); [done|]. injection R as <- R. cbn [data] in *. rewrite <- R. split; [by destruct (data v)|].
    intros h Hh. cbn [results answer] in Hh. apply list_elem_of_fmap in Hh as (f & -> & Hf).
    apply (subseteq_take _ _ f), rows_like_own in Hf as (? & ? & ?). by exists f. }
  unfold search. intros H. apply bind_Ok in H as (s & w1 & G & H). apply get_Ok in G as [-> <-]. cbv zeta in H.
  destruct (search_index (data w)) as [ix|] eqn:Ix.
  - apply bind_Ok in H as (found & w2 & F & H). unfold attempt, unwrap_or in F.
    destruct ((rs ← index_search ix u q (default 50 limit); mret (Some rs)) w) as [[x|e| |] v] eqn:E; try done; injection F as <- <-.
    + apply bind_Ok in E as (rs & w3 & E & R). apply ret_Ok in R as [<- <-]. apply index_search_ok in E as [D I].
      apply ret_Ok in H as [<- <-]. rewrite D. split_and!; [done..|]. intros h Hh. cbn [results answer] in Hh.
      apply list_elem_of_fmap in Hh as (r & -> & Hr). left. destruct (I r Hr) as (d & ? & ? & ?). by exists ix, d.
    + assert (D : data v = data w).
      { apply (index_search_reads ix u q (default 50 limit) w (Err e)) . unfold mbind, M_bind in E.
        destruct (index_search _ _ _ _ w) as [[rs|e'| |] v2]; try done; by injection E as <- <-. }
      destruct (DB _ _ _ _ H) as [D' I]. rewrite D', D in *. split_and!; [done..|]. intros h Hh. right. by apply I.
  - destruct (DB _ _ _ _ H) as [D' I]. rewrite D'. split_and!; [done..|]. intros h Hh. right. by apply I.
Qed.

(** a search that leaves its tenant.  When tantivy refuses the text put
    behind the user's filter, the filter is dropped: with the environment
    answering, every document that matches the text alone is answered, whosever
    file it is, and every document of every user when the text is refused too,
    as far as the limit goes. *)
Theorem search_leaks u q limit ix w :
  reliable O -> search_index (data w) = Some ix -> parse_query (full_query u q) = None ->
  Z.of_nat (length (visible ix)) <= limit -> limit <> 0 ->
  exists a w', search u q (Some limit) w = (Ok a, w')
    /\ forall d, d ∈ visible ix -> matches (default all_query (parse_query q)) d = true -> exists h, h ∈ results a /\ hit_of h d.
Proof.
  intros R Ix Pq Ll Nz. unfold search. cbn [default Datatypes.id].
  assert (L : forall hits v, exists rs v', load hits v = (Ok rs, v')).
  { induction hits as [|[d sc] l IH]; intros v; cbn [load]; [by eexists _, _|]. unfold mbind, M_bind, io. rewrite (proj2 (R _)).
    destruct (IH (mkWorld (data v) (S (pos v)))) as (rs & v' & ->). by eexists _, _. }
  assert (F : exists rs v', index_search ix u q limit w = (Ok rs, v')
    /\ forall d, d ∈ visible ix -> matches (default all_query (parse_query q)) d = true -> exists r, r ∈ rs /\ hit_of (index_hit r) d).
  { unfold index_search. replace (limit =? 0) with false by lia. unfold mbind, M_bind, io. rewrite (proj2 (R _)).
    unfold the_query. rewrite Pq. destruct (L (top_docs limit (default all_query (parse_query q)) (visible ix)) (mkWorld (data w) (S (pos w)))) as (rs & v' & E).
    exists rs, v'. split; [exact E|]. intros d Hd Md. destruct (top_docs_all limit _ _ d Ll Hd Md) as [sc Hsc].
    apply load_ok in E as [_ I]. eexists. split; [apply I; exists d, sc; split; [exact Hsc|reflexivity]|]. by split_and!. }
  destruct F as (rs & v' & E & I). exists (answer (map index_hit rs) q "tantivy"), v'.
  split.
  - eapply bind_run; [reflexivity|]. cbv beta zeta. rewrite Ix. eapply (bind_run _ _ _ (Some rs) v'); [|reflexivity]. unfold attempt, unwrap_or, mbind, M_bind. by rewrite E.
  - intros d Hd Md. destruct (I d Hd Md) as (r & Hr & Hh). exists (index_hit r). split; [|done]. cbn [results answer]. by apply list_elem_of_fmap_2.
Qed.
(** ** What reindexing leaves *)

Definition doc_of (u : Z) (f : FileEntry.row) : Doc :=
  {| d_id := uuid_to_string (FileEntry.id f); d_user_id := uuid_to_string u; d_name := FileEntry.name f; d_content := [];
     d_mime := default [] (FileEntry.mime_type f); d_entry := FileEntry.entry_type f |}.

Definition put (u : Z) (x : Index) (f : FileEntry.row) : Index :=
  commit (add_document (doc_of u f) (delete_term (uuid_to_string (FileEntry.id f)) x)).

Lemma index_row_run u f w :
  reliable O -> exists w', index_row u f w = (Ok tt, w') /\ data w' = on_index (fun x => put u x f) (data w).
Proof.
  intros R. unfold index_row, index_document, mbind, M_bind, modify, io. rewrite !(proj2 (R _)). eexists. split; [reflexivity|].
  cbn [data]. unfold on_index. cbn [server search_index]. by destruct (search_index (data w)).
Qed.

Lemma index_rows_run u rows n w :
  reliable O -> exists w', index_rows u rows n w = (Ok (n + Z.of_nat (length rows)), w')
    /\ data w' = on_index (fun x => fold_left (put u) rows x) (data w).
Proof.
  intros R. revert n w. induction rows as [|f r IH]; intros n w; cbn [index_rows fold_left length].
  - exists w. split; [by rewrite Z.add_0_r|]. unfold on_index. by destruct w as [[s [x|]] k].
  - destruct (index_row_run u f w R) as (w1 & E1 & D1). destruct (IH (n + 1) w1) as (w2 & E2 & D2). exists w2. split.
    + eapply (bind_run _ _ _ (Some tt) w1); [unfold attempt, unwrap_or, mbind, M_bind; by rewrite E1|]. cbn match. rewrite E2. f_equal. f_equal. lia.
    + rewrite D2, D1. unfold on_index. cbn [server search_index]. by destruct (search_index (data w)).
Qed.

Lemma put_docs u x f d :
  d ∈ pending (put u x f) <-> d = doc_of u f \/ d ∈ pending x /\ d_id d <> uuid_to_string (FileEntry.id f).
Proof.
  unfold put, commit, add_document, delete_term. cbn [pending]. rewrite elem_insert, elem_delete, bool_decide_eq_false. tauto.
Qed.

Lemma fold_docs u rows x d :
  base.NoDup (map (fun f => uuid_to_string (FileEntry.id f)) rows) ->
  d ∈ pending (fold_left (put u) rows x) <->
  (exists f, f ∈ rows /\ d = doc_of u f) \/ d ∈ pending x /\ forall f, f ∈ rows -> d_id d <> uuid_to_string (FileEntry.id f).
Proof.
  revert x. induction rows as [|f r IH]; intros x N; cbn [fold_left].
  - split; [intros H; right; split; [done|]; intros f Hf; by apply elem_of_nil in Hf|].
    intros [(f & Hf & _)|[H _]]; [by apply elem_of_nil in Hf|done].
  - apply NoDup_cons in N as [Nf N]. rewrite IH, put_docs by done. split.
    + intros [(g & Hg & ->)|[[-> |[H Hn]] Hr]].
      * left. exists g. split; [by right|done].
      * left. exists f. split; [by left|done].
      * right. split; [done|]. intros g [-> |Hg]%elem_of_cons; [done|by apply Hr].
    + intros [(g & [-> |Hg]%elem_of_cons & ->)|[H Hr]].
      * right. split; [by left|]. intros g Hg. cbn [d_id doc_of]. intros E. apply Nf. rewrite E. by apply (list_elem_of_fmap_2 (fun f => uuid_to_string (FileEntry.id f))).
      * left. by exists g.
      * right. split; [right; split; [done|apply Hr; by left]|]. intros g Hg. apply Hr. by right.
Qed.

Lemma fold_reader u rows x : visible (fold_left (put u) rows x) = visible x
  /\ (rows <> [] -> committed (fold_left (put u) rows x) = pending (fold_left (put u) rows x)).
Proof.
  revert x. induction rows as [|f r IH]; intros x; cbn [fold_left]; [done|]. destruct (IH (put u x f)) as [V C]. split; [exact V|].
  intros _. destruct r as [|g r]; [done|by apply C].
Qed.

(** reindexing.  With the environment answering and ids of distinct text, it
    indexes every live file and folder of the user by its name, without the text
    that was extracted from it; and every other document stays, those of files
    since deleted or trashed included, which only the reader's next load shows. *)
Theorem reindex_spec u w x :
  reliable O -> search_index (data w) = Some x ->
  base.NoDup (map (fun f => uuid_to_string (FileEntry.id f)) (select (live_of u) (file_entries (server (data w))))) ->
  exists a w' x', reindex u w = (Ok a, w') /\ files_indexed a = files_found a
    /\ files_found a = count_rows (live_of u) (file_entries (server (data w)))
    /\ server (data w') = server (data w) /\ search_index (data w') = Some x' /\ visible x' = visible x
    /\ (0 < files_found a -> committed x' = pending x')
    /\ forall d, d ∈ pending x' <->
         (exists f, f ∈ file_entries (server (data w)) /\ live_of u f = true /\ d = doc_of u f)
         \/ d ∈ pending x /\ forall f, f ∈ file_entries (server (data w)) -> live_of u f = true ->
              d_id d <> uuid_to_string (FileEntry.id f).
Proof.
  intros R Ix N. set (rows := select (live_of u) (file_entries (server (data w)))) in *.
  assert (L : exists w1, map_err (to_internal "") (live_rows u) w = (Ok rows, w1) /\ data w1 = data w).
  { unfold live_rows, map_err, on_server, Effects.query, statement. cbn [data pos]. rewrite (proj1 (R _)). eexists. split; [reflexivity|]. by destruct (data w). }
  destruct L as (w1 & E1 & D1). destruct (index_rows_run u rows 0 w1 R) as (w2 & E2 & D2).
  set (x' := fold_left (put u) rows x). destruct (fold_reader u rows x) as [V C].
  eexists _, w2, x'. split.
  { unfold reindex. eapply bind_run; [exact E1|]. eapply bind_run; [reflexivity|]. rewrite D1, Ix. eapply bind_run; [exact E2|]. reflexivity. }
  cbn [files_found files_indexed]. rewrite D2, D1. unfold on_index. rewrite Ix. cbn [server search_index option_map].
  split_and!; [lia|done|done|done|exact V| |].
  - intros Hp. apply C. intros ->. cbn in Hp. lia.
  - intros d. unfold x'. rewrite fold_docs by done. unfold rows. setoid_rewrite elem_select. naive_solver.
Qed.
End Search.

(** ** Concrete runs *)

(** A query language of one word, with the filter of the user before it; a text
    whose parentheses do not match is refused. *)
Fixpoint balanced (depth : nat) (s : rstr) : bool :=
  match s with
  | [] => (depth =? 0)%nat
  | c :: r =>
      if c =? chr "(" then balanced (S depth) r
      else if c =? chr ")" then match depth with 0%nat => false | S k => balanced k r end
      else balanced depth r
  end.

Definition toy_parse (t : rstr) : option (option rstr * rstr) :=
  if balanced 0 t then
    match strip_prefix (lit "user_id:") t with
    | Some r => Some (Some (take 36 r), removelast (drop 42 r))
    | None => Some (None, t)
    end
  else None.

Definition toy_matches (q : option rstr * rstr) (d : Doc) : bool :=
  match fst q with Some u => bool_decide (d_user_id d = u) | None => true end && starts_with (snd q) (d_name d).

Definition toy_tantivy : Tantivy.
Proof.
  refine {| parse_query := toy_parse; all_query := (None, []); matches := toy_matches;
            top_docs n q ds := map (fun d => (d, [])) (take (Z.to_nat n) (select (toy_matches q) ds)) |}.
  - intros n q ds d s (d' & [= -> ->] & H)%list_elem_of_fmap. apply (subseteq_take _ _ d'), elem_select in H. done.
  - intros n q ds d L H M. exists []. apply (list_elem_of_fmap_2 (fun d => (d, []))).
    rewrite take_ge; [by apply elem_select|]. assert (length (select (toy_matches q) ds) <= length ds)%nat by apply filter_length_le. lia.
  - done.
Defined.

Definition plain_lower : PgLower := {| pg_lower := map to_ascii_lowercase |}.

Definition demo_doc (u : Z) (n : string) : Doc :=
  {| d_id := plain_uuid_to_string 1; d_user_id := plain_uuid_to_string u; d_name := lit n; d_content := []; d_mime := []; d_entry := lit "file" |}.

(** Ada's file is indexed. *)
Definition demo_index : Index := {| pending := [demo_doc 1 "mine"]; committed := [demo_doc 1 "mine"]; visible := [demo_doc 1 "mine"] |}.
Definition demo_state : World State := mkWorld (mkState (data demo_shared) (Some demo_index)) 0.

Notation demo_search q := (search (O := toy_env []) (UT := plain_uuid) (PL := plain_lower) (TV := toy_tantivy) 2 (lit q) (Some 9)
  demo_state) (only parsing).

(** The text file holds 499 letters and one that takes two bytes. *)
Definition demo_text : bytes := replicate 499 97 ++ as_bytes [233].
Definition demo_note (mime : string) : FileEntry.row :=
  {| FileEntry.id := 5; FileEntry.user_id := 2; FileEntry.parent_id := None; FileEntry.name := lit "n";
     FileEntry.entry_type := lit "file"; FileEntry.mime_type := Some (lit mime); FileEntry.size_bytes := 501;
     FileEntry.sha256_hash := None; FileEntry.storage_path := Some (lit "n"); FileEntry.is_trashed := false;
     FileEntry.trashed_at := None; FileEntry.created_at := 0; FileEntry.updated_at := 0 |}.

Definition demo_extract (limit : nat) : outcome ExtractAnswer :=
  fst (extract_text (O := toy_env []) (UT := plain_uuid) (PR := Streaming.demo_programs) (Some (lit "/srv/data")) [] 2 5
    (mkWorld (mkState (set_disk (<[[lit "srv"; lit "data"; lit "n"] := Fs.File (take limit demo_text)]> Storage.demo_disk)
      (set_file_entries [demo_note "text/plain"] empty_server)) None) 0)).

(** a preview that cuts a character.  The extraction of a text whose
    five hundredth byte is inside a character panics, after the text was
    extracted; without that character it answers. *)
Theorem preview_panics : demo_extract 501 = Panic /\ exists a, demo_extract 499 = Ok a /\ text_length a = 499.
Proof. split; [vm_compute; reflexivity|]. eexists. split; vm_compute; reflexivity. Qed.

(** Bob asks for one closing parenthesis and is told of Ada's file. *)
Lemma search_leaks_witness : exists a w', demo_search ")" = (Ok a, w') /\ exists h, h ∈ results a /\ hit_of h (demo_doc 1 "mine").
Proof.
  destruct (search_leaks (O := toy_env []) (UT := plain_uuid) (PL := plain_lower) (TV := toy_tantivy) 2 (lit ")") 9 demo_index demo_state
    toy_env_reliable eq_refl) as (a & w' & E & I).
  - vm_compute. reflexivity.
  - vm_compute. discriminate.
  - discriminate.
  - exists a, w'. split; [exact E|]. apply I; [by left|vm_compute; reflexivity].
Defined.

Lemma search_answers_witness : exists a w', demo_search "no" = (Ok a, w') /\ server (data w') = server (data demo_state).
Proof.
  assert (H : exists a, fst (demo_search "no") = Ok a) by (eexists; vm_compute; reflexivity).
  destruct (demo_search "no") as [o w'] eqn:E. destruct H as (a & Ho). cbn [fst] in Ho. subst o. exists a, w'. split; [reflexivity|].
  exact (proj1 (search_answers (O := toy_env []) (UT := plain_uuid) (PL := plain_lower) (TV := toy_tantivy) 2 (lit "no") (Some 9) demo_state a w' E)).
Defined.

(** Bob's files join Ada's. *)
Lemma reindex_spec_witness : exists a w' x', reindex (O := toy_env []) (UT := plain_uuid) 2 demo_state = (Ok a, w')
  /\ search_index (data w') = Some x' /\ demo_doc 1 "mine" ∈ pending x'.
Proof.
  destruct (reindex_spec (O := toy_env []) (UT := plain_uuid) 2 demo_state demo_index toy_env_reliable eq_refl)
    as (a & w' & x' & E & _ & _ & _ & X & _ & _ & I).
  - apply (bool_decide_eq_true_1 _). vm_compute. reflexivity.
  - exists a, w', x'. split; [exact E|]. split; [exact X|]. apply I. right. split; [by left|]. intros f Hf Lf.
    assert (A : forallb (fun f => negb (live_of 2 f) || negb (bool_decide (d_id (demo_doc 1 "mine") = plain_uuid_to_string (FileEntry.id f))))
      (file_entries (server (data demo_state))) = true) by (vm_compute; reflexivity).
    rewrite forallb_forall in A. apply list_elem_of_In in Hf. apply A in Hf. rewrite Lf in Hf. cbn [negb orb] in Hf.
    apply negb_true_iff, bool_decide_eq_false in Hf. exact Hf.
Defined.
End Search.
