(* ===== verification/Codec.v ===== *)
(** * Codec: a text of JSON values that reads back

    An instance of serde_json's printer and parser for concrete runs: every
    value is written with its kind and length before it, and the parser inverts
    the printer; and one of JSON web tokens, whose text is of small characters. *)

From S2P Require Import Prelude Text Effects Externals Token Json.

Module Codec.
Import Json.

(** An array and an object are decided by what they hold. *)
Lemma value_rect (P : Value -> Prop) :
  P Null -> (forall b, P (Bool b)) -> (forall n, P (Num n)) -> (forall t, P (Float t)) -> (forall s, P (Str s)) ->
  (forall l, Forall P l -> P (Arr l)) -> (forall l, Forall (fun kv => P (snd kv)) l -> P (Obj l)) -> forall v, P v.
Proof.
  intros N B Nu F S A Ob. fix IH 1. intros [| | | | |l|l]; [done|done|done|done|done| |].
  - apply A. induction l as [|v l IHl]; constructor; [apply IH|exact IHl].
  - apply Ob. induction l as [|[k v] l IHl]; constructor; [apply IH|exact IHl].
Qed.

Definition with_length {A} (l : list A) (s : rstr) : rstr := Z.of_nat (length l) :: s.

Fixpoint encode (v : Value) : rstr :=
  match v with
  | Null => [0]
  | Bool b => [1; if b then 1 else 0]
  | Num n => [2; n]
  | Float t => 3 :: with_length t t
  | Str s => 4 :: with_length s s
  | Arr l => 5 :: with_length l (flat_map encode l)
  | Obj l => 6 :: with_length l (flat_map (fun kv => with_length (fst kv) (fst kv) ++ encode (snd kv)) l)
  end.

(** [n] values one after the other. *)
Fixpoint many {A} (d : rstr -> option (A * rstr)) (n : nat) (s : rstr) : option (list A * rstr) :=
  match n with
  | 0%nat => Some ([], s)
  | S k => match d s with
           | Some (a, r) => match many d k r with Some (l, r') => Some (a :: l, r') | None => None end
           | None => None
           end
  end.

Definition text_part (s : rstr) : option (rstr * rstr) :=
  match s with n :: r => Some (take (Z.to_nat n) r, drop (Z.to_nat n) r) | [] => None end.

Definition binding (d : rstr -> option (Value * rstr)) (s : rstr) : option (rstr * Value * rstr) :=
  match text_part s with
  | Some (k, r) => match d r with Some (v, r') => Some ((k, v), r') | None => None end
  | None => None
  end.

Fixpoint decode (fuel : nat) (s : rstr) : option (Value * rstr) :=
  match fuel, s with
  | S f, k :: r =>
      if k =? 0 then Some (Null, r)
      else if k =? 1 then match r with b :: r => Some (Bool (b =? 1), r) | [] => None end
      else if k =? 2 then match r with n :: r => Some (Num n, r) | [] => None end
      else if k =? 3 then option_map (fun p => (Float (fst p), snd p)) (text_part r)
      else if k =? 4 then option_map (fun p => (Str (fst p), snd p)) (text_part r)
      else if k =? 5 then
        match r with n :: r => option_map (fun p => (Arr (fst p), snd p)) (many (decode f) (Z.to_nat n) r) | [] => None end
      else
        match r with n :: r => option_map (fun p => (Obj (fst p), snd p)) (many (binding (decode f)) (Z.to_nat n) r) | [] => None end
  | _, _ => None
  end.

Fixpoint depth (v : Value) : nat :=
  match v with
  | Arr l => S (max_list (map depth l))
  | Obj l => S (max_list (map (fun kv => depth (snd kv)) l))
  | _ => 1%nat
  end.

Lemma text_part_app t r : text_part (with_length t t ++ r) = Some (t, r).
Proof. cbn. by rewrite Nat2Z.id, take_app_length, drop_app_length. Qed.

Lemma many_app {A} (d : rstr -> option (A * rstr)) e l r :
  Forall (fun a => forall r, d (e a ++ r) = Some (a, r)) l -> many d (length l) (flat_map e l ++ r) = Some (l, r).
Proof.
  intros H. revert r. induction H as [|a l Ha _ IH]; intros r; [done|]. cbn [length many flat_map].
  by rewrite <- app_assoc, Ha, IH.
Qed.

Lemma max_below n l : (max_list l <= n)%nat -> Forall (fun k => (k <= n)%nat) l.
Proof. intros H. apply Forall_forall. intros k Hk. apply max_list_elem_of_le in Hk. lia. Qed.

Lemma decode_encode v : forall fuel r, (depth v <= fuel)%nat -> decode fuel (encode v ++ r) = Some (v, r).
Proof.
  induction v as [|b|n|t|s|l IH|l IH] using value_rect; intros [|f] r D; try (cbn in D; lia); cbn [encode decode app].
  - done.
  - by destruct b.
  - done.
  - change (3 =? 0) with false. cbv iota. cbn [Z.eqb]. by rewrite text_part_app.
  - cbn [Z.eqb]. by rewrite text_part_app.
  - cbn [Z.eqb with_length app]. cbn [depth] in D. rewrite Nat2Z.id, many_app; [done|].
    apply Nat.succ_le_mono, max_below in D. rewrite Forall_map in D. apply Forall_forall. intros v Hv r'.
    rewrite Forall_forall in IH, D. by apply IH; [|apply D].
  - cbn [Z.eqb with_length app]. cbn [depth] in D. rewrite Nat2Z.id.
    rewrite (many_app (binding (decode f)) (fun kv => with_length (fst kv) (fst kv) ++ encode (snd kv))); [done|].
    apply Nat.succ_le_mono, max_below in D. rewrite Forall_map in D. apply Forall_forall. intros [k v] Hv r'.
    rewrite Forall_forall in IH, D. unfold binding. cbn [fst snd]. rewrite <- app_assoc, text_part_app.
    by rewrite (IH _ Hv); [|apply (D _ Hv)].
Qed.

Lemma max_map_le {A} (f g : A -> nat) l : Forall (fun a => (f a <= g a)%nat) l -> (max_list (map f l) <= sum_list_with g l)%nat.
Proof. induction 1 as [|a l Ha _ IH]; cbn; lia. Qed.

Lemma length_flat {A} (e : A -> rstr) l : length (flat_map e l) = sum_list_with (fun a => length (e a)) l.
Proof. induction l as [|a l IH]; cbn; [done|]. by rewrite length_app, IH. Qed.

Lemma depth_length v : (depth v <= length (encode v))%nat.
Proof.
  induction v as [|b|n|t|s|l IH|l IH] using value_rect; cbn [depth encode with_length length]; try lia; rewrite length_flat.
  - apply max_map_le in IH. lia.
  - assert (H : Forall (fun kv => (depth (snd kv) <= length (with_length (fst kv) (fst kv) ++ encode (snd kv)))%nat) l).
    { eapply Forall_impl; [exact IH|]. intros [k v] Hv. cbn [fst snd] in *. rewrite length_app. lia. }
    apply max_map_le in H. lia.
Qed.

Definition exact_json : JsonText := {|
  json_parse s := match decode (length s) s with Some (v, []) => Some v | _ => None end;
  json_print v := encode v |}.

Lemma exact_reads_back v : json_parse (JsonText := exact_json) (json_print (JsonText := exact_json) v) = Some v.
Proof.
  cbn. assert (H := decode_encode v (length (encode v)) [] (depth_length v)). rewrite app_nil_r in H. by rewrite H.
Qed.

(** ** Tokens *)

Import Token.

(** A number by its sign and its binary digits, the first one last. *)
Fixpoint pos_bits (p : positive) : rstr :=
  match p with xH => [chr "."] | xO q => chr "0" :: pos_bits q | xI q => chr "1" :: pos_bits q end.

Definition z_bits (z : Z) : rstr :=
  match z with Z0 => [chr "z"] | Zpos p => chr "p" :: pos_bits p | Zneg p => chr "n" :: pos_bits p end.

Fixpoint read_pos (s : rstr) : option (positive * rstr) :=
  match s with
  | [] => None
  | c :: r =>
      if c =? chr "." then Some (xH, r)
      else match read_pos r with
           | Some (p, r') => Some (if c =? chr "0" then xO p else xI p, r')
           | None => None
           end
  end.

Definition read_z (s : rstr) : option (Z * rstr) :=
  match s with
  | [] => None
  | c :: r =>
      if c =? chr "z" then Some (0, r)
      else match read_pos r with
           | Some (p, r') => Some (if c =? chr "p" then Zpos p else Zneg p, r')
           | None => None
           end
  end.

Lemma read_pos_bits p s : read_pos (pos_bits p ++ s) = Some (p, s).
Proof. induction p as [p IH|p IH|]; [| |done]; cbn [pos_bits app read_pos]; by rewrite IH. Qed.

Lemma read_z_bits z s : read_z (z_bits z ++ s) = Some (z, s).
Proof. destruct z as [|p|p]; [done| |]; cbn [z_bits app read_z]; by rewrite read_pos_bits. Qed.

Definition text_encode (c : Claims) (key : rstr) : rstr + rstr :=
  inr (z_bits (sub c) ++ z_bits (iat c) ++ z_bits (exp c) ++ z_bits (jti c) ++ z_bits (Z.of_nat (length (email c))) ++ email c ++ key).

Definition read_claims (token : rstr) : option (Claims * rstr) :=
  '(s, r) ← read_z token;
  '(i, r) ← read_z r;
  '(e, r) ← read_z r;
  '(j, r) ← read_z r;
  '(l, r) ← read_z r;
  Some ({| sub := s; email := take (Z.to_nat l) r; iat := i; exp := e; jti := j |}, drop (Z.to_nat l) r).

Definition text_decode (now : Z) (token key : rstr) : rstr + Claims :=
  match read_claims token with
  | Some (c, k) => if bool_decide (k = key) then (if now <=? exp c + LEEWAY then inr c else inl (lit "ExpiredSignature"))
                   else inl (lit "InvalidSignature")
  | None => inl (lit "InvalidToken")
  end.

Definition text_jwt : JsonWebToken.
Proof.
  refine {| jwt_encode := text_encode; jwt_decode := text_decode; jwt_expired := lit "ExpiredSignature" |}.
  - intros [s e i x j] key t now [= <-] _. unfold text_decode, read_claims. cbn [sub email iat exp jti].
    rewrite !read_z_bits. cbn [mbind option_bind]. rewrite !read_z_bits. cbn [mbind option_bind].
    rewrite !read_z_bits. cbn [mbind option_bind]. rewrite !read_z_bits. cbn [mbind option_bind].
    rewrite !read_z_bits. cbn [mbind option_bind].
    rewrite Nat2Z.id, drop_app_length, take_app_length. by rewrite bool_decide_eq_true_2.
  - intros c key t now. unfold text_decode. destruct (read_claims t) as [[c' k]|]; [|done].
    intros H. case_hyp H; [|done]. case_hyp H; [|done]. injection H as <-. lia.
Defined.
End Codec.
