(* ===== verification/Insight.v ===== *)
(** * Insight: analytics, the assistant and the list of jobs

    backend/crates/analytics, ai and worker: the aggregating queries behind the
    dashboards, the search for duplicates, the calls of a language model behind
    an HTTP server, which is a parameter, and the table of jobs. *)

From S2P Require Import Prelude Text Tables Effects Externals Schema Account Files Json S3 Utf8 Transcoder Streaming Codec Search.

(** ** GROUP BY and SUM *)

Module Insight.
Import Account Files Json.

Section Groups.
Context {A K : Type} `{EqDecision K}.

(** GROUP BY: the rows of every value of the key. *)
Definition group_by (key : A -> K) (t : list A) : list (K * list A) :=
  map (fun k => (k, select (fun r => bool_decide (key r = k)) t)) (remove_dups (map key t)).
End Groups.

Definition sum_of (t : list FileEntry.row) : Z := foldr (fun f acc => FileEntry.size_bytes f + acc) 0 t.

(** ORDER BY a number DESC *)
Definition descending {A} (n : A -> Z) (a b : A) : bool := n b <=? n a.

(** ** Analytics *)

Record Overview := {
  total_files : Z; total_folders : Z; total_size_bytes : Z; total_devices : Z; active_shares : Z; total_backups : Z;
  formatted_size : rstr
}.
Record LargeFile := { l_id : Z; l_name : rstr; l_size : Z; l_mime : option rstr; l_formatted : rstr }.
Record TypeUse := { t_type : rstr; t_count : Z; t_size : Z; t_formatted : rstr }.
Record StorageAnalytics := { largest_files : list LargeFile; storage_by_type : list TypeUse }.

(** A size while it is divided is the fraction [num / den]; [den] is a power of
    two, so the division of an f64 is exact. *)

(** [as f64]: 53 bits, to the nearest and then to the even. *)
Definition half_even (num den : Z) : Z :=
  let q := num / den in
  let r := 2 * (num mod den) in
  if r <? den then q else if den <? r then q + 1 else if Z.even q then q else q + 1.

Definition to_f64 (n : Z) : Z :=
  let e := Z.max 0 (Z.log2 (Z.abs n) - 52) in Z.sgn n * (half_even (Z.abs n) (2 ^ e) * 2 ^ e).

(** [{:.1}] *)
Definition one_decimal (num den : Z) : rstr :=
  let t := half_even (10 * Z.abs num) den in
  (if num <? 0 then lit "-" else []) ++ show_uint (t / 10) ++ lit "." ++ show_uint (t mod 10).

Definition UNITS : list string := ["B"; "KB"; "MB"; "GB"; "TB"]%string.

Fixpoint in_units (units : list string) (num den : Z) : rstr :=
  match units with
  | [] => one_decimal num den ++ lit " PB"
  | unit :: r => if num <? 1024 * den then one_decimal num den ++ lit " " ++ lit unit else in_units r num (1024 * den)
  end.

Definition format_bytes (bytes : Z) : rstr := in_units UNITS (to_f64 bytes) 1.

Definition live_file (user_id : Z) (f : FileEntry.row) : bool :=
  owned_by user_id f && is_file f && negb (FileEntry.is_trashed f).
Definition live_folder (user_id : Z) (f : FileEntry.row) : bool :=
  owned_by user_id f && bool_decide (FileEntry.entry_type f = lit "folder") && negb (FileEntry.is_trashed f).

(** COALESCE(SPLIT_PART(mime_type, '/', 1), 'unknown') *)
Definition main_type (f : FileEntry.row) : rstr :=
  match FileEntry.mime_type f with
  | Some m => default m (option_map fst (split_once (chr "/") m))
  | None => lit "unknown"
  end.

Definition thirty_days : Z := 30 * 86400 * 1000000.

Section Insight.
Context {O : Oracle} {UT : UuidText} {CO : Collation} {PL : Search.PgLower}.
(** TO_CHAR(t, 'YYYY-MM-DD'), and what sqlx says of a NUMERIC where an i64 is wanted. *)
Context (day_of : Z -> rstr) (decode_error : rstr).

Definition number (f : Server -> Z) : M Server Z := unwrap_or (query f) 0.

Definition overview (uid : Z) : M Server Overview :=
  files ← number (fun s => count_rows (live_file uid) (file_entries s));
  folders ← number (fun s => count_rows (live_folder uid) (file_entries s));
  size ← unwrap_or (sum_query (live_file uid)) 0;
  ndevices ← number (fun s => count_rows (fun d => Device.user_id d =? uid) (devices s));
  shares ← number (fun s => count_rows (fun l => (ShareLink.user_id l =? uid) && ShareLink.is_active l) (share_links s));
  nbackups ← number (fun s => count_rows (fun b => Backup.user_id b =? uid) (backups s));
  mret {| total_files := files; total_folders := folders; total_size_bytes := size; total_devices := ndevices;
          active_shares := shares; total_backups := nbackups; formatted_size := format_bytes size |}.

Definition large_file (f : FileEntry.row) : LargeFile :=
  {| l_id := FileEntry.id f; l_name := FileEntry.name f; l_size := FileEntry.size_bytes f;
     l_mime := FileEntry.mime_type f; l_formatted := format_bytes (FileEntry.size_bytes f) |}.

(** Every group's sum is cast to a BIGINT, and the largest comes first. *)
Definition by_type (uid : Z) (s : Server) : list (rstr * Z * Z) :=
  sort_by (descending snd)
    (map (fun g => (fst g, Z.of_nat (length (snd g)), sum_of (snd g)))
       (group_by main_type (select (live_file uid) (file_entries s)))).

Definition type_use (r : rstr * Z * Z) : TypeUse :=
  let '(t, count, size) := r in {| t_type := t; t_count := count; t_size := size; t_formatted := format_bytes size |}.

Definition storage_analytics (uid : Z) : M Server StorageAnalytics :=
  largest ← unwrap_or (query (fun s =>
    take 10 (sort_by (descending FileEntry.size_bytes) (select (live_file uid) (file_entries s))))) [];
  types ← unwrap_or (statement (fun _ s =>
    let l := by_type uid s in
    if forallb (fun r => int8 (snd r)) l then Rows l s else Fails (DbOther (lit "bigint out of range")))) [];
  mret {| largest_files := map large_file largest; storage_by_type := map type_use types |}.

Definition recent (uid now : Z) (a : AuditLog.row) : bool :=
  bool_decide (AuditLog.user_id a = Some uid) && (now - thirty_days <? AuditLog.created_at a).

Definition activity_timeline (uid : Z) : M Server (list (rstr * Z)) :=
  unwrap_or (query_now (fun now s =>
    sort_by (fun a b => text_le (fst a) (fst b))
      (map (fun g => (fst g, Z.of_nat (length (snd g))))
         (group_by (fun a => day_of (AuditLog.created_at a)) (select (recent uid now) (audit_log s)))))) [].

Definition file_type_breakdown (uid : Z) : M Server (list (rstr * Z)) :=
  breakdown ← unwrap_or (query (fun s =>
    take 20 (sort_by (descending snd)
      (map (fun g => (fst g, Z.of_nat (length (snd g))))
         (group_by FileEntry.mime_type (select (live_file uid) (file_entries s))))))) [];
  mret (map (fun r => (default (lit "unknown") (fst r), snd r)) breakdown).

Definition gauge (name help : string) (n : Z) : rstr :=
  lit "# HELP " ++ lit name ++ lit " " ++ lit help ++ [10] ++ lit "# TYPE " ++ lit name ++ lit " gauge" ++ [10]
    ++ lit name ++ lit " " ++ show_int n ++ [10].

(** The handler of no user: it has no extractor of a token. *)
Definition prometheus_metrics : M Server rstr :=
  nusers ← number (fun s => Z.of_nat (length (users s)));
  files ← number (fun s => count_rows is_file (file_entries s));
  ndevices ← number (fun s => Z.of_nat (length (devices s)));
  online ← number (fun s => count_rows Device.is_online (devices s));
  mret (gauge "pcos_users_total" "Total registered users" nusers ++ gauge "pcos_files_total" "Total files stored" files
        ++ gauge "pcos_devices_total" "Total registered devices" ndevices
        ++ gauge "pcos_devices_online" "Currently online devices" online).

(** ** Duplicates *)

Record DuplicateFile := { d_id : Z; d_name : rstr; d_size : Z }.
Record DuplicateGroup := { hash : rstr; count : Z; total_wasted_bytes : Z; files : list DuplicateFile }.

Definition hashed (uid : Z) (f : FileEntry.row) : bool := live_file uid f && bool_decide (is_Some (FileEntry.sha256_hash f)).

(** The groups of more than one file, the largest sum first. *)
Definition duplicate_groups (uid : Z) (s : Server) : list (rstr * Z * Z) :=
  sort_by (descending snd)
    (map (fun g => (default [] (fst g), Z.of_nat (length (snd g)), sum_of (snd g)))
       (List.filter (fun g => (1 <? length (snd g))%nat)
          (group_by FileEntry.sha256_hash (select (hashed uid) (file_entries s))))).

Definition of_hash (uid : Z) (h : rstr) (f : FileEntry.row) : bool :=
  owned_by uid f && bool_decide (FileEntry.sha256_hash f = Some h) && negb (FileEntry.is_trashed f).

(** SUM of a BIGINT column is NUMERIC, which sqlx does not decode as an i64:
    the query fails when it has a row. *)
Definition grouped (uid : Z) : M Server (list (rstr * Z * Z)) :=
  statement (fun _ s => match duplicate_groups uid s with [] => Rows [] s | _ :: _ => Fails (DbOther decode_error) end).

Fixpoint group_files (uid : Z) (rows : list (rstr * Z * Z)) : M Server (list DuplicateGroup) :=
  match rows with
  | [] => mret []
  | (h, n, total_size) :: rest =>
      fs ← query (fun s => select (of_hash uid h) (file_entries s));
      gs ← group_files uid rest;
      mret ({| hash := h; count := n; total_wasted_bytes := total_size - default 0 (option_map FileEntry.size_bytes (head fs));
               files := map (fun f => {| d_id := FileEntry.id f; d_name := FileEntry.name f; d_size := FileEntry.size_bytes f |}) fs |}
            :: gs)
  end.

Definition find_duplicates (uid : Z) : M Server (list DuplicateGroup) :=
  rows ← map_err (to_internal "") (grouped uid);
  group_files uid rows.

Definition smart_search (uid : Z) (q : rstr) : M Server (list Search.SearchHit) :=
  rows ← map_err (to_internal "") (query (fun s => take 50 (Search.rows_like uid (lit "%" ++ q ++ lit "%") s)));
  mret (map Search.database_hit rows).
End Insight.

(** ** The assistant *)

(** One request to the server of the model, by its address and its body: an
    error of the client, or the status and the body of the answer. *)
Class Ollama := { ollama : nat -> rstr -> option rstr -> rstr + (Z * rstr) }.

Record AiProvider := { base_url : rstr; model : rstr }.

Fixpoint index_of (c : Z) (s : rstr) : option nat :=
  match s with
  | [] => None
  | x :: r => if x =? c then Some 0%nat else option_map S (index_of c r)
  end.
Definition last_index_of (c : Z) (s : rstr) : option nat :=
  option_map (fun i => (length s - 1 - i)%nat) (index_of c (reverse s)).

(** Vec<String> *)
Definition strings (v : Value) : option (list rstr) :=
  match v with Arr l => mapM as_str l | _ => None end.

(** Deserialize for OllamaResponse. *)
Definition ollama_response (v : Value) : option rstr :=
  match v with
  | Obj l => if (1 <? length (List.filter (fun kv => bool_decide (fst kv = lit "response")) l))%nat then None
             else get "response" v ≫= as_str
  | Arr [a] => as_str a
  | _ => None
  end.

Section Assistant.
Context {O : Oracle} {JT : JsonText} {OL : Ollama}.
(** PCOS_AI__URL and PCOS_AI__MODEL, the error serde_json gives for a text that
    is no list of strings, and the text of a status. *)
Context (env_url env_model : option rstr) (json_error : rstr -> rstr) (status_text : Z -> rstr).

Definition from_env : option AiProvider :=
  Some {| base_url := default (lit "http://ollama:11434") env_url; model := default (lit "llama3.1") env_model |}.

Definition request_json (p : AiProvider) (prompt : rstr) : rstr :=
  json_print (obj [("model", Str (model p)); ("prompt", Str prompt); ("stream", Bool false)]%string).

Definition generate (p : AiProvider) (prompt : rstr) : M Server rstr :=
  r ← interact (fun n => ollama n (base_url p ++ lit "/api/generate") (Some (request_json p prompt)));
  match r with
  | inl e => throw (Internal (lit "AI request failed: " ++ e))
  | inr (st, body) =>
      if negb ((200 <=? st) && (st <? 300)) then throw (Internal (lit "AI returned status " ++ status_text st))
      else ok_or (json_parse body ≫= ollama_response) (Internal (lit "AI response parse failed: " ++ json_error body))
  end.

Definition health_check (p : AiProvider) : M Server bool :=
  r ← interact (fun n => ollama n (base_url p) None);
  mret (match r with inr _ => true | inl _ => false end).

(** [&response[start..=end]] panics when it starts after its end; brackets are
    one byte, so the characters count as the bytes do. *)
Definition tags_of (response : rstr) : outcome (AppError + list rstr) :=
  match json_parse response ≫= strings with
  | Some l => Ok (inr l)
  | None =>
      match index_of (chr "[") response, last_index_of (chr "]") response with
      | Some start, Some end_ =>
          if (S end_ <? start)%nat then Panic else
          let inner := take (S end_ - start) (drop start response) in
          match json_parse inner ≫= strings with
          | Some l => Ok (inr l)
          | None => Ok (inl (Internal (lit "Tag parse failed: " ++ json_error inner)))
          end
      | _, _ => Ok (inr [])
      end
  end.

Definition suggest_tags (p : AiProvider) (filename mime_type : rstr) : M Server (list rstr) :=
  response ← generate p (lit "Given a file named '" ++ filename ++ lit "' with MIME type '" ++ mime_type
    ++ lit "', suggest 3-5 relevant tags as a JSON array of strings. Only output the JSON array, nothing else.");
  r ← lift (tags_of response);
  match r with inl e => throw e | inr l => mret l end.

Definition auto_tag (filename mime_type : rstr) : M Server (list rstr) :=
  p ← ok_or from_env (Internal (lit "AI not configured"));
  suggest_tags p filename mime_type.

Definition classify_file (filename mime_type : rstr) : M Server rstr :=
  p ← ok_or from_env (Internal (lit "AI not configured"));
  category ← generate p (lit "Classify the file '" ++ filename ++ lit "' (type: " ++ mime_type
    ++ lit ") into ONE of these categories: Document, Image, Video, Audio, Archive, Code, Spreadsheet, Presentation, Other. Respond with only the category name.");
  mret (trim category).

Definition ai_status : M Server (bool * rstr) :=
  available ← match from_env with Some p => health_check p | None => mret false end;
  mret (available, default [] (option_map model from_env)).
End Assistant.

(** ** The list of jobs *)

Section Worker.
Context {O : Oracle}.

Record JobStats := { j_total : Z; j_running : Z; j_completed : Z; j_failed : Z }.

Definition of_user (uid : Z) (j : Job.row) : bool := bool_decide (Job.user_id j = Some uid).
Definition in_state (uid : Z) (st : string) (j : Job.row) : bool := of_user uid j && bool_decide (Job.status j = lit st).

(** The five columns selected. *)
Definition list_jobs (uid : Z) : M Server (list (Z * rstr * rstr * rstr * Z)) :=
  unwrap_or (query (fun s =>
    map (fun j => (Job.id j, Job.job_type j, Job.status j, Job.details j, Job.created_at j))
      (take 100 (sort_by (descending Job.created_at) (select (of_user uid) (jobs s)))))) [].

Definition job_stats (uid : Z) : M Server JobStats :=
  total ← unwrap_or (query (fun s => count_rows (of_user uid) (jobs s))) 0;
  running ← unwrap_or (query (fun s => count_rows (in_state uid "running") (jobs s))) 0;
  completed ← unwrap_or (query (fun s => count_rows (in_state uid "completed") (jobs s))) 0;
  failed ← unwrap_or (query (fun s => count_rows (in_state uid "failed") (jobs s))) 0;
  mret {| j_total := total; j_running := running; j_completed := completed; j_failed := failed |}.
End Worker.

(** ** Sums over groups *)

Section Sums.
Context {A K : Type} `{EqDecision K}.
Implicit Types (weight : A -> Z) (key : A -> K) (t : list A).

Definition weigh weight t : Z := foldr (fun r acc => weight r + acc) 0 t.

Lemma sum_indicator (x : K) (v : Z) ks : base.NoDup ks -> x ∈ ks ->
  foldr (fun k acc => (if bool_decide (x = k) then v else 0) + acc) 0 ks = v.
Proof.
  induction ks as [|k ks IH]; [by intros _ ?%not_elem_of_nil|]. intros [Hn ND]%NoDup_cons Hx. cbn.
  destruct (decide (x = k)) as [<-|Hne].
  - rewrite bool_decide_true by done. enough (foldr (fun k acc => (if bool_decide (x = k) then v else 0) + acc) 0 ks = 0) by lia.
    clear IH ND Hx. induction ks as [|k ks IH]; [done|]. cbn. rewrite bool_decide_false by set_solver.
    rewrite IH; [lia|set_solver].
  - rewrite bool_decide_false by done. rewrite IH; [lia|done|set_solver].
Qed.

Lemma sum_plus (f g : K -> Z) ks :
  foldr (fun k acc => f k + g k + acc) 0 ks = foldr (fun k acc => f k + acc) 0 ks + foldr (fun k acc => g k + acc) 0 ks.
Proof. induction ks as [|k ks IH]; [done|]. cbn. lia. Qed.

Lemma sum_ext (f g : K -> Z) ks : (forall k, f k = g k) ->
  foldr (fun k acc => f k + acc) 0 ks = foldr (fun k acc => g k + acc) 0 ks.
Proof. intros E. induction ks as [|k ks IH]; [done|]. cbn. by rewrite E, IH. Qed.

Lemma weigh_keys weight key t ks : base.NoDup ks -> (forall r, r ∈ t -> key r ∈ ks) ->
  foldr (fun k acc => weigh weight (select (fun r => bool_decide (key r = k)) t) + acc) 0 ks = weigh weight t.
Proof.
  intros ND. induction t as [|r t IH]; intros H.
  - clear. induction ks as [|k ks IH]; [done|]. cbn in *. lia.
  - rewrite (sum_ext _ (fun k => (if bool_decide (key r = k) then weight r else 0)
        + weigh weight (select (fun r => bool_decide (key r = k)) t))).
    + rewrite sum_plus, sum_indicator, IH; [done| |done|]; intros; apply H; set_solver.
    + intros k. unfold select. cbn. by destruct (bool_decide (key r = k)).
Qed.

(** The groups add up to the whole. *)
Lemma weigh_groups weight key t :
  foldr (fun g acc => weigh weight (snd g) + acc) 0 (group_by key t) = weigh weight t.
Proof.
  unfold group_by. rewrite <- (weigh_keys weight key t (remove_dups (map key t))).
  - induction (remove_dups (map key t)) as [|k ks IH]; [done|]. cbn. by rewrite IH.
  - apply NoDup_remove_dups.
  - intros r Hr. apply elem_of_remove_dups, list_elem_of_fmap. eauto.
Qed.

Lemma weigh_length t : weigh (fun _ => 1) t = Z.of_nat (length t).
Proof. induction t as [|r t IH]; [done|]. cbn [weigh foldr length] in *. unfold weigh in IH. lia. Qed.

Lemma weigh_mono weight t t' : (forall r, r ∈ t' -> 0 <= weight r) -> t `sublist_of` t' ->
  0 <= weigh weight t <= weigh weight t'.
Proof.
  intros H S. induction S as [|r t t' S IH|r t t' S IH]; [done| |]; unfold weigh in *; cbn [foldr];
    (assert (0 <= weight r) by (apply H; set_solver);
     assert (forall r, r ∈ t' -> 0 <= weight r) as H' by (intros; apply H; set_solver); specialize (IH H'); lia).
Qed.

Lemma group_in key t k rs : (k, rs) ∈ group_by key t ->
  rs = select (fun r => bool_decide (key r = k)) t /\ exists r, r ∈ t /\ key r = k.
Proof.
  unfold group_by. intros (k' & E & Hk)%list_elem_of_fmap. simplify_eq. split; [done|].
  apply elem_of_remove_dups, list_elem_of_fmap in Hk as (r & -> & Hr). eauto.
Qed.

Lemma group_keys key t : map fst (group_by key t) = remove_dups (map key t).
Proof. unfold group_by. rewrite map_map. cbn. apply map_id. Qed.
End Sums.

Lemma select_sublist {A} (p : A -> bool) t : select p t `sublist_of` t.
Proof. induction t as [|r t IH]; [done|]. cbn. destruct (p r); by constructor. Qed.

Lemma perm_sum {A} (f : A -> Z) l l' : l ≡ₚ l' ->
  foldr (fun x acc => f x + acc) 0 l = foldr (fun x acc => f x + acc) 0 l'.
Proof. induction 1; cbn; lia. Qed.

Lemma group_by_count {A K} `{EqDecision K} (key : A -> K) t :
  foldr (fun g acc => Z.of_nat (length (snd g)) + acc) 0 (group_by key t) = Z.of_nat (length t).
Proof.
  rewrite <- weigh_length. rewrite <- (weigh_groups (fun _ => 1) key t).
  induction (group_by key t) as [|g l IH]; [done|]. cbn [foldr]. by rewrite IH, weigh_length.
Qed.

Lemma sum_of_weigh t : sum_of t = weigh FileEntry.size_bytes t.
Proof. done. Qed.

Section Facts.
Context {O : Oracle} {UT : UuidText} {CO : Collation} {PL : Search.PgLower}.
Context (day_of : Z -> rstr) (decode_error : rstr).

(** ** What the dashboards show *)

Lemma number_run f w : reliable O -> number f w = (Ok (f (data w)), mkWorld (data w) (S (pos w))).
Proof.
  intros R. unfold number, unwrap_or, query, statement. by rewrite (proj1 (R (pos w))).
Qed.

Lemma statement_rows {D A} (f : Z -> D -> sql A D) a d (w : World D) : reliable O ->
  f (clock_at (pos w)) (data w) = Rows a d -> statement f w = (Ok a, mkWorld d (S (pos w))).
Proof. intros R E. unfold statement. by rewrite (proj1 (R (pos w))), E. Qed.

Lemma unwrap_or_run {D A} (m : M D A) x a w w' : m w = (Ok a, w') -> unwrap_or m x w = (Ok a, w').
Proof. intros E. unfold unwrap_or. by rewrite E. Qed.

(** The rows of [by_type] are those of the groups. *)
Lemma by_type_perm uid s :
  by_type uid s ≡ₚ map (fun g => (fst g, Z.of_nat (length (snd g)), sum_of (snd g)))
                     (group_by main_type (select (live_file uid) (file_entries s))).
Proof. apply sort_by_perm. Qed.

Lemma by_type_types uid s :
  map (fun r => fst (fst r)) (by_type uid s) ≡ₚ remove_dups (map main_type (select (live_file uid) (file_entries s))).
Proof. rewrite by_type_perm, map_map, <- group_keys. done. Qed.

Lemma by_type_sums uid s :
  foldr (fun r acc => snd (fst r) + acc) 0 (by_type uid s) = count_rows (live_file uid) (file_entries s)
  /\ foldr (fun r acc => snd r + acc) 0 (by_type uid s) = sum_size (live_file uid) s.
Proof.
  rewrite !(perm_sum _ _ _ (by_type_perm uid s)). unfold count_rows, sum_size. split.
  - rewrite <- (group_by_count main_type). by induction (group_by _ _) as [|g l IH]; [|cbn; rewrite IH].
  - change (foldr _ 0 (select (live_file uid) (file_entries s))) with (weigh FileEntry.size_bytes (select (live_file uid) (file_entries s))).
    rewrite <- (weigh_groups FileEntry.size_bytes main_type). by induction (group_by _ _) as [|g l IH]; [|cbn; rewrite IH].
Qed.

Lemma by_type_fits uid s :
  (forall f, f ∈ file_entries s -> live_file uid f = true -> 0 <= FileEntry.size_bytes f) ->
  sum_size (live_file uid) s <= i64_max -> forallb (fun r => int8 (snd r)) (by_type uid s) = true.
Proof.
  intros P B. apply forallb_forall. intros r Hr%list_elem_of_In. rewrite by_type_perm in Hr.
  apply list_elem_of_fmap in Hr as ([k rs] & -> & [-> _]%group_in). cbn [snd].
  set (t := select (live_file uid) (file_entries s)) in *.
  destruct (weigh_mono FileEntry.size_bytes (select (fun r => bool_decide (main_type r = k)) t) t) as [L U].
  { intros f [Hf Lf]%elem_select. by apply P. }
  { apply select_sublist. }
  change (sum_size (live_file uid) s) with (weigh FileEntry.size_bytes t) in B.
  unfold int8. rewrite sum_of_weigh. unfold i64_max in B. lia.
Qed.

Lemma storage_analytics_run uid w : reliable O ->
  forallb (fun r => int8 (snd r)) (by_type uid (data w)) = true ->
  storage_analytics uid w
  = (Ok {| largest_files := map large_file (take 10 (sort_by (descending FileEntry.size_bytes)
                               (select (live_file uid) (file_entries (data w)))));
           storage_by_type := map type_use (by_type uid (data w)) |}, mkWorld (data w) (S (S (pos w)))).
Proof.
  intros R F. unfold storage_analytics.
  eapply bind_run; [apply unwrap_or_run; by apply statement_rows|]. cbn [data pos].
  eapply bind_run; [|done]. apply unwrap_or_run, statement_rows; [done|]. cbv zeta. cbn [data]. by rewrite F.
Qed.

Lemma overview_run uid w : reliable O -> int8 (sum_size (live_file uid) (data w)) = true ->
  exists a w', overview uid w = (Ok a, w') /\ data w' = data w
    /\ total_files a = count_rows (live_file uid) (file_entries (data w))
    /\ total_size_bytes a = sum_size (live_file uid) (data w) /\ formatted_size a = format_bytes (total_size_bytes a).
Proof.
  intros R F. eexists _, _. split.
  { unfold overview. do 2 (eapply bind_run; [by apply number_run|]).
    eapply bind_run; [apply unwrap_or_run; apply statement_rows; [done|]; cbv zeta; cbn [data]; by rewrite F|].
    do 3 (eapply bind_run; [by apply number_run|]). reflexivity. }
  cbn. done.
Qed.

(** The largest files leave out none that is larger. *)
Lemma top_of_sorted {A} (n : A -> Z) k t x y :
  x ∈ take k (sort_by (descending n) t) -> y ∈ t -> n x < n y -> y ∈ take k (sort_by (descending n) t).
Proof.
  intros Hx Hy L. assert (S : sorted_by (descending n) (sort_by (descending n) t)).
  { apply sort_by_sorted; unfold descending; intros; lia. }
  rewrite <- (sort_by_perm (descending n) t) in Hy. revert Hx Hy S. generalize (sort_by (descending n) t). intros l Hx Hy S.
  rewrite <- (take_drop k l) in Hy, S. apply elem_of_app in Hy as [Hy|Hy]; [done|].
  apply sorted_app in S as (_ & _ & P). specialize (P x y Hx Hy). unfold descending in P. lia.
Qed.

(** C40: the dashboards agree.  With the environment answering and sizes that add
    up to an i64, the storage by type names each main type of the user's live
    files once, the one with most bytes first, and its counts and sizes add up
    to the totals of the overview asked for next; and the largest files are at
    most ten, with every live file that is larger than one of them. *)
Theorem dashboards_agree uid w :
  reliable O -> (forall f, f ∈ file_entries (data w) -> live_file uid f = true -> 0 <= FileEntry.size_bytes f) ->
  sum_size (live_file uid) (data w) <= i64_max ->
  exists a w1 o w2, storage_analytics uid w = (Ok a, w1) /\ overview uid w1 = (Ok o, w2) /\ data w2 = data w
    /\ foldr (fun t acc => t_count t + acc) 0 (storage_by_type a) = total_files o
    /\ foldr (fun t acc => t_size t + acc) 0 (storage_by_type a) = total_size_bytes o
    /\ base.NoDup (map t_type (storage_by_type a))
    /\ (forall k, k ∈ map t_type (storage_by_type a) <->
          exists f, f ∈ file_entries (data w) /\ live_file uid f = true /\ main_type f = k)
    /\ sorted_by (descending t_size) (storage_by_type a)
    /\ Z.of_nat (length (largest_files a)) = Z.min 10 (total_files o)
    /\ forall l f, l ∈ largest_files a -> f ∈ file_entries (data w) -> live_file uid f = true ->
         l_size l < FileEntry.size_bytes f -> large_file f ∈ largest_files a.
Proof.
  intros R P B. pose proof (by_type_fits _ _ P B) as F.
  assert (0 <= sum_size (live_file uid) (data w)) as P0.
  { unfold sum_size. change (0 <= weigh FileEntry.size_bytes (select (live_file uid) (file_entries (data w)))).
    destruct (weigh_mono FileEntry.size_bytes (select (live_file uid) (file_entries (data w)))
      (select (live_file uid) (file_entries (data w)))) as [H _]; [|done|lia].
    intros f [Hf Lf]%elem_select. by apply P. }
  destruct (overview_run uid (mkWorld (data w) (S (S (pos w)))) R) as (o & w2 & Eo & Dw & Ef & Es & _).
  { unfold int8, i64_max in *. cbn [data]. lia. }
  cbn [data] in *. destruct (by_type_sums uid (data w)) as [Sc Ss].
  eexists _, _, o, w2. split; [by apply storage_analytics_run|]. split; [done|]. cbn [storage_by_type largest_files].
  assert (T : map t_type (map type_use (by_type uid (data w))) = map (fun r => fst (fst r)) (by_type uid (data w))).
  { rewrite map_map. apply map_ext. by intros [[? ?] ?]. }
  split_and!; [done| | | | | | |].
  - rewrite Ef, <- Sc. clear. induction (by_type uid (data w)) as [|[[? ?] ?] l IH]; [done|]. cbn in *. by rewrite IH.
  - rewrite Es, <- Ss. clear. induction (by_type uid (data w)) as [|[[? ?] ?] l IH]; [done|]. cbn in *. by rewrite IH.
  - rewrite T, by_type_types. apply NoDup_remove_dups.
  - intros k. rewrite T, by_type_types, elem_of_remove_dups, list_elem_of_fmap. split.
    + intros (f & -> & [Hf Lf]%elem_select). eauto.
    + intros (f & Hf & Lf & <-). exists f. split; [done|]. by apply elem_select.
  - assert (S : sorted_by (descending snd) (by_type uid (data w))) by (apply sort_by_sorted; unfold descending; intros; lia).
    revert S. clear. induction (by_type uid (data w)) as [|[[? ?] ?] l IH]; [done|]. cbn. intros [Fa S].
    split; [|by apply IH]. rewrite Forall_map. eapply Forall_impl; [exact Fa|]. by intros [[? ?] ?].
  - rewrite length_map, length_take, sort_by_perm, Ef. unfold count_rows. lia.
  - intros l f Hl Hf Lf L. apply list_elem_of_fmap in Hl as (g & -> & Hg). apply list_elem_of_fmap. exists f. split; [done|].
    eapply top_of_sorted; [exact Hg|by apply elem_select|exact L].
Qed.

(** ** Duplicates *)

Lemma group_long {A K} `{EqDecision K} (key : A -> K) t a b :
  key a = key b -> (exists t1 t2 t3, t = t1 ++ a :: t2 ++ b :: t3) ->
  exists g, g ∈ group_by key t /\ fst g = key a /\ (1 < length (snd g))%nat.
Proof.
  intros E (t1 & t2 & t3 & Et). exists (key a, select (fun r => bool_decide (key r = key a)) t). cbn [fst snd].
  assert (Ha : a ∈ t) by (subst; set_solver). split; [|split; [done|]].
  - unfold group_by. apply list_elem_of_fmap. exists (key a). split; [done|].
    apply elem_of_remove_dups, list_elem_of_fmap. eauto.
  - subst t. unfold select. rewrite List.filter_app. cbn. rewrite List.filter_app. cbn.
    rewrite bool_decide_true by done. rewrite bool_decide_true by done. rewrite length_app. cbn. rewrite length_app. cbn. lia.
Qed.

Lemma split_two {A} (t : list A) a b : a ∈ t -> b ∈ t -> a <> b ->
  (exists t1 t2 t3, t = t1 ++ a :: t2 ++ b :: t3) \/ exists t1 t2 t3, t = t1 ++ b :: t2 ++ a :: t3.
Proof.
  intros (t1 & t2 & ->)%list_elem_of_split Hb N. apply elem_of_app in Hb as [Hb|Hb].
  - apply list_elem_of_split in Hb as (u1 & u2 & ->). right. exists u1, u2, t2. by rewrite <- app_assoc.
  - apply elem_of_cons in Hb as [->|Hb]; [done|]. apply list_elem_of_split in Hb as (u1 & u2 & ->). left. by exists t1, u1, u2.
Qed.

(** the search for duplicates.  Whatever the database does, it answers only
    a user who has no two live files of one content, and then with no group:
    with a pair of duplicates it always fails. *)
Theorem duplicates_refused uid w l w' :
  find_duplicates decode_error uid w = (Ok l, w') ->
  l = [] /\ data w' = data w
  /\ forall f g, f ∈ file_entries (data w) -> g ∈ file_entries (data w) -> hashed uid f = true -> hashed uid g = true ->
       FileEntry.sha256_hash f = FileEntry.sha256_hash g -> FileEntry.id f = FileEntry.id g.
Proof.
  intros H. unfold find_duplicates in H. apply bind_Ok in H as (rows & w1 & H1 & H2).
  apply map_err_Ok in H1. unfold grouped in H1. apply statement_Ok in H1 as (_ & E & _).
  destruct (duplicate_groups uid (data w)) as [|r rs] eqn:G; [|done]. simplify_eq. apply ret_Ok in H2 as [<- <-].
  split; [done|]. split; [congruence|]. intros f g Hf Hg Lf Lg Eh.
  destruct (decide (FileEntry.id f = FileEntry.id g)) as [|N]; [done|]. exfalso. assert (f <> g) by congruence.
  set (t := select (hashed uid) (file_entries (data w))).
  assert (exists x, x ∈ group_by FileEntry.sha256_hash t /\ (1 < length (snd x))%nat) as (x & Hx & Lx).
  { destruct (split_two t f g) as [S|S]; [by apply elem_select|by apply elem_select|done| |];
      [apply (group_long FileEntry.sha256_hash) in S as (x & ? & _ & ?)|apply (group_long FileEntry.sha256_hash) in S as (x & ? & _ & ?)];
      eauto. }
  unfold duplicate_groups in G. fold t in G.
  assert (In : (default [] (fst x), Z.of_nat (length (snd x)), sum_of (snd x))
    ∈ sort_by (descending snd) (map (fun g => (default [] (fst g), Z.of_nat (length (snd g)), sum_of (snd g)))
         (List.filter (fun g => (1 <? length (snd g))%nat) (group_by FileEntry.sha256_hash t)))).
  { rewrite sort_by_perm. apply list_elem_of_fmap. exists x. split; [done|].
    apply (elem_select (fun g => (1 <? length (snd g))%nat)). split; [done|]. by apply Nat.ltb_lt. }
  rewrite G in In. by apply not_elem_of_nil in In.
Qed.
End Facts.

(** ** Sizes for people *)

Lemma half_even_near num den : 0 < den -> 2 * Z.abs (num - half_even num den * den) <= den.
Proof.
  intros D. unfold half_even. cbv zeta. pose proof (Z.div_mod num den) as E. pose proof (Z.mod_pos_bound num den D) as B.
  repeat case_goal; boolify; nia.
Qed.

Lemma half_even_mono num den k : 0 < den -> num <= k * den -> half_even num den <= k.
Proof. intros D L. pose proof (half_even_near num den D). nia. Qed.

Lemma half_even_exact k den : 0 < den -> half_even (k * den) den = k.
Proof.
  intros D. unfold half_even. rewrite Z.div_mul, Z.mod_mul by lia. cbv zeta. rewrite Z.mul_0_r.
  by replace (0 <? den) with true by lia.
Qed.

Lemma half_even_nonneg num den : 0 < den -> 0 <= num -> 0 <= half_even num den.
Proof. intros D P. pose proof (half_even_near num den D). nia. Qed.

(** An f64 has the number within a part of 2^54. *)
Lemma to_f64_near n : 0 <= n -> 0 <= to_f64 n /\ 2 ^ 53 * Z.abs (to_f64 n - n) <= n.
Proof.
  intros P. unfold to_f64. cbv zeta. rewrite Z.abs_eq by done.
  destruct (decide (n = 0)) as [->|N0]; [cbn; lia|]. rewrite Z.sgn_pos, Z.mul_1_l by lia.
  set (e := Z.max 0 (Z.log2 n - 52)). assert (0 < 2 ^ e) by (apply Z.pow_pos_nonneg; lia).
  pose proof (half_even_near n (2 ^ e)) as H0. split; [pose proof (half_even_nonneg n (2 ^ e)); nia|].
  destruct (decide (Z.log2 n <= 52)) as [S|S].
  - assert (e = 0) as -> by lia. rewrite <- (Z.mul_1_r n) at 1. change (2 ^ 0) with 1. rewrite half_even_exact by lia. lia.
  - assert (E : 2 ^ 53 * 2 ^ e = 2 * 2 ^ Z.log2 n).
    { rewrite <- Z.pow_add_r by lia. replace (53 + e) with (Z.succ (Z.log2 n)) by lia. rewrite Z.pow_succ_r; lia. }
    pose proof (Z.log2_spec n). lia.
Qed.

Lemma to_f64_exact n : 0 <= n <= 2 ^ 53 -> to_f64 n = n.
Proof.
  intros [P B]. destruct (decide (n = 2 ^ 53)) as [->|N]; [by vm_compute|].
  destruct (decide (n = 0)) as [->|N0]; [done|]. unfold to_f64. cbv zeta. rewrite Z.abs_eq, Z.sgn_pos, Z.mul_1_l by lia.
  assert (Z.log2 n < 53) by (apply Z.log2_lt_pow2; lia). replace (Z.max 0 (Z.log2 n - 52)) with 0 by lia.
  change (2 ^ 0) with 1. rewrite <- (Z.mul_1_r n) at 1. rewrite half_even_exact; lia.
Qed.

Lemma in_units_spec units num den : 0 <= num -> 0 < den ->
  exists k unit, (k <= length units)%nat /\ unit = nth k (units ++ ["PB"%string]) "PB"%string
    /\ in_units units num den = one_decimal num (1024 ^ Z.of_nat k * den) ++ lit " " ++ lit unit
    /\ ((k < length units)%nat -> num < 1024 * (1024 ^ Z.of_nat k * den))
    /\ ((0 < k)%nat -> 1024 ^ Z.of_nat k * den <= num).
Proof.
  revert den. induction units as [|u r IH]; intros den N D; cbn [in_units].
  - exists 0%nat, "PB"%string. cbn. replace (_ * den) with den by (cbn; lia). split_and!; [lia|done|done|lia|lia].
  - destruct (Z.ltb_spec num (1024 * den)) as [L|L].
    + exists 0%nat, u. cbn [length nth app]. change (1024 ^ Z.of_nat 0) with 1. rewrite Z.mul_1_l.
      split_and!; [lia|done|done|done|lia].
    + destruct (IH (1024 * den)) as (k & unit & K & -> & E & U & Lo); [done|lia|].
      exists (S k), (nth k (r ++ ["PB"%string]) "PB"%string). cbn [length]. rewrite Nat2Z.inj_succ, Z.pow_succ_r by lia.
      replace (1024 * 1024 ^ Z.of_nat k * den) with (1024 ^ Z.of_nat k * (1024 * den)) by lia.
      split_and!; [lia|done|done| |]; [intros; apply U; lia|]. intros _. destruct k; [cbn; lia|apply Lo; lia].
Qed.

(** sizes for people.  A size is shown with one decimal in the largest unit
    it fills, petabytes at most: the number shown is below 1024, unless it
    rounds to it, and is within half a tenth of the size, up to the rounding of
    an f64; a size up to 2^53 bytes is within half a tenth exactly. *)
Theorem format_bytes_near n : 0 <= n ->
  exists k t, (k <= 5)%nat /\ 0 <= t /\ ((k < 5)%nat -> t <= 10240)
    /\ format_bytes n = show_uint (t / 10) ++ lit "." ++ show_uint (t mod 10) ++ lit " " ++ lit (nth k (UNITS ++ ["PB"%string]) "PB"%string)
    /\ 2 ^ 54 * Z.abs (10 * n - t * 1024 ^ Z.of_nat k) <= 2 ^ 53 * 1024 ^ Z.of_nat k + 20 * n
    /\ (n <= 2 ^ 53 -> 2 * Z.abs (10 * n - t * 1024 ^ Z.of_nat k) <= 1024 ^ Z.of_nat k
         /\ ((0 < k)%nat -> 1024 ^ Z.of_nat k <= n)).
Proof.
  intros P. destruct (to_f64_near n P) as [Fp Fn].
  destruct (in_units_spec UNITS (to_f64 n) 1 Fp ltac:(lia)) as (k & unit & K & -> & E & U & Lo).
  rewrite Z.mul_1_r in *. set (den := 1024 ^ Z.of_nat k) in *. assert (D : 0 < den) by (apply Z.pow_pos_nonneg; lia).
  exists k, (half_even (10 * to_f64 n) den). change (length UNITS) with 5%nat in *.
  pose proof (half_even_near (10 * to_f64 n) den D) as H.
  split_and!; [done|apply half_even_nonneg; lia| | | |].
  - intros L. apply half_even_mono; [done|]. specialize (U L). lia.
  - unfold format_bytes. rewrite E. unfold one_decimal. cbv zeta. rewrite (Z.abs_eq (to_f64 n)) by done.
    replace (to_f64 n <? 0) with false by lia. by rewrite <- !app_assoc.
  - lia.
  - intros S. assert (to_f64 n = n) as Ex by (by apply to_f64_exact). rewrite Ex in *. split; [lia|done].
Qed.

(** ** Tags *)

Lemma index_of_Some c s i : index_of c s = Some i <-> exists a b, s = a ++ c :: b /\ length a = i /\ c ∉ a.
Proof.
  revert i. induction s as [|x r IH]; intros i; cbn.
  - split; [done|]. by intros ([|? ?] & b & E & _).
  - destruct (Z.eqb_spec x c) as [->|N].
    + split.
      * intros [= <-]. exists [], r. split_and!; [done|done|apply not_elem_of_nil].
      * intros ([|y a] & b & E & <- & Na); [done|]. exfalso. apply Na. injection E as <- _. apply list_elem_of_here.
    + split.
      * destruct (index_of c r) as [j|]; [|done]. intros [= <-]. destruct (proj1 (IH j) eq_refl) as (a & b & -> & <- & Na).
        exists (x :: a), b. split_and!; [done|done|]. set_solver.
      * intros ([|y a] & b & E & <- & Na); [by injection E as E0 _|]. injection E as <- ->.
        rewrite (proj2 (IH (length a))); [done|]. exists a, b. split_and!; [done|done|]. set_solver.
Qed.

Lemma last_index_of_Some c s i : last_index_of c s = Some i <-> exists a b, s = a ++ c :: b /\ length a = i /\ c ∉ b.
Proof.
  unfold last_index_of. split.
  - destruct (index_of c (reverse s)) as [j|] eqn:E; [|done]. cbn. intros [= <-].
    apply index_of_Some in E as (a & b & E & <- & Na). exists (reverse b), (reverse a).
    apply (f_equal reverse) in E. rewrite reverse_involutive, reverse_app, reverse_cons, <- app_assoc in E. cbn in E. subst s.
    split_and!; [done| |by rewrite elem_of_reverse]. rewrite length_app, !length_reverse. cbn. rewrite length_reverse. lia.
  - intros (a & b & -> & <- & Nb). rewrite reverse_app, reverse_cons, <- app_assoc. cbn.
    rewrite (proj2 (index_of_Some c (reverse b ++ c :: reverse a) (length b))); [|exists (reverse b), (reverse a)].
    + cbn. f_equal. rewrite length_app. cbn. lia.
    + split_and!; [done|by rewrite length_reverse|by rewrite elem_of_reverse].
Qed.

Lemma brackets_crossed (a b c : rstr) : chr "[" ∉ a ++ b -> chr "]" ∉ b ++ c ->
  index_of (chr "[") (a ++ [chr "]"] ++ b ++ [chr "["] ++ c) = Some (length a + S (length b))%nat
  /\ last_index_of (chr "]") (a ++ [chr "]"] ++ b ++ [chr "["] ++ c) = Some (length a).
Proof.
  intros Na Nb. assert (chr "[" <> chr "]") by done. split.
  - apply index_of_Some. exists (a ++ [chr "]"] ++ b), c. split_and!; [by rewrite <- !app_assoc|by rewrite length_app|set_solver].
  - apply last_index_of_Some. exists a, (b ++ [chr "["] ++ c). split_and!; [done|done|set_solver].
Qed.

Section Tags.
Context {JT : JsonText}.
Context (json_error : rstr -> rstr).

(** C38: tags out of an answer.  The tags a model's answer gives are none, or
    those of a JSON array that is a piece of the answer; and the handler panics
    exactly when the answer is no such array and its only brackets, from the
    last closing one to the first opening one, are apart in the wrong order. *)
Theorem tags_of_spec response :
  (tags_of json_error response = Panic <->
    json_parse response ≫= strings = None
    /\ exists a b c, b <> [] /\ response = a ++ [chr "]"] ++ b ++ [chr "["] ++ c
         /\ chr "[" ∉ a ++ b /\ chr "]" ∉ b ++ c)
  /\ forall l, tags_of json_error response = Ok (inr l) ->
       l = [] \/ exists a b c, response = a ++ b ++ c /\ json_parse b ≫= strings = Some l.
Proof.
  unfold tags_of. destruct (json_parse response ≫= strings) as [v|] eqn:P.
  { split; [naive_solver|]. intros l [= <-]. right. exists [], response, []. by rewrite app_nil_r. }
  destruct (index_of (chr "[") response) as [i|] eqn:I, (last_index_of (chr "]") response) as [j|] eqn:J;
    [|split; [split; [done|]; intros (_ & a & b & c & _ & -> & Na & Nb);
               destruct (brackets_crossed a b c Na Nb); congruence
             |intros l [= <-]; by left]..].
  destruct (Nat.ltb_spec (S j) i) as [L|L].
  - split; [|done]. split; [intros _|done]. split; [done|].
    apply index_of_Some in I as (a & b & -> & <- & Na). apply last_index_of_Some in J as (a' & b' & E & <- & Nb).
    apply app_eq_inv in E as [(k & -> & Ek)|(k & -> & Ek)]; [|rewrite length_app in L; lia].
    destruct k as [|x k]; [rewrite length_app in L; cbn in L; lia|]. injection Ek as <- ->.
    exists a', k, b. split_and!; [|by rewrite <- app_assoc|set_solver|set_solver].
    intros ->. rewrite length_app in L. cbn in L. lia.
  - split.
    + split; [by case_match|]. intros (_ & a & b & c & Nb0 & -> & Na & Nb). exfalso.
      destruct (brackets_crossed a b c Na Nb). simplify_eq. destruct b; [done|]. cbn in L. lia.
    + intros l H. destruct (json_parse (take _ _) ≫= strings) as [v|] eqn:Q; simplify_eq. right.
      exists (take i response), (take (S j - i) (drop i response)), (drop (S j - i) (drop i response)).
      split; [by rewrite take_drop, take_drop|done].
Qed.
End Tags.

(** ** Instances *)

Definition demo_files : World Server :=
  mkWorld (set_file_entries [Search.demo_note "text/plain"; Search.demo_note "text/html"; Search.demo_note "image/png"] empty_server) 0.

Lemma dashboards_agree_witness : exists a w1, storage_analytics (O := toy_env []) 2 demo_files = (Ok a, w1)
  /\ map (fun t => (t_type t, t_count t)) (storage_by_type a) = [(lit "text", 2); (lit "image", 1)]
  /\ foldr (fun t acc => t_size t + acc) 0 (storage_by_type a) = 1503.
Proof.
  destruct (dashboards_agree (O := toy_env []) 2 demo_files toy_env_reliable) as (a & w1 & o & w2 & E & Eo & _ & _ & Sz & _).
  - intros f Hf _. cbn in Hf. set_unfold. destruct Hf as [ -> |[ -> |[ -> |[]]]]; vm_compute; discriminate.
  - vm_compute. discriminate.
  - exists a, w1. split; [exact E|]. rewrite Sz. clear Sz.
    assert (Ea : storage_analytics (O := toy_env []) 2 demo_files = (Ok a, w1)) by exact E.
    vm_compute in Ea. injection Ea as <- <-. split; [vm_compute; reflexivity|].
    vm_compute in Eo. injection Eo as <- _. reflexivity.
Defined.

(** The largest i64 is eight exbibytes. *)
Lemma format_bytes_witness : format_bytes i64_max = lit "8192.0 PB" /\ format_bytes 1536 = lit "1.5 KB"
  /\ exists k t, (k <= 5)%nat /\ format_bytes 1048575 = show_uint (t / 10) ++ lit "." ++ show_uint (t mod 10) ++ lit " "
       ++ lit (nth k (UNITS ++ ["PB"%string]) "PB"%string).
Proof.
  split; [vm_compute; reflexivity|]. split; [vm_compute; reflexivity|].
  destruct (format_bytes_near 1048575) as (k & t & K & _ & _ & E & _); [discriminate|]. exists k, t. split; [exact K|exact E].
Defined.

(** The files of the demo have no digest; with one digest for all, the search fails. *)
Definition copies (h : option rstr) : World Server :=
  mkWorld (set_file_entries
    [FileEntry.set_sha256_hash h (Search.demo_note "text/plain");
     FileEntry.set_sha256_hash h (Search.demo_note "text/plain")] empty_server) 0.

Lemma duplicates_refused_witness :
  fst (find_duplicates (O := toy_env []) (lit "mismatched types") 2 (copies (Some (lit "00")))) = Err (Internal (lit "mismatched types"))
  /\ exists w', find_duplicates (O := toy_env []) (lit "mismatched types") 2 (copies None) = (Ok [], w').
Proof.
  split; [vm_compute; reflexivity|].
  assert (H : exists l w', find_duplicates (O := toy_env []) (lit "mismatched types") 2 (copies None) = (Ok l, w'))
    by (eexists _, _; vm_compute; reflexivity).
  destruct H as (l & w' & E). exists w'.
  destruct (duplicates_refused (O := toy_env []) (lit "mismatched types") 2 (copies None) l w' E) as [-> _]. exact E.
Defined.

(** an answer with its brackets in the wrong order ends the handler in a panic. *)
Theorem tags_panic :
  tags_of (JT := Codec.exact_json) (fun _ => []) (lit "see ] and [") = Panic
  /\ tags_of (JT := Codec.exact_json) (fun _ => []) (lit "none") = Ok (inr []).
Proof. split; vm_compute; reflexivity. Qed.

End Insight.
