(* ===== verification/LocalDb.v ===== *)
(** * LocalDb: what the agent remembers of its files

    agent/src/db.rs: the SQLite database of an agent, with a row for every file
    seen and a log of what was done.  The state is the agent's machine: its disk
    and the two tables; every statement is one interaction that can fail. *)

From S2P Require Import Prelude Text Tables Effects Externals Fs Storage FsHandler.

Module LocalDb.
Import Fs.

Module CacheRow.
Record row := mk {
  path : rstr; sha256_hash : rstr; size_bytes : Z; modified_at : rstr;
  synced_at : option Z; status : rstr; remote_id : option rstr }.
End CacheRow.

Module LogRow.
Record row := mk { id : Z; path : rstr; action : rstr; status : rstr; error : option rstr; created_at : Z }.
End LogRow.

(** The agent's machine.  [modified] is the time of a file's last change, in
    seconds since 1970, when it is not before; [log_seq] is the last id
    AUTOINCREMENT has given. *)
Record Machine := mkMachine {
  files : Fs.fs; modified : Fs.path -> option Z;
  file_cache : list CacheRow.row; sync_log : list LogRow.row; log_seq : Z }.

Definition set_files (f : Fs.fs) (m : Machine) : Machine :=
  mkMachine f (modified m) (file_cache m) (sync_log m) (log_seq m).
Definition set_cache (t : list CacheRow.row) (m : Machine) : Machine :=
  mkMachine (files m) (modified m) t (sync_log m) (log_seq m).

Record DbStats := { total_files : Z; pending_sync : Z }.

Definition PENDING : rstr := lit "pending".
Definition SYNCED : rstr := lit "synced".

Definition at_path (p : rstr) (r : CacheRow.row) : bool := bool_decide (CacheRow.path r = p).
Definition is_pending (r : CacheRow.row) : bool := bool_decide (CacheRow.status r = PENDING).

Section LocalDb.
Context {O : Oracle}.
(** The current directory of the agent. *)
Context (cwd : Fs.path).

(** A text as a path of the machine. *)
Definition place (p : rstr) : option Fs.path := FsHandler.dir (FsHandler.root_at cwd p).

Definition on_files {A} (f : Fs.fs -> option A) : M Machine A :=
  io (fun m => match f (files m) with Some a => inr (a, m) | None => inl Storage.OS_ERROR end).

Definition at_place {A} (f : Fs.fs -> Fs.path -> option A) (p : rstr) : M Machine A :=
  on_files (fun d => place p ≫= f d).

(** exists, is_dir and is_file: an error counts as no. *)
Definition probe (f : Fs.fs -> Fs.path -> bool) (p : rstr) : M Machine bool :=
  unwrap_or (at_place (fun d q => Some (f d q)) p) false.

(** The directory of the database is made when it is not there; its tables are
    made empty when they are not. *)
Definition open (data_dir : rstr) : M Machine unit :=
  _ ← io (fun m => match place data_dir ≫= create_dir_all (files m) with
                   | Some d => inr (tt, set_files d m)
                   | None => inl Storage.OS_ERROR
                   end);
  statement (fun _ m => Rows tt m).

(** INSERT ... ON CONFLICT(path) DO UPDATE *)
Definition upsert (p hash : rstr) (size : Z) (modified : rstr) (t : list CacheRow.row) : list CacheRow.row :=
  if exists_row (at_path p) t then
    update (at_path p) (fun r =>
      {| CacheRow.path := CacheRow.path r; CacheRow.sha256_hash := hash; CacheRow.size_bytes := size;
         CacheRow.modified_at := modified; CacheRow.synced_at := CacheRow.synced_at r; CacheRow.status := PENDING;
         CacheRow.remote_id := CacheRow.remote_id r |}) t
  else
    insert_row {| CacheRow.path := p; CacheRow.sha256_hash := hash; CacheRow.size_bytes := size;
                  CacheRow.modified_at := modified; CacheRow.synced_at := None; CacheRow.status := PENDING;
                  CacheRow.remote_id := None |} t.

Definition upsert_file (p hash : rstr) (size : Z) (modified : rstr) : M Machine unit :=
  statement (fun _ m => Rows tt (set_cache (upsert p hash size modified (file_cache m)) m)).

Definition synced (now : Z) (remote : rstr) (r : CacheRow.row) : CacheRow.row :=
  {| CacheRow.path := CacheRow.path r; CacheRow.sha256_hash := CacheRow.sha256_hash r;
     CacheRow.size_bytes := CacheRow.size_bytes r; CacheRow.modified_at := CacheRow.modified_at r;
     CacheRow.synced_at := Some now; CacheRow.status := SYNCED; CacheRow.remote_id := Some remote |}.

Definition mark_synced (p remote : rstr) : M Machine unit :=
  statement (fun now m => Rows tt (set_cache (update (at_path p) (synced now remote) (file_cache m)) m)).

Definition PENDING_LIMIT : nat := 100.

(** The rows come in the order of the table. *)
Definition pending_rows (t : list CacheRow.row) : list (rstr * rstr * Z) :=
  map (fun r => (CacheRow.path r, CacheRow.sha256_hash r, CacheRow.size_bytes r)) (take PENDING_LIMIT (select is_pending t)).

Definition get_pending : M Machine (list (rstr * rstr * Z)) := query (fun m => pending_rows (file_cache m)).

Definition remove_file (p : rstr) : M Machine unit :=
  statement (fun _ m => Rows tt (set_cache (delete_rows (at_path p) (file_cache m)) m)).

Definition log_sync (p : rstr) (action status : string) (error : option rstr) : M Machine unit :=
  statement (fun now m => Rows tt
    (mkMachine (files m) (modified m) (file_cache m)
       (insert_row {| LogRow.id := log_seq m + 1; LogRow.path := p; LogRow.action := lit action;
                      LogRow.status := lit status; LogRow.error := error; LogRow.created_at := now |} (sync_log m))
       (log_seq m + 1))).

Definition stats : M Machine DbStats :=
  total ← query (fun m => Z.of_nat (length (file_cache m)));
  pending ← query (fun m => count_rows is_pending (file_cache m));
  mret {| total_files := total; pending_sync := pending |}.

(** ** What the tables keep *)

(** A row is pending, or synced with the id it has at the server. *)
Definition row_ok (r : CacheRow.row) : bool :=
  is_pending r
  || bool_decide (CacheRow.status r = SYNCED) && bool_decide (is_Some (CacheRow.remote_id r))
     && bool_decide (is_Some (CacheRow.synced_at r)).

Definition cache_ok (t : list CacheRow.row) : Prop := unique_key CacheRow.path t = true /\ forallb row_ok t = true.

(** What a statement may do: the disk is as it was, and the tables stay in order. *)
Definition db_step (m m' : Machine) : Prop :=
  files m' = files m /\ modified m' = modified m /\ (cache_ok (file_cache m) -> cache_ok (file_cache m')).

#[export] Instance db_step_preorder : PreOrder db_step.
Proof. split; [by intros m|]. intros m1 m2 m3 (A & B & C) (A' & B' & C'). split_and!; [congruence..|auto]. Qed.

Lemma at_path_iff p r : at_path p r = true <-> CacheRow.path r = p.
Proof. apply bool_decide_eq_true. Qed.

Lemma upsert_ok p h n d t : cache_ok t -> cache_ok (upsert p h n d t).
Proof.
  intros [K R]. unfold upsert. destruct (exists_row _ t) eqn:E.
  - split; [by apply unique_update|]. eapply forallb_update; [| |exact R]; by intros.
  - split; [|by apply forallb_insert]. apply unique_insert; [done|]. intros x Hx Ex.
    assert (exists_row (at_path p) t = true); [|congruence]. apply exists_row_iff. exists x. by rewrite at_path_iff.
Qed.

Lemma synced_ok p now i t : cache_ok t -> cache_ok (update (at_path p) (synced now i) t).
Proof. intros [K R]. split; [by apply unique_update|]. eapply forallb_update; [| |exact R]; by intros. Qed.

Lemma removed_ok p t : cache_ok t -> cache_ok (delete_rows (at_path p) t).
Proof. intros [K R]. split; [by apply unique_delete|by apply forallb_delete]. Qed.

Lemma statement_step {A} (f : Z -> Machine -> sql A Machine) :
  (forall now m, match f now m with Rows _ m' => db_step m m' | _ => True end) -> preserves db_step (statement f).
Proof. intros H. apply preserves_statement; [apply _|]. intros now m a m' E. specialize (H now m). by rewrite E in H. Qed.

Lemma upsert_step p h n d : preserves db_step (upsert_file p h n d).
Proof. apply statement_step. intros now m. split_and!; [done..|apply upsert_ok]. Qed.

Lemma mark_step p i : preserves db_step (mark_synced p i).
Proof. apply statement_step. intros now m. split_and!; [done..|apply synced_ok]. Qed.

Lemma remove_step p : preserves db_step (remove_file p).
Proof. apply statement_step. intros now m. split_and!; [done..|apply removed_ok]. Qed.

Lemma log_step p a s e : preserves db_step (log_sync p a s e).
Proof. apply statement_step. by intros now m. Qed.

Lemma pending_step : preserves db_step get_pending.
Proof. apply preserves_query. apply _. Qed.

Lemma files_step {A} (f : Fs.fs -> option A) : preserves db_step (on_files f).
Proof. apply preserves_io; [apply _|]. intros m a m' E. destruct (f (files m)); [by injection E as <- <-|done]. Qed.

Lemma probe_step f p : preserves db_step (probe f p).
Proof. apply preserves_unwrap_or, files_step. Qed.

(** ** What the statements do *)

Lemma upsert_row p h n d t r :
  r ∈ upsert p h n d t ->
  (CacheRow.path r = p /\ CacheRow.sha256_hash r = h /\ CacheRow.size_bytes r = n /\ is_pending r = true)
  \/ CacheRow.path r <> p /\ r ∈ t.
Proof.
  unfold upsert. destruct (exists_row (at_path p) t) eqn:E.
  - rewrite elem_update. intros (r0 & H0 & ->). destruct (at_path p r0) eqn:A.
    + left. apply at_path_iff in A. by split_and!.
    + right. split; [|done]. intros X. apply at_path_iff in X. congruence.
  - rewrite elem_insert. intros [H| ->]; [|by left]. right. split; [|done]. intros X.
    assert (exists_row (at_path p) t = true); [|congruence]. apply exists_row_iff. exists r. by rewrite at_path_iff.
Qed.

Lemma upserted p h n d t : exists r, r ∈ upsert p h n d t /\ CacheRow.path r = p.
Proof.
  unfold upsert. destruct (exists_row (at_path p) t) eqn:E.
  - apply exists_row_iff in E as (r & Hr & A). eexists. rewrite elem_update. split; [exists r; split; [done|reflexivity]|].
    rewrite A. by apply at_path_iff.
  - eexists. rewrite elem_insert. split; [by right|done].
Qed.

Lemma upsert_other p h n d t r : CacheRow.path r <> p -> r ∈ t -> r ∈ upsert p h n d t.
Proof.
  intros N H. unfold upsert. destruct (exists_row _ t); [|rewrite elem_insert; by left].
  rewrite elem_update. exists r. split; [done|]. destruct (at_path p r) eqn:A; [by apply at_path_iff in A|done].
Qed.

Lemma pending_in t p h n :
  (p, h, n) ∈ pending_rows t -> exists r, r ∈ t /\ is_pending r = true /\ CacheRow.path r = p
    /\ CacheRow.sha256_hash r = h /\ CacheRow.size_bytes r = n.
Proof.
  unfold pending_rows. rewrite list_elem_of_fmap. intros (r & E & H). injection E as -> -> ->.
  apply (subseteq_take _ _ r), elem_select in H as [H1 H2]. by exists r.
Qed.
End LocalDb.

#[export] Hint Resolve upsert_step mark_step remove_step log_step pending_step files_step probe_step : effects.
End LocalDb.
