(* ===== verification/Watcher.v ===== *)
(** * Watcher: the files an agent sees

    agent/src/watcher.rs: the first scan of the folders to sync and the events
    of the file system after it, both written to the database of LocalDb.v. *)

From S2P Require Import Prelude Text Tables Effects Externals Fs Storage FsHandler Delta LocalDb.

Module Watcher.
Import Fs LocalDb.

(** What the notify crate tells: kinds the code tells apart, and the paths. *)
Inductive EventKind := Create | Modify | Remove | Other.
Record Event := { kind : EventKind; paths : list rstr }.

(** PathBuf::join with a name. *)
Definition join_name (dir c : rstr) : rstr :=
  if negb (nonempty dir) || (match last dir with Some x => x =? chr "/" | None => false end) then dir ++ c
  else dir ++ chr "/" :: c.

(** [for x in l { f(x)?; }] *)
Fixpoint for_each {D A} (f : A -> M D unit) (l : list A) : M D unit :=
  match l with
  | [] => mret tt
  | x :: r => _ ← f x; for_each f r
  end.

Section Watcher.
Context {O : Oracle} {S2 : Sha256} {HX : Hex}.
Context (cwd : path).

Definition metadata (p : rstr) : M Machine (Z * option Z) :=
  io (fun m => match place cwd p ≫= canonicalize (files m) with
               | Some q => match node_at (files m) q with
                           | Some n => inr ((wrap_i64 (FsHandler.node_len n), modified m q), m)
                           | None => inl Storage.OS_ERROR
                           end
               | None => inl Storage.OS_ERROR
               end).

Definition index_file (p : rstr) : M Machine unit :=
  meta ← metadata p;
  let size := fst meta in
  secs ← ok_or (snd meta) (Internal (lit "second time provided was later than self"));
  data ← at_place cwd read p;
  let hash := Delta.digest_hex data in
  upsert_file p hash size (show_int secs).

Definition is_dir (p : rstr) : M Machine bool := probe cwd FsHandler.is_dir p.
Definition is_file (p : rstr) : M Machine bool := probe cwd FsHandler.is_file p.
Definition exists_ (p : rstr) : M Machine bool := probe cwd path_exists p.

(** The recursion is as deep as the directories are, through links too;
    [scan_ends] bounds it. *)
Fixpoint scan_directory (fuel : nat) (dir : rstr) : M Machine unit :=
  match fuel with
  | 0%nat => diverge
  | S k =>
      entries ← at_place cwd read_dir dir;
      for_each (fun c =>
        let p := join_name dir c in
        d ← is_dir p;
        if d : bool then scan_directory k p
        else f ← is_file p; if f : bool then index_file p else mret tt) (map fst entries)
  end.

Definition handle_event (e : Event) : M Machine unit :=
  match kind e with
  | Create | Modify =>
      for_each (fun p => f ← is_file p; if f : bool then discard (index_file p) else mret tt) (paths e)
  | Remove => for_each (fun p => _ ← discard (remove_file p); discard (log_sync p "delete" "pending" None)) (paths e)
  | Other => mret tt
  end.

(** RecommendedWatcher::new and watch can fail. *)
Definition watch : M Machine unit := on_files (fun _ => Some tt).

Definition start_watching (fuel : nat) (folders : list rstr) : M Machine unit :=
  _ ← watch;
  for_each (fun folder =>
    there ← exists_ folder;
    if there : bool then _ ← watch; scan_directory fuel folder else mret tt) folders.

Definition watch_folders (fuel : nat) (folders : list rstr) (events : list Event) : M Machine unit :=
  _ ← start_watching fuel folders;
  for_each handle_event events.

(** ** The tables stay in order *)

Lemma for_each_keeps {A} R `{!PreOrder R} (f : A -> M Machine unit) l :
  (forall x, preserves R (f x)) -> preserves R (for_each f l).
Proof. intros H. induction l as [|x l IH]; cbn [for_each]; preserve. Qed.

Lemma metadata_step p : preserves db_step (metadata p).
Proof.
  apply preserves_io; [apply _|]. intros m a m' E. destruct (place cwd p ≫= _); [|done].
  destruct (node_at _ _); [by injection E as <- <-|done].
Qed.

Lemma index_step p : preserves db_step (index_file p).
Proof. unfold index_file, at_place. preserve.
  apply metadata_step. Qed.

Lemma scan_step fuel dir : preserves db_step (scan_directory fuel dir).
Proof.
  revert dir. induction fuel as [|k IH]; intros dir; cbn [scan_directory]; [preserve|].
  unfold at_place. preserve. apply for_each_keeps; [apply _|]. intros c. unfold is_dir, is_file. preserve; apply index_step.
Qed.

Lemma event_step e : preserves db_step (handle_event e).
Proof.
  unfold handle_event. destruct (kind e); try (apply for_each_keeps; [apply _|]; intros p); unfold is_file; preserve; apply index_step.
Qed.

Lemma watching_step fuel folders events : preserves db_step (watch_folders fuel folders events).
Proof.
  unfold watch_folders, start_watching, watch. preserve; (apply for_each_keeps; [apply _|]); intros x; unfold exists_; preserve;
    first [apply scan_step|apply event_step].
Qed.
(** ** What a scan finds *)

Definition content_of (f : fs) (p : rstr) : option bytes := place cwd p ≫= read f.

(** The files a scan of a directory comes to, by the text of their path. *)
Inductive found (f : fs) : rstr -> rstr -> bytes -> Prop :=
| found_here dir q l c b :
    place cwd dir = Some q -> read_dir f q = Some l -> c ∈ map fst l -> content_of f (join_name dir c) = Some b ->
    found f dir (join_name dir c) b
| found_below dir q l c q' p b :
    place cwd dir = Some q -> read_dir f q = Some l -> c ∈ map fst l ->
    place cwd (join_name dir c) = Some q' -> FsHandler.is_dir f q' = true -> found f (join_name dir c) p b -> found f dir p b.

(** A row that waits for the upload of this content. *)
Definition indexed (m : Machine) (p : rstr) (b : bytes) : Prop :=
  exists r, r ∈ file_cache m /\ is_pending r = true /\ CacheRow.path r = p
    /\ CacheRow.sha256_hash r = Delta.digest_hex b /\ CacheRow.size_bytes r = wrap_i64 (Z.of_nat (length b)).

(** The names of a directory, as an operating system has them. *)
Definition name_ok (c : rstr) : Prop := c <> [] /\ chr "/" ∉ c /\ plain c.
Definition named (f : fs) : Prop := forall q c, is_Some (f !! (q ++ [c])) -> name_ok c.

(** Every file was last changed after 1970. *)
Definition dated (f : fs) (md : path -> option Z) : Prop := forall q b, f !! q = Some (File b) -> is_Some (md q).

(** *** Paths *)

Lemma split_sep sep a b : split_char sep (a ++ sep :: b) = split_char sep a ++ split_char sep b.
Proof.
  induction a as [|c a IH]; cbn [app split_char]; [by rewrite Z.eqb_refl|]. destruct (c =? sep); [by rewrite IH|].
  rewrite IH. destruct (split_char sep a) eqn:E; [by destruct (split_char_not_nil sep a)|done].
Qed.

(** Joining a name adds a component, in the place of a trailing dot. *)
Lemma place_join dir c q :
  chr "/" ∉ c -> c <> [] -> place cwd dir = Some q ->
  exists q0, (q = q0 \/ q = q0 ++ [DOT]) /\ place cwd (join_name dir c) = Some (q0 ++ [c]).
Proof.
  unfold place, FsHandler.root_at. cbn [FsHandler.dir]. intros Nc Ne H. destruct (nonempty dir) eqn:N; [|done]. apply (inj Some) in H as <-.
  assert (Lc : forall a, last (a ++ c) = last c).
  { intros a. destruct c as [|x c _] using rev_ind; [done|]. by rewrite app_assoc, !last_snoc. }
  assert (L : (match last c with Some x => if x =? chr "/" then [DOT] else [] | None => [] end) = ([] : path)).
  { destruct (last c) as [x|] eqn:E; [|done]. apply last_Some in E as [c' ->]. case_goal; [|done]. boolify. subst.
    destruct Nc. apply elem_of_app. right. by left. }
  assert (Fc : List.filter nonempty (split_char (chr "/") c) = [c]) by (rewrite split_char_last by done; by destruct c).
  unfold join_name. rewrite N. cbn [negb orb].
  destruct (match last dir with Some x => x =? chr "/" | None => false end) eqn:E.
  - destruct (last dir) as [x|] eqn:E'; [|done]. apply last_Some in E' as [d ->]. boolify. subst x.
    exists ((if starts_with (lit "/") (d ++ [chr "/"]) then [] else cwd) ++ List.filter nonempty (split_char (chr "/") d)).
    assert (nonempty ((d ++ [chr "/"]) ++ c) = true) as -> by (by destruct d).
    assert (starts_with (lit "/") ((d ++ [chr "/"]) ++ c) = starts_with (lit "/") (d ++ [chr "/"])) as -> by (by destruct d).
    assert ((d ++ [chr "/"]) ++ c = d ++ chr "/" :: c) as -> by (by rewrite <- app_assoc).
    assert (last (d ++ chr "/" :: c) = last c) as Ld by (change (chr "/" :: c) with ([chr "/"] ++ c); by rewrite app_assoc, Lc).
    unfold FsHandler.raw_components. rewrite Ld, last_snoc, Z.eqb_refl, L, app_nil_r, (split_sep _ d c), (split_sep _ d []), !List.filter_app, Fc.
    change (List.filter nonempty (split_char (chr "/") [])) with ([] : path). rewrite app_nil_r. split; [right|]; by rewrite app_assoc.
  - exists ((if starts_with (lit "/") dir then [] else cwd) ++ FsHandler.raw_components dir). split; [by left|].
    assert (nonempty (dir ++ chr "/" :: c) = true) as -> by (by destruct dir).
    assert (starts_with (lit "/") (dir ++ chr "/" :: c) = starts_with (lit "/") dir) as -> by (by destruct dir).
    unfold FsHandler.raw_components.
    assert (Ld : last (dir ++ chr "/" :: c) = last c) by (change (chr "/" :: c) with ([chr "/"] ++ c); by rewrite app_assoc, Lc).
    rewrite Ld, L, app_nil_r, split_sep, List.filter_app, Fc.
    destruct (last dir) as [x|]; [rewrite E|]; by rewrite app_nil_r, app_assoc.
Qed.
(** *** Resolution, with the links it has left *)

Fixpoint walk (links : nat) (f : fs) : path -> path -> option (nat * path) :=
  fix go (cur rest : path) {struct rest} : option (nat * path) :=
    match rest with
    | [] => Some (links, cur)
    | c :: r =>
        if bool_decide (c = DOT) then go cur r
        else if bool_decide (c = DOTDOT) then go (parent cur) r
        else
          match f !! (cur ++ [c]) with
          | None => None
          | Some (Link t) => match links with 0%nat => None | S l => walk l f [] (t ++ r) end
          | Some (File _) => if nonempty r then None else Some (links, cur ++ [c])
          | Some Dir => go (cur ++ [c]) r
          end
    end.

Lemma walk_resolve k f cur r : resolve k f cur r = option_map snd (walk k f cur r).
Proof.
  revert cur r. induction k as [|k IHk]; intros cur r; revert cur; induction r as [|c r IH]; intros cur; cbn [resolve walk]; [done| |done|].
  all: destruct (bool_decide (c = DOT)); [apply IH|]; destruct (bool_decide (c = DOTDOT)); [apply IH|].
  all: destruct (f !! (cur ++ [c])) as [[b| |t]|]; try done; try apply IH; try (by destruct (nonempty r)).
Qed.

Lemma walk_bound k f cur r k' q : walk k f cur r = Some (k', q) -> (k' <= k)%nat.
Proof.
  revert cur r. induction k as [|k IHk]; intros cur r; revert cur; induction r as [|c r IH]; intros cur; cbn [walk];
    [by intros [= <- _]| |by intros [= <- _]|].
  all: destruct (bool_decide (c = DOT)); [apply IH|]; destruct (bool_decide (c = DOTDOT)); [apply IH|].
  all: destruct (f !! (cur ++ [c])) as [[b| |t]|]; try done; try apply IH; try (destruct (nonempty r); [done|]; by intros [= <- _]).
  intros H. apply IHk in H. lia.
Qed.

(** The steps of a walk through a directory: two walks, one after the other. *)
Lemma walk_app k f cur a r k' q :
  walk k f cur a = Some (k', q) -> node_at f q = Some Dir -> walk k f cur (a ++ r) = walk k' f q r.
Proof.
  intros H D. revert cur a H. induction k as [|k IHk]; intros cur a; revert cur; induction a as [|c a IH]; intros cur; cbn [walk app];
    [by intros [= <- <-]| |by intros [= <- <-]|].
  all: destruct (bool_decide (c = DOT)); [apply IH|]; destruct (bool_decide (c = DOTDOT)); [apply IH|].
  all: destruct (f !! (cur ++ [c])) as [[b| |t]|] eqn:L; try done; try apply IH.
  1,2: destruct a; [|done]; intros [= <- <-]; rewrite node_at_cons in D by (by destruct cur); congruence.
  intros H. rewrite app_assoc. by apply IHk.
Qed.

Lemma walk_dot k f cur a x : walk k f cur (a ++ [DOT]) = Some x -> walk k f cur a = Some x.
Proof.
  revert cur a. induction k as [|k IHk]; intros cur a; revert cur; induction a as [|c a IH]; intros cur; cbn [walk app]; try done.
  all: destruct (bool_decide (c = DOT)); [apply IH|]; destruct (bool_decide (c = DOTDOT)); [apply IH|].
  all: destruct (f !! (cur ++ [c])) as [[b| |t]|] eqn:L; try done; try apply IH; try (by destruct a).
  rewrite app_assoc. apply IHk.
Qed.

(** A directory, and the links left when it is reached. *)
Definition reaches (f : fs) (dir : rstr) (k : nat) (q : path) : Prop :=
  exists p, place cwd dir = Some p /\ walk MAX_LINKS f [] p = Some (k, q) /\ node_at f q = Some Dir.

Lemma reaches_dir f dir p : place cwd dir = Some p -> FsHandler.is_dir f p = true -> exists k q, reaches f dir k q.
Proof.
  unfold FsHandler.is_dir, FsHandler.stat_node, canonicalize. intros P. rewrite walk_resolve.
  destruct (walk _ _ _ _) as [[k q]|] eqn:W; [|done]. cbn [option_map snd]. intros H. exists k, q, p. split_and!; [done..|].
  by destruct (node_at f q) as [[]|].
Qed.

Lemma reaches_read f dir k q : reaches f dir k q -> exists p l, place cwd dir = Some p /\ read_dir f p = Some l
  /\ forall c, c ∈ map fst l <-> is_Some (f !! (q ++ [c])).
Proof.
  intros (p & P & W & D). assert (C : canonicalize f p = Some q) by (unfold canonicalize; by rewrite walk_resolve, W).
  assert (C' : canonicalize f q = Some q) by by eapply canonicalize_idem.
  destruct (FsHandler.read_dir_names f q C' D) as (l & R & _ & I). exists p, l. split_and!; [done| |done].
  unfold read_dir in *. rewrite C' in R. by rewrite C.
Qed.

(** What a name of the directory leads to. *)
Lemma reaches_entry f dir k q c :
  named f -> reaches f dir k q -> is_Some (f !! (q ++ [c])) ->
  exists p, place cwd (join_name dir c) = Some p /\ walk MAX_LINKS f [] p = walk k f q [c].
Proof.
  intros N (p & P & W & D) I. destruct (N _ _ I) as (Ne & Sl & _). destruct (place_join dir c p Sl Ne P) as (p0 & E & J).
  exists (p0 ++ [c]). split; [done|]. destruct E as [-> | ->]; [by apply walk_app|]. apply walk_app; [|done]. by apply walk_dot.
Qed.

(** The deepest path of a disk, and what the recursion has left to go. *)
Definition deepest (f : fs) : nat := max_list (map (fun kv => length (fst kv)) (map_to_list f)).
Definition distance (f : fs) (k : nat) (q : path) : nat := k * S (deepest f) + (deepest f - length q).

Lemma deepest_key f q : is_Some (f !! q) -> (length q <= deepest f)%nat.
Proof.
  intros [n Hn]. unfold deepest. apply max_list_elem_of_le, list_elem_of_fmap. exists (q, n).
  split; [done|]. by apply elem_of_map_to_list.
Qed.

Lemma entry_nearer f k q c k' q' :
  name_ok c -> walk k f q [c] = Some (k', q') -> node_at f q' = Some Dir -> (distance f k' q' < distance f k q)%nat.
Proof.
  intros (_ & _ & N1 & N2) W D. unfold distance. destruct k as [|k]; cbn [walk] in W;
    rewrite (bool_decide_eq_false_2 _ N1), (bool_decide_eq_false_2 _ N2) in W.
  all: destruct (f !! (q ++ [c])) as [[b| |t]|] eqn:L; try done; cbn [nonempty] in W.
  - injection W as <- <-. rewrite node_at_cons in D by (by destruct q). congruence.
  - injection W as <- <-. assert (X := deepest_key f (q ++ [c]) ltac:(eauto)). rewrite length_app in *. cbn in *. lia.
  - injection W as <- <-. rewrite node_at_cons in D by (by destruct q). congruence.
  - injection W as <- <-. assert (X := deepest_key f (q ++ [c]) ltac:(eauto)). rewrite length_app in *. cbn in *. lia.
  - apply walk_bound in W. assert (k' * S (deepest f) <= k * S (deepest f))%nat by (apply Nat.mul_le_mono_r; lia). lia.
Qed.

Lemma distance_bound f dir k q : reaches f dir k q -> (distance f k q < S MAX_LINKS * S (deepest f))%nat.
Proof.
  intros (p & _ & W & _). apply walk_bound in W. unfold distance.
  assert (k * S (deepest f) <= MAX_LINKS * S (deepest f))%nat by (apply Nat.mul_le_mono_r; lia). lia.
Qed.
(** *** The scan *)

(** A run that succeeds on a disk, keeps what is indexed by its content, and
    establishes [Q]. *)
Definition keeps_index (m m' : Machine) : Prop :=
  files m' = files m /\ modified m' = modified m
  /\ forall p b, content_of (files m) p = Some b -> indexed m p b -> indexed m' p b.

#[local] Instance keeps_index_preorder : PreOrder keeps_index.
Proof.
  split; [by intros m|]. intros m1 m2 m3 (A & B & C) (A' & B' & C'). split_and!; [congruence..|].
  intros p b H I. apply C'; [by rewrite A|]. by apply C.
Qed.

Definition does (f : fs) (md : path -> option Z) (m : M Machine unit) (Q : Machine -> Prop) : Prop :=
  forall w, files (data w) = f -> modified (data w) = md ->
  exists w', m w = (Ok tt, w') /\ keeps_index (data w) (data w') /\ Q (data w').

Definition indexes (f : fs) (P : rstr -> bytes -> Prop) (m : Machine) : Prop := forall p b, P p b -> indexed m p b.

Lemma does_each {A} f md (act : A -> M Machine unit) (P : A -> rstr -> bytes -> Prop) l :
  (forall x, x ∈ l -> does f md (act x) (indexes f (P x))) ->
  (forall x p b, P x p b -> content_of f p = Some b) ->
  does f md (for_each act l) (indexes f (fun p b => exists x, x ∈ l /\ P x p b)).
Proof.
  intros H C. induction l as [|x l IH]; intros w Ff Fm; cbn [for_each].
  - exists w. split; [done|]. split; [done|]. intros p b (x & Hx & _). by apply not_elem_of_nil in Hx.
  - destruct (H x ltac:(by left) w Ff Fm) as (w1 & E1 & (G1 & G2 & G3) & I1).
    destruct (IH ltac:(intros y Hy; apply H; by right) w1 ltac:(congruence) ltac:(congruence)) as (w2 & E2 & G & I2).
    exists w2. split; [unfold mbind, M_bind; by rewrite E1, E2|]. split; [by etrans; [split_and!|]|].
    intros p b (y & [-> | Hy]%elem_of_cons & Py); [|apply I2; by exists y].
    apply G; [rewrite G1, Ff; by eapply C|]. by apply I1.
Qed.

Context (R : reliable O).

Lemma at_place_run {A} (f : fs -> path -> option A) p a (w : World Machine) :
  place cwd p ≫= f (files (data w)) = Some a -> at_place cwd f p w = (Ok a, mkWorld (data w) (S (pos w))).
Proof. intros H. unfold at_place, on_files, io. by rewrite (proj2 (R _)), H. Qed.

Lemma asked_run (f : fs -> path -> bool) p q (w : World Machine) :
  place cwd p = Some q -> probe cwd f p w = (Ok (f (files (data w)) q), mkWorld (data w) (S (pos w))).
Proof. intros H. unfold probe, unwrap_or. rewrite (at_place_run _ p (f (files (data w)) q)); [done|]. by rewrite H. Qed.

Lemma index_does f md p q b :
  dated f md -> place cwd p = Some q -> read f q = Some b ->
  does f md (index_file p) (fun m => indexed m p b).
Proof.
  intros Dt P Rd w Ff Fm. assert (Rd' := Rd). unfold read in Rd'. destruct (canonicalize f q) as [q'|] eqn:C; [|done].
  destruct (node_at f q') as [[b'| |]|] eqn:N; try done. injection Rd' as ->.
  assert (Nd : q' <> []) by (by intros ->). rewrite node_at_cons in N by done. destruct (Dt q' b N) as [secs Sc].
  unfold index_file, mbind, M_bind, metadata, io. rewrite (proj2 (R _)), P. cbn [option_bind mbind]. rewrite Ff, C, node_at_cons, N, Fm, Sc by done.
  cbn [fst snd ok_or mret M_ret]. rewrite (at_place_run read p b) by (cbn [data]; by rewrite P, Ff).
  unfold upsert_file, statement. rewrite (proj1 (R _)). eexists. split; [reflexivity|]. cbn [data].
  set (t := upsert _ _ _ _ _).
  assert (I : indexed (set_cache t (data w)) p b).
  { destruct (upserted p (Delta.digest_hex b) (wrap_i64 (FsHandler.node_len (File b))) (show_int secs) (file_cache (data w))) as (r & Hr & Er).
    exists r. split; [exact Hr|]. apply upsert_row in Hr as [(? & ? & ? & ?)|[X _]]; [by split_and!|done]. }
  split; [|exact I]. split_and!; [done..|]. intros p' b' Cp (r & Hr & Pr & Er & Hh & Hn). destruct (decide (p' = p)) as [->|Np].
  - unfold content_of in Cp. rewrite P, Ff in Cp. cbn in Cp. assert (b' = b) as -> by congruence. exact I.
  - exists r. split_and!; [|done..]. apply upsert_other; [congruence|done].
Qed.

Lemma is_file_read f q : FsHandler.is_file f q = true -> exists b, read f q = Some b.
Proof.
  unfold FsHandler.is_file, FsHandler.stat_node, read. destruct (canonicalize f q); [|done]. destruct (node_at f _) as [[]|]; try done. eauto.
Qed.

Lemma found_content f dir p b : found f dir p b -> content_of f p = Some b.
Proof. by induction 1. Qed.

(** The files a name of the directory leads to. *)
Definition under (f : fs) (dir c p : rstr) (b : bytes) : Prop :=
  (p = join_name dir c /\ content_of f p = Some b)
  \/ exists q', place cwd (join_name dir c) = Some q' /\ FsHandler.is_dir f q' = true /\ found f (join_name dir c) p b.

Lemma scan_does f md fuel dir k q :
  named f -> dated f md -> reaches f dir k q -> (distance f k q < fuel)%nat ->
  does f md (scan_directory fuel dir) (indexes f (found f dir)).
Proof.
  intros Nm Dt. revert dir k q. induction fuel as [|n IH]; intros dir k q Rc Lt; [lia|].
  destruct (reaches_read _ _ _ _ Rc) as (p & l & P & Rl & In). intros w Ff Fm. cbn [scan_directory]. unfold mbind at 1, M_bind at 1.
  rewrite (at_place_run read_dir dir l) by (rewrite P, Ff; exact Rl).
  match goal with |- context [for_each ?a (map fst l)] =>
    assert (D : does f md (for_each a (map fst l)) (indexes f (fun x b => exists c, c ∈ map fst l /\ under f dir c x b))) end.
  { apply does_each.
    2: { intros c x b [(_ & ?)|(q' & _ & _ & H)]; [done|by eapply found_content]. }
    intros c Hc v Gf Gm. apply In in Hc. destruct (reaches_entry f dir k q c Nm Rc Hc) as (pc & Pc & Wc).
    unfold mbind at 1, M_bind at 1, is_dir. rewrite (asked_run _ _ pc) by done. rewrite Gf. destruct (FsHandler.is_dir f pc) eqn:Dc.
    - destruct (reaches_dir f (join_name dir c) pc Pc Dc) as (k' & q' & (p' & P' & W' & D')).
      assert (p' = pc) as -> by congruence. rewrite Wc in W'.
      destruct (IH (join_name dir c) k' q' ltac:(exists pc; split_and!; [done|congruence|done])
        ltac:(assert (X := entry_nearer f k q c k' q' (Nm _ _ Hc) W' D'); lia) (mkWorld (data v) (S (pos v))) Gf Gm) as (w' & E & G & I).
      exists w'. split; [done|]. split; [done|]. intros x b [(-> & Cx)|(q2 & _ & _ & Fd)]; [|by apply I].
      unfold content_of in Cx. rewrite Pc in Cx. cbn in Cx. unfold read in Cx. unfold FsHandler.is_dir, FsHandler.stat_node in Dc.
      destruct (canonicalize f pc); [|done]. by destruct (node_at f _) as [[]|].
    - unfold mbind at 1, M_bind at 1, is_file. rewrite (asked_run _ _ pc) by done. cbn [data]. rewrite Gf.
      destruct (FsHandler.is_file f pc) eqn:Fc.
      + destruct (is_file_read f pc Fc) as [b Rb].
        destruct (index_does f md _ pc b Dt Pc Rb (mkWorld (data v) (S (S (pos v)))) Gf Gm) as (w' & E & G & I).
        exists w'. split; [done|]. split; [done|]. intros x b' [(-> & Cx)|(q2 & P2 & D2 & _)]; [|congruence].
        unfold content_of in Cx. rewrite Pc in Cx. cbn in Cx. assert (b' = b) as -> by congruence. exact I.
      + eexists. split; [reflexivity|]. split; [done|]. intros x b [(-> & Cx)|(q2 & P2 & D2 & _)]; [|congruence].
        unfold content_of in Cx. rewrite Pc in Cx. cbn in Cx. unfold read in Cx. unfold FsHandler.is_file, FsHandler.stat_node in Fc.
        destruct (canonicalize f pc); [|done]. by destruct (node_at f _) as [[]|]. }
  destruct (D (mkWorld (data w) (S (pos w))) Ff Fm) as (w' & E & G & I). exists w'. split; [exact E|]. split; [done|].
  intros x b Fd. apply I. destruct Fd as [dir q0 l0 c b P0 R0 Hc Cx | dir q0 l0 c q' x b P0 R0 Hc P' D' Fd].
  - assert (l0 = l) as -> by congruence. exists c. split; [done|]. by left.
  - assert (l0 = l) as -> by congruence. exists c. split; [done|]. right. by exists q'.
Qed.

(** C16: the first scan.  With the environment answering, on a disk whose files
    were changed after 1970, the scan of a directory ends, through links that
    loop too, and succeeds; then every file that is reached from the directory,
    down its folders and along its links, has a row that waits for the upload
    of its present content. *)
Theorem scan_indexes dir q (w : World Machine) :
  named (files (data w)) -> dated (files (data w)) (modified (data w)) ->
  place cwd dir = Some q -> FsHandler.is_dir (files (data w)) q = true ->
  exists w', scan_directory (S MAX_LINKS * S (deepest (files (data w)))) dir w = (Ok tt, w')
    /\ files (data w') = files (data w)
    /\ forall p b, found (files (data w)) dir p b -> indexed (data w') p b.
Proof.
  intros Nm Dt P D. destruct (reaches_dir _ _ _ P D) as (k & q' & Rc).
  destruct (scan_does _ (modified (data w)) _ dir k q' Nm Dt Rc (distance_bound _ _ _ _ Rc) w eq_refl eq_refl) as (w' & E & (F & _) & I).
  by exists w'.
Qed.
End Watcher.

(** ** Concrete runs *)

(** A folder with a file, a folder below it with another, and there a link that
    leads back up. *)
Definition demo_files : fs :=
  list_to_map [([lit "home"], Dir); ([lit "home"; lit "a"], File [1; 2]); ([lit "home"; lit "sub"], Dir);
               ([lit "home"; lit "sub"; lit "b"], File [3]); ([lit "home"; lit "sub"; lit "up"], Link [lit "home"])].

Definition demo_machine : Machine := mkMachine demo_files (fun _ => Some 100) [] [] 0.

Notation demo_index p w := (index_file (O := toy_env []) (S2 := toy_sha256) (HX := plain_hex) [] (lit p) w) (only parsing).

(** a file that is indexed again.  Its row waits for an upload again, though
    its content is the one that was uploaded; and an event that tells of a name
    that is gone, as the old name of a renamed file, leaves its row. *)
Theorem indexed_again :
  let w0 := mkWorld demo_machine 0 in
  let w1 := snd (demo_index "/home/a" w0) in
  let w2 := snd (mark_synced (O := toy_env []) (lit "/home/a") (lit "r") w1) in
  let w3 := snd (demo_index "/home/a" w2) in
  let gone := {| kind := Modify; paths := [lit "/home/old"] |} in
  let row := {| CacheRow.path := lit "/home/old"; CacheRow.sha256_hash := []; CacheRow.size_bytes := 1;
                CacheRow.modified_at := []; CacheRow.synced_at := None; CacheRow.status := PENDING;
                CacheRow.remote_id := None |} in
  let w4 := mkWorld (set_cache [row] demo_machine) 0 in
  (map CacheRow.status (file_cache (data w2)) = [SYNCED]
   /\ map CacheRow.status (file_cache (data w3)) = [PENDING]
   /\ map CacheRow.sha256_hash (file_cache (data w3)) = map CacheRow.sha256_hash (file_cache (data w2)))
  /\ file_cache (data (snd (handle_event (O := toy_env []) (S2 := toy_sha256) (HX := plain_hex) [] gone w4))) = [row].
Proof. vm_compute. repeat split; reflexivity. Qed.

Lemma demo_entries q n : demo_files !! q = Some n ->
  In (q, n) [([lit "home"], Dir); ([lit "home"; lit "a"], File [1; 2]); ([lit "home"; lit "sub"], Dir);
             ([lit "home"; lit "sub"; lit "b"], File [3]); ([lit "home"; lit "sub"; lit "up"], Link [lit "home"])].
Proof. intros H. apply list_elem_of_In. by apply elem_of_list_to_map_2. Qed.

Lemma demo_named : named demo_files.
Proof.
  intros q c [n H]. apply demo_entries in H. assert (L := last_snoc c q). cbn [In] in H.
  repeat destruct H as [H|H]; [..|done]; injection H as H _; rewrite <- H in L; injection L as <-;
    (split; [done|]; split; [|by split]; apply (bool_decide_eq_true_1 _); vm_compute; reflexivity).
Qed.

(** The scan of the folder finds the file below. *)
Lemma scan_indexes_witness : exists w',
  scan_directory (O := toy_env []) (S2 := toy_sha256) (HX := plain_hex) [] (41 * 4) (lit "/home") (mkWorld demo_machine 0) = (Ok tt, w')
  /\ indexed (S2 := toy_sha256) (HX := plain_hex) (data w') (lit "/home/sub/b") [3].
Proof.
  assert (F : deepest demo_files = 3%nat) by (vm_compute; reflexivity).
  destruct (scan_indexes (O := toy_env []) (S2 := toy_sha256) (HX := plain_hex) [] toy_env_reliable (lit "/home") [lit "home"]
    (mkWorld demo_machine 0) demo_named) as (w' & E & _ & I).
  - intros q b _. eexists. reflexivity.
  - vm_compute. reflexivity.
  - vm_compute. reflexivity.
  - cbn [data files demo_machine] in E, I. rewrite F in E. exists w'. split; [exact E|]. apply I.
    eapply (found_below [] _ (lit "/home") [lit "home"] _ (lit "sub") [lit "home"; lit "sub"]);
      [vm_compute; reflexivity|vm_compute; reflexivity| |vm_compute; reflexivity|vm_compute; reflexivity|].
    { apply (bool_decide_eq_true_1 _). vm_compute. reflexivity. }
    change (lit "/home/sub/b") with (join_name (join_name (lit "/home") (lit "sub")) (lit "b")).
    eapply (found_here [] _ _ [lit "home"; lit "sub"] _ (lit "b")); [vm_compute; reflexivity|vm_compute; reflexivity| |vm_compute; reflexivity].
    apply (bool_decide_eq_true_1 _). vm_compute. reflexivity.
Defined.
End Watcher.
