(* ===== verification/Config.v ===== *)
(** * Config: the agent's configuration file

    agent/src/config.rs: the settings of an agent, read from a file of JSON or
    TOML, and written with their defaults when there is none.  The texts of JSON
    and TOML are those of serde_json and toml, parameters. *)

From S2P Require Import Prelude Text Effects Externals Fs Storage FsHandler Json Utf8 Codec LocalDb Watcher.

Module Config.
Import Fs Json LocalDb.

Record AgentConfig := {
  server_url : rstr; auth_token : rstr; device_id : rstr; user_id : rstr; cloud_id : rstr; storage_node_id : rstr;
  data_dir : rstr; sync_folders : list rstr; sync_interval_secs : Z; ignore_patterns : list rstr;
  allowed_disks : list rstr; excluded_disks : list rstr
}.

(** toml::from_str to a value, with its error, and to_string_pretty, which has
    no text for some values; serde_json::to_string_pretty. *)
Class Texts := {
  toml_parse : rstr -> rstr + Value;
  toml_print : Value -> option rstr;
  json_pretty : Value -> rstr
}.

(** str::rsplit_once with a character. *)
Definition rsplit_once (sep : Z) (s : rstr) : option (rstr * rstr) :=
  option_map (fun ab => (reverse (snd ab), reverse (fst ab))) (split_once sep (reverse s)).

(** Path::file_name and Path::extension *)
Definition path_file_name (p : rstr) : option rstr :=
  match last (Storage.components p) with
  | Some c => if bool_decide (c = DOTDOT) then None else Some c
  | None => None
  end.

Definition extension (p : rstr) : option rstr :=
  n ← path_file_name p;
  match rsplit_once (chr ".") n with
  | Some (before, after) => if nonempty before then Some after else None
  | None => None
  end.

Definition is_json (p : rstr) : bool := bool_decide (extension p = Some (lit "json")).

(** ** Serialize and Deserialize *)

Definition FIELDS : list string :=
  ["server_url"; "auth_token"; "device_id"; "user_id"; "cloud_id"; "storage_node_id"; "data_dir"; "sync_folders";
   "sync_interval_secs"; "ignore_patterns"; "allowed_disks"; "excluded_disks"]%string.

Definition list_json (l : list rstr) : Value := Arr (map Str l).

Definition to_value (c : AgentConfig) : Value :=
  obj [("server_url", Str (server_url c)); ("auth_token", Str (auth_token c)); ("device_id", Str (device_id c));
       ("user_id", Str (user_id c)); ("cloud_id", Str (cloud_id c)); ("storage_node_id", Str (storage_node_id c));
       ("data_dir", Str (data_dir c)); ("sync_folders", list_json (sync_folders c));
       ("sync_interval_secs", Num (sync_interval_secs c)); ("ignore_patterns", list_json (ignore_patterns c));
       ("allowed_disks", list_json (allowed_disks c)); ("excluded_disks", list_json (excluded_disks c))]%string.

Definition as_list (v : Value) : option (list rstr) := match v with Arr l => mapM as_str l | _ => None end.

(** A field that is there must have its type; one that is not has its default.
    A known field that comes twice is an error, another one is passed over. *)
Definition known (k : rstr) : bool := existsb (fun n : string => bool_decide (lit n = k)) FIELDS.

Definition field {A} (conv : Value -> option A) (default_ : A) (v : Value) (i : nat) (k : string) : option A :=
  match (match v with Arr l => l !! i | _ => get k v end) with
  | Some x => conv x
  | None => Some default_
  end.

Definition of_value (d : AgentConfig) (v : Value) : option AgentConfig :=
  let shape := match v with
               | Obj l => bool_decide (base.NoDup (List.filter known (map fst l)))
               | Arr l => (length l <=? 12)%nat
               | _ => false
               end in
  if negb shape then None else
  a ← field as_str (server_url d) v 0 "server_url";
  b ← field as_str (auth_token d) v 1 "auth_token";
  e ← field as_str (device_id d) v 2 "device_id";
  f ← field as_str (user_id d) v 3 "user_id";
  g ← field as_str (cloud_id d) v 4 "cloud_id";
  h ← field as_str (storage_node_id d) v 5 "storage_node_id";
  i ← field as_str (data_dir d) v 6 "data_dir";
  j ← field as_list (sync_folders d) v 7 "sync_folders";
  k ← field as_u64 (sync_interval_secs d) v 8 "sync_interval_secs";
  l ← field as_list (ignore_patterns d) v 9 "ignore_patterns";
  m ← field as_list [] v 10 "allowed_disks";
  n ← field as_list [] v 11 "excluded_disks";
  Some {| server_url := a; auth_token := b; device_id := e; user_id := f; cloud_id := g; storage_node_id := h;
          data_dir := i; sync_folders := j; sync_interval_secs := k; ignore_patterns := l; allowed_disks := m;
          excluded_disks := n |}.

Section Config.
Context {O : Oracle} {JT : JsonText} {TX : Texts}.
(** The current directory, dirs::data_dir() and PCOS_SERVER_URL; and what
    serde_json says of a text that is no configuration. *)
Context (cwd : Fs.path) (data_home server_env : option rstr) (json_error : rstr -> rstr).

Definition default_config : AgentConfig :=
  {| server_url := default (lit "https://pcos-control-plane.dayashimoga.workers.dev") server_env;
     auth_token := []; device_id := []; user_id := []; cloud_id := []; storage_node_id := [];
     data_dir := Watcher.join_name (default (lit ".") data_home) (lit "pcos-agent");
     sync_folders := []; sync_interval_secs := 30;
     ignore_patterns := map lit ["*.tmp"; "*.swp"; ".git/**"; "node_modules/**"; "target/**"; ".DS_Store"; "Thumbs.db"]%string;
     allowed_disks := []; excluded_disks := [] |}.

(** ** The file *)

(** std::fs::write: the file is opened and emptied, and then written. *)
Definition put_file (f : Fs.fs) (p : Fs.path) (b : bytes) : option Fs.fs :=
  '(q, f') ← open_create f p; Some (<[q := File b]> f').

Definition change_files (f : Fs.fs -> option Fs.fs) : M Machine unit :=
  io (fun m => match f (files m) with Some d => inr (tt, set_files d m) | None => inl Storage.OS_ERROR end).

Definition write_file (p : rstr) (b : bytes) : M Machine unit :=
  _ ← change_files (fun f => q ← place cwd p; put_file f q []);
  change_files (fun f => q ← place cwd p; put_file f q b).

(** Path::parent of a name without a directory is the empty path, for which
    create_dir_all does nothing. *)
Definition has_directory (p : rstr) : bool :=
  starts_with (lit "/") p || (1 <? length (Storage.components p))%nat.

Definition make_parent (p : rstr) : M Machine unit :=
  if nonempty (Storage.components p) && has_directory p (* not the root directory itself *)
  then change_files (fun f => q ← place cwd p; create_dir_all f (FsHandler.parent_of q))
  else mret tt.

Definition save (c : AgentConfig) (p : rstr) : M Machine unit :=
  _ ← make_parent p;
  content ← (if is_json p then mret (json_pretty (to_value c))
             else ok_or (toml_print (to_value c)) (Internal (lit "unsupported TOML value")));
  write_file p (as_bytes content).

Definition from_json (content : rstr) : option AgentConfig := json_parse content ≫= of_value default_config.

Definition from_toml (content : rstr) : rstr + AgentConfig :=
  match toml_parse content with
  | inl e => inl e
  | inr v => match of_value default_config v with Some c => inr c | None => inl (json_error content) end
  end.

Definition read_to_string (p : rstr) : M Machine rstr :=
  at_place cwd (fun f q => Fs.read f q ≫= Utf8.from_utf8) p.

Definition load_or_create (p : rstr) : M Machine AgentConfig :=
  there ← probe cwd path_exists p;
  if there : bool then
    content ← read_to_string p;
    if is_json p then ok_or (from_json content) (Internal (json_error content))
    else match from_toml content with
         | inr c => mret c
         | inl toml_err =>
             match from_json content with
             | Some c => mret c
             | None => throw (Internal (lit "Failed to parse config file as TOML (" ++ toml_err ++ lit ") or JSON"))
             end
         end
  else
    _ ← save default_config p;
    mret default_config.
End Config.

(** ** What is saved is loaded *)

Lemma as_list_json l : as_list (list_json l) = Some l.
Proof. unfold as_list, list_json. induction l as [|s l IH]; [done|]. cbn in *. by rewrite IH. Qed.

Lemma field_of_config {A} (conv : Value -> option A) d c i k (x : Value) a :
  get k (to_value c) = Some x -> conv x = Some a -> field conv d (to_value c) i k = Some a.
Proof. intros E C. unfold field. by rewrite E. Qed.

(** A configuration is read back from its value, whatever the defaults. *)
Lemma of_to_value d c : is_u64 (sync_interval_secs c) -> of_value d (to_value c) = Some c.
Proof.
  intros [L U]. unfold of_value.
  assert (S : match to_value c with Obj l => bool_decide (base.NoDup (List.filter known (map fst l)))
                               | Arr l => (length l <=? 12)%nat | _ => false end = true) by (by vm_compute).
  rewrite S. cbn [negb].
  assert (N : as_u64 (Num (sync_interval_secs c)) = Some (sync_interval_secs c)).
  { cbn. by replace ((0 <=? sync_interval_secs c) && (sync_interval_secs c <=? u64_max)) with true by (unfold u64_max; lia). }
  repeat (erewrite (field_of_config as_str); [|reflexivity|reflexivity]; cbn [mbind option_bind]).
  repeat (erewrite (field_of_config as_list); [|reflexivity|apply as_list_json]; cbn [mbind option_bind]).
  erewrite (field_of_config as_u64); [|reflexivity|exact N]; cbn [mbind option_bind].
  repeat (erewrite (field_of_config as_list); [|reflexivity|apply as_list_json]; cbn [mbind option_bind]).
  by destruct c.
Qed.

Section Facts.
Context {O : Oracle} {JT : JsonText} {TX : Texts}.
Context (cwd : Fs.path) (data_home server_env : option rstr) (json_error : rstr -> rstr).

(** The text of a configuration is read back. *)
Definition reads (c : AgentConfig) (p : rstr) : Prop :=
  if is_json p then
    json_parse (json_pretty (to_value c)) = Some (to_value c) /\ Forall Utf8.scalar (json_pretty (to_value c))
  else exists s, toml_print (to_value c) = Some s /\ toml_parse s = inr (to_value c) /\ Forall Utf8.scalar s.

(** A place a file can be put: no link on the way, and no directory at it. *)
Definition settled (f : Fs.fs) (d : Fs.path) (n : rstr) : Prop :=
  Forall plain d /\ plain n /\ open_way f [] d /\ (f !! (d ++ [n]) = None \/ exists b, f !! (d ++ [n]) = Some (File b)).

Lemma drop_dots_plain (p : Fs.path) : Forall plain p -> FsHandler.drop_dots p = p.
Proof. destruct p as [|c p]; [done|]. intros [[N _] _]%Forall_cons. cbn. by rewrite bool_decide_false. Qed.

Lemma parent_of_snoc d n : Forall plain d -> plain n -> FsHandler.parent_of (d ++ [n]) = d.
Proof.
  intros Pd Pn. unfold FsHandler.parent_of. rewrite reverse_app. cbn [reverse app].
  assert (Forall plain (reverse d)) as Pr by (by apply Forall_reverse).
  change (reverse [n] ++ reverse d) with (n :: reverse d). rewrite (drop_dots_plain (n :: reverse d)) by (by constructor).
  rewrite drop_dots_plain by done. apply reverse_involutive.
Qed.

Lemma put_file_ready f d n b :
  dir_ready f d -> plain n -> (f !! (d ++ [n]) = None \/ exists b0, f !! (d ++ [n]) = Some (File b0)) ->
  put_file f (d ++ [n]) b = Some (<[d ++ [n] := File b]> f).
Proof.
  intros R [N1 N2] H. unfold put_file, open_create.
  assert (E : open_target MAX_LINKS f (d ++ [n]) = Some (d ++ [n])).
  { unfold MAX_LINKS. cbn [open_target]. rewrite last_snoc, !bool_decide_false by done. cbn [orb].
    rewrite entry_ready by done. rewrite node_at_cons by (by destruct d). by destruct H as [-> |[b0 ->]]. }
  rewrite E. destruct H as [-> |[b0 ->]]; cbn; [|done]. by rewrite insert_insert_eq.
Qed.

Lemma change_files_run (f : Fs.fs -> option Fs.fs) d (w : World Machine) : reliable O -> f (files (data w)) = Some d ->
  change_files f w = (Ok tt, mkWorld (set_files d (data w)) (S (pos w))).
Proof. intros R E. unfold change_files, io. by rewrite (proj2 (R _)), E. Qed.

Lemma write_file_run p d n b (w : World Machine) : reliable O -> place cwd p = Some (d ++ [n]) ->
  dir_ready (files (data w)) d -> plain n ->
  (files (data w) !! (d ++ [n]) = None \/ exists b0, files (data w) !! (d ++ [n]) = Some (File b0)) ->
  exists w', write_file cwd p b w = (Ok tt, w') /\ files (data w') = <[d ++ [n] := File b]> (files (data w)).
Proof.
  intros R P D Pn H. eexists. split.
  - unfold write_file. eapply bind_run.
    + apply change_files_run; [done|]. rewrite P. by apply put_file_ready.
    + apply change_files_run; [done|]. rewrite P. cbn [data files set_files]. apply put_file_ready; [|done|].
      * by apply dir_ready_file.
      * right. rewrite lookup_insert_eq. eauto.
  - cbn. by rewrite insert_insert_eq.
Qed.

(** C31: the configuration is kept.  With the environment answering, and texts
    that are read back, a configuration saved below directories that are there,
    or that nothing is in the way of, is saved, and loading the file then gives
    it back, whatever the defaults are. *)
Theorem config_roundtrip c p d n w :
  reliable O -> is_u64 (sync_interval_secs c) -> reads c p ->
  place cwd p = Some (d ++ [n]) -> nonempty (Storage.components p) && has_directory p = true ->
  settled (files (data w)) d n ->
  exists w1 w2, save cwd c p w = (Ok tt, w1)
    /\ load_or_create cwd data_home server_env json_error p w1 = (Ok c, w2) /\ data w2 = data w1.
Proof.
  intros R U T P A (Pd & Pn & W & F).
  destruct (create_dirs_ready (files (data w)) [] d) as (f1 & C1 & D1 & S1); [|done|done|].
  { split; [apply real_nil|done]. }
  cbn [app] in D1.
  assert (F1 : f1 !! (d ++ [n]) = None \/ exists b0, f1 !! (d ++ [n]) = Some (File b0)).
  { destruct (S1 (d ++ [n])) as [->|(_ & _ & a & b & E & _ & E')]; [done|]. exfalso. cbn in E'. subst d.
    apply (f_equal length) in E'. rewrite !length_app in E'. cbn in E'. lia. }
  assert (exists content, (if is_json p then mret (json_pretty (to_value c))
             else ok_or (toml_print (to_value c)) (Internal (lit "unsupported TOML value")))
           = (fun w : World Machine => (Ok content, w))
         /\ Forall Utf8.scalar content
         /\ if is_json p then from_json data_home server_env content = Some c
            else from_toml data_home server_env json_error content = inr c) as (content & Ec & Sc & Fc).
  { unfold reads in T. destruct (is_json p).
    - destruct T as [T S]. eexists. split_and!; [done|done|]. unfold from_json. rewrite T. by apply of_to_value.
    - destruct T as (s & T1 & T2 & S). exists s. rewrite T1. split_and!; [done|done|]. unfold from_toml.
      rewrite T2. by rewrite of_to_value. }
  destruct (write_file_run p d n (as_bytes content) (mkWorld (set_files f1 (data w)) (S (pos w))) R P) as (w1 & E1 & Fw); [done|done|done|].
  cbn [data files set_files] in Fw. exists w1. eexists. split; [|split].
  - unfold save. eapply bind_run.
    + unfold make_parent. rewrite A. apply change_files_run; [done|]. rewrite P.
      cbn [mbind option_bind]. rewrite parent_of_snoc by done. exact C1.
    + eapply bind_run; [by rewrite Ec|exact E1].
  - assert (Rd : canonicalize (files (data w1)) (d ++ [n]) = Some (d ++ [n]) /\ read (files (data w1)) (d ++ [n]) = Some (as_bytes content)).
    { rewrite Fw. apply read_ready; [by apply dir_ready_file|done|by rewrite lookup_insert_eq]. }
    destruct Rd as [Cn Rd]. unfold load_or_create.
    eapply bind_run; [by apply (Watcher.asked_run cwd R)|]. unfold path_exists. rewrite Cn.
    eapply bind_run.
    { unfold read_to_string. apply (Watcher.at_place_run cwd R _ p content). rewrite P. cbn. rewrite Rd. cbn.
      unfold Utf8.from_utf8. rewrite Utf8.lossy_as_bytes by done. by rewrite bool_decide_true. }
    destruct (is_json p); [by rewrite Fc|]. by rewrite Fc.
  - done.
Qed.
End Facts.

(** ** Instances *)

Definition plain_texts : Texts :=
  {| toml_parse s := if nonempty s then match Codec.exact_json.(json_parse) s with Some v => inr v | None => inl [] end
                     else inr (Obj []);
     toml_print v := Some (Codec.exact_json.(json_print) v); json_pretty := Codec.exact_json.(json_print) |}.

Definition demo_config : AgentConfig :=
  {| server_url := lit "https://h"; auth_token := lit "t"; device_id := lit "d"; user_id := lit "u"; cloud_id := [];
     storage_node_id := []; data_dir := lit "/data"; sync_folders := [lit "/home/PCOS"]; sync_interval_secs := 30;
     ignore_patterns := []; allowed_disks := []; excluded_disks := [] |}.

Definition demo_disk : Fs.fs := list_to_map [([lit "home"], Dir)].
Definition demo_world : World Machine := mkWorld (mkMachine demo_disk (fun _ => None) [] [] 0) 0.
Definition demo_path : rstr := lit "/home/.pcos/agent.toml".

Notation demo_save O c w := (save (O := O) (TX := plain_texts) [] c demo_path w) (only parsing).
Notation demo_load w := (load_or_create (O := toy_env []) (JT := Codec.exact_json) (TX := plain_texts) [] None None (fun _ => []) demo_path w)
  (only parsing).

Lemma scalar_check s : forallb (fun c => (0 <=? c) && (c <? 0xD800)) s = true -> Forall Utf8.scalar s.
Proof.
  rewrite forallb_forall, Forall_forall. intros H c Hc. left. apply list_elem_of_In, H in Hc. lia.
Qed.

Lemma config_roundtrip_witness : exists w1 w2, demo_save (toy_env []) demo_config demo_world = (Ok tt, w1)
  /\ demo_load w1 = (Ok demo_config, w2).
Proof.
  destruct (config_roundtrip (O := toy_env []) (JT := Codec.exact_json) (TX := plain_texts) [] None None (fun _ => []) demo_config
    demo_path [lit "home"; lit ".pcos"] (lit "agent.toml") demo_world toy_env_reliable) as (w1 & w2 & E1 & E2 & _).
  - vm_compute. split; [discriminate|reflexivity].
  - unfold reads. replace (is_json demo_path) with false by (vm_compute; reflexivity). eexists. split; [reflexivity|]. split.
    + vm_compute. reflexivity.
    + apply scalar_check. vm_compute. reflexivity.
  - vm_compute. reflexivity.
  - vm_compute. reflexivity.
  - split_and!.
    + repeat constructor; intros E; vm_compute in E; discriminate E.
    + split; intros E; vm_compute in E; discriminate E.
    + apply open_way_two; vm_compute; reflexivity.
    + left. vm_compute. reflexivity.
  - exists w1, w2. split; [exact E1|exact E2].
Defined.

(** The environment in which the interaction at a place fails. *)
Definition disk_fails (at_ : nat) : Oracle :=
  {| db_fault := toy_oracle []; io_fault := toy_oracle [at_]; uuid_at n := Z.of_nat n + 1000; byte_at n := Z.of_nat n mod 256;
     salt_at n := Z.of_nat n; token_at n := lit "token"; code_at n := 0; clock_at n := 1700000000000000 + Z.of_nat n |}.

(** a configuration that is lost.  When the writing fails after the file was
    emptied, nothing is left of the old configuration: the next start reads the
    defaults, and the device is no longer enrolled. *)
Theorem config_lost :
  let w1 := snd (demo_save (toy_env []) demo_config demo_world) in
  let w2 := snd (demo_save (disk_fails 5) demo_config w1) in
  (exists c w3, demo_load w1 = (Ok c, w3) /\ auth_token c = lit "t")
  /\ exists c w3, demo_load w2 = (Ok c, w3) /\ auth_token c = [].
Proof. split; eexists _, _; (split; [vm_compute; reflexivity|reflexivity]). Qed.
End Config.
