(* ===== verification/AgentSync.v ===== *)
(** * AgentSync: an agent uploads its files to the server

    agent/src/sync.rs: the loop that uploads what waits in the agent's database.
    The state is both sides, the agent's machine and the server; a request runs
    the server's own handler of Uploads.v on the server's state, and the network
    can fail before it, or after it, when its answer is lost. *)

From S2P Require Import Prelude Text Tables Effects Externals Schema Token Account Fs Storage Files Tree Tenancy Quota Sharing Paths Json Delta FsHandler LocalDb Watcher Codec Uploads Config.

Module AgentSync.
Import Token Tenancy LocalDb.

(** What the server's parser reads of a form the client writes (reqwest and
    multer). *)
Class Wire := { transmit : list Sharing.Field -> list (rstr + Sharing.Field) }.

Record Both := mkBoth { machine : Machine; cloud : Server }.

Record Reply := { reply_status : Z; reply_body : rstr }.
Definition is_success (r : Reply) : bool := (200 <=? reply_status r) && (reply_status r <? 300).

(** A program of the machine, or of the server, run on both. *)
Definition on_machine {A} (m : M Machine A) : M Both A := fun w =>
  let '(o, w') := m (mkWorld (machine (data w)) (pos w)) in (o, mkWorld (mkBoth (data w') (cloud (data w))) (pos w')).

Definition on_cloud {A} (m : M Server A) : M Both A := fun w =>
  let '(o, w') := m (mkWorld (cloud (data w)) (pos w)) in (o, mkWorld (mkBoth (machine (data w)) (data w')) (pos w')).

(** [match r { Ok(..) => .., Err(e) => .. }] *)
Definition settle {D A} (m : M D A) : M D (AppError + A) := fun w =>
  match m w with
  | (Ok a, w') => (Ok (inr a), w')
  | (Err e, w') => (Ok (inl e), w')
  | (Panic, w') => (Panic, w')
  | (Diverge, w') => (Diverge, w')
  end.

(** HeaderValue::to_str *)
Definition to_str (s : rstr) : option rstr :=
  if forallb (fun c => ((32 <=? c) && (c <? 127)) || (c =? 9)) s then Some s else None.

(** Path::file_name, or the empty text. *)
Definition file_name (p : rstr) : rstr :=
  match last (Storage.components p) with
  | Some c => if bool_decide (c = Fs.DOTDOT) then [] else c
  | None => []
  end.

(** ** The bodies of the answers and requests *)

(** serde for ErrorResponse, and for UploadResponse with the time of chrono. *)
Definition error_json (e : AppError) : Value :=
  let body := snd (into_response e) in
  Json.obj [("error", Json.obj [("code", Str (code body)); ("message", Str (message body))])]%string.

Section Bodies.
Context {UT : UuidText}.
Context (show_time : Z -> rstr).

Definition entry_json (r : Files.FileEntryResponse) : Value :=
  Json.obj
    [("id", Str (uuid_to_string (Files.id r))); ("parent_id", Json.opt_str (option_map uuid_to_string (Files.parent_id r)));
     ("name", Str (Files.name r)); ("entry_type", Str (Files.entry_type r)); ("mime_type", Json.opt_str (Files.mime_type r));
     ("size_bytes", Num (Files.size_bytes r)); ("sha256_hash", Json.opt_str (Files.sha256_hash r));
     ("is_trashed", Bool (Files.is_trashed r)); ("created_at", Str (show_time (Files.created_at r)));
     ("updated_at", Str (show_time (Files.updated_at r)))]%string.

Definition upload_json (r : Files.FileEntryResponse) : Value := Json.obj [("file", entry_json r)]%string.

(** The body the agent sends when all the chunks are there. *)
Definition completion (upload_id : Z) (filename : rstr) (total_chunks : Z) : Value :=
  Json.obj [("upload_id", Str (uuid_to_string upload_id)); ("filename", Str filename); ("total_chunks", Num total_chunks)]%string.

(** Deserialize for ChunkedUploadRequest: a known field that comes twice is an
    error, as is one that is missing, unless it is an Option. *)
Definition known (k : rstr) : bool :=
  existsb (fun n : string => bool_decide (lit n = k)) ["upload_id"; "filename"; "parent_id"; "total_size"; "total_chunks"]%string.

Definition as_uuid (v : Value) : option Z := Json.as_str v ≫= uuid_parse_str.
Definition as_opt_uuid (v : Value) : option (option Z) := match v with Null => Some None | _ => option_map Some (as_uuid v) end.
Definition as_int (lo hi : Z) (v : Value) : option Z :=
  match v with Num n => if (lo <=? n) && (n <=? hi) then Some n else None | _ => None end.

Definition chunked_request (v : Value) : option Files.ChunkedUploadRequest :=
  let fields :=
    match v with
    | Obj l =>
        if bool_decide (base.NoDup (List.filter known (map fst l)))
        then Some (Json.get "upload_id" v, Json.get "filename" v, Some (default Null (Json.get "parent_id" v)),
                   Json.get "total_size" v, Json.get "total_chunks" v)
        else None
    | Arr [a; b; c; d; e] => Some (Some a, Some b, Some c, Some d, Some e)
    | _ => None
    end in
  match fields with
  | Some (Some i, Some f, Some p, Some s, Some n) =>
      match as_uuid i, Json.as_str f, as_opt_uuid p, as_int (- 2 ^ 63) i64_max s, as_int (- 2 ^ 31) (2 ^ 31 - 1) n with
      | Some i, Some f, Some p, Some s, Some n =>
          Some {| Files.upload_id := i; Files.up_filename := f; Files.up_parent_id := p; Files.total_size := s;
                  Files.total_chunks := n |}
      | _, _, _, _, _ => None
      end
  | _ => None
  end.
End Bodies.

Section AgentSync.
Context {O : Oracle} {JW : JsonWebToken} {S2 : Sha256} {HX : Hex} {UT : UuidText} {MG : MimeGuess} {HV : HttpValues}
  {MX : Uploads.MultipartText} {JT : Json.JsonText} {WR : Wire}.
Context (cwd : Fs.path) (auth_token : rstr) (config : AuthConfig) (base : Fs.path) (show_time : Z -> rstr)
  (status_text : Z -> rstr) (json_rejection : rstr).

(** ** The server's side *)

Definition bearer : rstr := lit "Bearer " ++ auth_token.

Definition authorized (handler : Z -> M Server Reply) : M Server Reply :=
  claims ← from_request_parts (to_str bearer) config;
  handler (sub claims).

Definition upload_handler (form : list Sharing.Field) : M Server Reply :=
  authorized (fun u =>
    r ← Uploads.upload_file base u (transmit form);
    mret {| reply_status := 201; reply_body := Json.json_print (upload_json show_time r) |}).

Definition chunk_handler (form : list Sharing.Field) : M Server Reply :=
  authorized (fun u =>
    _ ← Uploads.upload_chunk base u (transmit form);
    mret {| reply_status := 200; reply_body := [] |}).

(** The Json extractor refuses a body that is no JSON with 400, and one that is
    not the request with 422. *)
Definition complete_handler (body : rstr) : M Server Reply :=
  authorized (fun u =>
    match Json.json_parse body with
    | None => mret {| reply_status := 400; reply_body := json_rejection |}
    | Some v =>
        match chunked_request v with
        | None => mret {| reply_status := 422; reply_body := json_rejection |}
        | Some req =>
            r ← Files.complete_chunked_upload base u req;
            mret {| reply_status := 201; reply_body := Json.json_print (upload_json show_time r) |}
        end
    end).

(** ** The request *)

Definition network : M Both unit := io (fun b => inr (tt, b)).

(** What the client gets of a handler that ended: a panic cuts the connection. *)
Definition answer (r : outcome Reply) : M Both Reply :=
  match r with
  | Ok a => mret a
  | Err e => mret {| reply_status := fst (into_response e); reply_body := Json.json_print (error_json e) |}
  | Panic => throw (Internal (lit "connection closed before message completed"))
  | Diverge => diverge
  end.

Definition served (m : M Server Reply) : M Both (outcome Reply) := fun w =>
  let '(o, w') := on_cloud m w in (match o with Diverge => Diverge | _ => Ok o end, w').

(** A request is sent, served and answered; the network can fail before and
    after. *)
Definition exchange (handler : M Server Reply) : M Both Reply :=
  _ ← network;
  r ← served handler;
  _ ← network;
  answer r.

Definition post (handler : M Server Reply) : M Both Reply :=
  if negb (header_ok bearer) then throw (Internal (lit "builder error")) else exchange handler.

(** resp.json() and body["file"]["id"] *)
Definition remote_id_of (r : Reply) : M Both rstr :=
  _ ← network;
  v ← ok_or (Json.json_parse (reply_body r)) (Internal (lit "error decoding response body"));
  mret (default (lit "unknown") (Json.as_str (Json.index (Json.index v "file") "id"))).

Definition refused (what : string) (r : Reply) : M Both rstr :=
  body ← unwrap_or (_ ← network; mret (reply_body r)) [];
  throw (Internal (lit what ++ lit " failed: " ++ status_text (reply_status r) ++ lit " - " ++ body)).

(** ** Uploading a file *)

Definition OCTETS : option rstr := Some (lit "application/octet-stream").

Definition text_field (n : string) (text : rstr) : Sharing.Field :=
  {| Sharing.field_name := Some (lit n); Sharing.file_name := None; Sharing.field_type := None;
     Sharing.content := inr (as_bytes text) |}.

Definition file_part (n : string) (name : rstr) (b : bytes) : Sharing.Field :=
  {| Sharing.field_name := Some (lit n); Sharing.file_name := Some name; Sharing.field_type := OCTETS;
     Sharing.content := inr b |}.

Definition file_form (p : rstr) (b : bytes) : list Sharing.Field := [file_part "file" (file_name p) b].

Definition chunk_form (upload_id : Z) (c : Delta.ChunkInfo) (b : bytes) : list Sharing.Field :=
  [text_field "upload_id" (uuid_to_string upload_id); text_field "chunk_index" (show_int (Delta.index c));
   file_part "chunk" (lit "chunk_" ++ show_padded 6 (Delta.index c)) b].

(** seek and read_exact *)
Definition read_exact (file : Fs.path) (offset len : Z) : M Machine bytes :=
  on_files (fun f => match Fs.node_at f file with
                     | Some (Fs.File b) =>
                         if offset + len <=? Z.of_nat (length b) then Some (Delta.slice b offset (offset + len)) else None
                     | _ => None
                     end).

Fixpoint send_chunks (file : Fs.path) (upload_id : Z) (chunks : list Delta.ChunkInfo) : M Both unit :=
  match chunks with
  | [] => mret tt
  | c :: rest =>
      _ ← on_machine (on_files (fun _ => Some tt));
      chunk_bytes ← on_machine (read_exact file (Delta.offset c) (Delta.length_ c));
      resp ← post (chunk_handler (chunk_form upload_id c chunk_bytes));
      if negb (is_success resp)
      then throw (Internal (lit "Chunk " ++ show_int (Delta.index c) ++ lit " upload failed: " ++ status_text (reply_status resp)))
      else send_chunks file upload_id rest
  end.

Definition MANY : Z := 1024 * 1024.

(** Opening the file follows its links. *)
Definition open_file (p : rstr) : M Machine Fs.path := at_place cwd Fs.canonicalize p.

Definition send_in_chunks (p : rstr) (chunks : list Delta.ChunkInfo) : M Both rstr :=
  upload_id ← new_v4;
  file ← on_machine (open_file p);
  _ ← send_chunks file upload_id chunks;
  resp ← post (complete_handler (Json.json_print (completion upload_id (file_name p) (Z.of_nat (length chunks)))));
  if negb (is_success resp) then refused "Complete upload" resp else remote_id_of resp.

Definition send_whole (p : rstr) : M Both rstr :=
  data ← on_machine (at_place cwd Fs.read p);
  resp ← post (upload_handler (file_form p data));
  if negb (is_success resp) then refused "Upload" resp else remote_id_of resp.

(** The hash is only logged. *)
Definition upload_file (p expected_hash : rstr) (size : Z) : M Both rstr :=
  there ← on_machine (probe cwd Fs.path_exists p);
  if negb there then throw (Internal (lit "Local file no longer exists: " ++ p)) else
  content ← map_err (to_internal "Failed to compute chunks: ") (on_machine (at_place cwd Fs.read p));
  let chunks := Delta.split_into_chunks content in
  if (1 <? length chunks)%nat && (MANY <? size) then send_in_chunks p chunks else send_whole p.

(** ** A round of the loop *)

(** What is written down of an upload. *)
Definition record (p : rstr) (r : AppError + rstr) : M Machine unit :=
  match r with
  | inr remote_id =>
      _ ← discard (mark_synced p remote_id);
      discard (log_sync p "upload" "success" None)
  | inl e =>
      discard (log_sync p "upload" "failed" (Some match e with Internal t => t | other => display other end))
  end.

Definition sync_one (item : rstr * rstr * Z) : M Both unit :=
  let '(p, hash, size) := item in
  r ← settle (upload_file p hash size);
  on_machine (record p r).

Definition sync_round : M Both unit :=
  pending ← settle (on_machine get_pending);
  match pending with
  | inr items => Watcher.for_each sync_one items
  | inl _ => mret tt
  end.

(** [n] rounds of the loop, which has no end of its own. *)
Fixpoint sync_loop (n : nat) : M Both unit :=
  match n with 0%nat => mret tt | S k => _ ← sync_round; sync_loop k end.
(** ** What a round may touch *)

(** No file is forgotten. *)
Definition rows_kept (s s' : Server) : Prop := forall f, f ∈ file_entries s -> f ∈ file_entries s'.

#[local] Instance rows_kept_preorder : PreOrder rows_kept.
Proof. split; [by intros s f|]. intros s1 s2 s3 H12 H23 f H. by apply H23, H12. Qed.

(** On the machine the two tables, which stay in order; at the server what is
    the user's, and there nothing is taken away. *)
Definition both_step (u : Z) (b b' : Both) : Prop :=
  db_step (machine b) (machine b') /\ isolated u (cloud b) (cloud b') /\ rows_kept (cloud b) (cloud b').

#[local] Instance both_step_preorder u : PreOrder (both_step u).
Proof. split; [by intros b|]. intros b1 b2 b3 (A & B & C) (A' & B' & C'). split_and!; by etrans. Qed.

(** An upload only reads the machine. *)
Definition sends (u : Z) (b b' : Both) : Prop :=
  machine b' = machine b /\ isolated u (cloud b) (cloud b') /\ rows_kept (cloud b) (cloud b').

#[local] Instance sends_preorder u : PreOrder (sends u).
Proof. split; [by intros b|]. intros b1 b2 b3 (A & B & C) (A' & B' & C'). split_and!; [congruence|by etrans..]. Qed.

Lemma sends_step u b b' : sends u b b' -> both_step u b b'.
Proof. intros (E & I & K). split; [by rewrite E|done]. Qed.

Definition untouched (m m' : Machine) : Prop := m' = m.

#[local] Instance untouched_preorder : PreOrder untouched.
Proof. split; [by intros m|]. intros m1 m2 m3 -> ->. done. Qed.

Lemma on_files_untouched {A} (f : Fs.fs -> option A) : preserves untouched (on_files f).
Proof. apply preserves_io; [apply _|]. intros m a m' E. destruct (f (files m)); [by injection E as _ <-|done]. Qed.

(** A handler that does nothing else to the server. *)
Definition adds (u : Z) {A} (h : M Server A) : Prop := under (fun _ => True) u h /\ preserves rows_kept h.

Lemma tables_kept {A} (m : M Server A) : preserves tables_same m -> preserves rows_kept m.
Proof. intros H w o w' E f. by rewrite (H w o w' E). Qed.

Lemma insert_keeps i u p n m h z y : preserves rows_kept (Files.insert_stored i u p n m h z y).
Proof.
  unfold Files.insert_stored. preserve. apply preserves_execute; [apply _|]. intros now s a s' E _ f Hf. injection E as _ <-.
  cbn [file_entries set_file_entries Files.insert_file]. apply elem_insert. by left.
Qed.

Ltac rows :=
  repeat first [apply tables_kept, verify_parent_tables | apply tables_kept, quota_tables | apply tables_kept, store_file_tables
    | apply tables_kept, assemble_chunks_tables | apply insert_keeps | progress preserve].

Lemma upload_rows u fields parent r : preserves rows_kept (Uploads.upload_fields base u fields parent r).
Proof.
  revert parent r. induction fields as [|[e|f] l IH]; intros parent r; cbn [Uploads.upload_fields]; [preserve|preserve|].
  unfold Uploads.text_of, Uploads.bytes_of, Uploads.uuid_or, Files.upload_file. rows.
Qed.

Lemma on_machine_keeps u {A} (m : M Machine A) : preserves db_step m -> preserves (both_step u) (on_machine m).
Proof.
  intros H w o w' E. unfold on_machine in E. destruct (m _) as [o1 v] eqn:Em. injection E as <- <-. apply H in Em. by split_and!.
Qed.

Lemma reading_sends u {A} (m : M Machine A) : preserves untouched m -> preserves (sends u) (on_machine m).
Proof.
  intros H w o w' E. unfold on_machine in E. destruct (m _) as [o1 v] eqn:Em. injection E as <- <-. apply H in Em. by split_and!.
Qed.

Lemma served_keeps u h : adds u h -> preserves (sends u) (served h).
Proof.
  intros [H K] w o w' E. unfold served, on_cloud in E. destruct (h _) as [o1 v] eqn:Eh. injection E as _ <-.
  split; [done|]. split; [by apply H in Eh|by apply K in Eh].
Qed.

Lemma settle_keeps {D A} (R : D -> D -> Prop) (m : M D A) : preserves R m -> preserves R (settle m).
Proof. intros H w o w' E. unfold settle in E. destruct (m w) as [o1 v] eqn:Em. apply H in Em. by destruct o1; injection E as _ <-. Qed.

Lemma for_each_any {D A} (R : D -> D -> Prop) `{!PreOrder R} (f : A -> M D unit) l :
  (forall x, preserves R (f x)) -> preserves R (Watcher.for_each f l).
Proof. intros H. induction l as [|x l IH]; cbn [Watcher.for_each]; preserve. Qed.

(** The token is that of user [u], whenever it is accepted. *)
Definition token_of (u : Z) : Prop :=
  forall now c, jwt_decode now auth_token (jwt_secret config) = inr c -> sub c = u.

Lemma bearer_claims w c w' (u : Z) : token_of u -> from_request_parts (to_str bearer) config w = (Ok c, w') ->
  sub c = u /\ w' = mkWorld (D := Server) (data w) (S (pos w)).
Proof.
  intros T H. unfold from_request_parts in H. run_ok H. apply validate_token_Ok in H as [H ->]. split; [|done].
  unfold to_str in Hm. destruct (forallb _ _); [|done]. injection Hm as <-.
  apply strip_prefix_iff in Hm0. unfold bearer in Hm0. apply app_inv_head in Hm0 as <-. by eapply T.
Qed.

Lemma claims_tables : preserves tables_same (A := Claims) (from_request_parts (to_str bearer) config).
Proof. unfold from_request_parts, validate_token. preserve. Qed.

Lemma authorized_adds u h : token_of u -> adds u (h u) -> adds u (authorized h).
Proof.
  intros T [H K]. split.
  - intros w o w' _ E. unfold authorized in E. apply bind_inv in E as [(c & w1 & E1 & E)|(o' & E1)].
    + apply (bearer_claims _ _ _ u T) in E1 as [<- ->]. by apply H in E.
    + by apply tables_same_isolated, (claims_tables w o').
  - intros w o w' E. unfold authorized in E. apply bind_inv in E as [(c & w1 & E1 & E)|(o' & E1)].
    + apply (bearer_claims _ _ _ u T) in E1 as [<- ->]. by apply K in E.
    + exact (tables_kept _ claims_tables w o' w' E1).
Qed.

Lemma upload_handler_adds u form : token_of u -> adds u (upload_handler form).
Proof.
  intros T. apply (authorized_adds u _ T). unfold Uploads.upload_file. split.
  - apply under_last; [|intros r; preserve]. apply under_last; [apply Uploads.upload_fields_isolated|intros r; preserve].
  - preserve. apply upload_rows.
Qed.

Lemma chunk_handler_adds u form : token_of u -> adds u (chunk_handler form).
Proof.
  intros T. apply (authorized_adds u _ T). split.
  - apply under_last; [|intros r; preserve]. apply under_same, Uploads.chunk_fields_tables.
  - preserve. apply tables_kept, Uploads.chunk_fields_tables.
Qed.

Lemma complete_handler_adds u b : token_of u -> adds u (complete_handler b).
Proof.
  intros T. apply (authorized_adds u _ T). split.
  - destruct (Json.json_parse b) as [v|]; [|apply under_same; preserve].
    destruct (chunked_request v) as [req|]; [|apply under_same; preserve].
    apply under_last; [apply complete_under|intros r; preserve].
  - unfold Files.complete_chunked_upload. rows.
Qed.

Lemma network_keeps u : preserves (sends u) network.
Proof. apply preserves_io; [apply _|]. intros b a b' E. by injection E as _ <-. Qed.

Lemma post_keeps u h : adds u h -> preserves (sends u) (post h).
Proof. intros H. unfold post, exchange, answer. preserve; first [apply network_keeps | by apply served_keeps]. Qed.

Lemma remote_keeps u r : preserves (sends u) (remote_id_of r).
Proof. unfold remote_id_of. preserve. apply network_keeps. Qed.

Lemma refused_keeps u what r : preserves (sends u) (refused what r).
Proof. unfold refused. preserve. apply network_keeps. Qed.

Lemma chunks_keep u f i l : token_of u -> preserves (sends u) (send_chunks f i l).
Proof.
  intros T. induction l as [|c l IH]; cbn [send_chunks]; unfold read_exact; preserve;
    first [apply reading_sends, on_files_untouched | by apply post_keeps, chunk_handler_adds].
Qed.

Lemma upload_keeps u p h n : token_of u -> preserves (sends u) (upload_file p h n).
Proof.
  intros T. unfold upload_file, send_in_chunks, send_whole, open_file, at_place. cbv zeta. preserve;
    first [apply reading_sends; unfold probe; preserve; apply on_files_untouched | by apply post_keeps, complete_handler_adds
      | by apply post_keeps, upload_handler_adds | by apply chunks_keep | apply remote_keeps | apply refused_keeps].
Qed.

Lemma record_keeps p r : preserves db_step (record p r).
Proof. destruct r; cbn [record]; preserve. Qed.

Lemma one_keeps u item : token_of u -> preserves (both_step u) (sync_one item).
Proof.
  intros T. destruct item as [[p h] n]. unfold sync_one. preserve; [|apply on_machine_keeps, record_keeps].
  apply settle_keeps. intros w o w' E. apply sends_step. by apply (upload_keeps u _ _ _ T) in E.
Qed.

Lemma round_keeps u : token_of u -> preserves (both_step u) sync_round.
Proof.
  intros T. unfold sync_round. preserve; [apply settle_keeps, on_machine_keeps; preserve|].
  apply for_each_any; [apply _|]. intros x. by apply one_keeps.
Qed.
(** ** What an acknowledged upload is *)

(** The user has a live file or folder of this name in the root. *)
Definition taken (u : Z) (n : rstr) (s : Server) : Prop :=
  exists f, f ∈ file_entries s /\ Files.same_name u None n f = true.

(** The row an upload makes. *)
Definition row_of (u : Z) (n : rstr) (b : bytes) (r : FileEntry.row) : Prop :=
  FileEntry.user_id r = u /\ FileEntry.parent_id r = None /\ FileEntry.name r = n /\ FileEntry.is_trashed r = false
  /\ FileEntry.sha256_hash r = Some (Delta.digest_hex b) /\ FileEntry.size_bytes r = Z.of_nat (length b).

Lemma service_uploads u n m d w r w' :
  Files.upload_file base u None n m d w = (Ok r, w') ->
  ~ taken u n (data w)
  /\ exists row, row_of u n d row /\ r = Files.response row /\ file_entries (data w') = file_entries (data w) ++ [row].
Proof.
  unfold Files.upload_file, Files.insert_stored. intros H. run_ok H.
  apply verify_parent_tables in Hm. apply quota_tables in Hm0. apply Quota.store_file_result in Hm1 as [-> T]. cbn [data] in T.
  rewrite Hm0, Hm in T. injection Hm2 as <- E. assert (Fe : file_entries (data w2) = file_entries (data w)) by (rewrite T; done).
  split.
  - intros (f & Hf & (U & P & N & Tr)%Paths.same_name_iff). match goal with Sc : schema_ok _ = true |- _ => pose proof (Tree.key_file_key _ Sc) as H end.
    rewrite <- E in H.
    cbn [file_entries set_file_entries Files.insert_file] in H. rewrite Fe in H. unfold unique_key in H.
    rewrite bool_decide_eq_true in H. unfold insert_row in H. rewrite map_app in H. apply NoDup_app in H as (_ & H & _).
    apply (H (file_key f)); [by apply list_elem_of_fmap_2|]. unfold file_key. rewrite U, P, N, Tr. by left.
  - eexists. split; [|split; [reflexivity|]]; [by split_and!|]. rewrite <- E. cbn [file_entries set_file_entries Files.insert_file].
    by rewrite Fe.
Qed.
Lemma on_machine_Ok {A} (m : M Machine A) w a w' :
  on_machine m w = (Ok a, w') ->
  m (mkWorld (machine (data w)) (pos w)) = (Ok a, mkWorld (machine (data w')) (pos w')) /\ cloud (data w') = cloud (data w).
Proof. unfold on_machine. destruct (m _) as [o [d n]]. intros H. by injection H as -> <-. Qed.

Lemma at_place_Ok {A} (f : Fs.fs -> Fs.path -> option A) p a w w' :
  on_machine (at_place cwd f p) w = (Ok a, w') -> data w' = data w /\ place cwd p ≫= f (files (machine (data w))) = Some a.
Proof.
  intros H. apply on_machine_Ok in H as [H C]. unfold at_place, on_files in H. apply io_Ok in H as (_ & H & _). cbn [data] in H.
  destruct (_ ≫= _) as [x|]; [|done]. injection H as -> E. split; [|done]. destruct (data w), (data w'). cbn in *. congruence.
Qed.

Lemma network_Ok u w w' : network w = (Ok u, w') -> data w' = data w.
Proof. intros H. apply io_Ok in H as (_ & H & _). by injection H as _ <-. Qed.

Lemma error_refused e : is_success {| reply_status := fst (into_response e); reply_body := Json.json_print (error_json e) |} = false.
Proof. by destruct e. Qed.

(** An answer of success is the handler's. *)
Lemma exchange_success h w r w' :
  exchange h w = (Ok r, w') -> is_success r = true ->
  exists n n', h (mkWorld (cloud (data w)) n) = (Ok r, mkWorld (cloud (data w')) n') /\ machine (data w') = machine (data w).
Proof.
  unfold exchange. intros H Sc. run_ok H. apply network_Ok in Hm, Hm1. unfold served, on_cloud in Hm0.
  destruct (h _) as [o v] eqn:Eh. injection Hm0 as Eo Ew. subst w1. cbn [data] in Hm1.
  assert (o = Ok r /\ w' = w2) as [-> ->].
  { destruct o; try discriminate Eo; injection Eo as <-; cbn [answer] in H; run_ok H; [done|by rewrite error_refused in Sc]. }
  exists (pos w0), (pos v). rewrite Hm1. cbn [cloud machine]. rewrite Hm in *. split; [|done]. rewrite Eh. by destruct v.
Qed.

Lemma post_success h w r w' :
  post h w = (Ok r, w') -> is_success r = true ->
  exists n n', h (mkWorld (cloud (data w)) n) = (Ok r, mkWorld (cloud (data w')) n') /\ machine (data w') = machine (data w).
Proof. unfold post. destruct (header_ok _); [apply exchange_success|by intros H%throw_Ok]. Qed.

(** The request that completes the transfer lacks a field the server requires. *)
Lemma completion_refused i n k : chunked_request (completion i n k) = None.
Proof. reflexivity. Qed.

Definition reads_back (v : Value) : Prop := Json.json_parse (Json.json_print v) = Some v.

Lemma never_complete w p i k r w' :
  reads_back (completion i (file_name p) k) ->
  post (complete_handler (Json.json_print (completion i (file_name p) k))) w = (Ok r, w') -> is_success r = false.
Proof.
  intros B H. destruct (is_success r) eqn:Sc; [|done]. destruct (post_success _ _ _ _ H Sc) as (m & m' & E & _).
  unfold complete_handler, authorized in E. apply bind_Ok in E as (c & w1 & _ & E). rewrite B, completion_refused in E.
  apply ret_Ok in E as [<- _]. by vm_compute in Sc.
Qed.

Lemma refused_Ok what r w a w' : refused what r w = (Ok a, w') -> False.
Proof. unfold refused. intros H. apply bind_Ok in H as (b & w1 & _ & H). by apply throw_Ok in H. Qed.

Lemma chunks_fail p l w a w' :
  (forall i, reads_back (completion i (file_name p) (Z.of_nat (length l)))) -> send_in_chunks p l w = (Ok a, w') -> False.
Proof.
  intros B H. unfold send_in_chunks in H. apply bind_Ok in H as (i & w1 & _ & H). apply bind_Ok in H as (f & w2 & _ & H).
  apply bind_Ok in H as (t & w3 & _ & H). apply bind_Ok in H as (r & w4 & P & H). apply never_complete in P; [|apply B].
  rewrite P in H. by apply refused_Ok in H.
Qed.
(** *** One upload *)

Lemma probe_data f p (w : World Machine) o w' : probe cwd f p w = (o, w') -> data w' = data w.
Proof.
  unfold probe, unwrap_or, at_place, on_files, io. intros H. destruct (io_fault _); [by injection H as _ <-|].
  destruct (_ ≫= _); by injection H as _ <-.
Qed.

(** The agent's files that are sent in chunks. *)
Definition chunked (m : Machine) (p : rstr) (size : Z) : Prop :=
  exists b, Watcher.content_of cwd (files m) p = Some b /\ (1 < length (Delta.split_into_chunks b))%nat /\ MANY < size.

(** What the client and the server's libraries do with the forms and texts of
    the file: a form arrives as it was written, and the JSON reads back. *)
Record carried (p : rstr) : Prop := {
  form_arrives : forall b, transmit (file_form p b) = map inr (file_form p b);
  completion_reads : forall i k, reads_back (completion i (file_name p) k);
  answer_reads : forall r, reads_back (upload_json show_time r)
}.

Lemma upload_file_Ok p h n w rid w' :
  upload_file p h n w = (Ok rid, w') -> carried p ->
  exists b, Watcher.content_of cwd (files (machine (data w))) p = Some b
    /\ ~ ((1 < length (Delta.split_into_chunks b))%nat /\ MANY < n)
    /\ exists r w1 w2, data w1 = data w /\ post (upload_handler (file_form p b)) w1 = (Ok r, w2) /\ is_success r = true
         /\ remote_id_of r w2 = (Ok rid, w').
Proof.
  unfold upload_file. intros H C. apply bind_Ok in H as (th & w1 & Ht & H). apply on_machine_Ok in Ht as [Ht Hc].
  assert (D1 : data w1 = data w).
  { assert (Dm := probe_data _ _ _ _ _ Ht). cbn [data] in Dm. destruct (data w), (data w1). cbn in *. congruence. }
  destruct th; [cbn [negb] in H|by apply throw_Ok in H].
  apply bind_Ok in H as (b & w2 & Hb & H). apply map_err_Ok, at_place_Ok in Hb as [D2 Hb]. rewrite D1 in *. exists b. split; [exact Hb|].
  cbv zeta in H. destruct ((1 <? _)%nat && _) eqn:E.
  { exfalso. eapply chunks_fail; [|exact H]. intros i. apply C. }
  split; [intros [? ?]; apply andb_false_iff in E as [E|E]; boolify; lia|].
  unfold send_whole in H. apply bind_Ok in H as (b' & w3 & Hb' & H). apply at_place_Ok in Hb' as [D3 Hb']. rewrite D2 in *.
  unfold Watcher.content_of in *. assert (b' = b) as -> by congruence.
  apply bind_Ok in H as (r & w4 & Pr & H). exists r, w3, w4. split; [congruence|]. split; [done|].
  destruct (is_success r); [done|]. by apply refused_Ok in H.
Qed.

(** The handler's part of it. *)
Lemma handled u p b r w w' :
  token_of u -> transmit (file_form p b) = map inr (file_form p b) ->
  upload_handler (file_form p b) w = (Ok r, w') ->
  ~ taken u (file_name p) (data w)
  /\ exists row, row_of u (file_name p) b row /\ file_entries (data w') = file_entries (data w) ++ [row]
       /\ reply_body r = Json.json_print (upload_json show_time (Files.response row)).
Proof.
  intros T A H. unfold upload_handler, authorized in H. apply bind_Ok in H as (c & w1 & Hc & H).
  apply (bearer_claims _ _ _ u T) in Hc as [<- ->]. apply bind_Ok in H as (fr & w2 & Hf & H). apply ret_Ok in H as [<- ->].
  rewrite A in Hf. unfold Uploads.upload_file in Hf. apply bind_Ok in Hf as (o & w3 & Hf & Ho). apply ok_or_Ok in Ho as [-> ->].
  cbn [map file_form Uploads.upload_fields] in Hf. change (Uploads.named "parent_id" _) with false in Hf.
  change (Uploads.named "file" _) with true in Hf. cbv iota in Hf.
  apply bind_Ok in Hf as (d & w4 & Hd & Hf). cbn [Uploads.bytes_of file_part Sharing.content] in Hd. apply ret_Ok in Hd as [<- <-].
  apply bind_Ok in Hf as (fr' & w5 & Hu & Hf). apply ret_Ok in Hf as [[= ->] ->].
  apply service_uploads in Hu as [Nt (row & Ro & -> & Fe)]. split; [exact Nt|]. by exists row.
Qed.

(** what never syncs.  Whatever the network and the server do, a file that
    is sent in chunks, which are those of more than one chunk with a size above
    one mebibyte, is never uploaded: the request that completes it lacks a
    required field.  Nor is a file whose name the user's root already has, as
    that of every file uploaded before has: a change to it never reaches the
    server. *)
Theorem never_uploaded u p h n w r w' :
  token_of u -> carried p -> chunked (machine (data w)) p n \/ taken u (file_name p) (cloud (data w)) ->
  upload_file p h n w <> (Ok r, w').
Proof.
  intros T C D H. destruct (upload_file_Ok _ _ _ _ _ _ H C) as (b & Hb & Nc & rp & w1 & w2 & D1 & P & Sc & _).
  destruct D as [(b' & Hb' & L & M1)|D].
  - assert (b' = b) as -> by congruence. by apply Nc.
  - destruct (post_success _ _ _ _ P Sc) as (k & k' & E & _). apply (handled u) in E as [Nt _]; [|done|by apply C].
    apply Nt. cbn [data]. by rewrite D1.
Qed.

(** an upload that is acknowledged.  Whatever fails on the way, when the
    upload of a file returns an id, the file's content is recorded at the server
    in one new row, under that id, with its digest and its size, in the root of
    the token's user under the file's name. *)
Lemma acknowledged_held u p h n w rid w' :
  token_of u -> carried p -> upload_file p h n w = (Ok rid, w') ->
  exists b row, Watcher.content_of cwd (files (machine (data w))) p = Some b /\ row_of u (file_name p) b row
    /\ rid = uuid_to_string (FileEntry.id row)
    /\ file_entries (cloud (data w')) = file_entries (cloud (data w)) ++ [row] /\ machine (data w') = machine (data w).
Proof.
  intros T C H. destruct (upload_file_Ok _ _ _ _ _ _ H C) as (b & Hb & _ & rp & w1 & w2 & D1 & P & Sc & Ri).
  destruct (post_success _ _ _ _ P Sc) as (k & k' & E & Mc). apply (handled u) in E as [_ (row & Ro & Fe & Bd)]; [|done|by apply C].
  unfold remote_id_of in Ri. apply bind_Ok in Ri as ([] & w3 & Hn & Ri). apply network_Ok in Hn.
  apply bind_Ok in Ri as (v & w4 & Hv & Ri). apply ok_or_Ok in Hv as [Hv ->]. apply ret_Ok in Ri as [<- <-].
  rewrite Bd in Hv. rewrite (answer_reads _ C (Files.response row)) in Hv. injection Hv as <-.
  exists b, row. rewrite Hn. cbn [data] in Fe. rewrite D1 in *. split; [done|]. split; [done|]. split; [reflexivity|]. by split.
Qed.
(** *** One round *)

Lemma discard_rows (g : Z -> Machine -> Machine) w :
  discard (statement (fun now m => Rows tt (g now m))) w
  = (Ok tt, mkWorld (match db_fault (pos w) with Some _ => data w | None => g (clock_at (pos w)) (data w) end) (S (pos w))).
Proof. unfold discard, unwrap_or, mbind, M_bind, statement. by destruct (db_fault _). Qed.

Lemma record_cache p r w o w' :
  record p r w = (o, w') ->
  files (data w') = files (data w)
  /\ (file_cache (data w') = file_cache (data w)
      \/ exists now i, r = inr i /\ file_cache (data w') = update (at_path p) (synced now i) (file_cache (data w))).
Proof.
  assert (L : forall p a st e (w : World Machine) o w', discard (log_sync p a st e) w = (o, w') ->
    files (data w') = files (data w) /\ file_cache (data w') = file_cache (data w)).
  { intros p0 a st e v o1 v' H. unfold log_sync in H. rewrite discard_rows in H.
    injection H as _ <-. cbn [data]. by destruct (db_fault _). }
  destruct r as [e|i]; cbn [record]; intros H.
  - apply L in H as [-> ->]. split; [done|by left].
  - unfold mbind, M_bind, mark_synced in H. rewrite discard_rows in H.
    destruct (db_fault _); apply L in H as [-> ->]; cbn [data files file_cache set_cache]; (split; [done|]); [by left|right].
    by eexists _, _.
Qed.

(** What a row of the cache says after a round over the rows [t]. *)
Definition backed (u : Z) (f : Fs.fs) (t : list CacheRow.row) (s : Server) (r' : CacheRow.row) : Prop :=
  exists r now b row, r ∈ t /\ is_pending r = true /\ Watcher.content_of cwd f (CacheRow.path r) = Some b
    /\ row ∈ file_entries s /\ row_of u (file_name (CacheRow.path r)) b row
    /\ r' = synced now (uuid_to_string (FileEntry.id row)) r.

Definition explained (u : Z) (f : Fs.fs) (t : list CacheRow.row) (b : Both) : Prop :=
  files (machine b) = f
  /\ forall r', r' ∈ file_cache (machine b) -> r' ∈ t \/ backed u f t (cloud b) r'.

Lemma explained_sends u f t b b' : sends u b b' -> explained u f t b -> explained u f t b'.
Proof.
  intros (E & _ & K) [F X]. split; [by rewrite E|]. intros r' Hr. rewrite E in Hr. destruct (X r' Hr) as [|(r & now & c & row & ? & ? & ? & ? & ?)];
    [by left|]. right. exists r, now, c, row. split_and!; auto; naive_solver.
Qed.

(** The row marked is the one that waited, whatever has been written of it since. *)
Lemma explained_mark u f t p now i b c row h n (B : Both) (m : Machine) :
  cache_ok t -> (p, h, n) ∈ pending_rows t -> explained u f t B ->
  Watcher.content_of cwd f p = Some b -> row_of u (file_name p) b row -> row ∈ file_entries c -> rows_kept (cloud B) c ->
  i = uuid_to_string (FileEntry.id row) -> files m = f -> file_cache m = update (at_path p) (synced now i) (file_cache (machine B)) ->
  explained u f t (mkBoth m c).
Proof.
  intros [Un _] (r0 & H0 & P0 & E0 & _)%pending_in [F X] Hb Ro Hr K -> Fm Em. split; [done|]. cbn [machine cloud]. intros r' H'.
  rewrite Em in H'. apply elem_update in H' as (r1 & H1 & ->). destruct (X r1 H1) as [Ht|(r & now' & b' & row' & A1 & A2 & A3 & A4 & A5 & ->)].
  - destruct (at_path p r1) eqn:A; [|by left]. apply at_path_iff in A. right.
    assert (r1 = r0) as -> by (eapply (unique_key_inj CacheRow.path); [exact Un|done..|congruence]).
    exists r0, now, b, row. rewrite E0. by split_and!.
  - right. destruct (at_path p (synced _ _ r)) eqn:A.
    + apply at_path_iff in A. cbn in A. exists r, now, b, row. rewrite A. by split_and!.
    + exists r, now', b', row'. split_and!; auto.
Qed.

Lemma one_explained u f t p h n w o w' :
  token_of u -> carried p -> cache_ok t -> (p, h, n) ∈ pending_rows t ->
  explained u f t (data w) -> sync_one (p, h, n) w = (o, w') -> explained u f t (data w').
Proof.
  intros T C Ot Hp X H. unfold sync_one, mbind, M_bind, settle in H. destruct (upload_file p h n w) as [ou w1] eqn:Eu.
  assert (K := upload_keeps u p h n T w ou w1 Eu). assert (X1 := explained_sends _ _ _ _ _ K X).
  assert (Rec : forall r, on_machine (record p r) w1 = (o, w') ->
    explained u f t (data w') \/ exists now i, r = inr i /\ files (machine (data w')) = f /\ cloud (data w') = cloud (data w1)
      /\ file_cache (machine (data w')) = update (at_path p) (synced now i) (file_cache (machine (data w1)))).
  { intros r E. unfold on_machine in E. destruct (record p r _) as [o2 v] eqn:Er. injection E as _ <-.
    apply record_cache in Er as [Ff Er]. cbn [data] in *. destruct X1 as [F1 X1].
    destruct Er as [Er|(now & i & -> & Er)].
    - left. split; cbn [machine cloud]; [congruence|]. by rewrite Er.
    - right. exists now, i. cbn [machine cloud]. split_and!; congruence. }
  destruct ou as [rid|e| |].
  - apply Rec in H as [H|(now & i & [= <-] & Ff & Cl & Ec)]; [done|].
    apply (acknowledged_held u) in Eu as (b & row & Hb & Ro & -> & Fe & Mc); [|done..].
    rewrite (proj1 X) in Hb. destruct (data w') as [m' c']. cbn [machine cloud] in *. subst c'.
    eapply (explained_mark u f t p now _ b (cloud (data w1)) row h n (data w1)); try done.
    rewrite Fe. apply elem_of_app. right. by left.
  - apply Rec in H as [H|(now & i & D & _)]; done.
  - by injection H as _ <-.
  - by injection H as _ <-.
Qed.

Lemma each_explained u f t items w o w' :
  token_of u -> (forall p h n, (p, h, n) ∈ pending_rows t -> carried p) -> cache_ok t -> (forall x, x ∈ items -> x ∈ pending_rows t) ->
  explained u f t (data w) -> Watcher.for_each sync_one items w = (o, w') -> explained u f t (data w').
Proof.
  intros T C Ot. revert w. induction items as [|[[p h] n] l IH]; intros w Sub X H; cbn [Watcher.for_each] in H.
  - by injection H as _ <-.
  - unfold mbind, M_bind in H. destruct (sync_one (p, h, n) w) as [o2 w2] eqn:E2. assert (Hin := Sub _ ltac:(by left)).
    apply (one_explained u f t) in E2; [|done|by eapply C|done..].
    destruct o2 as [[]| | |]; try (injection H as _ <-; exact E2). eapply IH; [|exact E2|exact H]. intros x Hx. apply Sub. by right.
Qed.

(** C13: a round of the agent.  Whatever fails on the way, a round leaves the
    agent's disk as it is, keeps its table in order, and touches nothing of the
    other users at the server; and a row of the table is as it was, or it waited
    and says now that it is synced: then the server has a row under the id it
    names, of the token's user, with the name and the digest of the file. *)
Theorem sync_round_sound u w o w' :
  token_of u -> (forall p h n, (p, h, n) ∈ pending_rows (file_cache (machine (data w))) -> carried p) ->
  cache_ok (file_cache (machine (data w))) -> sync_round w = (o, w') ->
  files (machine (data w')) = files (machine (data w)) /\ cache_ok (file_cache (machine (data w')))
  /\ isolated u (cloud (data w)) (cloud (data w'))
  /\ forall r', r' ∈ file_cache (machine (data w')) ->
       r' ∈ file_cache (machine (data w))
       \/ backed u (files (machine (data w))) (file_cache (machine (data w))) (cloud (data w')) r'.
Proof.
  intros T C Ot H. destruct (round_keeps u T w o w' H) as ((F & _ & K) & I & _). split; [done|]. split; [by apply K|]. split; [done|].
  assert (G : explained u (files (machine (data w))) (file_cache (machine (data w))) (data w')); [|apply G].
  assert (X0 : explained u (files (machine (data w))) (file_cache (machine (data w))) (data w)) by (split; [done|by left]).
  unfold sync_round, mbind at 1, M_bind at 1, settle, on_machine in H.
  destruct (get_pending _) as [o1 v] eqn:Eg. assert (Gd : data v = machine (data w) /\ forall l, o1 = Ok l -> l = pending_rows (file_cache (machine (data w)))).
  { unfold get_pending, query, statement in Eg. destruct (db_fault _); injection Eg as <- <-; (split; [done|]); [done|by intros l [= <-]]. }
  destruct Gd as [Gd Gl]. assert (X1 : explained u (files (machine (data w))) (file_cache (machine (data w))) (mkBoth (data v) (cloud (data w)))) by (rewrite Gd; exact X0).
  destruct o1 as [l|e| |]; try (injection H as _ <-; exact X1). rewrite (Gl l eq_refl) in H.
  by eapply each_explained, H.
Qed.
(** ** Rows whose file is gone *)

(** The row names no file, as after a renaming that the watcher saw. *)
Definition gone (f : Fs.fs) (item : rstr * rstr * Z) : Prop := place cwd (fst (fst item)) ≫= Fs.canonicalize f = None.

Lemma gone_fails item w : gone (files (machine (data w))) item ->
  exists w', sync_one item w = (Ok tt, w') /\ cloud (data w') = cloud (data w)
    /\ files (machine (data w')) = files (machine (data w)) /\ file_cache (machine (data w')) = file_cache (machine (data w)).
Proof.
  destruct item as [[p h] n]. unfold gone. cbn [fst]. intros G. unfold sync_one, settle, mbind, M_bind, upload_file.
  assert (P : on_machine (probe cwd Fs.path_exists p) w = (Ok false, mkWorld (data w) (S (pos w)))).
  { unfold on_machine, probe, unwrap_or, at_place, on_files, io, Fs.path_exists. cbn [data pos].
    destruct w as [[mc cl] k]. cbn [data pos machine cloud] in *. destruct (io_fault _); [done|].
    destruct (place cwd p) as [q|]; cbn [mbind option_bind] in *; [by rewrite G|done]. } unfold mbind at 1, M_bind at 1. rewrite P. cbn [negb throw].
  unfold on_machine. destruct (record p _ _) as [o2 v] eqn:Er. cbn [record] in Er. unfold log_sync in Er. rewrite discard_rows in Er.
  injection Er as <- <-. eexists. split; [reflexivity|]. cbn [data pos machine cloud]. by destruct (db_fault _).
Qed.

(** rows that starve the others.  When the rows a round takes, the first
    hundred that wait, all name files that are gone, which is what renaming them
    leaves, no number of rounds changes the table or the server, whatever the
    environment does: what waits behind them is never uploaded. *)
Theorem stale_rows_starve k w :
  Forall (gone (files (machine (data w)))) (pending_rows (file_cache (machine (data w)))) ->
  exists w', sync_loop k w = (Ok tt, w') /\ cloud (data w') = cloud (data w)
    /\ file_cache (machine (data w')) = file_cache (machine (data w)).
Proof.
  revert w. induction k as [|k IH]; intros w G; cbn [sync_loop]; [by exists w|].
  assert (R : exists w1, sync_round w = (Ok tt, w1) /\ cloud (data w1) = cloud (data w)
    /\ files (machine (data w1)) = files (machine (data w)) /\ file_cache (machine (data w1)) = file_cache (machine (data w))).
  { assert (E : forall l v, Forall (gone (files (machine (data v)))) l -> exists w1, Watcher.for_each sync_one l v = (Ok tt, w1)
      /\ cloud (data w1) = cloud (data v) /\ files (machine (data w1)) = files (machine (data v))
      /\ file_cache (machine (data w1)) = file_cache (machine (data v))).
    { induction l as [|x l IHl]; intros v F; [by exists v|]. apply Forall_cons in F as [Fx F].
      destruct (gone_fails x v Fx) as (v1 & E1 & C1 & F1 & K1). rewrite <- F1 in F. destruct (IHl v1 F) as (v2 & E2 & C2 & F2 & K2).
      exists v2. cbn [Watcher.for_each]. unfold mbind, M_bind. rewrite E1, E2. split_and!; congruence. }
    unfold sync_round, settle, mbind at 1, M_bind at 1, on_machine, get_pending, query, statement. cbn [data pos].
    destruct (db_fault _); cbn [fst snd data pos]; [by eexists|]. apply (E _ (mkWorld (mkBoth (machine (data w)) (cloud (data w))) (S (pos w)))).
    exact G. }
  destruct R as (w1 & E1 & C1 & F1 & K1). unfold mbind, M_bind. rewrite E1. rewrite <- F1, <- K1 in G.
  destruct (IH w1 G) as (w2 & E2 & C2 & K2). exists w2. split_and!; congruence.
Qed.

(** ** A file that arrives *)

(** The token is accepted, as that of [u], at the next interactions. *)
Definition accepted (u : Z) (k : nat) : Prop :=
  header_ok bearer = true /\ to_str bearer = Some bearer
  /\ forall n, (k <= n < k + 5)%nat -> exists c, jwt_decode (timestamp (clock_at n)) auth_token (jwt_secret config) = inr c /\ sub c = u.

(** What the client makes of the service's result. *)
Definition outcome_of (r : outcome Files.FileEntryResponse) : outcome rstr :=
  match r with
  | Ok e => Ok (uuid_to_string (Files.id e))
  | Err e => Err (Internal (lit "Upload" ++ lit " failed: " ++ status_text (fst (into_response e)) ++ lit " - "
                           ++ Json.json_print (error_json e)))
  | Panic => Err (Internal (lit "connection closed before message completed"))
  | Diverge => Diverge
  end.

Lemma network_run w : reliable O -> network w = (Ok tt, mkWorld (data w) (S (pos w))).
Proof. intros R. unfold network, io. by rewrite (proj2 (R _)). Qed.

Lemma machine_place_run {A} (f : Fs.fs -> Fs.path -> option A) p a w :
  reliable O -> place cwd p ≫= f (files (machine (data w))) = Some a ->
  on_machine (at_place cwd f p) w = (Ok a, mkWorld (data w) (S (pos w))).
Proof.
  intros R H. unfold on_machine. rewrite (Watcher.at_place_run cwd R f p a); [|exact H]. cbn [data pos]. by destruct (data w).
Qed.

Lemma post_run h w o v :
  reliable O -> header_ok bearer = true -> h (mkWorld (cloud (data w)) (S (pos w))) = (o, v) -> o <> Diverge ->
  post h w = answer o (mkWorld (mkBoth (machine (data w)) (data v)) (S (pos v))).
Proof.
  intros R Hb H N. unfold post, exchange. rewrite Hb. cbn [negb]. eapply bind_run; [by apply network_run|].
  eapply (bind_run _ _ _ o (mkWorld (mkBoth (machine (data w)) (data v)) (pos v))).
  { unfold served, on_cloud. cbn [data pos]. rewrite H. by destruct o. }
  eapply bind_run; [by apply network_run|]. done.
Qed.

Lemma claims_run u k (w : World Server) : accepted u k -> (k <= pos w < k + 5)%nat ->
  exists c, from_request_parts (to_str bearer) config w = (Ok c, mkWorld (data w) (S (pos w))) /\ sub c = u.
Proof.
  intros (_ & Ts & Tk) Hk. destruct (Tk (pos w) Hk) as (c & E & Su). exists c. split; [|done].
  unfold from_request_parts. rewrite Ts. assert (B : strip_prefix (lit "Bearer ") bearer = Some auth_token) by by apply strip_prefix_iff.
  eapply bind_run; [reflexivity|]. rewrite B. eapply bind_run; [reflexivity|].
  unfold validate_token, utc_now, interact, mbind, M_bind. by rewrite E.
Qed.

Lemma handler_run u k p b w :
  accepted u k -> (k <= pos w < k + 5)%nat -> transmit (file_form p b) = map inr (file_form p b) ->
  upload_handler (file_form p b) w =
  (r ← Files.upload_file base u None (file_name p) (lit "application/octet-stream") b;
   mret {| reply_status := 201; reply_body := Json.json_print (upload_json show_time r) |}) (mkWorld (data w) (S (pos w))).
Proof.
  intros A Hk T. destruct (claims_run u k w A Hk) as (c & E & Su). unfold upload_handler, authorized, mbind at 1, M_bind at 1. rewrite E, Su, T.
  unfold Uploads.upload_file. cbn [map file_form Uploads.upload_fields]. change (Uploads.named "parent_id" _) with false.
  change (Uploads.named "file" _) with true. cbv iota. unfold Uploads.bytes_of. cbn [file_part Sharing.content].
  cbn [Sharing.file_name Sharing.field_type file_part OCTETS default Datatypes.id]. unfold mbind, M_bind, mret, M_ret, OCTETS. cbn [default Datatypes.id].
  by destruct (Files.upload_file _ _ _ _ _ _ _) as [[] v].
Qed.

(** C14: a file that is sent whole arrives.  With the environment answering and
    the token accepted, the upload of a file that is not sent in chunks is the
    service's upload of its content into the root, under its name: it returns,
    the server is left as the service leaves it, and the result is the id of the
    row, or the service's refusal by its status and its body. *)
Theorem whole_file_arrives u p h n b w :
  reliable O -> accepted u (pos w) -> carried p -> Watcher.content_of cwd (files (machine (data w))) p = Some b ->
  ~ chunked (machine (data w)) p n ->
  exists k so v w', Files.upload_file base u None (file_name p) (lit "application/octet-stream") b (mkWorld (cloud (data w)) k) = (so, v)
    /\ upload_file p h n w = (outcome_of so, w') /\ data w' = mkBoth (machine (data w)) (data v).
Proof.
  intros R A C Hb Nc. unfold Watcher.content_of in Hb.
  destruct (Files.upload_file base u None (file_name p) (lit "application/octet-stream") b
    (mkWorld (cloud (data w)) (S (S (S (S (S (pos w)))))))) as [so v] eqn:Es.
  exists (S (S (S (S (S (pos w)))))), so, v. unfold upload_file.
  assert (P : on_machine (probe cwd Fs.path_exists p) w = (Ok true, mkWorld (data w) (S (pos w)))).
  { destruct (place cwd p) as [q|] eqn:Pl; [|done]. unfold on_machine. rewrite (Watcher.asked_run cwd R _ p q) by done. cbn [data pos].
    assert (Fs.path_exists (files (machine (data w))) q = true) as -> by (unfold Fs.path_exists; cbn in Hb; unfold Fs.read in Hb; by destruct (Fs.canonicalize _ q)).
    by destruct (data w). }
  unfold mbind at 1, M_bind at 1. rewrite P. cbn [negb]. unfold mbind at 1, M_bind at 1, map_err at 1.
  rewrite (machine_place_run Fs.read p b) by done. cbv zeta. cbn [data pos].
  destruct ((1 <? length (Delta.split_into_chunks b))%nat && (MANY <? n)) eqn:Eb.
  { destruct Nc. apply andb_true_iff in Eb as [E1 E2]. exists b. split; [done|]. boolify. lia. }
  unfold send_whole, mbind at 1, M_bind at 1. rewrite (machine_place_run Fs.read p b) by done. cbn [data pos].
  pose proof (handler_run u (pos w) p b (mkWorld (cloud (data w)) (S (S (S (S (pos w)))))) A ltac:(cbn; lia) (form_arrives _ C b)) as Eh.
  cbn [data pos] in Eh. unfold mbind, M_bind in Eh. rewrite Es in Eh.
  destruct so as [r|e| |]; cbn [outcome_of]; unfold mbind at 1, M_bind at 1.
  - rewrite (post_run _ (mkWorld (data w) (S (S (S (pos w))))) _ _ R (proj1 A) Eh) by done. cbn [answer mret M_ret data pos].
    change (is_success _) with true. cbn [negb]. unfold remote_id_of, mbind at 1, M_bind at 1. rewrite network_run by done.
    cbn [data pos reply_body]. rewrite (answer_reads _ C r). cbn [ok_or]. eexists. split; [exact Es|]. split; [reflexivity|done].
  - rewrite (post_run _ (mkWorld (data w) (S (S (S (pos w))))) _ _ R (proj1 A) Eh) by done. cbn [answer mret M_ret data pos].
    rewrite error_refused. cbn [negb]. unfold refused, mbind at 1, M_bind at 1, unwrap_or, mbind at 1, M_bind at 1.
    rewrite network_run by done. cbn [data pos mret M_ret reply_body reply_status throw]. eexists. split; [exact Es|]. split; [reflexivity|done].
  - rewrite (post_run _ (mkWorld (data w) (S (S (S (pos w))))) _ _ R (proj1 A) Eh) by done. eexists. split; [exact Es|]. split; [reflexivity|done].
  - unfold post, exchange. rewrite (proj1 A). cbn [negb]. unfold mbind at 1, M_bind at 1. rewrite network_run by done.
    unfold mbind at 1, M_bind at 1, served, on_cloud. cbn [data pos] in *. rewrite Eh. eexists. split; [exact Es|]. split; [reflexivity|done].
Qed.
End AgentSync.

(** ** Concrete runs *)

(** A token that is accepted for Bob until the year 2500. *)
Definition demo_claims : Claims := {| sub := 2; email := lit "bob@example.com"; iat := 0; exp := 17000000000; jti := 0 |}.

Definition demo_jwt : JsonWebToken.
Proof.
  refine {| jwt_encode _ _ := inl [];
            jwt_decode now t _ := if bool_decide (t = lit "agent") && (now <=? exp demo_claims + LEEWAY) then inr demo_claims else inl [];
            jwt_expired := [] |}.
  - done.
  - intros c key t now. destruct (bool_decide _); [|done]. cbn [andb]. destruct (now <=? _) eqn:E; [|done]. intros [= <-]. lia.
Defined.

Definition demo_wire : Wire := {| transmit := map inr |}.

Definition demo_file (b : bytes) : Fs.fs := list_to_map [([lit "home"], Fs.Dir); ([lit "home"; lit "a"], Fs.File b)].

Definition demo_cloud : Server := set_disk Storage.demo_disk (set_users [Quota.small_user 1000] empty_server).

(** The file has been seen and waits. *)
Definition demo_row (b : bytes) : CacheRow.row :=
  {| CacheRow.path := lit "/home/a"; CacheRow.sha256_hash := Delta.digest_hex (S := toy_sha256) (H := plain_hex) b;
     CacheRow.size_bytes := Z.of_nat (length b); CacheRow.modified_at := lit "100"; CacheRow.synced_at := None;
     CacheRow.status := PENDING; CacheRow.remote_id := None |}.

Definition demo_start : World Both :=
  mkWorld (mkBoth (mkMachine (demo_file [1; 2]) (fun _ => Some 100) [demo_row [1; 2]] [] 0) demo_cloud) 0.

Definition demo_round (fault : nat) (w : World Both) :=
  sync_round (O := Config.disk_fails fault) (JW := demo_jwt) (S2 := toy_sha256) (HX := plain_hex) (UT := plain_uuid) (MG := octet_stream)
    (HV := any_header) (MX := Uploads.plain_text) (JT := Codec.exact_json) (WR := demo_wire)
    [] (lit "agent") toy_config Storage.demo_base show_int show_int [] w.

Definition demo_upload (w : World Both) :=
  upload_file (O := toy_env []) (JW := demo_jwt) (S2 := toy_sha256) (HX := plain_hex) (UT := plain_uuid) (MG := octet_stream)
    (HV := any_header) (MX := Uploads.plain_text) (JT := Codec.exact_json) (WR := demo_wire)
    [] (lit "agent") toy_config Storage.demo_base show_int show_int [] (lit "/home/a") [] 2 w.

Definition states (w : World Both) : list rstr * list rstr :=
  (map CacheRow.status (file_cache (machine (data w))), map FileEntry.name (file_entries (cloud (data w)))).

Example demo_round_syncs : states (snd (demo_round 1000 demo_start)) = ([SYNCED], [lit "a"]).
Proof. vm_compute. reflexivity. Qed.

Definition touch_file (b : bytes) (w : World Both) : World Both :=
  mkWorld (mkBoth (set_files (demo_file b) (machine (data w))) (cloud (data w))) (pos w).

(** The watcher sees the file. *)
Definition demo_index (w : World Both) : World Both :=
  snd (on_machine (Watcher.index_file (O := toy_env []) (S2 := toy_sha256) (HX := plain_hex) [] (lit "/home/a")) w).

(** changes that are lost.  When the answer to an upload is lost the server
    has the file and the agent's row waits on, and every round after it is
    refused.  And when a file changes and is indexed between its upload and the
    writing of its result, its row says it is synced, with the digest of the new
    content, while the server has the old. *)
Theorem changes_lost :
  (let w1 := snd (demo_round 16 demo_start) in
   states w1 = ([PENDING], [lit "a"])
   /\ states (snd (demo_round 1000 (snd (demo_round 1000 w1)))) = ([PENDING], [lit "a"]))
  /\ (let r := settle demo_upload demo_start in
      let w2 := demo_index (touch_file [3] (snd r)) in
      match fst r with
      | Ok answer =>
          let w3 := snd (on_machine (record (O := toy_env []) (lit "/home/a") answer) w2) in
          states w3 = ([SYNCED], [lit "a"])
          /\ map CacheRow.sha256_hash (file_cache (machine (data w3))) = [Delta.digest_hex (S := toy_sha256) (H := plain_hex) [3]]
          /\ map FileEntry.sha256_hash (file_entries (cloud (data w3))) = [Some (Delta.digest_hex (S := toy_sha256) (H := plain_hex) [1; 2])]
          /\ pending_rows (file_cache (machine (data w3))) = []
      | _ => False
      end).
Proof. vm_compute. repeat split; reflexivity. Qed.

Lemma demo_token : token_of (JW := demo_jwt) (lit "agent") toy_config 2.
Proof. intros now c H. cbn in H. destruct (_ && _); [|done]. by injection H as <-. Qed.

Lemma demo_carried p : carried (UT := plain_uuid) (JT := Codec.exact_json) (WR := demo_wire) show_int p.
Proof. split; [done|intros i k; apply Codec.exact_reads_back|intros r; apply Codec.exact_reads_back]. Qed.

Lemma demo_cache_ok : cache_ok [demo_row [1; 2]].
Proof. split; vm_compute; reflexivity. Qed.

(** Bob's file is synced, changed and seen again. *)
Definition demo_changed : World Both := demo_index (touch_file [3] (snd (demo_round 1000 demo_start))).

Lemma never_uploaded_witness : match fst (demo_upload demo_changed) with Ok _ => False | _ => True end.
Proof.
  destruct (demo_upload demo_changed) as [[r| | |] w'] eqn:E; cbn [fst]; try exact I. revert E.
  apply (never_uploaded (O := toy_env []) (JW := demo_jwt) (S2 := toy_sha256) (HX := plain_hex) (UT := plain_uuid) (MG := octet_stream)
    (HV := any_header) (MX := Uploads.plain_text) (JT := Codec.exact_json) (WR := demo_wire)
    [] (lit "agent") toy_config Storage.demo_base show_int show_int [] 2 (lit "/home/a") [] 2 demo_changed r w' demo_token (demo_carried _)).
  right. apply (proj1 (exists_row_iff _ _)). vm_compute. reflexivity.
Defined.

Lemma sync_round_sound_witness : exists o w', demo_round 7 demo_start = (o, w')
  /\ files (machine (data w')) = demo_file [1; 2].
Proof.
  destruct (demo_round 7 demo_start) as [o w'] eqn:E. exists o, w'. split; [reflexivity|].
  exact (proj1 (sync_round_sound (O := Config.disk_fails 7) (JW := demo_jwt) (S2 := toy_sha256) (HX := plain_hex) (UT := plain_uuid) (MG := octet_stream)
    (HV := any_header) (MX := Uploads.plain_text) (JT := Codec.exact_json) (WR := demo_wire)
    [] (lit "agent") toy_config Storage.demo_base show_int show_int [] 2 demo_start o w' demo_token (fun p _ _ _ => demo_carried p)
    demo_cache_ok E)).
Defined.

(** After the file was renamed. *)
Definition demo_renamed : World Both :=
  mkWorld (mkBoth (set_files (list_to_map [([lit "home"], Fs.Dir); ([lit "home"; lit "b"], Fs.File [1; 2])]) (machine (data demo_start))) demo_cloud) 0.

Lemma stale_rows_starve_witness : exists w',
  sync_loop (O := toy_env []) (JW := demo_jwt) (S2 := toy_sha256) (HX := plain_hex) (UT := plain_uuid) (MG := octet_stream)
    (HV := any_header) (MX := Uploads.plain_text) (JT := Codec.exact_json) (WR := demo_wire)
    [] (lit "agent") toy_config Storage.demo_base show_int show_int [] 9 demo_renamed = (Ok tt, w')
  /\ cloud (data w') = demo_cloud.
Proof.
  destruct (stale_rows_starve (O := toy_env []) (JW := demo_jwt) (S2 := toy_sha256) (HX := plain_hex) (UT := plain_uuid) (MG := octet_stream)
    (HV := any_header) (MX := Uploads.plain_text) (JT := Codec.exact_json) (WR := demo_wire)
    [] (lit "agent") toy_config Storage.demo_base show_int show_int [] 9 demo_renamed) as (w' & E & C & _).
  { repeat constructor. }
  exists w'. split; [exact E|exact C].
Defined.

Lemma whole_file_arrives_witness : exists so v w',
  demo_upload demo_start = (outcome_of (UT := plain_uuid) (JT := Codec.exact_json) show_int so, w') /\ data w' = mkBoth (machine (data demo_start)) (data v)
  /\ Forall (fun f => FileEntry.user_id f = 2) (file_entries (cloud (data w'))).
Proof.
  assert (F : forallb (fun f => FileEntry.user_id f =? 2) (file_entries (cloud (data (snd (demo_upload demo_start))))) = true) by (vm_compute; reflexivity).
  destruct (whole_file_arrives (O := toy_env []) (JW := demo_jwt) (S2 := toy_sha256) (HX := plain_hex) (UT := plain_uuid) (MG := octet_stream)
    (HV := any_header) (MX := Uploads.plain_text) (JT := Codec.exact_json) (WR := demo_wire)
    [] (lit "agent") toy_config Storage.demo_base show_int show_int [] 2 (lit "/home/a") [] 2 [1; 2] demo_start toy_env_reliable)
    as (k & so & v & w' & _ & E & D).
  - split; [vm_compute; reflexivity|]. split; [vm_compute; reflexivity|]. intros n [_ Hn]. cbn in Hn.
    do 5 (destruct n as [|n]; [exists demo_claims; split; [vm_compute; reflexivity|reflexivity]|]). lia.
  - apply demo_carried.
  - vm_compute. reflexivity.
  - intros (b & Hb & L & _). assert (b = [1; 2]) as -> by (vm_compute in Hb; congruence). vm_compute in L. lia.
  - exists so, v, w'. change (demo_upload demo_start = (outcome_of (UT := plain_uuid) (JT := Codec.exact_json) show_int so, w')) in E.
    split; [exact E|]. split; [exact D|]. rewrite E in F. apply Forall_forall. intros f Hf. rewrite forallb_forall in F.
    apply list_elem_of_In in Hf. apply F in Hf. by apply Z.eqb_eq.
Defined.
End AgentSync.
