(* ===== verification/Enroll.v ===== *)
(** * Enroll: giving an agent its account

    agent/src/enroll.rs, over the pairing handlers of the device service: the
    agent claims a code, waits for the user's approval, redeems the code for its
    tokens, and writes them in its configuration.  The requests and the answers
    are JSON texts; what others do at the server between two of the agent's
    questions is a parameter. *)

From S2P Require Import Prelude Text Bits Tables Effects Externals Schema Token Auth Pairing Device Fs Storage FsHandler Base64 Json Utf8 Codec LocalDb Watcher Config Uploads AgentSync.

Module Enroll.
Import Config Json LocalDb Devices.
Import AgentSync.

(** ** The user a token names *)

Definition url_char (c : Z) : Z := if c =? chr "-" then chr "+" else if c =? chr "_" then chr "/" else c.

(** [while payload.len() % 4 != 0]: at most three turns. *)
Definition pad_four (s : rstr) : rstr := s ++ replicate (Z.to_nat ((- str_len s) mod 4)) (chr "=").

Section Jwt.
Context {JT : JsonText}.

Definition extract_user_id_from_jwt (token : rstr) : option rstr :=
  match split_char (chr ".") token with
  | _ :: part :: _ =>
      match Base64.base64_decode (pad_four (map url_char part)) with
      | inl _ => None
      | inr decoded => v ← Utf8.from_utf8 decoded ≫= json_parse; as_str (index v "sub")
      end
  | _ => None
  end.
End Jwt.

(** ** The bodies *)

(** Deserialize for the two requests of a device, which have the same fields. *)
Definition REQUEST : list string :=
  ["pairing_code"; "enrollment_token"; "device_name"; "device_type"; "os"; "os_version"; "agent_version"; "client_fingerprint"]%string.

Definition opt_text (o : option Value) : option (option rstr) :=
  match o with None | Some Null => Some None | Some v => option_map Some (as_str v) end.
Definition text (o : option Value) : option rstr := o ≫= as_str.

Record DeviceFields := {
  f_code : option rstr; f_token : option rstr; f_name : rstr; f_type : rstr; f_os : rstr; f_os_version : option rstr;
  f_agent : option rstr; f_finger : option rstr
}.

Definition device_fields (v : Value) : option DeviceFields :=
  let known k := existsb (fun n : string => bool_decide (lit n = k)) REQUEST in
  let shape := match v with
               | Obj l => bool_decide (base.NoDup (List.filter known (map fst l)))
               | Arr l => (length l =? 8)%nat
               | _ => false
               end in
  let at_ (i : nat) (k : string) := match v with Arr l => l !! i | _ => get k v end in
  if negb shape then None else
  c ← opt_text (at_ 0%nat "pairing_code"%string);
  t ← opt_text (at_ 1%nat "enrollment_token"%string);
  n ← text (at_ 2%nat "device_name"%string);
  y ← text (at_ 3%nat "device_type"%string);
  o ← text (at_ 4%nat "os"%string);
  ov ← opt_text (at_ 5%nat "os_version"%string);
  a ← opt_text (at_ 6%nat "agent_version"%string);
  f ← opt_text (at_ 7%nat "client_fingerprint"%string);
  Some {| f_code := c; f_token := t; f_name := n; f_type := y; f_os := o; f_os_version := ov; f_agent := a; f_finger := f |}.

Definition claim_of (d : DeviceFields) : ClaimPairingRequest :=
  {| clm_code := f_code d; clm_token := f_token d; clm_name := f_name d; clm_type := f_type d; clm_os := f_os d;
     clm_os_version := f_os_version d; clm_agent_version := f_agent d; clm_fingerprint := f_finger d |}.
Definition redeem_of (d : DeviceFields) : RedeemPairingRequest :=
  {| red_code := f_code d; red_token := f_token d; red_name := f_name d; red_type := f_type d; red_os := f_os d;
     red_os_version := f_os_version d; red_agent_version := f_agent d; red_fingerprint := f_finger d |}.

Section Bodies.
Context {UT : UuidText}.
Context (show_time : Z -> rstr).

Definition device_json (d : Pairing.DeviceResponse) : Value :=
  obj [("id", Str (uuid_to_string (Pairing.dev_id d))); ("name", Str (Pairing.dev_name d));
       ("device_type", Str (Pairing.dev_type d)); ("os", Str (Pairing.dev_os d));
       ("os_version", Str (Pairing.dev_os_version d)); ("agent_version", Str (Pairing.dev_agent_version d));
       ("is_online", Bool (Pairing.dev_online d)); ("last_seen_at", opt_str (option_map show_time (Pairing.dev_last_seen d)));
       ("created_at", Str (show_time (Pairing.dev_created d)))]%string.

Definition redeem_json (r : Pairing.RedeemPairingResponse) : Value :=
  obj [("device", device_json (Pairing.device r)); ("access_token", Str (Pairing.access_token r));
       ("refresh_token", Str (Pairing.refresh_token r))]%string.

Definition candidate_json (c : Pairing.CandidateDevice) : Value :=
  obj [("device_name", Str (Pairing.cand_name c)); ("device_type", Str (Pairing.cand_type c)); ("os", Str (Pairing.cand_os c));
       ("os_version", Str (Pairing.cand_os_version c)); ("agent_version", Str (Pairing.cand_agent_version c));
       ("client_fingerprint", opt_str (Pairing.cand_fingerprint c)); ("requested_at", Str (show_time (Pairing.requested_at c)))]%string.

Definition status_json (s : PairingStatusResponse) : Value :=
  obj [("pairing_code", Str (st_code s)); ("enrollment_token", Str (st_token s)); ("status", Str (st_status s));
       ("expires_at", Str (show_time (st_expires s)));
       ("candidate_device", match st_candidate s with Some c => candidate_json c | None => Null end);
       ("redeem_result", match st_result s with Some r => redeem_json r | None => Null end)]%string.
End Bodies.

Section Enroll.
Context {O : Oracle} {CH : Chrono} {JW : Token.JsonWebToken} {S2 : Sha256} {HX : Hex} {UT : UuidText} {JT : JsonText} {TX : Texts}.
(** The machine: its directory, its name, its system, and the directories and
    variables of the user's account. *)
Context (cwd : Fs.path) (hostname : option rstr) (os agent_version : rstr) (home data_home server_env : option rstr)
  (json_error : rstr -> rstr) (client_error : option rstr).
(** The server, and what others do there before the agent's [k]th question. *)
Context (config : Token.AuthConfig) (validation_text : list string -> rstr)
  (json_rejection : rstr) (show_time status_text : Z -> rstr) (query_code : rstr -> option rstr)
  (meanwhile : nat -> Server -> Server).

(** ** The server's side *)

Definition with_body (body : rstr) (h : DeviceFields -> M Server Reply) : M Server Reply :=
  match json_parse body with
  | None => mret {| reply_status := 400; reply_body := json_rejection |}
  | Some v => match device_fields v with
              | None => mret {| reply_status := 422; reply_body := json_rejection |}
              | Some d => h d
              end
  end.

Definition claim_handler (body : rstr) : M Server Reply :=
  with_body body (fun d =>
    r ← claim_pairing validation_text (claim_of d);
    mret {| reply_status := 200; reply_body := json_print (status_json show_time r) |}).

Definition redeem_handler (body : rstr) : M Server Reply :=
  with_body body (fun d =>
    r ← redeem_pairing config validation_text (redeem_of d);
    mret {| reply_status := 200; reply_body := json_print (redeem_json show_time r) |}).

(** [?code=] and the code. *)
Definition status_handler (code : rstr) : M Server Reply :=
  r ← pairing_status None (query_code code);
  mret {| reply_status := 200; reply_body := json_print (status_json show_time r) |}.

(** ** The agent's side *)

Definition payload (code : rstr) : rstr :=
  json_print (obj [("pairing_code", Str code); ("device_name", Str (default (lit "PCOS Storage Node") hostname));
    ("device_type", Str (lit "desktop")); ("os", Str os); ("os_version", Str []); ("agent_version", Str agent_version)]%string).

Definition json_body (r : Reply) : M Both Value :=
  _ ← network;
  ok_or (json_parse (reply_body r)) (Internal (lit "error decoding response body")).

(** The tokens in a body, and the id of the device in it. *)
Definition tokens_in (v : Value) : option rstr * option rstr :=
  (as_str (index v "access_token"), as_str (index (index v "device") "id")).

Definition claim (code : rstr) : M Both (option rstr * option rstr) :=
  claim_resp ← attempt (exchange (claim_handler (payload code)));
  match claim_resp with
  | Some resp =>
      if is_success resp then
        body ← json_body resp;
        mret (match get "redeem_result" body with Some res => tokens_in res | None => (None, None) end)
      else mret (None, None)
  | None => mret (None, None)
  end.

(** [n] more questions for the approval; the first is the [k]th. *)
Fixpoint wait (code : rstr) (device_id : option rstr) (n k : nat) : M Both (option rstr * option rstr) :=
  match n with
  | 0%nat => mret (None, device_id)
  | S n' =>
      let again := wait code device_id n' (S k) in
      _ ← on_cloud (modify (meanwhile k));
      answered ← attempt (exchange (status_handler code));
      match answered with
      | Some resp =>
          if is_success resp then
            body ← json_body resp;
            let status := default [] (as_str (index body "status")) in
            if bool_decide (status = lit "approved") then
              redeem_resp ← exchange (redeem_handler (payload code));
              if is_success redeem_resp then r_body ← json_body redeem_resp; mret (tokens_in r_body)
              else again
            else if bool_decide (status = lit "rejected")
            then throw (Internal (lit "Pairing request was declined on your computer screen."))
            else again
          else again
      | None => again
      end
  end.

Definition QUESTIONS : nat := 60.

(** The tokens: from the claim, after the approval, or by redeeming the code
    directly. *)
Definition obtain (code : rstr) : M Both (rstr * option rstr) :=
  '(access_token, device_id) ← claim code;
  '(access_token, device_id) ←
    (match access_token with
     | None => wait code device_id QUESTIONS 0
     | Some _ => mret (access_token, device_id)
     end);
  match access_token with
  | Some t => mret (t, device_id)
  | None =>
      resp ← exchange (redeem_handler (payload code));
      if negb (is_success resp) then throw (Internal (lit "Pairing failed: HTTP " ++ status_text (reply_status resp))) else
      body ← json_body resp;
      t ← or_panic (fst (tokens_in body));
      mret (t, snd (tokens_in body))
  end.

Definition enrolled (c : AgentConfig) (base_url token dev_id user_id default_sync : rstr) : AgentConfig :=
  {| Config.server_url := base_url; auth_token := token; device_id := dev_id;
     Config.user_id := if nonempty user_id then user_id else Config.user_id c; cloud_id := cloud_id c;
     storage_node_id := storage_node_id c; data_dir := data_dir c;
     sync_folders := if bool_decide (default_sync ∈ sync_folders c) then sync_folders c else sync_folders c ++ [default_sync];
     sync_interval_secs := sync_interval_secs c; ignore_patterns := ignore_patterns c; allowed_disks := allowed_disks c;
     excluded_disks := excluded_disks c |}.

Definition clean_code (code : rstr) : rstr := List.filter (fun c => negb (c =? 32)) (trim code).

Definition enroll_node_with_code (code server_url config_path : rstr) : M Both unit :=
  let code := clean_code code in
  let base_url := trim_end_by (Z.eqb (chr "/")) server_url in
  match client_error with
  | Some e => throw (Internal e)
  | None =>
      '(token, device_id) ← obtain code;
      dev_id ← (match device_id with Some d => mret d | None => i ← new_v4; mret (uuid_to_string i) end);
      let user_id := default [] (extract_user_id_from_jwt token) in
      c ← on_machine (load_or_create cwd data_home server_env json_error config_path);
      let default_sync := default (lit "pcos_storage") (option_map (fun h => Watcher.join_name h (lit "PCOS")) home) in
      _ ← on_machine (discard (change_files (fun f => q ← place cwd default_sync; Fs.create_dir_all f q)));
      on_machine (save cwd (enrolled c base_url token dev_id user_id default_sync) config_path)
  end.

(** ** What an enrollment saves *)

(** The request the agent's body stands for. *)
Definition request (code : rstr) : RedeemPairingRequest :=
  {| red_code := Some code; red_token := None; red_name := default (lit "PCOS Storage Node") hostname;
     red_type := lit "desktop"; red_os := os; red_os_version := Some []; red_agent_version := Some agent_version;
     red_fingerprint := None |}.

(** serde_json reads the bodies back. *)
Record bodies_read : Prop := {
  payload_reads : forall code, exists v, json_parse (payload code) = Some v /\
    option_map redeem_of (device_fields v) = Some (request code);
  status_reads : forall r, reads_back (status_json show_time r);
  redeem_reads : forall r, reads_back (redeem_json show_time r)
}.

(** The server redeemed the code for this token and this device, and is as the
    redemption left it. *)
Definition issued (code t d : rstr) (final : Server) : Prop :=
  exists resp v v', redeem_pairing config validation_text (request code) v = (Ok resp, v') /\ data v' = final
    /\ t = Pairing.access_token resp /\ d = uuid_to_string (Pairing.dev_id (Pairing.device resp)).

Lemma json_body_Ok r w v w' : json_body r w = (Ok v, w') -> json_parse (reply_body r) = Some v /\ data w' = data w.
Proof.
  unfold json_body. intros H. apply bind_Ok in H as ([] & w1 & Hn & H). apply network_Ok in Hn.
  apply ok_or_Ok in H as [H ->]. done.
Qed.

Lemma attempt_Some {D A} (m : M D A) a w w' : attempt m w = (Ok (Some a), w') -> m w = (Ok a, w').
Proof.
  unfold attempt, unwrap_or, mbind, M_bind. destruct (m w) as [[x|e| |] v]; intros H; try done; by injection H as <- <-.
Qed.

(** Redeeming over the network: an answer of success is the server's. *)
Lemma redeemed code r v w w' w'' : bodies_read ->
  exchange (redeem_handler (payload code)) w = (Ok r, w') -> is_success r = true -> json_body r w' = (Ok v, w'') ->
  exists t d, tokens_in v = (Some t, Some d) /\ issued code t d (cloud (data w'')).
Proof.
  intros B E Sc J. destruct (exchange_success _ _ _ _ E Sc) as (n & n' & H & _). apply json_body_Ok in J as [J ->].
  destruct (payload_reads B code) as (p & P & F). unfold redeem_handler, with_body in H. rewrite P in H.
  destruct (device_fields p) as [d|]; [|done]. cbn [option_map] in F. apply (inj Some) in F.
  apply bind_Ok in H as (resp & w1 & R & H). apply ret_Ok in H as [<- Hw]. cbn [reply_body] in J.
  rewrite (redeem_reads B resp) in J. injection J as <-. eexists _, _. split; [reflexivity|].
  rewrite F in R. exists resp, (mkWorld (cloud (data w)) n), w1. by subst w1.
Qed.

(** The answer to a claim never has tokens. *)
Lemma claim_empty code w a w' : bodies_read -> claim code w = (Ok a, w') -> a = (None, None).
Proof.
  intros B H. unfold claim in H. apply bind_Ok in H as (cr & w1 & Hc & H). destruct cr as [resp|]; [|by apply ret_Ok in H as [<- _]].
  destruct (is_success resp) eqn:Sc; [|by apply ret_Ok in H as [<- _]]. apply attempt_Some in Hc.
  apply bind_Ok in H as (v & w2 & J & H). apply json_body_Ok in J as [J _]. apply ret_Ok in H as [<- _].
  destruct (exchange_success _ _ _ _ Hc Sc) as (n & n' & E & _). unfold claim_handler, with_body in E.
  destruct (payload_reads B code) as (p & P & _). rewrite P in E. destruct (device_fields p) as [d|].
  2: { apply ret_Ok in E as [E _]. subst resp. by vm_compute in Sc. }
  apply bind_Ok in E as (r & w3 & R & E). apply ret_Ok in E as [<- _]. cbn [reply_body] in J. rewrite (status_reads B r) in J.
  injection J as <-. assert (Nr : st_result r = None).
  { unfold claim_pairing, validated in R. destruct (nonempty _); [by apply throw_Ok in R|]. unfold claim_pairing_session in R.
    run_ok R. done. }
  unfold status_json. rewrite Nr. reflexivity.
Qed.

Lemma wait_issued code d n k w t d' w' : bodies_read ->
  wait code d n k w = (Ok (Some t, d'), w') -> exists i, d' = Some i /\ issued code t i (cloud (data w')).
Proof.
  intros B. revert k w. induction n as [|n IH]; intros k w H; cbn [wait] in H; [by apply ret_Ok in H as [H _]|].
  apply bind_Ok in H as ([] & w1 & _ & H). apply bind_Ok in H as (ans & w2 & _ & H). destruct ans as [resp|]; [|by eapply IH].
  destruct (is_success resp); [|by eapply IH]. apply bind_Ok in H as (body & w3 & _ & H).
  destruct (bool_decide _).
  - apply bind_Ok in H as (rr & w4 & E & H). destruct (is_success rr) eqn:Sc; [|by eapply IH].
    apply bind_Ok in H as (v & w5 & J & H). destruct (redeemed _ _ _ _ _ _ B E Sc J) as (t1 & d1 & T & I).
    apply ret_Ok in H as [H <-]. rewrite T in H. injection H as <- <-. eauto.
  - destruct (bool_decide _); [by apply throw_Ok in H|by eapply IH].
Qed.

Lemma obtain_issued code w t d w' : bodies_read -> obtain code w = (Ok (t, d), w') -> exists i, d = Some i /\ issued code t i (cloud (data w')).
Proof.
  intros B H. unfold obtain in H. apply bind_Ok in H as (a & w1 & C & H). apply (claim_empty _ _ _ _ B) in C. subst a. cbv beta iota in H.
  apply bind_Ok in H as ([acc dev] & w2 & W & H). destruct acc as [t0|].
  - apply ret_Ok in H as [[= -> ->] <-]. by eapply wait_issued.
  - apply bind_Ok in H as (resp & w3 & E & H). destruct (is_success resp) eqn:Sc; cbn [negb] in H; [|by apply throw_Ok in H].
    apply bind_Ok in H as (v & w4 & J & H). destruct (redeemed _ _ _ _ _ _ B E Sc J) as (t1 & d1 & T & I).
    apply bind_Ok in H as (t2 & w5 & P & H). rewrite T in *. apply or_panic_Ok in P as [P ->]. cbn [fst] in P. injection P as <-.
    apply ret_Ok in H as [H <-]. injection H as <- <-. eauto.
Qed.

(** C37: an enrollment.  Whatever the network does and whatever others do at the
    server meanwhile, when the enrollment succeeds, the last thing it did was to
    save a configuration whose token and device are those the server issued when
    it redeemed the code, which is the last thing that happened at the server,
    for a session of that code which was not past its expiry and not rejected;
    the token of another session, or an invented device, is never saved. *)
Theorem enroll_sound code url path w w' :
  bodies_read -> enroll_node_with_code code url path w = (Ok tt, w') ->
  exists c v v' resp s s',
    redeem_pairing config validation_text (request (clean_code code)) s = (Ok resp, s') /\ cloud (data w') = data s'
    /\ (exists sess, Pairing.get_by_key (clean_code code) (pairings (data s)) = Some sess
          /\ clock_at (pos s) <= Pairing.expires_at sess /\ Pairing.status sess <> lit "rejected")
    /\ auth_token c = Pairing.access_token resp
    /\ device_id c = uuid_to_string (Pairing.dev_id (Pairing.device resp))
    /\ Config.server_url c = trim_end_by (Z.eqb (chr "/")) url
    /\ save cwd c path v = (Ok tt, v') /\ machine (data w') = data v'.
Proof.
  intros B H. unfold enroll_node_with_code in H. cbv zeta in H. destruct client_error; [by apply throw_Ok in H|].
  apply bind_Ok in H as ([t d] & w1 & Ob & H). apply (obtain_issued _ _ _ _ _ B) in Ob as (i & -> & I).
  destruct I as (resp & s & s' & R & F & -> & ->).
  apply bind_Ok in H as (dev & w2 & Hd & H). apply ret_Ok in Hd as [<- <-].
  apply bind_Ok in H as (c & w3 & L & H). apply bind_Ok in H as ([] & w4 & M1 & H).
  apply on_machine_Ok in L as [_ L], M1 as [_ M1], H as [Sv C].
  eexists (enrolled c _ _ _ _ _), _, _, resp, s, s'. split; [exact R|]. split; [by rewrite C, M1, L|]. split.
  { unfold redeem_pairing, validated in R. destruct (nonempty _); [by apply throw_Ok in R|].
    unfold redeem_pairing_session in R. apply bind_Ok in R as (key & v1 & K & R). apply request_key_Ok in K as [-> K].
    destruct K as [K|[_ K]]; [done|]. injection K as <-. apply bind_Ok in R as (x & v2 & K0 & _). unfold redeem_checked in K0.
    apply bind_Ok in K0 as (sess & v3 & G & K0). apply find_by_key_Ok in G as [-> G]. apply bind_Ok in K0 as ([] & v4 & X & K0).
    apply refuse_expired_Ok in X as [-> X]. exists sess. split; [exact G|]. split; [exact X|]. intros E.
    rewrite bool_decide_true in K0 by done. by apply throw_Ok in K0. }
  split; [reflexivity|]. split; [reflexivity|]. split; [reflexivity|]. split; [exact Sv|]. reflexivity.
Qed.
End Enroll.

(** ** The user of a token *)

(** base64url without padding, as the parts of a token are written. *)
Definition to_url (c : Z) : Z := if c =? chr "+" then chr "-" else if c =? chr "/" then chr "_" else c.
Definition base64url (b : bytes) : rstr := map to_url (List.filter (fun c => negb (c =? chr "=")) (Base64.base64_encode b)).

Lemma sym_url v : 0 <= v < 64 -> url_char (to_url (Base64.sym v)) = Base64.sym v /\ to_url (Base64.sym v) <> chr ".".
Proof.
  intros Hv.
  assert (A : forallb (fun i => (url_char (to_url (Base64.sym (Z.of_nat i))) =? Base64.sym (Z.of_nat i))
      && negb (to_url (Base64.sym (Z.of_nat i)) =? chr ".")) (seq 0 64) = true) by (vm_compute; reflexivity).
  rewrite forallb_forall in A. specialize (A (Z.to_nat v)). rewrite Z2Nat.id in A by lia.
  assert (I : In (Z.to_nat v) (seq 0 64)) by (apply in_seq; lia). specialize (A I). lia.
Qed.

Lemma decode_padding s n b k : Base64.decode_loop (s ++ replicate n (chr "=")) b k = Base64.decode_loop s b k.
Proof.
  revert b k. induction s as [|c s IH]; intros b k; cbn [app Base64.decode_loop].
  - by destruct n.
  - destruct (c =? chr "="); [done|]. destruct (Base64.char_value c) as [[v|]|]; [|apply IH|done]. cbv zeta.
    by destruct (8 <=? k + 6); rewrite IH.
Qed.

Lemma unpadded b : are_bytes b -> exists ds k, digits 6 ds
  /\ Base64.base64_encode b = map Base64.sym ds ++ replicate k (chr "=")
  /\ List.filter (fun c => negb (c =? chr "=")) (Base64.base64_encode b) = map Base64.sym ds.
Proof.
  intros Hb. destruct (Base64.encode_spec b Hb) as (ds & k & pad & E & D & _). exists ds, k. split; [done|]. split; [done|].
  rewrite E, List.filter_app. replace (List.filter _ (replicate k _)) with (@nil Z) by (clear; induction k; done).
  rewrite app_nil_r. clear E. induction D as [|v ds Hv D IH]; [done|]. cbn. destruct (Base64.sym_facts v Hv) as (_ & -> & _). cbn. by rewrite IH.
Qed.

Lemma decode_any_padding b n : are_bytes b ->
  Base64.base64_decode (List.filter (fun c => negb (c =? chr "=")) (Base64.base64_encode b) ++ replicate n (chr "=")) = inr b.
Proof.
  intros Hb. pose proof (Base64.base64_roundtrip b Hb) as RT.
  destruct (unpadded b Hb) as (ds & k & D & E & F). rewrite F. assert (T : forall j, trim (map Base64.sym ds ++ replicate j (chr "=")) = map Base64.sym ds ++ replicate j (chr "=")).
  { intros j. apply trim_id, Forall_app. split; [|by apply Forall_replicate]. rewrite Forall_map. eapply Forall_impl; [exact D|].
    intros v Hv. by apply Base64.sym_facts. }
  rewrite E in RT. unfold Base64.base64_decode in *. rewrite T in *. destruct ds as [|v ds].
  - destruct n; cbn; destruct k; cbn in RT; injection RT as <-; done.
  - cbn [map app nonempty negb] in *. rewrite app_comm_cons, decode_padding in *. exact RT.
Qed.

(** the user of a token.  From a token of three parts, whose second part is
    base64url of JSON text, as every JSON web token is, the subject of the
    claims is read, whatever the padding that was cut off. *)
Theorem jwt_subject {JT : JsonText} (h s text : rstr) v u :
  chr "." ∉ h -> Forall Utf8.scalar text -> json_parse text = Some v -> as_str (index v "sub") = Some u ->
  are_bytes (as_bytes text) ->
  extract_user_id_from_jwt (h ++ chr "." :: base64url (as_bytes text) ++ chr "." :: s) = Some u.
Proof.
  intros Hh Sc P Su Hb. unfold extract_user_id_from_jwt. rewrite split_char_app by done.
  destruct (unpadded (as_bytes text) Hb) as (ds & k & D & E & F).
  assert (U : map url_char (base64url (as_bytes text)) = map Base64.sym ds /\ chr "." ∉ base64url (as_bytes text)).
  { unfold base64url. rewrite F. clear E F. induction D as [|w ds Hv D [IH1 IH2]]; [split; [done|apply not_elem_of_nil]|].
    cbn [map]. destruct (sym_url w Hv) as [-> Nd]. split; [by rewrite IH1|]. apply not_elem_of_cons. by split. }
  destruct U as [U Nd]. rewrite split_char_app by done. rewrite U, <- F. unfold pad_four. rewrite decode_any_padding by done.
  unfold Utf8.from_utf8. rewrite Utf8.lossy_as_bytes by done. rewrite bool_decide_true by done. cbn. by rewrite P.
Qed.

(** ** When the token runs out *)

Section Expired.
Import Token.
Context {O : Oracle} {JW : JsonWebToken} {S2 : Sha256} {HX : Hex} {UT : UuidText} {MG : MimeGuess} {HV : HttpValues}
  {MX : Uploads.MultipartText} {JT : Json.JsonText} {WR : Wire}.
Context (cwd : Fs.path) (auth_token : rstr) (config : AuthConfig) (base : Fs.path) (show_time : Z -> rstr)
  (status_text : Z -> rstr) (json_rejection : rstr).

Notation authorized := (authorized auth_token config).
Notation post := (post auth_token).
Notation upload_file := (upload_file cwd auth_token config base show_time status_text json_rejection).
Notation sync_loop := (sync_loop cwd auth_token config base show_time status_text json_rejection).
Notation sync_round := (sync_round cwd auth_token config base show_time status_text json_rejection).

(** The token is refused at every moment. *)
Definition dead : Prop := forall n c, jwt_decode (timestamp (clock_at n)) auth_token (jwt_secret config) <> inr c.

Lemma dead_authorized h w o w' : dead -> authorized h w = (o, w') -> data w' = data w /\ forall r, o <> Ok r.
Proof.
  intros D H. unfold AgentSync.authorized, mbind, M_bind in H.
  destruct (from_request_parts _ _ w) as [o1 w1] eqn:E. pose proof (claims_still _ _ w o1 w1 E) as T.
  destruct o1 as [c|e| |]; [|injection H as <- <-; by split..].
  exfalso. unfold from_request_parts in E. run_ok E. apply validate_token_Ok in E as [E _].
  unfold to_str in Hm. destruct (forallb _ _); [|done]. injection Hm as <-.
  apply strip_prefix_iff in Hm0. unfold bearer in Hm0. apply app_inv_head in Hm0 as <-. by eapply D.
Qed.

Lemma dead_served h : dead -> preserves still (served (authorized h)).
Proof.
  intros D w o w' E. unfold served, on_cloud in E. destruct (authorized h _) as [o1 v] eqn:Eh.
  apply (dead_authorized _ _ _ _ D) in Eh as [Eh _]. injection E as _ <-. unfold still. cbn. rewrite Eh. by destruct (data w).
Qed.

Lemma network_still : preserves still network.
Proof. apply preserves_io; [apply _|]. intros b a b' E. by injection E as _ <-. Qed.

Lemma machine_still {A} (m : M Machine A) : preserves untouched m -> preserves still (on_machine m).
Proof.
  intros H w o w' E. unfold on_machine in E. destruct (m _) as [o1 v] eqn:Em. injection E as <- <-. apply H in Em.
  unfold still. cbn. rewrite Em. by destruct (data w).
Qed.

Lemma dead_post h : dead -> preserves still (post (authorized h)).
Proof. intros D. unfold AgentSync.post, exchange, answer. preserve; first [apply network_still | by apply dead_served]. Qed.

Lemma dead_refused h w r w' : dead -> post (authorized h) w = (Ok r, w') -> is_success r = false.
Proof.
  intros D H. destruct (is_success r) eqn:Sc; [|done]. destruct (post_success _ _ _ _ _ H Sc) as (n & n' & E & _).
  apply (dead_authorized _ _ _ _ D) in E as [_ E]. by destruct (E r).
Qed.

Lemma dead_upload p h n : dead ->
  preserves still (upload_file p h n) /\ forall w r w', upload_file p h n w <> (Ok r, w').
Proof.
  intros D. split.
  - unfold AgentSync.upload_file, send_in_chunks, send_whole, open_file, at_place. cbv zeta.
    assert (C : forall f i l, preserves still (send_chunks auth_token config base status_text f i l)).
    { intros f i l. induction l as [|c l IH]; cbn [send_chunks]; unfold read_exact; preserve;
        first [apply machine_still, on_files_untouched | by apply dead_post]. }
    unfold refused, remote_id_of. preserve;
      first [apply machine_still; unfold probe; preserve; apply on_files_untouched | by apply dead_post | apply C | apply network_still].
  - intros w r w' H. unfold AgentSync.upload_file in H. apply bind_Ok in H as (th & w1 & _ & H). destruct th; [|by apply throw_Ok in H].
    cbn [negb] in H. apply bind_Ok in H as (b & w2 & _ & H). cbv zeta in H. destruct (_ && _).
    + unfold send_in_chunks in H. apply bind_Ok in H as (i & w3 & _ & H). apply bind_Ok in H as (f & w4 & _ & H).
      apply bind_Ok in H as ([] & w5 & _ & H). apply bind_Ok in H as (rp & w6 & P & H). apply (dead_refused _ _ _ _ D) in P.
      rewrite P in H. by apply refused_Ok in H.
    + unfold send_whole in H. apply bind_Ok in H as (d & w3 & _ & H). apply bind_Ok in H as (rp & w6 & P & H).
      apply (dead_refused _ _ _ _ D) in P. rewrite P in H. by apply refused_Ok in H.
Qed.

(** What an agent still does: it writes its log. *)
Definition logs (b b' : Both) : Prop :=
  cloud b' = cloud b /\ files (machine b') = files (machine b) /\ file_cache (machine b') = file_cache (machine b).

#[local] Instance logs_preorder : PreOrder logs.
Proof. split; [by intros b|]. intros b1 b2 b3 (A & B & C) (A' & B' & C'). split_and!; congruence. Qed.

Lemma dead_one item : dead -> preserves logs (sync_one cwd auth_token config base show_time status_text json_rejection item).
Proof.
  intros D w o w' H. destruct item as [[p h] n]. unfold sync_one, settle, mbind, M_bind in H.
  destruct (upload_file p h n w) as [o1 w1] eqn:E. destruct (dead_upload p h n D) as [St No]. apply St in E as S1. unfold still in S1.
  destruct o1 as [r|e| |]; [by destruct (No w r w1)| |injection H as _ <-; rewrite S1; by split_and!..].
  unfold on_machine in H. destruct (record p (inl e) _) as [o2 v] eqn:R. injection H as _ <-.
  cbn [record] in R. unfold log_sync in R. rewrite discard_rows in R. injection R as _ <-. cbn. rewrite S1.
  by destruct (db_fault _).
Qed.

(** an agent whose token ran out.  The agent keeps the access token it was
    enrolled with and no refresh token; once the token is a minute past its
    expiry, no number of rounds uploads anything or marks anything, whatever the
    environment does, and the table keeps every row that waits. *)
Theorem agent_locked_out c k w o w' :
  jwt_encode c (jwt_secret config) = inr auth_token -> 0 <= exp c ->
  (forall n, exp c + LEEWAY < timestamp (clock_at n)) ->
  sync_loop k w = (o, w') ->
  cloud (data w') = cloud (data w) /\ file_cache (machine (data w')) = file_cache (machine (data w)).
Proof.
  intros E P Late. assert (D : dead).
  { intros n c' H. rewrite (jwt_decode_encode _ _ _ _ E P) in H. specialize (Late n).
    by replace (timestamp (clock_at n) <=? exp c + LEEWAY) with false in H by lia. }
  intros H. enough (G : logs (data w) (data w')) by (destruct G as (? & _ & ?); done).
  revert w o w' H. change (preserves logs (sync_loop k)). induction k as [|k IH]; cbn [AgentSync.sync_loop]; [preserve|].
  apply preserves_bind; [apply _| |by intros []]. unfold AgentSync.sync_round. preserve.
  - apply settle_keeps. intros w o w' H. apply (machine_still get_pending) in H; [by rewrite H|]. unfold get_pending. preserve.
  - apply for_each_any; [apply _|]. intros x. by apply dead_one.
Qed.
End Expired.

(** ** Instances *)

Definition demo_start : World Both := mkWorld (mkBoth (data Config.demo_world) (data Devices.demo_open)) (pos Devices.demo_open).

Definition demo_enroll (O : Oracle) (meanwhile : nat -> Server -> Server) : outcome unit * World Both :=
  enroll_node_with_code (O := O) (CH := plain_chrono) (JW := Codec.text_jwt) (S2 := toy_sha256) (HX := plain_hex) (UT := plain_uuid)
    (JT := Codec.exact_json) (TX := Config.plain_texts) [] (Some (lit "box")) (lit "linux") (lit "0.1") (Some (lit "/home")) None None
    (fun _ => []) None Token.toy_config (fun _ => []) [] show_int show_int Some meanwhile (lit "000 002") (lit "https://h/")
    Config.demo_path demo_start.

(** The user approves the device between its second and its third question. *)
Definition approval (k : nat) (s : Server) : Server :=
  if (k =? 2)%nat
  then data (snd (approve_pairing_session (O := toy_env []) (CH := plain_chrono) (JW := Codec.text_jwt) (S2 := toy_sha256)
         (HX := plain_hex) Token.toy_config 2 (Devices.demo_approval true) (mkWorld s 500)))
  else s.

Definition saved (w : World Both) : option rstr :=
  match fst (load_or_create (O := toy_env []) (JT := Codec.exact_json) (TX := Config.plain_texts) [] None None (fun _ => []) Config.demo_path
    (mkWorld (machine (data w)) 0)) with
  | Ok c => Some (device_id c)
  | _ => None
  end.

Definition device_ids (w : World Both) : list rstr := map (fun d => plain_uuid_to_string (Schema.Device.id d)) (devices (cloud (data w))).

(** an enrollment without an approval.  When the claim is lost on the way, the
    device waits two minutes for an approval that cannot come and is then given
    the account, though the user has approved nothing. *)
Theorem unapproved_enrollment :
  (let r := demo_enroll (toy_env []) (fun _ s => s) in fst r <> Ok tt /\ device_ids (snd r) = [])
  /\ (let r := demo_enroll (Config.disk_fails (pos Devices.demo_open)) (fun _ s => s) in
      fst r = Ok tt /\ map Some (device_ids (snd r)) = [saved (snd r)]).
Proof. split; (split; [vm_compute; (reflexivity || discriminate)|vm_compute; reflexivity]). Qed.

Lemma demo_bodies : bodies_read (UT := plain_uuid) (JT := Codec.exact_json) (Some (lit "box")) (lit "linux") (lit "0.1") show_int.
Proof.
  split; [|intros r; apply Codec.exact_reads_back..]. intros code. eexists. split; [apply Codec.exact_reads_back|]. reflexivity.
Qed.

(** The device saved is the one the approval made. *)
Lemma enroll_sound_witness : exists w' c v v', demo_enroll (toy_env []) approval = (Ok tt, w')
  /\ save (O := toy_env []) (TX := Config.plain_texts) [] c Config.demo_path v = (Ok tt, v') /\ machine (data w') = data v'
  /\ saved w' = head (device_ids w').
Proof.
  assert (H : fst (demo_enroll (toy_env []) approval) = Ok tt
    /\ saved (snd (demo_enroll (toy_env []) approval)) = head (device_ids (snd (demo_enroll (toy_env []) approval))))
    by (split; vm_compute; reflexivity).
  destruct (demo_enroll (toy_env []) approval) as [o w'] eqn:E. cbn [fst snd] in H. destruct H as [-> Hs].
  destruct (enroll_sound (O := toy_env []) (CH := plain_chrono) (JW := Codec.text_jwt) (S2 := toy_sha256) (HX := plain_hex)
    (UT := plain_uuid) (JT := Codec.exact_json) (TX := Config.plain_texts) [] (Some (lit "box")) (lit "linux") (lit "0.1")
    (Some (lit "/home")) None None (fun _ => []) None Token.toy_config (fun _ => []) [] show_int show_int Some approval
    (lit "000 002") (lit "https://h/") Config.demo_path demo_start w' demo_bodies E)
    as (c & v & v' & resp & s & s' & _ & _ & _ & _ & _ & _ & Sv & M1).
  exists w', c, v, v'. split; [reflexivity|]. split; [exact Sv|]. split; [exact M1|exact Hs].
Defined.

(** The claims of a token, {"sub":"u"}, in a JSON codec of one text. *)
Definition one_json : JsonText :=
  {| json_parse s := if bool_decide (s = lit "claims") then Some (obj [("sub", Str (lit "u"))]%string) else None;
     json_print _ := [] |}.

Lemma jwt_subject_witness :
  extract_user_id_from_jwt (JT := one_json) (lit "head" ++ chr "." :: lit "Y2xhaW1z" ++ chr "." :: lit "sig") = Some (lit "u").
Proof.
  replace (lit "Y2xhaW1z") with (base64url (as_bytes (lit "claims"))) by (vm_compute; reflexivity).
  apply (jwt_subject (JT := one_json) (lit "head") (lit "sig") (lit "claims") (obj [("sub", Str (lit "u"))]%string) (lit "u")).
  - apply (bool_decide_eq_true_1 _). vm_compute. reflexivity.
  - apply Config.scalar_check. vm_compute. reflexivity.
  - vm_compute. reflexivity.
  - reflexivity.
  - apply Forall_forall. intros b Hb. assert (A : forallb (fun b => (0 <=? b) && (b <? 256)) (as_bytes (lit "claims")) = true)
      by (vm_compute; reflexivity). rewrite forallb_forall in A. apply list_elem_of_In, A in Hb. unfold is_byte. lia.
Defined.

(** Bob's agent, with the token of its first day, a year later. *)
Definition late_env : Oracle :=
  {| db_fault n := None; io_fault n := None; uuid_at n := Z.of_nat n; byte_at n := 0; salt_at n := 0; token_at n := []; code_at n := 0;
     clock_at n := 1800000000000000 |}.

Definition day_claims : Token.Claims := {| Token.sub := 2; Token.email := lit "bob@example.com"; Token.iat := 1700000000;
  Token.exp := 1700000900; Token.jti := 1 |}.
Definition day_token : rstr :=
  match Codec.text_encode day_claims (Token.jwt_secret Token.toy_config) with inr t => t | inl _ => [] end.

Lemma agent_locked_out_witness : exists w', sync_loop (O := late_env) (JW := Codec.text_jwt) (S2 := toy_sha256) (HX := plain_hex)
    (UT := plain_uuid) (MG := octet_stream) (HV := any_header) (MX := Uploads.plain_text) (JT := Codec.exact_json)
    (WR := AgentSync.demo_wire) [] day_token Token.toy_config Storage.demo_base show_int show_int [] 2 AgentSync.demo_start = (Ok tt, w')
  /\ cloud (data w') = cloud (data AgentSync.demo_start).
Proof.
  destruct (sync_loop _ _ _ _ _ _ _ 2 AgentSync.demo_start) as [o w'] eqn:E.
  assert (H : o = Ok tt) by (apply (f_equal fst) in E; cbn [fst] in E; rewrite <- E; vm_compute; reflexivity). subst o.
  exists w'. split; [reflexivity|].
  refine (proj1 (agent_locked_out (O := late_env) (JW := Codec.text_jwt) (S2 := toy_sha256) (HX := plain_hex)
    (UT := plain_uuid) (MG := octet_stream) (HV := any_header) (MX := Uploads.plain_text) (JT := Codec.exact_json)
    (WR := AgentSync.demo_wire) [] day_token Token.toy_config Storage.demo_base show_int show_int [] day_claims 2 AgentSync.demo_start
    (Ok tt) w' _ _ _ E)).
  - reflexivity.
  - vm_compute. discriminate.
  - intros n. vm_compute. reflexivity.
Defined.
End Enroll.
