(* ===== verification/Disks.v ===== *)
(** * Disks: the disks an agent offers

    agent/src/disks.rs: the disks of the machine that the policy of the agent
    lets through, the directories the policy names, the space left on them, and
    their advertisement.  What sysinfo lists is a parameter, as is the server
    the advertisement goes to.  Paths are those of a Unix system. *)

From S2P Require Import Prelude Text Effects Externals Fs Storage FsHandler Delta Json LocalDb Watcher Search Insight.

Module Disks.
Import Fs Json LocalDb.

(** A disk as sysinfo lists it. *)
Record Disk := {
  at_mount : rstr; total_space : Z; available_space : Z; disk_name : rstr; file_system : rstr; is_removable : bool }.

Record DiskCapabilities := { ffmpeg : bool; ocr : bool; tantivy : bool; ollama : bool }.

Record DiscoveredDisk := {
  volume_uuid : option rstr; mount_point : rstr; name : rstr; fs_type : rstr; total_capacity_bytes : Z;
  available_capacity_bytes : Z; disk_type : rstr; suggested_categories : list rstr; capabilities : DiskCapabilities }.

(** ** Names and policies *)

Definition is_slash (c : Z) : bool := (c =? chr "\") || (c =? chr "/").
Definition no_slash (s : rstr) : rstr := trim_end_by is_slash s.

Section Policy.
Context {U : Unicode}.

Definition clean (s : rstr) : rstr := to_lowercase (no_slash (trim s)).

(** Whether a name of the policy is the mount, with or without its colon. *)
Definition names (clean_mount : rstr) (n : rstr) : bool :=
  let c := clean n in
  bool_decide (c = clean_mount) || bool_decide (c = trim_end_by (Z.eqb (chr ":")) clean_mount).

Definition permits (allowed excluded : list rstr) (mount : rstr) : bool :=
  let clean_mount := clean mount in
  if existsb (names clean_mount) excluded then false
  else if nonempty allowed then existsb (names clean_mount) allowed else true.
End Policy.

Definition host (ffmpeg_available : bool) : DiskCapabilities :=
  {| ffmpeg := ffmpeg_available; ocr := false; tantivy := false; ollama := false |}.

(** Path::components with the root directory and a leading dot. *)
Definition path_parts (s : rstr) : list rstr :=
  (if starts_with (lit "/") s then [lit "/"]
   else match split_char (chr "/") s with c :: _ => if bool_decide (c = DOT) then [DOT] else [] | [] => [] end)
  ++ Storage.components s.

(** Path::starts_with *)
Definition path_starts (target mount : rstr) : bool := path_prefix (path_parts mount) (path_parts target).

(** The loop over the disks: of two mounts of one length the later one. *)
Definition better (target : rstr) (best : option Disk * Z) (d : Disk) : option Disk * Z :=
  if path_starts target (at_mount d)
  then let len := str_len (at_mount d) in if snd best <=? len then (Some d, len) else best
  else best.

Definition best_match (target : rstr) (disks : list Disk) : option Disk := fst (fold_left (better target) disks (None, 0)).

(** The space left, as an f64 of bytes; the code divides it by 2^30, which is
    exact. *)
Definition get_disk_free_gb (disks : list Disk) (target : rstr) : Z :=
  match best_match target disks with
  | Some d => Insight.to_f64 (available_space d)
  | None => match disks with d :: _ => Insight.to_f64 (available_space d) | [] => 0 end
  end.

Section Disks.
Context {U : Unicode} {S2 : Sha256} {HX : Hex}.

Definition volume_id (text : rstr) : option rstr := Some (take 16 (Delta.digest_hex (as_bytes text))).

Definition kind_of (removable : bool) (total : Z) (display_name : rstr) : rstr * list rstr :=
  if removable then (lit "usb", map lit ["backups"]%string)
  else if (2000000000000 <=? total) || contains_str (lit "hdd") (to_lowercase display_name)
  then (lit "hdd", map lit ["videos"; "backups"]%string)
  else (lit "ssd", map lit ["photos"; "documents"; "audio"]%string).

Definition offer (ffmpeg_available : bool) (d : Disk) : DiscoveredDisk :=
  let display_name := if nonempty (trim (disk_name d)) then disk_name d else lit "Disk (" ++ at_mount d ++ lit ")" in
  let '(type, categories) := kind_of (is_removable d) (total_space d) display_name in
  {| volume_uuid := volume_id (display_name ++ lit ":" ++ at_mount d); mount_point := at_mount d; name := display_name;
     fs_type := if nonempty (file_system d) then file_system d else lit "unknown"; total_capacity_bytes := total_space d;
     available_capacity_bytes := available_space d; disk_type := type; suggested_categories := categories;
     capabilities := host ffmpeg_available |}.

(** The disks with storage that the policy permits. *)
Definition physical (ffmpeg_available : bool) (allowed excluded : list rstr) (disks : list Disk) : list DiscoveredDisk :=
  map (offer ffmpeg_available)
    (List.filter (fun d => negb (total_space d =? 0) && permits allowed excluded (at_mount d)) disks).

Definition folder (ffmpeg_available : bool) (disks : list Disk) (custom_str : rstr) : DiscoveredDisk :=
  let available := Z.min u64_max (get_disk_free_gb disks custom_str) in
  {| volume_uuid := volume_id (lit "CustomDir:" ++ custom_str); mount_point := custom_str;
     name := lit "Storage Folder (" ++ custom_str ++ lit ")"; fs_type := lit "directory"; total_capacity_bytes := available;
     available_capacity_bytes := available; disk_type := lit "ssd"; suggested_categories := map lit ["photos"; "documents"]%string;
     capabilities := host ffmpeg_available |}.

Definition covered (clean_custom : rstr) (discovered : list DiscoveredDisk) : bool :=
  existsb (fun d => bool_decide (to_lowercase (no_slash (mount_point d)) = clean_custom)) discovered.

Context {O : Oracle}.
Context (cwd : Fs.path) (disks : list Disk).

(** The directories the allow-list names, exclusions notwithstanding. *)
Fixpoint folders (ffmpeg_available : bool) (allowed : list rstr) (discovered : list DiscoveredDisk)
  : M Machine (list DiscoveredDisk) :=
  match allowed with
  | [] => mret discovered
  | custom :: rest =>
      e ← Watcher.exists_ cwd custom;
      d ← (if e : bool then Watcher.is_dir cwd custom else mret false);
      let custom_str := trim custom in
      let clean_custom := to_lowercase (no_slash custom_str) in
      folders ffmpeg_available rest
        (if d && negb (covered clean_custom discovered) then discovered ++ [folder ffmpeg_available disks custom_str] else discovered)
  end.

Definition discover_physical_disks (ffmpeg_available : bool) (allowed excluded : list rstr) : M Machine (list DiscoveredDisk) :=
  folders ffmpeg_available allowed (physical ffmpeg_available allowed excluded disks).

(** ** The advertisement *)

Definition disk_json (d : DiscoveredDisk) : Value :=
  obj [("volume_uuid", opt_str (volume_uuid d)); ("mount_point", Str (mount_point d)); ("name", Str (name d));
       ("fs_type", Str (fs_type d)); ("total_capacity_bytes", Num (total_capacity_bytes d));
       ("available_capacity_bytes", Num (available_capacity_bytes d)); ("disk_type", Str (disk_type d));
       ("suggested_categories", Arr (map Str (suggested_categories d)));
       ("capabilities", obj [("ffmpeg", Bool (ffmpeg (capabilities d))); ("ocr", Bool (ocr (capabilities d)));
          ("tantivy", Bool (tantivy (capabilities d))); ("ollama", Bool (ollama (capabilities d)))])]%string.

Context {JT : JsonText}.
(** The control plane: a request by its number, address, token and body; an
    error of the client, or the status and the body of the answer. *)
Context (control_plane : nat -> rstr -> rstr -> rstr -> rstr + (Z * rstr)) (status_text : Z -> rstr).

Definition payload (device_id : rstr) (l : list DiscoveredDisk) : rstr :=
  json_print (obj [("device_id", Str device_id); ("disks", Arr (map disk_json l))]%string).

Definition advertise_storage_nodes (server_url auth_token device_id : rstr) (ffmpeg_available : bool) (allowed excluded : list rstr)
  : M Machine (list DiscoveredDisk) :=
  l ← discover_physical_disks ffmpeg_available allowed excluded;
  if negb (nonempty l) then mret l else
  let url := trim_end_by (Z.eqb (chr "/")) server_url ++ lit "/api/v1/agent/storage/advertise" in
  r ← interact (fun n => control_plane n url auth_token (payload device_id l));
  match r with
  | inl e => throw (Internal e)
  | inr (st, body) =>
      if (200 <=? st) && (st <? 300) then mret l
      else throw (Internal (lit "Storage advertisement failed (status " ++ status_text st ++ lit "): " ++ body))
  end.
End Disks.

(** ** The disk a path is on *)

Lemma better_spec target l best n :
  (forall d, best = Some d -> path_starts target (at_mount d) = true /\ n = str_len (at_mount d)) -> 0 <= n -> (best = None -> n = 0) ->
  let r := fold_left (better target) l (best, n) in
  (forall d, fst r = Some d -> path_starts target (at_mount d) = true /\ snd r = str_len (at_mount d) /\ (d ∈ l \/ best = Some d))
  /\ n <= snd r
  /\ (forall d, d ∈ l -> path_starts target (at_mount d) = true -> str_len (at_mount d) <= snd r /\ is_Some (fst r))
  /\ (is_Some best -> is_Some (fst r)).
Proof.
  cbv zeta. revert best n. induction l as [|x l IH]; intros best n B N Z0; cbn [fold_left].
  { cbn. split_and!; [|lia|intros d Hd; by apply not_elem_of_nil in Hd|done]. intros d E. destruct (B d E). auto. }
  assert (L0 : 0 <= str_len (at_mount x)) by (unfold str_len; lia).
  destruct (path_starts target (at_mount x)) eqn:P; [destruct (Z.leb_spec n (str_len (at_mount x))) as [L|L]|].
  - replace (better target (best, n) x) with (Some x, str_len (at_mount x))
      by (unfold better; rewrite P; cbn [snd]; cbv zeta; by replace (n <=? str_len (at_mount x)) with true by lia).
    destruct (IH (Some x) (str_len (at_mount x))) as (R1 & R2 & R3 & R4); [by intros d [= <-]|lia|done|].
    split_and!; [| |intros d [Ed|Hd]%elem_of_cons Pd; [subst d; split; [exact R2|by apply R4]|by apply R3]|intros _; by apply R4].
    + intros d E. destruct (R1 d E) as (? & ? & [?|[= <-]]); split_and!; try done; left; set_solver.
    + lia.
  - replace (better target (best, n) x) with (best, n)
      by (unfold better; rewrite P; cbn [snd]; cbv zeta; by replace (n <=? str_len (at_mount x)) with false by lia).
    destruct (IH best n B N Z0) as (R1 & R2 & R3 & R4).
    split_and!; [intros d E; destruct (R1 d E) as (? & ? & [?|?]); split_and!; try done; [left; set_solver|by right]|lia| |done].
    intros d [->|Hd]%elem_of_cons Pd; [|by apply R3]. split; [lia|]. apply R4. destruct best; [eauto|]. specialize (Z0 eq_refl). lia.
  - replace (better target (best, n) x) with (best, n) by (unfold better; by rewrite P).
    destruct (IH best n B N Z0) as (R1 & R2 & R3 & R4).
    split_and!; [intros d E; destruct (R1 d E) as (? & ? & [?|?]); split_and!; try done; [left; set_solver|by right]|lia| |done].
    intros d [->|Hd]%elem_of_cons Pd; [congruence|by apply R3].
Qed.

(** the disk of a path.  It is a disk whose mount the path is at or below,
    and none with such a mount has a longer one; there is none only when no
    mount is above the path. *)
Theorem best_match_longest target disks :
  match best_match target disks with
  | Some d => d ∈ disks /\ path_starts target (at_mount d) = true
      /\ forall d', d' ∈ disks -> path_starts target (at_mount d') = true -> str_len (at_mount d') <= str_len (at_mount d)
  | None => forall d, d ∈ disks -> path_starts target (at_mount d) = false
  end.
Proof.
  destruct (better_spec target disks None 0) as (R1 & _ & R3 & _); [done|lia|done|]. unfold best_match.
  destruct (fst (fold_left (better target) disks (None, 0))) as [d|] eqn:E.
  - destruct (R1 d eq_refl) as (P & L & [I|?]); [|done]. split_and!; [done|done|]. intros d' Hd Pd. rewrite <- L. by apply R3.
  - intros d Hd. destruct (path_starts target (at_mount d)) eqn:P; [|done]. destruct (R3 d Hd P) as [_ [x X]]. done.
Qed.

(** ** What is offered *)

Section Offers.
Context {U : Unicode} {S2 : Sha256} {HX : Hex} {O : Oracle}.
Context (cwd : Fs.path) (disks : list Disk).

(** A directory, by the name the policy has for it. *)
Definition directory (f : Fs.fs) (custom : rstr) : Prop :=
  exists q, place cwd custom = Some q /\ FsHandler.is_dir f q = true.

Lemma probe_true (g : Fs.fs -> Fs.path -> bool) p (w w' : World Machine) :
  probe cwd g p w = (Ok true, w') -> exists q, place cwd p = Some q /\ g (files (data w)) q = true.
Proof.
  unfold probe, unwrap_or, at_place, on_files, io. destruct (io_fault _); [by intros [= ]|].
  destruct (place cwd p) as [q|]; cbn; [|by intros [= ]]. intros [= E _]. eauto.
Qed.

Lemma probe_keeps (g : Fs.fs -> Fs.path -> bool) p (w : World Machine) o w' : probe cwd g p w = (o, w') -> data w' = data w.
Proof.
  unfold probe, unwrap_or, at_place, on_files, io. intros H. destruct (io_fault _); [by injection H as _ <-|].
  destruct (_ ≫= _); by injection H as _ <-.
Qed.

Lemma folders_spec ff allowed found w l w' :
  folders cwd disks ff allowed found w = (Ok l, w') ->
  data w' = data w /\ exists more, l = found ++ more
    /\ forall x, x ∈ more -> exists custom, custom ∈ allowed /\ directory (files (data w)) custom /\ x = folder ff disks (trim custom).
Proof.
  revert found w. induction allowed as [|c r IH]; intros found w H; cbn [folders] in H.
  { apply ret_Ok in H as [<- <-]. split; [done|]. exists []. rewrite app_nil_r. split; [done|]. intros x Hx. by apply not_elem_of_nil in Hx. }
  apply bind_Ok in H as (e & w1 & He & H). apply bind_Ok in H as (d & w2 & Hd & H). cbv zeta in H.
  assert (D2 : data w2 = data w /\ (d = true -> directory (files (data w)) c)).
  { apply probe_keeps in He. destruct e.
    - pose proof Hd as Hk. apply probe_keeps in Hk. split; [congruence|]. intros ->. unfold directory. rewrite <- He. by eapply probe_true.
    - apply ret_Ok in Hd as [<- <-]. done. }
  destruct D2 as [D2 Dd]. apply IH in H as (D & more & -> & M). rewrite D2 in *. split; [congruence|].
  assert (W : forall x, x ∈ more -> exists custom, custom ∈ c :: r /\ directory (files (data w)) custom /\ x = folder ff disks (trim custom)).
  { intros x Hx. destruct (M x Hx) as (c' & ? & ? & ->). exists c'. split; [by right|done]. }
  destruct (d && _) eqn:C; [|by exists more].
  exists (folder ff disks (trim c) :: more). rewrite <- app_assoc. split; [done|].
  intros x [->|Hx]%elem_of_cons; [|by apply W]. exists c. split; [by left|]. apply andb_true_iff in C as [-> _]. split; [by apply Dd|done].
Qed.

(** what an agent offers.  A disk is offered, as it is, exactly when it has
    storage and its mount passes the policy; and beyond these only directories
    the allow-list itself names are offered.  Looking changes nothing. *)
Theorem discover_spec ff allowed excluded w l w' :
  discover_physical_disks cwd disks ff allowed excluded w = (Ok l, w') ->
  data w' = data w
  /\ (forall d, d ∈ disks -> total_space d <> 0 -> permits allowed excluded (at_mount d) = true -> offer ff d ∈ l)
  /\ forall x, x ∈ l ->
       (exists d, d ∈ disks /\ total_space d <> 0 /\ permits allowed excluded (at_mount d) = true /\ x = offer ff d)
       \/ exists custom, custom ∈ allowed /\ directory (files (data w)) custom /\ x = folder ff disks (trim custom).
Proof.
  unfold discover_physical_disks. intros H. apply folders_spec in H as (D & more & -> & M). split; [done|].
  assert (P : forall d, d ∈ List.filter (fun d => negb (total_space d =? 0) && permits allowed excluded (at_mount d)) disks
    <-> d ∈ disks /\ total_space d <> 0 /\ permits allowed excluded (at_mount d) = true).
  { intros d. rewrite list_elem_of_In, filter_In, <- list_elem_of_In, andb_true_iff, negb_true_iff, Z.eqb_neq. done. }
  split.
  - intros d Hd T A. apply elem_of_app. left. apply list_elem_of_fmap. exists d. split; [done|]. by apply P.
  - intros x Hx. apply elem_of_app in Hx as [Hx|Hx]; [left|right; by apply M].
    apply list_elem_of_fmap in Hx as (d & -> & Hd). apply P in Hd as (? & ? & ?). by exists d.
Qed.
End Offers.

(** ** A machine with two disks *)

Definition demo_disk (mount : string) (free : Z) : Disk :=
  {| at_mount := lit mount; total_space := 1000; available_space := free; disk_name := []; file_system := lit "ext4";
     is_removable := false |}.
Definition demo_disks : list Disk := [demo_disk "/" 500; demo_disk "/data" 800].
Definition demo_files : Fs.fs := list_to_map [([lit "data"], Fs.Dir); ([lit "data"; lit "a"], Fs.Dir); ([lit "data"; lit "b"], Fs.Dir)].
Definition demo_world : World Machine := mkWorld (mkMachine demo_files (fun _ => None) [] [] 0) 0.

Definition demo_discover (allowed excluded : list string) : outcome (list DiscoveredDisk) * World Machine :=
  discover_physical_disks (O := toy_env []) (U := ascii_unicode) (S2 := toy_sha256) (HX := plain_hex) [] demo_disks false
    (map lit allowed) (map lit excluded) demo_world.

(** The disk /data is excluded; of the disk / and the directory /data/a, the
    allow-list names both. *)
Lemma discover_spec_witness :
  exists l w', demo_discover ["/"; "/data/a"]%string ["/data"]%string = (Ok l, w') /\ length l = 2%nat
    /\ offer (U := ascii_unicode) (S2 := toy_sha256) (HX := plain_hex) false (demo_disk "/" 500) ∈ l.
Proof.
  destruct (demo_discover ["/"; "/data/a"]%string ["/data"]%string) as [o w'] eqn:E.
  assert (K : o = fst (demo_discover ["/"; "/data/a"]%string ["/data"]%string)) by (by rewrite E).
  destruct o as [l|e|e|]; [|exfalso; revert K; vm_compute; discriminate..].
  exists l, w'. split; [done|]. split; [injection K as ->; vm_compute; reflexivity|].
  apply (discover_spec (O := toy_env []) (U := ascii_unicode) (S2 := toy_sha256) (HX := plain_hex) [] demo_disks false
           (map lit ["/"; "/data/a"]%string) (map lit ["/data"]%string) demo_world l w' E).
  - left.
  - vm_compute. discriminate.
  - vm_compute. reflexivity.
Defined.

(** An excluded volume is offered all the same when the allow-list names it,
    and two directories of one disk are each offered with all the space of
    the disk. *)
Lemma exclusions_bypassed :
  (exists l w', demo_discover ["/data/"]%string ["/data"]%string = (Ok l, w') /\ map mount_point l = [lit "/data/"])
  /\ exists l w', demo_discover ["/data/a"; "/data/b"]%string [] = (Ok l, w')
       /\ map mount_point l = [lit "/data/a"; lit "/data/b"] /\ map total_capacity_bytes l = [800; 800].
Proof.
  split.
  - eexists _, _. split; [vm_compute; reflexivity|vm_compute; reflexivity].
  - eexists _, _. split; [vm_compute; reflexivity|split; vm_compute; reflexivity].
Qed.
End Disks.
