(* ===== verification/Diagnostics.v ===== *)
(** * Diagnostics: the two doctors

    agent/src/doctor.rs, the check of a machine that is to be a node, and
    backend/crates/gateway/src/doctor.rs, what the gateway tells of its network.
    The addresses of the host, the resolver, the server that is probed and
    ffmpeg are parameters. *)

From S2P Require Import Prelude Text Bits Effects Externals Schema Fs Storage FsHandler Transcoder Delta LocalDb Utf8 Watcher Insight Config Disks.

Module Diagnostics.
Import Fs LocalDb.

(** ** Addresses *)

(** Ipv4Addr::from_str: up to three digits, and no zero before others. *)
Definition parse_octet (t : rstr) : option Z :=
  if forallb is_ascii_digit t && (length t <=? 3)%nat
     && negb ((1 <? length t)%nat && bool_decide (head t = Some (chr "0")))
  then parse_uint 10 255 t else None.

Definition parse_ipv4 (s : rstr) : option (Z * Z * Z * Z) :=
  match split_char (chr ".") s with
  | [t1; t2; t3; t4] =>
      a ← parse_octet t1; b ← parse_octet t2; c ← parse_octet t3; d ← parse_octet t4; Some (a, b, c, d)
  | _ => None
  end.

(** An address of version six is neither private nor of a carrier. *)
Definition is_private_ip_str (ip : rstr) : bool :=
  match parse_ipv4 ip with
  | Some (a, b, _, _) =>
      (a =? 10) || ((a =? 172) && (16 <=? b) && (b <=? 31)) || ((a =? 192) && (b =? 168)) || (a =? 127)
  | None => false
  end.

Definition is_cgnat_ip_str (ip : rstr) : bool :=
  match parse_ipv4 ip with
  | Some (a, b, _, _) => (a =? 100) && ((64 <=? b) && (b <=? 127))
  | None => false
  end.

(** The agent asks the text. *)
Definition is_cgnat_text (ip : rstr) : bool :=
  starts_with (lit "100.") ip
  && match split_char (chr ".") ip with
     | _ :: p :: _ => match parse_uint 10 255 p with Some b => (64 <=? b) && (b <=? 127) | None => false end
     | _ => false
     end.

Definition LOCALHOST : rstr := lit "127.0.0.1".

(** ** The agent's doctor *)

Record DoctorReport := {
  os : rstr; hostname : rstr; lan_ip : rstr; is_cgnat : bool; storage_writable : bool; storage_free : Z; dns_healthy : bool;
  control_plane_reachable : bool; control_plane_latency_ms : Z; ffmpeg_installed : bool; ffmpeg_hw_accel : list rstr }.

Definition ACCELS : list string := ["cuda"; "qsv"; "vaapi"; "videotoolbox"; "d3d11va"]%string.

Section Doctor.
Context {O : Oracle} {PR : Transcoder.Programs}.
(** The machine: its directory and disks, its name and systems, the address it
    has towards the world, whether it resolves a name; and the server probed,
    which answers a status after some milliseconds. *)
Context (cwd : path) (disks : list Disks.Disk) (host : option rstr) (system arch : rstr) (outward : option rstr) (resolves : bool)
  (health : nat -> rstr -> option (Z * Z)).

Definition run_program (program : string) (args : list string) : M Machine (rstr + Transcoder.Output) := fun w =>
  let '(r, f) := Transcoder.command (lit program) (map lit args) (files (data w)) in
  (Ok r, mkWorld (set_files f (data w)) (S (pos w))).

Definition check_ffmpeg : M Machine (bool * list rstr) :=
  r ← run_program "ffmpeg" ["-hwaccels"%string];
  mret (match r with
        | inr out =>
            if Transcoder.success out
            then (true, List.filter (fun l => existsb (fun a : string => bool_decide (l = lit a)) ACCELS)
                          (map trim (lines (Utf8.from_utf8_lossy (Transcoder.stdout out)))))
            else (false, [])
        | inl _ => (false, [])
        end).

Definition succeeds {A} (m : M Machine A) : M Machine bool := unwrap_or (_ ← m; mret true) false.

Definition TEST_FILE : rstr := lit ".pcos_doctor_write_test".

(** The write test leaves no file behind when it passes. *)
Definition writable (storage_path : rstr) : M Machine bool :=
  let test_file := Watcher.join_name storage_path TEST_FILE in
  wrote ← succeeds (Config.write_file cwd test_file (as_bytes (lit "PCOS_OK")));
  if wrote : bool then succeeds (Config.change_files (fun f => q ← place cwd test_file; Fs.remove_file f q)) else mret false.

Definition run_diagnostics (storage_path server_url : rstr) : M Machine DoctorReport :=
  let ip := default LOCALHOST outward in
  _ ← discard (Config.change_files (fun f => q ← place cwd storage_path; create_dir_all f q));
  storage_writable ← writable storage_path;
  probe ← interact (fun n => health n (trim_end_by (Z.eqb (chr "/")) server_url ++ lit "/health"));
  let '(reachable, latency) :=
    match probe with Some (st, ms) => if (200 <=? st) && (st <? 300) then (true, ms) else (false, 0) | None => (false, 0) end in
  '(ffmpeg_installed, ffmpeg_hw_accel) ← check_ffmpeg;
  mret {| os := system ++ lit " (" ++ arch ++ lit ")"; hostname := default (lit "Unknown") host; lan_ip := ip; is_cgnat := is_cgnat_text ip;
          storage_writable := storage_writable; storage_free := Disks.get_disk_free_gb disks storage_path; dns_healthy := resolves;
          control_plane_reachable := reachable; control_plane_latency_ms := latency; ffmpeg_installed := ffmpeg_installed;
          ffmpeg_hw_accel := ffmpeg_hw_accel |}.
End Doctor.

(** The free space is carried in bytes; [{:.2}] of it in units of 2^30. *)
Definition two_decimals (num den : Z) : rstr :=
  let t := Insight.half_even (100 * num) den in show_uint (t / 100) ++ lit "." ++ pad_zero 2 (show_uint (t mod 100)).

Definition RULE : rstr := lit "+------------------------------------------------------------+".

(** The lines of the report. *)
Definition print_report (r : DoctorReport) : list rstr :=
  [[]; RULE; lit "|                   PCOS NODE DOCTOR                         |"; RULE;
   lit "  Device Hostname : " ++ hostname r; lit "  Operating System: " ++ os r; lit "  Local LAN IP    : " ++ lan_ip r;
   lit "  CGNAT Status    : " ++ (if is_cgnat r then lit "DETECTED (RFC 6598) - WireGuard P2P Recommended" else lit "Direct Routing Active");
   lit "  Storage Status  : " ++ (if storage_writable r then lit "PASS (Read/Write verified)" else lit "FAIL (Storage directory not writable)");
   lit "  Free Storage    : " ++ two_decimals (storage_free r) (2 ^ 30) ++ lit " GB available";
   lit "  DNS Resolution  : " ++ (if dns_healthy r then lit "PASS (Healthy)" else lit "FAIL (DNS resolution failure)");
   lit "  Control Plane   : " ++ (if control_plane_reachable r
     then lit "CONNECTED (" ++ show_int (control_plane_latency_ms r) ++ lit "ms latency)" else lit "OFFLINE / UNREACHABLE");
   lit "  FFmpeg Engine   : " ++ (if ffmpeg_installed r then lit "INSTALLED (Video streaming active)" else lit "NOT FOUND (Transcoding limited)")]
  ++ (if nonempty (ffmpeg_hw_accel r) then [lit "  HW Acceleration : " ++ join (lit ", ") (ffmpeg_hw_accel r)] else [])
  ++ [RULE; []].

(** ** The gateway's *)

Record PortStatus := { http_port : Z; https_port : Z; wireguard_port : Z }.
Record ConnectivityDiagnostics := {
  c_lan_ip : rstr; c_hostname : rstr; is_private_ip : bool; c_is_cgnat : bool; tls_enabled : bool; active_connect_mode : rstr;
  recommended_provider : rstr; available_providers : list rstr; ports : PortStatus; storage_healthy : bool;
  database_healthy : bool; recommendations : list rstr }.

Section Gateway.
Context {O : Oracle}.
(** The environment, the address of the host towards the world, the directory of
    the storage and whether it is marked read-only. *)
Context (env_var : string -> option rstr) (outward : option rstr) (base : path) (readonly : bool).

Definition or_else {A} (a b : option A) : option A := match a with Some _ => a | None => b end.

(** The host of the address in the environment: no scheme, path or port. *)
Definition host_of (ip : rstr) : rstr :=
  let clean := trim_start_matches (lit "https://") (trim_start_matches (lit "http://") (trim ip)) in
  let host := default clean (head (split_char (chr "/") clean)) in
  default host (head (split_char (chr ":") host)).

Definition lan_address : rstr :=
  match or_else (env_var "PCOS_LAN_IP") (env_var "PCOS_SERVER_IP") with
  | Some s => if nonempty (trim s) then host_of s else default LOCALHOST outward
  | None => default LOCALHOST outward
  end.

Definition truthy (name : string) : bool :=
  match env_var name with Some v => bool_decide (v = lit "true") || bool_decide (v = lit "1") | None => false end.

Definition recommendation (mode : rstr) (cgnat tls : bool) : rstr * list rstr :=
  if bool_decide (mode = lit "lan_only") then (lit "LAN Only", [lit "Configured for LAN only. Remote access disabled."])
  else if cgnat then
    (lit "WireGuard / Headscale P2P",
     [lit "Carrier-Grade NAT (CGNAT) detected: Inbound ports are likely filtered by ISP.";
      lit "PCOS recommends WireGuard P2P (Headscale/NetBird) or Encrypted Relay Tunnel."])
  else if tls then
    (lit "Direct HTTPS", [lit "TLS domain configured: Direct HTTPS access is optimal for all remote clients."])
  else
    (lit "Automatic (Direct LAN + WireGuard Failover)",
     [lit "Zero-config automatic mode: Using Direct LAN when at home, WireGuard/Relay when remote."]).

Definition asks (f : Server -> bool) : M Server bool := unwrap_or (io (fun s => inr (f s, s))) false.

Definition get_connectivity_diagnostics : M Server ConnectivityDiagnostics :=
  let lan_ip := lan_address in
  let cgnat := is_cgnat_ip_str lan_ip || truthy "PCOS_CGNAT" in
  let tls := truthy "PCOS_TLS_ENABLED" || match env_var "PCOS_DOMAIN" with Some _ => true | None => false end in
  let mode := default (lit "automatic") (env_var "PCOS_CONNECT_MODE") in
  let '(provider, texts) := recommendation mode cgnat tls in
  database_healthy ← unwrap_or (query (fun _ => true)) false;
  there ← asks (fun s => path_exists (disk s) base);
  storage_healthy ← (if there : bool then asks (fun s => path_exists (disk s) base && negb readonly) else mret false);
  mret {| c_lan_ip := lan_ip; c_hostname := default (lit "pcos-server") (or_else (env_var "HOSTNAME") (env_var "COMPUTERNAME"));
          is_private_ip := is_private_ip_str lan_ip; c_is_cgnat := cgnat; tls_enabled := tls; active_connect_mode := mode;
          recommended_provider := provider;
          available_providers := map lit ["Direct LAN"; "Direct HTTPS"; "WireGuard / Headscale P2P"; "NetBird Mesh"; "Encrypted Relay Tunnel"]%string;
          ports := {| http_port := 80; https_port := 443; wireguard_port := 51820 |};
          storage_healthy := storage_healthy; database_healthy := database_healthy; recommendations := texts |}.
End Gateway.

(** ** The two tests for a carrier's address *)

Lemma octet_digits t n : parse_octet t = Some n -> digit_str t /\ (length t <= 3)%nat /\ (head t = Some (chr "0") -> length t = 1%nat)
  /\ t <> [] /\ n = digits_value t /\ parse_uint 10 255 t = Some n.
Proof.
  unfold parse_octet. destruct (_ && _ && _) eqn:C; [|done]. intros P. apply andb_true_iff in C as [C Z]. apply andb_true_iff in C as [D L].
  apply Nat.leb_le in L. assert (Dt : digit_str t).
  { apply Forall_forall. intros c Hc. rewrite forallb_forall in D. by apply D, list_elem_of_In. }
  assert (N : t <> []) by (by destruct t). split_and!; [done|done| |done| |done].
  - intros H. rewrite bool_decide_true in Z by done. rewrite andb_true_r in Z. apply negb_true_iff, Nat.ltb_ge in Z.
    destruct t; [done|]. cbn in *. lia.
  - assert (B : 0 <= digits_value t).
    { clear - Dt. unfold digits_value. assert (G : forall a, 0 <= a -> 0 <= fold_left (fun a c => a * 10 + (c - 48)) t a).
      { induction Dt as [|c t Hc _ IH]; intros a Ha; [done|]. cbn. apply IH. unfold is_ascii_digit in Hc. boolify. lia. }
      by apply G. }
    destruct t as [|c t]; [done|]. unfold parse_uint in P.
    assert (c <> chr "+") by (apply Forall_cons in Dt as [Hc _]; unfold is_ascii_digit in Hc; intros ->; by vm_compute in Hc).
    replace (c =? chr "+") with false in P by lia.
    assert (forall s acc m, parse_digits 10 255 acc s = Some m -> digit_str s -> m = fold_left (fun a c => a * 10 + (c - 48)) s acc) as G.
    { clear. induction s as [|c s IH]; intros acc m H D; cbn in *; [by injection H as <-|]. apply Forall_cons in D as [Hc D].
      assert (digit_val 10 c = Some (c - 48)) as E.
      { unfold digit_val. rewrite Hc. unfold is_ascii_digit in Hc. boolify. by replace (c - 48 <? 10) with true by lia. }
      rewrite E in H. destruct (255 <? _); [done|]. by apply IH. }
    by apply G in P.
Qed.

Lemma octet_hundred t : parse_octet t = Some 100 -> t = lit "100".
Proof.
  intros H. apply octet_digits in H as (D & L & Z & N & V & _). unfold digits_value in V.
  destruct t as [|x [|y [|z [|]]]]; [done| | | |cbn in L; lia]; repeat (apply Forall_cons in D as [? D]); unfold is_ascii_digit in *; boolify; cbn in V;
    [lia|lia|]. assert (x = 49 /\ y = 48 /\ z = 48) as (-> & -> & ->) by lia. reflexivity.
Qed.

(** the two doctors agree.  On the text of an address of version four, the
    agent's test of the text and the gateway's test of the octets are the same,
    and both are true exactly of the addresses of 100.64.0.0/10. *)
Theorem cgnat_tests_agree s a b c d : parse_ipv4 s = Some (a, b, c, d) ->
  is_cgnat_text s = is_cgnat_ip_str s
  /\ (is_cgnat_ip_str s = true <-> Z.shiftr (((a * 256 + b) * 256 + c) * 256 + d) 22 = Z.shiftr ((100 * 256 + 64) * 65536) 22).
Proof.
  intros P. unfold is_cgnat_text, is_cgnat_ip_str. rewrite P. unfold parse_ipv4 in P.
  destruct (split_char (chr ".") s) as [|t1 [|t2 [|t3 [|t4 [|]]]]] eqn:S; try done.
  destruct (parse_octet t1) as [a'|] eqn:E1; [|done]. destruct (parse_octet t2) as [b'|] eqn:E2; [|done].
  destruct (parse_octet t3) as [c'|] eqn:E3; [|done]. destruct (parse_octet t4) as [d'|] eqn:E4; [|done]. cbn in P. injection P as -> -> -> ->.
  assert (B : forall t n, parse_octet t = Some n -> 0 <= n <= 255).
  { intros t n H. apply octet_digits in H as (_ & _ & _ & _ & _ & H). eapply parse_uint_bound in H; lia. }
  pose proof (B _ _ E1). pose proof (B _ _ E2). pose proof (B _ _ E3). pose proof (B _ _ E4).
  apply octet_digits in E2 as (_ & _ & _ & _ & _ & E2). split.
  - rewrite E2. destruct (a =? 100) eqn:A; cbn [andb].
    + apply Z.eqb_eq in A. subst a. apply octet_hundred in E1. subst t1.
      assert (starts_with (lit "100.") s = true) as ->; [|done].
      rewrite <- (join_split (chr ".") s), S. apply starts_with_iff. eexists. reflexivity.
    + destruct (starts_with (lit "100.") s) eqn:W; [|done]. exfalso. apply starts_with_iff in W as [r ->].
      change (lit "100." ++ r) with (lit "100" ++ chr "." :: r) in S.
      rewrite split_char_app in S by (apply (bool_decide_eq_true_1 _); reflexivity). injection S as <- _.
      vm_compute in E1. injection E1 as <-. discriminate A.
  - rewrite !Z.shiftr_div_pow2 by lia. change ((100 * 256 + 64) * 65536 / 2 ^ 22) with 401. change (2 ^ 22) with 4194304.
    split; intros X; boolify; [Z.to_euclidean_division_equations; lia|]. assert (a = 100 /\ 64 <= b <= 127) by (Z.to_euclidean_division_equations; lia). lia.
Qed.

(** ** The write test *)

Section Writing.
Context {O : Oracle} {PR : Transcoder.Programs}.
Context (cwd : path) (disks : list Disks.Disk) (host : option rstr) (system arch : rstr) (outward : option rstr) (resolves : bool)
  (health : nat -> rstr -> option (Z * Z)).

Lemma succeeds_run {A} (m : M Machine A) w a w' : m w = (Ok a, w') -> succeeds m w = (Ok true, w').
Proof. intros E. unfold succeeds, unwrap_or, mbind, M_bind. by rewrite E. Qed.

Lemma discard_run {A} (m : M Machine A) w a w' : m w = (Ok a, w') -> discard m w = (Ok tt, w').
Proof. intros E. unfold discard, unwrap_or, mbind, M_bind. by rewrite E. Qed.

Lemma remove_file_ready f d c b : dir_ready f d -> plain c -> f !! (d ++ [c]) = Some (File b) ->
  Fs.remove_file f (d ++ [c]) = Some (delete (d ++ [c]) f).
Proof.
  intros R P E. unfold Fs.remove_file. rewrite entry_ready by done. by rewrite node_at_cons, E by (by destruct d).
Qed.

Lemma check_ffmpeg_run (w : World Machine) : (forall args f, snd (Transcoder.command (lit "ffmpeg") args f) = f) ->
  exists x w', check_ffmpeg w = (Ok x, w') /\ data w' = data w.
Proof.
  intros Q. unfold check_ffmpeg, run_program, mbind, M_bind. specialize (Q (map lit ["-hwaccels"%string]) (files (data w))).
  destruct (Transcoder.command _ _ _) as [r f]. cbn [snd] in Q. subst f. eexists _, _. split; [reflexivity|]. by destruct (data w).
Qed.

(** the write test.  With the environment answering, on a storage directory
    that is there or that nothing is in the way of, and where no file has the
    name of the test, the doctor reports the storage as writable, and leaves the
    disk as it was but for the directories it made. *)
Theorem doctor_leaves_no_trace storage url d w :
  reliable O -> (forall args f, snd (Transcoder.command (lit "ffmpeg") args f) = f) ->
  place cwd storage = Some d -> nonempty storage = true -> Forall plain d -> open_way (files (data w)) [] d ->
  files (data w) !! (d ++ [TEST_FILE]) = None ->
  exists r w', run_diagnostics cwd disks host system arch outward resolves health storage url w = (Ok r, w')
    /\ storage_writable r = true
    /\ forall p, files (data w') !! p = files (data w) !! p
                \/ files (data w) !! p = None /\ files (data w') !! p = Some Dir /\ exists a b, d = a ++ b /\ a <> [] /\ p = a.
Proof.
  intros R Q P N Pd W F.
  destruct (create_dirs_ready (files (data w)) [] d) as (f1 & C1 & D1 & S1); [split; [apply real_nil|done]|done|done|]. cbn [app] in *.
  assert (Pt : plain TEST_FILE) by (split; intros E; vm_compute in E; discriminate E).
  assert (Pj : place cwd (Watcher.join_name storage TEST_FILE) = Some (d ++ [TEST_FILE])).
  { destruct (Watcher.place_join cwd storage TEST_FILE d) as (q & [->| ->] & E); [|done|done|done|].
    - apply (bool_decide_eq_true_1 _). reflexivity.
    - exfalso. apply Forall_app in Pd as [_ Pd]. apply Forall_cons in Pd as [[Pd _] _]. done. }
  assert (F1 : f1 !! (d ++ [TEST_FILE]) = None).
  { destruct (S1 (d ++ [TEST_FILE])) as [->|(_ & _ & a & b & E & _ & E')]; [done|]. exfalso. subst d.
    apply (f_equal length) in E'. rewrite !length_app in E'. cbn in E'. lia. }
  set (w1 := mkWorld (set_files f1 (data w)) (S (pos w))).
  destruct (Config.write_file_run cwd _ d TEST_FILE (as_bytes (lit "PCOS_OK")) w1 R Pj) as (w2 & E2 & F2); [done|done|by left|]. cbn [data files set_files] in F2.
  set (w3 := mkWorld (set_files f1 (data w2)) (S (pos w2))).
  assert (E3 : Config.change_files (fun f => q ← place cwd (Watcher.join_name storage TEST_FILE); Fs.remove_file f q) w2 = (Ok tt, w3)).
  { apply Config.change_files_run; [done|]. rewrite Pj. cbn [mbind option_bind]. rewrite F2, (remove_file_ready _ _ _ (as_bytes (lit "PCOS_OK"))).
    - by rewrite delete_insert_id.
    - by apply dir_ready_file.
    - done.
    - apply lookup_insert_eq. }
  destruct (check_ffmpeg_run (mkWorld (data w3) (S (pos w3))) Q) as ([ff accel] & w5 & E5 & F5).
  destruct (match health (pos w3) (trim_end_by (Z.eqb (chr "/")) url ++ lit "/health") with
            | Some (st, ms) => if (200 <=? st) && (st <? 300) then (true, ms) else (false, 0)
            | None => (false, 0)
            end) as [re la] eqn:Eh.
  unfold run_diagnostics. cbv zeta. eexists _, _. split.
  - eapply bind_run; [eapply discard_run, Config.change_files_run; [done|]; rewrite P; exact C1|].
    eapply bind_run; [unfold writable; eapply bind_run; [eapply succeeds_run; exact E2|cbv beta iota; eapply succeeds_run; exact E3]|].
    eapply bind_run; [reflexivity|]. rewrite Eh.
    eapply bind_run; [exact E5|reflexivity].
  - split; [reflexivity|]. rewrite F5. exact S1.
Qed.
End Writing.

(** ** Instances *)

Definition quiet_ffmpeg : Transcoder.Programs :=
  {| Transcoder.command _ _ f := (inr {| Transcoder.success := true; Transcoder.stdout := as_bytes (lit "Hardware acceleration methods:" ++ [10] ++ lit "cuda" ++ [10] ++ lit " vaapi");
       Transcoder.stderr := [] |}, f);
     Transcoder.from_utf8_lossy b := b; Transcoder.from_slice _ := inl []; Transcoder.parse_f64 _ := None; Transcoder.two_decimals s := s |}.

Lemma doctor_leaves_no_trace_witness : exists r w',
  run_diagnostics (O := toy_env []) (PR := quiet_ffmpeg) [] Disks.demo_disks None (lit "linux") (lit "x86_64") (Some (lit "100.70.1.2")) true
    (fun _ _ => None) (lit "/home/pcos") (lit "https://h/") Config.demo_world = (Ok r, w')
  /\ storage_writable r = true /\ files (data w') !! [lit "home"] = Some Dir.
Proof.
  destruct (doctor_leaves_no_trace (O := toy_env []) (PR := quiet_ffmpeg) [] Disks.demo_disks None (lit "linux") (lit "x86_64")
    (Some (lit "100.70.1.2")) true (fun _ _ => None) (lit "/home/pcos") (lit "https://h/") [lit "home"; lit "pcos"] Config.demo_world)
    as (r & w' & E & S & F).
  - exact toy_env_reliable.
  - reflexivity.
  - vm_compute. reflexivity.
  - reflexivity.
  - repeat constructor; intros E; vm_compute in E; discriminate E.
  - apply open_way_two; vm_compute; reflexivity.
  - vm_compute. reflexivity.
  - exists r, w'. split; [exact E|]. split; [exact S|]. destruct (F [lit "home"]) as [G|(G & _)]; rewrite ?G; vm_compute; [reflexivity|vm_compute in G; discriminate G].
Defined.

(** 100.127.0.1 is an address of a carrier, 100.128.0.1 is not. *)
Lemma cgnat_tests_witness : is_cgnat_text (lit "100.127.0.1") = true.
Proof.
  destruct (cgnat_tests_agree (lit "100.127.0.1") 100 127 0 1) as [-> H].
  - vm_compute. reflexivity.
  - apply H. vm_compute. reflexivity.
Defined.

(** Whoever asks is told the name and the address of the host; an address of
    version six in the environment is cut at its first colon. *)
Lemma diagnostics_disclose : exists r w', get_connectivity_diagnostics (O := toy_env [])
    (fun n => if String.eqb n "PCOS_LAN_IP" then Some (lit "http://[fd00::5]:8080/") else if String.eqb n "HOSTNAME" then Some (lit "box") else None)
    None [] false (mkWorld empty_server 0) = (Ok r, w') /\ c_hostname r = lit "box" /\ c_lan_ip r = lit "[fd00".
Proof. eexists _, _. split; [vm_compute; reflexivity|split; vm_compute; reflexivity]. Qed.
End Diagnostics.
