(* ===== verification/Outbound.v ===== *)
(** * Outbound: what an agent tells the control plane of itself

    agent/src/connection_manager.rs beside the commands of Tunnel.v: the route
    to another node, the address of the tunnel, and the task that advertises the
    disks and sends heartbeats.  The control plane and the nodes of the local
    network are parameters. *)

From S2P Require Import Prelude Text Effects Externals Fs Storage FsHandler Transcoder Delta Json LocalDb Watcher Disks Diagnostics Codec Config.

Module Outbound.
Import Json LocalDb.

Record RouteResolution := {
  is_online : bool; recommended_route : rstr; lan_ip : option rstr; public_ip : option rstr; wireguard_pubkey : option rstr;
  relay_endpoint : option rstr }.

Record ConnectionManager := {
  server_url : rstr; device_id : rstr; user_id : rstr; auth_token : rstr; storage_path : rstr; allowed_disks : list rstr;
  excluded_disks : list rstr }.

(** ** Serialize and Deserialize *)

Definition ROUTE : list string :=
  ["is_online"; "recommended_route"; "lan_ip"; "public_ip"; "wireguard_pubkey"; "relay_endpoint"]%string.

Definition as_bool (v : Value) : option bool := match v with Bool b => Some b | _ => None end.
Definition opt_text (o : option Value) : option (option rstr) :=
  match o with None | Some Null => Some None | Some v => option_map Some (as_str v) end.

(** A field of the struct that comes twice is an error, another is passed over. *)
Definition route_of (v : Value) : option RouteResolution :=
  let known k := existsb (fun n : string => bool_decide (lit n = k)) ROUTE in
  let shape := match v with
               | Obj l => bool_decide (base.NoDup (List.filter known (map fst l)))
               | Arr l => (length l =? 6)%nat
               | _ => false
               end in
  let at_ (i : nat) (k : string) := match v with Arr l => l !! i | _ => get k v end in
  if negb shape then None else
  o ← at_ 0%nat "is_online"%string ≫= as_bool;
  r ← at_ 1%nat "recommended_route"%string ≫= as_str;
  l ← opt_text (at_ 2%nat "lan_ip"%string);
  p ← opt_text (at_ 3%nat "public_ip"%string);
  w ← opt_text (at_ 4%nat "wireguard_pubkey"%string);
  e ← opt_text (at_ 5%nat "relay_endpoint"%string);
  Some {| is_online := o; recommended_route := r; lan_ip := l; public_ip := p; wireguard_pubkey := w; relay_endpoint := e |}.

Definition route_json (r : RouteResolution) : Value :=
  obj [("is_online", Bool (is_online r)); ("recommended_route", Str (recommended_route r)); ("lan_ip", opt_str (lan_ip r));
       ("public_ip", opt_str (public_ip r)); ("wireguard_pubkey", opt_str (wireguard_pubkey r));
       ("relay_endpoint", opt_str (relay_endpoint r))]%string.

(** str::replace of a text that is not empty. *)
Fixpoint replace_all (fuel : nat) (from to s : rstr) : rstr :=
  match fuel, s with
  | S k, c :: r => match strip_prefix from s with
                   | Some rest => to ++ replace_all k from to rest
                   | None => c :: replace_all k from to r
                   end
  | _, _ => s
  end.
Definition replace (from to : string) (s : rstr) : rstr := replace_all (S (length s)) (lit from) (lit to) s.

(** The address of the tunnel, with the token in it. *)
Definition connect_endpoint (cm : ConnectionManager) : rstr :=
  let ws_url := if starts_with (lit "https://") (server_url cm) then replace "https://" "wss://" (server_url cm)
                else replace "http://" "ws://" (server_url cm) in
  let endpoint := ws_url ++ lit "/ws/presence?deviceId=" ++ device_id cm in
  if nonempty (auth_token cm) then endpoint ++ lit "&token=" ++ auth_token cm else endpoint.

Section Outbound.
Context {O : Oracle} {U : Unicode} {S2 : Sha256} {HX : Hex} {JT : JsonText} {PR : Transcoder.Programs}.
Context (cwd : Fs.path) (disks : list Disks.Disk) (hostname outward : option rstr) (json_error : rstr -> rstr) (status_text : Z -> rstr).
(** A request, by its number, its address, its token and its body: an error of
    the client, or the status and the body of the answer. *)
Context (net : nat -> rstr -> option rstr -> option rstr -> rstr + (Z * rstr)).

Definition discover_host_lan_ip : rstr := default (lit "127.0.0.1") outward.

Definition success (st : Z) : bool := (200 <=? st) && (st <? 300).

(** ** The route to a node *)

(** The probe of an address of the local network: its answer only says what is
    logged. *)
Definition resolve_route (cm : ConnectionManager) (client_error : option rstr) (peer_device_id : rstr) : M Machine RouteResolution :=
  match client_error with
  | Some e => throw (Internal e)
  | None =>
      r ← interact (fun n => net n (server_url cm ++ lit "/api/v1/devices/resolve/" ++ peer_device_id ++ lit "?callerLanIp=" ++ discover_host_lan_ip)
                               (Some (auth_token cm)) None);
      match r with
      | inl e => throw (Internal e)
      | inr (st, body) =>
          if negb (success st) then throw (Internal (lit "Route resolution failed with status: " ++ status_text st)) else
          resolution ← ok_or (json_parse body ≫= route_of) (Internal (json_error body));
          match (if bool_decide (recommended_route resolution = lit "LAN") then lan_ip resolution else None) with
          | Some target_ip =>
              ping ← interact (fun n => net n (lit "http://" ++ target_ip ++ lit ":8080/health") None None);
              match ping with
              | inr (ping_status, _) => if success ping_status then mret resolution else mret resolution
              | inl _ => mret resolution
              end
          | None => mret resolution
          end
      end
  end.

(** ** The heartbeat *)

Definition heartbeat_payload (cm : ConnectionManager) : rstr :=
  json_print (obj [("deviceId", Str (device_id cm)); ("userId", Str (user_id cm)); ("name", Str (default (lit "PCOS Node") hostname));
    ("deviceType", Str (lit "desktop")); ("lanIp", Str discover_host_lan_ip)]%string).

(** One turn of the task; [count] is a usize. *)
Definition beat (cm : ConnectionManager) (count : Z) : M Machine Z :=
  _ ← (if count mod 10 =? 0 then
         '(ffmpeg_ok, _) ← Diagnostics.check_ffmpeg;
         discard (Disks.advertise_storage_nodes cwd disks (fun n url token body => net n url (Some token) (Some body)) status_text
                    (server_url cm) (auth_token cm) (device_id cm) ffmpeg_ok (allowed_disks cm) (excluded_disks cm))
       else mret tt);
  _ ← interact (fun n => net n (server_url cm ++ lit "/api/v1/devices/" ++ device_id cm ++ lit "/heartbeat") (Some (auth_token cm))
                           (Some (heartbeat_payload cm)));
  mret (wrap_u64 (count + 1)).

Fixpoint beats (cm : ConnectionManager) (turns : nat) (count : Z) : M Machine Z :=
  match turns with
  | 0%nat => mret count
  | S k => n ← beat cm count; beats cm k n
  end.
End Outbound.

(** ** A resolution and its text *)

Lemma route_of_json r : route_of (route_json r) = Some r.
Proof.
  destruct r as [o n [l|] [p|] [k|] [e|]]; vm_compute; reflexivity.
Qed.

Section Facts.
Context {O : Oracle} {U : Unicode} {S2 : Sha256} {HX : Hex} {JT : JsonText} {PR : Transcoder.Programs}.
Context (cwd : Fs.path) (disks : list Disks.Disk) (hostname outward : option rstr) (json_error : rstr -> rstr) (status_text : Z -> rstr).
Context (net : nat -> rstr -> option rstr -> option rstr -> rstr + (Z * rstr)).

(** the route to a node.  With a control plane that answers a resolution, the
    agent returns it as it is, whatever the node on the local network answers to
    the probe; nothing but the probe is asked, and nothing changes. *)
Theorem resolve_route_spec cm peer st r w :
  json_parse (json_print (route_json r)) = Some (route_json r) ->
  net (pos w) (server_url cm ++ lit "/api/v1/devices/resolve/" ++ peer ++ lit "?callerLanIp=" ++ discover_host_lan_ip outward)
      (Some (auth_token cm)) None = inr (st, json_print (route_json r)) ->
  exists w', resolve_route outward json_error status_text net cm None peer w =
             ((if success st then Ok r else Err (Internal (lit "Route resolution failed with status: " ++ status_text st))), w')
    /\ data w' = data w
    /\ pos w' = if success st && bool_decide (recommended_route r = lit "LAN") && bool_decide (is_Some (lan_ip r)) then S (S (pos w)) else S (pos w).
Proof.
  intros J N. unfold resolve_route, mbind, M_bind, interact at 1. rewrite N.
  destruct (success st); cbn [negb andb]; [|eexists; split_and!; reflexivity]. rewrite J. cbn [mbind option_bind].
  rewrite route_of_json. unfold ok_or, mret, M_ret.
  destruct (bool_decide (recommended_route r = lit "LAN")); cbn [andb]; [|eexists; split_and!; reflexivity].
  destruct (lan_ip r) as [a|]; [|eexists; split_and!; reflexivity].
  rewrite bool_decide_true by eauto. unfold interact. cbn [data pos]. destruct (net (S _) _ _ _) as [e|[s b]]; [eexists; split_and!; reflexivity|].
  destruct (success s); eexists; split_and!; reflexivity.
Qed.

(** A computation that ends well or in an error, and leaves its state. *)
Definition calm {A} (m : M Machine A) : Prop :=
  forall w, data (snd (m w)) = data w /\ ((exists a, fst (m w) = Ok a) \/ exists e, fst (m w) = Err e).

Lemma calm_ret {A} (a : A) : calm (mret a).
Proof. intros w. cbn. eauto. Qed.
Lemma calm_throw {A} e : calm (throw e : M Machine A).
Proof. intros w. cbn. eauto. Qed.
Lemma calm_interact {A} (f : nat -> A) : calm (interact f).
Proof. intros w. cbn. eauto. Qed.
Lemma calm_bind {A B} (m : M Machine A) (k : A -> M Machine B) : calm m -> (forall a, calm (k a)) -> calm (mbind k m).
Proof.
  intros C K w. unfold mbind, M_bind. destruct (C w) as [D E]. destruct (m w) as [[a|e| |] w1]; cbn in *; [|by eauto|naive_solver..].
  destruct (K a w1) as [D1 E1]. by rewrite D1.
Qed.
Lemma calm_unwrap {A} (m : M Machine A) a : calm m -> calm (unwrap_or m a).
Proof.
  intros C w. unfold unwrap_or. destruct (C w) as [D E]. destruct (m w) as [[b|e| |] w1]; cbn in *; naive_solver.
Qed.
Lemma calm_probe g p : calm (LocalDb.probe cwd g p).
Proof.
  apply calm_unwrap. intros w. unfold at_place, on_files, io. destruct (io_fault _); [cbn; eauto|]. destruct (_ ≫= _); cbn; eauto.
Qed.

Lemma calm_folders ff allowed found : calm (Disks.folders cwd disks ff allowed found).
Proof.
  revert found. induction allowed as [|c l IH]; intros found; [apply calm_ret|]. cbn [Disks.folders].
  apply calm_bind; [apply calm_probe|]. intros []; [apply calm_bind; [apply calm_probe|intros d; apply IH]|apply calm_bind; [apply calm_ret|intros d; apply IH]].
Qed.

Lemma calm_advertise cp url token dev ff allowed excluded :
  calm (Disks.advertise_storage_nodes cwd disks cp status_text url token dev ff allowed excluded).
Proof.
  unfold Disks.advertise_storage_nodes. apply calm_bind; [apply calm_folders|]. intros l. destruct (negb _); [apply calm_ret|]. cbv zeta.
  apply calm_bind; [apply calm_interact|]. intros [e|[s b]]; [apply calm_throw|]. destruct (_ && _); [apply calm_ret|apply calm_throw].
Qed.

Lemma discard_calm {A} (m : M Machine A) w : calm m -> exists n, discard m w = (Ok tt, mkWorld (data w) n).
Proof.
  intros C. unfold discard, unwrap_or, mbind, M_bind. destruct (C w) as [D E]. destruct (m w) as [[a|e| |] [d n]]; cbn in *; subst d; [eauto|eauto|naive_solver..].
Qed.

(** the heartbeats.  Whatever the control plane and the disk answer, the task
    goes on: any number of turns ends with the count advanced by as many, and
    with the machine as it was. *)
Theorem heartbeats_go_on cm turns count w :
  (forall args f, snd (Transcoder.command (lit "ffmpeg") args f) = f) -> is_u64 count ->
  exists w', beats cwd disks hostname outward status_text net cm turns count w = (Ok (wrap_u64 (count + Z.of_nat turns)), w')
    /\ data w' = data w.
Proof.
  intros Q. revert count w. induction turns as [|k IH]; intros count w U64.
  { exists w. split; [|done]. cbn. unfold wrap_u64, is_u64, u64_max in *. rewrite Z.add_0_r, Z.mod_small by lia. done. }
  assert (B : exists n, beat cwd disks hostname outward status_text net cm count w = (Ok (wrap_u64 (count + 1)), mkWorld (data w) n)).
  { unfold beat. destruct (count mod 10 =? 0); [|eexists; reflexivity].
    destruct (Diagnostics.check_ffmpeg_run w Q) as ([ff ac] & w1 & E & D).
    destruct (discard_calm _ w1 (calm_advertise (fun n url token body => net n url (Some token) (Some body)) (server_url cm) (auth_token cm)
      (device_id cm) ff (allowed_disks cm) (excluded_disks cm))) as [n A]. rewrite D in A.
    eexists. eapply bind_run; [eapply bind_run; [exact E|exact A]|]. reflexivity. }
  destruct B as [n B]. destruct (IH (wrap_u64 (count + 1)) (mkWorld (data w) n)) as (w' & E & D).
  { unfold wrap_u64, is_u64, u64_max. pose proof (Z.mod_pos_bound (count + 1) (2 ^ 64)). lia. }
  exists w'. split; [|done]. cbn [beats]. eapply bind_run; [exact B|]. rewrite E. do 2 f_equal.
  unfold wrap_u64. rewrite Zplus_mod_idemp_l. f_equal. lia.
Qed.
End Facts.

(** ** Instances *)

Definition demo_cm : ConnectionManager :=
  {| server_url := lit "https://h"; device_id := lit "d"; user_id := lit "u"; auth_token := lit "t"; storage_path := lit "/data";
     allowed_disks := []; excluded_disks := [] |}.

Definition demo_route : RouteResolution :=
  {| is_online := true; recommended_route := lit "LAN"; lan_ip := Some (lit "192.168.1.7"); public_ip := None; wireguard_pubkey := None;
     relay_endpoint := Some (lit "https://relay") |}.

(** The control plane recommends the local network, where nobody answers. *)
Definition demo_net (n : nat) (url : rstr) (token body : option rstr) : rstr + (Z * rstr) :=
  if starts_with (lit "https://h/") url then inr (200, Codec.exact_json.(json_print) (route_json demo_route)) else inl (lit "timed out").

(** The agent still goes by the local network. *)
Lemma resolve_route_witness : exists w',
  resolve_route (JT := Codec.exact_json) None (fun _ => []) show_int demo_net demo_cm None (lit "p") Config.demo_world = (Ok demo_route, w')
  /\ pos w' = 2%nat.
Proof.
  destruct (resolve_route_spec (JT := Codec.exact_json) None (fun _ => []) show_int demo_net demo_cm (lit "p") 200 demo_route
    Config.demo_world) as (w' & E & _ & P).
  - apply Codec.exact_reads_back.
  - vm_compute. reflexivity.
  - exists w'. split; [exact E|exact P].
Defined.

Lemma heartbeats_witness : exists w',
  beats (O := toy_env []) (U := ascii_unicode) (S2 := toy_sha256) (HX := plain_hex) (JT := Codec.exact_json) (PR := Diagnostics.quiet_ffmpeg)
    [] Disks.demo_disks None None show_int demo_net demo_cm 3 (2 ^ 64 - 2) Config.demo_world = (Ok 1, w').
Proof.
  destruct (heartbeats_go_on (O := toy_env []) (U := ascii_unicode) (S2 := toy_sha256) (HX := plain_hex) (JT := Codec.exact_json)
    (PR := Diagnostics.quiet_ffmpeg) [] Disks.demo_disks None None show_int demo_net demo_cm 3 (2 ^ 64 - 2) Config.demo_world) as (w' & E & _).
  - reflexivity.
  - unfold is_u64. lia.
  - exists w'. exact E.
Defined.

(** The token of the agent is in the address of the tunnel. *)
Lemma endpoint_has_token : connect_endpoint demo_cm = lit "wss://h/ws/presence?deviceId=d&token=t".
Proof. vm_compute. reflexivity. Qed.
End Outbound.
