(* ===== verification/Agent.v ===== *)
(** * Agent: the agent as a program

    agent/src/main.rs: the command line, the first pairing, and the tasks the
    daemon starts, each with its part of the configuration.  What the user types
    is a parameter; what is only printed is left out, but for the answer of the
    status and of the doctor. *)

From S2P Require Import Prelude Text Bits Tables Effects Externals Schema Token Auth Pairing Device Fs Storage FsHandler Transcoder Delta Json Utf8 Lan LanServer Codec LocalDb Watcher Config Uploads AgentSync Enroll Disks Diagnostics Outbound Discovery.

Module Agent.
Import Config Json LocalDb Devices AgentSync.

(** ** The command line *)

Inductive Commands :=
| Enroll (code code_flag : option rstr) (server : rstr) (start : bool)
| Doctor (storage server : rstr)
| Start (daemon : bool)
| Status.

Record Cli := { config_file : rstr; daemon : bool; register : bool; status : bool; command : option Commands }.

(** The home directory, or none. *)
Definition shellexpand (home : option rstr) (p : rstr) : rstr :=
  match p, home with
  | c :: r, Some h => if c =? chr "~" then h ++ r else p
  | _, _ => p
  end.

Definition detect_device_type (os : rstr) : rstr :=
  if bool_decide (os = lit "android") || bool_decide (os = lit "ios") then lit "phone" else lit "desktop".

(** [{:?}] of a list of texts is a parameter. *)
Definition print_status (debug : list rstr -> rstr) (agent_version : rstr) (c : AgentConfig) (s : DbStats) : list rstr :=
  [lit "PCOS Agent v" ++ agent_version; lit "Server: " ++ Config.server_url c;
   lit "Device ID: " ++ (if nonempty (Config.device_id c) then Config.device_id c else lit "Not Enrolled");
   lit "Data dir: " ++ data_dir c; lit "Sync folders: " ++ show_uint (Z.of_nat (length (sync_folders c)))]
  ++ map (fun f => lit "  - " ++ f) (sync_folders c)
  ++ (if nonempty (Config.allowed_disks c) then [lit "Allowed storage disks: " ++ debug (Config.allowed_disks c)] else [])
  ++ (if nonempty (Config.excluded_disks c) then [lit "Excluded storage disks: " ++ debug (Config.excluded_disks c)] else [])
  ++ [lit "Cached files: " ++ show_int (total_files s); lit "Pending sync: " ++ show_int (pending_sync s)].

(** ** The daemon *)

Record Daemon := {
  watched : list rstr; synced_with : AgentConfig; manager : Outbound.ConnectionManager; lan : LanServer.LanServerConfig;
  discovery : Discovery.LanDiscovery }.

(** [lan_port] is the port the LAN server is bound to, when it could start. *)
Definition daemon_of (lan_port : option Z) (c : AgentConfig) : Daemon :=
  {| watched := sync_folders c; synced_with := c;
     manager := {| Outbound.server_url := Config.server_url c; Outbound.device_id := Config.device_id c; Outbound.user_id := Config.user_id c;
                   Outbound.auth_token := Config.auth_token c; Outbound.storage_path := data_dir c;
                   Outbound.allowed_disks := Config.allowed_disks c; Outbound.excluded_disks := Config.excluded_disks c |};
     lan := {| LanServer.device_id := Config.device_id c; LanServer.auth_token := Config.auth_token c; LanServer.preferred_port := 8080;
               LanServer.allowed_disks := Config.allowed_disks c |};
     discovery := Discovery.new (Config.device_id c) (default 8080 lan_port) |}.

(** How a run ends: without more to tell, with an answer, or with the tasks that
    run until it is interrupted. *)
Inductive Exit := Done | Shown (l : list rstr) | Running (d : Daemon).

(** ** Registration, at the server *)

Definition REGISTER : list string := ["name"; "device_type"; "os"; "os_version"; "agent_version"]%string.

Definition register_of (v : Value) : option RegisterDeviceRequest :=
  let known k := existsb (fun n : string => bool_decide (lit n = k)) REGISTER in
  let shape := match v with
               | Obj l => bool_decide (base.NoDup (List.filter known (map fst l)))
               | Arr l => (length l =? 5)%nat
               | _ => false
               end in
  let at_ (i : nat) (k : string) := match v with Arr l => l !! i | _ => get k v end in
  if negb shape then None else
  n ← at_ 0%nat "name"%string ≫= as_str;
  y ← at_ 1%nat "device_type"%string ≫= as_str;
  o ← at_ 2%nat "os"%string ≫= as_str;
  ov ← at_ 3%nat "os_version"%string ≫= as_str;
  a ← at_ 4%nat "agent_version"%string ≫= as_str;
  Some {| reg_name := n; reg_type := y; reg_os := o; reg_os_version := ov; reg_agent_version := a |}.

Section Agent.
Context {O : Oracle} {CH : Chrono} {JW : Token.JsonWebToken} {U : Unicode} {S2 : Sha256} {HX : Hex} {UT : UuidText} {JT : JsonText}
  {TX : Texts} {HV : HttpValues} {PR : Transcoder.Programs}.
(** The machine and the account of the user on it. *)
Context (cwd : Fs.path) (disks : list Disks.Disk) (hostname : option rstr) (os arch agent_version : rstr)
  (home data_home server_env outward : option rstr) (resolves : bool) (lan_port : option Z).
(** What is typed, the library texts, and the servers. *)
Context (input : nat -> rstr + rstr) (debug : list rstr -> rstr) (json_error : rstr -> rstr) (client_error : option rstr)
  (config : Token.AuthConfig) (validation_text : list string -> rstr) (json_rejection : rstr) (show_time status_text : Z -> rstr)
  (query_code : rstr -> option rstr) (meanwhile : nat -> Server -> Server) (health : nat -> rstr -> option (Z * Z)).

Definition load (p : rstr) : M Both AgentConfig := on_machine (load_or_create cwd data_home server_env json_error p).

Definition enroll (code server p : rstr) : M Both unit :=
  Enroll.enroll_node_with_code cwd hostname os agent_version home data_home server_env json_error client_error config validation_text
    json_rejection show_time status_text query_code meanwhile code server p.

(** The code the user types. *)
Definition ask : M Both rstr :=
  r ← interact input;
  match r with
  | inl e => throw (Internal e)
  | inr line => if nonempty (trim line) then mret (trim line)
                else throw (Internal (lit "Pairing cancelled: no pairing code entered."))
  end.

Definition register_handler (token body : rstr) : M Server Reply :=
  authorized token config (fun u =>
    match json_parse body with
    | None => mret {| reply_status := 400; reply_body := json_rejection |}
    | Some v => match register_of v with
                | None => mret {| reply_status := 422; reply_body := json_rejection |}
                | Some req =>
                    device ← register_device_handler validation_text u req;
                    mret {| reply_status := 201; reply_body := json_print (Enroll.device_json show_time device) |}
                end
    end).

Definition register_payload : rstr :=
  json_print (obj [("name", Str (default (lit "Unknown Device") hostname)); ("device_type", Str (detect_device_type os)); ("os", Str os);
    ("os_version", Str []); ("agent_version", Str agent_version)]%string).

(** The id of the answer is only logged. *)
Definition register_device (c : AgentConfig) : M Both Exit :=
  resp ← post (Config.auth_token c) (register_handler (Config.auth_token c) register_payload);
  if is_success resp then _ ← Enroll.json_body resp; mret Done else mret Done.

Definition show_status (c : AgentConfig) : M Both Exit :=
  s ← on_machine stats;
  mret (Shown (print_status debug agent_version c s)).

(** The subcommand: the run ends with it, or goes on. *)
Definition run_command (p : rstr) (cmd : option Commands) : M Both (option Exit) :=
  match cmd with
  | None | Some (Start _) => mret None
  | Some (Enroll code code_flag server start) =>
      code_str ← (match (match code with Some _ => code | None => code_flag end) with
                  | Some c => if nonempty (trim c) then mret (trim c) else ask
                  | None => ask
                  end);
      _ ← enroll code_str server p;
      mret (if start then None else Some Done)
  | Some (Doctor storage server) =>
      report ← on_machine (Diagnostics.run_diagnostics cwd disks hostname os arch outward resolves health storage server);
      mret (Some (Shown (Diagnostics.print_report report)))
  | Some Status =>
      c ← load p;
      _ ← on_machine (LocalDb.open cwd (data_dir c));
      e ← show_status c;
      mret (Some e)
  end.

(** The configuration of a machine that is enrolled, or that the user enrolls now. *)
Definition enrolled_config (p : rstr) : M Both AgentConfig :=
  c ← load p;
  if negb (nonempty (Config.auth_token c)) || negb (nonempty (Config.device_id c)) then
    code ← ask;
    _ ← enroll code (Config.server_url c) p;
    load p
  else mret c.

Definition main (cli : Cli) : M Both Exit :=
  let config_path := shellexpand home (config_file cli) in
  first ← run_command config_path (command cli);
  match first with
  | Some e => mret e
  | None =>
      c ← enrolled_config config_path;
      _ ← on_machine (LocalDb.open cwd (data_dir c));
      if register cli then register_device c
      else if status cli then show_status c
      else mret (Running (daemon_of lan_port c))
  end.

(** ** What the daemon runs with *)

Lemma load_from_file p c w w' : load p w = (Ok c, w') ->
  load_or_create cwd data_home server_env json_error p (mkWorld (machine (data w)) (pos w)) = (Ok c, mkWorld (machine (data w')) (pos w'))
  /\ cloud (data w') = cloud (data w).
Proof. intros H. by apply on_machine_Ok in H. Qed.

(** C36: the daemon.  Its tasks run only when the configuration was read from the
    file the command line names and either has a token and a device, or was read
    just after an enrollment that succeeded.  Each has its part of that one
    configuration: the synchronisation all of it, the watcher its folders, the
    tunnel the token, the device and both lists of disks, the LAN server the
    token, the device and the allowed disks (the excluded ones are not given to
    it), the discovery the device. *)
Theorem daemon_enrolled cli w d w' :
  main cli w = (Ok (Running d), w') ->
  exists c v v', load_or_create cwd data_home server_env json_error (shellexpand home (config_file cli)) v = (Ok c, v')
    /\ d = daemon_of lan_port c
    /\ synced_with d = c /\ watched d = sync_folders c
    /\ Outbound.auth_token (manager d) = Config.auth_token c /\ Outbound.device_id (manager d) = Config.device_id c
    /\ Outbound.allowed_disks (manager d) = Config.allowed_disks c /\ Outbound.excluded_disks (manager d) = Config.excluded_disks c
    /\ LanServer.auth_token (lan d) = Config.auth_token c /\ LanServer.device_id (lan d) = Config.device_id c
    /\ LanServer.allowed_disks (lan d) = Config.allowed_disks c /\ Discovery.device_id (discovery d) = Config.device_id c
    /\ (Config.auth_token c <> [] /\ Config.device_id c <> []
        \/ exists code url u u', code <> [] /\ enroll code url (shellexpand home (config_file cli)) u = (Ok tt, u')
             /\ v = mkWorld (machine (data u')) (pos u')).
Proof.
  unfold main. cbv zeta. intros H. apply bind_Ok in H as (first & w1 & F & H). destruct first as [e|].
  { exfalso. apply ret_Ok in H as [-> _]. unfold run_command in F. destruct (command cli) as [[co fl se st|st se|?|]|]; [| | by apply ret_Ok in F as [? _]| |by apply ret_Ok in F as [? _]].
    - apply bind_Ok in F as (? & ? & _ & F). apply bind_Ok in F as (? & ? & _ & F). apply ret_Ok in F as [F _]. by destruct st.
    - apply bind_Ok in F as (? & ? & _ & F). by apply ret_Ok in F as [F _].
    - apply bind_Ok in F as (? & ? & _ & F). apply bind_Ok in F as (? & ? & _ & F). apply bind_Ok in F as (? & ? & G & F).
      apply ret_Ok in F as [F _]. injection F as ->. unfold show_status in G. apply bind_Ok in G as (? & ? & _ & G). by apply ret_Ok in G as [G _]. }
  apply bind_Ok in H as (c & w2 & E & H). apply bind_Ok in H as ([] & w3 & _ & H).
  destruct (register cli).
  { exfalso. unfold register_device in H. apply bind_Ok in H as (? & ? & _ & H). destruct (is_success _); [|by apply ret_Ok in H as [? _]].
    apply bind_Ok in H as (? & ? & _ & H). by apply ret_Ok in H as [? _]. }
  destruct (status cli).
  { exfalso. unfold show_status in H. apply bind_Ok in H as (? & ? & _ & H). by apply ret_Ok in H as [? _]. }
  apply ret_Ok in H as [H _]. injection H as <-. unfold enrolled_config in E.
  apply bind_Ok in E as (c1 & w4 & L & E). destruct (negb _ || negb _) eqn:X.
  - apply bind_Ok in E as (code & w5 & A & E). apply bind_Ok in E as ([] & w6 & En & E). apply load_from_file in E as [E _].
    eexists c, _, _. split; [exact E|]. split_and!; try reflexivity. right. exists code, (Config.server_url c1), w5, w6. split; [|by split].
    unfold ask in A. apply bind_Ok in A as (r & w7 & _ & A). destruct r as [e|line]; [by apply throw_Ok in A|].
    destruct (nonempty (trim line)) eqn:N; [|by apply throw_Ok in A]. apply ret_Ok in A as [<- _]. by destruct (trim line).
  - apply ret_Ok in E as [-> _]. apply load_from_file in L as [L _]. eexists c, _, _. split; [exact L|]. split_and!; try reflexivity. left.
    apply orb_false_iff in X as [X1 X2]. by destruct (Config.auth_token c), (Config.device_id c).
Qed.
End Agent.

(** ** Instances *)

Definition demo_main (cli : Cli) (w : World Both) : outcome Exit * World Both :=
  main (O := toy_env []) (CH := plain_chrono) (JW := Codec.text_jwt) (S2 := toy_sha256) (HX := plain_hex) (UT := plain_uuid)
    (JT := Codec.exact_json) (TX := Config.plain_texts) (HV := any_header) (PR := Diagnostics.quiet_ffmpeg)
    [] Disks.demo_disks (Some (lit "box")) (lit "linux") (lit "x86_64") (lit "0.1") (Some (lit "/home")) None None None true (Some 8081)
    (fun _ => inr (lit "000 002")) (fun _ => []) (fun _ => []) None Token.toy_config (fun _ => []) [] show_int show_int Some Enroll.approval
    (fun _ _ => None) cli w.

Definition demo_cli (cmd : option Commands) (reg : bool) : Cli :=
  {| config_file := lit "~/.pcos/agent.toml"; daemon := false; register := reg; status := false; command := cmd |}.

Definition demo_first : outcome Exit * World Both :=
  demo_main (demo_cli (Some (Enroll (Some (lit " 000 002 ")) None (lit "https://h/") true)) false) Enroll.demo_start.

(** The first start of an agent: it is enrolled and goes on as a daemon. *)
Lemma daemon_enrolled_witness : exists d w', demo_first = (Ok (Running d), w')
  /\ Discovery.service_port (discovery d) = 8081 /\ Discovery.device_id (discovery d) = Config.device_id (synced_with d).
Proof.
  destruct demo_first as [o w'] eqn:E.
  assert (K : match fst demo_first with Ok (Running d) => Discovery.service_port (discovery d) = 8081 | _ => False end)
    by (vm_compute; reflexivity).
  rewrite E in K. cbn [fst] in K. destruct o as [[|l|d]|e| |]; try contradiction. exists d, w'. split; [reflexivity|]. split; [exact K|].
  destruct (daemon_enrolled (O := toy_env []) (CH := plain_chrono) (JW := Codec.text_jwt) (S2 := toy_sha256) (HX := plain_hex)
    (UT := plain_uuid) (JT := Codec.exact_json) (TX := Config.plain_texts) (HV := any_header)
    (PR := Diagnostics.quiet_ffmpeg) [] Disks.demo_disks (Some (lit "box")) (lit "linux") (lit "x86_64") (lit "0.1") (Some (lit "/home"))
    None None None true (Some 8081) (fun _ => inr (lit "000 002")) (fun _ => []) (fun _ => []) None Token.toy_config (fun _ => []) []
    show_int show_int Some Enroll.approval (fun _ _ => None)
    (demo_cli (Some (Enroll (Some (lit " 000 002 ")) None (lit "https://h/") true)) false) Enroll.demo_start d w' E)
    as (c & v & v' & _ & _ & S & _ & _ & _ & _ & _ & _ & _ & _ & D & _). rewrite S. exact D.
Defined.

Definition devices_of (w : World Both) : list Z := map Schema.Device.id (devices (cloud (data w))).

(** [--register] on an enrolled machine makes the server another device, and the
    configuration keeps the first; and a tilde before a name is taken for the
    user's own home. *)
Theorem registers_another :
  (let w1 := snd demo_first in
   let r := demo_main (demo_cli None true) w1 in
   fst r = Ok Done /\ length (devices_of w1) = 1%nat /\ length (devices_of (snd r)) = 2%nat /\ Enroll.saved (snd r) = Enroll.saved w1)
  /\ shellexpand (Some (lit "/home/me")) (lit "~alice/agent.toml") = lit "/home/mealice/agent.toml".
Proof. split; [|vm_compute; reflexivity]. vm_compute. split_and!; reflexivity. Qed.
End Agent.
