(* ===== verification/System.v ===== *)
(** * System: the services together

    backend/crates/gateway/src/main.rs mounts the services over one database
    and one disk.  A request is an operation of one of them; this file runs
    requests of any users in any order over the state they share, with the
    ticks of the background tasks between them. *)

From S2P Require Import Prelude Text Effects Externals Fs Pairing Schema Password Token Bip39 Auth Account Storage Files Tree Tenancy Quota Sharing Versions Resumable Device Backup Restore Http Paths Webdav S3 Family Policy Sync Json LanServer Transcoder Streaming Notify Cluster Maintenance Uploads Search Insight Diagnostics.

Module System.
Import Token Files Tree Tenancy.

(** The operations of Sync.v, Policy.v, Backup.v, Search.v and Insight.v; those
    of the other services have their own type in their file. *)
Inductive sync_op :=
| GetChanges (since : option Z)
| SyncStatus (device_id : Z)
| ResolveConflict (req : Sync.ResolveConflictRequest)
| AddFolder (req : Sync.AddSyncFolderRequest)
| ListFolders
| RemoveFolder (folder_id : Z)
| Message (m : Sync.SyncMessage).

Inductive policy_op :=
| ListPolicies
| CreatePolicy (req : Policy.CreatePolicyRequest)
| DeletePolicy (policy_id : rstr)
| Evaluate (req : Policy.StorageEvaluateRequest).

Inductive backup_op :=
| CreateBackup (req : Backups.CreateBackupRequest)
| ListBackups
| GetBackup (id : Z)
| DeleteBackup (id : Z)
| RestoreBackup (id : Z)
| CreateSchedule (req : Backups.CreateScheduleRequest)
| ListSchedules
| DeleteSchedule (id : Z)
| Retain (keep_count : Z)
| Verify (id : Z).

Inductive insight_op :=
| Overview
| StorageAnalytics
| ActivityTimeline
| FileTypeBreakdown
| FindDuplicates
| SmartSearch (q : rstr)
| AutoTag (filename mime_type : rstr)
| ClassifyFile (filename mime_type : rstr)
| AiStatus
| ListJobs
| JobStats.

Inductive search_op :=
| Search (q : rstr) (limit : option Z)
| Suggest (q : rstr)
| Reindex
| ExtractText (file_id : Z).

(** The handlers over the tables and the disk, and the ticks.  [Metrics] and
    [Connectivity] have no user; [Fixed] is a handler whose answer depends on no
    state: health_check, version_info and audit_licenses_quotas. *)
Inductive operation :=
| Accounts (o : Account.op)
| FilesAndLinks (o : Sharing.op)
| VersionsOf (user_id : Z) (o : Versions.op)
| Transfers (user_id : Z) (o : Resumable.op)
| Dav (user_id : Z) (hs : Http.HeaderMap) (path method : rstr) (body : rstr + bytes)
| Objects (user_id : Z) (o : S3.op)
| DevicesAndPairings (o : Devices.op)
| Clouds (user_id : Z) (o : Family.op)
| Syncing (user_id : Z) (o : sync_op)
| Policies (user_id : Z) (o : policy_op)
| BackingUp (user_id : Z) (o : backup_op)
| Media (user_id : Z) (o : Streaming.op)
| Notices (user_id : Z) (o : Notify.op)
| Replicas (user_id : Z) (o : Cluster.op)
| Handling (user_id : Z) (o : Uploads.op)
| Analysing (user_id : Z) (o : insight_op)
| Metrics
| Connectivity
| Fixed
| Tick (t : Maintenance.task).

(** The search service has the index besides. *)
Inductive request :=
| Serve (o : operation)
| Searching (user_id : Z) (o : search_op).

Section System.
Context {O : Oracle} {CH : Chrono} {JW : JsonWebToken} {S1 : Sha1} {S2 : Sha256} {HX : Hex} {AR : Argon2}
  {U : Unicode} {UT : UuidText} {MG : MimeGuess} {CO : Collation} {B64 : Base64} {HV : HttpValues} {PG : PgDates}
  {MT : Backups.ManifestText} {PR : Transcoder.Programs} {JT : Json.JsonText} {PT : Streaming.PlaybackTokens}
  {PS : Notify.PushServices} {MX : Uploads.MultipartText}
  {PL : Search.PgLower} {TV : Search.Tantivy} {OL : Insight.Ollama}.
Context (config : AuthConfig) (bootstrap : option rstr) (env_var : string -> option rstr)
  (validation_text : list string -> rstr) (base : Fs.path) (database_url : option rstr)
  (pg_dump : rstr -> Fs.path -> Fs.fs -> Fs.fs)
  (env_base : option rstr) (cwd : Fs.path) (jwt_secret : rstr) (client_error : option rstr)
  (header_error : rstr) (day_of : Z -> rstr) (decode_error : rstr) (env_url env_model : option rstr)
  (json_error : rstr -> rstr) (status_text : Z -> rstr) (outward : option rstr) (readonly : bool).

(** The directory of the backups is the environment's, not the configured one. *)
Definition backups_at : Fs.path := Backups.backup_base env_base cwd.

Definition run_sync (u : Z) (o : sync_op) : M Server unit :=
  match o with
  | GetChanges since => _ ← Sync.get_changes u since; mret tt
  | SyncStatus d => _ ← Sync.sync_status u d; mret tt
  | ResolveConflict req => Sync.resolve_conflict u req
  | AddFolder req => _ ← Sync.add_sync_folder u req; mret tt
  | ListFolders => _ ← Sync.list_sync_folders u; mret tt
  | RemoveFolder i => Sync.remove_sync_folder u i
  | Message m => _ ← Sync.respond u m; mret tt
  end.

Definition run_policy (u : Z) (o : policy_op) : M Server unit :=
  match o with
  | ListPolicies => _ ← Policy.list_policies u; mret tt
  | CreatePolicy req => _ ← Policy.create_policy u req; mret tt
  | DeletePolicy i => Policy.delete_policy u i
  | Evaluate req => _ ← Policy.evaluate_storage u req; mret tt
  end.

Definition run_backup (u : Z) (o : backup_op) : M Server unit :=
  match o with
  | CreateBackup req => _ ← Backups.create_backup backups_at database_url pg_dump u req; mret tt
  | ListBackups => _ ← Backups.list_backups u; mret tt
  | GetBackup i => _ ← Backups.get_backup u i; mret tt
  | DeleteBackup i => Backups.delete_backup backups_at u i
  | RestoreBackup i => _ ← Backups.restore_backup backups_at u i; mret tt
  | CreateSchedule req => _ ← Backups.create_schedule u req; mret tt
  | ListSchedules => _ ← Backups.list_schedules u; mret tt
  | DeleteSchedule i => Backups.delete_schedule u i
  | Retain n => _ ← Backups.enforce_retention backups_at u n; mret tt
  | Verify i => _ ← Backups.verify_backup backups_at u i; mret tt
  end.

Definition run_insight (u : Z) (o : insight_op) : M Server unit :=
  match o with
  | Overview => _ ← Insight.overview u; mret tt
  | StorageAnalytics => _ ← Insight.storage_analytics u; mret tt
  | ActivityTimeline => _ ← Insight.activity_timeline day_of u; mret tt
  | FileTypeBreakdown => _ ← Insight.file_type_breakdown u; mret tt
  | FindDuplicates => _ ← Insight.find_duplicates decode_error u; mret tt
  | SmartSearch q => _ ← Insight.smart_search u q; mret tt
  | AutoTag n m => _ ← Insight.auto_tag env_url env_model json_error status_text n m; mret tt
  | ClassifyFile n m => _ ← Insight.classify_file env_url env_model json_error status_text n m; mret tt
  | AiStatus => _ ← Insight.ai_status env_url env_model; mret tt
  | ListJobs => _ ← Insight.list_jobs u; mret tt
  | JobStats => _ ← Insight.job_stats u; mret tt
  end.

Definition run_search (u : Z) (o : search_op) : M Search.State unit :=
  match o with
  | Search q limit => _ ← Search.search u q limit; mret tt
  | Suggest q => _ ← Search.suggest u q; mret tt
  | Reindex => _ ← Search.reindex u; mret tt
  | ExtractText i => _ ← Search.extract_text env_base cwd u i; mret tt
  end.

Definition serve (o : operation) : M Server unit :=
  match o with
  | Accounts o => Account.run_op config bootstrap o
  | FilesAndLinks o => Sharing.run_op base o
  | VersionsOf u o => Versions.run_op base u o
  | Transfers u o => Resumable.run_op base u o
  | Dav u hs path method body => _ ← Webdav.dispatch_path base u hs path method body; mret tt
  | Objects u o => _ ← S3.run_op base u o; mret tt
  | DevicesAndPairings o => Devices.run_op config env_var validation_text o
  | Clouds u o => Family.run_op u o
  | Syncing u o => run_sync u o
  | Policies u o => run_policy u o
  | BackingUp u o => run_backup u o
  | Media u o => Streaming.run_op env_base cwd jwt_secret u o
  | Notices u o => Notify.run_op client_error u o
  | Replicas u o => Cluster.run_op u o
  | Handling u o => Uploads.run_op base validation_text header_error u o
  | Analysing u o => run_insight u o
  | Metrics => _ ← Insight.prometheus_metrics; mret tt
  | Connectivity => _ ← Diagnostics.get_connectivity_diagnostics env_var outward base readonly; mret tt
  | Fixed => mret tt
  | Tick t => Maintenance.tick t
  end.

Definition run (r : request) : M Search.State unit :=
  match r with
  | Serve o => Search.on_server (serve o)
  | Searching u o => run_search u o
  end.

(** Whose files a request is about: those of its user, or of the owner of the
    link whose token it shows; those of everyone for the purge of the trash and
    the expiry of links; the other services write no file. *)
Definition acts_for (s : Server) (r : request) (u : Z) : Prop :=
  match r with
  | Serve (FilesAndLinks o) => Sharing.acts_for s o u
  | Serve (VersionsOf v _ | Transfers v _ | Dav v _ _ _ _ | Objects v _ | Handling v _
           | BackingUp v (RestoreBackup _)) => u = v
  | Serve (Tick t) => t <> Maintenance.CleanTokens
  | _ => False
  end.

(** A restoration whose manifest names a row of another user does not keep to
    its user's ([restore_takes_any_row] of Restore.v). *)
Definition restores_own (s : Server) (r : request) : Prop :=
  match r with
  | Serve (BackingUp u (RestoreBackup i)) => Restoring.own_manifest backups_at u i s
  | _ => True
  end.

(** ** The services that write no file *)

Definition files_kept (s s' : Server) : Prop :=
  (schema_ok s = true -> schema_ok s' = true)
  /\ file_entries s' = file_entries s /\ file_versions s' = file_versions s /\ share_links s' = share_links s.

#[local] Instance files_kept_preorder : PreOrder files_kept.
Proof.
  split; [by intros s|]. intros s1 s2 s3 (S12 & ? & ? & ?) (S23 & ? & ? & ?).
  split_and!; [auto|congruence..].
Qed.

Lemma kept_execute {A} (f : Z -> Server -> A * Server) :
  (forall now s, file_entries (snd (f now s)) = file_entries s
     /\ file_versions (snd (f now s)) = file_versions s /\ share_links (snd (f now s)) = share_links s) ->
  preserves files_kept (execute schema_ok f).
Proof.
  intros H. apply preserves_execute; [apply _|]. intros now s a s' E S'. specialize (H now s). rewrite E in H.
  split; [done|exact H].
Qed.

(** A statement that only reads. *)
Lemma kept_read {A} (f : Z -> Server -> sql A Server) :
  (forall now s, match f now s with Rows _ s' => s' = s | _ => True end) -> preserves files_kept (statement f).
Proof.
  intros H. apply preserves_statement; [apply _|]. intros now s a s' E. specialize (H now s). rewrite E in H. by subst.
Qed.

Lemma kept_tables {A} (m : M Server A) : preserves tables_same m -> preserves files_kept m.
Proof. intros H w r w' E. rewrite (H w r w' E). by split_and!. Qed.

(** The structural rules, the steps on the disk and in the pairing store, and
    the statements that write other tables. *)
Ltac kept :=
  repeat first
    [ apply kept_execute; intros; by split_and!
    | apply kept_read; intros; first [done | by destruct (_ <? 0) | by destruct (forallb _ _) | by destruct (Insight.duplicate_groups _ _)]
    | apply preserves_modify; intros; by split_and!
    | apply kept_tables, fs_op_tables | apply kept_tables, fs_read_tables
    | apply preserves_generate; apply _ | apply preserves_validate; apply _
    | apply Account.sum_query_keeps; apply _
    | progress preserve ].

Lemma auth_kept o : preserves files_kept (Auth.run_op config bootstrap o).
Proof.
  destruct o; cbn [Auth.run_op];
    unfold Auth.register, Auth.login, Auth.refresh, Auth.logout, Auth.setup_totp, Auth.verify_totp_setup,
      Auth.disable_totp, Auth.mfa_status, Auth.check_mfa, Auth.user_column, Auth.initial_role, Auth.store_refresh_token,
      Auth.log_audit, Auth.hash_or_internal, Auth.verify_or_internal, Auth.verify_totp_now; cbv zeta; kept.
Qed.

Lemma account_kept o : preserves files_kept (Account.run_op config bootstrap o).
Proof.
  destruct o as [a| | | | | | | | |]; cbn [Account.run_op]; [apply auth_kept|..];
    unfold Account.generate_recovery_phrase, Account.verify_recovery_phrase, Account.update_profile, Account.get_profile,
      Account.change_password, Account.list_users, Account.update_role, Account.update_quota, Account.system_stats,
      Account.require_admin, Account.store_password, Account.use_key, Account.revoke_all,
      Auth.user_column, Auth.hash_or_internal, Auth.verify_or_internal; cbv zeta; kept.
Qed.

Lemma device_kept o : preserves files_kept (Devices.run_op config env_var validation_text o).
Proof.
  destruct o; cbn [Devices.run_op];
    unfold Devices.register_device_handler, Devices.register_device, Devices.insert_device, Devices.list_devices,
      Devices.remove_device, Devices.heartbeat, Devices.create_pairing_session, Devices.claim_pairing,
      Devices.claim_pairing_session, Devices.approve_pairing_session, Devices.approve_checked, Devices.approve_provision,
      Devices.pairing_status, Devices.get_pairing_status, Devices.redeem_pairing, Devices.redeem_pairing_session,
      Devices.redeem_checked, Devices.redeem_provision, Devices.validated, Devices.request_key, Devices.find_by_key,
      Devices.refuse_expired, Devices.update_session, Devices.provision, Devices.change_store, Devices.insert_device;
    cbv zeta; kept.
Qed.

Lemma family_kept u o : preserves files_kept (Family.run_op u o).
Proof.
  destruct o; cbn [Family.run_op];
    unfold Family.create_cloud, Family.list_clouds, Family.list_members, Family.invite_member, Family.update_member_role,
      Family.update_member_quota, Family.delete_member, Family.caller_role, Family.find_member; cbv zeta; kept.
Qed.

Lemma sync_kept u o : preserves files_kept (run_sync u o).
Proof.
  assert (R : forall A (m : M Server A) ok, preserves files_kept m -> preserves files_kept (Sync.reply_or m ok)).
  { intros A m ok H w r w' E. unfold Sync.reply_or in E. destruct (m w) as [x w1] eqn:Em. apply H in Em.
    destruct x; by injection E as _ <-. }
  destruct o; cbn [run_sync];
    unfold Sync.respond, Sync.get_changes, Sync.sync_status, Sync.resolve_conflict, Sync.add_sync_folder,
      Sync.list_sync_folders, Sync.remove_sync_folder, Sync.mark_synced; cbv zeta; repeat first [apply R | progress kept].
Qed.

Lemma policy_kept u o : preserves files_kept (run_policy u o).
Proof.
  destruct o; cbn [run_policy];
    unfold Policy.list_policies, Policy.create_policy, Policy.delete_policy, Policy.evaluate_storage, Policy.online_node;
    cbv zeta; kept.
Qed.

Lemma delete_old_kept l n : preserves files_kept (Backups.delete_old backups_at l n).
Proof. revert n. induction l as [|b l IH]; intros n; cbn [Backups.delete_old]; unfold Backups.remove_dir; kept. Qed.

Lemma copy_files_kept dir l : preserves files_kept (Backups.copy_files backups_at dir l).
Proof. induction l as [|e l IH]; cbn [Backups.copy_files]; unfold Backups.read_disk, Backups.write_disk; kept. Qed.

Lemma copy_versions_kept dir l : preserves files_kept (Backups.copy_versions backups_at dir l).
Proof. induction l as [|e l IH]; cbn [Backups.copy_versions]; unfold Backups.read_disk, Backups.write_disk; kept. Qed.

Lemma check_files_kept dir l c : preserves files_kept (Backups.check_files dir l c).
Proof.
  revert c. induction l as [|e l IH]; intros c; cbn [Backups.check_files];
    unfold Backups.check_file, Backups.read_disk, Backups.present; kept.
Qed.

Lemma backup_kept u o : (forall i, o <> RestoreBackup i) -> preserves files_kept (run_backup u o).
Proof.
  intros N. destruct o as [| | | |i| | | | |]; [..|destruct (N i eq_refl)| | | | |]; clear N; cbn [run_backup];
    unfold Backups.create_backup, Backups.list_backups, Backups.delete_backup, Backups.create_schedule,
      Backups.list_schedules, Backups.delete_schedule, Backups.enforce_retention, Backups.verify_backup, Backups.get_backup,
      Backups.verify_backup_dir, Backups.remove_dir, Backups.write_disk, Backups.present, Backups.read_text; cbv zeta;
    repeat first [apply delete_old_kept | apply copy_files_kept | apply copy_versions_kept | apply check_files_kept
      | progress kept].
Qed.

Lemma media_kept u o : preserves files_kept (Streaming.run_op env_base cwd jwt_secret u o).
Proof.
  assert (D : forall s d, files_kept s (set_disk d s)) by (intros; by split_and!).
  destruct o; cbn [Streaming.run_op];
    unfold Streaming.transcode, Streaming.queue_transcode, Streaming.stored_path, Streaming.execute_transcode,
      Streaming.finish_job, Streaming.fail_job, Streaming.list_jobs, Streaming.get_stream_url, Streaming.get_job, Streaming.probe,
      Streaming.generate_playback_token, Streaming.create_playback_token, Streaming.play_with_token,
      Streaming.verify_playback_token, Streaming.update_progress, Streaming.get_progress, Streaming.list_continue_watching,
      Http.build; cbv zeta;
    repeat first [apply Streaming.transcode_command_keeps; [apply _|exact D] | apply Streaming.probe_media_keeps; [apply _|exact D]
      | progress kept].
Qed.

Lemma send_all_kept l text n : preserves files_kept (Notify.send_all l text n).
Proof. revert n. induction l as [|x l IH]; intros n; cbn [Notify.send_all]; kept. Qed.

Lemma subscribe_kept u req agent : preserves files_kept (Notify.subscribe u req agent).
Proof.
  unfold Notify.subscribe. kept. apply preserves_execute_one; [apply _|]. intros now s a' s' E Sc. split; [done|].
  unfold Notify.upsert_subscription in E. destruct (exists_row _ _); injection E as _ <-; by split_and!.
Qed.

Lemma notices_kept u o : preserves files_kept (Notify.run_op client_error u o).
Proof.
  destruct o; cbn [Notify.run_op];
    unfold Notify.create_notification, Notify.post, Notify.list_notifications, Notify.mark_read, Notify.mark_all_read,
      Notify.unread_count, Notify.push_subscribe, Notify.push_unsubscribe, Notify.unsubscribe,
      Notify.list_subscriptions, Notify.send_push; cbv zeta;
    repeat first [apply send_all_kept | apply subscribe_kept | progress kept].
Qed.

Lemma insert_replica_kept i f d chk : preserves files_kept (execute schema_ok (Cluster.insert_replica i f d chk)).
Proof. apply kept_execute. intros now s. unfold Cluster.insert_replica. destruct (exists_row _ _); by split_and!. Qed.

Lemma place_kept f chk ds : preserves files_kept (Cluster.place f chk ds).
Proof.
  induction ds as [|d ds IH]; cbn [Cluster.place]; unfold attempt;
    repeat first [apply insert_replica_kept | exact IH | progress preserve].
Qed.

Lemma reconcile_kept n ds l c : preserves files_kept (Cluster.reconcile n ds l c).
Proof.
  revert c. induction l as [|f l IH]; intros c; cbn [Cluster.reconcile]; unfold Cluster.reconcile_file;
    repeat first [apply place_kept | progress kept].
Qed.

Lemma update_mode_kept u m : preserves files_kept (Cluster.update_cluster_mode u m).
Proof.
  unfold Cluster.update_cluster_mode. cbv zeta. apply preserves_bind; [apply _|apply preserves_interact; apply _|]. intros now.
  apply preserves_bind; [apply _|apply kept_execute; intros t s|intros _; apply preserves_ret; apply _].
  unfold Cluster.set_mode. destruct (Cluster.targets _). by split_and!.
Qed.

Lemma replicas_kept u o : preserves files_kept (Cluster.run_op u o).
Proof.
  destruct o; cbn [Cluster.run_op];
    unfold Cluster.get_cluster_status, Cluster.protection, Cluster.rebalance_cluster, Cluster.export_cloud_data; cbv zeta;
    repeat first [apply update_mode_kept | apply reconcile_kept | progress kept].
Qed.

Lemma group_files_kept u l : preserves files_kept (Insight.group_files u l).
Proof. induction l as [|[[h n] z] l IH]; cbn [Insight.group_files]; kept. Qed.

Lemma generate_kept p t : preserves files_kept (Insight.generate json_error status_text p t).
Proof. unfold Insight.generate. kept. Qed.

Lemma insight_kept u o : preserves files_kept (run_insight u o).
Proof.
  destruct o; cbn [run_insight];
    unfold Insight.overview, Insight.storage_analytics, Insight.activity_timeline, Insight.file_type_breakdown,
      Insight.find_duplicates, Insight.grouped, Insight.smart_search, Insight.auto_tag, Insight.suggest_tags,
      Insight.classify_file, Insight.ai_status, Insight.health_check, Insight.list_jobs, Insight.job_stats,
      Insight.number; cbv zeta;
    repeat first [apply group_files_kept | apply generate_kept | progress kept].
Qed.

Lemma metrics_kept : preserves files_kept Insight.prometheus_metrics.
Proof. unfold Insight.prometheus_metrics, Insight.number. cbv zeta. kept. Qed.

Lemma connectivity_kept : preserves files_kept (Diagnostics.get_connectivity_diagnostics env_var outward base readonly).
Proof.
  assert (A : forall f, preserves files_kept (Diagnostics.asks f)).
  { intros f. apply preserves_unwrap_or, preserves_io; [apply _|]. by intros s a s' [= _ <-]. }
  unfold Diagnostics.get_connectivity_diagnostics. cbv zeta. destruct (Diagnostics.recommendation _ _ _).
  repeat first [apply A | progress kept].
Qed.

(** *** The search service *)

Definition searched (s s' : Search.State) : Prop := files_kept (Search.server s) (Search.server s').

#[local] Instance searched_preorder : PreOrder searched.
Proof. split; [by intros s; unfold searched|]. intros s1 s2 s3 H1 H2. unfold searched in *. by transitivity (Search.server s2). Qed.

Lemma on_server_step {A} (m : M Server A) w o w' : Search.on_server m w = (o, w') ->
  exists v, m (mkWorld (Search.server (data w)) (pos w)) = (o, v) /\ Search.server (data w') = data v.
Proof. unfold Search.on_server. destruct (m _) as [x v] eqn:E. intros [= <- <-]. by exists v. Qed.

Lemma on_server_kept {A} (m : M Server A) : preserves files_kept m -> preserves searched (Search.on_server m).
Proof. intros K w o w' (v & E & D)%on_server_step. unfold searched. rewrite D. by apply K in E. Qed.

Lemma on_index_kept f : preserves searched (io (fun s => inr (tt, Search.on_index f s))).
Proof. apply preserves_io; [apply _|]. intros s a s' [= _ <-]. unfold searched. by split_and!. Qed.

Lemma index_document_kept i u n c m e : preserves searched (Search.index_document i u n c m e).
Proof.
  unfold Search.index_document. repeat first [apply on_index_kept | progress preserve].
  apply preserves_modify. intros s. unfold searched. by split_and!.
Qed.

Lemma index_rows_kept u l n : preserves searched (Search.index_rows u l n).
Proof.
  revert n. induction l as [|f l IH]; intros n; cbn [Search.index_rows]; unfold Search.index_row;
    repeat first [apply index_document_kept | apply IH | progress preserve].
Qed.

Lemma extract_kept p m : preserves files_kept (Search.extract_by_type cwd p m).
Proof.
  unfold Search.extract_by_type, Search.extract_pdf, Search.extract_plaintext, Search.extract_ocr, Search.read_bytes.
  repeat first [apply Streaming.command_keeps; [apply _|intros; by split_and!] | progress kept].
Qed.

Lemma search_kept u o : preserves searched (run_search u o).
Proof.
  assert (I : forall ix q n, preserves searched (Search.index_search ix u q n)).
  { intros ix q n w r w' E. apply Search.index_search_reads in E. unfold searched. by rewrite E. }
  destruct o; cbn [run_search]; unfold Search.search, Search.search_database, Search.suggest, Search.reindex,
    Search.live_rows, Search.extract_text; cbv zeta;
    repeat first [apply I | apply index_rows_kept | apply index_document_kept | apply preserves_get; apply _
      | apply on_server_kept; repeat first [apply extract_kept | progress kept] | progress preserve].
Qed.

Definition no_file_changes (s s' : Server) : Prop :=
  file_entries s' = file_entries s /\ file_versions s' = file_versions s /\ share_links s' = share_links s.

Lemma files_kept_tidy s s' : files_kept s s' -> tidy s -> tidy s' /\ no_file_changes s s'.
Proof.
  intros (S & F & V & L) [K [T W]]. split; [|done]. split; [by apply S|].
  unfold owned, links_owned. rewrite F, L. by split.
Qed.

(** *** The background tasks *)

Lemma clean_tokens_kept : preserves files_kept (Maintenance.tick Maintenance.CleanTokens).
Proof. cbn [Maintenance.tick]. unfold Maintenance.clean_tokens. kept. Qed.

Lemma tick_tidy t w o w' : Maintenance.tick t w = (o, w') -> tidy (data w) -> tidy (data w').
Proof.
  intros H T. destruct t.
  - apply clean_tokens_kept in H. by apply (files_kept_tidy _ _ H T).
  - apply Maintenance.discarded_data in H as [_ [E|E]]; rewrite E; [done|]. cbn [snd].
    destruct T as (Sc & Ow & L). split; [by apply Maintenance.delete_files_schema|]. split.
    + intros f q Hf Hq. apply elem_delete in Hf as [Hf _], Hq as [Hq _]. by apply Ow.
    + apply (links_owned_rows (data w)); [| |exact L].
      * intros l Hl. by apply elem_delete in Hl as [? _].
      * intros f Hf. apply elem_delete in Hf as [Hf _]. eauto.
  - apply Maintenance.discarded_step in H as [H|[H Sc]]; [by rewrite H|]. rewrite H in Sc |- *. cbn [snd] in *. destruct T as (_ & Ow & L).
    split; [exact Sc|]. split; [exact Ow|]. intros l f Hl Hf E. cbn in Hl, Hf. apply elem_update in Hl as (l0 & Hl & ->).
    assert (K : ShareLink.file_entry_id l0 = FileEntry.id f /\ ShareLink.user_id l0 = ShareLink.user_id (if Maintenance.overdue (clock_at (pos w)) l0 then ShareLink.set_is_active false l0 else l0)).
    { destruct (Maintenance.overdue _ l0); by split. }
    destruct K as [K <-]. by apply L.
Qed.

(** ** One request *)

Lemma discarded {A} (m : M Server A) w o w' : (_ ← m; mret tt) w = (o, w') -> exists o', m w = (o', w').
Proof. apply Sharing.bind_ret_inv. Qed.

(** What a request does to the files: nothing, or what its one user may do,
    unless it acts for everyone. *)
Lemma serve_step r w out w' :
  serve r w = (out, w') -> tidy (data w) -> restores_own (data w) (Serve r) ->
  tidy (data w') /\ (no_file_changes (data w) (data w')
                     \/ (exists u, acts_for (data w) (Serve r) u /\ others_kept u (data w) (data w'))
                     \/ forall u, acts_for (data w) (Serve r) u).
Proof.
  intros H T RO.
  assert (Q : forall m : M Server unit, preserves files_kept m -> m w = (out, w') ->
    tidy (data w') /\ (no_file_changes (data w) (data w')
                       \/ (exists u, acts_for (data w) (Serve r) u /\ others_kept u (data w) (data w'))
                     \/ forall u, acts_for (data w) (Serve r) u)).
  { intros m K E. apply K in E. destruct (files_kept_tidy _ _ E T) as [? ?]. split; [done|by left]. }
  destruct r as [o|o|u o|u o|u hs path method body|u o|o|u o|u o|u o|u o|u o|u o|u o|u o|u o| | | |k]; cbn [serve acts_for restores_own] in *.
  - by eapply Q, H; apply account_kept.
  - destruct (Sharing.run_op_acts base o w out w' (proj1 T) H) as [E|(u & A & I)].
    + rewrite E. split; [exact T|]. left. by split_and!.
    + destruct (I T) as [T' K]. split; [done|]. right. left. by exists u.
  - apply Versions.versions_isolated in H as [T' K]; [|done]. split; [done|]. right. left. by exists u.
  - apply Resumable.resumable_isolated in H as [T' K]; [|done]. split; [done|]. right. left. by exists u.
  - apply discarded in H as (o' & H). apply Webdav.webdav_isolated in H as [T' K]; [|done].
    split; [done|]. right. left. by exists u.
  - apply discarded in H as (o' & H). apply S3.objects_isolated in H as [T' K]; [|done].
    split; [done|]. right. left. by exists u.
  - by eapply Q, H; apply device_kept.
  - by eapply Q, H; apply family_kept.
  - by eapply Q, H; apply sync_kept.
  - by eapply Q, H; apply policy_kept.
  - destruct (match o with RestoreBackup _ => true | _ => false end) eqn:Ro.
    + destruct o as [| | | |i| | | | |]; try done. cbn [run_backup] in H. apply discarded in H as (o' & H).
      apply Restoring.restore_isolated in H as [T' K]; [|done..]. split; [done|]. right. left. by exists u.
    + eapply Q, H. apply backup_kept. by intros i ->.
  - by eapply Q, H; apply media_kept.
  - by eapply Q, H; apply notices_kept.
  - by eapply Q, H; apply replicas_kept.
  - apply Uploads.uploads_isolated in H. destruct (H T) as [T' K]. split; [done|]. right. left. by exists u.
  - by eapply Q, H; apply insight_kept.
  - eapply Q, H. apply preserves_bind; [apply _|apply metrics_kept|intros ?; apply preserves_ret; apply _].
  - eapply Q, H. apply preserves_bind; [apply _|apply connectivity_kept|intros ?; apply preserves_ret; apply _].
  - injection H as _ <-. split; [done|]. left. by split_and!.
  - assert (T' := tick_tidy _ _ _ _ H T). split; [exact T'|]. destruct k; [|right; right; by intros..].
    left. apply clean_tokens_kept in H. by apply (files_kept_tidy _ _ H T).
Qed.

Lemma request_step r w out w' :
  run r w = (out, w') -> tidy (Search.server (data w)) -> restores_own (Search.server (data w)) r ->
  tidy (Search.server (data w'))
  /\ (no_file_changes (Search.server (data w)) (Search.server (data w'))
      \/ (exists u, acts_for (Search.server (data w)) r u
            /\ others_kept u (Search.server (data w)) (Search.server (data w')))
      \/ forall u, acts_for (Search.server (data w)) r u).
Proof.
  intros H T RO. destruct r as [o|u o]; cbn [run] in H.
  - apply on_server_step in H as (v & E & ->). exact (serve_step _ _ _ _ E T RO).
  - apply search_kept in H. destruct (files_kept_tidy _ _ H T) as [? ?]. split; [done|by left].
Qed.

(** ** Sequences of requests *)

(** Requests of which each satisfies [P] in the state it meets, whatever fails. *)
Inductive runs (P : Server -> request -> Prop) : World Search.State -> World Search.State -> Prop :=
| runs_none w : runs P w w
| runs_next r out w1 w2 w3 :
    runs P w1 w2 -> P (Search.server (data w2)) r -> run r w2 = (out, w3) -> runs P w1 w3.

Lemma runs_tidy P w w' :
  (forall s r, P s r -> restores_own s r) -> runs P w w' ->
  tidy (Search.server (data w)) -> tidy (Search.server (data w')).
Proof.
  intros RO. induction 1 as [|r out w1 w2 w3 _ IH Pr E]; [done|]. intros T.
  apply (request_step _ _ _ _ E); [by apply IH|by apply RO].
Qed.

(** C1: what belongs to whom stays so.  In any sequence of requests to the
    handlers of the gateway and of ticks of its tasks, by any users or by nobody,
    whatever their arguments and whatever fails on the way, in which the manifest
    of each backup that is restored names no row of another user, a folder
    belongs to the owner of what is in it, and a link to the owner of its file,
    rules no constraint of the database states; and the constraints it does
    state hold on every table. *)
Theorem server_invariant w w' :
  runs restores_own w w' -> tidy (Search.server (data w)) ->
  let s' := Search.server (data w') in
  (forall f p, f ∈ file_entries s' -> p ∈ file_entries s' ->
     FileEntry.parent_id f = Some (FileEntry.id p) -> FileEntry.user_id p = FileEntry.user_id f)
  /\ (forall l f, l ∈ share_links s' -> f ∈ file_entries s' ->
        FileEntry.id f = ShareLink.file_entry_id l -> FileEntry.user_id f = ShareLink.user_id l)
  /\ schema_ok s' = true.
Proof.
  intros R T s'. destruct (runs_tidy _ _ _ (fun _ _ H => H) R T) as (Sc & O1 & L). split_and!; [|exact L|exact Sc].
  intros f p Hf Hp E. by eapply O1.
Qed.

(** C2: tenant isolation.  After any sequence of requests to the handlers of the
    gateway that do not act for a user, be they requests of other users to any
    service or anonymous ones that show the token of another user's link,
    whatever fails on the way, the user's files are row by row what they were,
    and their versions and the links on them are still there, provided that the
    manifest of each backup the others restore names no row of another user.
    The purge of the trash and the expiry of links act for everyone. *)
Theorem tenants_isolated v w w' :
  runs (fun s r => restores_own s r /\ ~ acts_for s r v) w w' -> tidy (Search.server (data w)) ->
  let s := Search.server (data w) in let s' := Search.server (data w') in
  select (owned_by v) (file_entries s') = select (owned_by v) (file_entries s)
  /\ (forall f x, f ∈ file_entries s -> FileEntry.user_id f = v ->
        x ∈ file_versions s -> FileVersion.file_entry_id x = FileEntry.id f -> x ∈ file_versions s')
  /\ (forall f x, f ∈ file_entries s -> FileEntry.user_id f = v ->
        x ∈ share_links s -> ShareLink.file_entry_id x = FileEntry.id f -> x ∈ share_links s').
Proof.
  induction 1 as [|r out w1 w2 w3 H IH [RO N] E]; intros T; cbv zeta in *; [by split_and!|].
  destruct (IH T) as (A & B & C). assert (T2 := runs_tidy _ _ _ (fun _ _ Q => proj1 Q) H T).
  destruct (request_step _ _ _ _ E T2 RO) as [_ [(F & V & L)|[(u & U' & A' & B' & C')|All]]].
  { rewrite F, V, L. by split_and!. }
  2: { destruct (N (All v)). }
  assert (Nu : v <> u) by (intros ->; done). set (s1 := Search.server (data w1)) in *.
  assert (F : forall f, f ∈ file_entries s1 -> FileEntry.user_id f = v -> foreign u (Search.server (data w2)) (FileEntry.id f)).
  { intros f Hf Ef. exists f. split; [|split; [done|lia]].
    assert (X : f ∈ select (owned_by v) (file_entries s1)).
    { apply elem_select. split; [done|]. by apply Z.eqb_eq. }
    rewrite <- A in X. by apply elem_select in X as [? _]. }
  split; [by rewrite A'|]. split; intros f x Hf Ef Hx Ex.
  - apply B'; [by eapply B|]. rewrite Ex. by apply F.
  - apply C'; [by eapply C|]. rewrite Ex. by apply F.
Qed.
End System.

(** ** A concrete run *)

Definition demo_ollama : Insight.Ollama := {| Insight.ollama _ _ _ := inl (lit "connection refused") |}.
Definition demo_env : option rstr := Some (lit "/srv/data").

Definition demo_run (r : request) (w : World Search.State) :=
  run (O := toy_env []) (CH := plain_chrono) (JW := toy_jwt) (S1 := toy_sha1) (S2 := toy_sha256) (HX := plain_hex)
    (AR := toy_argon2) (U := ascii_unicode) (UT := plain_uuid) (MG := octet_stream) (CO := c_collation)
    (B64 := toy_base64) (HV := any_header) (PG := epoch_dates) (MT := Backups.toy_manifest)
    (PR := Streaming.demo_programs) (JT := LanServer.toy_json) (PT := Streaming.toy_playback) (PS := Notify.demo_services)
    (MX := Uploads.plain_text) (PL := Search.plain_lower) (TV := Search.toy_tantivy) (OL := demo_ollama)
    toy_config None (fun _ => None) (fun _ => []) Storage.demo_base None Backups.toy_dump demo_env [] [] None []
    (fun _ => []) [] None None (fun _ => []) (fun _ => []) None false r w.

Abbreviation demo_runs := (runs (O := toy_env []) (CH := plain_chrono) (JW := toy_jwt) (S1 := toy_sha1) (S2 := toy_sha256)
  (HX := plain_hex) (AR := toy_argon2) (U := ascii_unicode) (UT := plain_uuid) (MG := octet_stream) (CO := c_collation)
  (B64 := toy_base64) (HV := any_header) (PG := epoch_dates) (MT := Backups.toy_manifest)
  (PR := Streaming.demo_programs) (JT := LanServer.toy_json) (PT := Streaming.toy_playback) (PS := Notify.demo_services)
  (MX := Uploads.plain_text) (PL := Search.plain_lower) (TV := Search.toy_tantivy) (OL := demo_ollama)
  toy_config None (fun _ => None) (fun _ => []) Storage.demo_base None Backups.toy_dump demo_env [] [] None []
  (fun _ => []) [] None None (fun _ => []) (fun _ => []) None false).

Abbreviation demo_own := (restores_own (UT := plain_uuid) (MT := Backups.toy_manifest) demo_env []).

(** The folders of Tree.v, Bob's, and a file of Ada's, on an empty disk. *)
Definition demo_world : World Search.State :=
  mkWorld (Search.mkState (set_disk Storage.demo_disk (data demo_shared)) (Some Search.demo_index)) 0.

(** The backup the first request makes. *)
Definition demo_backup_id : Z := Eval vm_compute in uuid_at (Oracle := toy_env []) 0.

Definition demo_requests : list request :=
  [Serve (BackingUp 2 (CreateBackup {| Backups.backup_name := lit "nightly" |}));
   Serve (Dav 2 (Webdav.demo_headers None) (lit "docs/new") (lit "PUT") (inr [7; 8]));
   Serve (FilesAndLinks (Sharing.FileOp 2 (Delete 10)));
   Serve (Objects 2 (S3.DeleteObject (lit "note")));
   Serve (BackingUp 2 (RestoreBackup demo_backup_id));
   Serve (Clouds 2 (Family.CreateCloud {| Family.cloud_name := lit "home"; Family.req_cloud_type := None |}));
   Serve (Replicas 2 Cluster.Rebalance); Serve (Notices 2 Notify.ReadAll); Serve (Media 2 Streaming.ListJobs);
   Serve (Handling 2 (Uploads.Upload Uploads.demo_body)); Searching 2 Reindex; Serve (Analysing 2 AiStatus);
   Serve (Tick Maintenance.CleanTokens)].

Fixpoint demo_after (l : list request) (w : World Search.State) : World Search.State :=
  match l with [] => w | r :: l => demo_after l (snd (demo_run r w)) end.

(** Whether each restoration on the way keeps to its user's rows. *)
Definition demo_own_test (s : Server) (r : request) : bool :=
  match r with
  | Serve (BackingUp u (RestoreBackup i)) =>
      Restoring.own_manifest_test (UT := plain_uuid) (MT := Backups.toy_manifest) (backups_at demo_env []) u i s
  | _ => true
  end.

Fixpoint demo_all_own (l : list request) (w : World Search.State) : bool :=
  match l with
  | [] => true
  | r :: l => demo_own_test (Search.server (data w)) r && demo_all_own l (snd (demo_run r w))
  end.

Lemma demo_own_ok s r : demo_own_test s r = true -> demo_own s r.
Proof.
  destruct r as [[]|]; try done. cbn [demo_own_test restores_own]. destruct o; try done. apply Restoring.own_manifest_test_ok.
Qed.

Lemma demo_after_runs (P : Server -> request -> Prop) l w0 w :
  (forall s r, r ∈ l -> demo_own s r -> P s r) -> demo_all_own l w = true ->
  demo_runs P w0 w -> demo_runs P w0 (demo_after l w).
Proof.
  revert w. induction l as [|r l IH]; intros w H A R; [exact R|]. cbn [demo_after demo_all_own] in *.
  apply andb_true_iff in A as [Ar A]. apply IH; [intros s r' Hr; apply H; by right|exact A|].
  destruct (demo_run r w) as [o w'] eqn:E.
  eapply runs_next; [exact R|apply H; [by left|by apply demo_own_ok]|exact E].
Qed.

Lemma demo_system_tidy : tidy (Search.server (data demo_world)).
Proof. exact demo_tidy. Qed.

Lemma demo_requests_own : demo_all_own demo_requests demo_world = true.
Proof. vm_compute. reflexivity. Qed.

Lemma demo_not_for_ada s r : r ∈ demo_requests -> ~ acts_for s r 1.
Proof.
  intros H. apply list_elem_of_In in H. cbn in H. repeat (destruct H as [<-|H]; [intros X; cbn in X; first [contradiction|discriminate X|by apply X]|]).
  destruct H.
Qed.

Lemma server_invariant_witness : schema_ok (Search.server (data (demo_after demo_requests demo_world))) = true.
Proof.
  refine (proj2 (proj2 (server_invariant (O := toy_env []) (CH := plain_chrono) (JW := toy_jwt) (S1 := toy_sha1) (S2 := toy_sha256)
    (HX := plain_hex) (AR := toy_argon2) (U := ascii_unicode) (UT := plain_uuid) (MG := octet_stream) (CO := c_collation)
    (B64 := toy_base64) (HV := any_header) (PG := epoch_dates) (MT := Backups.toy_manifest)
    (PR := Streaming.demo_programs) (JT := LanServer.toy_json) (PT := Streaming.toy_playback) (PS := Notify.demo_services)
    (MX := Uploads.plain_text) (PL := Search.plain_lower) (TV := Search.toy_tantivy) (OL := demo_ollama)
    toy_config None (fun _ => None) (fun _ => []) Storage.demo_base None Backups.toy_dump demo_env [] [] None []
    (fun _ => []) [] None None (fun _ => []) (fun _ => []) None false
    demo_world (demo_after demo_requests demo_world) _ demo_system_tidy))).
  apply demo_after_runs; [intros s r _ H; exact H|exact demo_requests_own|apply runs_none].
Defined.

Lemma tenants_isolated_witness :
  select (owned_by 1) (file_entries (Search.server (data (demo_after demo_requests demo_world))))
  = select (owned_by 1) (file_entries (Search.server (data demo_world))).
Proof.
  refine (proj1 (tenants_isolated (O := toy_env []) (CH := plain_chrono) (JW := toy_jwt) (S1 := toy_sha1) (S2 := toy_sha256)
    (HX := plain_hex) (AR := toy_argon2) (U := ascii_unicode) (UT := plain_uuid) (MG := octet_stream) (CO := c_collation)
    (B64 := toy_base64) (HV := any_header) (PG := epoch_dates) (MT := Backups.toy_manifest)
    (PR := Streaming.demo_programs) (JT := LanServer.toy_json) (PT := Streaming.toy_playback) (PS := Notify.demo_services)
    (MX := Uploads.plain_text) (PL := Search.plain_lower) (TV := Search.toy_tantivy) (OL := demo_ollama)
    toy_config None (fun _ => None) (fun _ => []) Storage.demo_base None Backups.toy_dump demo_env [] [] None []
    (fun _ => []) [] None None (fun _ => []) (fun _ => []) None false
    1 demo_world (demo_after demo_requests demo_world) _ demo_system_tidy)).
  apply demo_after_runs; [intros s r H R; split; [exact R|by apply demo_not_for_ada]|exact demo_requests_own|apply runs_none].
Defined.

(** What the run does: Bob backs his files up, puts a file, trashes his folders,
    deletes a note and restores the backup, so that the folders and the note are
    back; then he opens a cloud and uploads a file. *)
Example demo_requests_run :
  let s := Search.server (data (demo_after demo_requests demo_world)) in
  map (fun f => (FileEntry.user_id f, FileEntry.name f, FileEntry.is_trashed f)) (file_entries s)
  = [(2, lit "docs", false); (2, lit "sub", false); (2, lit "note", false); (1, lit "mine", false); (2, lit "new", true);
     (2, lit "a.bin", false)]
  /\ length (family_clouds s) = 1%nat.
Proof. split; vm_compute; reflexivity. Qed.
End System.
